(* ===== verification/_CoqProject ===== *)
-Q . S2P
Prelude.v
RustStr.v
Fmt.v
Errors.v
Helpers.v
NetAddr.v
Inventory.v
Policy.v
Output.v
XmlText.v
Async.v
CandidateTransaction.v
CandidateSpec.v
DeviceManager.v
DeviceManagerSpec.v
JunosTransaction.v
JunosTransactionSpec.v
ChangesetStore.v
ChangesetRecovery.v
ChangesetTools.v
ChangesetToolsSpec.v
JsonValue.v
SrxErrors.v
SignatureConfirmation.v
Xml.v
Proc.v
SrxDevice.v
License.v
ClusterStatus.v
SrxReader.v
Resolve.v
ResolveAddress.v
ResolveApplication.v
ListPolicies.v
ListNatRules.v
FlowSessions.v
PolicyMatch.v
ServicesStatus.v
VpnLifecycle.v
ClusterHealth.v
SignaturePlan.v
SignaturePoll.v
SignatureServer.v
IdpPackage.v
AppidPackage.v
SignatureWorkflowSpec.v
RustPath.v
ConfigTools.v
Template.v
ConfigToolsSpec.v
CommandTools.v
Batch.v
InventoryTools.v
InventoryToolsSpec.v
Transfer.v
Fetch.v
Upgrade.v
Trace.v
TransferSpec.v
TransferTextSpec.v
FetchSpec.v
UpgradeSpec.v
UpgradeTraceSpec.v
SiteDemo.v
BundleStaging.v
SupportBundle.v
SupportBundleSpec.v
Auth.v
Redaction.v
ServerAudit.v
ServerTools.v
SrxServer.v
Execute.v
ServerSpec.v
DispatchSpec.v
Preflight.v
SchemaAlias.v
ToolArgs.v
Startup.v
ServerDemo.v
