(* ===== verification/Prelude.v ===== *)
(** * rust-junosmcp: a verification development

    [rust-junosmcp] is an MCP server for Juniper devices.  A client calls a
    tool; the server checks what the client's token may do, and the tool talks
    to a router of the inventory over NETCONF, SSH and SCP: an operational
    command, a candidate transaction (load, diff, check or commit), one step of
    a reviewed change set, a file copy, an upgrade, or an SRX workflow.  This
    development translates the parts of the program that decide what may be
    sent to a device, in which order, and what is reported and kept afterwards,
    and proves what they promise.

    ** Parts and files

    The files follow the layers of the program; each requires the ones it
    calls.  Paths are under [src/rust-junosmcp-core/src] unless a crate is
    named ([srx-core] is [src/rust-junosmcp-srx-core/src], [server] is
    [src/rust-junosmcp/src]).  Definitions keep the source's names.  A file
    [XSpec] holds the properties of the file [X]; those of a small part stand at
    the end of its file.

    The vocabulary:
    - [Prelude]: [Result] and [let?] (Rust's [?]), [collect_results] (collecting
      an iterator of results), and the tactics and hints all files use.
    - [RustStr], [Fmt], [RustPath], [NetAddr]: the functions of Rust's
      standard library the code calls on strings, numbers, paths, floats and IP
      literals, with their lemmas.  No properties of the program.
    - [Async], [Proc]: remote calls, functions that await them, and
      functions that can be dropped part-way (see below).
    - [JsonValue], [Xml]: [serde_json]'s values and the tree [roxmltree] gives.
    - [Errors] ([error.rs]), [SrxErrors] ([srx-core/error.rs], [absence.rs]):
      the two error types, their messages and audit classes.

    What a device accepts, and sessions with it:
    - [Helpers] ([helpers.rs], [config_authority.rs]), [Inventory]
      ([inventory.rs]), [Policy] ([policy.rs]), [Output] ([output.rs]),
      [XmlText] ([srx-core/xml.rs] and the normalisation of
      [junos_transaction.rs]).
    - [CandidateTransaction] ([tools/candidate_transaction.rs], up to [run]):
      lock, load, diff, check or commit, clean up.  [DeviceManager]
      ([device_manager.rs], and [run]): sessions, the pool, cleanup taints.

    Change sets:
    - [JunosTransaction] ([junos_transaction.rs]), [ChangesetStore] (the
      coordinator's records and interfaces), [ChangesetRecovery]
      ([changeset_recovery.rs]), [ChangesetTools] ([tools/changeset.rs],
      [tools/confirm_commit.rs]).

    Tools of the core ([tools/]):
    - [InventoryTools] ([add_device.rs], [reload_devices.rs]), [ConfigTools]
      ([load_commit.rs], [commit_check.rs], [rollback_config.rs],
      [discard_candidate.rs], [config_diff.rs], [get_config.rs]), [Template]
      ([template.rs]), [CommandTools] ([execute_command.rs], [pfe.rs],
      [facts.rs], [router_list.rs]), [Batch] ([batch.rs]).
    - [Transfer] ([transfer_file.rs]), [Fetch] ([fetch_file.rs],
      [list_staged_files.rs]), [Upgrade] ([upgrade_junos.rs]).  [Trace] is what
      their properties speak of: the history of the calls that reached a device
      or the disk; [UpgradeTraceSpec] follows it through an upgrade.

    SRX workflows ([srx-core/workflows]):
    - [SignatureConfirmation] ([signature_package/confirmation.rs]): the store of
      confirmation tokens.  [SignaturePlan], [SignaturePoll], [SignatureServer]
      ([plan.rs], [poll.rs], [preflight.rs]) and, over them, [IdpPackage] and
      [AppidPackage]; [SignatureWorkflowSpec] proves both workflows' protocol.
    - [SrxDevice] (a device's RPCs, the record of those sent, the arguments of
      all SRX workflows), [License] ([license.rs]), [ClusterStatus]
      ([cluster_status.rs]).
    - [SrxReader] ([config_fetch.rs], [protocol.rs] and what all readers share).
      [Resolve] ([resolve.rs]) walks nested sets for [ResolveAddress] and
      [ResolveApplication]; [ListPolicies], [ListNatRules], [FlowSessions],
      [PolicyMatch], [ServicesStatus], [VpnLifecycle] and [ClusterHealth] model
      the files of those names.
    - [BundleStaging] ([support_bundle/staging.rs]) and [SupportBundle]
      ([mod.rs], [problem_type.rs], [artefacts.rs]): the staging directories
      and the collection of a bundle.

    The server:
    - [Auth] ([src/rust-junosmcp-auth/src/lib.rs]): the registries of tool
      names, and what is asked of a caller.
    - [Redaction] ([server/server.rs]): replies, the redaction of a body, the
      fields kept out of it, the last-mile pass.
    - [ServerAudit], [ServerTools] ([server/server.rs]): audit scopes, the gates
      the handlers share, the 28 Junos handlers ([junos_route]); [ServerSpec].
    - [SrxServer] ([server/server/srx.rs]): the 15 SRX handlers ([srx_route]).
    - [Execute] ([server/server/execute.rs], [server/server.rs]): the facade,
      [call_tool] and [list_tools]; [DispatchSpec], which also holds the
      properties of the SRX handlers.
    - [Preflight] ([server/http_transport.rs],
      [src/rust-junosmcp-auth/src/tower.rs]): what a request passes before it is
      dispatched, the bearer layer and the scope preflight.
    - [SchemaAlias] ([schema_alias.rs] and the groups of [tools/mod.rs]) and
      [ToolArgs] (every tool's argument struct, with its aliases, defaults and
      schema).
    - [Startup] ([server/env_compat.rs], [main.rs], [cli.rs], [token_cmd.rs],
      [bootstrap.rs]): the settings a server starts with, and what it refuses.
    - [SiteDemo], [ServerDemo]: a site and a server to run the theorems on.

    ** How state is represented

    - A Rust [String] is a Rocq [string] of its UTF-8 bytes, so lengths and
      slices are in bytes as in Rust.  Unsigned integers are [N] with the
      width's bound written where the code checks or saturates it ([USIZE_MAX],
      [u32] and [u64] limits); [HashMap]s are [gmap]s; where the code iterates
      over one the definition takes [gmap]'s order, and only which of several
      errors is reported first can depend on it.  A JSON object keeps the order
      of its members.
    - [Async.World B] is what a remote call sees: the clock, whether the caller
      cancelled and when, the remote state [B].  An [Rpc] is what the remote
      side would do with a call: how long it takes, its result, the state it
      leaves, and the state it leaves if it is dropped part-way, about which the
      caller learns nothing.  [await], [timeout] and [run_step] are the source's
      [.await], [tokio::time::timeout] and biased [select!] on the cancellation
      token.  All durations are in nanoseconds.
    - [Async.Act S T E] is an async function of a world with state [S].
      [Proc.Proc S T E] is one that can be dropped: it tells, for every instant,
      the state a drop there leaves, with the destructors of its locals
      ([scoped], [guarded]) run.
    - [CandidateBackend] is the source's trait of the same name; a transaction
      is verified against every instance.  [CandidateSpec.CandidateLaws] is what
      a Junos device documents about those calls (a check does not change the
      running configuration, and so on), used only by the properties that speak
      of the device's state.
    - [DeviceManager.SessionPool] has one slot per router, the cleanup taints,
      and [spawned]: the tasks given to [tokio::spawn], which run later, in any
      interleaving with other callers.  [DeviceManagerSpec.Step] is the relation
      of those interleavings over a pool and the live guards;
      [pool_single_owner] is proved for every state reachable by it.  [Batch] has
      the same for the tasks of a batch and their semaphore.
    - A [PooledDevice] (a guard) is the session it owns, or [None] once that was
      closed or given up, with its reuse flag; [drop_now] is its [Drop].
    - [JunosTransaction.Staged] is a staged transaction with its diff and its
      session; the session kept by [lock] is an argument and result of each
      call.
    - The change-set tools act on one state [S] through [ChangesetCoordinator]
      and [DeviceTransaction], in the order the code calls them; a call may
      change all of [S], so other callers may act between any two.  Their
      properties are about the log of the calls, recorded by
      [logged_coordinator] and [logged_transaction] over any implementation;
      [junos_transaction] is the implementation the server uses, built from
      [JunosTransaction].  The signature workflows are logged the same way.
    - The sweep of [ChangesetRecovery] takes the arrivals of its concurrent
      probes as a list, in the order they finish, each with the change other
      traffic made to the store meanwhile.
    - A server's state is the core's and the audit log ([ServerAudit.Served]).
      An [AuditScope] is the list of calls a handler made on it, written to the
      log when the scope is dropped, which is when the handler ends.

    ** Interfaces

    The server's handlers are verified against [ServerTools.CoreTools] and
    [SrxServer.SrxWorkflows], one field per tool of the core, so their theorems
    hold of any core; the tool files above model what stands behind the fields.
    The signature workflows are verified against [SignatureServer] (device,
    leases, token store, audit log), SRX readers against [SrxDevice], file tools
    against [StagingHost], [StagingDir] and [ScpRunner], candidate transactions
    against [CandidateBackend], change sets against [ChangesetCoordinator] and
    [DeviceTransaction].

    Code of other crates is a parameter, with documented behaviour as laws:
    [External] (the error types of [rustez], of the SSH and lock crates, with
    their [Display]); [RustezClient] and [ConfigOps] (a device handle and its
    calls, which act on a network state); [PolicyEngine], [PolicyFns] and
    [PolicyEngineLaws] ([mecmcp_policy]); [Coordinator] and
    [ChangesetCoordinator] ([mecmcp_changeset]); [Redactor], [Denylist] and
    [RedactorLaws] ([mecmcp_redact]), and [JunosRedact] for bundles; [Caller]
    ([mecmcp_auth]); [IpNetCrate] ([ipnet]); [BundleFs] (the file system and [tar]
    under a bundle, with [RemovalWorks]); [SrxCli] (the CLI over NETCONF); [Rmcp] and
    [RmcpLaws] (argument parsing); [CancelSelect] ([mecmcp_device::cancel]);
    [JsonText], [Minijinja], [Roxmltree], [TimeCrate], [Sha256] (text formats and
    digests); the file system, the regex compiler, Unicode's tables, and the wall
    clock.  Every property with hypotheses on them has a witness at concrete
    instances, in the spec files and in [SiteDemo] and [ServerDemo].

    ** What the theorems show

    - A candidate transaction follows its protocol under every interleaving of
      errors, deadlines and cancellation ([execute_protocol]); only a commit
      reaches the running configuration ([execute_never_commits]); it ends in
      bounded time unless it commits ([execute_worst_case]).
    - Sessions: a session has one owner ([pool_single_owner]), is pooled only
      clean ([run_pools_clean], [drop_agrees_with_is_reusable]), is handed out
      only live and recent ([try_checkout_spec]); a failed cleanup is remembered
      for the next caller ([run_taints]); a lock is never given up on a dirty
      session that lives on ([release_lock_spec]); connecting ends
      ([retry_transient_spec]).
    - Change sets: a commit reports what is known and no more
      ([commit_reports_faithfully]), a partial load is never unreported
      ([stage_load_failure]), nothing before the commit has effects
      ([before_commit_keeps_running]), the session that holds the lock stays out
      of the pool ([lock_keeps_session]), the comment can neither break the RPC
      ([escape_xml_text_safe]) nor get lost ([commit_comment_recoverable]).
    - Change-set tools: a plan is stored only when every action is admissible
      ([create_change_set_admission]); an apply stages only what it was allowed
      to, commits only what the device validated, and cleans up after every
      failure ([apply_change_set_protocol]); that clean-up records only what it
      proved ([abandon_failed_apply_spec]); a confirmation is sent only while
      its window is open and recorded only when acknowledged
      ([confirm_change_set_spec]).
    - Recovery: the log search finds the right entry ([entry_found_iff],
      [entry_is_the_mentioning_one]) and the sweep writes only what a device
      confirmed ([sweep_writes_only_confirmed]).
    - Admission: the policy is fail-closed and per device ([check_command_spec],
      [build_device_isolation], [build_unconfigured_closed],
      [choose_mode_spec]); a loaded inventory holds nothing an SSH command line
      could misread ([load_spec]); validators accept exactly what they document.
    - Tools: a configuration is loaded, and a command sent, only past every gate
      ([load_commit_admission], [commands_need_admission]); the tools that look
      change nothing ([looking_never_changes_config]); their [unreachable!] arms
      are ([config_tools_never_unreachable]); a batch answers every command of
      every device once ([batch_rows]) within its permits
      ([batch_within_permits]); adding and reloading devices happens whole or
      not at all ([add_device_all_or_nothing], [reload_all_or_nothing]) and
      keeps memory, disk and policy coherent ([requests_keep_coherent]).
    - Files: a copy reports success only for a verified file, never overwrites
      another without [force] ([transfer_protocol]), and a fetch leaves a whole
      file or none ([fetch_all_or_nothing]); digests read back
      ([checksum_roundtrip]); no path survives the scrubbing of an error
      ([scrub_leaves_no_path]).  An upgrade reboots only a device whose preflight
      allowed it, with the caller's confirmation, under its lease
      ([upgrade_is_gated], [preflight_verdict]), and stops waiting ([wait_ends]).
    - Signature packages: destructive steps need a token issued for the same
      caller, router, device and plan, once ([signature_protocol],
      [consume_authorised], [store_refines_ledger]); completion means the device
      runs the version asked for ([completed_is_verified]); polling ends
      ([poll_until_done_live]).
    - SRX readers: a session walk is sent only after a count within the cap
      ([flow_counts_first]); a policy match asks for global policies exactly
      when the zone's fell through ([match_follows_evaluation_order]); resolving
      a set visits every leaf once and ends ([resolve_spec]); listings report
      every rule, once ([nat_rules_say_everything], [policies_listed_once]); a
      healthy verdict needs every check's call to have succeeded
      ([pass_needs_every_call]).
    - Support bundles: asked to redact, a collection writes only what the
      redactor returned, and its manifest ([nothing_ships_unredacted]); a bundle
      describes each of its files ([bundle_describes_its_files]); a failed
      collection leaves no file behind ([bundle_or_nothing]), and collections
      for one router do not overlap ([one_collection_per_router]).
    - Server: every Junos tool is refused or let through by its gates, and then
      is exactly the core's tool ([tools_are_gated]); the facade confers nothing
      ([facade_confers_nothing]); what is listed is what can be called
      ([listed_is_callable]); SRX calls are authorized, and tokens checked,
      before a device is opened ([srx_checks_come_first]); no call goes
      unrecorded ([every_call_recorded]); fields exempt from redaction are still
      redacted ([exemptions_stay_redacted]) and of a plan the token alone is
      handed out as it is ([plan_keeps_only_its_token]).
    - Before dispatch: a request reaches the handlers only with the caller its
      token stands for ([auth_layer_spec]); the preflight refuses a body exactly
      when a call in it is beyond the caller's scopes ([preflight_spec]), and,
      over the arguments of all tools, no spelling of a device escapes it
      ([preflight_covers_arguments]); the schema shown for a tool accepts what
      its deserializer does ([published_schemas_are_exact]).
    - Starting: no variable of the environment is dropped silently, and one that
      is said to be ignored has no say ([environment_accounted]); a token file of
      the operator's own never falls back to the old one
      ([custom_path_never_falls_back]), the audit key is never rotated
      ([audit_key_kept]), and HTTP without tokens was asked for
      ([startup_is_guarded]).
    - Responses: the caps are bounds and keep the right lines
      ([process_output_max_bytes], [process_output_kept_lines]); XML repair
      leaves nothing to repair; fingerprints ignore read timestamps and nothing
      else but indentation and blank lines ([normalise_ignores_junos_attr],
      [normalise_collision_iff]).

    ** Fuel and bounds

    The loops over text take fuel from the length of their input:
    [strip_junos_go] and [strip_attrs_go] consume a byte per round
    ([strip_junos_go_fuel], [strip_attrs_go_fuel]: more changes nothing),
    [words_go] and [scrub_go] likewise, and [escape_go] takes at most two rounds
    per byte ([escape_go_ref]: with that fuel it is the structural
    [escape_ref]).  [Fmt.dec] takes one more than the binary length, which bounds
    the decimal one ([parse_usize_dec]: what it prints reads back), and
    [boundary_up] the length of the string ([boundary_up_spec]).  [retry_loop]
    takes the source's attempt count.  The polling loops take the number of
    intervals that fit before their deadline, and more fuel changes nothing:
    [status_fuel] ([status_poll_ends]), [wait_fuel] ([wait_ends]), [poll_loop]
    ([poll_until_done_live]).  [restore_exempt_fields] takes twice the nesting
    of the document ([restore_enough]), [required_go] one more than the schema's
    ([required_go_enough]).  [Resolve.walk] needs none: it is
    structural in the levels left ([MAX_RESOLUTION_DEPTH]).

    ** Not modelled

    - Logging, tracing and metrics, which return nothing the code uses; the
      heartbeat of [progress.rs], a task that notifies the client.
    - What [serde], [schemars] and [rmcp] do: arguments reach the handlers as
      records ([Rmcp.parse_call]); [ToolArgs] states which member names the
      derived deserializer takes and what a derived schema is ([describes]).
      How the coordinator serializes the status of a change set is a parameter.
    - The wiring of [main.rs] and [http_transport.rs] around the crates
      [mecmcp_transport], [mecmcp_runtime], [rustls] and [clap]: the router, the
      listener, signals, TLS, the parsing of the command line, and the commands
      that are one call into another crate ([state_cmd.rs], most of
      [token_cmd.rs]).  The server authenticates with [mecmcp_transport]'s own
      bearer boundary; [auth_layer] is the layer the auth crate exports.
    - [junos_commit_metadata.rs], a record of one field between two calls of
      [mecmcp_changeset]. *)

From stdpp Require Export base gmap strings list numbers.
From Stdlib Require Import Ascii.

#[export] Set Warnings "-clear-no-such-hyp".
#[global] Arguments String.append !s1 s2 : simpl nomatch.

(** ** Results

    [Result T E] is Rust's [Result<T, E>]; [let?] is the [?] operator. *)
Inductive Result (T E : Type) : Type :=
  | Ok (t : T)
  | Err (e : E).
Arguments Ok {T E} t.
Arguments Err {T E} e.

Declare Scope jmcp_scope.
Delimit Scope jmcp_scope with jmcp.
Notation "'let?' x := e 'in' k" :=
  (match e with Ok x => k | Err er => Err er end)
  (at level 10, x pattern, k at level 200) : jmcp_scope.
Infix "^^" := String.append (at level 60, right associativity) : jmcp_scope.
Open Scope jmcp_scope.

Definition is_ok {T E} (r : Result T E) : bool :=
  match r with Ok _ => true | Err _ => false end.
Definition result_ok {T E} (r : Result T E) : option T :=
  match r with Ok t => Some t | Err _ => None end.
Definition result_err {T E} (r : Result T E) : option E :=
  match r with Ok _ => None | Err e => Some e end.
Definition map_result {T U E} (f : T -> U) (r : Result T E) : Result U E :=
  match r with Ok t => Ok (f t) | Err e => Err e end.
Definition map_err {T E F} (f : E -> F) (r : Result T E) : Result T F :=
  match r with Ok t => Ok t | Err e => Err (f e) end.
Definition ok_or {T E} (e : E) (o : option T) : Result T E :=
  match o with Some t => Ok t | None => Err e end.

(** [iter().map(f).collect::<Result<Vec<_>, _>>()]: the first error wins. *)
Fixpoint collect_results {A T E} (f : A -> Result T E) (l : list A)
  : Result (list T) E :=
  match l with
  | [] => Ok []
  | a :: l' =>
      let? t := f a in
      let? ts := collect_results f l' in
      Ok (t :: ts)
  end.

Lemma collect_results_ok {A T E} (f : A -> Result T E) l ts :
  collect_results f l = Ok ts <-> Forall2 (fun a t => f a = Ok t) l ts.
Proof.
  revert ts; induction l as [|a l IH]; intros ts; simpl; split; intros H.
  - injection H as <-. constructor.
  - inversion H. reflexivity.
  - destruct (f a) eqn:Hf; [|discriminate].
    destruct (collect_results f l) eqn:Hl; [|discriminate].
    injection H as <-. constructor; [done|]. by apply IH.
  - inversion H as [|? ? ? ? Hf Hl]; subst. rewrite Hf.
    apply IH in Hl. by rewrite Hl.
Qed.

Lemma collect_results_err {A T E} (f : A -> Result T E) l e :
  collect_results f l = Err e ->
  exists l1 a l2, l = l1 ++ a :: l2 /\ f a = Err e /\
                  Forall (fun b => is_ok (f b) = true) l1.
Proof.
  induction l as [|a l IH]; simpl; [discriminate|].
  destruct (f a) eqn:Hf; [|intros [= <-]; by exists [], a, l].
  destruct (collect_results f l) eqn:Hl; [discriminate|].
  intros [= <-]. destruct IH as (l1 & b & l2 & -> & Hb & Hall); [done|].
  exists (a :: l1), b, l2. repeat split; [done|]. constructor; [by rewrite Hf|done].
Qed.

(** ** Automation *)

Create HintDb jmcp.
Create Rewrite HintDb jmcp.

(** Case analysis on every match and conditional of the goal, closing the
    impossible branches. *)
Ltac rs_cases :=
  repeat (case_match; simplify_eq/=; try done).

(** Case analysis on the scrutinees found in one hypothesis. *)
Ltac rs_case_in H :=
  repeat match type of H with
  | context [match ?x with _ => _ end] =>
      let E := fresh "E" in destruct x eqn:E; simplify_eq/=; try done
  end.
