(* ===== verification/RustStr.v ===== *)
(** * Rust strings

    A Rust [str] is a UTF-8 byte sequence; here it is a Rocq [string], one
    [ascii] per byte, so [len], slicing and [is_char_boundary] are byte
    operations exactly as in Rust.  This file holds the functions of Rust's
    standard library the code calls on strings ([lines], [trim], [find],
    [contains], [split_once], [join], decimal formatting, ...) with the lemmas
    about them the components share. *)

From S2P Require Import Prelude.
From Stdlib Require Import Ascii.

Definition byte_n (c : ascii) : N := N_of_ascii c.
Definition LF : ascii := "010"%char.
Definition CR : ascii := "013"%char.
Definition SP : ascii := " "%char.
Definition DQ : ascii := "034"%char.
Definition SQ : ascii := "'"%char.
Definition newline : string := String LF "".
Definition dquote : string := String DQ "".

Definition len (s : string) : N := N.of_nat (String.length s).
Definition is_empty (s : string) : bool :=
  match s with "" => true | String _ _ => false end.

(** ** Character classes *)

Definition in_range (lo hi : N) (c : ascii) : bool :=
  (lo <=? byte_n c)%N && (byte_n c <=? hi)%N.
Definition is_ascii_digit : ascii -> bool := in_range 48 57.
Definition is_ascii_upper : ascii -> bool := in_range 65 90.
Definition is_ascii_lower : ascii -> bool := in_range 97 122.
Definition is_ascii_alphanumeric (c : ascii) : bool :=
  is_ascii_digit c || is_ascii_upper c || is_ascii_lower c.
Definition is_ascii_graphic : ascii -> bool := in_range 33 126.
(** [u8::is_ascii_whitespace]: space, tab, line feed, form feed, carriage
    return (no vertical tab). *)
Definition is_ascii_whitespace (c : ascii) : bool :=
  existsb (N.eqb (byte_n c)) [32; 9; 10; 12; 13]%N.

Definition to_lower_byte (c : ascii) : ascii :=
  if is_ascii_upper c then ascii_of_N (byte_n c + 32) else c.

Fixpoint str_map (f : ascii -> ascii) (s : string) : string :=
  match s with
  | "" => ""
  | String c s' => String (f c) (str_map f s')
  end.
Definition to_ascii_lowercase : string -> string := str_map to_lower_byte.

(** [eq_ignore_ascii_case] *)
Definition eq_ignore_ascii_case (a b : string) : bool :=
  String.eqb (to_ascii_lowercase a) (to_ascii_lowercase b).

Fixpoint str_forall (p : ascii -> bool) (s : string) : bool :=
  match s with
  | "" => true
  | String c s' => p c && str_forall p s'
  end.
Definition str_exists (p : ascii -> bool) (s : string) : bool :=
  negb (str_forall (fun c => negb (p c)) s).

(** [char::is_whitespace] is the Unicode property White_Space; these are its
    encodings of one, two and three bytes. *)
Definition is_ws1 (a : ascii) : bool := in_range 9 13 a || (byte_n a =? 32)%N.
Definition is_ws2 (a b : ascii) : bool :=
  (byte_n a =? 194)%N && ((byte_n b =? 133)%N || (byte_n b =? 160)%N).
Definition is_ws3 (a b c : ascii) : bool :=
  match byte_n a, byte_n b, byte_n c with
  | 225, 154, 128 => true                          (* U+1680 *)
  | 226, 128, x => ((128 <=? x) && (x <=? 138))%N  (* U+2000 .. U+200A *)
                   || (x =? 168)%N || (x =? 169)%N (* U+2028, U+2029 *)
                   || (x =? 175)%N                 (* U+202F *)
  | 226, 129, 159 => true                          (* U+205F *)
  | 227, 128, 128 => true                          (* U+3000 *)
  | _, _, _ => false
  end%N.

(** [trim_start_by] drops whitespace characters from the front; the order in
    which the bytes of a character are met is a parameter, so that the same
    function trims a reversed string. *)
Fixpoint trim_start_by (ws2 : ascii -> ascii -> bool)
    (ws3 : ascii -> ascii -> ascii -> bool) (s : string) : string :=
  match s with
  | "" => ""
  | String a r1 =>
      if is_ws1 a then trim_start_by ws2 ws3 r1 else
      match r1 with
      | "" => s
      | String b r2 =>
          if ws2 a b then trim_start_by ws2 ws3 r2 else
          match r2 with
          | "" => s
          | String c r3 => if ws3 a b c then trim_start_by ws2 ws3 r3 else s
          end
      end
  end.

Fixpoint str_rev_app (s acc : string) : string :=
  match s with
  | "" => acc
  | String c s' => str_rev_app s' (String c acc)
  end.
Definition str_rev (s : string) : string := str_rev_app s "".
Arguments str_rev : simpl never.

Definition trim_start : string -> string := trim_start_by is_ws2 is_ws3.
Definition trim_end (s : string) : string :=
  str_rev (trim_start_by (fun a b => is_ws2 b a) (fun a b c => is_ws3 c b a)
                         (str_rev s)).
Definition trim (s : string) : string := trim_end (trim_start s).

(** [trim_start_matches(c)] for one ASCII character. *)
Fixpoint trim_start_matches (p : ascii) (s : string) : string :=
  match s with
  | String c s' => if Ascii.eqb c p then trim_start_matches p s' else s
  | "" => ""
  end.

(** ** Slicing *)

Fixpoint str_take (n : nat) (s : string) : string :=
  match n, s with
  | S n', String c s' => String c (str_take n' s')
  | _, _ => ""
  end.
Fixpoint str_drop (n : nat) (s : string) : string :=
  match n, s with
  | S n', String _ s' => str_drop n' s'
  | _, _ => s
  end.
Fixpoint str_get (n : nat) (s : string) : option ascii :=
  match n, s with
  | _, "" => None
  | O, String c _ => Some c
  | S n', String _ s' => str_get n' s'
  end.

(** A continuation byte of UTF-8 is [10xxxxxx]. *)
Definition is_continuation (c : ascii) : bool := in_range 128 191 c.
Definition is_char_boundary (s : string) (i : nat) : bool :=
  (i =? 0)%nat ||
  match str_get i s with
  | Some c => negb (is_continuation c)
  | None => (i =? String.length s)%nat
  end.

(** ** Searching *)

Definition starts_with (p s : string) : bool := String.prefix p s.
Definition ends_with (p s : string) : bool := String.prefix (str_rev p) (str_rev s).

(** [find]: the text before the first occurrence of the pattern and the text
    from it on, i.e. [(&s[..pos], &s[pos..])]. *)
Fixpoint str_find (p s : string) : option (string * string) :=
  if String.prefix p s then Some ("", s) else
  match s with
  | "" => None
  | String c s' =>
      match str_find p s' with
      | Some (b, a) => Some (String c b, a)
      | None => None
      end
  end.
Definition contains (p s : string) : bool :=
  match str_find p s with Some _ => true | None => false end.

Fixpoint find_byte (q : ascii -> bool) (s : string) : option (string * string) :=
  match s with
  | "" => None
  | String c s' =>
      if q c then Some ("", s) else
      match find_byte q s' with
      | Some (b, a) => Some (String c b, a)
      | None => None
      end
  end.
Definition has_byte (c : ascii) (s : string) : bool := str_exists (Ascii.eqb c) s.

(** The first whitespace character: the text before it and the text from it. *)
Fixpoint find_ws (s : string) : option (string * string) :=
  match s with
  | "" => None
  | String a r1 =>
      let here := is_ws1 a ||
        match r1 with
        | String b r2 => is_ws2 a b ||
            match r2 with String c _ => is_ws3 a b c | "" => false end
        | "" => false
        end in
      if here then Some ("", s) else
      match find_ws r1 with
      | Some (b, t) => Some (String a b, t)
      | None => None
      end
  end.

(** [str::replace] of one byte by a string. *)
Fixpoint replace_byte (c : ascii) (r : string) (s : string) : string :=
  match s with
  | "" => ""
  | String x s' =>
      if Ascii.eqb x c then r +:+ replace_byte c r s'
      else String x (replace_byte c r s')
  end.

(** [split] on one byte. *)
Fixpoint split_byte (c : ascii) (s : string) : list string :=
  match s with
  | "" => [""]
  | String x s' =>
      if Ascii.eqb x c then "" :: split_byte c s'
      else match split_byte c s' with
           | [] => [String x ""]
           | l :: ls => String x l :: ls
           end
  end.

(** ** Lines *)

(** [str::lines]: split after each line feed, dropping it and one carriage
    return before it; a final line feed starts no further line. *)
Fixpoint lines (s : string) : list string :=
  match s with
  | "" => []
  | String c s' =>
      if Ascii.eqb c LF then "" :: lines s'
      else if Ascii.eqb c CR && starts_with newline s' then lines s'
      else match lines s' with
           | [] => [String c ""]
           | l :: ls => String c l :: ls
           end
  end.
Definition join (sep : string) (ls : list string) : string := String.concat sep ls.

(** ** Characters

    [chars] groups a lead byte with the continuation bytes after it; an ASCII
    byte is a character of its own. *)
Definition starts_continuation (s : string) : bool :=
  match s with String c _ => is_continuation c | "" => false end.
Fixpoint chars (s : string) : list string :=
  match s with
  | "" => []
  | String c s' =>
      match chars s' with
      | [] => [String c ""]
      | ch :: chs =>
          if starts_continuation ch && (128 <=? byte_n c)%N
          then String c ch :: chs
          else String c "" :: ch :: chs
      end
  end.
(** [chars().take(n).collect::<String>()] *)
Fixpoint take_chars (n : nat) (s : string) : string :=
  match s with
  | "" => ""
  | String c s' =>
      if is_continuation c then String c (take_chars n s')
      else match n with
           | O => ""
           | S n' => String c (take_chars n' s')
           end
  end.

(** [while !s.is_char_boundary(i) { i -= 1 }] and its upward twin. *)
Fixpoint boundary_down (s : string) (i : nat) : nat :=
  if is_char_boundary s i then i else
  match i with O => O | S i' => boundary_down s i' end.
Fixpoint boundary_up (fuel : nat) (s : string) (i : nat) : nat :=
  if is_char_boundary s i then i else
  match fuel with O => i | S f => boundary_up f s (S i) end.

(** ** Lemmas *)

Lemma length_app_str (a b : string) :
  String.length (a +:+ b) = (String.length a + String.length b)%nat.
Proof. induction a as [|c a IH]; [done|]. cbn. by rewrite IH. Qed.

Lemma app_str_assoc (a b c : string) : (a +:+ b) +:+ c = a +:+ (b +:+ c).
Proof. induction a as [|x a IH]; [done|]. cbn. f_equal. apply IH. Qed.

Lemma app_str_nil_r (a : string) : a +:+ "" = a.
Proof. induction a as [|x a IH]; [done|]. cbn. f_equal. apply IH. Qed.

#[export] Hint Rewrite length_app_str app_str_assoc app_str_nil_r : jmcp.

Lemma take_drop_str n s : str_take n s +:+ str_drop n s = s.
Proof.
  revert s; induction n as [|n IH]; intros [|c s]; try done.
  cbn. f_equal. apply IH.
Qed.

Lemma length_str_take n s :
  String.length (str_take n s) = Nat.min n (String.length s).
Proof.
  revert s; induction n as [|n IH]; intros [|c s]; try done. cbn. by rewrite IH.
Qed.

Lemma length_str_drop n s :
  String.length (str_drop n s) = (String.length s - n)%nat.
Proof.
  revert s; induction n as [|n IH]; intros [|c s]; try done. cbn. apply IH.
Qed.

Lemma is_char_boundary_0 s : is_char_boundary s 0 = true.
Proof. done. Qed.

Lemma str_get_length s : str_get (String.length s) s = None.
Proof. induction s as [|c s IH]; [done|exact IH]. Qed.

Lemma is_char_boundary_length s : is_char_boundary s (String.length s) = true.
Proof.
  unfold is_char_boundary. rewrite str_get_length, Nat.eqb_refl.
  apply orb_true_r.
Qed.

Lemma boundary_down_spec s i :
  is_char_boundary s (boundary_down s i) = true /\ (boundary_down s i <= i)%nat.
Proof.
  induction i as [|i [IH1 IH2]]; [done|]. cbn [boundary_down].
  destruct (is_char_boundary s (S i)) eqn:H; [done|]. split; [done|lia].
Qed.

(** The fuel of [boundary_up] suffices: the end of the string is a boundary. *)
Lemma boundary_up_spec f s i :
  (i <= String.length s)%nat -> (String.length s - i <= f)%nat ->
  is_char_boundary s (boundary_up f s i) = true /\
  (i <= boundary_up f s i <= String.length s)%nat.
Proof.
  revert i; induction f as [|f IH]; intros i Hi Hf; cbn [boundary_up];
    destruct (is_char_boundary s i) eqn:H; try done.
  - replace i with (String.length s) in H by lia.
    by rewrite is_char_boundary_length in H.
  - destruct (decide (i = String.length s)) as [->|].
    + by rewrite is_char_boundary_length in H.
    + destruct (IH (S i)) as [H1 H2]; [lia..|]. split; [done|lia].
Qed.

Lemma prefix_app p s : String.prefix p s = true <-> exists t, s = p +:+ t.
Proof.
  revert s; induction p as [|c p IH]; intros s; cbn.
  - split; [by exists s|by destruct s].
  - destruct s as [|d s]; cbn.
    + split; [done|intros [t [=]]].
    + destruct (ascii_dec c d) as [->|Hne].
      * rewrite IH. split; intros [t Ht]; exists t; [by rewrite Ht|congruence].
      * split; [done|]. intros [t [= Hc _]]. congruence.
Qed.

Lemma str_find_some p s b a :
  str_find p s = Some (b, a) -> s = b +:+ a /\ String.prefix p a = true.
Proof.
  revert b a; induction s as [|c s IH]; intros b a; cbn [str_find].
  - destruct (String.prefix p "") eqn:H; [|done]. by intros [= <- <-].
  - destruct (String.prefix p (String c s)) eqn:H.
    { by intros [= <- <-]. }
    destruct (str_find p s) as [[b' a']|] eqn:Hf; [|done].
    intros [= <- <-]. destruct (IH _ _ eq_refl) as [-> ?]. done.
Qed.

Lemma str_find_none p s :
  str_find p s = None <-> forall b a, s = b +:+ a -> String.prefix p a = false.
Proof.
  induction s as [|c s IH]; cbn [str_find]; split.
  - destruct (String.prefix p "") eqn:H; [done|].
    intros _ b a Hba. destruct b; [|done]. cbn in Hba. by subst.
  - intros H. by rewrite (H "" "" eq_refl).
  - destruct (String.prefix p (String c s)) eqn:H; [done|].
    destruct (str_find p s) as [[??]|] eqn:Hf; [done|]. intros _ b a Hba.
    destruct b as [|d b]; cbn in Hba; [by subst|].
    injection Hba as _ Hba. destruct IH as [IH _]. eauto.
  - intros H. rewrite (H "" (String c s) eq_refl).
    destruct IH as [_ IH]. rewrite IH; [done|]. intros b a ->. by apply (H (String c b)).
Qed.

Lemma contains_app p s : contains p s = true <-> exists b a, s = b +:+ p +:+ a.
Proof.
  unfold contains. split.
  - destruct (str_find p s) as [[b a]|] eqn:H; [|done]. intros _.
    apply str_find_some in H as [-> Hp]. apply prefix_app in Hp as [t ->]. by exists b, t.
  - intros (b & a & ->). destruct (str_find p _) eqn:H; [done|].
    eapply (proj1 (str_find_none _ _)) in H; [|done].
    assert (String.prefix p (p +:+ a) = true) by (apply prefix_app; eauto). congruence.
Qed.

Lemma str_forall_app p a b :
  str_forall p (a +:+ b) = str_forall p a && str_forall p b.
Proof. induction a as [|c a IH]; [done|]. cbn. rewrite IH. by destruct (p c). Qed.

Lemma str_forall_impl (p q : ascii -> bool) s :
  (forall c, p c = true -> q c = true) ->
  str_forall p s = true -> str_forall q s = true.
Proof.
  intros Hpq. induction s as [|c s IH]; [done|]. cbn.
  rewrite !andb_true_iff. intros [??]. auto.
Qed.

Lemma has_byte_cons d c s : has_byte d (String c s) = Ascii.eqb d c || has_byte d s.
Proof. unfold has_byte, str_exists. cbn. by rewrite negb_andb, negb_involutive. Qed.

(** An ASCII byte of a string is one of its characters. *)
Lemma chars_ascii d s :
  (byte_n d <? 128)%N = true -> has_byte d s = true -> In (String d "") (chars s).
Proof.
  intros Hd. apply N.ltb_lt in Hd.
  induction s as [|c s IH]; [done|].
  rewrite has_byte_cons, orb_true_iff. cbn [chars].
  assert (Hc : starts_continuation (String d "") = false).
  { unfold starts_continuation, is_continuation, in_range.
    apply andb_false_intro1, N.leb_gt. lia. }
  intros [He|Hs].
  - apply Ascii.eqb_eq in He as <-. destruct (chars s) as [|ch chs]; [by left|].
    replace (128 <=? byte_n d)%N with false by (symmetry; apply N.leb_gt; lia).
    rewrite andb_false_r. by left.
  - specialize (IH Hs). destruct (chars s) as [|ch chs]; [done|].
    destruct (starts_continuation ch && _) eqn:Hm; [|by right].
    destruct IH as [->|IH]; [by rewrite Hc in Hm|by right].
Qed.

(** Over ASCII text, characters are bytes. *)
Definition is_ascii (s : string) : bool := str_forall (fun c => byte_n c <? 128)%N s.
Lemma chars_is_ascii s :
  is_ascii s = true -> chars s = map (fun c => String c "") (String.list_ascii_of_string s).
Proof.
  unfold is_ascii. induction s as [|c s IH]; [done|]. cbn.
  rewrite andb_true_iff. intros [Hc Hs]. rewrite (IH Hs).
  destruct (map _ _); [done|].
  replace (128 <=? byte_n c)%N with false
    by (symmetry; apply N.leb_gt, N.ltb_lt; done).
  by rewrite andb_false_r.
Qed.

(** Lines hold no line feed, and text built from [n] lines has at most [n]. *)
Definition no_lf (s : string) : bool := str_forall (fun c => negb (Ascii.eqb c LF)) s.

Lemma lines_no_lf s : Forall (fun l => no_lf l = true) (lines s).
Proof.
  induction s as [|c s IH]; [constructor|]. cbn [lines].
  destruct (Ascii.eqb c LF) eqn:Hc; [by constructor|].
  destruct (_ && _); [done|].
  destruct (lines s) as [|l ls]; unfold no_lf in *; cbn.
  - constructor; [|constructor]. cbn. by rewrite Hc.
  - inversion IH; subst. constructor; [|done]. cbn. by rewrite Hc.
Qed.

Lemma length_lines_cons_lf l t :
  no_lf l = true -> length (lines (l ^^ newline ^^ t)) = S (length (lines t)).
Proof.
  unfold no_lf. induction l as [|c l IH]; [done|]. cbn [str_forall].
  rewrite andb_true_iff, negb_true_iff. intros [Hc Hl]. specialize (IH Hl).
  cbn [String.append lines]. rewrite Hc.
  destruct (_ && _); [done|].
  destruct (lines (l ^^ newline ^^ t)); [done|exact IH].
Qed.

Lemma length_lines_no_lf l : no_lf l = true -> (length (lines l) <= 1)%nat.
Proof.
  unfold no_lf. induction l as [|c l IH]; [cbn; lia|]. cbn [str_forall].
  rewrite andb_true_iff, negb_true_iff. intros [Hc Hl]. specialize (IH Hl).
  cbn [lines]. rewrite Hc. destruct (_ && _); [done|].
  destruct (lines l); cbn in *; lia.
Qed.

Lemma join_cons sep x xs :
  xs <> [] -> join sep (x :: xs) = x ^^ sep ^^ join sep xs.
Proof. by destruct xs. Qed.

Lemma join_snoc sep xs x :
  xs <> [] -> join sep (xs ++ [x]) = join sep xs ^^ sep ^^ x.
Proof.
  intros Hne. induction xs as [|y xs IH]; [done|].
  destruct xs as [|z xs]; [done|].
  change ((y :: z :: xs) ++ [x]) with (y :: (z :: xs) ++ [x]).
  rewrite !join_cons by done. rewrite IH by done.
  by rewrite !app_str_assoc.
Qed.

Lemma length_lines_join ls :
  Forall (fun l => no_lf l = true) ls ->
  (length (lines (join newline ls)) <= length ls)%nat.
Proof.
  induction 1 as [|l ls Hl Hls IH]; [cbn; lia|].
  destruct (decide (ls = [])) as [->|Hne]; [by apply length_lines_no_lf|].
  rewrite join_cons, length_lines_cons_lf by done. cbn [length]. lia.
Qed.

(** Counting lines without building them. *)
Fixpoint line_count (s : string) : nat :=
  match s with
  | "" => 0
  | String c s' =>
      if Ascii.eqb c LF then S (line_count s') else Nat.max 1 (line_count s')
  end.

Lemma length_lines s : length (lines s) = line_count s.
Proof.
  induction s as [|c s IH]; [done|]. cbn [lines line_count].
  destruct (Ascii.eqb c LF); [cbn; by rewrite IH|].
  destruct (Ascii.eqb c CR && starts_with newline s) eqn:Hcr.
  - apply andb_true_iff in Hcr as [_ Hn]. apply prefix_app in Hn as [t ->].
    rewrite IH. cbn. lia.
  - destruct (lines s); cbn in *; lia.
Qed.

Lemma line_count_take n s : (line_count (str_take n s) <= line_count s)%nat.
Proof.
  revert s; induction n as [|n IH]; intros [|c s]; cbn; try lia.
  specialize (IH s). destruct (Ascii.eqb c LF); lia.
Qed.
Lemma line_count_drop n s : (line_count (str_drop n s) <= line_count s)%nat.
Proof.
  revert s; induction n as [|n IH]; intros [|c s]; cbn; try lia.
  specialize (IH s). destruct (Ascii.eqb c LF); lia.
Qed.

(** Cutting a text short and putting something on a new line after the cut
    adds at most the lines of the addition. *)
Lemma line_count_cut n s b :
  (n < String.length s)%nat ->
  (line_count (str_take n s ^^ newline ^^ b) <= line_count s + line_count b)%nat.
Proof.
  revert s; induction n as [|n IH]; intros [|c s]; cbn [String.length]; try lia.
  - intros _. cbn. destruct (Ascii.eqb c LF); lia.
  - intros Hn. specialize (IH s ltac:(lia)).
    cbn [str_take String.append line_count]. destruct (Ascii.eqb c LF); lia.
Qed.

(** Reversal, and what trimming preserves. *)
Lemma str_rev_app_spec s acc : str_rev_app s acc = str_rev s ^^ acc.
Proof.
  unfold str_rev. revert acc; induction s as [|c s IH]; intros acc; [done|].
  cbn. rewrite (IH (String c acc)), (IH (String c "")). by rewrite app_str_assoc.
Qed.
Lemma str_rev_cons c s : str_rev (String c s) = str_rev s ^^ String c "".
Proof. exact (str_rev_app_spec s (String c "")). Qed.
Lemma str_rev_app_str a b : str_rev (a ^^ b) = str_rev b ^^ str_rev a.
Proof.
  induction a as [|c a IH]; cbn; [by rewrite app_str_nil_r|].
  by rewrite !str_rev_cons, IH, app_str_assoc.
Qed.
Lemma str_rev_involutive s : str_rev (str_rev s) = s.
Proof.
  induction s as [|c s IH]; [done|]. by rewrite str_rev_cons, str_rev_app_str, IH.
Qed.
Lemma str_forall_rev p s : str_forall p (str_rev s) = str_forall p s.
Proof.
  induction s as [|c s IH]; [done|]. rewrite str_rev_cons, str_forall_app, IH.
  cbn. rewrite andb_true_r. apply andb_comm.
Qed.

(** [trim_start_by] returns a suffix whose first byte is no ASCII space. *)
Lemma trim_start_by_spec w2 w3 n s :
  (String.length s <= n)%nat ->
  (exists p, s = p ^^ trim_start_by w2 w3 s) /\
  forall c t, trim_start_by w2 w3 s = String c t -> is_ws1 c = false.
Proof.
  assert (Hsuf : forall p u t, (exists q, u = q ^^ t) -> exists q, p ^^ u = q ^^ t).
  { intros p u t [q ->]. exists (p ^^ q). by rewrite app_str_assoc. }
  revert s; induction n as [|n IH]; intros [|a r1]; cbn [String.length]; try lia.
  1,2: by split; [exists ""|].
  intros Hn. cbn [trim_start_by]. destruct (is_ws1 a) eqn:Ha.
  { destruct (IH r1 ltac:(lia)) as [H1 H2].
    split; [|done]. by apply (Hsuf (String a "")). }
  assert (Hstop : (exists p, String a r1 = p ^^ String a r1) /\
                  forall c t, String a r1 = String c t -> is_ws1 c = false).
  { split; [by exists ""|]. by intros c t [= <- _]. }
  destruct r1 as [|b r2]; [done|]. cbn [String.length] in *. destruct (w2 a b).
  { destruct (IH r2 ltac:(lia)) as [H1 H2].
    split; [|done]. by apply (Hsuf (String a (String b ""))). }
  destruct r2 as [|c r3]; [done|]. cbn [String.length] in *. destruct (w3 a b c); [|done].
  destruct (IH r3 ltac:(lia)) as [H1 H2].
  split; [|done]. by apply (Hsuf (String a (String b (String c "")))).
Qed.

Lemma str_forall_trim p s : str_forall p s = true -> str_forall p (trim s) = true.
Proof.
  intros H. unfold trim, trim_end, trim_start.
  destruct (trim_start_by_spec is_ws2 is_ws3 _ s (Nat.le_refl _)) as [[q Hq] _].
  rewrite Hq, str_forall_app in H. apply andb_true_iff in H as [_ H].
  rewrite str_forall_rev. set (u := trim_start_by is_ws2 is_ws3 s) in *.
  set (w2 := fun a b => is_ws2 b a). set (w3 := fun a b c => is_ws3 c b a).
  destruct (trim_start_by_spec w2 w3 _ (str_rev u) (Nat.le_refl _)) as [[q' Hq'] _].
  rewrite <- str_forall_rev, Hq', str_forall_app in H.
  by apply andb_true_iff in H as [_ ->].
Qed.

(** A trimmed string does not end in an ASCII space. *)
Lemma trim_last s t c : trim s = t ^^ String c "" -> is_ws1 c = false.
Proof.
  unfold trim, trim_end. intros H. apply (f_equal str_rev) in H.
  rewrite str_rev_involutive, str_rev_app_str in H. cbn in H.
  by eapply trim_start_by_spec in H.
Qed.

(** Joining lines that are non-empty, hold no line feed and do not end in a
    carriage return, then splitting, gives the lines back. *)
Definition ends_in (c : ascii) (s : string) : Prop := exists t, s = t ^^ String c "".
Definition clean_line (l : string) : Prop :=
  l <> "" /\ no_lf l = true /\ ~ ends_in CR l.

Lemma starts_with_newline d s : starts_with newline (String d s) = Ascii.eqb d LF.
Proof.
  change (starts_with newline (String d s))
    with (if ascii_dec LF d then String.prefix "" s else false).
  destruct (ascii_dec LF d) as [<-|Hn]; [by destruct s|].
  symmetry. apply Ascii.eqb_neq. congruence.
Qed.

Lemma lines_clean_app l t : clean_line l -> lines (l ^^ newline ^^ t) = l :: lines t.
Proof.
  intros (Hne & Hl & Hcr). unfold no_lf in Hl.
  induction l as [|c l IH]; [done|]. cbn [str_forall] in Hl.
  apply andb_true_iff in Hl as [Hc Hl]. apply negb_true_iff in Hc.
  cbn [String.append lines]. rewrite Hc. destruct l as [|d l].
  - cbn [String.append].
    destruct (Ascii.eqb_spec c CR) as [->|Hn]; [destruct Hcr; by exists ""|].
    cbn. by destruct (Ascii.eqb_spec c CR).
  - assert (Hd : starts_with newline ((String d l) ^^ newline ^^ t) = false).
    { cbn [str_forall] in Hl. apply andb_true_iff in Hl as [Hd _].
      apply negb_true_iff in Hd. cbn [String.append]. by rewrite starts_with_newline. }
    rewrite Hd, andb_false_r, IH; [done..|].
    intros [u Hu]. apply Hcr. exists (String c u). by rewrite Hu.
Qed.

Lemma lines_clean l : clean_line l -> lines l = [l].
Proof.
  intros (Hne & Hl & _). unfold no_lf in Hl.
  induction l as [|c l IH]; [done|]. cbn [str_forall] in Hl.
  apply andb_true_iff in Hl as [Hc Hl]. apply negb_true_iff in Hc.
  cbn [lines]. rewrite Hc. destruct l as [|d l].
  - cbn. by rewrite andb_false_r.
  - assert (Hd : starts_with newline (String d l) = false).
    { cbn [str_forall] in Hl. apply andb_true_iff in Hl as [Hd _].
      apply negb_true_iff in Hd. by rewrite starts_with_newline. }
    by rewrite Hd, andb_false_r, IH.
Qed.

Lemma lines_join ls : Forall clean_line ls -> lines (join newline ls) = ls.
Proof.
  induction 1 as [|l ls Hl Hls IH]; [done|].
  destruct (decide (ls = [])) as [->|Hne]; [by apply lines_clean|].
  by rewrite join_cons, lines_clean_app, IH.
Qed.

Lemma prefix_app_long p a b :
  (String.length p <= String.length a)%nat ->
  String.prefix p (a ^^ b) = String.prefix p a.
Proof.
  revert a; induction p as [|c p IH]; intros a.
  { by destruct a, b. }
  destruct a as [|d a]; cbn [String.length]; intros H; [lia|]. cbn. destruct (ascii_dec c d); [|done]. apply IH. lia.
Qed.

(** The first occurrence: no match may begin before the one shown. *)
Lemma str_find_first p q x s t :
  p = q ^^ String x "" -> contains p (s ^^ q) = false ->
  str_find p (s ^^ p ^^ t) = Some (s, p ^^ t).
Proof.
  intros Hp. assert (Hpre : String.prefix p (p ^^ t) = true)
    by (apply prefix_app; eauto).
  induction s as [|c s IH]; intros Hno.
  - cbn [String.append]. destruct (p ^^ t) eqn:He; cbn [str_find]; by rewrite Hpre.
  - cbn [String.append str_find].
    assert (Hf : String.prefix p (String c (s ^^ p ^^ t)) = false).
    { assert (Hk : String c (s ^^ p ^^ t) = (String c s ^^ q) ^^ String x "" ^^ t).
      { rewrite Hp, !app_str_assoc. by cbn. }
      rewrite Hk, prefix_app_long by (rewrite Hp, !length_app_str; cbn; lia).
      apply not_true_is_false. intros [u Hu]%prefix_app.
      assert (contains p (String c s ^^ q) = true)
        by (apply contains_app; exists "", u; exact Hu). congruence. }
    rewrite Hf, IH; [done|].
    destruct (contains p (s ^^ q)) eqn:Hc; [|done]. apply contains_app in Hc as (b & a & Hc).
    assert (contains p (String c s ^^ q) = true)
      by (apply contains_app; exists (String c b), a; cbn; by rewrite Hc). congruence.
Qed.

(** ** Replacing a byte *)

Lemma replace_byte_none c r s :
  str_forall (fun d => negb (Ascii.eqb d c)) s = true -> replace_byte c r s = s.
Proof.
  induction s as [|d s IH]; [done|]. cbn. rewrite andb_true_iff, negb_true_iff.
  intros [-> H]. by rewrite IH.
Qed.
Lemma replace_byte_app c r a b : replace_byte c r (a ^^ b) = replace_byte c r a ^^ replace_byte c r b.
Proof.
  induction a as [|d a IH]; [done|]. cbn [String.append replace_byte].
  destruct (Ascii.eqb d c); rewrite IH; by rewrite ?app_str_assoc.
Qed.

(** Text between two graphic ASCII characters is already trimmed. *)
Lemma ascii_no_ws2 a b : (byte_n a <? 128)%N = true -> is_ws2 a b = false /\ is_ws2 b a = false.
Proof.
  rewrite N.ltb_lt. intros H. unfold is_ws2.
  rewrite (proj2 (N.eqb_neq (byte_n a) 194)), (proj2 (N.eqb_neq (byte_n a) 133)),
    (proj2 (N.eqb_neq (byte_n a) 160)) by lia. by rewrite andb_false_r.
Qed.

Lemma ascii_no_ws3 a b c :
  (byte_n a <? 128)%N = true -> is_ws3 a b c = false /\ is_ws3 c b a = false.
Proof.
  rewrite N.ltb_lt. intros H. unfold is_ws3. split; repeat case_match; try done; try lia.
  all: rewrite !orb_false_iff, andb_false_iff, N.leb_gt, !N.eqb_neq; lia.
Qed.

Lemma graphic_ascii c : is_ascii_graphic c = true ->
  is_ws1 c = false /\ (byte_n c <? 128)%N = true.
Proof.
  unfold is_ascii_graphic, is_ws1, in_range. rewrite andb_true_iff, !N.leb_le. intros [H1 H2].
  rewrite N.ltb_lt, orb_false_iff, andb_false_iff, !N.leb_gt, N.eqb_neq. lia.
Qed.

Lemma trim_start_by_graphic w2 w3 a t :
  is_ascii_graphic a = true -> (forall b, w2 a b = false) -> (forall b c, w3 a b c = false) ->
  trim_start_by w2 w3 (String a t) = String a t.
Proof.
  intros [H _]%graphic_ascii H2 H3. cbn [trim_start_by]. rewrite H.
  destruct t as [|b [|c t]]; [done|by rewrite H2|by rewrite H2, H3].
Qed.

Lemma trim_graphic a t d :
  is_ascii_graphic a = true -> is_ascii_graphic d = true ->
  trim (String a (t ^^ String d "")) = String a (t ^^ String d "").
Proof.
  intros Ha Hd. pose proof (graphic_ascii a Ha) as [_ Ha']. pose proof (graphic_ascii d Hd) as [_ Hd'].
  unfold trim, trim_start. rewrite trim_start_by_graphic; [|done| |].
  2: intros b; exact (proj1 (ascii_no_ws2 a b Ha')).
  2: intros b c; exact (proj1 (ascii_no_ws3 a b c Ha')).
  unfold trim_end. change (String a (t ^^ String d "")) with (String a t ^^ String d "").
  rewrite str_rev_app_str. change (str_rev (String d "")) with (String d "").
  cbn [String.append]. rewrite trim_start_by_graphic; [|done| |].
  - change (String d (str_rev (String a t))) with (str_rev (String d "") ^^ str_rev (String a t)).
    by rewrite <- str_rev_app_str, str_rev_involutive.
  - intros b. exact (proj2 (ascii_no_ws2 d b Hd')).
  - intros b c. exact (proj2 (ascii_no_ws3 d b c Hd')).
Qed.

Lemma str_take_length_app a b : str_take (String.length a) (a ^^ b) = a.
Proof. induction a as [|c a IH]; [done|]. cbn. by rewrite IH. Qed.

(** *** Prefixes and the first byte of a class *)

Lemma prefix_cons c p d s :
  String.prefix (String c p) (String d s) = Ascii.eqb c d && String.prefix p s.
Proof.
  cbn [String.prefix]. destruct (ascii_dec c d) as [<-|Hn].
  - by rewrite Ascii.eqb_refl.
  - by rewrite (proj2 (Ascii.eqb_neq c d) Hn).
Qed.

Lemma find_byte_none q s : find_byte q s = None <-> str_forall (fun c => negb (q c)) s = true.
Proof.
  induction s as [|c s IH]; [done|]. cbn. destruct (q c); [done|]. cbn. rewrite <- IH.
  by destruct (find_byte q s) as [[]|].
Qed.
