(* ===== verification/Fmt.v ===== *)
(** * Formatting and parsing of numbers

    Rust's decimal [Display] of unsigned integers, the [Debug] forms of
    [Duration] and of string vectors used by the error messages, and
    [str::parse::<usize>], with the round trip between printing and parsing
    and the monotonicity of the printed length (which the output caps use to
    reserve room for a marker). *)

From S2P Require Import Prelude RustStr.
From Stdlib Require Import Ascii Lia.
From Stdlib Require Import Ascii.

Definition USIZE_MAX : N := 18446744073709551615.
Definition U64_MAX : N := 18446744073709551615.
Definition U32_MAX : N := 4294967295.

Definition digit (d : N) : ascii := ascii_of_N (48 + d).

(** The fuel is a bound on the number of binary digits. *)
Fixpoint dec_go (fuel : nat) (n : N) : string :=
  match fuel with
  | O => ""
  | S f =>
      if (n <? 10)%N then String (digit n) ""
      else dec_go f (n / 10) +:+ String (digit (n mod 10)) ""
  end.
Definition dec (n : N) : string := dec_go (S (N.to_nat (N.log2 n))) n.

(** ** Parsing: an optional plus sign, then one or more digits, in range. *)
Fixpoint parse_digits (acc : N) (s : string) : option N :=
  match s with
  | "" => Some acc
  | String c s' =>
      if is_ascii_digit c then parse_digits (acc * 10 + (byte_n c - 48)) s'
      else None
  end.
Definition strip_plus (s : string) : string :=
  match s with
  | String c s' => if Ascii.eqb c "+"%char then s' else s
  | "" => ""
  end.
Definition parse_usize (s : string) : option N :=
  let digits := strip_plus s in
  if is_empty digits then None else
  match parse_digits 0 digits with
  | Some n => if (n <=? USIZE_MAX)%N then Some n else None
  | None => None
  end.

(** ** [Debug] of a [Duration], given in nanoseconds *)

Fixpoint frac_digits (k : nat) (f : N) : string :=
  match k with
  | O => ""
  | S k' =>
      if (f =? 0)%N then "" else
      let p := (10 ^ N.of_nat k')%N in
      String (digit (f / p)) (frac_digits k' (f mod p))
  end.
Definition frac (k : nat) (f : N) : string :=
  if (f =? 0)%N then "" else "." +:+ frac_digits k f.
Definition NANOS_PER_SEC : N := 1000000000.
Definition from_secs (s : N) : N := s * NANOS_PER_SEC.
Definition as_secs (d : N) : N := d / NANOS_PER_SEC.
Definition duration_debug (d : N) : string :=
  let secs := (d / 1000000000)%N in
  let nanos := (d mod 1000000000)%N in
  if (0 <? secs)%N then dec secs +:+ frac 9 nanos +:+ "s"
  else if (1000000 <=? nanos)%N
  then dec (nanos / 1000000) +:+ frac 6 (nanos mod 1000000) +:+ "ms"
  else if (1000 <=? nanos)%N
  then dec (nanos / 1000) +:+ frac 3 (nanos mod 1000) +:+ "µs"
  else dec nanos +:+ "ns".

(** ** [Debug] of a string and of a vector of strings (printable text: quotes
    and backslashes are escaped, the usual control characters by name) *)

Fixpoint escape_debug (s : string) : string :=
  match s with
  | "" => ""
  | String c s' =>
      (if Ascii.eqb c DQ then "\" +:+ dquote
       else if Ascii.eqb c "\"%char then "\\"
       else if Ascii.eqb c LF then "\n"
       else if Ascii.eqb c CR then "\r"
       else if (byte_n c =? 9)%N then "\t"
       else if (byte_n c =? 0)%N then "\0"
       else String c "") +:+ escape_debug s'
  end.
Definition debug_str (s : string) : string := dquote +:+ escape_debug s +:+ dquote.
Definition debug_strs (l : list string) : string :=
  "[" +:+ join ", " (map debug_str l) +:+ "]".

(** ** Lemmas *)

Lemma log2_div10 n : (10 <= n)%N -> (N.log2 (n / 10) < N.log2 n)%N.
Proof.
  intros Hn.
  assert (H : (N.log2 (n / 10) <= N.log2 (n / 2 ^ 3))%N).
  { apply N.log2_le_mono, N.div_le_compat_l. change (2 ^ 3)%N with 8%N. lia. }
  rewrite <- N.shiftr_div_pow2, N.log2_shiftr in H.
  assert (N.log2 8 <= N.log2 n)%N by (apply N.log2_le_mono; lia).
  change (N.log2 8) with 3%N in *. lia.
Qed.

(** Printed length, as a recursion of its own. *)
Lemma dec_go_length_mono f1 f2 n m :
  (n <= m)%N -> (N.log2 m < N.of_nat f2)%N ->
  (String.length (dec_go f1 n) <= String.length (dec_go f2 m))%nat.
Proof.
  revert f2 n m; induction f1 as [|f1 IH]; intros f2 n m Hnm Hf; [cbn; lia|].
  destruct f2 as [|f2]; [lia|]. cbn [dec_go].
  destruct (N.ltb_spec n 10), (N.ltb_spec m 10); rewrite ?length_app_str.
  - done.
  - cbn [String.length]. lia.
  - lia.
  - cbn [String.length]. apply Nat.add_le_mono_r, IH.
    + by apply N.Div0.div_le_mono.
    + pose proof (log2_div10 m). lia.
Qed.

Lemma dec_length_mono n m :
  (n <= m)%N -> (String.length (dec n) <= String.length (dec m))%nat.
Proof. intros H. apply dec_go_length_mono; [done|]. lia. Qed.

Lemma dec_length_pos n : (1 <= String.length (dec n))%nat.
Proof.
  unfold dec. cbn [dec_go]. destruct (n <? 10)%N; [done|].
  rewrite length_app_str. cbn [String.length]. lia.
Qed.

(** A [usize] prints in at most twenty digits. *)
Lemma dec_length_usize n :
  (n <= USIZE_MAX)%N -> (String.length (dec n) <= 20)%nat.
Proof. intros H. apply dec_length_mono in H. exact H. Qed.

Lemma digit_spec d :
  (d < 10)%N ->
  is_ascii_digit (digit d) = true /\ (byte_n (digit d) - 48 = d)%N /\
  digit d <> "+"%char.
Proof.
  intros H. assert (d = 0 \/ d = 1 \/ d = 2 \/ d = 3 \/ d = 4 \/ d = 5 \/ d = 6
    \/ d = 7 \/ d = 8 \/ d = 9)%N as Hd by lia.
  destruct_or! Hd; subst; by repeat split.
Qed.

Lemma dec_digits n : str_forall is_ascii_digit (dec n) = true.
Proof.
  assert (Hd : forall f m, str_forall is_ascii_digit (dec_go f m) = true); [|apply Hd].
  intros f. induction f as [|f IH]; intros m; [done|]. cbn [dec_go].
  assert (Hdig : forall d, (d < 10)%N -> str_forall is_ascii_digit (String (digit d) "") = true).
  { intros d Hd. destruct (digit_spec d Hd) as (Hdg & _ & _). cbn. by rewrite Hdg. }
  destruct (N.ltb_spec m 10); [by apply Hdig|].
  rewrite str_forall_app, IH. apply Hdig, N.mod_upper_bound. lia.
Qed.
Lemma dec_avoids (p : ascii -> bool) n :
  (forall c, is_ascii_digit c = true -> p c = true) -> str_forall p (dec n) = true.
Proof. intros H. eapply str_forall_impl; [exact H|apply dec_digits]. Qed.

Lemma parse_digits_app a s t :
  parse_digits a (s +:+ t) = a' ← parse_digits a s; parse_digits a' t.
Proof.
  revert a; induction s as [|c s IH]; intros a; [done|].
  cbn. destruct (is_ascii_digit c); [apply IH|done].
Qed.

Lemma parse_digits_dec_go f n :
  (N.log2 n < N.of_nat f)%N -> parse_digits 0 (dec_go f n) = Some n.
Proof.
  revert n; induction f as [|f IH]; intros n Hf; [lia|]. cbn [dec_go].
  destruct (N.ltb_spec n 10) as [Hn|Hn].
  - destruct (digit_spec n Hn) as (H1 & H2 & _). cbn. rewrite H1, H2. done.
  - rewrite parse_digits_app, IH by (pose proof (log2_div10 n Hn); lia).
    pose proof (N.mod_upper_bound n 10 ltac:(lia)) as Hm.
    destruct (digit_spec _ Hm) as (H1 & H2 & _). cbn. rewrite H1, H2.
    f_equal. pose proof (N.div_mod n 10 ltac:(lia)). lia.
Qed.

Lemma dec_go_head f n :
  exists c s, dec_go (S f) n = String c s /\ c <> "+"%char.
Proof.
  revert n; induction f as [|f IH]; intros n; cbn [dec_go] in *.
  - destruct (N.ltb_spec n 10) as [Hn|Hn]; eexists _, _; (split; [done|]);
      apply digit_spec; [done|apply N.mod_upper_bound; lia].
  - destruct (N.ltb_spec n 10) as [Hn|Hn].
    + eexists _, _. split; [done|]. by apply digit_spec.
    + destruct (IH (n / 10)%N) as (c & s & -> & Hc). by eexists c, _.
Qed.

(** Printing then parsing is the identity on [usize]. *)
Lemma parse_usize_dec n : (n <= USIZE_MAX)%N -> parse_usize (dec n) = Some n.
Proof.
  intros Hn. unfold parse_usize, dec.
  destruct (dec_go_head (N.to_nat (N.log2 n)) n) as (c & s & He & Hc).
  pose proof (parse_digits_dec_go (S (N.to_nat (N.log2 n))) n ltac:(lia)) as Hp.
  rewrite He in *. cbn [strip_plus].
  destruct (Ascii.eqb_spec c "+"%char); [done|]. cbn [is_empty]. rewrite Hp.
  by destruct (N.leb_spec n USIZE_MAX); [|lia].
Qed.

#[global] Instance dec_inj : Inj (=) (=) dec.
Proof.
  intros n m H. unfold dec in H.
  pose proof (parse_digits_dec_go (S (N.to_nat (N.log2 n))) n ltac:(lia)) as Hn.
  pose proof (parse_digits_dec_go (S (N.to_nat (N.log2 m))) m ltac:(lia)) as Hm.
  congruence.
Qed.

(** ** Double-precision numbers ([f64]) as the source uses them

    [str::parse::<f64>] with its rounding to nearest, ties to even; the product
    with an integer; and the saturating conversion [as u64].  A finite number
    is [m * 2^e] with [m < 2^53 + 1] and [e >= -1074]. *)

Inductive F64 := NaN | Inf (neg : bool) | Fin (neg : bool) (m : N) (e : Z).

(** [floor (log2 (num / den))] *)
Definition log2_ratio (num den : N) : Z :=
  let k := (Z.of_N (N.log2 num) - Z.of_N (N.log2 den))%Z in
  let below := if (0 <=? k)%Z then (num <? N.shiftl den (Z.to_N k))%N
               else (N.shiftl num (Z.to_N (- k)) <? den)%N in
  if below then (k - 1)%Z else k.

(** [num / den], with [den > 0], to the nearest double. *)
Definition round_f64 (neg : bool) (num den : N) : F64 :=
  if (num =? 0)%N then Fin neg 0 0 else
  let e := Z.max (-1074) (log2_ratio num den - 52) in
  let n := if (0 <=? e)%Z then num else N.shiftl num (Z.to_N (- e)) in
  let d := if (0 <=? e)%Z then N.shiftl den (Z.to_N e) else den in
  let (q, r) := N.div_eucl n d in
  let m := match N.compare (2 * r) d with
           | Lt => q
           | Gt => (q + 1)%N
           | Eq => if N.even q then q else (q + 1)%N
           end in
  if ((971 <? e) || ((e =? 971) && (9007199254740992 <=? Z.of_N m)))%Z then Inf neg else Fin neg m e.

(** ** Parsing *)

Fixpoint span_digits (s : string) : string * string :=
  match s with
  | String c s' =>
      if is_ascii_digit c then let (d, r) := span_digits s' in (String c d, r) else ("", s)
  | "" => ("", "")
  end.

(** The digits of an exponent; [core] stops accumulating at [0x10000]. *)
Fixpoint exponent_digits (acc : N) (s : string) : option N :=
  match s with
  | "" => Some acc
  | String c s' =>
      if is_ascii_digit c
      then exponent_digits (if (acc <? 65536)%N then acc * 10 + (byte_n c - 48) else acc)%N s'
      else None
  end.

Definition strip_sign (s : string) : bool * string :=
  match s with
  | String c s' =>
      if Ascii.eqb c "-"%char then (true, s') else if Ascii.eqb c "+"%char then (false, s')
      else (false, s)
  | "" => (false, "")
  end.

(** What follows the mantissa: nothing, or [e] and a signed integer. *)
Definition parse_exponent (s : string) : option Z :=
  match s with
  | "" => Some 0%Z
  | String c s' =>
      if Ascii.eqb (to_lower_byte c) "e"%char then
        let (neg, digits) := strip_sign s' in
        if is_empty digits then None else
        match exponent_digits 0 digits with
        | Some n => Some (if neg then - Z.of_N n else Z.of_N n)%Z
        | None => None
        end
      else None
  end.

Definition decimal (neg : bool) (digits : string) (exp : Z) : option F64 :=
  match parse_digits 0 digits with
  | Some m => Some (if (0 <=? exp)%Z then round_f64 neg (m * 10 ^ Z.to_N exp) 1
                    else round_f64 neg m (10 ^ Z.to_N (- exp)))
  | None => None
  end.

Definition parse_f64 (s : string) : option F64 :=
  let (neg, body) := strip_sign s in
  let (whole, rest) := span_digits body in
  let (fraction, rest) := match rest with
                          | String "." r => span_digits r
                          | _ => ("", rest)
                          end in
  if is_empty whole && is_empty fraction then
    let word := to_ascii_lowercase body in
    if String.eqb word "inf" || String.eqb word "infinity" then Some (Inf neg)
    else if String.eqb word "nan" then Some NaN else None
  else match parse_exponent rest with
       | Some exp => decimal neg (whole ^^ fraction) (exp - Z.of_N (len fraction))
       | None => None
       end.

(** ** Arithmetic *)

(** [x * n as f64] for an [n] that a double holds exactly. *)
Definition f64_mul (x : F64) (n : N) : F64 :=
  match x with
  | Fin neg m e =>
      if (0 <=? e)%Z then round_f64 neg (N.shiftl (m * n) (Z.to_N e)) 1
      else round_f64 neg (m * n) (N.shiftl 1 (Z.to_N (- e)))
  | Inf neg => if (n =? 0)%N then NaN else Inf neg
  | NaN => NaN
  end.

(** [x as u64]: towards zero, saturating, NaN to zero. *)
Definition as_u64 (x : F64) : N :=
  match x with
  | Fin false m e =>
      N.min U64_MAX (if (0 <=? e)%Z then N.shiftl m (Z.to_N e) else N.shiftr m (Z.to_N (- e)))
  | Inf false => U64_MAX
  | _ => 0
  end%N.

Lemma as_u64_bound x : (as_u64 x <= U64_MAX)%N.
Proof. destruct x as [|[]|[] m e]; cbn; try done. apply N.le_min_l. Qed.

(** A whole number of at most 53 bits is parsed as itself. *)
Lemma round_f64_nat m : (m < 9007199254740992)%N -> as_u64 (round_f64 false m 1) = m.
Proof.
  intros H. unfold round_f64. destruct (N.eqb_spec m 0) as [->|Hm]; [done|].
  assert (Hk : log2_ratio m 1 = Z.of_N (N.log2 m)).
  { unfold log2_ratio. cbn [N.log2]. rewrite Z.sub_0_r.
    destruct (Z.leb_spec 0 (Z.of_N (N.log2 m))); [|lia].
    rewrite N2Z.id, N.shiftl_1_l. destruct (N.log2_spec m) as [H1 _]; [lia|].
    destruct (N.ltb_spec m (2 ^ N.log2 m)); [lia|done]. }
  assert (Hl : (N.log2 m < 53)%N) by (apply N.log2_lt_pow2; [lia|exact H]).
  rewrite Hk. set (e := (Z.of_N (N.log2 m) - 52)%Z).
  rewrite Z.max_r by lia.
  destruct (Z.leb_spec 0 e) as [He|He].
  - assert (e = 0)%Z as -> by lia. cbn [Z.to_N]. rewrite N.shiftl_0_r.
    destruct (N.div_eucl m 1) as [q r] eqn:Hd.
    pose proof (N.div_eucl_spec m 1) as Hs. rewrite Hd in Hs.
    pose proof (N.mod_lt m 1 ltac:(lia)) as Hr. unfold N.modulo in Hr. rewrite Hd in Hr. cbn in Hr.
    assert (r = 0 /\ q = m)%N as [-> ->] by lia. cbn.
    rewrite N.shiftl_0_r. apply N.min_r. unfold U64_MAX. lia.
  - destruct (N.div_eucl (N.shiftl m (Z.to_N (- e))) 1) as [q r] eqn:Hd.
    pose proof (N.div_eucl_spec (N.shiftl m (Z.to_N (- e))) 1) as Hs. rewrite Hd in Hs.
    pose proof (N.mod_lt (N.shiftl m (Z.to_N (- e))) 1 ltac:(lia)) as Hr.
    unfold N.modulo in Hr. rewrite Hd in Hr. cbn in Hr.
    assert (r = 0 /\ q = N.shiftl m (Z.to_N (- e)))%N as [-> ->] by lia.
    cbn -[Z.to_N Z.opp N.shiftl N.shiftr Z.leb Z.ltb Z.eqb e U64_MAX].
    assert ((971 <? e)%Z = false) as -> by (apply Z.ltb_ge; lia).
    assert ((e =? 971)%Z = false) as -> by (apply Z.eqb_neq; lia).
    cbn -[Z.to_N Z.opp N.shiftl N.shiftr Z.leb e U64_MAX].
    destruct (Z.leb_spec 0 e); [lia|]. change (2 * 0 ?= 1)%N with Lt. cbv iota.
    rewrite N.shiftr_shiftl_l, N.sub_diag, N.shiftl_0_r by lia.
    apply N.min_r. unfold U64_MAX. lia.
Qed.
