(* ===== verification/Errors.v ===== *)
(** * The error type ([rust-junosmcp-core/src/error.rs])

    [JmcpError] with its messages ([thiserror]'s [Display]) and the audit
    class [audit_kind].  Errors of other crates are opaque: [External] bundles
    their types and their own [Display], and, for [rustez::RustEzError], the
    view of it that the source's match patterns can observe. *)

From S2P Require Import Prelude RustStr Fmt.

(** The NETCONF error tags the source tells apart; [TagOther] is every tag it
    does not name. *)
Inductive ErrorTag :=
  | OperationFailed | InvalidValue | MissingElement | BadElement
  | UnknownElement | MissingAttribute | BadAttribute | UnknownAttribute
  | DataMissing | DataExists | TagOther.

Inductive RpcErrorView :=
  | RpcServerError (tag : ErrorTag)
  | RpcCommitUnknown
  | RpcParseError
  | RpcOther.

Inductive NetconfErrorView :=
  | NetconfRpc (e : RpcErrorView)
  | NetconfTransport
  | NetconfFraming
  | NetconfProtocol
  | NetconfOther.

Inductive RustEzErrorView :=
  | RzNetconf (e : NetconfErrorView)
  | RzSshConfig
  | RzFacts
  | RzConfig
  | RzXmlParse
  | RzOther.

Class External := {
  RustEzError : Type;
  rustez_display : RustEzError -> string;
  rustez_view : RustEzError -> RustEzErrorView;
  SshConfigError : Type;
  ssh_config_display : SshConfigError -> string;
  IoError : Type;
  io_display : IoError -> string;
  JsonError : Type;
  json_error_display : JsonError -> string;
  JsonValue : Type;
  json_display : JsonValue -> string;
  GlobError : Type;
  glob_display : GlobError -> string;
  DirectCommitRefused : Type;
  direct_commit_display : DirectCommitRefused -> string
}.

Section errors.
Context {X : External}.

(** Durations are in nanoseconds, paths are strings. *)
Inductive JmcpError :=
  | UnknownRouter (router : string)
  | InventoryInvalid (msg : string)
  | KeyFileMissing (path : string)
  | SshConfigInvalid (router : string) (source : SshConfigError)
  | BadFormat (fmt : string)
  | BadConfigFormat (fmt : string)
  | BadLoadMode (mode : string)
  | OverrideRequiresChangeSet (tool : string)
  | OverrideRequiresHumanApproval (tool : string)
  | IncompatibleFormatMode (format mode : string)
  | BadPfeCommand (msg : string)
  | BadRollbackVersion (v : Z)
  | BadSourcePath (msg : string)
  | InsufficientDisk (free required : N) (message : string)
  | UnsupportedAuth (device : string)
  | DestExistsDiffers (dest local_sha remote_sha : string)
  | ScpFailed (exit_code : Z) (stderr : string)
  | ScpDependencyUnavailable (detail : string)
  | ConnectTimeout (device : string)
  | HostKeyMismatch (router known_hosts_file : string)
  | HostKeyRevoked (router known_hosts_file : string)
  | DeviceProbeFailed (phase message : string)
  | VerifyMismatch (dest local_sha remote_sha : string)
  | LocalDestExistsDiffers (dest local_sha remote_sha : string)
  | RemoteFileMissing (router remote_path : string)
  | FetchVerifyMismatch (dest local_sha remote_sha : string)
  | TransferOuterTimeout (d : N)
  | ConfirmationRequired (payload : JsonValue)
  | UpgradeClusterUnsupported (router : string)
  | UpgradeCommitConfirmedActive (router : string) (rollback_secs : N)
  | UpgradeInstallTimeout (router : string) (elapsed : N)
  | UpgradeRebootTimeout (router : string) (waited_secs : N)
  | UpgradePostVerifyMismatch (router expected observed : string)
  | UpgradeOuterTimeout (d : N)
  | Timeout (d : N)
  | Cancelled
  | DeviceLeaseBusy (router : string) (waited_secs : N)
  | DeviceLeaseError (router detail : string)
  | CandidateCleanupFailed (primary rollback unlock : string)
  | Rustez (e : RustEzError)
  | Io (e : IoError)
  | Json (e : JsonError)
  | Denied (tool router pattern rule_source input_excerpt : string)
           (line_number : option N)
  | DeniedAllowlist (tool router reason input_excerpt : string)
  | AllowlistEntryInvalid (scope entry reason : string)
  | ConfigDomainAllowlistInvariant (tool router : string)
  | PlaneOwnedDevice (tool device authority : string)
  | DirectCommitDisabled (e : DirectCommitRefused)
  | ConfigFormatNotAllowedWithRules (format : string)
  | BlocklistRuleInvalid (scope pattern : string) (source : GlobError)
  | TemplateSyntax (msg : string)
  | TemplateVars (msg : string)
  | TemplateRender (msg : string)
  | TemplateFormatMismatch (format : string)
  | Validation (msg : string)
  | ConfigParseHint (msg : string)
  | InventoryReadonly
  | DeviceExists (name : string)
  | PasswordAuthDisabled
  | InvalidDeviceName (name : string)
  | InvalidDeviceIp (ip : string)
  | InvalidDevicePort (port : N)
  | MissingArguments (names : list string)
  | InventoryDriftedOnDisk
  | EmptyInventory
  | InventoryRead (msg : string)
  | InventoryParse (msg : string)
  | InventoryWrite (msg : string)
  | KnownHostsMissing (path : string).

Definition display_Z (z : Z) : string :=
  if (z <? 0)%Z then "-" +:+ dec (Z.abs_N z) else dec (Z.abs_N z).

(** [impl Display for JmcpError] ([err.to_string()]). *)
Definition to_string (e : JmcpError) : string :=
  match e with
  | UnknownRouter r => "router '" ^^ r ^^ "' not found in device mapping"
  | InventoryInvalid m => "invalid devices.json: " ^^ m
  | KeyFileMissing p => "private key file not found: " ^^ p
  | SshConfigInvalid r s =>
      "ssh_config invalid for router '" ^^ r ^^ "': " ^^ ssh_config_display s
  | BadFormat f => "invalid config_format '" ^^ f ^^ "' (expected set, text, or xml)"
  | BadConfigFormat f =>
      "invalid format '" ^^ f ^^ "' for get_junos_config (expected text, set, xml, or json)"
  | BadLoadMode m => "invalid mode '" ^^ m ^^ "' (expected merge, replace, or override)"
  | OverrideRequiresChangeSet t =>
      "refused: mode=override on '" ^^ t ^^ "' is refused because this tool commits directly with no second-principal review. Route the change through create_junos_change_set → approve_junos_change_set → apply_junos_change_set instead."
  | OverrideRequiresHumanApproval t =>
      "refused: mode=override on '" ^^ t ^^ "' is refused while this server runs in lab mode, because lab mode waives approval and override has no other path to a human approver"
  | IncompatibleFormatMode f m =>
      "mode '" ^^ m ^^ "' is not compatible with config_format '" ^^ f ^^ "'"
  | BadPfeCommand m => "invalid pfe_command: " ^^ m
  | BadRollbackVersion v => "rollback version " ^^ display_Z v ^^ " out of range (0..=49)"
  | BadSourcePath m => "invalid source_path [code=bad_source_path]: " ^^ m
  | InsufficientDisk f r m =>
      "insufficient disk [code=insufficient_disk]: " ^^ m ^^ " (free=" ^^ dec f
      ^^ "B required=" ^^ dec r ^^ "B)"
  | UnsupportedAuth d =>
      "unsupported auth [code=unsupported_auth]: device '" ^^ d ^^ "' uses password auth; transfer_file requires ssh_key (add SshKey to inventory)"
  | DestExistsDiffers d l r =>
      "destination already exists with different content [code=dest_exists_differs]: "
      ^^ d ^^ " (local sha256=" ^^ l ^^ ", remote sha256=" ^^ r ^^ "); pass force=true to overwrite"
  | ScpFailed c s =>
      "scp failed [code=scp_failed] (exit=" ^^ display_Z c ^^ "): " ^^ s
  | ScpDependencyUnavailable d =>
      "required OpenSSH scp dependency unavailable [code=scp_dependency_unavailable]: "
      ^^ d ^^ "; install openssh-client with legacy -O support or use the supported container image"
  | ConnectTimeout d =>
      "scp connect timeout [code=connect_timeout]: device '" ^^ d ^^ "' may be unreachable or SSH (port 22) is filtered"
  | HostKeyMismatch r k =>
      "host key verification failed [code=host_key_mismatch]: router '" ^^ r
      ^^ "' was rejected; review or refresh the entry in " ^^ k
  | HostKeyRevoked r k =>
      "host key revoked [code=host_key_revoked]: router '" ^^ r ^^ "' key is marked @revoked in "
      ^^ k ^^ "; the key is compromised and must not be trusted"
  | DeviceProbeFailed p m =>
      "device probe failed [code=device_probe_failed] (phase=" ^^ p ^^ "): " ^^ m
  | VerifyMismatch d l r =>
      "post-transfer verify failed [code=verify_mismatch]: " ^^ d ^^ " (local sha256=" ^^ l
      ^^ ", remote sha256=" ^^ r ^^ "); destination file was deleted"
  | LocalDestExistsDiffers d l r =>
      "[code=local_dest_exists_differs] local destination '" ^^ d ^^ "' exists with sha256 '"
      ^^ l ^^ "'; remote sha256 is '" ^^ r ^^ "'; set force=true to overwrite"
  | RemoteFileMissing r p =>
      "[code=remote_file_missing] router '" ^^ r ^^ "' has no file at '" ^^ p ^^ "'"
  | FetchVerifyMismatch d l r =>
      "[code=fetch_verify_mismatch] fetched file '" ^^ d ^^ "' local sha256 '" ^^ l
      ^^ "' does not match remote sha256 '" ^^ r ^^ "'"
  | TransferOuterTimeout d =>
      "transfer outer timeout [code=outer_timeout] after " ^^ duration_debug d
      ^^ "; raise the `timeout` arg or split the file"
  | ConfirmationRequired p =>
      "confirmation required [code=confirmation_required]: re-call with confirm=true to proceed; plan: "
      ^^ json_display p
  | UpgradeClusterUnsupported r =>
      "cluster device unsupported [code=cluster_unsupported]: router '" ^^ r
      ^^ "' is a chassis cluster; upgrade_junos v1 supports standalone devices only (ISSU support deferred to v2)"
  | UpgradeCommitConfirmedActive r s =>
      "active commit-confirmed window [code=commit_confirmed_active]: router '" ^^ r
      ^^ "' has a pending rollback in " ^^ dec s
      ^^ "s; run `commit` or `rollback` first, then retry"
  | UpgradeInstallTimeout r d =>
      "install RPC timed out [code=install_timeout]: router '" ^^ r ^^ "' after "
      ^^ duration_debug d
      ^^ "; the install may still be running on the device — check from console or retry once the device is reachable"
  | UpgradeRebootTimeout r s =>
      "device did not return after reboot [code=reboot_timeout]: router '" ^^ r
      ^^ "' did not reopen NETCONF within " ^^ dec s ^^ "s; check console / hardware status"
  | UpgradePostVerifyMismatch r x o =>
      "post-upgrade version mismatch [code=postverify_mismatch]: router '" ^^ r
      ^^ "' expected '" ^^ x ^^ "', got '" ^^ o
      ^^ "'; the install may have rolled back or failed silently"
  | UpgradeOuterTimeout d =>
      "upgrade outer timeout [code=upgrade_outer_timeout] after " ^^ duration_debug d
      ^^ "; raise the `timeout` arg or check device responsiveness"
  | Timeout d => "operation timed out after " ^^ duration_debug d
  | Cancelled => "operation cancelled by client [code=cancelled]"
  | DeviceLeaseBusy r s =>
      "device lease busy [code=device_lease_busy]: router '" ^^ r
      ^^ "' remained locked by another destructive workflow after " ^^ dec s ^^ "s"
  | DeviceLeaseError r d =>
      "device lease failed [code=device_lease_error]: router '" ^^ r ^^ "': " ^^ d
  | CandidateCleanupFailed p r u =>
      "candidate cleanup failed [code=candidate_cleanup_failed]: primary=" ^^ p
      ^^ "; rollback=" ^^ r ^^ "; unlock=" ^^ u
  | Rustez e => rustez_display e
  | Io e => "io: " ^^ io_display e
  | Json e => "json: " ^^ json_error_display e
  | Denied t r p s x _ =>
      "denied by blocklist: " ^^ t ^^ " on '" ^^ r ^^ "' matched rule '" ^^ p
      ^^ "' (action=deny, source=" ^^ s ^^ "); input: " ^^ x
  | DeniedAllowlist t r why x =>
      "denied by allowlist: " ^^ t ^^ " on '" ^^ r ^^ "': " ^^ why ^^ "; input: " ^^ x
  | AllowlistEntryInvalid s en why =>
      "invalid allowlist entry for " ^^ s ^^ ": entry '" ^^ en ^^ "' " ^^ why
  | ConfigDomainAllowlistInvariant t r =>
      "policy invariant violated: " ^^ t ^^ " on '" ^^ r
      ^^ "': check_config returned DenyAllowlist, which the config domain must never produce"
  | PlaneOwnedDevice t d a =>
      "refused: " ^^ t ^^ " on '" ^^ d ^^ "' is owned by " ^^ a
      ^^ ". Changes to plane-owned devices are overwritten at the next push. Use --allow-plane-owned-writes to permit this operation with a warning."
  | DirectCommitDisabled e => direct_commit_display e
  | ConfigFormatNotAllowedWithRules f =>
      "config blocklist rules require config_format=set; got '" ^^ f ^^ "'"
  | BlocklistRuleInvalid s p e =>
      "invalid blocklist rule for " ^^ s ^^ ": pattern '" ^^ p ^^ "': " ^^ glob_display e
  | TemplateSyntax m => "template syntax error: " ^^ m
  | TemplateVars m => "template vars parse error: " ^^ m
  | TemplateRender m => "template render error: " ^^ m
  | TemplateFormatMismatch f =>
      "template format `" ^^ f ^^ "` not allowed: device has config rules; use `set`"
  | Validation m => "validation error: " ^^ m
  | ConfigParseHint m => m
  | InventoryReadonly => "inventory is read-only (--inventory-readonly set)"
  | DeviceExists d => "device `" ^^ d ^^ "` already exists in the inventory"
  | PasswordAuthDisabled =>
      "password authentication is not allowed for add_device; use --allow-password-auth-add to enable"
  | InvalidDeviceName n => "invalid device name `" ^^ n ^^ "`: must match ^[A-Za-z0-9_.-]+$"
  | InvalidDeviceIp i => "invalid device IP/hostname `" ^^ i ^^ "`"
  | InvalidDevicePort p => "invalid device port `" ^^ dec p ^^ "`: must be in 1..=65535"
  | MissingArguments l => "missing required arguments: " ^^ debug_strs l
  | InventoryDriftedOnDisk =>
      "inventory file changed on disk between read and write; call reload_devices and retry"
  | EmptyInventory => "inventory is empty (no devices)"
  | InventoryRead m => "inventory file read error: " ^^ m
  | InventoryParse m => "inventory parse error: " ^^ m
  | InventoryWrite m => "inventory file write error: " ^^ m
  | KnownHostsMissing p =>
      "known_hosts file missing or unreadable [code=known_hosts_missing]: " ^^ p
      ^^ "; run scripts/scan-known-hosts.sh to pre-populate it, or pass --ssh-accept-new-host-keys (lab only)"
  end.

Definition audit_kind (e : JmcpError) : string :=
  match e with
  | UnknownRouter _ => "unknown_router"
  | InventoryInvalid _ => "invalid_input"
  | KeyFileMissing _ => "not_found"
  | SshConfigInvalid _ _ => "invalid_input"
  | BadFormat _ => "invalid_input"
  | BadConfigFormat _ => "invalid_input"
  | BadLoadMode _ => "invalid_input"
  | OverrideRequiresChangeSet _ => "blocked"
  | OverrideRequiresHumanApproval _ => "blocked"
  | IncompatibleFormatMode _ _ => "invalid_input"
  | BadPfeCommand _ => "invalid_input"
  | BadRollbackVersion _ => "invalid_input"
  | BadSourcePath _ => "invalid_input"
  | InsufficientDisk _ _ _ => "insufficient_disk"
  | UnsupportedAuth _ => "unsupported"
  | DestExistsDiffers _ _ _ => "conflict"
  | ScpFailed _ _ => "scp_failed"
  | ScpDependencyUnavailable _ => "dependency_unavailable"
  | ConnectTimeout _ => "timeout"
  | HostKeyMismatch _ _ => "host_key_mismatch"
  | HostKeyRevoked _ _ => "host_key_revoked"
  | DeviceProbeFailed _ _ => "device_probe_failed"
  | VerifyMismatch _ _ _ => "verify_mismatch"
  | LocalDestExistsDiffers _ _ _ => "conflict"
  | RemoteFileMissing _ _ => "not_found"
  | FetchVerifyMismatch _ _ _ => "verify_mismatch"
  | TransferOuterTimeout _ => "timeout"
  | ConfirmationRequired _ => "confirmation_required"
  | UpgradeClusterUnsupported _ => "unsupported"
  | UpgradeCommitConfirmedActive _ _ => "commit_confirmed_active"
  | UpgradeInstallTimeout _ _ => "timeout"
  | UpgradeRebootTimeout _ _ => "timeout"
  | UpgradePostVerifyMismatch _ _ _ => "verify_mismatch"
  | UpgradeOuterTimeout _ => "timeout"
  | Timeout _ => "timeout"
  | Cancelled => "cancelled"
  | DeviceLeaseBusy _ _ => "lease_busy"
  | DeviceLeaseError _ _ => "lease_error"
  | CandidateCleanupFailed _ _ _ => "lease_error"
  | Rustez _ => "transport"
  | Io _ => "io"
  | Json _ => "parse"
  | Denied _ _ _ _ _ _ => "blocked"
  | DeniedAllowlist _ _ reason _ => reason
  | AllowlistEntryInvalid _ _ _ => "invalid_input"
  | ConfigDomainAllowlistInvariant _ _ => "blocked"
  | PlaneOwnedDevice _ _ _ => "blocked"
  | DirectCommitDisabled _ => "blocked"
  | ConfigFormatNotAllowedWithRules _ => "invalid_input"
  | BlocklistRuleInvalid _ _ _ => "invalid_input"
  | TemplateSyntax _ => "parse"
  | TemplateVars _ => "parse"
  | TemplateRender _ => "parse"
  | TemplateFormatMismatch _ => "invalid_input"
  | Validation _ => "invalid_input"
  | ConfigParseHint _ => "invalid_input"
  | InventoryReadonly => "inventory_readonly"
  | DeviceExists _ => "conflict"
  | PasswordAuthDisabled => "unsupported"
  | InvalidDeviceName _ => "invalid_input"
  | InvalidDeviceIp _ => "invalid_input"
  | InvalidDevicePort _ => "invalid_input"
  | MissingArguments _ => "invalid_input"
  | InventoryDriftedOnDisk => "conflict"
  | EmptyInventory => "inventory_empty"
  | InventoryRead _ => "io"
  | InventoryParse _ => "parse"
  | InventoryWrite _ => "io"
  | KnownHostsMissing _ => "not_found"
  end.

(** [e.is_interruption]: the pattern [JmcpError::Cancelled | JmcpError::Timeout(_)]
    under which an RPC was dropped with its outcome unknown. *)
Definition is_interruption (e : JmcpError) : bool :=
  match e with Cancelled | Timeout _ => true | _ => false end.

End errors.

(** A concrete instance, for evaluating examples: errors of other crates are
    their messages, and a [RustEzError] is a view with a message. *)
Definition string_external : External := {|
  RustEzError := RustEzErrorView * string;
  rustez_display := snd;
  rustez_view := fst;
  SshConfigError := string; ssh_config_display := fun s => s;
  IoError := string; io_display := fun s => s;
  JsonError := string; json_error_display := fun s => s;
  JsonValue := string; json_display := fun s => s;
  GlobError := string; glob_display := fun s => s;
  DirectCommitRefused := string; direct_commit_display := fun s => s
|}.
