(* ===== verification/Helpers.v ===== *)
(** * Pure helpers ([rust-junosmcp-core/src/helpers.rs], [config_authority.rs])

    Argument validation and mapping shared by the tools: load modes, config
    paths, output caps, rollback versions, confirm windows, excerpts. *)

From S2P Require Import Prelude RustStr Fmt Errors.
From Stdlib Require Import Ascii.

(** The load payload and action enums of [rustez], as far as the source
    constructs them. *)
Inductive ConfigPayload :=
  | PayloadSet (text : string)
  | PayloadText (text : string)
  | PayloadXml (text : string).
Inductive LoadAction := LoadMerge | LoadReplace | LoadOverride | LoadSet.

#[export] Instance LoadAction_eq_dec : EqDecision LoadAction.
Proof. solve_decision. Defined.

Inductive JunosAuthority :=
  | AuthLocal | AuthMist | AuthSecurityDirectorCloud
  | AuthSecurityDirectorOnprem | AuthUnknown.

#[export] Instance JunosAuthority_eq_dec : EqDecision JunosAuthority.
Proof. solve_decision. Defined.

Definition is_local (a : JunosAuthority) : bool :=
  match a with AuthLocal => true | _ => false end.
Definition default_authority : JunosAuthority := AuthUnknown.
(** [serde(rename_all = "kebab-case")] *)
Definition authority_str (a : JunosAuthority) : string :=
  match a with
  | AuthLocal => "local"
  | AuthMist => "mist"
  | AuthSecurityDirectorCloud => "security-director-cloud"
  | AuthSecurityDirectorOnprem => "security-director-onprem"
  | AuthUnknown => "unknown"
  end.

Definition MAX_INPUT_LEN : N := 1048576.
Definition MIN_MAX_BYTES : N := 64.

Section helpers.
Context {X : External}.

Definition build_config_payload (text : string) (fmt : option string)
  : Result ConfigPayload JmcpError :=
  let f := default "set" fmt in
  if String.eqb f "set" then Ok (PayloadSet text)
  else if String.eqb f "text" then Ok (PayloadText text)
  else if String.eqb f "xml" then Ok (PayloadXml text)
  else Err (BadFormat f).

Definition parse_load_mode (mode : option string) : Result LoadAction JmcpError :=
  let m := default "merge" mode in
  if String.eqb m "merge" then Ok LoadMerge
  else if String.eqb m "replace" then Ok LoadReplace
  else if String.eqb m "override" then Ok LoadOverride
  else Err (BadLoadMode m).

Definition resolve_load_action (format : string) (mode : LoadAction)
  : Result LoadAction JmcpError :=
  if String.eqb format "set" then
    match mode with
    | LoadOverride => Err (IncompatibleFormatMode format "override")
    | _ => Ok LoadSet
    end
  else Ok mode.

Definition refuse_override_outside_changeset (tool : string) (mode : LoadAction)
  : Result unit JmcpError :=
  if decide (mode = LoadOverride) then Err (OverrideRequiresChangeSet tool) else Ok tt.

Definition config_display_suffix (format : string)
  : Result (option string) JmcpError :=
  if String.eqb format "text" then Ok None
  else if String.eqb format "set" then Ok (Some "display set")
  else if String.eqb format "xml" then Ok (Some "display xml")
  else if String.eqb format "json" then Ok (Some "display json")
  else Err (BadConfigFormat format).

Definition excerpt (s : string) : string :=
  if (len s <=? 120)%N then s else str_take (boundary_down s 120) s.

Definition strip_config_xml_wrapper (raw : string) : string :=
  match str_find "<configuration-output>" raw with
  | Some (_, from) =>
      let content := str_drop (String.length "<configuration-output>") from in
      match str_find "</configuration-output>" content with
      | Some (inner, _) => trim inner
      | None => trim raw
      end
  | None => trim raw
  end.

Definition validate_input_length (field_name value : string)
  : Result unit JmcpError :=
  if (MAX_INPUT_LEN <? len value)%N then
    Err (InventoryInvalid (field_name ^^ " exceeds maximum length of "
                           ^^ dec MAX_INPUT_LEN ^^ " bytes"))
  else Ok tt.

(** [v] is an [i64], the result a [u32]. *)
Definition validate_rollback_version (v : Z) : Result N JmcpError :=
  if ((0 <=? v) && (v <=? 49))%Z then Ok (Z.to_N v) else Err (BadRollbackVersion v).

(** [checked_mul] on [u32]. *)
Definition u32_checked_mul (a b : N) : option N :=
  if (a * b <=? U32_MAX)%N then Some (a * b)%N else None.

Definition confirm_timeout_to_secs (mins : N) : Result N JmcpError :=
  if (mins =? 0)%N then Err (Validation "confirm_timeout_mins must be >= 1")
  else ok_or (Validation
    "confirm_timeout_mins too large (overflow when converting to seconds)")
    (u32_checked_mul mins 60).

Inductive ConfirmDecision :=
  | Confirmed (mins : N)
  | OptedOut.

(** The server-wide default window ([COMMIT_CONFIRM_DEFAULT_MINS]) is the state
    this reads. *)
Definition resolve_confirm_timeout (default_mins : N) (caller_mins : option N)
  : ConfirmDecision :=
  match caller_mins with
  | None => Confirmed default_mins
  | Some 0%N => OptedOut
  | Some mins => Confirmed mins
  end.

Definition sat_add_u64 (a b : N) : N := N.min U64_MAX (a + b).
Definition sat_mul_u64 (a b : N) : N := N.min U64_MAX (a * b).

(** [now] is [None] when the clock is before the epoch. *)
Definition rollback_deadline_unix (now : option N) (mins : N) : N :=
  sat_add_u64 (default 0%N now) (sat_mul_u64 mins 60).

(** ** Configuration paths *)

Definition dangerous_chars : list (ascii * string) :=
  [ ("|"%char, "pipe operator"); (";"%char, "semicolon"); (LF, "newline");
    (CR, "carriage return"); (DQ, "double quote"); (SQ, "single quote");
    ("`"%char, "backtick"); ("$"%char, "dollar sign"); ("&"%char, "ampersand");
    (">"%char, "redirect"); ("<"%char, "redirect"); ("\"%char, "backslash");
    ("("%char, "parenthesis"); (")"%char, "parenthesis"); ("{"%char, "brace");
    ("}"%char, "brace"); ("["%char, "bracket"); ("]"%char, "bracket");
    ("*"%char, "wildcard"); ("?"%char, "wildcard"); ("!"%char, "exclamation");
    ("#"%char, "hash") ].

(** [char::is_alphanumeric] outside ASCII is the Unicode table, a parameter on
    the encoding of the character. *)
Context (unicode_alphanumeric : string -> bool).

Definition is_alphanumeric (ch : string) : bool :=
  match ch with
  | String c "" => is_ascii_alphanumeric c
  | _ => unicode_alphanumeric ch
  end.

Definition path_char_ok (ch : string) : bool :=
  is_alphanumeric ch ||
  existsb (String.eqb ch) ["-"; "_"; "."; "/"; ":"; " "].

Definition validate_config_path (path : string) : Result unit JmcpError :=
  if is_empty (trim path) then
    Err (Validation "config_path cannot be empty or whitespace-only")
  else
    match find (fun d => has_byte d.1 path) dangerous_chars with
    | Some (ch, name) =>
        Err (Validation ("config_path contains forbidden character: " ^^ name
                         ^^ " (" ^^ String ch "" ^^ ")"))
    | None =>
        match find (fun ch => negb (path_char_ok ch)) (chars path) with
        | Some ch =>
            Err (Validation ("config_path contains invalid character: '" ^^ ch
              ^^ "' (only alphanumerics, hyphens, underscores, dots, slashes, colons, and spaces are allowed)"))
        | None =>
            if contains "  " path then
              Err (Validation "config_path contains consecutive spaces")
            else Ok tt
        end
    end.

Definition validate_output_caps (max_lines max_bytes : option N)
  : Result unit JmcpError :=
  if decide (max_lines = Some 0%N) then
    Err (Validation
      "max_lines must be at least 1; a cap of 0 asks for no output at all")
  else
    match max_bytes with
    | Some bytes =>
        if (bytes <? MIN_MAX_BYTES)%N then
          Err (Validation ("max_bytes must be at least " ^^ dec MIN_MAX_BYTES
            ^^ "; a smaller budget cannot hold the truncation marker, so the cap could not be honoured exactly"))
        else Ok tt
    | None => Ok tt
    end.

Definition check_plane_owned_operation (tool_name device_name : string)
    (authority : JunosAuthority) (allow_plane_owned_writes : bool)
  : Result (option string) JmcpError :=
  match authority with
  | AuthLocal | AuthUnknown => Ok None
  | _ =>
      let a := authority_str authority in
      if allow_plane_owned_writes then
        Ok (Some ("WARNING: this device is owned by " ^^ a
          ^^ ". Changes may be overwritten at the next push from the owning management plane."))
      else Err (PlaneOwnedDevice tool_name device_name a)
  end.

End helpers.

(** ** Properties *)

Section helpers_properties.
Context {X : External}.

(** An excerpt is a prefix of its input, at most 120 bytes long, that ends
    at a character boundary of the input (so no character is cut in half), and
    an input of at most 120 bytes is its own excerpt. *)
Theorem excerpt_spec s :
  (String.length (excerpt s) <= 120)%nat /\
  (exists t, s = excerpt s ^^ t) /\
  is_char_boundary s (String.length (excerpt s)) = true /\
  ((len s <= 120)%N -> excerpt s = s).
Proof.
  unfold excerpt, len. destruct (N.leb_spec (N.of_nat (String.length s)) 120).
  - split_and!; [lia| |apply is_char_boundary_length|done].
    exists "". by rewrite app_str_nil_r.
  - destruct (boundary_down_spec s 120) as [H1 H2]. rewrite length_str_take.
    rewrite Nat.min_l by lia. split_and!; [lia| |done|lia].
    exists (str_drop (boundary_down s 120) s). by rewrite take_drop_str.
Qed.

Lemma find_none_iff {A} (p : A -> bool) l :
  find p l = None <-> Forall (fun a => p a = false) l.
Proof.
  split.
  - intros H. apply Forall_forall. intros a Ha. by apply (List.find_none p l H).
  - induction 1 as [|a l Ha _ IH]; [done|]. cbn. by rewrite Ha.
Qed.

Lemma dangerous_not_path_char ua d :
  In d dangerous_chars ->
  (byte_n d.1 <? 128)%N = true /\ path_char_ok ua (String d.1 "") = false.
Proof. intros Hd. repeat (destruct Hd as [<-|Hd]; [done|]). done. Qed.

Lemma no_dangerous_chars ua path :
  Forall (fun ch => path_char_ok ua ch = true) (chars path) ->
  find (fun d => has_byte d.1 path) dangerous_chars = None.
Proof.
  intros Hall. apply find_none_iff, Forall_forall. intros d Hd.
  destruct (dangerous_not_path_char ua d Hd) as [H1 H2].
  destruct (has_byte d.1 path) eqn:Hb; [|done].
  apply chars_ascii in Hb; [|done].
  rewrite Forall_forall in Hall. by rewrite (Hall _ Hb) in H2.
Qed.

(** [validate_config_path] accepts exactly the paths that are not blank,
    whose every character is alphanumeric or one of [- _ . / :] or a space, and
    that have no two spaces in a row: every other character is refused, so no
    pipe, quote, newline or shell metacharacter reaches the device, and the
    deny list only chooses the error message. *)
Theorem validate_config_path_spec ua path :
  validate_config_path ua path = Ok tt <->
  trim path <> "" /\ Forall (fun ch => path_char_ok ua ch = true) (chars path) /\
  contains "  " path = false.
Proof.
  unfold validate_config_path. destruct (trim path) as [|c0 t0] eqn:Ht; cbn [is_empty].
  { split; [done|]. by intros [? _]. }
  destruct (find (fun ch => negb _) (chars path)) as [ch|] eqn:Hf.
  - split; [intros; rs_cases|]. intros (_ & Hall & _).
    apply find_some in Hf as [Hin Hf].
    rewrite Forall_forall in Hall. by rewrite (Hall _ Hin) in Hf.
  - apply find_none_iff in Hf.
    assert (Hall : Forall (fun ch => path_char_ok ua ch = true) (chars path)).
    { eapply Forall_impl; [|exact Hf]. intros ch H. by apply negb_false_iff. }
    rewrite (no_dangerous_chars ua path Hall).
    destruct (contains "  " path); split; [done|naive_solver|done|done].
Qed.

(** Converting a confirm window to seconds succeeds exactly when the window
    is at least a minute and sixty times it fits a [u32]; the result is then
    exactly sixty times the minutes, never a wrapped value. *)
Theorem confirm_timeout_to_secs_spec mins s :
  confirm_timeout_to_secs mins = Ok s <->
  (1 <= mins)%N /\ (60 * mins <= U32_MAX)%N /\ s = (60 * mins)%N.
Proof.
  unfold confirm_timeout_to_secs, u32_checked_mul.
  destruct (N.eqb_spec mins 0) as [->|Hne]; [split; [done|lia]|].
  destruct (N.leb_spec (mins * 60) U32_MAX); cbn; split.
  - intros [= <-]. lia.
  - intros (_ & _ & ->). f_equal. lia.
  - done.
  - lia.
Qed.

(** The wire action of a load, on every branch. *)
Lemma resolve_load_action_set mode :
  resolve_load_action "set" mode =
  if decide (mode = LoadOverride) then Err (IncompatibleFormatMode "set" "override")
  else Ok LoadSet.
Proof. by destruct mode. Qed.
Lemma resolve_load_action_other format mode :
  format <> "set" -> resolve_load_action format mode = Ok mode.
Proof.
  intros H. unfold resolve_load_action. by destruct (String.eqb_spec format "set").
Qed.

(** The extraction of [<configuration-output>] recovers the wrapped text. *)
Lemma strip_config_xml_wrapper_wrapped pre body post :
  str_find "<configuration-output>" (pre ^^ "<configuration-output>" ^^ body
     ^^ "</configuration-output>" ^^ post)
    = Some (pre, "<configuration-output>" ^^ body ^^ "</configuration-output>" ^^ post) ->
  str_find "</configuration-output>" (body ^^ "</configuration-output>" ^^ post)
    = Some (body, "</configuration-output>" ^^ post) ->
  strip_config_xml_wrapper (pre ^^ "<configuration-output>" ^^ body
     ^^ "</configuration-output>" ^^ post) = trim body.
Proof.
  intros H1 H2. unfold strip_config_xml_wrapper. rewrite H1.
  change (str_drop _ _) with (body ^^ "</configuration-output>" ^^ post).
  by rewrite H2.
Qed.

(** a plane-owned device is never written to silently: the check returns
    [Ok None] only for a local or undeclared authority, a warning naming the
    owner when plane-owned writes are allowed, and a refusal otherwise. *)
Theorem check_plane_owned_spec tool dev a allow :
  match check_plane_owned_operation tool dev a allow with
  | Ok None => a = AuthLocal \/ a = AuthUnknown
  | Ok (Some w) => a <> AuthLocal /\ a <> AuthUnknown /\ allow = true /\
                   contains (authority_str a) w = true
  | Err e => a <> AuthLocal /\ a <> AuthUnknown /\ allow = false /\
             e = PlaneOwnedDevice tool dev (authority_str a)
  end.
Proof. destruct a, allow; cbn; auto 10. Qed.

End helpers_properties.
