(* ===== verification/NetAddr.v ===== *)
(** * Parsing IP address literals ([std::net::IpAddr::from_str])

    The standard library's recursive-descent parser, which the inventory uses
    to accept an address: a reader consumes a prefix of the text or fails
    without consuming. *)

From S2P Require Import Prelude RustStr.
From Stdlib Require Import Ascii.

Definition Reader (A : Type) : Type := string -> option (A * string).

Definition hex_value (c : ascii) : option N :=
  let n := byte_n c in
  if in_range 48 57 c then Some (n - 48)%N
  else if in_range 97 102 c then Some (n - 87)%N
  else if in_range 65 70 c then Some (n - 55)%N
  else None.
(** [char::to_digit(radix)] for the two radices used, 10 and 16. *)
Definition to_digit (radix : N) (c : ascii) : option N :=
  match hex_value c with
  | Some d => if (d <? radix)%N then Some d else None
  | None => None
  end.

Definition read_given_char (c : ascii) : Reader unit := fun s =>
  match s with
  | String d s' => if Ascii.eqb c d then Some (tt, s') else None
  | "" => None
  end.

(** The digit loop of [read_number]: the value and the number of digits read;
    it fails when there are more than [max_digits]. *)
Fixpoint read_digits (radix : N) (max_digits : nat) (acc : N) (count : nat) (s : string)
  : option (N * nat * string) :=
  match s with
  | String c s' =>
      match to_digit radix c with
      | Some d =>
          if (max_digits <? S count)%nat then None
          else read_digits radix max_digits (acc * radix + d) (S count) s'
      | None => Some (acc, count, s)
      end
  | "" => Some (acc, count, s)
  end.

Definition read_number (radix : N) (max_digits : nat) (allow_zero_prefix : bool) (max : N)
  : Reader N := fun s =>
  let has_leading_zero := match s with String "0" _ => true | _ => false end in
  match read_digits radix max_digits 0 0 s with
  | Some (n, count, s') =>
      if (count =? 0)%nat then None
      else if negb allow_zero_prefix && has_leading_zero && (1 <? count)%nat then None
      else if (n <=? max)%N then Some (n, s') else None
  | None => None
  end.

Definition read_separator {A} (sep : ascii) (index : nat) (inner : Reader A) : Reader A :=
  fun s =>
  if (0 <? index)%nat then
    match read_given_char sep s with
    | Some (_, s') => inner s'
    | None => None
    end
  else inner s.

(** The octets of an IPv4 address, from index [4 - n]. *)
Fixpoint read_octets (n : nat) (i : nat) : Reader (list N) := fun s =>
  match n with
  | 0 => Some ([], s)
  | S n' =>
      match read_separator "." i (read_number 10 3 false 255) s with
      | Some (o, s') =>
          match read_octets n' (S i) s' with
          | Some (os, s'') => Some (o :: os, s'')
          | None => None
          end
      | None => None
      end
  end.
Definition read_ipv4_addr : Reader (list N) := read_octets 4 0.

(** [read_groups]: up to [limit] colon-separated 16-bit groups, the last two of
    which may be written as an IPv4 address; the groups, whether they ended
    with one, and the rest. *)
Fixpoint read_groups (left i : nat) (s : string) : list N * bool * string :=
  match left with
  | 0 => ([], false, s)
  | S left' =>
      let v4 := if (0 <? left')%nat then read_separator ":" i read_ipv4_addr s else None in
      match v4 with
      | Some (o, s') =>
          ([nth 0 o 0 * 256 + nth 1 o 0; nth 2 o 0 * 256 + nth 3 o 0]%N, true, s')
      | None =>
          match read_separator ":" i (read_number 16 4 true 65535) s with
          | Some (g, s') =>
              let '(gs, v4, s'') := read_groups left' (S i) s' in (g :: gs, v4, s'')
          | None => ([], false, s)
          end
      end
  end.

Definition read_ipv6_addr : Reader (list N) := fun s =>
  let '(head, head_ipv4, s1) := read_groups 8 0 s in
  if (length head =? 8)%nat then Some (head, s1)
  else if head_ipv4 then None
  else
    match read_given_char ":" s1 with
    | Some (_, s2) =>
        match read_given_char ":" s2 with
        | Some (_, s3) =>
            let '(tail, _, s4) := read_groups (8 - (length head + 1)) 0 s3 in
            Some (head ++ repeat 0%N (8 - length head - length tail) ++ tail, s4)
        | None => None
        end
    | None => None
    end.

Inductive IpAddr := V4 (octets : list N) | V6 (segments : list N).

Definition parse_ip_addr (s : string) : option IpAddr :=
  let r := match read_ipv4_addr s with
           | Some (o, s') => Some (V4 o, s')
           | None => match read_ipv6_addr s with
                     | Some (g, s') => Some (V6 g, s')
                     | None => None
                     end
           end in
  match r with Some (a, "") => Some a | _ => None end.

Example parse_v4 : parse_ip_addr "10.0.0.1" = Some (V4 [10; 0; 0; 1]%N).
Proof. reflexivity. Qed.
Example parse_v4_zero : parse_ip_addr "10.0.0.01" = None.
Proof. reflexivity. Qed.
Example parse_v6 : parse_ip_addr "fe80::1" = Some (V6 [65152; 0; 0; 0; 0; 0; 0; 1]%N).
Proof. reflexivity. Qed.
Example parse_v6_v4 :
  parse_ip_addr "::ffff:1.2.3.4" = Some (V6 [0; 0; 0; 0; 0; 65535; 258; 772]%N).
Proof. reflexivity. Qed.
Example parse_v6_short : parse_ip_addr "1:2:3" = None.
Proof. reflexivity. Qed.

(** ** What an address can hold *)

Definition addr_char (c : ascii) : bool :=
  in_range 48 57 c || in_range 97 102 c || in_range 65 70 c ||
  Ascii.eqb c "." || Ascii.eqb c ":".

(** A reader consumes a prefix made of address characters. *)
Definition reads {A} (r : Reader A) : Prop :=
  forall s a s', r s = Some (a, s') ->
  exists p, s = p ^^ s' /\ str_forall addr_char p = true.

Lemma to_digit_addr radix c d : to_digit radix c = Some d -> addr_char c = true.
Proof.
  unfold to_digit, hex_value, addr_char.
  destruct (in_range 48 57 c), (in_range 97 102 c), (in_range 65 70 c); done.
Qed.

Lemma reads_given_char c : addr_char c = true -> reads (read_given_char c).
Proof.
  intros Hc s a s'. destruct s as [|d s]; [done|]. cbn [read_given_char].
  destruct (Ascii.eqb_spec c d) as [<-|]; [|done]. intros [= _ <-].
  exists (String c ""). cbn [str_forall]. by rewrite Hc.
Qed.

Lemma read_digits_spec radix m acc n s x k s' :
  read_digits radix m acc n s = Some (x, k, s') ->
  exists p, s = p ^^ s' /\ str_forall addr_char p = true.
Proof.
  revert acc n; induction s as [|c s IH]; intros acc n; cbn [read_digits].
  { intros [= _ _ <-]. by exists "". }
  destruct (to_digit radix c) as [d|] eqn:Hd.
  - destruct (m <? S n)%nat; [done|]. intros (p & -> & Hp)%IH.
    exists (String c p). cbn [str_forall]. apply to_digit_addr in Hd. by rewrite Hd.
  - intros [= _ _ <-]. by exists "".
Qed.

Lemma reads_number radix m z b : reads (read_number radix m z b).
Proof.
  intros s a s'. unfold read_number.
  destruct (read_digits radix m 0 0 s) as [[[n k] s1]|] eqn:Hr; [|done].
  apply read_digits_spec in Hr. repeat (case_match; try done).
  all: intros [= <- <-]; done.
Qed.

Lemma reads_separator {A} c i (r : Reader A) :
  addr_char c = true -> reads r -> reads (read_separator c i r).
Proof.
  intros Hc Hr s a s'. unfold read_separator. destruct (0 <? i)%nat; [|apply Hr].
  destruct (read_given_char c s) as [[u s1]|] eqn:Hs; [|done].
  apply (reads_given_char c Hc) in Hs as (p & -> & Hp). intros (q & -> & Hq)%Hr.
  exists (p ^^ q). by rewrite str_forall_app, Hp, Hq, app_str_assoc.
Qed.

Lemma reads_octets n i : reads (read_octets n i).
Proof.
  revert i; induction n as [|n IH]; intros i s a s'; cbn [read_octets].
  { intros [= _ <-]. by exists "". }
  destruct (read_separator _ _ _ s) as [[o s1]|] eqn:Hs; [|done].
  apply reads_separator in Hs as (p & -> & Hp); [|done|apply reads_number].
  destruct (read_octets n (S i) s1) as [[os s2]|] eqn:Ho; [|done].
  apply IH in Ho as (q & -> & Hq). intros [= _ <-].
  exists (p ^^ q). by rewrite str_forall_app, Hp, Hq, app_str_assoc.
Qed.

Lemma read_groups_spec n i s gs b s' :
  read_groups n i s = (gs, b, s') ->
  exists p, s = p ^^ s' /\ str_forall addr_char p = true.
Proof.
  revert i s gs b s'; induction n as [|n IH]; intros i s gs b s'; cbn [read_groups].
  { intros [= _ _ <-]. by exists "". }
  destruct (if (0 <? n)%nat then _ else _) as [[o s1]|] eqn:Hv.
  { destruct (0 <? n)%nat; [|done].
    apply reads_separator in Hv; [|done|apply reads_octets].
    by intros [= _ _ <-]. }
  destruct (read_separator _ _ (read_number _ _ _ _) s) as [[g s1]|] eqn:Hs.
  - apply reads_separator in Hs as (p & -> & Hp); [|done|apply reads_number].
    destruct (read_groups n (S i) s1) as [[gs' b'] s2] eqn:Hg.
    apply IH in Hg as (q & -> & Hq). intros [= _ _ <-].
    exists (p ^^ q). by rewrite str_forall_app, Hp, Hq, app_str_assoc.
  - intros [= _ _ <-]. by exists "".
Qed.

Lemma reads_ipv6 : reads read_ipv6_addr.
Proof.
  intros s a s'. unfold read_ipv6_addr.
  destruct (read_groups 8 0 s) as [[h hb] s1] eqn:Hh.
  apply read_groups_spec in Hh as (p & -> & Hp).
  destruct (length h =? 8)%nat; [intros [= _ <-]; by exists p|]. destruct hb; [done|].
  destruct (read_given_char ":" s1) as [[u s2]|] eqn:H1; [|done].
  apply reads_given_char in H1 as (q1 & -> & Hq1); [|done].
  destruct (read_given_char ":" s2) as [[u' s3]|] eqn:H2; [|done].
  apply reads_given_char in H2 as (q2 & -> & Hq2); [|done].
  destruct (read_groups _ 0 s3) as [[t tb] s4] eqn:Ht.
  apply read_groups_spec in Ht as (q3 & -> & Hq3). intros [= _ <-].
  exists (p ^^ q1 ^^ q2 ^^ q3).
  by rewrite !str_forall_app, Hp, Hq1, Hq2, Hq3, !app_str_assoc.
Qed.

(** An address literal has no character but hexadecimal digits, dots and colons. *)
Lemma parse_ip_addr_chars s a : parse_ip_addr s = Some a -> str_forall addr_char s = true.
Proof.
  unfold parse_ip_addr. destruct (read_ipv4_addr s) as [[o s1]|] eqn:H4.
  - apply reads_octets in H4 as (p & -> & Hp). destruct s1; [|done].
    by rewrite app_str_nil_r.
  - destruct (read_ipv6_addr s) as [[g s1]|] eqn:H6; [|done].
    apply reads_ipv6 in H6 as (p & -> & Hp). destruct s1; [|done].
    by rewrite app_str_nil_r.
Qed.

Lemma parse_ip_addr_nonempty s a : parse_ip_addr s = Some a -> s <> "".
Proof. by intros H ->. Qed.
