(* ===== verification/Inventory.v ===== *)
(** * The device inventory ([inventory.rs])

    The entries of [devices.json], the character classes that names,
    addresses, usernames and key paths must keep to, and the checks every
    loaded inventory has passed.  Reading and parsing the file is the shared
    crate's: [shared] below is what it returns.  Paths come from JSON, so they
    are UTF-8 strings; the [chars().all(..)] tests of the source are about ASCII
    characters only and are taken byte by byte. *)

From S2P Require Import Prelude RustStr Fmt Errors Helpers NetAddr.
From stdpp Require Import sorting.
From Stdlib Require Import Ascii.

(** ** [mod validation] *)

Definition name_char (c : ascii) : bool :=
  is_ascii_alphanumeric c || Ascii.eqb c "_" || Ascii.eqb c "." || Ascii.eqb c "-".

Definition is_valid_device_name (s : string) : bool :=
  if is_empty s || (64 <? len s)%N || starts_with "-" s then false
  else str_forall name_char s.

Definition label_char (c : ascii) : bool := is_ascii_alphanumeric c || Ascii.eqb c "-".

Definition valid_label (label : string) : bool :=
  negb (is_empty label) && (len label <=? 63)%N && negb (starts_with "-" label)
  && negb (ends_with "-" label) && str_forall label_char label.

Definition is_valid_ip_or_hostname (s : string) : bool :=
  match parse_ip_addr s with
  | Some _ => true
  | None =>
      if is_empty s || (253 <? len s)%N then false
      else forallb valid_label (split_byte "." s)
  end.

Definition is_valid_ssh_username (s : string) : bool :=
  if is_empty s || (64 <? len s)%N || starts_with "-" s then false
  else str_forall name_char s.

Definition is_valid_auth_path (p : string) : bool :=
  if is_empty p then false
  else if has_byte "000" p then false
  else negb (starts_with "-" p).

(** ** The entries *)

Inductive AuthConfig :=
  | Password (password : string)
  | SshKey (private_key_path : string).

(** [impl Debug for AuthConfig] *)
Definition auth_debug (a : AuthConfig) : string :=
  match a with
  | Password _ => "Password { password: " ^^ debug_str "<redacted>" ^^ " }"
  | SshKey p => "SshKey { private_key_path: " ^^ debug_str p ^^ " }"
  end.

Inductive Action := Deny | Allow.
#[export] Instance Action_eq_dec : EqDecision Action.
Proof. solve_decision. Defined.

Record RuleSpec := { action : Action; pattern : string }.

Inductive CommandModeConfig := CfgAllowlist | CfgBlocklist.

Record BlocklistRules := {
  commands : list RuleSpec;
  config : list RuleSpec;
  pfe_commands : list RuleSpec;
  bl_mode : option CommandModeConfig;
  allow : list string;
  allowed_pipes : list string;
  pfe_allow : list string;
  pfe_allowed_pipes : list string
}.
(** [impl Default for BlocklistRules] *)
Definition no_rules : BlocklistRules := {|
  commands := []; config := []; pfe_commands := []; bl_mode := None;
  allow := []; allowed_pipes := []; pfe_allow := []; pfe_allowed_pipes := []
|}.

Definition default_port : N := 22.

Record DeviceEntry := {
  ip : string;
  port : N;
  username : string;
  auth : AuthConfig;
  ssh_config : option string;
  blocklist : option BlocklistRules;
  config_authority : JunosAuthority
}.

(** ** [Inventory] *)

Record Inventory := {
  devices : gmap string DeviceEntry;
  blocklist_defaults : option BlocklistRules;
  source_path : string
}.

(** What [mecmcp_inventory::FileInventory::load] gives: the names, the entries
    (a lookup may fail) and the policy section. *)
Record SharedInventory := {
  sh_names : list string;
  sh_get : string -> Result DeviceEntry string;
  sh_policy : option BlocklistRules
}.

Definition empty_inventory : Inventory :=
  {| devices := ∅; blocklist_defaults := None; source_path := "" |}.

Section inventory.
Context {X : External}.
(** [Path::exists] *)
Context (path_exists : string -> bool).

Definition invalid_entry (name msg : string) : JmcpError :=
  InventoryInvalid ("router '" ^^ name ^^ "': " ^^ msg).

(** The checks on one entry: one iteration of [validate]'s loop. *)
Definition validate_entry (name : string) (entry : DeviceEntry) : Result unit JmcpError :=
  if negb (is_valid_device_name name) then
    Err (invalid_entry name
      "name is invalid (must match ^[A-Za-z0-9_.-]{1,64}$, no leading '-')")
  else if negb (is_valid_ip_or_hostname (ip entry)) then
    Err (invalid_entry name "ip/hostname is invalid")
  else if (port entry =? 0)%N then
    Err (invalid_entry name "port must be non-zero")
  else if negb (is_valid_ssh_username (username entry)) then
    Err (invalid_entry name
      "username is invalid (must match ^[A-Za-z0-9_.-]{1,64}$, no leading '-')")
  else
    let? _ :=
      match auth entry with
      | SshKey private_key_path =>
          if negb (is_valid_auth_path private_key_path) then
            Err (invalid_entry name
              "private_key_path is invalid (empty, contains NUL, or starts with '-')")
          else if negb (path_exists private_key_path) then
            Err (KeyFileMissing private_key_path)
          else Ok tt
      | Password _ => Ok tt
      end in
    match blocklist entry with
    | Some bl =>
        match bl_mode bl with
        | Some _ =>
            Err (invalid_entry name
              "blocklist.mode is not allowed on a per-device blocklist; 'mode' is policy-wide and must be set only in _blocklist_defaults")
        | None => Ok tt
        end
    | None => Ok tt
    end.

(** The loop, over the entries in the order the map yields them. *)
Fixpoint validate_all (entries : list (string * DeviceEntry)) : Result unit JmcpError :=
  match entries with
  | [] => Ok tt
  | (name, entry) :: rest =>
      let? _ := validate_entry name entry in
      validate_all rest
  end.
Definition validate (ds : gmap string DeviceEntry) : Result unit JmcpError :=
  validate_all (map_to_list ds).

(** [names.map(|name| ..).collect::<Result<HashMap<_, _>, _>>()] *)
Fixpoint collect_devices (get : string -> Result DeviceEntry string) (names : list string)
    (acc : gmap string DeviceEntry) : Result (gmap string DeviceEntry) JmcpError :=
  match names with
  | [] => Ok acc
  | name :: rest =>
      match get name with
      | Ok entry => collect_devices get rest (<[name := entry]> acc)
      | Err e => Err (InventoryInvalid e)
      end
  end.

Definition load (shared : Result SharedInventory string) (path : string)
  : Result Inventory JmcpError :=
  match shared with
  | Err e => Err (InventoryInvalid e)
  | Ok sh =>
      let? ds := collect_devices (sh_get sh) (sh_names sh) ∅ in
      let? _ := validate ds in
      Ok {| devices := ds; blocklist_defaults := sh_policy sh; source_path := path |}
  end.

Definition get (inv : Inventory) (name : string) : Result DeviceEntry JmcpError :=
  ok_or (UnknownRouter name) (devices inv !! name).

Definition names (inv : Inventory) : list string :=
  merge_sort strings.String.le (elements (dom (devices inv) : gset string)).

Definition inv_len (inv : Inventory) : N := N.of_nat (size (devices inv)).
Definition inv_is_empty (inv : Inventory) : bool := (inv_len inv =? 0)%N.
Definition contains_router (inv : Inventory) (name : string) : bool :=
  bool_decide (is_Some (devices inv !! name)).

(** ** Properties *)

(** What one entry must satisfy. *)
Record ValidEntry (name : string) (e : DeviceEntry) : Prop := {
  ve_name : is_valid_device_name name = true;
  ve_ip : is_valid_ip_or_hostname (ip e) = true;
  ve_port : port e <> 0%N;
  ve_user : is_valid_ssh_username (username e) = true;
  ve_key : forall p, auth e = SshKey p -> is_valid_auth_path p = true /\ path_exists p = true;
  ve_mode : forall bl, blocklist e = Some bl -> bl_mode bl = None
}.

Lemma validate_entry_ok name e : validate_entry name e = Ok tt <-> ValidEntry name e.
Proof.
  unfold validate_entry. split.
  - intros H.
    destruct (is_valid_device_name name) eqn:H1; [|done].
    destruct (is_valid_ip_or_hostname (ip e)) eqn:H2; [|done]. cbn [negb] in H.
    destruct (N.eqb_spec (port e) 0) as [|H3]; [done|].
    destruct (is_valid_ssh_username (username e)) eqn:H4; [|done]. cbn [negb] in H.
    split; try done.
    + intros p Hp. rewrite Hp in H. destruct (is_valid_auth_path p); [|done].
      by destruct (path_exists p).
    + intros bl Hb. rewrite Hb in H. destruct (bl_mode bl); [|done].
      by destruct (match auth e with Password _ => _ | _ => _ end).
  - intros [-> -> H3 -> Hk Hm]. cbn [negb].
    destruct (N.eqb_spec (port e) 0); [done|].
    assert (Hmode : match blocklist e with
      | Some bl => match bl_mode bl with Some _ => false | None => true end
      | None => true end = true).
    { destruct (blocklist e) as [bl|]; [|done]. by rewrite (Hm bl). }
    destruct (auth e) as [|p] eqn:Ha; cbn.
    + destruct (blocklist e) as [bl|]; [|done]. by destruct (bl_mode bl).
    + destruct (Hk p eq_refl) as [-> ->]. cbn.
      destruct (blocklist e) as [bl|]; [|done]. by destruct (bl_mode bl).
Qed.

Lemma validate_all_ok l :
  validate_all l = Ok tt <-> Forall (fun ne => ValidEntry ne.1 ne.2) l.
Proof.
  induction l as [|[n e] l IH]; cbn [validate_all]; [by split|].
  rewrite list.Forall_cons, <- IH, <- validate_entry_ok. cbn [fst snd].
  destruct (validate_entry n e) as [[]|]; naive_solver.
Qed.

Lemma validate_ok ds :
  validate ds = Ok tt <-> map_Forall ValidEntry ds.
Proof.
  unfold validate. rewrite validate_all_ok, list.Forall_forall. split.
  - intros H n e He. by apply (H (n, e)), elem_of_map_to_list.
  - intros H [n e] He%elem_of_map_to_list. by apply H.
Qed.

(** A map in which every entry can be read back, and the values come from
    [get]. *)
Lemma collect_devices_ok get0 ns acc ds :
  collect_devices get0 ns acc = Ok ds ->
  forall n, ds !! n = if decide (n ∈ ns) then result_ok (get0 n) else acc !! n.
Proof.
  revert acc; induction ns as [|m ns IH]; intros acc; cbn [collect_devices].
  { intros [= <-] n. by rewrite decide_False by set_solver. }
  destruct (get0 m) as [e|] eqn:Hm; [|done]. intros H n. rewrite (IH _ H).
  destruct (decide (n ∈ ns)); [by rewrite decide_True by set_solver|].
  destruct (decide (n = m)) as [->|Hne].
  - rewrite lookup_insert_eq, decide_True by set_solver. by rewrite Hm.
  - rewrite lookup_insert_ne, decide_False by (try done; set_solver). done.
Qed.

Lemma starts_with_dash_head c s : starts_with "-" (String c s) = Ascii.eqb "-" c.
Proof.
  unfold starts_with. cbn [String.prefix].
  destruct (ascii_dec "-" c) as [<-|H%Ascii.eqb_neq]; [by destruct s|done].
Qed.

Definition no_leading_dash (s : string) : Prop := starts_with "-" s = false.

(** No character of [s] could be read as anything but a word by a shell, an
    SSH option parser or the device's own parser: letters, digits and
    [_ . - :] only, and no leading dash. *)
Definition inert_char (c : ascii) : bool := name_char c || Ascii.eqb c ":".
Definition inert (s : string) : Prop :=
  s <> "" /\ str_forall inert_char s = true /\ no_leading_dash s.

Lemma name_inert s : is_valid_device_name s = true -> inert s.
Proof.
  unfold is_valid_device_name. destruct (is_empty s) eqn:He; [done|].
  destruct (_ <? _)%N; [done|]. destruct (starts_with _ s) eqn:Hd; [done|].
  intros H. split; [by intros ->|]. split; [|done].
  revert H. apply str_forall_impl. intros c Hc. unfold inert_char. by rewrite Hc.
Qed.

Lemma addr_char_inert c : addr_char c = true -> inert_char c = true.
Proof. destruct c as [[] [] [] [] [] [] [] []]; by vm_compute. Qed.
Lemma label_char_inert c : label_char c = true -> inert_char c = true.
Proof.
  unfold label_char, inert_char, name_char.
  intros [->| ->]%orb_prop; by rewrite ?orb_true_r.
Qed.

Lemma split_byte_forall (p : ascii -> bool) d s :
  p d = true -> forallb (str_forall p) (split_byte d s) = true -> str_forall p s = true.
Proof.
  intros Hd. induction s as [|c s IH]; [done|]. cbn [split_byte].
  destruct (Ascii.eqb_spec c d) as [->|Hc].
  - cbn [forallb str_forall]. intros H. rewrite Hd. by apply IH.
  - destruct (split_byte d s) as [|h t]; cbn [forallb str_forall] in *.
    + intros H. apply andb_true_iff in H as [H _]. apply andb_true_iff in H as [-> _]. by apply IH.
    + intros H. apply andb_true_iff in H as [H Ht]. apply andb_true_iff in H as [-> H].
      apply IH. by rewrite H, Ht.
Qed.

Lemma split_byte_head d s : exists h t, split_byte d s = h :: t /\ (s = h \/ exists s', s = h ^^ String d s').
Proof.
  induction s as [|c s (h & t & E & IH)]; [by exists "", []; split; [|left]|].
  cbn [split_byte]. destruct (Ascii.eqb_spec c d) as [->|Hc].
  - exists "", (split_byte d s). split; [done|]. right. by exists s.
  - rewrite E. exists (String c h), t. split; [done|]. destruct IH as [->|[s' ->]]; [by left|].
    right. by exists s'.
Qed.

Lemma ip_or_hostname_inert s : is_valid_ip_or_hostname s = true -> inert s.
Proof.
  unfold is_valid_ip_or_hostname. destruct (parse_ip_addr s) as [a|] eqn:Hp; intros H.
  - pose proof (parse_ip_addr_chars s a Hp) as Hc. apply parse_ip_addr_nonempty in Hp.
    split; [done|]. split.
    + revert Hc. apply str_forall_impl, addr_char_inert.
    + destruct s as [|c s]; [done|]. unfold no_leading_dash. rewrite starts_with_dash_head.
      cbn [str_forall] in Hc. apply andb_true_iff in Hc as [Hc _].
      destruct (Ascii.eqb_spec "-" c) as [<-|]; [done|done].
  - destruct (is_empty s) eqn:He; [done|]. destruct (_ <? _)%N; [done|]. cbn [orb] in H.
    split; [by intros ->|]. split.
    + apply (split_byte_forall _ "." s); [done|]. revert H. rewrite !forallb_forall.
      intros H l Hl%H. unfold valid_label in Hl. rewrite !andb_true_iff in Hl.
      destruct Hl as [_ Hl]. revert Hl. apply str_forall_impl, label_char_inert.
    + destruct (split_byte_head "." s) as (h & t & E & Hs). rewrite E in H.
      cbn [forallb] in H. unfold valid_label in H. rewrite !andb_true_iff, !negb_true_iff in H.
      destruct H as [[[[[Hne _] Hd] _] _] _]. unfold no_leading_dash.
      destruct h as [|c h]; [done|]. rewrite starts_with_dash_head in Hd.
      destruct Hs as [->|[s' ->]]; cbn [String.append]; by rewrite starts_with_dash_head.
Qed.

(** C15: an inventory that loads holds no dangerous value: for every device
    the name, address and username are non-empty words of letters, digits and
    [_ . - :] that do not start with a dash (nothing a shell or an SSH option
    parser could take for anything else), the port is not zero, a key file
    exists and its path does not start with a dash or hold a NUL, and no device
    sets the policy-wide [mode].  Conversely [load] refuses nothing else: it
    succeeds as soon as every entry passes those checks. *)
Theorem load_spec sh path :
  (forall inv, load (Ok sh) path = Ok inv ->
     source_path inv = path /\ blocklist_defaults inv = sh_policy sh /\
     (forall n, devices inv !! n = if decide (n ∈ sh_names sh) then result_ok (sh_get sh n) else None) /\
     map_Forall (fun n e => ValidEntry n e /\ inert n /\ inert (ip e) /\ inert (username e))
                (devices inv)) /\
  ((forall n, n ∈ sh_names sh -> exists e, sh_get sh n = Ok e /\ ValidEntry n e) ->
   is_ok (load (Ok sh) path) = true).
Proof.
  unfold load. split.
  - intros inv H. destruct (collect_devices _ _ _) as [ds|] eqn:Hc; [|done].
    destruct (validate ds) as [[]|] eqn:Hv; [|done]. injection H as <-. cbn.
    split; [done|]. split; [done|]. split.
    + intros n. rewrite (collect_devices_ok _ _ _ _ Hc). by rewrite lookup_empty.
    + apply validate_ok in Hv. intros n e He. specialize (Hv n e He).
      split; [done|]. destruct Hv as [H1 H2 _ H3 _ _].
      split; [by apply name_inert|]. split; [by apply ip_or_hostname_inert|].
      by apply name_inert.
  - intros Hall. destruct (collect_devices _ _ _) as [ds|e] eqn:Hc.
    + assert (Hv : validate ds = Ok tt); [|by rewrite Hv].
      apply validate_ok. intros n e He. rewrite (collect_devices_ok _ _ _ _ Hc) in He.
      destruct (decide (n ∈ sh_names sh)) as [Hn|]; [|done].
      destruct (Hall n Hn) as (e' & He' & Hve). rewrite He' in He. by injection He as <-.
    + exfalso. revert Hc. generalize (∅ : gmap string DeviceEntry) as acc.
      induction (sh_names sh) as [|n ns IH]; intros acc; cbn [collect_devices]; [done|].
      destruct (Hall n) as (e' & -> & _); [set_solver|]. apply IH.
      intros m Hm. apply Hall. set_solver.
Qed.

Lemma elem_of_names inv r : r ∈ names inv <-> is_Some (devices inv !! r).
Proof. unfold names. by rewrite merge_sort_Permutation, elem_of_elements, elem_of_dom. Qed.

(** [names] lists exactly the devices that [get] finds, each once, in
    alphabetical order. *)
Theorem names_spec inv :
  Sorted strings.String.le (names inv) /\ NoDup (names inv) /\
  (forall n, n ∈ names inv <-> is_ok (get inv n) = true) /\
  length (names inv) = N.to_nat (inv_len inv).
Proof.
  pose proof (merge_sort_Permutation strings.String.le (elements (dom (devices inv) : gset string)))
    as Hp. fold (names inv) in Hp. split; [apply Sorted_merge_sort, _|].
  split; [rewrite Hp; apply NoDup_elements|]. split.
  - intros n. rewrite elem_of_names. unfold get, ok_or.
    destruct (devices inv !! n); split; done.
  - rewrite Hp. unfold inv_len. rewrite Nat2N.id. by rewrite <- size_dom.
Qed.

End inventory.

(** The [Debug] form of an authentication method does not depend on the
    password, so nothing logged through it can reveal one. *)
Lemma auth_debug_redacts p q : auth_debug (Password p) = auth_debug (Password q).
Proof. reflexivity. Qed.

(** ** A concrete inventory *)

#[local] Existing Instance string_external.

Definition demo_entry : DeviceEntry := {|
  ip := "router-3.example.net"; port := 22; username := "netconf";
  auth := SshKey "/etc/jmcp/id"; ssh_config := None; blocklist := None;
  config_authority := AuthUnknown
|}.
Definition demo_shared : SharedInventory := {|
  sh_names := ["r2"; "r1"]; sh_get := fun _ => Ok demo_entry; sh_policy := None
|}.
Definition key_exists (p : string) : bool := String.eqb p "/etc/jmcp/id".

Example load_rejects_option_injection :
  validate_entry key_exists "r1"
    {| ip := "10.0.0.1"; port := 22; username := "-oProxyCommand=foo";
       auth := Password "x"; ssh_config := None; blocklist := None;
       config_authority := AuthUnknown |} =
  Err (InventoryInvalid "router 'r1': username is invalid (must match ^[A-Za-z0-9_.-]{1,64}$, no leading '-')").
Proof. vm_compute. reflexivity. Qed.

Lemma demo_entry_valid n : is_valid_device_name n = true -> ValidEntry key_exists n demo_entry.
Proof.
  intros Hn. split; [done|vm_compute; reflexivity|done|vm_compute; reflexivity| |done].
  by intros p [= <-].
Qed.

Lemma load_spec_witness :
  is_ok (load (X := string_external) key_exists (Ok demo_shared) "devices.json") = true.
Proof.
  apply (proj2 (load_spec (X := string_external) key_exists demo_shared "devices.json")).
  intros n Hn. exists demo_entry. split; [done|]. apply demo_entry_valid.
  cbn [demo_shared sh_names] in Hn. rewrite !elem_of_cons in Hn.
  destruct Hn as [->|[->|Hn]]; [done|done|by apply elem_of_nil in Hn].
Defined.
