(* ===== verification/Policy.v ===== *)
(** * Command and configuration policy ([policy.rs])

    One compiled policy per device over the shared rule engine
    [mecmcp_policy], which is a parameter: [PolicyEngine] lists what the source
    calls of it and [PolicyEngineLaws] what its documentation promises. *)

From S2P Require Import Prelude RustStr Fmt Errors Helpers Inventory.
From Stdlib Require Import Ascii.

Inductive CommandMode := Allowlist | Blocklist.
#[export] Instance CommandMode_eq_dec : EqDecision CommandMode.
Proof. solve_decision. Defined.

Inductive RuleSource := SrcDefaults | SrcDevice.
Inductive AllowlistEntryErrorKind := GlobMetachar (c : string) | EmptyEntry.

(** The types and functions of [mecmcp_policy] the source uses. *)
Class PolicyEngine {X : External} := {
  CompiledRule : Type;
  rule_action : CompiledRule -> Action;
  rule_pattern : CompiledRule -> string;
  rule_source : CompiledRule -> RuleSource;
  source_str : RuleSource -> string;
  AllowlistEntry : Type;
  AllowlistDenyReason : Type;
  ForbiddenMetachar : AllowlistDenyReason;
  reason_str : AllowlistDenyReason -> string;
  (** [mecmcp_policy::Policy<Action>] *)
  LibPolicy : Type
}.

Section types.
Context {X : External} `{!PolicyEngine}.

Inductive Decision :=
  | DecAllow
  | DecDeny (rule : CompiledRule) (source : RuleSource) (line_number : option N)
  | DecDenyAllowlist (mode : CommandMode) (reason : AllowlistDenyReason) (normalized : string).

Record DomainRules := {
  dr_defaults : list CompiledRule;
  dr_device_specific : gmap string (list CompiledRule)
}.
Record CommandAllowlist := {
  al_entries : list AllowlistEntry;
  al_pipes : list AllowlistEntry
}.
Record CommandDomain := { cd_blocklist : DomainRules; cd_allowlist : CommandAllowlist }.

End types.

Class PolicyFns {X : External} {P : PolicyEngine} := {
  lib_compile_rules : list (Action * string) -> string -> RuleSource ->
    (string -> string -> GlobError -> JmcpError) -> Result (list CompiledRule) JmcpError;
  compile_allowlist_entries : list string -> string ->
    (string -> string -> AllowlistEntryErrorKind -> JmcpError) ->
    Result (list AllowlistEntry) JmcpError;
  policy_new : CommandMode -> CommandDomain -> DomainRules -> CommandDomain -> LibPolicy;
  lib_check_command : LibPolicy -> string -> string -> Action -> Decision;
  lib_check_pfe_command : LibPolicy -> string -> string -> Action -> Decision;
  lib_check_config : LibPolicy -> string -> string -> string -> Action -> string ->
    (string -> JmcpError) -> Result Decision JmcpError;
  command_rules_for : LibPolicy -> string -> list CompiledRule;
  pfe_command_rules_for : LibPolicy -> string -> list CompiledRule;
  lib_has_config_rules_for : LibPolicy -> string -> bool;
  evaluate : list CompiledRule -> string -> option CompiledRule;
  normalize_input : string -> string;
  is_allowed : Decision -> bool
}.

Section policy.
Context {X : External} {P : PolicyEngine} {F : PolicyFns}.

Definition compile_rules (rules : list RuleSpec) (scope : string) (source : RuleSource)
  : Result (list CompiledRule) JmcpError :=
  lib_compile_rules (map (fun r => (action r, pattern r)) rules) scope source
    (fun scope pattern err => BlocklistRuleInvalid scope pattern err).

Definition compile_allowlist (entries : list string) (scope : string)
  : Result (list AllowlistEntry) JmcpError :=
  compile_allowlist_entries entries scope (fun scope entry kind =>
    AllowlistEntryInvalid scope entry
      match kind with
      | GlobMetachar c => "contains glob metacharacter '" ^^ c ^^
          "' (allowlist entries are literal whitespace-token prefixes, never globs)"
      | EmptyEntry => "is empty or all-whitespace"
      end).

Definition compile_domain_rules (defaults : list RuleSpec)
    (device : option (string * list RuleSpec)) (scope_prefix : string)
  : Result DomainRules JmcpError :=
  let? d := compile_rules defaults ("_blocklist_defaults." ^^ scope_prefix) SrcDefaults in
  let domain := {| dr_defaults := d; dr_device_specific := ∅ |} in
  match device with
  | Some (name, (_ :: _) as rules) =>
      let? compiled := compile_rules rules
        ("device '" ^^ name ^^ "'.blocklist." ^^ scope_prefix) SrcDevice in
      match compiled with
      | [] => Ok domain
      | _ => Ok {| dr_defaults := d; dr_device_specific := {[ name := compiled ]} |}
      end
  | _ => Ok domain
  end.

Record Policy := {
  per_device : gmap string LibPolicy;
  default_policy : LibPolicy;
  command_mode : CommandMode;
  default_commands_count : N;
  default_config_count : N;
  default_pfe_commands_count : N;
  devices_with_rules : N
}.

(** [defaults.map(|d| d.f.as_slice()).unwrap_or(&[])] *)
Definition rules_or_empty {A} (f : BlocklistRules -> list A) (o : option BlocklistRules)
  : list A :=
  match o with Some b => f b | None => [] end.

Definition has_rules (b : BlocklistRules) : bool :=
  match commands b, config b, pfe_commands b with [], [], [] => false | _, _, _ => true end.
Definition entry_has_rules (e : DeviceEntry) : bool :=
  match blocklist e with Some b => has_rules b | None => false end.

Definition choose_mode (inv : Inventory) : CommandMode :=
  let defaults := blocklist_defaults inv in
  match match defaults with Some d => bl_mode d | None => None end with
  | Some CfgAllowlist => Allowlist
  | Some CfgBlocklist => Blocklist
  | None =>
      let any_device_has_rules :=
        existsb (fun name => match get inv name with
                             | Ok entry => entry_has_rules entry
                             | Err _ => false
                             end) (names inv) in
      let legacy_deny_only :=
        match defaults with Some d => has_rules d | None => false end
        || any_device_has_rules in
      if legacy_deny_only then Blocklist else Allowlist
  end.

(** The two command domains and the config rules of one device ([None]: the
    defaults alone), compiled in the source's order. *)
Definition compile_policy (mode : CommandMode) (defaults : option BlocklistRules)
    (device : option (string * option BlocklistRules)) : Result LibPolicy JmcpError :=
  let dev_rules f := match device with
                     | Some (name, Some b) => Some (name, f b)
                     | _ => None
                     end in
  let bl := match device with Some (_, b) => b | None => None end in
  let scope field := match device with
                     | Some (name, _) => "device '" ^^ name ^^ "'." ^^ field
                     | None => "_blocklist_defaults." ^^ field
                     end in
  let merged f := rules_or_empty f defaults ++ rules_or_empty f bl in
  let? commands_rules :=
    compile_domain_rules (rules_or_empty commands defaults) (dev_rules commands) "commands" in
  let? config_rules :=
    compile_domain_rules (rules_or_empty config defaults) (dev_rules config) "config" in
  let? pfe_rules :=
    compile_domain_rules (rules_or_empty pfe_commands defaults) (dev_rules pfe_commands)
      "pfe_commands" in
  let? allow_entries := compile_allowlist (merged allow) (scope "allow") in
  let? pipe_entries := compile_allowlist (merged allowed_pipes) (scope "allowed_pipes") in
  let? pfe_allow_entries := compile_allowlist (merged pfe_allow) (scope "pfe_allow") in
  let? pfe_pipe_entries := compile_allowlist (merged pfe_allowed_pipes) (scope "pfe_allowed_pipes") in
  Ok (policy_new mode
        {| cd_blocklist := commands_rules;
           cd_allowlist := {| al_entries := allow_entries; al_pipes := pipe_entries |} |}
        config_rules
        {| cd_blocklist := pfe_rules;
           cd_allowlist := {| al_entries := pfe_allow_entries; al_pipes := pfe_pipe_entries |} |}).

(** The loop of [build] over the device names. *)
Fixpoint build_devices (inv : Inventory) (mode : CommandMode) (ns : list string)
    (per_device : gmap string LibPolicy) (with_rules : N)
  : Result (gmap string LibPolicy * N) JmcpError :=
  match ns with
  | [] => Ok (per_device, with_rules)
  | name :: rest =>
      let? entry := get inv name in
      let with_rules := if entry_has_rules entry then (with_rules + 1)%N else with_rules in
      let? lib := compile_policy mode (blocklist_defaults inv) (Some (name, blocklist entry)) in
      build_devices inv mode rest (<[name := lib]> per_device) with_rules
  end.

Definition build (inv : Inventory) : Result Policy JmcpError :=
  let defaults := blocklist_defaults inv in
  let mode := choose_mode inv in
  let? (devs, with_rules) := build_devices inv mode (names inv) ∅ 0 in
  let? dflt := compile_policy mode defaults None in
  let count f := N.of_nat (length (rules_or_empty f defaults)) in
  Ok {| per_device := devs; default_policy := dflt; command_mode := mode;
        default_commands_count := count commands;
        default_config_count := count config;
        default_pfe_commands_count := count pfe_commands;
        devices_with_rules := with_rules |}.

Definition policy_for (p : Policy) (router : string) : LibPolicy :=
  default (default_policy p) (per_device p !! router).

(** A character other than printable ASCII and the space; bytes of other
    characters are not printable ASCII either. *)
Definition disallowed_char (c : ascii) : bool :=
  negb (Ascii.eqb c SP) && negb (is_ascii_graphic c).

Definition deny_disallowed_character (p : Policy) (raw : string) : option Decision :=
  if decide (command_mode p = Allowlist) then
    if str_exists disallowed_char raw
    then Some (DecDenyAllowlist Allowlist ForbiddenMetachar (normalize_input raw))
    else None
  else None.

Definition apply_allowlist_deny_carveout (p : Policy) (lib : LibPolicy)
    (router raw_input : string) (decision : Decision)
    (rules_for : LibPolicy -> string -> list CompiledRule) : Decision :=
  if bool_decide (command_mode p <> Allowlist) || negb (is_allowed decision) then decision
  else
    match evaluate (rules_for lib router) (normalize_input raw_input) with
    | Some rule =>
        if decide (rule_action rule = Deny) then DecDeny rule (rule_source rule) None
        else decision
    | None => decision
    end.

Definition check_command (p : Policy) (router command : string) : Decision :=
  let lib := policy_for p router in
  match deny_disallowed_character p command with
  | Some decision => decision
  | None =>
      apply_allowlist_deny_carveout p lib router command
        (lib_check_command lib router command Deny) command_rules_for
  end.

Definition check_pfe_command (p : Policy) (router pfe_command : string) : Decision :=
  let lib := policy_for p router in
  match deny_disallowed_character p pfe_command with
  | Some decision => decision
  | None =>
      apply_allowlist_deny_carveout p lib router pfe_command
        (lib_check_pfe_command lib router pfe_command Deny) pfe_command_rules_for
  end.

Definition check_config (p : Policy) (router config_format config_text : string)
  : Result Decision JmcpError :=
  lib_check_config (policy_for p router) router config_format config_text Deny "set"
    (fun format => ConfigFormatNotAllowedWithRules format).

Definition has_config_rules_for (p : Policy) (router : string) : bool :=
  lib_has_config_rules_for (policy_for p router) router.

Definition enforce_decision (d : Decision) (tool router raw_input : string)
  : Result unit JmcpError :=
  match d with
  | DecAllow => Ok tt
  | DecDeny rule source _ =>
      Err (Denied tool router (rule_pattern rule) (source_str source) (excerpt raw_input) None)
  | DecDenyAllowlist _ reason normalized =>
      Err (DeniedAllowlist tool router (reason_str reason) (excerpt normalized))
  end.

End policy.

(** ** Properties *)

(** What the engine's documentation promises and the source relies on: under
    the allowlist mode a command is allowed on the strength of the allowlist
    alone, the device is not consulted, and an empty list allows nothing; the
    rules of a device are the defaults and its own; evaluating rules picks one
    of them; [is_allowed] tells [Allow] apart. *)
Class PolicyEngineLaws {X : External} {P : PolicyEngine} (F : PolicyFns) := {
  al_allows : CommandAllowlist -> string -> bool;
  al_allows_empty pipes cmd :
    al_allows {| al_entries := []; al_pipes := pipes |} cmd = false;
  check_command_allowlist c cfg pfe d cmd act :
    lib_check_command (policy_new Allowlist c cfg pfe) d cmd act = DecAllow <->
    al_allows (cd_allowlist c) cmd = true;
  check_pfe_command_allowlist c cfg pfe d cmd act :
    lib_check_pfe_command (policy_new Allowlist c cfg pfe) d cmd act = DecAllow <->
    al_allows (cd_allowlist pfe) cmd = true;
  compile_entries_empty scope mk : compile_allowlist_entries [] scope mk = Ok [];
  is_allowed_spec d : is_allowed d = true <-> d = DecAllow
}.

Section policy_properties.
Context {X : External} {P : PolicyEngine} {F : PolicyFns}.

Lemma build_devices_spec inv mode ns acc n0 devs n :
  build_devices inv mode ns acc n0 = Ok (devs, n) ->
  forall r, if decide (r ∈ ns)
    then exists entry lib, get inv r = Ok entry /\
         compile_policy mode (blocklist_defaults inv) (Some (r, blocklist entry)) = Ok lib /\
         devs !! r = Some lib
    else devs !! r = acc !! r.
Proof.
  revert acc n0; induction ns as [|m ns IH]; intros acc n0; cbn [build_devices].
  { intros [= <- <-] r. by rewrite decide_False by set_solver. }
  destruct (get inv m) as [entry|] eqn:Hm; [|done].
  destruct (compile_policy _ _ _) as [lib|] eqn:Hc; [|done].
  intros H r. specialize (IH _ _ H r). destruct (decide (r ∈ ns)).
  - by rewrite decide_True by set_solver.
  - destruct (decide (r = m)) as [->|Hne].
    + rewrite decide_True by set_solver. exists entry, lib.
      split_and!; [done..|]. by rewrite IH, lookup_insert_eq.
    + rewrite decide_False by set_solver. by rewrite IH, lookup_insert_ne.
Qed.

(** What [build] compiles for one device: the policy of its own entry over the
    defaults, and the defaults alone for a name outside the inventory. *)
Lemma build_policy_for inv p r :
  build inv = Ok p ->
  command_mode p = choose_mode inv /\
  compile_policy (choose_mode inv) (blocklist_defaults inv)
    (match devices inv !! r with Some e => Some (r, blocklist e) | None => None end)
  = Ok (policy_for p r).
Proof.
  unfold build. destruct (build_devices _ _ _ _ _) as [[devs n]|] eqn:Hb; [|done].
  destruct (compile_policy _ _ None) as [dflt|] eqn:Hd; [|done]. intros [= <-].
  split; [done|]. unfold policy_for. cbn [per_device default_policy].
  pose proof (build_devices_spec _ _ _ _ _ _ _ Hb r) as H.
  pose proof (elem_of_names inv r) as Hr. destruct (decide _) as [Hin|Hout].
  - destruct H as (e & lib & Hg & Hc & ->). unfold get, ok_or in Hg.
    destruct (devices inv !! r); [|done]. injection Hg as <-. by rewrite Hc.
  - rewrite H, lookup_empty. destruct (devices inv !! r); [|done].
    exfalso. apply Hout, Hr. by eexists.
Qed.

(** C14: a device's policy is its own.  Two inventories that agree on the
    defaults, on the mode and on one device compile to the same rules for that
    device, whatever the other devices say: nothing allowed (or denied) for
    one device leaks to another. *)
Theorem build_device_isolation inv1 inv2 p1 p2 r :
  build inv1 = Ok p1 -> build inv2 = Ok p2 ->
  blocklist_defaults inv1 = blocklist_defaults inv2 ->
  choose_mode inv1 = choose_mode inv2 ->
  devices inv1 !! r = devices inv2 !! r ->
  policy_for p1 r = policy_for p2 r /\
  forall cmd, check_command p1 r cmd = check_command p2 r cmd /\
              check_pfe_command p1 r cmd = check_pfe_command p2 r cmd.
Proof.
  intros H1 H2 Hd Hm Hr.
  destruct (build_policy_for _ _ r H1) as [M1 C1], (build_policy_for _ _ r H2) as [M2 C2].
  assert (Hp : policy_for p1 r = policy_for p2 r) by (rewrite Hm, Hd, Hr in C1; congruence).
  split; [done|]. intros cmd.
  unfold check_command, check_pfe_command, apply_allowlist_deny_carveout,
    deny_disallowed_character. by rewrite Hp, M1, M2, Hm.
Qed.

(** the mode is fail-closed unless the inventory asks otherwise: it is
    [Allowlist] exactly when the defaults say so, or when they set no mode and
    no rule is written anywhere, in the defaults or for any device. *)
Theorem choose_mode_spec inv :
  choose_mode inv = Allowlist <->
  match rules_or_empty (fun b => option_list (bl_mode b)) (blocklist_defaults inv) with
  | [CfgAllowlist] => True
  | [] => (forall d, blocklist_defaults inv = Some d -> has_rules d = false) /\
          map_Forall (fun _ e => entry_has_rules e = false) (devices inv)
  | _ => False
  end.
Proof.
  unfold choose_mode, rules_or_empty.
  assert (Hex : existsb (fun name => match get inv name with
      Ok entry => entry_has_rules entry | Err _ => false end) (names inv) = false <->
      map_Forall (fun _ e => entry_has_rules e = false) (devices inv)).
  { split.
    - intros H n e He. apply not_true_iff_false. intros Ht.
      apply not_true_iff_false in H. apply H, existsb_exists. exists n. split.
      + apply list_elem_of_In, elem_of_names. by eexists.
      + unfold get, ok_or. by rewrite He.
    - intros H. apply not_true_iff_false. intros (n & _ & Hn)%existsb_exists.
      unfold get, ok_or in Hn. destruct (devices inv !! n) as [e|] eqn:He; [|done].
      by rewrite (H n e He) in Hn. }
  destruct (blocklist_defaults inv) as [d|].
  - destruct (bl_mode d) as [[]|]; cbn [option_list]; [done..|].
    destruct (has_rules d) eqn:Hd; cbn [orb].
    + split; [done|]. intros [H _]. by rewrite (H d eq_refl) in Hd.
    + destruct (existsb _ _) eqn:He; split; try done.
      * intros [_ H%Hex]. done.
      * intros _. split; [by intros ? [= <-]|by apply Hex].
  - cbn [orb]. destruct (existsb _ _) eqn:He; split; try done.
    + intros [_ H%Hex]. done.
    + intros _. split; [done|by apply Hex].
Qed.

Section laws.
Context {L : PolicyEngineLaws F}.

Lemma carveout_allow p lib r cmd d rules_for :
  command_mode p = Allowlist ->
  apply_allowlist_deny_carveout p lib r cmd d rules_for = DecAllow <->
  d = DecAllow /\ forall rule, evaluate (rules_for lib r) (normalize_input cmd) = Some rule ->
                               rule_action rule <> Deny.
Proof.
  intros Hm. unfold apply_allowlist_deny_carveout. rewrite Hm.
  rewrite bool_decide_eq_false_2 by (by intros H). cbn [orb].
  destruct (is_allowed d) eqn:Ha; cbn [negb].
  - apply is_allowed_spec in Ha as ->. destruct (evaluate _ _) as [rule|]; [|by split].
    case_decide; split; try done; [|by intros _; split; [done|by intros ? [= <-]]].
    intros [_ H0]. by destruct (H0 rule eq_refl).
  - split; [intros ->|intros [-> _]]; apply not_true_iff_false in Ha; destruct Ha;
      by apply is_allowed_spec.
Qed.

(** Under the allowlist mode a command runs only if all of the following
    hold, and then it does: every character is printable ASCII or a space, the
    device's allowlist (the defaults' and its own) admits it, and the rule that
    applies to it, if any, is not a deny rule.  The same for PFE commands, with
    their own lists. *)
Theorem check_command_spec p tool r cmd :
  command_mode p = Allowlist ->
  (enforce_decision (check_command p r cmd) tool r cmd = Ok tt <->
   str_exists disallowed_char cmd = false /\
   lib_check_command (policy_for p r) r cmd Deny = DecAllow /\
   forall rule, evaluate (command_rules_for (policy_for p r) r) (normalize_input cmd) = Some rule ->
                rule_action rule <> Deny) /\
  (enforce_decision (check_pfe_command p r cmd) tool r cmd = Ok tt <->
   str_exists disallowed_char cmd = false /\
   lib_check_pfe_command (policy_for p r) r cmd Deny = DecAllow /\
   forall rule, evaluate (pfe_command_rules_for (policy_for p r) r) (normalize_input cmd) = Some rule ->
                rule_action rule <> Deny).
Proof.
  intros Hm.
  assert (He : forall d, enforce_decision d tool r cmd = Ok tt <-> d = DecAllow)
    by (intros []; cbn; by split).
  rewrite !He. unfold check_command, check_pfe_command, deny_disallowed_character.
  rewrite decide_True by done.
  destruct (str_exists disallowed_char cmd); [split; (split; [done|by intros [? _]])|].
  rewrite !carveout_allow by done. naive_solver.
Qed.

(** An inventory without a single rule, allow entry or mode refuses every
    command on every device: an unconfigured server is closed. *)
Theorem build_unconfigured_closed inv p r cmd tool :
  build inv = Ok p -> blocklist_defaults inv = None ->
  map_Forall (fun _ e => blocklist e = None) (devices inv) ->
  is_ok (enforce_decision (check_command p r cmd) tool r cmd) = false /\
  is_ok (enforce_decision (check_pfe_command p r cmd) tool r cmd) = false.
Proof.
  intros Hb Hd Hall. destruct (build_policy_for _ _ r Hb) as [Hm Hc].
  assert (Hmode : choose_mode inv = Allowlist).
  { unfold choose_mode. rewrite Hd. cbn [orb]. destruct (existsb _ _) eqn:He; [|done].
    apply existsb_exists in He as (n & _ & Hn). unfold get, ok_or in Hn.
    destruct (devices inv !! n) as [e|] eqn:Hn'; [|done].
    unfold entry_has_rules in Hn. by rewrite (Hall n e Hn') in Hn. }
  rewrite Hmode in Hm, Hc. rewrite Hd in Hc.
  assert (Hlib : exists c cfg pfe, policy_for p r = policy_new Allowlist c cfg pfe /\
    al_entries (cd_allowlist c) = [] /\ al_entries (cd_allowlist pfe) = []).
  { unfold compile_policy in Hc. cbn [rules_or_empty app] in Hc.
    assert (Hbl : match (match devices inv !! r with Some e => Some (r, blocklist e) | None => None end)
                  with Some (_, b) => b | None => None end = None).
    { destruct (devices inv !! r) as [e|] eqn:Hr; [|done]. by apply (Hall r e). }
    rewrite Hbl in Hc. cbn [rules_or_empty] in Hc. unfold compile_allowlist in Hc.
    rewrite !compile_entries_empty in Hc.
    repeat match type of Hc with
    | match ?x with Ok _ => _ | Err _ => _ end = _ => destruct x eqn:?; [|done]
    end.
    injection Hc as <-. by eexists _, _, _. }
  destruct Hlib as (c & cfg & pfe & Hp & H1 & H2).
  assert (Hno : forall d tl, (d = DecAllow -> False) -> is_ok (enforce_decision d tl r cmd) = false)
    by (intros [] tl H; [by destruct H|done|done]).
  split; apply Hno; unfold check_command, check_pfe_command, deny_disallowed_character;
    rewrite decide_True by done; destruct (str_exists _ _); try done;
    rewrite carveout_allow by done; rewrite Hp; intros [H _].
  - apply check_command_allowlist in H. destruct c as [bl [es ps]]. cbn in *. subst.
    by rewrite al_allows_empty in H.
  - apply check_pfe_command_allowlist in H. destruct pfe as [bl [es ps]]. cbn in *. subst.
    by rewrite al_allows_empty in H.
Qed.

End laws.
End policy_properties.

(** ** A small rule engine

    Patterns are prefixes when they end in a star and literals otherwise;
    allowlist entries are prefixes; device rules come before the defaults. *)
Module DemoEngine.
#[export] Existing Instance string_external.

#[export] Instance engine : PolicyEngine := {|
  CompiledRule := RuleSpec * RuleSource;
  rule_action := fun r => action r.1;
  rule_pattern := fun r => pattern r.1;
  rule_source := snd;
  source_str := fun s => match s with SrcDefaults => "defaults" | SrcDevice => "device" end;
  AllowlistEntry := string;
  AllowlistDenyReason := string;
  ForbiddenMetachar := "forbidden_metachar";
  reason_str := fun s => s;
  LibPolicy := CommandMode * list (string * list (RuleSpec * RuleSource)) *
               list (RuleSpec * RuleSource) * list string * list string
|}.

Definition matches (r : CompiledRule) (s : string) : bool :=
  let p := rule_pattern r in
  if ends_with "*" p then starts_with (str_take (String.length p - 1) p) s
  else String.eqb p s.
Definition eval (rs : list CompiledRule) (s : string) : option CompiledRule :=
  List.find (fun r => matches r s) rs.
Definition lookup_rules (r : string) (l : list (string * list CompiledRule)) : list CompiledRule :=
  match List.find (fun x => String.eqb x.1 r) l with Some x => x.2 | None => [] end.

Definition new (m : CommandMode) (c : CommandDomain) (_ : DomainRules) (pfe : CommandDomain)
  : LibPolicy :=
  (m, map_to_list (dr_device_specific (cd_blocklist c)), dr_defaults (cd_blocklist c),
   al_entries (cd_allowlist c), al_entries (cd_allowlist pfe)).
Definition rules_for (p : LibPolicy) (r : string) : list CompiledRule :=
  let '(_, dev, dflt, _, _) := p in lookup_rules r dev ++ dflt.
Definition check (entries : LibPolicy -> list string) (p : LibPolicy) (r cmd : string) (a : Action)
  : Decision :=
  let '(m, _, _, _, _) := p in
  match m with
  | Allowlist =>
      if existsb (fun e => starts_with e cmd) (entries p) then DecAllow
      else DecDenyAllowlist Allowlist "no_allow_entry" cmd
  | Blocklist =>
      match eval (rules_for p r) cmd with
      | Some rule => if decide (rule_action rule = a) then DecDeny rule rule.2 None else DecAllow
      | None => DecAllow
      end
  end.
Definition decision_allowed (d : Decision) : bool :=
  match d with DecAllow => true | _ => false end.

#[export] Instance engine_fns : PolicyFns := {|
  lib_compile_rules := fun ps _ src _ =>
    Ok (map (fun p => ({| action := p.1; pattern := p.2 |}, src)) ps);
  compile_allowlist_entries := fun es _ _ => Ok es;
  policy_new := new;
  lib_check_command := check (fun p => p.1.2);
  lib_check_pfe_command := check snd;
  lib_check_config := fun _ _ _ text _ _ _ =>
    if contains "secret" text
    then Ok (DecDeny ({| action := Deny; pattern := "secret" |}, SrcDefaults) SrcDefaults (Some 1%N))
    else Ok DecAllow;
  command_rules_for := rules_for;
  pfe_command_rules_for := rules_for;
  lib_has_config_rules_for := fun _ _ => false;
  evaluate := eval;
  normalize_input := trim;
  is_allowed := decision_allowed
|}.

#[export] Instance engine_laws : PolicyEngineLaws engine_fns.
Proof.
  refine {| al_allows := fun (a : CommandAllowlist) s =>
              existsb (fun e => starts_with e s) (al_entries a) |}; try done.
  - intros c cfg pfe d cmd act. cbn. by destruct (existsb _ _).
  - intros c cfg pfe d cmd act. cbn. by destruct (existsb _ _).
  - by intros [].
Defined.

Definition entry (b : option BlocklistRules) : DeviceEntry := {|
  ip := "10.0.0.1"; port := 22; username := "u"; auth := Password "x";
  ssh_config := None; blocklist := b; config_authority := AuthUnknown
|}.
Definition inventory (d : option BlocklistRules) (l : list (string * option BlocklistRules))
  : Inventory :=
  {| devices := list_to_map (map (fun x => (x.1, entry x.2)) l);
     blocklist_defaults := d; source_path := "" |}.
Definition allowlist_defaults : BlocklistRules := {|
  commands := []; config := []; pfe_commands := []; bl_mode := Some CfgAllowlist;
  allow := ["show"; "request system"]; allowed_pipes := []; pfe_allow := []; pfe_allowed_pipes := []
|}.
Definition no_reboot : BlocklistRules := {|
  commands := [{| action := Deny; pattern := "request system reboot*" |}]; config := [];
  pfe_commands := []; bl_mode := None; allow := []; allowed_pipes := []; pfe_allow := [];
  pfe_allowed_pipes := []
|}.
Definition inv1 : Inventory := inventory (Some allowlist_defaults) [("r1", Some no_reboot); ("r2", None)].
Definition inv2 : Inventory := inventory (Some allowlist_defaults) [("r1", None); ("r2", None)].

Definition built (inv : Inventory) : Policy :=
  match build inv with
  | Ok p => p
  | Err _ => {| per_device := ∅; default_policy := (Allowlist, [], [], [], []);
                command_mode := Allowlist; default_commands_count := 0;
                default_config_count := 0; default_pfe_commands_count := 0;
                devices_with_rules := 0 |}
  end.
Definition run (inv : Inventory) (r cmd : string) : Result unit JmcpError :=
  enforce_decision (check_command (built inv) r cmd) "execute_junos_command" r cmd.

(** The deny carve-out of one device, and the same command on another. *)
Example carve_out_r1 :
  run inv1 "r1" "request system reboot" =
  Err (Denied "execute_junos_command" "r1" "request system reboot*" "device"
         "request system reboot" None).
Proof. vm_compute. reflexivity. Qed.
Example carve_out_r2 : run inv1 "r2" "request system reboot" = Ok tt.
Proof. vm_compute. reflexivity. Qed.

Lemma built_ok inv : is_ok (build inv) = true -> build inv = Ok (built inv).
Proof. unfold built. by destruct (build inv). Qed.

Lemma build_device_isolation_witness :
  policy_for (built inv1) "r2" = policy_for (built inv2) "r2" /\
  forall cmd, check_command (built inv1) "r2" cmd = check_command (built inv2) "r2" cmd /\
              check_pfe_command (built inv1) "r2" cmd = check_pfe_command (built inv2) "r2" cmd.
Proof.
  apply (build_device_isolation inv1 inv2);
    [apply built_ok; vm_compute; reflexivity|apply built_ok; vm_compute; reflexivity|..];
    vm_compute; reflexivity.
Defined.

Lemma check_command_spec_witness :
  enforce_decision (check_command (built inv1) "r1" "show version") "t" "r1" "show version" = Ok tt.
Proof.
  apply (check_command_spec (built inv1) "t" "r1" "show version"); [vm_compute; reflexivity|].
  split; [vm_compute; reflexivity|]. split; [vm_compute; reflexivity|].
  intros rule. vm_compute. discriminate.
Defined.

Definition bare : Inventory := inventory None [("r1", None)].
Lemma build_unconfigured_closed_witness :
  is_ok (run bare "r1" "show version") = false /\
  is_ok (enforce_decision (check_pfe_command (built bare) "r1" "show version")
           "execute_junos_command" "r1" "show version") = false.
Proof.
  apply (build_unconfigured_closed bare (built bare));
    [apply built_ok; vm_compute; reflexivity|reflexivity|].
  apply map_Forall_insert_2; [reflexivity|apply map_Forall_empty].
Defined.

End DemoEngine.
