(* ===== verification/Output.v ===== *)
(** * Command output ([rust-junosmcp-core/src/output.rs])

    The pipe modifiers ([| match], [| except], [| count], [| last N]) applied
    on the server side, then the line cap, then the byte cap. *)

From S2P Require Import Prelude RustStr Fmt Errors Helpers.
From Stdlib Require Import Ascii.

(** ** Splitting the command at its pipes *)

Definition BACKSLASH : ascii := "\"%char.

Fixpoint split_pipes_go (in_double in_single : bool) (current s : string)
  : list string :=
  match s with
  | "" => if is_empty current then [] else [trim current]
  | String ch rest =>
      let push := current ^^ String ch "" in
      let plain :=
        if Ascii.eqb ch DQ && negb in_single then
          split_pipes_go (negb in_double) in_single push rest
        else if Ascii.eqb ch SQ && negb in_double then
          split_pipes_go in_double (negb in_single) push rest
        else if negb in_double && negb in_single then
          match rest with
          | String c1 (String c2 rest') =>
              if Ascii.eqb ch SP && Ascii.eqb c1 "|"%char && Ascii.eqb c2 SP
              then trim current :: split_pipes_go in_double in_single "" rest'
              else split_pipes_go in_double in_single push rest
          | _ => split_pipes_go in_double in_single push rest
          end
        else split_pipes_go in_double in_single push rest in
      if (in_double || in_single) && Ascii.eqb ch BACKSLASH then
        match rest with
        | String c1 rest' =>
            split_pipes_go in_double in_single (push ^^ String c1 "") rest'
        | "" => plain
        end
      else plain
  end.
Definition split_pipes (s : string) : list string :=
  split_pipes_go false false "" s.

Definition str_last (s : string) : option ascii :=
  match str_rev s with String c _ => Some c | "" => None end.

Definition strip_quotes (s : string) : string :=
  let trimmed := trim s in
  match trimmed with
  | String first (String _ _ as rest) =>
      match str_last trimmed with
      | Some last =>
          if Ascii.eqb first last && (Ascii.eqb first DQ || Ascii.eqb first SQ)
          then str_take (String.length trimmed - 2) rest
          else trimmed
      | None => trimmed
      end
  | _ => trimmed
  end.

Definition split_first_word (s : string) : string * string :=
  let trimmed := trim s in
  match find_ws trimmed with
  | Some (word, from) => (word, trim from)
  | None => (trimmed, "")
  end.

Section output.

(** [Regex::new]: the compiled matcher, or [None] when the pattern is invalid
    (the [regex] crate is not under the source tree). *)
Context (regex_new : string -> option (string -> bool)).

Inductive LineFilter :=
  | Re (is_match : string -> bool)
  | Literal (lit : string).

Definition compile (pat : string) : LineFilter :=
  match regex_new pat with
  | Some re => Re re
  | None => Literal pat
  end.
Definition is_match (f : LineFilter) (line : string) : bool :=
  match f with
  | Re re => re line
  | Literal lit => contains lit line
  end.

Definition join_nl (ls : list string) : string :=
  match ls with [] => "" | _ => join newline ls ^^ newline end.

(** One modifier of the chain, applied to the output so far. *)
Definition apply_modifier (out seg : string) : string :=
  let (first_word, remainder) := split_first_word (to_ascii_lowercase seg) in
  if String.eqb first_word "count" then
    "Count: " ^^ dec (N.of_nat (length (lines out))) ^^ " lines" ^^ newline
  else if String.eqb first_word "last" then
    match parse_usize (trim remainder) with
    | Some n =>
        let ls := lines out in
        let start := (N.of_nat (length ls) - n)%N in
        let o := join newline (drop (N.to_nat start) ls) in
        if is_empty o then o else o ^^ newline
    | None => out
    end
  else if String.eqb first_word "match" then
    if is_empty remainder then out else
    let filter := compile (strip_quotes (split_first_word seg).2) in
    join_nl (List.filter (is_match filter) (lines out))
  else if String.eqb first_word "except" then
    if is_empty remainder then out else
    let filter := compile (strip_quotes (split_first_word seg).2) in
    join_nl (List.filter (fun l => negb (is_match filter l)) (lines out))
  else out.

Definition apply_pipe_modifiers (command raw : string) : string :=
  match split_pipes command with
  | _ :: ((_ :: _) as modifiers) => foldl apply_modifier raw modifiers
  | _ => raw
  end.

(** ** Size caps *)

Definition byte_marker (omitted : N) : string :=
  "… (truncated, " ^^ dec omitted ^^ " bytes omitted)".

Definition apply_byte_cap (s : string) (max_bytes : option N) (tail : bool)
  : string :=
  match max_bytes with
  | None => s
  | Some cap =>
      if (len s <=? cap)%N then s else
      let reserved := (len (byte_marker (len s)) + 1)%N in
      let content_budget := N.to_nat (cap - reserved) in
      if tail then
        let start := (String.length s - content_budget)%nat in
        let start := boundary_up (String.length s) s start in
        byte_marker (N.of_nat start) ^^ newline ^^ str_drop start s
      else
        let stop := boundary_down s content_budget in
        str_take stop s ^^ newline ^^ byte_marker (len s - N.of_nat stop)
  end.

(** The bounded ring of the tail path: push at the back, pop at the front when
    full. *)
Definition ring_push (content_budget : nat) (ring : list string) (line : string)
  : list string :=
  let ring := if (length ring =? content_budget)%nat then tail ring else ring in
  ring ++ [line].

Definition line_marker (more : N) : string :=
  "… (truncated, " ^^ dec more ^^ " more lines)".

Definition apply_line_cap (s : string) (max_lines : option N) (tail : bool)
  : string :=
  match max_lines with
  | None => s
  | Some cap =>
      let total := N.of_nat (length (lines s)) in
      if (total <=? cap)%N then s else
      let content_budget := (cap - 1)%N in
      let more := (total - content_budget)%N in
      let marker := line_marker more in
      if (content_budget =? 0)%N then marker else
      let kept :=
        if tail
        then foldl (ring_push (N.to_nat content_budget)) [] (lines s)
        else take (N.to_nat content_budget) (lines s) in
      let body := join newline kept in
      if tail then marker ^^ newline ^^ body else body ^^ newline ^^ marker
  end.

Definition process_output (command raw : string)
    (max_lines max_bytes : option N) (tail : bool) : string :=
  let piped := apply_pipe_modifiers command raw in
  let line_capped := apply_line_cap piped max_lines tail in
  apply_byte_cap line_capped max_bytes tail.

End output.

(** ** Properties *)

Section output_properties.
Context (regex_new : string -> option (string -> bool)).

Lemma byte_marker_length_mono n m :
  (n <= m)%N -> (len (byte_marker n) <= len (byte_marker m))%N.
Proof.
  intros H. apply dec_length_mono in H. unfold len, byte_marker.
  rewrite !length_app_str. lia.
Qed.

Lemma byte_marker_length_usize n :
  (n <= USIZE_MAX)%N -> (len (byte_marker n) + 1 <= MIN_MAX_BYTES)%N.
Proof.
  intros H. apply dec_length_usize in H. unfold len, byte_marker, MIN_MAX_BYTES.
  rewrite !length_app_str.
  change (String.length "… (truncated, ") with 16%nat.
  change (String.length " bytes omitted)") with 15%nat. lia.
Qed.

(** What the byte cap returns when it cuts: the marker and a suffix (or prefix)
    of the text that begins (ends) at a character boundary, the marker counting
    exactly the bytes left out. *)
Lemma apply_byte_cap_cut s cap (tl : bool) :
  (cap < len s)%N ->
  exists n, is_char_boundary s n = true /\ (n <= String.length s)%nat /\
    if tl then
      apply_byte_cap s (Some cap) tl = byte_marker (N.of_nat n) ^^ newline ^^ str_drop n s
      /\ (len (str_drop n s) <= cap - (len (byte_marker (len s)) + 1))%N
    else
      apply_byte_cap s (Some cap) tl =
        str_take n s ^^ newline ^^ byte_marker (len s - N.of_nat n)
      /\ (len (str_take n s) <= cap - (len (byte_marker (len s)) + 1))%N.
Proof.
  intros Hcap. unfold apply_byte_cap. cbn zeta.
  destruct (N.leb_spec (len s) cap); [lia|].
  set (budget := (cap - (len (byte_marker (len s)) + 1))%N).
  assert (Hb : (budget <= cap)%N) by (unfold budget; lia).
  unfold len in Hcap. destruct tl.
  - destruct (boundary_up_spec (String.length s) s
                (String.length s - N.to_nat budget)) as [H1 H2]; [lia..|].
    exists (boundary_up (String.length s) s (String.length s - N.to_nat budget)).
    split; [done|]. split; [lia|]. split; [done|].
    unfold len. rewrite length_str_drop. lia.
  - destruct (boundary_down_spec s (N.to_nat budget)) as [H1 H2].
    exists (boundary_down s (N.to_nat budget)).
    split; [done|]. split; [lia|]. split; [done|].
    unfold len. rewrite length_str_take. lia.
Qed.

Lemma apply_byte_cap_bound s cap tl :
  (len s <= USIZE_MAX)%N -> (MIN_MAX_BYTES <= cap)%N ->
  (len (apply_byte_cap s (Some cap) tl) <= cap)%N.
Proof.
  intros Hs Hcap. destruct (N.leb_spec (len s) cap) as [Hle|Hlt].
  { unfold apply_byte_cap. destruct (N.leb_spec (len s) cap); [done|lia]. }
  pose proof (byte_marker_length_usize _ Hs) as Hm.
  assert (Happ : forall a b, len (a ^^ b) = (len a + len b)%N).
  { intros. unfold len. rewrite length_app_str. lia. }
  destruct (apply_byte_cap_cut s cap tl Hlt) as (n & _ & Hn & H).
  destruct tl; destruct H as [-> H]; rewrite !Happ; change (len newline) with 1%N.
  - pose proof (byte_marker_length_mono (N.of_nat n) (len s)
      ltac:(unfold len; lia)). lia.
  - pose proof (byte_marker_length_mono (len s - N.of_nat n) (len s) ltac:(lia)). lia.
Qed.

(** [max_bytes] is a hard cap.  With any budget the tools accept
    ([validate_output_caps]) the response of [process_output] is never longer
    than [max_bytes] bytes, whatever the command, its pipes, the line cap and
    the truncation markers add. *)
Theorem process_output_max_bytes command raw max_lines cap tl :
  is_ok (validate_output_caps (X := string_external) max_lines (Some cap)) = true ->
  (len (apply_line_cap (apply_pipe_modifiers regex_new command raw) max_lines tl)
     <= USIZE_MAX)%N ->
  (len (process_output regex_new command raw max_lines (Some cap) tl) <= cap)%N.
Proof.
  intros Hv Hlen. apply apply_byte_cap_bound; [done|].
  unfold validate_output_caps in Hv. case_decide; [done|].
  destruct (N.ltb_spec cap MIN_MAX_BYTES); [done|lia].
Qed.

Lemma ring_push_foldl n ring ls :
  (1 <= n)%nat -> (length ring <= n)%nat ->
  foldl (ring_push n) ring ls = drop (length (ring ++ ls) - n) (ring ++ ls).
Proof.
  intros Hn. revert ring; induction ls as [|l ls IH]; intros ring Hr; cbn [foldl].
  - rewrite app_nil_r. replace (length ring - n)%nat with 0%nat by lia. done.
  - unfold ring_push at 2. cbn zeta. destruct (Nat.eqb_spec (length ring) n) as [He|Hne].
    + destruct ring as [|r ring]; [cbn in *; lia|]. cbn [tail length] in *.
      rewrite IH by (rewrite length_app; cbn; lia).
      rewrite <- app_assoc. cbn [app length]. rewrite !length_app. cbn [length].
      replace (S (length ring + S (length ls)) - n)%nat
        with (S (length ring + S (length ls) - n)) by lia.
      done.
    + rewrite IH by (rewrite length_app; cbn; lia). by rewrite <- app_assoc.
Qed.

(** The ring of the tail mode computes a suffix. *)
Lemma apply_line_cap_content s cap (tl : bool) :
  (2 <= cap)%N -> (cap < N.of_nat (length (lines s)))%N ->
  let k := N.to_nat (cap - 1) in
  let marker := line_marker (N.of_nat (length (lines s)) - (cap - 1)) in
  apply_line_cap s (Some cap) tl =
  join newline (if tl then marker :: drop (length (lines s) - k) (lines s)
                else take k (lines s) ++ [marker]).
Proof.
  intros H2 Hlt k marker. unfold apply_line_cap. cbn zeta.
  destruct (N.leb_spec (N.of_nat (length (lines s))) cap); [lia|].
  destruct (N.eqb_spec (cap - 1) 0); [lia|]. destruct tl.
  - rewrite ring_push_foldl by (cbn; lia). cbn [app].
    rewrite join_cons; [done|]. intros Hd. apply (f_equal length) in Hd.
    rewrite length_drop in Hd. cbn in Hd. lia.
  - rewrite join_snoc; [done|]. intros Hd. apply (f_equal length) in Hd.
    rewrite length_take in Hd. cbn in Hd. lia.
Qed.

Lemma dec_no_lf n : no_lf (dec n) = true.
Proof. apply dec_avoids. by intros [[] [] [] [] [] [] [] []]. Qed.

Lemma line_marker_no_lf n : no_lf (line_marker n) = true.
Proof.
  unfold line_marker, no_lf. rewrite !str_forall_app.
  fold (no_lf (dec n)). by rewrite dec_no_lf.
Qed.
Lemma byte_marker_no_lf n : no_lf (byte_marker n) = true.
Proof.
  unfold byte_marker, no_lf. rewrite !str_forall_app.
  fold (no_lf (dec n)). by rewrite dec_no_lf.
Qed.

(** What the line cap keeps of a response.  When the piped output has more
    lines than the cap allows, the tail mode returns a marker line followed by
    exactly the last [cap - 1] lines and the head mode exactly the first
    [cap - 1] lines followed by a marker line; the marker counts the lines left
    out. *)
Theorem process_output_kept_lines command raw cap (tl : bool) :
  let ls := lines (apply_pipe_modifiers regex_new command raw) in
  (2 <= cap)%N -> (cap < N.of_nat (length ls))%N ->
  let k := N.to_nat (cap - 1) in
  let marker := line_marker (N.of_nat (length ls) - (cap - 1)) in
  process_output regex_new command raw (Some cap) None tl =
  join newline (if tl then marker :: drop (length ls - k) ls else take k ls ++ [marker]).
Proof. intros ls H2 Hlt. by apply apply_line_cap_content. Qed.

(** [max_lines] is a hard cap on the lines of the capped text, the marker line
    included, for every cap of at least one. *)
Lemma apply_line_cap_max_lines s cap tl :
  (1 <= cap)%N ->
  (N.of_nat (length (lines (apply_line_cap s (Some cap) tl))) <= cap)%N.
Proof.
  intros H1. destruct (N.leb_spec (N.of_nat (length (lines s))) cap) as [Hle|Hlt].
  { unfold apply_line_cap. cbn zeta.
    destruct (N.leb_spec (N.of_nat (length (lines s))) cap); [done|lia]. }
  destruct (decide (cap = 1%N)) as [->|Hne].
  { unfold apply_line_cap. cbn zeta.
    destruct (N.leb_spec (N.of_nat (length (lines s))) 1); [lia|].
    pose proof (length_lines_no_lf _ (line_marker_no_lf
      (N.of_nat (length (lines s)) - (1 - 1)))). change (1 - 1 =? 0)%N with true. cbn match. lia. }
  rewrite apply_line_cap_content by lia. cbn zeta.
  pose proof (lines_no_lf s) as Hno.
  assert (Hm := line_marker_no_lf (N.of_nat (length (lines s)) - (cap - 1))).
  set (L := if tl then _ else _).
  assert (HL : Forall (fun l => no_lf l = true) L).
  { subst L. destruct tl; [constructor; [done|by apply list.Forall_drop]|].
    apply list.Forall_app. split; [by apply list.Forall_take|by repeat constructor]. }
  assert (Hlen : (length L <= N.to_nat cap)%nat).
  { subst L. destruct tl; cbn [length];
      rewrite ?length_app, ?length_take, ?length_drop; cbn [length]; lia. }
  pose proof (length_lines_join L HL). lia.
Qed.

Lemma line_count_marker n b :
  line_count (byte_marker n ^^ newline ^^ b) = S (line_count b).
Proof.
  rewrite <- !length_lines. apply length_lines_cons_lf, byte_marker_no_lf.
Qed.

(** the line budget of a whole response.  The byte cap runs after the line
    cap and puts its own marker on a line of its own, so with both caps a
    response has at most [max_lines + 1] lines. *)
Theorem process_output_max_lines command raw cap max_bytes tl :
  (1 <= cap)%N ->
  (N.of_nat (length (lines
     (process_output regex_new command raw (Some cap) max_bytes tl))) <= cap + 1)%N.
Proof.
  intros H1. unfold process_output. cbn zeta.
  set (s := apply_line_cap _ _ _).
  assert (Hs : (N.of_nat (line_count s) <= cap)%N).
  { rewrite <- length_lines. by apply apply_line_cap_max_lines. }
  rewrite length_lines. destruct max_bytes as [b|]; [|unfold apply_byte_cap; lia].
  destruct (N.leb_spec (len s) b) as [Hle|Hlt].
  { unfold apply_byte_cap. destruct (N.leb_spec (len s) b); lia. }
  destruct (apply_byte_cap_cut s b tl Hlt) as (n & _ & Hn & H).
  pose proof (line_count_drop n s). destruct tl; destruct H as [-> H].
  - rewrite line_count_marker. lia.
  - pose proof (line_count_cut n s (byte_marker (len s - N.of_nat n))) as Hc.
    assert (Hlast : line_count (byte_marker (len s - N.of_nat n)) = 1%nat).
    { pose proof (length_lines_no_lf (byte_marker (len s - N.of_nat n))) as Hno.
      rewrite length_lines in Hno. specialize (Hno ltac:(apply byte_marker_no_lf)).
      assert (1 <= line_count (byte_marker (len s - N.of_nat n)))%nat
        by (unfold byte_marker; cbn; lia).
      lia. }
    assert (Hn' : (n < String.length s)%nat)
      by (unfold len in H, Hlt; rewrite length_str_take in H; lia).
    specialize (Hc Hn'). lia.
Qed.

(** ** Quoting *)

Definition plain_char (c : ascii) : bool :=
  negb (Ascii.eqb c DQ || Ascii.eqb c SQ || Ascii.eqb c "|"%char).
Definition quotable_char (c : ascii) : bool :=
  negb (Ascii.eqb c DQ || Ascii.eqb c BACKSLASH).
Definition head_not_bar (s : string) : bool :=
  match s with String c _ => negb (Ascii.eqb c "|"%char) | "" => true end.

Lemma split_pipes_go_plain_char c s cur :
  plain_char c = true -> head_not_bar s = true ->
  split_pipes_go false false cur (String c s) =
  split_pipes_go false false (cur ^^ String c "") s.
Proof.
  unfold plain_char. rewrite negb_true_iff, !orb_false_iff.
  intros [[Hd Hs] _] Hh. cbn [split_pipes_go orb andb negb]. rewrite Hd, Hs. cbn.
  destruct s as [|c1 [|c2 s]]; [done..|]. cbn in Hh. apply negb_true_iff in Hh.
  by rewrite Hh, andb_false_r.
Qed.

Lemma split_pipes_go_plain p s cur :
  str_forall plain_char p = true -> head_not_bar s = true ->
  split_pipes_go false false cur (p ^^ s) = split_pipes_go false false (cur ^^ p) s.
Proof.
  revert cur; induction p as [|c p IH]; intros cur; cbn [str_forall].
  { by rewrite app_str_nil_r. }
  rewrite andb_true_iff. intros [Hc Hp] Hs. cbn [String.append].
  rewrite split_pipes_go_plain_char; [|done|].
  - rewrite IH by done. by rewrite app_str_assoc.
  - destruct p as [|d p]; [done|]. cbn in *. apply andb_true_iff in Hp as [Hd _].
    unfold plain_char in Hd. rewrite negb_true_iff, !orb_false_iff in Hd.
    by destruct Hd as [_ ->].
Qed.

Lemma split_pipes_go_quoted p s cur :
  str_forall quotable_char p = true ->
  split_pipes_go true false cur (p ^^ dquote ^^ s) =
  split_pipes_go false false (cur ^^ p ^^ dquote) s.
Proof.
  revert cur; induction p as [|c p IH]; intros cur; cbn [str_forall]; [done|].
  unfold quotable_char at 1. rewrite andb_true_iff, negb_true_iff, orb_false_iff.
  intros [[Hd Hb] Hp]. cbn [String.append split_pipes_go orb andb negb].
  rewrite Hd, Hb, andb_false_r. cbn [andb negb]. rewrite IH by done.
  by rewrite app_str_assoc.
Qed.

(** A pipe inside a quoted argument is part of the argument: such a command
    splits into exactly its two segments. *)
Lemma split_pipes_one_quoted cmd kw pat :
  cmd <> "" -> str_forall plain_char cmd = true -> str_forall plain_char kw = true ->
  str_forall quotable_char pat = true ->
  split_pipes (cmd ^^ " | " ^^ kw ^^ " " ^^ dquote ^^ pat ^^ dquote) =
  [trim cmd; trim (kw ^^ " " ^^ dquote ^^ pat ^^ dquote)].
Proof.
  intros Hne Hcmd Hkw Hpat. unfold split_pipes.
  rewrite split_pipes_go_plain by done. cbn.
  f_equal. rewrite split_pipes_go_plain by done.
  change (" " ^^ dquote ^^ pat ^^ dquote)
    with (String SP (String DQ (pat ^^ dquote ^^ ""))).
  rewrite split_pipes_go_plain_char by done. cbn [split_pipes_go orb andb negb].
  change (Ascii.eqb DQ DQ) with true. cbn [andb].
  change (pat ^^ dquote) with (pat ^^ dquote ^^ "") at 1.
  rewrite split_pipes_go_quoted by done.
  rewrite !app_str_assoc. cbn [String.append].
  by destruct kw.
Qed.

(** ** Filters *)

Lemma trim_quoted pat : trim (dquote ^^ pat ^^ dquote) = dquote ^^ pat ^^ dquote.
Proof. exact (trim_graphic DQ pat DQ eq_refl eq_refl). Qed.

Lemma strip_quotes_quoted pat : strip_quotes (dquote ^^ pat ^^ dquote) = pat.
Proof.
  unfold strip_quotes. rewrite trim_quoted.
  assert (Hl : str_last (dquote ^^ pat ^^ dquote) = Some DQ).
  { unfold str_last. by rewrite <- app_str_assoc, str_rev_app_str. }
  cbn [dquote String.append] in *. fold dquote.
  destruct (pat ^^ dquote) as [|c t] eqn:Hp; [by destruct pat|]. rewrite Hl, <- Hp.
  change (Ascii.eqb DQ DQ && (Ascii.eqb DQ DQ || Ascii.eqb DQ SQ)) with true. cbv iota.
  replace (String.length _ - 2)%nat with (String.length pat); [apply str_take_length_app|].
  cbn [String.length]. rewrite length_app_str. cbn. lia.
Qed.

(** The two words of a filter segment: the keyword and the quoted pattern. *)
Lemma split_first_word_filter kw pat :
  In kw ["match"; "except"] ->
  trim (kw ^^ " " ^^ dquote ^^ pat ^^ dquote) = kw ^^ " " ^^ dquote ^^ pat ^^ dquote /\
  split_first_word (kw ^^ " " ^^ dquote ^^ pat ^^ dquote) = (kw, dquote ^^ pat ^^ dquote).
Proof.
  intros Hk. assert (Ht : trim (kw ^^ " " ^^ dquote ^^ pat ^^ dquote) =
    kw ^^ " " ^^ dquote ^^ pat ^^ dquote).
  { destruct Hk as [<-|[<-|[]]].
    - exact (trim_graphic "m" ("atch " ^^ dquote ^^ pat) DQ eq_refl eq_refl).
    - exact (trim_graphic "e" ("xcept " ^^ dquote ^^ pat) DQ eq_refl eq_refl). }
  split; [done|]. unfold split_first_word. rewrite Ht.
  destruct Hk as [<-|[<-|[]]]; cbn; f_equal; exact (trim_quoted pat).
Qed.

Lemma lowercase_filter kw pat :
  In kw ["match"; "except"] ->
  to_ascii_lowercase (kw ^^ " " ^^ dquote ^^ pat ^^ dquote) =
  kw ^^ " " ^^ dquote ^^ to_ascii_lowercase pat ^^ dquote.
Proof.
  intros Hk. assert (Ha : to_ascii_lowercase (pat ^^ dquote) = to_ascii_lowercase pat ^^ dquote).
  { clear Hk. unfold to_ascii_lowercase.
    induction pat as [|c p IH]; [done|]. cbn. by rewrite IH. }
  destruct Hk as [<-|[<-|[]]]; cbn; by repeat f_equal.
Qed.

(** [| match] and [| except] with a quoted pattern keep exactly the lines
    that the pattern matches, or does not match, in their order: as a regular
    expression if it compiles and as a literal otherwise, in the case it was
    written in, whatever it holds apart from a quote or a backslash.  With no
    pipe the output is returned as the device sent it. *)
Theorem process_output_filters cmd pat raw tl :
  cmd <> "" -> str_forall plain_char cmd = true -> str_forall quotable_char pat = true ->
  let piped kw :=
    process_output regex_new (cmd ^^ " | " ^^ kw ^^ " " ^^ dquote ^^ pat ^^ dquote)
      raw None None tl in
  let keep l := is_match (compile regex_new pat) l in
  piped "match" = join_nl (List.filter keep (lines raw)) /\
  piped "except" = join_nl (List.filter (fun l => negb (keep l)) (lines raw)) /\
  process_output regex_new cmd raw None None tl = raw.
Proof.
  intros Hne Hcmd Hpat piped keep.
  assert (Hp : forall kw, In kw ["match"; "except"] -> piped kw =
    apply_modifier regex_new raw (kw ^^ " " ^^ dquote ^^ pat ^^ dquote)).
  { intros kw Hk. unfold piped, process_output, apply_pipe_modifiers.
    rewrite split_pipes_one_quoted by (by destruct Hk as [<-|[<-|[]]]).
    cbn [foldl apply_line_cap apply_byte_cap].
    by rewrite (proj1 (split_first_word_filter kw pat Hk)). }
  assert (Hm : forall kw, In kw ["match"; "except"] -> piped kw =
    join_nl (List.filter (fun l => xorb (String.eqb kw "except") (keep l)) (lines raw))).
  { intros kw Hk. rewrite (Hp kw Hk). unfold apply_modifier.
    rewrite (lowercase_filter kw pat Hk).
    rewrite (proj2 (split_first_word_filter kw _ Hk)), (proj2 (split_first_word_filter kw _ Hk)).
    cbn [snd]. rewrite strip_quotes_quoted.
    by destruct Hk as [<-|[<-|[]]]. }
  split_and!; [exact (Hm "match" ltac:(cbn; tauto))|exact (Hm "except" ltac:(cbn; tauto))|].
  unfold process_output, apply_pipe_modifiers, split_pipes. cbn.
  rewrite <- (app_str_nil_r cmd), split_pipes_go_plain by done.
  cbn [split_pipes_go]. by destruct (is_empty _).
Qed.

End output_properties.

(** Two long lines, a budget of two lines and 64 bytes: the byte cap cuts the
    second line and its marker is a third. *)
Definition two_long_lines : string :=
  "aaaaaaaaaa" ^^ newline ^^
  "bbbbbbbbbbbbbbbbbbbbbbbbbbbbbbbbbbbbbbbbbbbbbbbbbbbbbbbbbbbbbbbbbbbbbbbbbbbb".
Lemma process_output_line_budget_overshot :
  length (lines (process_output (fun _ => None) "show x" two_long_lines
                   (Some 2%N) (Some 64%N) false)) = 3%nat.
Proof. vm_compute. reflexivity. Qed.

(** ** The properties at concrete inputs *)

Definition no_regex (_ : string) : option (string -> bool) := None.
Definition five_lines : string := join newline ["a1"; "b2"; "a3"; "b4"; "a5"].

Example output_match :
  process_output no_regex ("show x | match " ^^ dquote ^^ "a" ^^ dquote ^^ " | last 2")
    five_lines None None false = "a3" ^^ newline ^^ "a5" ^^ newline.
Proof. vm_compute. reflexivity. Qed.

Lemma process_output_max_bytes_witness :
  (len (process_output no_regex "show x" two_long_lines (Some 9%N) (Some 64%N) true) <= 64)%N.
Proof. apply process_output_max_bytes; vm_compute; congruence. Defined.

Lemma process_output_kept_lines_witness :
  process_output no_regex "show x" five_lines (Some 3%N) None true =
  join newline ["… (truncated, 3 more lines)"; "b4"; "a5"].
Proof.
  rewrite (process_output_kept_lines no_regex "show x" five_lines 3 true);
    vm_compute; congruence.
Defined.

Lemma process_output_max_lines_witness :
  (N.of_nat (length (lines
     (process_output no_regex "show x" two_long_lines (Some 2%N) (Some 64%N) false))) <= 2 + 1)%N.
Proof. apply process_output_max_lines. vm_compute. congruence. Defined.

Lemma process_output_filters_witness :
  process_output no_regex ("show x" ^^ " | " ^^ "except" ^^ " " ^^ dquote ^^ "a" ^^ dquote)
    five_lines None None true = "b2" ^^ newline ^^ "b4" ^^ newline.
Proof.
  rewrite (proj1 (proj2 (process_output_filters no_regex "show x" "a" five_lines true
    ltac:(done) eq_refl eq_refl))).
  reflexivity.
Defined.
