(* ===== verification/XmlText.v ===== *)
(** * XML text repair ([rust-junosmcp-srx-core/src/xml.rs], and the
    normalisation of [rust-junosmcp-core/src/junos_transaction.rs])

    The text-level passes over the XML a device returns: stripping [junos:]
    attributes and re-escaping bare angle brackets before the XML parser runs,
    and the normal form hashed into a candidate fingerprint.  The XML parser
    and writer themselves are other crates. *)

From S2P Require Import Prelude RustStr.
From Stdlib Require Import Ascii.

Definition LT : ascii := "<"%char.
Definition GT : ascii := ">"%char.

(** The index of the first byte satisfying [q], or the length. *)
Fixpoint scan (q : ascii -> bool) (s : string) : nat :=
  match s with
  | "" => O
  | String c s' => if q c then O else S (scan q s')
  end.

Definition find_attr_end (s : string) : nat :=
  let n := String.length s in
  let i := scan (Ascii.eqb "="%char) s in
  if (n <=? i)%nat then n else
  let i := (i + 1)%nat in
  match str_get i s with
  | None => n
  | Some quote =>
      if negb (Ascii.eqb quote DQ) && negb (Ascii.eqb quote SQ) then
        (i + scan (fun c => is_ascii_whitespace c || Ascii.eqb c GT) (str_drop i s))%nat
      else
        let i := (i + 1)%nat in
        let i := (i + scan (Ascii.eqb quote) (str_drop i s))%nat in
        if (i <? n)%nat then (i + 1)%nat else i
  end.

(** The loop [while let Some(pos) = rest.find("junos:")]; each round drops at
    least the six bytes of the prefix, so the length of the text is fuel
    enough ([strip_junos_go_fuel]). *)
Fixpoint strip_junos_go (fuel : nat) (rest : string) : string :=
  match fuel with
  | O => rest
  | S f =>
      match str_find "junos:" rest with
      | None => rest
      | Some (before, rest) =>
          let rest := str_drop (find_attr_end rest) rest in
          before ^^ strip_junos_go f (trim_start_matches SP rest)
      end
  end.

(** [xml.rs] *)
Definition simple_strip_junos (xml : string) : string :=
  strip_junos_go (String.length xml) xml.
(** [junos_transaction.rs] *)
Definition strip_junos_from_tag_content (tag : string) : string :=
  strip_junos_go (String.length tag) tag.

(** ** Bare angle brackets *)

Definition opens_tag (rest : string) : bool :=
  match rest with
  | String n _ => Ascii.eqb n "/"%char || Ascii.eqb n "?"%char || Ascii.eqb n "!"%char
                  || is_ascii_alphanumeric n || Ascii.eqb n "_"%char
  | "" => false
  end.

Fixpoint has_bare_go (in_tag : bool) (s : string) : bool :=
  match s with
  | "" => false
  | String b rest =>
      if in_tag then has_bare_go (negb (Ascii.eqb b GT)) rest
      else if Ascii.eqb b LT then
        if opens_tag rest then has_bare_go true rest else true
      else if Ascii.eqb b GT then true
      else has_bare_go false rest
  end.
Definition has_bare_angle_brackets_in_text (xml : string) : bool :=
  has_bare_go false xml.

(** The text before the next tag and the text from its [<] on. *)
Fixpoint find_next_tag_start (s : string) : option (string * string) :=
  match s with
  | "" => None
  | String c rest =>
      if Ascii.eqb c LT && opens_tag rest then Some ("", s) else
      match find_next_tag_start rest with
      | Some (b, a) => Some (String c b, a)
      | None => None
      end
  end.

Fixpoint escape_text (s : string) : string :=
  match s with
  | "" => ""
  | String c rest =>
      (if Ascii.eqb c LT then "&lt;" else if Ascii.eqb c GT then "&gt;"
       else String c "") ^^ escape_text rest
  end.

Fixpoint escape_go (fuel : nat) (in_text : bool) (rest : string) : string :=
  match fuel with
  | O => ""
  | S f =>
      if is_empty rest then "" else
      if in_text then
        match find_next_tag_start rest with
        | Some (text_segment, rest) => escape_text text_segment ^^ escape_go f false rest
        | None => escape_text rest
        end
      else
        match find_byte (Ascii.eqb GT) rest with
        | Some (tag, from) => tag ^^ String GT "" ^^ escape_go f true (str_drop 1 from)
        | None => rest
        end
  end.
Definition escape_text_angle_brackets (xml : string) : string :=
  escape_go (2 * String.length xml + 2) (negb (starts_with "<" xml)) xml.

Definition sanitize_rustez_xml (xml : string) : string :=
  let needs_ns_strip := contains "junos:" xml in
  let needs_text_escape :=
    str_exists (fun b => Ascii.eqb b LT || Ascii.eqb b GT) xml
    && has_bare_angle_brackets_in_text xml in
  if negb needs_ns_strip && negb needs_text_escape then xml else
  let after_ns := if needs_ns_strip then simple_strip_junos xml else xml in
  if needs_text_escape then escape_text_angle_brackets after_ns else after_ns.

(** ** The fingerprint's normal form *)

Fixpoint strip_attrs_go (fuel : nat) (rest : string) : string :=
  match fuel with
  | O => rest
  | S f =>
      match find_byte (Ascii.eqb LT) rest with
      | None => rest
      | Some (before, rest) =>
          before ^^
          match find_byte (Ascii.eqb GT) rest with
          | None => rest
          | Some (open_tag, from) =>
              let tag_content := str_drop 1 open_tag in
              let rest := str_drop 1 from in
              if starts_with "/" tag_content || starts_with "!" tag_content
                 || starts_with "?" tag_content
              then open_tag ^^ String GT "" ^^ strip_attrs_go f rest
              else String LT "" ^^ strip_junos_from_tag_content tag_content
                   ^^ String GT "" ^^ strip_attrs_go f rest
          end
      end
  end.
Definition simple_strip_junos_attrs (xml : string) : string :=
  strip_attrs_go (S (String.length xml)) xml.

Definition normalised_lines (stripped : string) : list string :=
  List.filter (fun l => negb (is_empty l)) (map trim (lines stripped)).
Definition normalise_candidate_for_fingerprint (xml : string) : string :=
  join newline (normalised_lines (simple_strip_junos_attrs xml)).

(** ** Escaping repairs every bare bracket *)

Definition no_brackets (s : string) : bool :=
  str_forall (fun c => negb (Ascii.eqb c LT || Ascii.eqb c GT)) s.

Lemma escape_text_no_brackets s : no_brackets (escape_text s) = true.
Proof.
  unfold no_brackets. induction s as [|c s IH]; [done|]. cbn [escape_text].
  rewrite str_forall_app, IH, andb_true_r.
  destruct (Ascii.eqb c LT) eqn:H1; [done|]. destruct (Ascii.eqb c GT) eqn:H2; [done|].
  cbn. by rewrite H1, H2.
Qed.

Lemma escape_text_id s : no_brackets s = true -> escape_text s = s.
Proof.
  unfold no_brackets. induction s as [|c s IH]; [done|]. cbn.
  rewrite andb_true_iff, negb_true_iff, orb_false_iff. intros [[-> ->] Hs].
  cbn. by rewrite IH.
Qed.

Lemma has_bare_text t u :
  no_brackets t = true -> has_bare_go false (t ^^ u) = has_bare_go false u.
Proof.
  unfold no_brackets. induction t as [|c t IH]; [done|]. cbn.
  rewrite andb_true_iff, negb_true_iff, orb_false_iff. intros [[-> ->] Ht]. by apply IH.
Qed.

Lemma find_byte_some q s b a :
  find_byte q s = Some (b, a) ->
  s = b ^^ a /\ str_forall (fun c => negb (q c)) b = true /\
  exists c t, a = String c t /\ q c = true.
Proof.
  revert b a; induction s as [|c s IH]; intros b a; cbn; [done|].
  destruct (q c) eqn:Hq.
  - intros [= <- <-]. split_and!; [done..|]. by exists c, s.
  - destruct (find_byte q s) as [[b' a']|] eqn:Hf; [|done].
    intros [= <- <-]. destruct (IH _ _ eq_refl) as (-> & Hb & He).
    split_and!; [done| |done]. cbn. by rewrite Hq.
Qed.

Lemma find_next_tag_start_some s b a :
  find_next_tag_start s = Some (b, a) ->
  s = b ^^ a /\ exists t, a = String LT t /\ opens_tag t = true.
Proof.
  revert b a; induction s as [|c s IH]; intros b a; cbn [find_next_tag_start]; [done|].
  destruct (Ascii.eqb c LT && opens_tag s) eqn:H.
  - intros [= <- <-]. apply andb_true_iff in H as [Hc Ho].
    apply Ascii.eqb_eq in Hc as ->. split; [done|]. by exists s.
  - destruct (find_next_tag_start s) as [[b' a']|] eqn:Hf; [|done].
    intros [= <- <-]. by destruct (IH _ _ eq_refl) as (-> & Ht).
Qed.

Lemma has_bare_in_tag t u :
  str_forall (fun c => negb (Ascii.eqb GT c)) t = true ->
  has_bare_go true (t ^^ String GT u) = has_bare_go false u /\
  has_bare_go true t = false.
Proof.
  induction t as [|c t IH]; [done|]. cbn [str_forall String.append has_bare_go].
  rewrite andb_true_iff, negb_true_iff. intros [Hc Ht].
  rewrite Ascii.eqb_sym, Hc. by apply IH.
Qed.

(** A tag's first byte after [<] is no bracket, so the tag reaches past it. *)
Lemma opens_tag_head t : opens_tag t = true -> exists n t', t = String n t' /\ Ascii.eqb GT n = false.
Proof.
  destruct t as [|n t]; [done|]. intros H. exists n, t. split; [done|].
  destruct (Ascii.eqb_spec GT n) as [<-|]; [done|done].
Qed.

Definition at_text (in_text : bool) (s : string) : Prop :=
  in_text = true \/ s = "" \/ exists t, s = String LT t /\ opens_tag t = true.

Lemma escape_go_no_bare f in_text s :
  at_text in_text s -> has_bare_go false (escape_go f in_text s) = false.
Proof.
  revert in_text s; induction f as [|f IH]; intros in_text s Hs; [done|].
  cbn [escape_go]. destruct s as [|c0 s0]; [done|]. cbn [is_empty].
  set (s := String c0 s0) in *. destruct in_text.
  - destruct (find_next_tag_start s) as [[seg rest]|] eqn:Hf.
    + apply find_next_tag_start_some in Hf as (_ & Ht).
      rewrite has_bare_text by apply escape_text_no_brackets.
      apply IH. right; right. exact Ht.
    + rewrite <- (app_str_nil_r (escape_text s)).
      by rewrite has_bare_text by apply escape_text_no_brackets.
  - destruct Hs as [Hs|[Hs|(t & Hst & Ho)]]; [discriminate..|]. rewrite Hst in *.
    clear s Hst.
    destruct (find_byte (Ascii.eqb GT) (String LT t)) as [[tag from]|] eqn:Hf.
    + apply find_byte_some in Hf as (He & Hb & c & u & -> & Hc).
      apply Ascii.eqb_eq in Hc as <-.
      destruct tag as [|c1 tag]; [done|]. cbn in He. injection He as <- He.
      destruct (opens_tag_head t Ho) as (n & t' & -> & Hn).
      destruct tag as [|c2 tag]; cbn in He; [by injection He as -> _|injection He as <- He].
      cbn [str_drop]. cbn [str_forall] in Hb.
      change ((String LT (String n tag)) ^^ String GT "" ^^ escape_go f true u)
        with (String LT (String n tag ^^ String GT (escape_go f true u))).
      cbn [has_bare_go]. change (Ascii.eqb LT LT) with true. cbv iota.
      assert (Ho' : opens_tag (String n tag ^^ String GT (escape_go f true u)) = true)
        by exact Ho.
      rewrite Ho'. apply andb_true_iff in Hb as [_ Hb].
      rewrite (proj1 (has_bare_in_tag (String n tag) _ Hb)). apply IH. by left.
    + apply find_byte_none in Hf. cbn [str_forall] in Hf.
      apply andb_true_iff in Hf as [_ Hf]. cbn [has_bare_go].
      change (Ascii.eqb LT LT) with true. cbv iota. rewrite Ho.
      by apply has_bare_in_tag with (u := "").
Qed.

(** The repair byte by byte: outside a tag, a [<] that opens no tag and a [>]
    become entities; every other byte, and every tag, is kept. *)
Fixpoint escape_ref (in_tag : bool) (s : string) : string :=
  match s with
  | "" => ""
  | String b rest =>
      if in_tag then String b (escape_ref (negb (Ascii.eqb b GT)) rest)
      else if Ascii.eqb b LT then
        if opens_tag rest then String b (escape_ref true rest)
        else "&lt;" ^^ escape_ref false rest
      else if Ascii.eqb b GT then "&gt;" ^^ escape_ref false rest
      else String b (escape_ref false rest)
  end.

Lemma escape_ref_text s b a :
  find_next_tag_start s = Some (b, a) ->
  escape_ref false s = escape_text b ^^ escape_ref false a.
Proof.
  revert b a; induction s as [|c s IH]; intros b a; cbn [find_next_tag_start]; [done|].
  destruct (Ascii.eqb c LT && opens_tag s) eqn:H; [by intros [= <- <-]|].
  destruct (find_next_tag_start s) as [[b' a']|]; [|done]. intros [= <- <-].
  cbn [escape_ref escape_text]. rewrite (IH _ _ eq_refl).
  destruct (Ascii.eqb c LT); cbn [andb] in H; [by rewrite H|]. by destruct (Ascii.eqb c GT).
Qed.

Lemma escape_ref_last_text s :
  find_next_tag_start s = None -> escape_ref false s = escape_text s.
Proof.
  induction s as [|c s IH]; cbn [find_next_tag_start]; [done|].
  destruct (Ascii.eqb c LT && opens_tag s) eqn:H; [done|].
  destruct (find_next_tag_start s) as [[??]|]; [done|]. intros _.
  cbn [escape_ref escape_text]. rewrite (IH eq_refl).
  destruct (Ascii.eqb c LT); cbn [andb] in H; [by rewrite H|]. by destruct (Ascii.eqb c GT).
Qed.

Lemma escape_ref_tag t u :
  str_forall (fun c => negb (Ascii.eqb GT c)) t = true ->
  escape_ref true (t ^^ String GT u) = t ^^ String GT (escape_ref false u) /\
  escape_ref true t = t.
Proof.
  induction t as [|c t IH]; [done|]. cbn [str_forall String.append escape_ref].
  rewrite andb_true_iff, negb_true_iff. intros [Hc Ht].
  rewrite Ascii.eqb_sym, Hc. cbn [negb]. destruct (IH Ht) as [-> ->]. done.
Qed.

(** Two rounds per byte are enough: the loop copies or escapes a segment, and
    every second segment is a tag, which is not empty. *)
Lemma escape_go_ref f in_text s :
  at_text in_text s -> (2 * String.length s + (if in_text then 2 else 1) <= f)%nat ->
  escape_go f in_text s = escape_ref false s.
Proof.
  revert in_text s; induction f as [|f IH]; intros in_text s Hs Hf; [destruct in_text; lia|].
  cbn [escape_go]. destruct s as [|c0 s0]; [done|]. cbn [is_empty].
  set (s := String c0 s0) in *. destruct in_text.
  - destruct (find_next_tag_start s) as [[seg rest]|] eqn:Hn.
    + rewrite (escape_ref_text _ _ _ Hn). apply find_next_tag_start_some in Hn as (He & Ht).
      rewrite IH; [done|by right; right|].
      rewrite He, length_app_str in Hf. lia.
    + by rewrite escape_ref_last_text.
  - destruct Hs as [Hs|[Hs|(t & Hst & Ho)]]; [discriminate..|]. rewrite Hst in *.
    assert (Hr : escape_ref false (String LT t) = String LT (escape_ref true t))
      by (cbn [escape_ref]; change (Ascii.eqb LT LT) with true; cbv iota; by rewrite Ho).
    rewrite Hr. cbn [find_byte]. change (Ascii.eqb GT LT) with false. cbv iota.
    destruct (find_byte (Ascii.eqb GT) t) as [[tag from]|] eqn:Hb.
    + apply find_byte_some in Hb as (-> & Hb & c & u & -> & Hc).
      apply Ascii.eqb_eq in Hc as <-. rewrite (proj1 (escape_ref_tag tag u Hb)).
      cbn [str_drop String.append]. rewrite IH; [done|by left|].
      cbn [String.length] in Hf. rewrite length_app_str in Hf. cbn [String.length] in Hf. lia.
    + apply find_byte_none in Hb. by rewrite (proj2 (escape_ref_tag t "" Hb)).
Qed.

Definition starts_well (xml : string) : Prop :=
  starts_with "<" xml = false \/ opens_tag (str_drop 1 xml) = true.

Lemma starts_well_at_text xml : starts_well xml -> at_text (negb (starts_with "<" xml)) xml.
Proof.
  intros H. destruct (starts_with "<" xml) eqn:Hs; [|by left].
  destruct H as [H|Ho]; [by rewrite Hs in H|]. right; right.
  apply prefix_app in Hs as [t ->]. by exists t.
Qed.

Lemma escape_repairs xml :
  starts_well xml ->
  escape_text_angle_brackets xml = escape_ref false xml /\
  has_bare_angle_brackets_in_text (escape_text_angle_brackets xml) = false.
Proof.
  intros H%starts_well_at_text. split; [|by apply escape_go_no_bare].
  apply escape_go_ref; [done|]. destruct (negb _); lia.
Qed.

Lemma escape_ref_no_bare s b : has_bare_go b s = false -> escape_ref b s = s.
Proof.
  revert b; induction s as [|c s IH]; intros b; cbn; [done|].
  destruct b; [intros H; by rewrite IH|].
  destruct (Ascii.eqb c LT); [destruct (opens_tag s); [|done]; intros H; by rewrite IH|].
  destruct (Ascii.eqb c GT); [done|]. intros H. by rewrite IH.
Qed.

(** [escape_text_angle_brackets] escapes exactly the bare brackets.  For every
    input that does not open with a [<] that is not a tag, the result is the
    input with each [<] and [>] of its text replaced by its entity and every
    other byte and every tag kept ([escape_ref]); the sanitiser's own test finds
    no bare bracket in it; and an input without one is its own result. *)
Theorem escape_text_angle_brackets_repairs xml :
  starts_well xml ->
  escape_text_angle_brackets xml = escape_ref false xml /\
  has_bare_angle_brackets_in_text (escape_text_angle_brackets xml) = false /\
  (has_bare_angle_brackets_in_text xml = false -> escape_text_angle_brackets xml = xml).
Proof.
  intros H. destruct (escape_repairs xml H) as [He Hb]. split_and!; [done..|].
  intros Hx. rewrite He. by apply escape_ref_no_bare.
Qed.

Lemma escape_text_angle_brackets_repairs_witness :
  starts_well "<a>1< 2</a>" /\
  escape_text_angle_brackets "<a>1< 2</a>" = "<a>1&lt; 2</a>".
Proof.
  split; [right; reflexivity|].
  refine (eq_trans (proj1 (escape_text_angle_brackets_repairs "<a>1< 2</a>" _)) _).
  - right. reflexivity.
  - reflexivity.
Defined.

(** ** Stripping [junos:] attributes *)

Lemma scan_le q s : (scan q s <= String.length s)%nat.
Proof. induction s as [|c s IH]; [done|]. cbn. destruct (q c); lia. Qed.

Lemma find_attr_end_pos p s :
  String.prefix "junos:" s = p -> p = true -> (1 <= find_attr_end s)%nat.
Proof.
  intros Hp ->. apply prefix_app in Hp as [t ->]. unfold find_attr_end.
  set (s := "junos:" ^^ t).
  assert (H : (1 <= scan (Ascii.eqb "="%char) s)%nat) by (unfold s; cbn; lia).
  assert (H' : (1 <= String.length s)%nat) by (unfold s; cbn; lia).
  repeat case_match; lia.
Qed.

Lemma trim_start_matches_length c s :
  (String.length (trim_start_matches c s) <= String.length s)%nat.
Proof. induction s as [|d s IH]; [done|]. cbn. destruct (Ascii.eqb d c); cbn; lia. Qed.

(** Each round consumes at least one byte: any fuel of at least the length of
    the text gives the result of the unbounded loop. *)
Lemma strip_junos_go_fuel f g s :
  (String.length s <= f)%nat -> (String.length s <= g)%nat ->
  strip_junos_go f s = strip_junos_go g s.
Proof.
  revert g s; induction f as [|f IH]; intros g s Hf Hg.
  { destruct s; [by destruct g|cbn in Hf; lia]. }
  destruct g as [|g]; [destruct s; [done|cbn in Hg; lia]|]. cbn [strip_junos_go].
  destruct (str_find "junos:" s) as [[b a]|] eqn:Hs; [|done].
  apply str_find_some in Hs as [-> Hp]. f_equal.
  pose proof (find_attr_end_pos _ a eq_refl Hp) as H1.
  pose proof (trim_start_matches_length SP (str_drop (find_attr_end a) a)) as H2.
  assert (H3 : (1 <= String.length a)%nat) by (destruct a; [done|cbn; lia]).
  rewrite length_str_drop in H2. rewrite length_app_str in Hf, Hg. apply IH; lia.
Qed.

Lemma strip_junos_unfold s :
  strip_junos_from_tag_content s =
  match str_find "junos:" s with
  | None => s
  | Some (before, a) => before ^^
      strip_junos_from_tag_content (trim_start_matches SP (str_drop (find_attr_end a) a))
  end.
Proof.
  unfold strip_junos_from_tag_content at 1. destruct s as [|c s]; [done|].
  cbn [String.length strip_junos_go].
  destruct (str_find "junos:" (String c s)) as [[b a]|] eqn:Hs; [|done].
  apply str_find_some in Hs as [He Hp]. f_equal.
  pose proof (find_attr_end_pos _ a eq_refl Hp) as H1.
  pose proof (trim_start_matches_length SP (str_drop (find_attr_end a) a)) as H2.
  apply (f_equal String.length) in He. rewrite length_app_str in He. cbn in He.
  assert (H3 : (1 <= String.length a)%nat) by (destruct a; [done|cbn; lia]).
  rewrite length_str_drop in H2. apply strip_junos_go_fuel; lia.
Qed.

Lemma scan_app q a c s :
  str_forall (fun x => negb (q x)) a = true -> q c = true ->
  scan q (a ^^ String c s) = String.length a.
Proof.
  intros Ha Hc. induction a as [|x a IH]; cbn; [by rewrite Hc|].
  cbn in Ha. apply andb_true_iff in Ha as [Hx Ha]. apply negb_true_iff in Hx.
  by rewrite Hx, IH.
Qed.

Lemma str_drop_length_app a b : str_drop (String.length a) (a ^^ b) = b.
Proof. by induction a as [|c a IH]. Qed.
Lemma str_get_length_app a c b : str_get (String.length a) (a ^^ String c b) = Some c.
Proof. induction a as [|x a IH]; [done|exact IH]. Qed.

(** A quoted attribute ends after its closing quote. *)
Lemma find_attr_end_quoted name value rest :
  str_forall (fun c => negb (Ascii.eqb "="%char c)) name = true ->
  str_forall (fun c => negb (Ascii.eqb DQ c)) value = true ->
  let attr := name ^^ "=" ^^ dquote ^^ value ^^ dquote in
  find_attr_end (attr ^^ rest) = String.length attr.
Proof.
  intros Hn Hv attr. subst attr. unfold find_attr_end.
  rewrite !app_str_assoc. cbn [String.append].
  change (dquote ^^ value ^^ dquote ^^ rest) with (String DQ (value ^^ String DQ rest)).
  assert (Hd1 : forall s, str_drop (String.length name + 1 + 1)
      (name ^^ String "=" (String DQ s)) = s).
  { intros s. replace (String.length name + 1 + 1)%nat
      with (String.length (name ^^ "=" ^^ dquote)) by (rewrite !length_app_str; cbn; lia).
    rewrite <- (str_drop_length_app (name ^^ "=" ^^ dquote) s) at 2.
    f_equal. by rewrite !app_str_assoc. }
  assert (Hg : forall s, str_get (String.length name + 1)
      (name ^^ String "=" (String DQ s)) = Some DQ).
  { intros s. replace (String.length name + 1)%nat
      with (String.length (name ^^ "=")) by (rewrite length_app_str; cbn; lia).
    rewrite <- (str_get_length_app (name ^^ "=") DQ s). f_equal. by rewrite app_str_assoc. }
  rewrite scan_app by done. rewrite Hg. cbn [negb andb].
  change (negb (Ascii.eqb DQ DQ)) with false. cbn [andb].
  rewrite Hd1, scan_app by done.
  change (dquote ^^ value ^^ dquote) with (String DQ (value ^^ String DQ "")).
  repeat (rewrite ?length_app_str; cbn [String.length]).
  repeat match goal with
  | |- context [(?a <=? ?b)%nat] => destruct (Nat.leb_spec a b)
  | |- context [(?a <? ?b)%nat] => destruct (Nat.ltb_spec a b)
  end; lia.
Qed.

(** What removing one quoted [junos:] attribute leaves: the text before it, and
    the text after it with its leading blanks dropped. *)
Lemma strip_junos_quoted pre name value post :
  contains "junos:" (pre ^^ "junos") = false ->
  str_forall (fun c => negb (Ascii.eqb "="%char c)) name = true ->
  str_forall (fun c => negb (Ascii.eqb DQ c)) value = true ->
  strip_junos_from_tag_content
    (pre ^^ "junos:" ^^ name ^^ "=" ^^ dquote ^^ value ^^ dquote ^^ post) =
  pre ^^ strip_junos_from_tag_content (trim_start_matches SP post).
Proof.
  intros Hpre Hn Hv. rewrite strip_junos_unfold.
  rewrite (str_find_first "junos:" "junos" ":") by done. f_equal.
  pose proof (find_attr_end_quoted ("junos:" ^^ name) value post Hn Hv) as He.
  cbn zeta in He. rewrite !app_str_assoc in He.
  replace (str_drop _ _) with post; [done|]. rewrite He.
  rewrite <- (str_drop_length_app
    ("junos:" ^^ name ^^ "=" ^^ dquote ^^ value ^^ dquote) post) at 1.
  f_equal. by rewrite !app_str_assoc.
Qed.

(** ** The fingerprint *)

Lemma find_byte_first q a c s :
  str_forall (fun x => negb (q x)) a = true -> q c = true ->
  find_byte q (a ^^ String c s) = Some (a, String c s).
Proof.
  intros Ha Hc. induction a as [|x a IH]; cbn; [by rewrite Hc|].
  cbn in Ha. apply andb_true_iff in Ha as [Hx Ha]. apply negb_true_iff in Hx.
  by rewrite Hx, IH.
Qed.

Lemma strip_attrs_go_fuel f g s :
  (String.length s < f)%nat -> (String.length s < g)%nat ->
  strip_attrs_go f s = strip_attrs_go g s.
Proof.
  revert g s; induction f as [|f IH]; intros g s Hf Hg; [lia|].
  destruct g as [|g]; [lia|]. cbn [strip_attrs_go].
  destruct (find_byte (Ascii.eqb LT) s) as [[b a]|] eqn:Hs; [|done].
  apply find_byte_some in Hs as (-> & _ & _). f_equal.
  destruct (find_byte (Ascii.eqb GT) a) as [[o fr]|] eqn:Ha; [|done].
  apply find_byte_some in Ha as (-> & _ & c & u & -> & _). cbn [str_drop].
  rewrite !length_app_str in Hf, Hg. cbn [String.length] in Hf, Hg.
  rewrite (IH g u) by lia. done.
Qed.

Definition no_lt (s : string) : bool := str_forall (fun c => negb (Ascii.eqb LT c)) s.
Definition no_gt (s : string) : bool := str_forall (fun c => negb (Ascii.eqb GT c)) s.
Definition is_opening (tag : string) : bool :=
  negb (starts_with "/" tag || starts_with "!" tag || starts_with "?" tag).

(** One opening tag: the text before it is kept as it is, its content loses its
    [junos:] attributes, and the rest is treated alike. *)
Lemma strip_attrs_tag text tag rest :
  no_lt text = true -> no_gt tag = true -> is_opening tag = true ->
  simple_strip_junos_attrs (text ^^ String LT (tag ^^ String GT rest)) =
  text ^^ String LT (strip_junos_from_tag_content tag
                     ^^ String GT (simple_strip_junos_attrs rest)).
Proof.
  intros Ht Hg Ho. unfold simple_strip_junos_attrs at 1.
  cbn [strip_attrs_go]. rewrite find_byte_first by done. f_equal.
  change (String LT (tag ^^ String GT rest)) with ((String LT tag) ^^ String GT rest).
  rewrite find_byte_first by done. cbn [str_drop].
  apply negb_true_iff in Ho. rewrite Ho. cbn [String.append]. do 3 f_equal.
  apply strip_attrs_go_fuel; rewrite ?length_app_str; cbn; rewrite ?length_app_str; cbn; lia.
Qed.

Lemma strip_attrs_text text : no_lt text = true -> simple_strip_junos_attrs text = text.
Proof.
  intros H. unfold simple_strip_junos_attrs. cbn [strip_attrs_go].
  by rewrite (proj2 (find_byte_none _ _) H).
Qed.

(** The timestamp attribute does not reach the fingerprint.  Two candidate
    reads that differ only in the value of a quoted [junos:] attribute of an
    opening tag (such as [junos:changed-seconds], which changes on every read)
    have the same normal form, so the same fingerprint. *)
Theorem normalise_ignores_junos_attr text pre name v1 v2 post rest :
  no_lt text = true -> no_gt (pre ^^ name ^^ v1 ^^ v2 ^^ post) = true ->
  is_opening (pre ^^ "junos:") = true ->
  contains "junos:" (pre ^^ "junos") = false ->
  str_forall (fun c => negb (Ascii.eqb "="%char c)) name = true ->
  str_forall (fun c => negb (Ascii.eqb DQ c)) v1 = true ->
  str_forall (fun c => negb (Ascii.eqb DQ c)) v2 = true ->
  let read v := text ^^ String LT ((pre ^^ "junos:" ^^ name ^^ "=" ^^ dquote ^^ v
                                    ^^ dquote ^^ post) ^^ String GT rest) in
  normalise_candidate_for_fingerprint (read v1) =
  normalise_candidate_for_fingerprint (read v2).
Proof.
  intros Ht Hg Ho Hpre Hn H1 H2 read. unfold normalise_candidate_for_fingerprint.
  assert (Hread : forall v, no_gt v = true ->
    str_forall (fun c => negb (Ascii.eqb DQ c)) v = true ->
    simple_strip_junos_attrs (read v) =
    text ^^ String LT ((pre ^^ strip_junos_from_tag_content (trim_start_matches SP post))
                       ^^ String GT (simple_strip_junos_attrs rest))).
  { intros v Hv1 Hv2. unfold read. unfold no_gt in *.
    rewrite !str_forall_app, !andb_true_iff in Hg. destruct Hg as (Hg1 & Hg2 & _ & _ & Hg3).
    rewrite strip_attrs_tag.
    - by rewrite strip_junos_quoted.
    - done.
    - unfold no_gt. rewrite !str_forall_app, Hg1, Hg2, Hv1, Hg3. done.
    - assert (Hl : forall p u, (String.length p <= 1)%nat ->
        String.prefix p (pre ^^ "junos:" ^^ u) = String.prefix p (pre ^^ "junos:")).
      { intros p u Hp. rewrite <- app_str_assoc. apply prefix_app_long.
        rewrite length_app_str. cbn. lia. }
      unfold is_opening, starts_with in *. rewrite !Hl by (cbn; lia). exact Ho. }
  unfold no_gt in Hg. rewrite !str_forall_app, !andb_true_iff in Hg.
  destruct Hg as (_ & _ & Hg1 & Hg2 & _).
  by rewrite (Hread v1), (Hread v2).
Qed.

Lemma normalise_ignores_junos_attr_witness :
  normalise_candidate_for_fingerprint
    ("" ^^ String LT (("configuration " ^^ "junos:" ^^ "changed-seconds" ^^ "=" ^^ dquote
       ^^ "17" ^^ dquote ^^ " v=1") ^^ String GT "<a/>")) =
  normalise_candidate_for_fingerprint
    ("" ^^ String LT (("configuration " ^^ "junos:" ^^ "changed-seconds" ^^ "=" ^^ dquote
       ^^ "2048" ^^ dquote ^^ " v=1") ^^ String GT "<a/>")).
Proof.
  apply (normalise_ignores_junos_attr "" "configuration " "changed-seconds" "17" "2048"
           " v=1" "<a/>"); reflexivity.
Defined.

Lemma normalised_lines_clean s : Forall clean_line (normalised_lines s).
Proof.
  unfold normalised_lines. pose proof (lines_no_lf s) as H.
  induction H as [|l ls Hl Hls IH]; [constructor|]. cbn.
  destruct (trim l) as [|c t] eqn:Ht; cbn; [done|]. constructor; [|done].
  split_and!; [done| |].
  - rewrite <- Ht. by apply str_forall_trim.
  - intros [u Hu]. rewrite <- Ht in Hu. by apply trim_last in Hu.
Qed.

(** the normal form loses only indentation and blank lines.  Two candidates
    have the same normal form exactly when, after attribute stripping, they
    have the same non-blank lines, trimmed, in the same order: a reordered
    policy list is a different configuration and a different fingerprint input. *)
Theorem normalise_collision_iff x y :
  normalise_candidate_for_fingerprint x = normalise_candidate_for_fingerprint y <->
  normalised_lines (simple_strip_junos_attrs x) =
  normalised_lines (simple_strip_junos_attrs y).
Proof.
  unfold normalise_candidate_for_fingerprint. split; [|by intros ->].
  intros H. apply (f_equal lines) in H.
  by rewrite !lines_join in H by apply normalised_lines_clean.
Qed.

(** [sanitize_rustez_xml] repairs what it set out to repair and touches
    nothing else.  A reply with neither [junos:] nor a bare bracket comes back
    unchanged; one whose only defect is bare brackets comes back with exactly those
    escaped ([escape_ref]), so with none left; and one whose only defect is
    [junos:] attributes comes back stripped of them.  (Replies that open with a
    [<] that starts no tag are excepted.) *)
Theorem sanitize_rustez_xml_spec xml :
  starts_well xml ->
  (contains "junos:" xml = false ->
     sanitize_rustez_xml xml = escape_ref false xml /\
     has_bare_angle_brackets_in_text (sanitize_rustez_xml xml) = false) /\
  (has_bare_angle_brackets_in_text xml = false ->
     sanitize_rustez_xml xml =
       (if contains "junos:" xml then simple_strip_junos xml else xml)).
Proof.
  intros Hw. unfold sanitize_rustez_xml.
  destruct (has_bare_angle_brackets_in_text xml) eqn:Hb.
  - split; [|done]. intros ->. cbn [negb andb].
    assert (Hex : str_exists (fun b => Ascii.eqb b LT || Ascii.eqb b GT) xml = true).
    { unfold str_exists. apply negb_true_iff, not_true_is_false. intros Hall.
      pose proof (has_bare_text xml "" Hall) as Ht. rewrite app_str_nil_r in Ht.
      unfold has_bare_angle_brackets_in_text in Hb. by rewrite Hb in Ht. }
    rewrite Hex. cbn [andb negb]. by apply escape_repairs.
  - rewrite andb_false_r. split; [|by destruct (contains _ _)].
    intros ->. cbn [negb andb]. by rewrite escape_ref_no_bare.
Qed.

Lemma sanitize_rustez_xml_spec_witness :
  starts_well "<a>1< 2</a>" /\ contains "junos:" "<a>1< 2</a>" = false /\
  sanitize_rustez_xml "<a>1< 2</a>" = "<a>1&lt; 2</a>".
Proof.
  split; [right; reflexivity|]. split; [reflexivity|].
  refine (eq_trans (proj1 (proj1 (sanitize_rustez_xml_spec "<a>1< 2</a>" _) _)) _).
  - right. reflexivity.
  - reflexivity.
  - reflexivity.
Defined.
