(* ===== verification/Async.v ===== *)
(** * Timed remote calls

    The code awaits remote calls under deadlines and a cancellation token.  A
    call is modelled by what it would do if left alone (how long it takes, its
    result, the state it leaves) and by the state it leaves when it is dropped
    part-way, which the caller never learns more about.  [await], [timeout]
    and [select_cancelled] are [.await], [tokio::time::timeout] and the biased
    [select!] on the token; time is in nanoseconds.  Every call ends on its own
    eventually: the sessions carry an RPC timeout of their own. *)

From S2P Require Import Prelude RustStr Fmt Errors.

Record Rpc (B T E : Type) := mk_rpc {
  rpc_time : N;
  rpc_result : Result T E;
  rpc_state : B;
  rpc_dropped : N -> B
}.
Arguments mk_rpc {B T E}.
Arguments rpc_time {B T E}.
Arguments rpc_result {B T E}.
Arguments rpc_state {B T E}.
Arguments rpc_dropped {B T E}.

Definition Future (B T E : Type) : Type := B -> Rpc B T E.

(** The clock, the instant at which the caller's token is cancelled (if ever),
    and the remote state. *)
Record World (B : Type) := mk_world {
  w_now : N;
  w_cancel_at : option N;
  w_backend : B
}.
Arguments mk_world {B}.
Arguments w_now {B}.
Arguments w_cancel_at {B}.
Arguments w_backend {B}.

Definition advance {B} (w : World B) (t : N) (b : B) : World B :=
  mk_world (w_now w + t) (w_cancel_at w) b.

Definition is_cancelled {B} (w : World B) : bool :=
  match w_cancel_at w with Some c => (c <=? w_now w)%N | None => false end.

Definition await {B T E} (f : Future B T E) (w : World B) : Result T E * World B :=
  let r := f (w_backend w) in
  (rpc_result r, advance w (rpc_time r) (rpc_state r)).

(** [tokio::time::timeout(limit, f)]: [None] is [Elapsed]. *)
Definition timeout {B T E} (limit : N) (f : Future B T E) (w : World B)
  : option (Result T E) * World B :=
  let r := f (w_backend w) in
  if (rpc_time r <=? limit)%N
  then (Some (rpc_result r), advance w (rpc_time r) (rpc_state r))
  else (None, advance w limit (rpc_dropped r limit)).

(** [select! { biased; _ = ct.cancelled() => ..; r = timeout(limit, f) => r }]:
    cancellation wins when it comes no later than the end of the timeout. *)
Inductive Selected (T E : Type) :=
  | SelCancelled
  | SelElapsed
  | SelDone (r : Result T E).
Arguments SelCancelled {T E}.
Arguments SelElapsed {T E}.
Arguments SelDone {T E}.

Definition select_cancelled {B T E} (limit : N) (f : Future B T E) (w : World B)
  : Selected T E * World B :=
  let r := f (w_backend w) in
  let stop := N.min (rpc_time r) limit in
  let drop_at c := advance w (c - w_now w) (rpc_dropped r (c - w_now w)) in
  let go := match timeout limit f w with
            | (Some res, w') => (SelDone res, w')
            | (None, w') => (SelElapsed, w')
            end in
  match w_cancel_at w with
  | Some c => if (c <=? w_now w + stop)%N then (SelCancelled, drop_at c) else go
  | None => go
  end.

(** ** Asynchronous functions

    The body of an [async fn] is built from its awaits: [fut_bind] runs one
    call and then the rest, and a drop falls in whichever is running.
    [fut_state] is code between awaits, which takes no time, [fut_sleep] is
    [tokio::time::sleep], and [fut_at] a call on one field of the state. *)

Definition fut_state {B T E} (f : B -> Result T E * B) : Future B T E :=
  fun b => let (r, b') := f b in mk_rpc 0 r b' (fun _ => b').
Definition fut_ret {B T E} (r : Result T E) : Future B T E := fut_state (fun b => (r, b)).

Definition fut_bind {B T E U F} (f : Future B T E) (g : Result T E -> Future B U F)
  : Future B U F := fun b =>
  let r := f b in
  let r2 := g (rpc_result r) (rpc_state r) in
  mk_rpc (rpc_time r + rpc_time r2) (rpc_result r2) (rpc_state r2)
    (fun k => if (k <? rpc_time r)%N then rpc_dropped r k
              else rpc_dropped r2 (k - rpc_time r)).

Definition fut_sleep {B E} (d : N) : Future B unit E :=
  fun b => mk_rpc d (Ok tt) b (fun _ => b).

Definition fut_at {A B T E} (get : A -> B) (set : B -> A -> A) (f : Future B T E)
  : Future A T E := fun a =>
  let r := f (get a) in
  mk_rpc (rpc_time r) (rpc_result r) (set (rpc_state r) a)
    (fun k => set (rpc_dropped r k) a).

(** [tokio::time::timeout] as a call of its own: it always returns, [None] for
    [Elapsed]. *)
Definition fut_timeout {B T E F} (limit : N) (f : Future B T E)
  : Future B (option (Result T E)) F := fun b =>
  let r := f b in
  if (rpc_time r <=? limit)%N
  then mk_rpc (rpc_time r) (Ok (Some (rpc_result r))) (rpc_state r) (rpc_dropped r)
  else mk_rpc limit (Ok None) (rpc_dropped r limit) (rpc_dropped r).

(** The [?] operator on an awaited result, with the conversion of its error. *)
Definition fut_try {B T E U F} (conv : E -> F) (f : Future B T E) (g : T -> Future B U F)
  : Future B U F :=
  fut_bind f (fun r => match r with Ok t => g t | Err e => fut_ret (Err (conv e)) end).
Definition fut_map_err {B T E F} (conv : E -> F) (f : Future B T E) : Future B T F :=
  fut_try conv f (fun t => fut_ret (Ok t)).

Lemma await_bind {B T E U F} (f : Future B T E) (g : Result T E -> Future B U F) w :
  await (fut_bind f g) w = let (r, w1) := await f w in await (g r) w1.
Proof. unfold await, fut_bind, advance. cbn. by rewrite N.add_assoc. Qed.

Lemma await_state {B T E} (f : B -> Result T E * B) w :
  await (fut_state f) w =
  ((f (w_backend w)).1, mk_world (w_now w) (w_cancel_at w) (f (w_backend w)).2).
Proof.
  unfold await, fut_state, advance. destruct (f (w_backend w)). cbn. by rewrite N.add_0_r.
Qed.

(** A call on one field leaves every other field alone. *)
Definition keeps {B A T E} (obs : B -> A) (f : Future B T E) : Prop :=
  forall b, obs (rpc_state (f b)) = obs b /\ forall k, obs (rpc_dropped (f b) k) = obs b.

Lemma keeps_at {A B C T E} (get : A -> B) set (obs : A -> C) (f : Future B T E) :
  (forall b a, obs (set b a) = obs a) -> keeps obs (fut_at get set f).
Proof. intros H a. split; [apply H|intros k; apply H]. Qed.
Lemma keeps_ret {B A T E} (obs : B -> A) (r : Result T E) : keeps obs (fut_ret r).
Proof. intros b. by split. Qed.
Lemma keeps_bind {B A T E U F} (obs : B -> A) (f : Future B T E) (g : Result T E -> Future B U F) :
  keeps obs f -> (forall r, keeps obs (g r)) -> keeps obs (fut_bind f g).
Proof.
  intros Hf Hg b. destruct (Hf b) as [H1 H2].
  destruct (Hg (rpc_result (f b)) (rpc_state (f b))) as [H3 H4]. cbn. split; [congruence|].
  intros k. destruct (k <? rpc_time (f b))%N; [done|]. by rewrite H4.
Qed.
Lemma keeps_try {B A T E U F} (obs : B -> A) (c : E -> F) (f : Future B T E) (g : T -> Future B U F) :
  keeps obs f -> (forall t, keeps obs (g t)) -> keeps obs (fut_try c f g).
Proof. intros Hf Hg. apply keeps_bind; [done|]. intros []; [apply Hg|apply keeps_ret]. Qed.

Lemma keeps_timeout {B A T E F} (obs : B -> A) limit (f : Future B T E) :
  keeps obs f -> keeps obs (fut_timeout (F := F) limit f).
Proof.
  intros H b. destruct (H b) as [H1 H2]. unfold fut_timeout.
  destruct (rpc_time (f b) <=? limit)%N; split; cbn; auto.
Qed.

Section steps.
Context {X : External} {B : Type}.

Definition ensure_active (deadline operation_timeout : N) (w : World B)
  : Result unit JmcpError :=
  if is_cancelled w then Err Cancelled
  else if (deadline <=? w_now w)%N then Err (Timeout operation_timeout)
  else Ok tt.

Definition run_step {T} (deadline operation_timeout : N)
    (future : Future B T JmcpError) (w : World B)
  : Result T JmcpError * World B :=
  match ensure_active deadline operation_timeout w with
  | Err e => (Err e, w)
  | Ok _ =>
      let remaining := (deadline - w_now w)%N in
      match select_cancelled remaining future w with
      | (SelCancelled, w') => (Err Cancelled, w')
      | (SelElapsed, w') => (Err (Timeout operation_timeout), w')
      | (SelDone r, w') => (r, w')
      end
  end.

(** ** What a step can do to the world *)

(** A step leaves the state as it was (it never started), or where the call
    completed, with the call's own result, or where it was dropped, and then
    the result is an interruption. *)
Lemma run_step_spec {T} d t (f : Future B T JmcpError) w r w' :
  run_step d t f w = (r, w') ->
  (w' = w /\ exists e, r = Err e /\ is_interruption e = true) \/
  (w_backend w' = rpc_state (f (w_backend w)) /\ r = rpc_result (f (w_backend w))) \/
  (exists k e, w_backend w' = rpc_dropped (f (w_backend w)) k /\
               r = Err e /\ is_interruption e = true).
Proof.
  unfold run_step, ensure_active, select_cancelled, timeout. intros H.
  repeat case_match; simplify_eq/=; eauto 10.
Qed.

(** A step never runs past the deadline. *)
Lemma run_step_time {T} d t (f : Future B T JmcpError) w r w' :
  run_step d t f w = (r, w') ->
  (w_now w <= w_now w' <= N.max (w_now w) d)%N /\ w_cancel_at w' = w_cancel_at w.
Proof.
  unfold run_step, ensure_active, select_cancelled, timeout, is_cancelled. intros H.
  repeat (case_match; simplify_eq/=); unfold advance; cbn;
    repeat match goal with
    | H : (_ <=? _)%N = true |- _ => apply N.leb_le in H
    | H : (_ <=? _)%N = false |- _ => apply N.leb_gt in H
    end; split; try done; lia.
Qed.

Lemma timeout_spec {T E} l (f : Future B T E) w r w' :
  timeout l f w = (r, w') ->
  (r = Some (rpc_result (f (w_backend w))) /\ w_backend w' = rpc_state (f (w_backend w))) \/
  (r = None /\ w_backend w' = rpc_dropped (f (w_backend w)) l).
Proof. unfold timeout. intros H. case_match; simplify_eq/=; eauto. Qed.

Lemma timeout_time {T E} l (f : Future B T E) w r w' :
  timeout l f w = (r, w') ->
  (w_now w <= w_now w' <= w_now w + l)%N /\ w_cancel_at w' = w_cancel_at w.
Proof.
  unfold timeout. intros H. destruct (N.leb_spec (rpc_time (f (w_backend w))) l);
    simplify_eq/=; split; try done; lia.
Qed.

End steps.

(** ** Asynchronous functions in a world

    A tool or a workflow is an async function: it runs in a [World] (a clock, a
    cancellation instant, a state) and ends with a result and the world it
    left.  [let!] awaits one and goes on with its value, or returns its error,
    as [.await?] does. *)

Definition Act (S T E : Type) : Type := World S -> Result T E * World S.

Section act.
Context {S : Type}.

Definition act_ret {T E} (r : Result T E) : Act S T E := fun w => (r, w).
Definition act_bind {T E U F} (m : Act S T E) (k : Result T E -> Act S U F) : Act S U F :=
  fun w => let (r, w) := m w in k r w.
(** [m.await.map_err(conv)?] *)
Definition act_try {T E U F} (conv : E -> F) (m : Act S T E) (k : T -> Act S U F) : Act S U F :=
  act_bind m (fun r => match r with Ok t => k t | Err e => act_ret (Err (conv e)) end).
Definition act_then {T E U} (m : Act S T E) (k : T -> Act S U E) : Act S U E :=
  act_try (fun e => e) m k.

(** The clock: [Instant::now()]. *)
Definition act_now {E} : Act S N E := fun w => (Ok (w_now w), w).
(** Code that changes the state and takes no time. *)
Definition act_state {E} (f : S -> S) : Act S unit E :=
  fun w => (Ok tt, mk_world (w_now w) (w_cancel_at w) (f (w_backend w))).
Definition act_sleep {E} (d : N) : Act S unit E := fun w => (Ok tt, advance w d (w_backend w)).
(** Code that reads the state, takes no time and may fail. *)
Definition act_get {T E} (f : S -> Result T E) : Act S T E := fun w => (f (w_backend w), w).

End act.

Notation "'let!' x := m 'in' k" := (act_then m (fun x => k))
  (at level 10, x pattern, k at level 200) : jmcp_scope.

Lemma then_get {S T U E} (f : S -> Result T E) (k : T -> Act S U E) w :
  act_then (act_get f) k w =
  match f (w_backend w) with Ok t => k t w | Err e => (Err e, w) end.
Proof. unfold act_then, act_try, act_bind, act_get. by destruct (f (w_backend w)). Qed.

Lemma then_state {S U E} (g : S -> S) (k : unit -> Act S U E) w :
  act_then (act_state g) k w = k tt (mk_world (w_now w) (w_cancel_at w) (g (w_backend w))).
Proof. done. Qed.
