(* ===== verification/CandidateTransaction.v ===== *)
(** * Candidate transactions ([tools/candidate_transaction.rs])

    One candidate configuration transaction: lock, load, diff, check or commit,
    then clean up (roll back unless committed, always unlock).  The remote side
    is any [CandidateBackend]; every call may fail, run past the deadline, or
    be dropped by a cancellation. *)

From S2P Require Import Prelude RustStr Fmt Errors Helpers Async.

Definition DEFAULT_CLEANUP_TIMEOUT_SECS : N := 30.
Definition CLEANUP_PHASES : N := 4.
Definition worst_case_duration (cleanup_timeout operation_timeout : N) : N :=
  operation_timeout + cleanup_timeout * CLEANUP_PHASES.

Inductive CandidateMode :=
  | DryRun
  | CommitCheck
  | CommitWithComment (comment : string)
  | CommitConfirmed (seconds : N)
  | Discard.

#[export] Instance CandidateMode_eq_dec : EqDecision CandidateMode.
Proof. solve_decision. Defined.

Record CandidateRequest := {
  payload : option ConfigPayload;
  rollback_source : option N;
  mode : CandidateMode;
  load_action : LoadAction
}.

Inductive CheckOutcome :=
  | CheckValid
  | CheckInvalid (details : string)
  | CheckFailed (details : string).

Inductive CandidateResult :=
  | ResDryRun (diff : string)
  | ResCommitCheck (diff : string) (outcome : CheckOutcome)
  | ResCommitted (diff : string)
  | ResCommitFailed (diff error : string)
  | ResDiscarded.

(** [trait CandidateBackend] *)
Class CandidateBackend {X : External} (B : Type) := {
  be_lock : Future B unit JmcpError;
  be_load : ConfigPayload -> LoadAction -> Future B unit JmcpError;
  be_load_rollback : N -> Future B unit JmcpError;
  be_diff : Future B string JmcpError;
  be_commit_check : Future B unit JmcpError;
  be_commit_with_comment : string -> Future B unit JmcpError;
  be_commit_confirmed : N -> Future B unit JmcpError;
  be_rollback : Future B unit JmcpError;
  be_unlock : Future B unit JmcpError
}.

Section transaction.
Context {X : External}.

Definition is_config_rejection (tag : ErrorTag) : bool :=
  match tag with
  | OperationFailed | InvalidValue | MissingElement | BadElement | UnknownElement
  | MissingAttribute | BadAttribute | UnknownAttribute | DataMissing | DataExists => true
  | TagOther => false
  end.

Definition classify_check_error (error : JmcpError) : CheckOutcome :=
  match error with
  | Rustez e =>
      match rustez_view e with
      | RzNetconf (NetconfRpc (RpcServerError tag)) =>
          if is_config_rejection tag then CheckInvalid (to_string error)
          else CheckFailed (to_string error)
      | _ => CheckFailed (to_string error)
      end
  | _ => CheckFailed (to_string error)
  end.

Record Execution := { result : Result CandidateResult JmcpError; reusable : bool }.

Record CleanupFailures := { cf_rollback : option string; cf_unlock : option string }.
Definition cleanup_is_empty (c : CleanupFailures) : bool :=
  match cf_rollback c, cf_unlock c with None, None => true | _, _ => false end.

Definition combine (outcome : Result CandidateResult JmcpError)
    (cleanup : CleanupFailures) (reported_primary : option string)
  : Result CandidateResult JmcpError :=
  if cleanup_is_empty cleanup then outcome else
  let primary :=
    match outcome with
    | Err error => to_string error
    | Ok _ => default "none" reported_primary
    end in
  Err (CandidateCleanupFailed primary
         (default "ok" (cf_rollback cleanup)) (default "ok" (cf_unlock cleanup))).

Context {B : Type} `{!CandidateBackend B}.

Definition cleanup_step (limit : N) (future : Future B unit JmcpError) (w : World B)
  : Result unit string * World B :=
  match timeout limit future w with
  | (Some r, w') => (map_err to_string r, w')
  | (None, w') => (Err ("cleanup timed out after " ^^ duration_debug limit), w')
  end.

Definition cleanup (rollback_required : bool) (limit : N) (w : World B)
  : CleanupFailures * World B :=
  let '(rb, w) :=
    if rollback_required then
      let '(r, w) := cleanup_step limit be_rollback w in (result_err r, w)
    else (None, w) in
  let '(ul, w) := cleanup_step limit be_unlock w in
  ({| cf_rollback := rb; cf_unlock := result_err ul |}, w).

(** A sent commit is awaited without a deadline; the flag is the code's
    [committed] out-parameter. *)
Definition commit_arm (deadline operation_timeout : N) (diff : string)
    (commit : Future B unit JmcpError) (w : World B)
  : Result CandidateResult JmcpError * bool * World B :=
  match ensure_active deadline operation_timeout w with
  | Err e => (Err e, false, w)
  | Ok _ =>
      match await commit w with
      | (Ok _, w) => (Ok (ResCommitted diff), true, w)
      | (Err error, w) => (Ok (ResCommitFailed diff (to_string error)), false, w)
      end
  end.

Definition load_step (request : CandidateRequest) (deadline operation_timeout : N)
    (w : World B) : Result unit JmcpError * World B :=
  match rollback_source request with
  | Some version => run_step deadline operation_timeout (be_load_rollback version) w
  | None =>
      match payload request with
      | None => (Err (Validation "candidate transaction requires a configuration payload"), w)
      | Some p => run_step deadline operation_timeout (be_load p (load_action request)) w
      end
  end.

(** [unreachable!] of the source: a panic, never reached from [execute]. *)
Definition unreachable_discard : Result CandidateResult JmcpError :=
  Err (Validation "Discard is fully handled in execute() before primary_operation").

Definition primary_operation (request : CandidateRequest)
    (deadline operation_timeout : N) (w : World B)
  : Result CandidateResult JmcpError * bool * World B :=
  match load_step request deadline operation_timeout w with
  | (Err e, w) => (Err e, false, w)
  | (Ok _, w) =>
  match run_step deadline operation_timeout be_diff w with
  | (Err e, w) => (Err e, false, w)
  | (Ok diff, w) =>
  match mode request with
  | DryRun => (Ok (ResDryRun diff), false, w)
  | CommitCheck =>
      match run_step deadline operation_timeout be_commit_check w with
      | (Ok _, w) => (Ok (ResCommitCheck diff CheckValid), false, w)
      | (Err error, w) =>
          if is_interruption error then (Err error, false, w)
          else (Ok (ResCommitCheck diff (classify_check_error error)), false, w)
      end
  | CommitWithComment comment =>
      commit_arm deadline operation_timeout diff (be_commit_with_comment comment) w
  | CommitConfirmed seconds =>
      commit_arm deadline operation_timeout diff (be_commit_confirmed seconds) w
  | Discard => (unreachable_discard, false, w)
  end end end.

Definition reported_primary (outcome : Result CandidateResult JmcpError) : option string :=
  match outcome with
  | Ok (ResCommitted _) => Some "commit succeeded"
  | Ok (ResCommitCheck _ (CheckInvalid error | CheckFailed error))
  | Ok (ResCommitFailed _ error) => Some error
  | _ => None
  end.

Definition primary_rpc_was_dropped (outcome : Result CandidateResult JmcpError) : bool :=
  match outcome with Err e => is_interruption e | Ok _ => false end.

Definition execute (request : CandidateRequest)
    (deadline operation_timeout cleanup_timeout : N) (w : World B)
  : Execution * World B :=
  match mode request with
  | Discard =>
      match run_step deadline operation_timeout be_rollback w with
      | (Ok _, w) => ({| result := Ok ResDiscarded; reusable := true |}, w)
      | (Err error, w) => ({| result := Err error; reusable := false |}, w)
      end
  | _ =>
      match run_step deadline operation_timeout be_lock w with
      | (Err primary, w) =>
          if is_interruption primary then
            let '(c, w) := cleanup true cleanup_timeout w in
            ({| result := combine (Err primary) c None; reusable := false |}, w)
          else ({| result := Err primary; reusable := false |}, w)
      | (Ok _, w) =>
          let '(outcome, committed, w) :=
            primary_operation request deadline operation_timeout w in
          let '(c, w) := cleanup (negb committed) cleanup_timeout w in
          ({| result := combine outcome c (reported_primary outcome);
              reusable := cleanup_is_empty c && negb (primary_rpc_was_dropped outcome) |}, w)
      end
  end.

End transaction.
