(* ===== verification/CandidateSpec.v ===== *)
(** * What a candidate transaction promises

    The properties of [CandidateTransaction]: the calls it makes and their
    order, against any backend; that only a commit changes the running
    configuration, and that a session reported reusable holds no lock and no
    staged change; and how long it may take. *)

From S2P Require Import Prelude RustStr Fmt Errors Helpers Async CandidateTransaction.

Inductive Op :=
  | OpLock | OpLoad | OpLoadRollback | OpDiff | OpCheck | OpCommit
  | OpRollback | OpUnlock.
(** How a call ended: with success, with an error, or dropped half-way. *)
Inductive Ending := EndOk | EndErr | EndDropped.
Abbreviation Event := (Op * Ending)%type.

#[export] Instance Op_eq_dec : EqDecision Op.
Proof. solve_decision. Defined.
#[export] Instance Ending_eq_dec : EqDecision Ending.
Proof. solve_decision. Defined.

Definition ending {T E} (r : Result T E) : Ending :=
  match r with Ok _ => EndOk | Err _ => EndErr end.

(** [execute] branches on the discard mode first. *)
Lemma match_not_discard {A} (m : CandidateMode) (a b : A) :
  m <> Discard -> match m with Discard => a | _ => b end = b.
Proof. by destruct m. Qed.

(** ** A backend that records its calls *)

Section logged.
Context {X : External} {B : Type} `{!CandidateBackend B}.

Definition Logged : Type := (list Event * B)%type.

Definition log_call {T} (op : Op) (f : Future B T JmcpError)
  : Future Logged T JmcpError :=
  fun '(l, b) =>
    let r := f b in
    mk_rpc (rpc_time r) (rpc_result r) (l ++ [(op, ending (rpc_result r))], rpc_state r)
           (fun k => (l ++ [(op, EndDropped)], rpc_dropped r k)).

#[export] Instance logged_backend : CandidateBackend Logged := {|
  be_lock := log_call OpLock be_lock;
  be_load p a := log_call OpLoad (be_load p a);
  be_load_rollback n := log_call OpLoadRollback (be_load_rollback n);
  be_diff := log_call OpDiff be_diff;
  be_commit_check := log_call OpCheck be_commit_check;
  be_commit_with_comment c := log_call OpCommit (be_commit_with_comment c);
  be_commit_confirmed s := log_call OpCommit (be_commit_confirmed s);
  be_rollback := log_call OpRollback be_rollback;
  be_unlock := log_call OpUnlock be_unlock
|}.

Definition log_of (w : World Logged) : list Event := fst (w_backend w).

(** ** The protocol *)

(** A run of planned calls that stops at the first one that does not succeed. *)
Inductive Staged : list Op -> list Event -> Prop :=
  | staged_nil ops : Staged ops []
  | staged_stop o ops e : e <> EndOk -> Staged (o :: ops) [(o, e)]
  | staged_go o ops evs : Staged ops evs -> Staged (o :: ops) ((o, EndOk) :: evs).

Definition load_op (req : CandidateRequest) : Op :=
  match rollback_source req with Some _ => OpLoadRollback | None => OpLoad end.
Definition final_ops (m : CandidateMode) : list Op :=
  match m with
  | CommitCheck => [OpCheck]
  | CommitWithComment _ | CommitConfirmed _ => [OpCommit]
  | DryRun | Discard => []
  end.
Definition planned_ops (req : CandidateRequest) : list Op :=
  load_op req :: OpDiff :: final_ops (mode req).

Definition commit_landed (body : list Event) : Prop := (OpCommit, EndOk) ∈ body.
Definition commit_never_dropped (body : list Event) : Prop :=
  (OpCommit, EndDropped) ∉ body.

(** The calls of one transaction and what its [Execution] may say about them. *)
Inductive Conforms (req : CandidateRequest) : list Event -> Execution -> Prop :=
  | conf_discard evs ex :
      mode req = Discard ->
      evs = [] \/ (exists e, evs = [(OpRollback, e)]) ->
      (reusable ex = true -> evs = [(OpRollback, EndOk)]) ->
      (is_ok (result ex) = true -> reusable ex = true) ->
      Conforms req evs ex
  | conf_lock_failed ex :
      mode req <> Discard ->
      reusable ex = false -> is_ok (result ex) = false ->
      Conforms req [(OpLock, EndErr)] ex
  | conf_lock_unknown tried x y ex :
      mode req <> Discard ->
      tried = [] \/ (exists e, e <> EndOk /\ tried = [(OpLock, e)]) ->
      reusable ex = false -> is_ok (result ex) = false ->
      Conforms req (tried ++ [(OpRollback, x); (OpUnlock, y)]) ex
  | conf_locked body undo y ex :
      mode req <> Discard ->
      Staged (planned_ops req) body -> commit_never_dropped body ->
      (commit_landed body /\ undo = []) \/
      (~ commit_landed body /\ exists x, undo = [(OpRollback, x)]) ->
      (reusable ex = true \/ is_ok (result ex) = true ->
         y = EndOk /\ Forall (fun ev => ev.2 = EndOk) undo) ->
      Conforms req ((OpLock, EndOk) :: body ++ undo ++ [(OpUnlock, y)]) ex.

Lemma run_step_log {T} d t op (f : Future B T JmcpError) w r w' :
  run_step d t (log_call op f) w = (r, w') ->
  exists evs, log_of w' = log_of w ++ evs /\
   ((evs = [] /\ exists e, r = Err e /\ is_interruption e = true) \/
    (evs = [(op, ending r)]) \/
    (evs = [(op, EndDropped)] /\ exists e, r = Err e /\ is_interruption e = true)).
Proof.
  intros H. apply run_step_spec in H as [[-> He]|[[Hb ->]|(k & e & Hb & -> & He)]].
  - exists []. rewrite app_nil_r. eauto.
  - exists [(op, ending (rpc_result (f (w_backend w).2)))].
    unfold log_of. rewrite Hb. destruct (w_backend w). cbn. eauto.
  - exists [(op, EndDropped)]. unfold log_of. rewrite Hb.
    destruct (w_backend w). cbn. eauto 10.
Qed.

(** A planned call that succeeds, and one that does not. *)
Lemma run_step_log_ok {T} d t op (f : Future B T JmcpError) w x w' :
  run_step d t (log_call op f) w = (Ok x, w') -> log_of w' = log_of w ++ [(op, EndOk)].
Proof.
  intros H. apply run_step_log in H as (evs & -> & [(_ & e & [=] & _)|[->|(_ & e & [=] & _)]]).
  done.
Qed.

Lemma run_step_log_err {T} d t op (f : Future B T JmcpError) w e w' :
  run_step d t (log_call op f) w = (Err e, w') ->
  log_of w' = log_of w \/ (exists x, x <> EndOk /\ log_of w' = log_of w ++ [(op, x)]).
Proof.
  intros H. apply run_step_log in H as (evs & -> & [(-> & _)|[->|(-> & _)]]).
  - left. apply app_nil_r.
  - right. by exists EndErr.
  - right. by exists EndDropped.
Qed.

Lemma cleanup_step_log l op (f : Future B unit JmcpError) w r w' :
  cleanup_step l (log_call op f) w = (r, w') ->
  exists x, log_of w' = log_of w ++ [(op, x)] /\ (x = EndOk <-> is_ok r = true).
Proof.
  unfold cleanup_step. destruct (timeout _ _ _) as [o w1] eqn:Ht.
  apply timeout_spec in Ht as [[-> Hb]|[-> Hb]]; intros [= <- <-];
    unfold log_of; rewrite Hb; destruct (w_backend w) as [l0 b]; cbn.
  - eexists. split; [done|]. destruct (rpc_result (f b)); by split.
  - eexists. split; [done|]. by split.
Qed.

Lemma result_err_none {T E} (r : Result T E) : result_err r = None <-> is_ok r = true.
Proof. by destruct r. Qed.

Lemma cleanup_log rb l w c w' :
  cleanup rb l w = (c, w') ->
  exists undo y, log_of w' = log_of w ++ undo ++ [(OpUnlock, y)] /\
    (if rb then exists x, undo = [(OpRollback, x)] else undo = []) /\
    (cleanup_is_empty c = true -> y = EndOk /\ Forall (fun ev => ev.2 = EndOk) undo).
Proof.
  unfold cleanup. intros H. destruct rb.
  - destruct (cleanup_step l be_rollback w) as [r1 w1] eqn:H1.
    destruct (cleanup_step l be_unlock w1) as [r2 w2] eqn:H2. simplify_eq/=.
    apply cleanup_step_log in H1 as (x & Hl1 & Hx).
    apply cleanup_step_log in H2 as (y & Hl2 & Hy).
    exists [(OpRollback, x)], y. rewrite Hl2, Hl1, <- app_assoc.
    split; [done|]. split; [by eexists|]. unfold cleanup_is_empty. cbn.
    destruct r1, r2; cbn in *; try done. intros _.
    split; [by apply Hy|]. repeat constructor. by apply Hx.
  - destruct (cleanup_step l be_unlock w) as [r2 w2] eqn:H2. simplify_eq/=.
    apply cleanup_step_log in H2 as (y & Hl2 & Hy).
    exists [], y. rewrite Hl2. split; [done|]. split; [done|].
    unfold cleanup_is_empty. cbn. destruct r2; cbn in *; try done.
    intros _. split; [by apply Hy|constructor].
Qed.

Lemma commit_arm_log d t diff (f : Future B unit JmcpError) w o c w' :
  commit_arm d t diff (log_call OpCommit f) w = (o, c, w') ->
  (c = false /\ log_of w' = log_of w) \/
  (c = true /\ log_of w' = log_of w ++ [(OpCommit, EndOk)]) \/
  (c = false /\ log_of w' = log_of w ++ [(OpCommit, EndErr)]).
Proof.
  unfold commit_arm, await, log_of. intros H.
  destruct (ensure_active d t w); simplify_eq/=; [|by left].
  destruct (w_backend w) as [l b]. cbn in *.
  destruct (rpc_result (f b)); simplify_eq/=; auto.
Qed.

Definition body_outcome (req : CandidateRequest) (body : list Event) (committed : bool) : Prop :=
  Staged (planned_ops req) body /\ commit_never_dropped body /\
  (if committed then commit_landed body else ~ commit_landed body).

(** Closes a [body_outcome] goal about a list of calls written out. *)
Ltac body_solve :=
  unfold body_outcome, commit_never_dropped, commit_landed, planned_ops, load_op in *;
  split_and!; [by repeat constructor|try case_match; set_solver..].

Lemma load_step_log req d t w r w' :
  load_step req d t w = (r, w') ->
  match r with
  | Ok _ => log_of w' = log_of w ++ [(load_op req, EndOk)]
  | Err _ => log_of w' = log_of w \/
      exists x, x <> EndOk /\ log_of w' = log_of w ++ [(load_op req, x)]
  end.
Proof.
  unfold load_step, load_op. intros H.
  destruct (rollback_source req); [|destruct (payload req); simplify_eq/=; [|by left]];
    (destruct r; [by apply run_step_log_ok in H|by apply run_step_log_err in H]).
Qed.

Lemma commit_body req d t diff (f : Future B unit JmcpError) w o c w' hd :
  (forall evs (c0 : bool), Staged [OpCommit] evs -> commit_never_dropped evs ->
     (if c0 then commit_landed evs else ~ commit_landed evs) ->
     body_outcome req (hd ++ evs) c0) ->
  body_outcome req hd false ->
  commit_arm d t diff (log_call OpCommit f) w = (o, c, w') ->
  forall pre, log_of w = pre ++ hd ->
  exists body, log_of w' = pre ++ body /\ body_outcome req body c.
Proof.
  intros Hgo Hstop H pre Hw.
  apply commit_arm_log in H as [[-> ->]|[[-> ->]|[-> ->]]]; rewrite Hw, <- ?app_assoc;
    eexists; (split; [done|]); [done|..];
    (apply Hgo; [by repeat constructor|unfold commit_never_dropped, commit_landed; set_solver..]).
Qed.

Lemma primary_operation_log req d t w o c w' :
  mode req <> Discard ->
  primary_operation req d t w = (o, c, w') ->
  exists body, log_of w' = log_of w ++ body /\ body_outcome req body c.
Proof.
  intros Hm. unfold primary_operation.
  destruct (load_step req d t w) as [[u|e] w1] eqn:Hl; apply load_step_log in Hl.
  2:{ intros [= <- <- <-]. destruct Hl as [->|(x & Hx & ->)].
      - exists []. rewrite app_nil_r. split; [done|]. body_solve.
      - eexists. split; [done|]. body_solve. }
  destruct (run_step d t be_diff w1) as [[diff|e] w2] eqn:Hd.
  2:{ intros [= <- <- <-]. apply run_step_log_err in Hd as [->|(x & Hx & ->)]; rewrite Hl.
      - eexists. split; [done|]. body_solve.
      - rewrite <- app_assoc. eexists. split; [done|]. body_solve. }
  apply run_step_log_ok in Hd. rewrite Hl, <- app_assoc in Hd. cbn in Hd.
  assert (Hgo : forall evs (c0 : bool),
    Staged (final_ops (mode req)) evs -> commit_never_dropped evs ->
    (if c0 then commit_landed evs else ~ commit_landed evs) ->
    body_outcome req ((load_op req, EndOk) :: (OpDiff, EndOk) :: evs) c0).
  { intros evs c0 H1 H2 H3. unfold body_outcome, planned_ops. split; [by repeat constructor|].
    unfold commit_never_dropped, commit_landed, load_op in *.
    destruct c0; case_match; set_solver. }
  assert (Hstop : body_outcome req [(load_op req, EndOk); (OpDiff, EndOk)] false).
  { apply Hgo; [constructor|unfold commit_never_dropped, commit_landed; set_solver..]. }
  destruct (mode req) eqn:Hmode; cbn [final_ops] in Hgo.
  - intros [= <- <- <-]. by eexists.
  - destruct (run_step d t be_commit_check w2) as [r w3] eqn:Hc. intros H.
    assert (c = false /\ w' = w3) as [-> ->] by (repeat case_match; by simplify_eq).
    apply run_step_log in Hc as (evs & -> & Hevs). rewrite Hd, <- app_assoc.
    eexists. split; [done|]. destruct Hevs as [(-> & _)|[->|(-> & _)]]; [done|..];
      (apply Hgo; [|unfold commit_never_dropped, commit_landed; set_solver..]).
    + destruct r; by repeat constructor.
    + by repeat constructor.
  - intros H. by apply (commit_body req _ _ _ _ _ _ _ _
      [(load_op req, EndOk); (OpDiff, EndOk)] Hgo Hstop H).
  - intros H. by apply (commit_body req _ _ _ _ _ _ _ _
      [(load_op req, EndOk); (OpDiff, EndOk)] Hgo Hstop H).
  - done.
Qed.

Lemma run_cleanup_unknown l w c w' :
  cleanup true l w = (c, w') ->
  exists x y, log_of w' = log_of w ++ [(OpRollback, x); (OpUnlock, y)].
Proof. intros H. apply cleanup_log in H as (u & y & Hl & [x ->] & _). by exists x, y. Qed.

Lemma combine_ok o c p :
  is_ok (combine o c p) = true -> cleanup_is_empty c = true.
Proof. unfold combine. by destruct (cleanup_is_empty c). Qed.

(** C1: the protocol of a candidate transaction, against every backend, under
    every interleaving of errors, deadline and cancellation: nothing is loaded,
    checked or committed outside the lock; load, diff and check or commit run
    in that order and stop at the first failure; a commit that was sent is
    never dropped; once the lock was taken the candidate is rolled back unless
    a commit landed, and the lock is always released; and a transaction that
    reports success, or a reusable session, had all of that clean-up succeed. *)
Theorem execute_protocol req d t l w ex w' :
  log_of w = [] -> execute req d t l w = (ex, w') -> Conforms req (log_of w') ex.
Proof.
  intros Hw. unfold execute. destruct (decide (mode req = Discard)) as [Hm|Hm].
  { rewrite Hm. destruct (run_step d t be_rollback w) as [[u|e] w1] eqn:Hs;
      intros [= <- <-].
    - apply run_step_log_ok in Hs. rewrite Hs, Hw. apply conf_discard; cbn; eauto.
    - apply run_step_log_err in Hs as [->|(x & _ & ->)]; rewrite Hw;
        apply conf_discard; cbn; eauto; done. }
  rewrite match_not_discard by done. destruct (run_step d t be_lock w) as [[u|e] w1] eqn:Hs.
  - apply run_step_log_ok in Hs.
    destruct (primary_operation req d t w1) as [[o c] w2] eqn:Hp.
    apply primary_operation_log in Hp as (body & Hl2 & Hst & Hnd & Hc); [|done].
    destruct (cleanup (negb c) l w2) as [cf w3] eqn:Hcl.
    apply cleanup_log in Hcl as (undo & y & Hl3 & Hu & Hclean).
    intros [= <- <-]. rewrite Hl3, Hl2, Hs, Hw, <- !app_assoc. cbn [app].
    apply conf_locked; [done..| |].
    + destruct c; cbn in Hu; [left|right]; by split.
    + cbn [reusable result]. intros [H|H].
      * by apply andb_true_iff in H as [H%Hclean _].
      * by apply combine_ok in H as H%Hclean.
  - apply run_step_log in Hs as (evs & Hl1 & Hevs). rewrite Hw in Hl1. cbn in Hl1.
    destruct (is_interruption e) eqn:Hi.
    + destruct (cleanup true l w1) as [cf w2] eqn:Hcl. intros [= <- <-].
      apply run_cleanup_unknown in Hcl as (x & y & ->). rewrite Hl1.
      apply conf_lock_unknown; [done| |done|].
      * destruct Hevs as [(-> & _)|[->|(-> & _)]]; [by left|right; eexists; split; [|done]; done..].
      * unfold combine. by destruct (cleanup_is_empty cf).
    + intros [= <- <-]. rewrite Hl1.
      destruct Hevs as [(_ & e' & [= <-] & ?)|[->|(_ & e' & [= <-] & ?)]]; [congruence| |congruence].
      by apply conf_lock_failed.
Qed.

End logged.

(** ** Effects on the device *)

(** What Junos documents of the candidate operations: only a commit changes the
    running configuration; [rollback 0] reverts the candidate; a successful
    commit leaves no staged change; an acknowledged unlock frees the lock and
    stages nothing. *)
Class CandidateLaws {X : External} (B : Type) `{!CandidateBackend B} := {
  running : B -> string;
  locked : B -> bool;
  dirty : B -> bool;
  lock_running : keeps running be_lock;
  load_running p a : keeps running (be_load p a);
  load_rollback_running n : keeps running (be_load_rollback n);
  diff_running : keeps running be_diff;
  commit_check_running : keeps running be_commit_check;
  rollback_running : keeps running be_rollback;
  unlock_running : keeps running be_unlock;
  rollback_clean b :
    is_ok (rpc_result (be_rollback b)) = true -> dirty (rpc_state (be_rollback b)) = false;
  commit_clean c b :
    is_ok (rpc_result (be_commit_with_comment c b)) = true ->
    dirty (rpc_state (be_commit_with_comment c b)) = false;
  commit_confirmed_clean s b :
    is_ok (rpc_result (be_commit_confirmed s b)) = true ->
    dirty (rpc_state (be_commit_confirmed s b)) = false;
  unlock_free b :
    is_ok (rpc_result (be_unlock b)) = true -> locked (rpc_state (be_unlock b)) = false;
  unlock_clean b : dirty b = false -> dirty (rpc_state (be_unlock b)) = false
}.

#[export] Hint Resolve lock_running load_running load_rollback_running diff_running
  commit_check_running rollback_running unlock_running : jmcp.

Definition commits (m : CandidateMode) : bool :=
  match m with CommitWithComment _ | CommitConfirmed _ => true | _ => false end.

Section effects.
Context {X : External} {B : Type} `{!CandidateBackend B}.

Lemma run_step_keeps {A T} (obs : B -> A) d t (f : Future B T JmcpError) w r w' :
  keeps obs f -> run_step d t f w = (r, w') ->
  obs (w_backend w') = obs (w_backend w).
Proof.
  intros Hk H. destruct (Hk (w_backend w)) as [H1 H2].
  apply run_step_spec in H as [[-> _]|[[-> _]|(k & e & -> & _)]]; auto.
Qed.

Lemma timeout_keeps {A T E} (obs : B -> A) l (f : Future B T E) w r w' :
  keeps obs f -> timeout l f w = (r, w') -> obs (w_backend w') = obs (w_backend w).
Proof.
  intros Hk H. destruct (Hk (w_backend w)) as [H1 H2].
  apply timeout_spec in H as [[_ ->]|[_ ->]]; auto.
Qed.

Lemma cleanup_step_keeps {A} (obs : B -> A) l f w r w' :
  keeps obs f -> cleanup_step l f w = (r, w') -> obs (w_backend w') = obs (w_backend w).
Proof.
  intros Hk. unfold cleanup_step. destruct (timeout l f w) as [o w1] eqn:Ht.
  apply (timeout_keeps obs) in Ht; [|done]. destruct o; intros [= _ <-]; done.
Qed.

Lemma cleanup_keeps {A} (obs : B -> A) rb l w c w' :
  keeps obs be_rollback -> keeps obs be_unlock ->
  cleanup rb l w = (c, w') -> obs (w_backend w') = obs (w_backend w).
Proof.
  intros Hr Hu. unfold cleanup. destruct rb.
  - destruct (cleanup_step l be_rollback w) as [r1 w1] eqn:H1.
    destruct (cleanup_step l be_unlock w1) as [r2 w2] eqn:H2. intros [= _ <-].
    apply (cleanup_step_keeps obs) in H1; [|done].
    apply (cleanup_step_keeps obs) in H2; [|done]. congruence.
  - destruct (cleanup_step l be_unlock w) as [r2 w2] eqn:H2. intros [= _ <-].
    by apply (cleanup_step_keeps obs) in H2.
Qed.

(** Everything a backend's calls leave alone, a transaction leaves alone. *)
Record all_keep {A} (obs : B -> A) : Prop := {
  ak_lock : keeps obs be_lock;
  ak_load p a : keeps obs (be_load p a);
  ak_load_rollback n : keeps obs (be_load_rollback n);
  ak_diff : keeps obs be_diff;
  ak_commit_check : keeps obs be_commit_check;
  ak_commit_with_comment c : keeps obs (be_commit_with_comment c);
  ak_commit_confirmed s : keeps obs (be_commit_confirmed s);
  ak_rollback : keeps obs be_rollback;
  ak_unlock : keeps obs be_unlock
}.

Lemma commit_arm_keeps {A} (obs : B -> A) d t df f (w : World B) o c w' :
  keeps obs f -> commit_arm d t df f w = (o, c, w') -> obs (w_backend w') = obs (w_backend w).
Proof.
  intros Hk. unfold commit_arm, await. destruct (ensure_active d t w); [|by intros [= _ _ <-]].
  destruct (Hk (w_backend w)) as [H _]. destruct (rpc_result (f (w_backend w))); by intros [= _ _ <-].
Qed.

Lemma primary_operation_keeps {A} (obs : B -> A) req d t w o c w' :
  all_keep obs -> primary_operation req d t w = (o, c, w') ->
  obs (w_backend w') = obs (w_backend w).
Proof.
  intros Hk. unfold primary_operation.
  destruct (load_step req d t w) as [r1 w1] eqn:H1.
  assert (E1 : obs (w_backend w1) = obs (w_backend w)).
  { revert H1. unfold load_step. repeat case_match; intros H1; simplify_eq; try done;
      (eapply run_step_keeps; [|done]); apply Hk. }
  destruct r1; [|by intros [= _ _ <-]].
  destruct (run_step d t be_diff w1) as [r2 w2] eqn:H2.
  apply (run_step_keeps obs) in H2; [|apply Hk].
  destruct r2 as [df|]; [|intros [= _ _ <-]; congruence].
  destruct (mode req); try (intros [= _ _ <-]; congruence).
  - destruct (run_step d t be_commit_check w2) as [r3 w3] eqn:H3.
    apply (run_step_keeps obs) in H3; [|apply Hk].
    intros H. assert (w' = w3) as -> by (repeat case_match; by simplify_eq). congruence.
  - intros H. apply (commit_arm_keeps obs) in H; [congruence|apply Hk].
  - intros H. apply (commit_arm_keeps obs) in H; [congruence|apply Hk].
Qed.

Lemma execute_keeps {A} (obs : B -> A) req d t l w ex w' :
  all_keep obs -> execute req d t l w = (ex, w') -> obs (w_backend w') = obs (w_backend w).
Proof.
  intros Hk. unfold execute. destruct (decide (mode req = Discard)) as [Hd|Hd].
  { rewrite Hd. destruct (run_step d t be_rollback w) as [r w1] eqn:H1.
    apply (run_step_keeps obs) in H1; [|apply Hk].
    intros H. assert (w' = w1) as -> by (case_match; by simplify_eq). done. }
  rewrite match_not_discard by done. destruct (run_step d t be_lock w) as [[u|e] w1] eqn:H1;
    (apply (run_step_keeps obs) in H1; [|apply Hk]).
  - destruct (primary_operation req d t w1) as [[o c] w2] eqn:H2.
    destruct (cleanup (negb c) l w2) as [cf w3] eqn:H3. intros [= _ <-].
    apply (primary_operation_keeps obs) in H2; [|done].
    apply (cleanup_keeps obs) in H3; [congruence|apply Hk..].
  - destruct (is_interruption e).
    + destruct (cleanup true l w1) as [cf w2] eqn:H2. intros [= _ <-].
      apply (cleanup_keeps obs) in H2; [congruence|apply Hk..].
    + intros [= _ <-]. done.
Qed.

Section laws.
Context `{!CandidateLaws B}.

Lemma load_step_running req d t w r w' :
  load_step req d t w = (r, w') -> running (w_backend w') = running (w_backend w).
Proof.
  unfold load_step. repeat case_match; intros H'; simplify_eq; try done;
    (eapply run_step_keeps; [|done]; auto with jmcp).
Qed.

Lemma primary_operation_running req d t w o c w' :
  commits (mode req) = false -> primary_operation req d t w = (o, c, w') ->
  running (w_backend w') = running (w_backend w).
Proof.
  intros Hm. unfold primary_operation.
  destruct (load_step req d t w) as [[u|e] w1] eqn:H1; apply load_step_running in H1;
    [|intros; by simplify_eq].
  destruct (run_step d t be_diff w1) as [[df|e] w2] eqn:H2;
    apply (run_step_keeps running) in H2; auto with jmcp; [|intros; by simplify_eq; congruence].
  destruct (mode req); try done; [intros; simplify_eq; congruence| |intros; simplify_eq; congruence].
  destruct (run_step d t be_commit_check w2) as [r w3] eqn:H3.
  apply (run_step_keeps running) in H3; auto with jmcp.
  intros H. assert (w' = w3) as -> by (repeat case_match; by simplify_eq). congruence.
Qed.

Lemma execute_keeps_running req d t l w ex w' :
  commits (mode req) = false -> execute req d t l w = (ex, w') ->
  running (w_backend w') = running (w_backend w).
Proof.
  intros Hm. unfold execute. destruct (decide (mode req = Discard)) as [Hd|Hd].
  { rewrite Hd. destruct (run_step d t be_rollback w) as [r w1] eqn:H1.
    apply (run_step_keeps running) in H1; auto with jmcp.
    intros H. assert (w' = w1) as -> by (case_match; by simplify_eq). done. }
  rewrite match_not_discard by done. destruct (run_step d t be_lock w) as [[u|e] w1] eqn:H1;
    apply (run_step_keeps running) in H1; auto with jmcp.
  - destruct (primary_operation req d t w1) as [[o c] w2] eqn:H2.
    destruct (cleanup (negb c) l w2) as [cf w3] eqn:H3. intros [= _ <-].
    apply primary_operation_running in H2; [|done].
    apply (cleanup_keeps running) in H3; auto with jmcp. congruence.
  - destruct (is_interruption e).
    + destruct (cleanup true l w1) as [cf w2] eqn:H2. intros [= _ <-].
      apply (cleanup_keeps running) in H2; auto with jmcp. congruence.
    + intros [= _ <-]. done.
Qed.

(** A dry run, a commit check and a discard never change the running
    configuration, whatever fails, times out or is cancelled on the way. *)
Theorem execute_never_commits req d t l w ex w' :
  commits (mode req) = false -> execute req d t l w = (ex, w') ->
  running (w_backend w') = running (w_backend w).
Proof. apply execute_keeps_running. Qed.

Lemma commit_arm_committed d t df f (w : World B) o w' :
  (forall b, is_ok (rpc_result (f b)) = true -> dirty (rpc_state (f b)) = false) ->
  commit_arm d t df f w = (o, true, w') -> dirty (w_backend w') = false.
Proof.
  intros Hf. unfold commit_arm, await. destruct (ensure_active d t w); [|done].
  specialize (Hf (w_backend w)). destruct (rpc_result (f (w_backend w))); [|done].
  intros [= _ <-]. by apply Hf.
Qed.

Lemma primary_operation_committed req d t w o w' :
  primary_operation req d t w = (o, true, w') -> dirty (w_backend w') = false.
Proof.
  unfold primary_operation.
  destruct (load_step req d t w) as [[u|e] w1]; [|done].
  destruct (run_step d t be_diff w1) as [[df|e] w2]; [|done].
  destruct (mode req); try done.
  - destruct (run_step d t be_commit_check w2) as [[v|e] w3]; [done|].
    by destruct (is_interruption e).
  - apply commit_arm_committed, commit_clean.
  - apply commit_arm_committed, commit_confirmed_clean.
Qed.

Lemma cleanup_clean rb l w c w' :
  cleanup rb l w = (c, w') -> cleanup_is_empty c = true ->
  (rb = false -> dirty (w_backend w) = false) ->
  dirty (w_backend w') = false /\ locked (w_backend w') = false.
Proof.
  assert (Hok : forall f (w : World B) r w1, cleanup_step l f w = (r, w1) -> result_err r = None ->
    is_ok (rpc_result (f (w_backend w))) = true /\
    w_backend w1 = rpc_state (f (w_backend w))).
  { intros f w0 r w1. unfold cleanup_step. destruct (timeout l f w0) as [o w2] eqn:Ht.
    apply timeout_spec in Ht as [[-> Hb]|[-> Hb]]; intros [= <- <-]; [|done].
    rewrite Hb. by destruct (rpc_result _). }
  unfold cleanup, cleanup_is_empty. destruct rb.
  - destruct (cleanup_step l be_rollback w) as [r1 w1] eqn:H1.
    destruct (cleanup_step l be_unlock w1) as [r2 w2] eqn:H2. intros [= <- <-]. cbn.
    destruct (result_err r1) eqn:E1; [done|]. destruct (result_err r2) eqn:E2; [done|].
    intros _ _. destruct (Hok _ _ _ _ H1 E1) as [K1 B1], (Hok _ _ _ _ H2 E2) as [K2 B2].
    rewrite B2. split; [|by apply unlock_free]. apply unlock_clean. rewrite B1.
    by apply rollback_clean.
  - destruct (cleanup_step l be_unlock w) as [r2 w2] eqn:H2. intros [= <- <-]. cbn.
    destruct (result_err r2) eqn:E2; [done|]. intros _ Hd.
    destruct (Hok _ _ _ _ H2 E2) as [K2 B2]. rewrite B2.
    split; [apply unlock_clean; auto|by apply unlock_free].
Qed.

(** A session handed back as reusable carries no staged change, and (except
    for a discard, which never locks) holds no configuration lock: pooling it
    cannot hand one caller's candidate or lock to the next. *)
Lemma execute_reusable_is_clean req d t l w ex w' :
  execute req d t l w = (ex, w') -> reusable ex = true ->
  dirty (w_backend w') = false /\
  (mode req <> Discard -> locked (w_backend w') = false).
Proof.
  unfold execute. destruct (decide (mode req = Discard)) as [Hd|Hd].
  { rewrite Hd. destruct (run_step d t be_rollback w) as [[u|e] w1] eqn:H1;
      intros [= <- <-]; [|done]. intros _. split; [|done].
    apply run_step_spec in H1 as [(_ & e & [=] & _)|[[-> Hr]|(k & e & _ & [=] & _)]].
    apply rollback_clean. by rewrite <- Hr. }
  rewrite match_not_discard by done. destruct (run_step d t be_lock w) as [[u|e] w1] eqn:H1.
  - destruct (primary_operation req d t w1) as [[o c] w2] eqn:H2.
    destruct (cleanup (negb c) l w2) as [cf w3] eqn:H3. intros [= <- <-]. cbn.
    intros [Hc _]%andb_true_iff. apply cleanup_clean in H3 as [H4 H5]; [done|done|].
    destruct c; [|done]. intros _. by apply primary_operation_committed in H2.
  - destruct (is_interruption e); [destruct (cleanup true l w1)|]; by intros [= <- <-].
Qed.

End laws.

(** ** Time *)

Lemma cleanup_time rb l (w : World B) c w' :
  cleanup rb l w = (c, w') -> (w_now w <= w_now w' <= w_now w + 2 * l)%N.
Proof.
  assert (Hst : forall f (w : World B) r w1, cleanup_step l f w = (r, w1) ->
    (w_now w <= w_now w1 <= w_now w + l)%N).
  { intros f w0 r w1. unfold cleanup_step. destruct (timeout l f w0) as [o w2] eqn:Ht.
    apply timeout_time in Ht as [Ht _]. destruct o; by intros [= _ <-]. }
  unfold cleanup. destruct rb.
  - destruct (cleanup_step l be_rollback w) as [r1 w1] eqn:H1.
    destruct (cleanup_step l be_unlock w1) as [r2 w2] eqn:H2. intros [= _ <-].
    apply Hst in H1, H2. lia.
  - destruct (cleanup_step l be_unlock w) as [r2 w2] eqn:H2. intros [= _ <-].
    apply Hst in H2. lia.
Qed.

Lemma primary_operation_time req d t (w : World B) o c w' :
  commits (mode req) = false -> primary_operation req d t w = (o, c, w') ->
  (w_now w <= w_now w' <= N.max (w_now w) d)%N.
Proof.
  intros Hm. unfold primary_operation, load_step.
  repeat (case_match; try discriminate); intros; simplify_eq;
    repeat match goal with
    | H : run_step _ _ _ _ = _ |- _ => apply run_step_time in H as [? _]
    end; lia.
Qed.

(** C13: a transaction that does not commit ends within the operation budget and
    two cleanup budgets, so within [worst_case_duration], however slow the
    device is. *)
Theorem execute_worst_case req op_timeout l (w : World B) ex w' :
  commits (mode req) = false ->
  execute req (w_now w + op_timeout) op_timeout l w = (ex, w') ->
  (w_now w' - w_now w <= op_timeout + 2 * l)%N /\
  (w_now w' - w_now w <= worst_case_duration l op_timeout)%N.
Proof.
  intros Hm. set (d := (w_now w + op_timeout)%N). intros H.
  enough (Hb : (w_now w' <= w_now w + op_timeout + 2 * l)%N)
    by (unfold worst_case_duration, CLEANUP_PHASES; lia).
  revert H. unfold execute. destruct (decide (mode req = Discard)) as [Hd|Hd].
  { rewrite Hd. destruct (run_step d op_timeout be_rollback w) as [r w1] eqn:H1.
    apply run_step_time in H1 as [H1 _].
    intros H. assert (w' = w1) as -> by (case_match; by simplify_eq). lia. }
  rewrite match_not_discard by done. destruct (run_step d op_timeout be_lock w) as [[u|e] w1] eqn:H1;
    apply run_step_time in H1 as [H1 _].
  - destruct (primary_operation req d op_timeout w1) as [[o c] w2] eqn:H2.
    destruct (cleanup (negb c) l w2) as [cf w3] eqn:H3. intros [= _ <-].
    apply primary_operation_time in H2; [|done]. apply cleanup_time in H3. lia.
  - destruct (is_interruption e).
    + destruct (cleanup true l w1) as [cf w2] eqn:H2. intros [= _ <-].
      apply cleanup_time in H2. lia.
    + intros [= _ <-]. lia.
Qed.

End effects.

(** ** A device to run transactions against

    A small Junos: a running and an optional staged configuration, the lock,
    and the time each call takes.  A call dropped part-way has already had its
    effect; the lock and the diff can be set to fail or stall. *)
Module Demo.

Record Junos := mk_junos {
  j_running : string;
  j_staged : option string;
  j_locked : bool;
  j_lock_time : N;
  j_commit_ok : bool
}.

#[export] Existing Instance string_external.

Definition quick {T} (r : Result T JmcpError) (b : Junos) : Rpc Junos T JmcpError :=
  mk_rpc 1 r b (fun _ => b).
Definition with_staged (b : Junos) (s : option string) : Junos :=
  mk_junos (j_running b) s (j_locked b) (j_lock_time b) (j_commit_ok b).
Definition with_lock (b : Junos) (l : bool) : Junos :=
  mk_junos (j_running b) (j_staged b) l (j_lock_time b) (j_commit_ok b).

Definition payload_text (p : ConfigPayload) : string :=
  match p with PayloadSet t | PayloadText t | PayloadXml t => t end.

Definition commit (b : Junos) : Rpc Junos unit JmcpError :=
  if j_commit_ok b
  then quick (Ok tt) (mk_junos (default (j_running b) (j_staged b)) None (j_locked b)
                               (j_lock_time b) (j_commit_ok b))
  else quick (Err (Validation "commit failed")) b.

#[export] Instance junos_backend : CandidateBackend Junos := {|
  be_lock b := mk_rpc (j_lock_time b) (Ok tt) (with_lock b true) (fun _ => with_lock b true);
  be_load p _ b := quick (Ok tt) (with_staged b (Some (payload_text p)));
  be_load_rollback _ b := quick (Ok tt) (with_staged b (Some ""));
  be_diff b := quick (Ok (default "" (j_staged b))) b;
  be_commit_check b := quick (Ok tt) b;
  be_commit_with_comment _ b := commit b;
  be_commit_confirmed _ b := commit b;
  be_rollback b := quick (Ok tt) (with_staged b None);
  be_unlock b := quick (Ok tt) (with_lock b false)
|}.

Definition is_some_b {A} (o : option A) : bool := match o with Some _ => true | None => false end.

Lemma commit_leaves_clean b :
  is_ok (rpc_result (commit b)) = true -> is_some_b (j_staged (rpc_state (commit b))) = false.
Proof. unfold commit. by destruct (j_commit_ok b). Qed.

#[export] Instance junos_laws : CandidateLaws Junos.
Proof.
  refine {| running := j_running; locked := j_locked;
            dirty := fun b => is_some_b (j_staged b) |};
    try (intros; split; [done|by intros]); try done.
  - intros c. apply commit_leaves_clean.
  - intros c. apply commit_leaves_clean.
Defined.

Definition fresh (lock_time : N) (commit_ok : bool) : Junos :=
  mk_junos "old" None false lock_time commit_ok.
Definition start (cancel : option N) (b : Junos) : World (list Event * Junos) :=
  mk_world 0 cancel ([], b).
Definition req (m : CandidateMode) : CandidateRequest :=
  {| payload := Some (PayloadSet "new"); rollback_source := None; mode := m;
     load_action := LoadSet |}.

End Demo.

Section demo.
Import Demo.

Definition demo_run (m : CandidateMode) (cancel : option N) (b : Junos) :=
  execute (req m) 100 100 30 (start cancel b).

(** A commit that lands, one that is refused, and a check whose lock stalls. *)
Example demo_commit :
  let '(ex, w) := demo_run (CommitWithComment "c") None (fresh 1 true) in
  (result ex, reusable ex, log_of w, j_running (w_backend w).2) =
  (Ok (ResCommitted "new"), true,
   [(OpLock, EndOk); (OpLoad, EndOk); (OpDiff, EndOk); (OpCommit, EndOk); (OpUnlock, EndOk)],
   "new").
Proof. vm_compute. reflexivity. Qed.

Example demo_commit_refused :
  let '(ex, w) := demo_run (CommitConfirmed 60) None (fresh 1 false) in
  (result ex, reusable ex, log_of w, j_running (w_backend w).2) =
  (Ok (ResCommitFailed "new" "validation error: commit failed"), true,
   [(OpLock, EndOk); (OpLoad, EndOk); (OpDiff, EndOk); (OpCommit, EndErr);
    (OpRollback, EndOk); (OpUnlock, EndOk)], "old").
Proof. vm_compute. reflexivity. Qed.

Example demo_lock_stalls :
  let '(ex, w) := demo_run CommitCheck None (fresh 1000 true) in
  (result ex, reusable ex, log_of w, w_now w) =
  (Err (Timeout 100), false,
   [(OpLock, EndDropped); (OpRollback, EndOk); (OpUnlock, EndOk)], 102%N).
Proof. vm_compute. reflexivity. Qed.

(** A caller that cancels before the lock is even requested still has the
    shared candidate rolled back and the lock released: calls made without
    ever having held the lock, discarding whatever another user had staged. *)
Example cancelled_before_lock_rolls_back :
  let '(ex, w) := demo_run CommitCheck (Some 0%N)
                    (mk_junos "old" (Some "someone else's change") true 1 true) in
  (log_of w, j_staged (w_backend w).2, j_locked (w_backend w).2) =
  ([(OpRollback, EndOk); (OpUnlock, EndOk)], None, false).
Proof. vm_compute. reflexivity. Qed.

Lemma execute_protocol_witness :
  let r := demo_run (CommitWithComment "c") None (fresh 1 true) in
  is_ok (result r.1) = true /\ Conforms (req (CommitWithComment "c")) (log_of r.2) r.1.
Proof.
  split; [vm_compute; reflexivity|].
  apply (execute_protocol (req (CommitWithComment "c")) 100 100 30
           (start None (fresh 1 true))); [reflexivity|].
  unfold demo_run. by destruct (execute _ _ _ _ _).
Defined.

Definition demo_plain (m : CandidateMode) (b : Junos) :=
  execute (req m) 100 100 30 (mk_world 0 None b).

Lemma execute_never_commits_witness :
  running (w_backend (demo_plain CommitCheck (fresh 1 true)).2) = "old".
Proof.
  exact (execute_never_commits (req CommitCheck) 100 100 30
           (mk_world 0 None (fresh 1 true)) _ _ eq_refl (surjective_pairing _)).
Defined.

Lemma execute_worst_case_witness :
  let r := demo_plain DryRun (fresh 1000 true) in
  (w_now r.2 = 102 /\ w_now r.2 - 0 <= 100 + 2 * 30 /\
   w_now r.2 - 0 <= worst_case_duration 30 100)%N.
Proof.
  split; [vm_compute; reflexivity|].
  apply (execute_worst_case (req DryRun) 100 30 (mk_world 0 None (fresh 1000 true))
           (demo_plain DryRun (fresh 1000 true)).1); vm_compute; reflexivity.
Defined.

End demo.
