(* ===== verification/DeviceManager.v ===== *)
(** * Sessions and the pool ([device_manager.rs])

    A single-slot session pool per device, the guard that returns a session to
    it, connecting with bounded retry, and the operational command with one
    retry on a stale session.  [rustez] is a parameter: a [Device] is a handle
    and everything it does goes through the network state [Net].  Tasks given
    to [tokio::spawn] are recorded in the order they were spawned and run
    later. *)

From S2P Require Import Prelude RustStr Fmt Errors Helpers Inventory Async CandidateTransaction.

Definition POOL_IDLE_TIMEOUT : N := from_secs 300.
Definition KEEPALIVE_INTERVAL : N := from_secs 30.
Definition POOL_RPC_TIMEOUT : N := from_secs 3600.
Definition CONNECT_MAX_ATTEMPTS : nat := 3.
Definition CONNECT_RETRY_BACKOFF : N := from_secs 3.

Definition transient_needles : list string :=
  ["session expired"; "keepalive probe failed"; "connection closed"; "connection reset";
   "connection refused"; "connection failed"; "broken pipe"; "unexpected eof"; "early eof";
   "channel closed"; "session closed"; "no route to host"; "transport error"].

Definition error_is_transient (err : string) : bool :=
  let lower := to_ascii_lowercase err in
  existsb (fun needle => contains needle lower) transient_needles.

(** ** Retry *)

Section retry.
Context {X : External} {B T : Type}.

(** The loop after [attempt] calls, with [left] more allowed
    ([attempt + left = max_attempts]). *)
Fixpoint retry_loop (left : nat) (attempt : nat) (backoff : N)
    (op : nat -> Future B T JmcpError) : Future B T JmcpError :=
  let attempt := S attempt in
  fut_bind (op attempt) (fun r =>
    match r with
    | Ok value => fut_ret (Ok value)
    | Err err =>
        match left with
        | S left' =>
            if error_is_transient (to_string err)
            then fut_bind (fut_sleep (E := JmcpError) backoff)
                   (fun _ => retry_loop left' attempt backoff op)
            else fut_ret (Err err)
        | 0 => fut_ret (Err err)
        end
    end).

Definition retry_transient (max_attempts : nat) (backoff : N)
    (op : nat -> Future B T JmcpError) : Future B T JmcpError :=
  retry_loop (max_attempts - 1) 0 backoff op.

End retry.

(** ** [rustez] *)

Record ConnectParams (H J : Type) := {
  cp_host : string;
  cp_port : N;
  cp_username : string;
  cp_keepalive_interval : N;
  cp_rpc_timeout : N;
  cp_host_key_verification : H;
  cp_jump_hosts : list J;
  cp_proxy_command : option string;
  cp_auth : AuthConfig
}.
Arguments Build_ConnectParams {H J}.

Class RustezClient {X : External} (D Net : Type) := {
  HostKeyVerification : Type;
  SshConfigFile : Type;
  JumpHost : Type;
  ssh_config_load : string -> Result SshConfigFile SshConfigError;
  resolve : SshConfigFile -> string -> list JumpHost * option string;
  device_open : ConnectParams HostKeyVerification JumpHost -> Future Net D RustEzError;
  device_close : D -> Future Net unit RustEzError;
  device_cli : D -> string -> Future Net string RustEzError;
  device_config : D -> Net -> Result unit RustEzError;
  config_unlock : D -> Future Net unit RustEzError;
  session_alive : Net -> D -> bool;
  is_config_db_open : Net -> D -> bool;
  touched_candidate : Net -> D -> bool
}.

(** ** State *)

Record PoolEntry (D : Type) := mk_entry { pe_device : D; returned_at : N }.
Arguments mk_entry {D}.
Arguments pe_device {D}.
Arguments returned_at {D}.

Record CleanupTaint := { failed_at : N; phases : string }.

Inductive Task (D : Type) :=
  | CloseTask (d : D)
  | ReturnTask (name : string) (d : D).
Arguments CloseTask {D}.
Arguments ReturnTask {D}.

(** [SessionPool], with the tasks it and the guards have spawned. *)
Record SessionPool (D : Type) := mk_pool {
  slots : gmap string (PoolEntry D);
  taints : gmap string CleanupTaint;
  idle_timeout : N;
  spawned : list (Task D)
}.
Arguments mk_pool {D}.
Arguments slots {D}.
Arguments taints {D}.
Arguments idle_timeout {D}.
Arguments spawned {D}.

Section pool.
Context {D : Type}.
Implicit Types (p : SessionPool D).

Definition set_slots s p := mk_pool s (taints p) (idle_timeout p) (spawned p).
Definition set_taints t p := mk_pool (slots p) t (idle_timeout p) (spawned p).
Definition spawn t p := mk_pool (slots p) (taints p) (idle_timeout p) (spawned p ++ [t]).

Definition pool_new : SessionPool D := mk_pool ∅ ∅ POOL_IDLE_TIMEOUT [].

(** [if let Some(entry) = slots.remove(key)], then a spawned close. *)
Definition remove_and_close p (key : string) : SessionPool D :=
  match slots p !! key with
  | Some entry => spawn (CloseTask (pe_device entry)) (set_slots (delete key (slots p)) p)
  | None => p
  end.

(** [now.duration_since(t) > self.idle_timeout]; it saturates at zero. *)
Definition is_expired p (now since : N) : bool := (idle_timeout p <? now - since)%N.

Definition evict_expired (now : N) p : SessionPool D :=
  let expired := map fst (List.filter (fun ke => is_expired p now (returned_at ke.2))
                                      (map_to_list (slots p))) in
  let p := foldl remove_and_close p expired in
  let expired_taints := map fst (List.filter (fun kt => is_expired p now (failed_at kt.2))
                                             (map_to_list (taints p))) in
  foldl (fun p key => set_taints (delete key (taints p)) p) p expired_taints.

Definition try_checkout (alive : D -> bool) (now : N) (name : string) p
  : option D * SessionPool D :=
  match slots p !! name with
  | None => (None, p)
  | Some entry =>
      let p := set_slots (delete name (slots p)) p in
      if is_expired p now (returned_at entry) then (None, spawn (CloseTask (pe_device entry)) p)
      else if negb (alive (pe_device entry)) then (None, spawn (CloseTask (pe_device entry)) p)
      else (Some (pe_device entry), p)
  end.

(** The part of [return_session] after the liveness check. *)
Definition insert_session (now : N) (name : string) (dev : D) p : SessionPool D :=
  let old := slots p !! name in
  let p := set_slots (<[name := mk_entry dev now]> (slots p)) p in
  match old with
  | Some old => spawn (CloseTask (pe_device old)) p
  | None => p
  end.

Definition invalidate (names : list string) p : SessionPool D :=
  foldl remove_and_close p names.

Definition record_cleanup_taint (now : N) (router ph : string) p : SessionPool D :=
  set_taints (<[router := {| failed_at := now; phases := ph |}]> (taints p)) p.
Definition check_cleanup_taint (router : string) p : option CleanupTaint := taints p !! router.
Definition clear_cleanup_taint (router : string) p : SessionPool D :=
  set_taints (delete router (taints p)) p.

(** ** The guard *)

Record PooledDevice := mk_guard {
  dev : option D;
  router_name : string;
  reuse_allowed : bool
}.

Inductive LockRelease := LockConfirmed | ClosedUnverified.

Definition should_pool (reuse_allowed config_db_open touched_candidate : bool) : bool :=
  reuse_allowed && negb config_db_open && negb touched_candidate.

Definition prevent_reuse (g : PooledDevice) : PooledDevice :=
  mk_guard (dev g) (router_name g) false.
Definition allow_reuse (g : PooledDevice) : PooledDevice :=
  mk_guard (dev g) (router_name g) true.

(** [self.dev.as_ref().is_some_and(f)] *)
Definition dev_is (f : D -> bool) (g : PooledDevice) : bool :=
  match dev g with Some d => f d | None => false end.

Definition is_reusable (db_open touched : D -> bool) (g : PooledDevice) : bool :=
  should_pool (reuse_allowed g) (dev_is db_open g) (dev_is touched g).

(** [Drop], inside a runtime: the task it spawns. *)
Definition drop_task (db_open touched : D -> bool) (g : PooledDevice) : option (Task D) :=
  match dev g with
  | None => None
  | Some d =>
      if should_pool (reuse_allowed g) (db_open d) (touched d)
      then Some (ReturnTask (router_name g) d)
      else Some (CloseTask d)
  end.

Definition drop_guard (db_open touched : D -> bool) (g : PooledDevice) p : SessionPool D :=
  match drop_task db_open touched g with Some t => spawn t p | None => p end.

End pool.
Arguments PooledDevice : clear implicits.

(** ** The manager *)

Section manager.
Context {X : External} {D Net : Type} `{!RustezClient D Net}.

Record DeviceManager := mk_manager {
  inventory : Inventory;
  inventory_path : string;
  inventory_hash : list N;
  inventory_readonly : bool;
  allow_password_auth_add : bool;
  host_key_policy : HostKeyVerification;
  pool : SessionPool D;
  net : Net
}.

Definition set_net (n : Net) (m : DeviceManager) : DeviceManager :=
  mk_manager (inventory m) (inventory_path m) (inventory_hash m) (inventory_readonly m)
    (allow_password_auth_add m) (host_key_policy m) (pool m) n.
Definition set_pool (p : SessionPool D) (m : DeviceManager) : DeviceManager :=
  mk_manager (inventory m) (inventory_path m) (inventory_hash m) (inventory_readonly m)
    (allow_password_auth_add m) (host_key_policy m) p (net m).
Definition store_inventory (inv : Inventory) (path : string) (hash : list N)
    (m : DeviceManager) : DeviceManager :=
  mk_manager inv path hash (inventory_readonly m) (allow_password_auth_add m)
    (host_key_policy m) (pool m) (net m).

Definition fut_net {T E} (f : Future Net T E) : Future DeviceManager T E :=
  fut_at net set_net f.

Definition on_pool (f : SessionPool D -> SessionPool D) (m : DeviceManager) : DeviceManager :=
  set_pool (f (pool m)) m.

Definition fresh_guard (router : string) (d : D) : PooledDevice D := mk_guard (Some d) router true.

(** What one connection attempt of [connect_fresh] asks of [rustez]. *)
Definition connect_params (router_name : string) (entry : DeviceEntry)
    (policy : HostKeyVerification)
  : Result (ConnectParams HostKeyVerification JumpHost) JmcpError :=
  let base jumps proxy :=
    Build_ConnectParams (ip entry) (port entry) (username entry) KEEPALIVE_INTERVAL
      POOL_RPC_TIMEOUT policy jumps proxy (auth entry) in
  match ssh_config entry with
  | None => Ok (base [] None)
  | Some path =>
      match ssh_config_load path with
      | Err source => Err (SshConfigInvalid router_name source)
      | Ok cfg => let (jumps, proxy) := resolve cfg (ip entry) in Ok (base jumps proxy)
      end
  end.

Definition connect_attempt (router_name : string) (entry : DeviceEntry)
    (policy : HostKeyVerification) : Future DeviceManager D JmcpError :=
  match connect_params router_name entry policy with
  | Err e => fut_ret (Err e)
  | Ok params => fut_map_err Rustez (fut_net (device_open params))
  end.

Definition connect_fresh (router_name : string)
  : Future DeviceManager (PooledDevice D) JmcpError := fun m =>
  match get (inventory m) router_name with
  | Err e => fut_ret (Err e) m
  | Ok entry =>
      fut_try (fun e => e)
        (retry_transient CONNECT_MAX_ATTEMPTS CONNECT_RETRY_BACKOFF
           (fun _ => connect_attempt router_name entry (host_key_policy m)))
        (fun d => fut_ret (Ok (fresh_guard router_name d))) m
  end.

Definition open (now : N) (router_name : string)
  : Future DeviceManager (PooledDevice D) JmcpError := fun m =>
  let (r, p) := try_checkout (session_alive (net m)) now router_name (pool m) in
  match r with
  | Some d => fut_ret (Ok (fresh_guard router_name d)) (set_pool p m)
  | None => connect_fresh router_name (set_pool p m)
  end.

Definition open_fresh (router_name : string)
  : Future DeviceManager (PooledDevice D) JmcpError := fun m =>
  connect_fresh router_name (on_pool (invalidate [router_name]) m).

(** A guard going out of scope. *)
Definition drop_now (g : PooledDevice D) (m : DeviceManager) : DeviceManager :=
  on_pool (drop_guard (is_config_db_open (net m)) (touched_candidate (net m)) g) m.
Definition fut_drop {T E} (g : PooledDevice D) (r : Result T E) : Future DeviceManager T E :=
  fut_state (fun m => (r, drop_now g m)).

(** A call made while a guard is alive: dropping the call drops the guard. *)
Definition fut_guarded {T E} (g : PooledDevice D) (f : Future DeviceManager T E)
  : Future DeviceManager T E := fun m =>
  let r := f m in
  mk_rpc (rpc_time r) (rpc_result r) (rpc_state r) (fun k => drop_now g (rpc_dropped r k)).

Definition expect_dev {A} (g : PooledDevice D) (k : D -> A) (panic : A) : A :=
  match dev g with Some d => k d | None => panic end.

Definition run_cli (now : N) (router_name command : string)
  : Future DeviceManager string JmcpError :=
  let cli d := fut_net (device_cli d command) in
  fut_try (fun e => e) (open now router_name) (fun g =>
    match dev g with
    | None => fut_ret (Err (Validation "PooledDevice used after drop"))
    | Some d =>
        fut_bind (fut_guarded g (cli d)) (fun r =>
          match r with
          | Ok output => fut_drop g (Ok output)
          | Err err =>
              if error_is_transient (rustez_display err) then
                fut_bind (fut_drop (E := JmcpError) g (Ok tt)) (fun _ =>
                  fut_try (fun e => e) (open_fresh router_name) (fun fresh =>
                    match dev fresh with
                    | None => fut_ret (Err (Validation "PooledDevice used after drop"))
                    | Some d' =>
                        fut_bind (fut_guarded fresh (cli d')) (fun r' =>
                          fut_drop fresh (map_err Rustez r'))
                    end))
              else fut_drop g (Err (Rustez err))
          end)
    end).

(** ** The guard's own calls, on the guard and the network *)

Definition GuardState : Type := (PooledDevice D * DeviceManager)%type.
Definition on_net {T E} (f : Future Net T E) : Future GuardState T E :=
  fut_at (fun s => net s.2) (fun n s => (s.1, set_net n s.2)) f.
Definition on_guard {E} (f : PooledDevice D -> PooledDevice D) : Future GuardState unit E :=
  fut_state (fun s => (Ok tt, (f s.1, s.2))).

Definition close_in_place : Future GuardState unit JmcpError := fun '(g, m) =>
  match dev g with
  | None => fut_ret (Ok tt) (g, m)
  | Some d =>
      fut_map_err Rustez (on_net (device_close d)) (mk_guard None (router_name g) (reuse_allowed g), m)
  end.

Definition release_lock (cleanup_timeout : N) : Future GuardState LockRelease JmcpError :=
  fun '(g, m) =>
  if dev_is (touched_candidate (net m)) g then
    fut_bind (fut_timeout (F := JmcpError) cleanup_timeout close_in_place) (fun r =>
      fut_ret match r with
              | Ok (Some result) => map_result (fun _ => ClosedUnverified) result
              | _ => Err (Validation ("closing the session to release the candidate lock exceeded the "
                       ^^ dec (as_secs cleanup_timeout)
                       ^^ "s cleanup budget; lock state unknown"))
              end) (g, m)
  else
    match dev g with
    | None => fut_ret (Err (Validation "PooledDevice used after drop")) (g, m)
    | Some d =>
        match device_config d (net m) with
        | Err e => fut_ret (Err (Rustez e)) (g, m)
        | Ok _ =>
            fut_try Rustez (on_net (config_unlock d)) (fun _ =>
              fut_bind (on_guard (E := JmcpError) allow_reuse) (fun _ => fut_ret (Ok LockConfirmed)))
              (g, m)
        end
    end.

(** One task of the runtime, run when its turn comes. *)
Definition run_task (now : N) (t : Task D) : Future DeviceManager unit JmcpError := fun m =>
  match t with
  | CloseTask d => fut_bind (fut_net (device_close d)) (fun _ => fut_ret (Ok tt)) m
  | ReturnTask name d =>
      if negb (session_alive (net m) d)
      then fut_bind (fut_net (device_close d)) (fun _ => fut_ret (Ok tt)) m
      else fut_state (fun m => (Ok tt, on_pool (insert_session now name d) m)) m
  end.

(** ** [candidate_transaction::run] *)

(** [impl CandidateBackend for ConfigManager] over the handle [d], as seen from
    the manager's state. *)
Definition lift_backend (b : CandidateBackend Net) : CandidateBackend DeviceManager := {|
  be_lock := fut_net be_lock;
  be_load p a := fut_net (be_load p a);
  be_load_rollback n := fut_net (be_load_rollback n);
  be_diff := fut_net be_diff;
  be_commit_check := fut_net be_commit_check;
  be_commit_with_comment c := fut_net (be_commit_with_comment c);
  be_commit_confirmed s := fut_net (be_commit_confirmed s);
  be_rollback := fut_net be_rollback;
  be_unlock := fut_net be_unlock
|}.

Definition update {B} (f : B -> B) (w : World B) : World B :=
  mk_world (w_now w) (w_cancel_at w) (f (w_backend w)).

Definition failed_phases (rollback unlock : string) : list string :=
  (if String.eqb rollback "ok" then [] else ["rollback=" ^^ rollback]) ++
  (if String.eqb unlock "ok" then [] else ["unlock=" ^^ unlock]).

Definition record_failure (router : string) (r : Result CandidateResult JmcpError)
    (w : World DeviceManager) : World DeviceManager :=
  match r with
  | Err (CandidateCleanupFailed _ rollback unlock) =>
      match failed_phases rollback unlock with
      | [] => w
      | ps => update (on_pool (record_cleanup_taint (w_now w) router (RustStr.join "; " ps))) w
      end
  | _ => w
  end.

(** What [run] does with the session after the transaction; the guard is
    dropped when [run] returns. *)
Definition settle_session (router : string) (d : D) (g : PooledDevice D) (reusable : bool)
    (cleanup_timeout : N) (w : World DeviceManager) : PooledDevice D * World DeviceManager :=
  if reusable then (allow_reuse g, update (on_pool (clear_cleanup_taint router)) w)
  else (g, (timeout cleanup_timeout (fut_net (device_close d)) w).2).

Definition run (backend : D -> CandidateBackend Net) (router : string)
    (request : CandidateRequest) (operation_timeout cleanup_timeout : N)
    (w : World DeviceManager) : Result CandidateResult JmcpError * World DeviceManager :=
  let deadline := (w_now w + operation_timeout)%N in
  match run_step deadline operation_timeout (open (w_now w) router) w with
  | (Err e, w) => (Err e, w)
  | (Ok g0, w) =>
      let g := prevent_reuse g0 in
      match dev g with
      | None => (Err (Validation "PooledDevice used after drop"), w)
      | Some d =>
          match device_config d (net (w_backend w)) with
          | Err e => (Err (Rustez e), update (drop_now g) w)
          | Ok _ =>
              let (ex, w) := execute (CandidateBackend0 := lift_backend (backend d)) request deadline
                               operation_timeout cleanup_timeout w in
              let (g, w) := settle_session router d g (reusable ex) cleanup_timeout w in
              let w := record_failure router (result ex) w in
              (result ex, update (drop_now g) w)
          end
      end
  end.

End manager.
