(* ===== verification/DeviceManagerSpec.v ===== *)
(** * What the session pool promises

    Retrying is bounded and stops at the first genuine error; a checkout gives
    a live, recent session; a session has one owner at a time and serves only
    the router it was connected to; giving up a lock never leaves a dirty
    session behind; and a candidate transaction pools its session and updates
    the cleanup taints as it should. *)

From S2P Require Import Prelude RustStr Fmt Errors Helpers Inventory Async.
From S2P Require Import CandidateTransaction CandidateSpec DeviceManager.

(** ** Retry *)

Section retry.
Context {X : External} {B T : Type}.
Implicit Types (op : nat -> Future B T JmcpError).

(** The world in which attempt [k + 1] runs, after [k] failures and their
    backoffs. *)
Fixpoint before op (backoff : N) (k : nat) (w : World B) : World B :=
  match k with
  | 0 => w
  | S k' => let (_, w1) := await (op k) (before op backoff k' w) in
            advance w1 backoff (w_backend w1)
  end.
Definition attempt op backoff k w := await (op k) (before op backoff (k - 1) w).

Definition transient_failure (r : Result T JmcpError) : Prop :=
  exists e, r = Err e /\ error_is_transient (to_string e) = true.

Lemma retry_loop_spec left n op b w0 :
  exists k, (n < k <= n + S left)%nat /\
    await (retry_loop left n b op) (before op b n w0) = attempt op b k w0 /\
    (forall j, (n < j < k)%nat -> transient_failure (attempt op b j w0).1) /\
    (is_ok (attempt op b k w0).1 = true \/ k = (n + S left)%nat \/
     ~ transient_failure (attempt op b k w0).1).
Proof.
  revert n; induction left as [|left IH]; intros n; cbn [retry_loop]; rewrite await_bind;
    destruct (await (op (S n)) (before op b n w0)) as [r w1] eqn:Ha;
    assert (Hat : attempt op b (S n) w0 = (r, w1))
      by (unfold attempt; cbn [Nat.sub]; by rewrite Nat.sub_0_r).
  - exists (S n). split; [lia|]. rewrite Hat. split.
    + destruct r; unfold fut_ret; rewrite await_state; by destruct w1.
    + split; [lia|]. right; left. lia.
  - destruct r as [v|e].
    { exists (S n). split; [lia|]. rewrite Hat. split; [|split; [lia|by left]].
      unfold fut_ret. rewrite await_state. by destruct w1. }
    destruct (error_is_transient (to_string e)) eqn:Ht.
    + destruct (IH (S n)) as (k & Hk & Hw & Hj & Hend). exists k. split; [lia|]. split.
      * rewrite <- Hw, await_bind. cbn [before]. by rewrite Ha.
      * split; [|by replace (n + S (S left))%nat with (S n + S left)%nat by lia].
        intros j Hjk. destruct (decide (j = S n)) as [->|]; [|apply Hj; lia].
        rewrite Hat. by exists e.
    + exists (S n). split; [lia|]. rewrite Hat. split.
      * unfold fut_ret. rewrite await_state. by destruct w1.
      * split; [lia|]. right; right. intros (e' & [= <-] & He). congruence.
Qed.

(** [retry_transient] makes between one and [max_attempts] attempts and
    returns the outcome of the last one: every earlier attempt failed with a
    transient error, and it stopped because that attempt succeeded, or failed
    with a genuine error, or was the last one allowed. *)
Theorem retry_transient_spec max op b (w : World B) :
  exists k, (1 <= k <= Nat.max 1 max)%nat /\
    await (retry_transient max b op) w = attempt op b k w /\
    (forall j, (1 <= j < k)%nat -> transient_failure (attempt op b j w).1) /\
    (is_ok (attempt op b k w).1 = true \/ k = Nat.max 1 max \/
     ~ transient_failure (attempt op b k w).1).
Proof.
  destruct (retry_loop_spec (max - 1) 0 op b w) as (k & Hk & Hw & Hj & Hend).
  exists k. split; [lia|]. split; [done|]. split; [done|].
  replace (Nat.max 1 max) with (0 + S (max - 1))%nat by lia. done.
Qed.

End retry.

(** ** The pool *)

Section pool.
Context {D : Type}.
Implicit Types (p : SessionPool D) (g : PooledDevice D).

(** A checkout hands out a session only if it is alive and was returned
    within the idle timeout, and takes it out of the pool; a session it will
    not hand out is removed too and closed in the background; no other device's
    session is touched. *)
Theorem try_checkout_spec alive now n p r p' :
  try_checkout alive now n p = (r, p') ->
  slots p' = delete n (slots p) /\ taints p' = taints p /\
  match slots p !! n with
  | None => r = None /\ spawned p' = spawned p
  | Some e =>
      if alive (pe_device e) && (now - returned_at e <=? idle_timeout p)%N
      then r = Some (pe_device e) /\ spawned p' = spawned p
      else r = None /\ spawned p' = spawned p ++ [CloseTask (pe_device e)]
  end.
Proof.
  unfold try_checkout, is_expired. cbn zeta. destruct (slots p !! n) as [e|] eqn:He.
  - cbn [set_slots idle_timeout]. rewrite N.ltb_antisym.
    destruct (now - returned_at e <=? idle_timeout p)%N; cbn [negb];
      rewrite ?andb_true_r, ?andb_false_r; [|by intros [= <- <-]].
    by destruct (alive (pe_device e)); intros [= <- <-].
  - intros [= <- <-]. by rewrite delete_id.
Qed.

Definition task_device (t : Task D) : D :=
  match t with CloseTask d => d | ReturnTask _ d => d end.

Definition slot_devices (s : gmap string (PoolEntry D)) : list D :=
  map (fun ne => pe_device ne.2) (map_to_list s).
Definition pool_owned p : list D := slot_devices (slots p) ++ map task_device (spawned p).

Lemma slot_devices_delete s n e :
  s !! n = Some e -> slot_devices s ≡ₚ pe_device e :: slot_devices (delete n s).
Proof. intros H. unfold slot_devices. by rewrite <- (map_to_list_delete s n e H). Qed.

Lemma slot_devices_insert s n e :
  slot_devices (<[n := e]> s) ≡ₚ pe_device e :: slot_devices (delete n s).
Proof.
  rewrite <- insert_delete_eq. unfold slot_devices.
  by rewrite map_to_list_insert by apply lookup_delete_eq.
Qed.

Lemma pool_owned_spawn t p : pool_owned (spawn t p) ≡ₚ task_device t :: pool_owned p.
Proof.
  unfold pool_owned, spawn. cbn [slots spawned]. rewrite map_app, app_assoc. cbn [map].
  by rewrite Permutation_app_comm.
Qed.

Lemma remove_and_close_owned p n : pool_owned (remove_and_close p n) ≡ₚ pool_owned p.
Proof.
  unfold remove_and_close. destruct (slots p !! n) as [e|] eqn:He; [|done].
  rewrite pool_owned_spawn. unfold pool_owned. cbn [set_slots slots spawned task_device].
  by rewrite (slot_devices_delete _ _ _ He).
Qed.

Lemma invalidate_owned ns p : pool_owned (invalidate ns p) ≡ₚ pool_owned p.
Proof.
  unfold invalidate. revert p; induction ns as [|n ns IH]; intros p; cbn [foldl]; [done|].
  by rewrite IH, remove_and_close_owned.
Qed.

Lemma clear_taints_owned ks p :
  pool_owned (foldl (fun p key => set_taints (delete key (taints p)) p) p ks) = pool_owned p.
Proof. revert p; induction ks as [|k ks IH]; intros p; cbn [foldl]; [done|]. by rewrite IH. Qed.

Lemma evict_expired_owned now p : pool_owned (evict_expired now p) ≡ₚ pool_owned p.
Proof. unfold evict_expired. cbn zeta. rewrite clear_taints_owned. apply invalidate_owned. Qed.

Lemma try_checkout_owned alive now n p r p' :
  try_checkout alive now n p = (r, p') -> pool_owned p ≡ₚ option_list r ++ pool_owned p'.
Proof.
  unfold try_checkout. cbn zeta. destruct (slots p !! n) as [e|] eqn:He; [|by intros [= <- <-]].
  assert (Hd : pool_owned p ≡ₚ pe_device e :: pool_owned (set_slots (delete n (slots p)) p)).
  { unfold pool_owned. cbn [set_slots slots spawned]. by rewrite (slot_devices_delete _ _ _ He). }
  rewrite Hd. destruct (is_expired _ _ _); [|destruct (negb _)]; intros [= <- <-];
    cbn [option_list app]; rewrite ?pool_owned_spawn; done.
Qed.

Lemma insert_session_owned now n d p : pool_owned (insert_session now n d p) ≡ₚ d :: pool_owned p.
Proof.
  unfold insert_session. cbn zeta.
  assert (Hd : pool_owned (set_slots (<[n := mk_entry d now]> (slots p)) p)
               ≡ₚ d :: pool_owned (set_slots (delete n (slots p)) p)).
  { unfold pool_owned. cbn [set_slots slots spawned]. by rewrite slot_devices_insert. }
  destruct (slots p !! n) as [e|] eqn:He.
  - rewrite pool_owned_spawn, Hd. cbn [task_device]. rewrite Permutation_swap. constructor.
    unfold pool_owned. cbn [set_slots slots spawned]. by rewrite (slot_devices_delete _ _ _ He).
  - rewrite Hd. unfold pool_owned. cbn [set_slots slots spawned]. by rewrite delete_id.
Qed.

Lemma drop_guard_owned db_open touched g p :
  pool_owned (drop_guard db_open touched g p) ≡ₚ option_list (dev g) ++ pool_owned p.
Proof.
  unfold drop_guard, drop_task. destruct (dev g) as [d|]; [|done].
  destruct (should_pool _ _ _); by rewrite pool_owned_spawn.
Qed.

End pool.

(** ** Sessions and their owners

    The pool, the guards held by callers, and the spawned tasks, under every
    interleaving of checkouts, connects, drops, evictions, invalidations and
    background tasks.  Whether a session is alive, has its configuration
    database open or has touched the candidate may be different at each step.
    [home d] is the router that [d] was connected to. *)

Section system.
Context {D : Type} (home : D -> string).

Record System := mk_system { s_pool : SessionPool D; s_guards : list (PooledDevice D) }.

Definition owned (s : System) : list D :=
  omap dev (s_guards s) ++ pool_owned (s_pool s).

Definition take_task (t1 t2 : list (Task D)) (p : SessionPool D) : SessionPool D :=
  mk_pool (slots p) (taints p) (idle_timeout p) (t1 ++ t2).

Inductive Step : System -> System -> Prop :=
  | step_checkout alive now n p gs r p' :
      try_checkout alive now n p = (r, p') ->
      Step (mk_system p gs)
           (mk_system p' (map (fun d => mk_guard (Some d) n true) (option_list r) ++ gs))
  | step_connect n d p gs :
      d ∉ owned (mk_system p gs) -> home d = n ->
      Step (mk_system p gs) (mk_system p (mk_guard (Some d) n true :: gs))
  | step_flag g1 g g2 p g' :
      g' = prevent_reuse g \/ g' = allow_reuse g \/ g' = mk_guard None (router_name g) (reuse_allowed g) ->
      Step (mk_system p (g1 ++ g :: g2)) (mk_system p (g1 ++ g' :: g2))
  | step_drop db_open touched g1 g g2 p :
      Step (mk_system p (g1 ++ g :: g2)) (mk_system (drop_guard db_open touched g p) (g1 ++ g2))
  | step_close d t1 t2 p gs :
      spawned p = t1 ++ CloseTask d :: t2 ->
      Step (mk_system p gs) (mk_system (take_task t1 t2 p) gs)
  | step_return_dead n d t1 t2 p gs :
      spawned p = t1 ++ ReturnTask n d :: t2 ->
      Step (mk_system p gs) (mk_system (take_task t1 t2 p) gs)
  | step_return now n d t1 t2 p gs :
      spawned p = t1 ++ ReturnTask n d :: t2 ->
      Step (mk_system p gs) (mk_system (insert_session now n d (take_task t1 t2 p)) gs)
  | step_evict now p gs : Step (mk_system p gs) (mk_system (evict_expired now p) gs)
  | step_invalidate ns p gs : Step (mk_system p gs) (mk_system (invalidate ns p) gs)
  | step_record_taint now n ph p gs :
      Step (mk_system p gs) (mk_system (record_cleanup_taint now n ph p) gs)
  | step_clear_taint n p gs : Step (mk_system p gs) (mk_system (clear_cleanup_taint n p) gs).

Definition Reachable : System -> Prop := rtc Step (mk_system pool_new []).

Definition pool_home (p : SessionPool D) : Prop :=
  map_Forall (fun n e => home (pe_device e) = n) (slots p) /\
  Forall (fun t => match t with ReturnTask n d => home d = n | CloseTask _ => True end) (spawned p).
Definition guard_home (g : PooledDevice D) : Prop :=
  match dev g with Some d => home d = router_name g | None => True end.

(** One owner per session, and every session filed under its own router. *)
Definition Inv (s : System) : Prop :=
  NoDup (owned s) /\ pool_home (s_pool s) /\ Forall guard_home (s_guards s).

Lemma spawn_home t p :
  pool_home p -> match t with ReturnTask n d => home d = n | CloseTask _ => True end ->
  pool_home (spawn t p).
Proof.
  intros [H1 H2] Ht. split; [done|]. cbn [spawned spawn]. apply list.Forall_app. split; [done|].
  by constructor.
Qed.

Lemma set_slots_home s p :
  map_Forall (fun n e => home (pe_device e) = n) s -> pool_home p -> pool_home (set_slots s p).
Proof. intros H [_ H2]. by split. Qed.

Lemma remove_and_close_home p n : pool_home p -> pool_home (remove_and_close p n).
Proof.
  intros H. unfold remove_and_close. destruct (slots p !! n); [|done].
  apply spawn_home; [|done]. apply set_slots_home; [|done]. apply map_Forall_delete, H.
Qed.

Lemma invalidate_home ns p : pool_home p -> pool_home (invalidate ns p).
Proof.
  unfold invalidate. revert p; induction ns as [|n ns IH]; intros p H; cbn [foldl]; [done|].
  by apply IH, remove_and_close_home.
Qed.

Lemma evict_expired_home now p : pool_home p -> pool_home (evict_expired now p).
Proof.
  intros H. unfold evict_expired. cbn zeta.
  set (q := foldl remove_and_close p _). assert (Hq : pool_home q) by by apply invalidate_home.
  clearbody q. generalize (map fst (List.filter (fun kt : string * CleanupTaint =>
    is_expired q now (failed_at kt.2)) (map_to_list (taints q)))). intros ks. clear H.
  revert q Hq; induction ks as [|k ks IH]; intros q Hq; cbn [foldl]; [done|]. apply IH. by destruct Hq.
Qed.

Lemma try_checkout_home alive now n p r p' :
  try_checkout alive now n p = (r, p') -> pool_home p ->
  pool_home p' /\ (forall d, r = Some d -> home d = n).
Proof.
  unfold try_checkout. cbn zeta. destruct (slots p !! n) as [e|] eqn:He; [|by intros [= <- <-]].
  intros H Hp. assert (Hd : pool_home (set_slots (delete n (slots p)) p)).
  { apply set_slots_home; [|done]. apply map_Forall_delete, Hp. }
  destruct (is_expired _ _ _); [|destruct (negb _)]; injection H as <- <-.
  - split; [by apply spawn_home|done].
  - split; [by apply spawn_home|done].
  - split; [done|]. intros d [= <-]. by apply Hp in He.
Qed.

Lemma insert_session_home now n d p :
  pool_home p -> home d = n -> pool_home (insert_session now n d p).
Proof.
  intros Hp Hd. unfold insert_session. cbn zeta.
  assert (H : pool_home (set_slots (<[n := mk_entry d now]> (slots p)) p)).
  { apply set_slots_home; [|done]. apply map_Forall_insert_2; [done|apply Hp]. }
  destruct (slots p !! n); [by apply spawn_home|done].
Qed.

Lemma drop_guard_home db_open touched g p :
  guard_home g -> pool_home p -> pool_home (drop_guard db_open touched g p).
Proof.
  unfold drop_guard, drop_task, guard_home. destruct (dev g) as [d|]; [|done].
  intros Hg Hp. by destruct (should_pool _ _ _); apply spawn_home.
Qed.

Lemma take_task_inv t1 t2 t p :
  spawned p = t1 ++ t :: t2 ->
  pool_owned p ≡ₚ task_device t :: pool_owned (take_task t1 t2 p) /\
  (pool_home p -> pool_home (take_task t1 t2 p) /\
   match t with ReturnTask n d => home d = n | CloseTask _ => True end).
Proof.
  intros H. split.
  - unfold pool_owned, take_task. cbn [slots spawned]. rewrite H, !map_app. cbn [map].
    by rewrite <- !Permutation_middle.
  - intros [H1 H2]. rewrite H in H2. apply list.Forall_app in H2 as [H2 H3].
    apply list.Forall_cons in H3 as [H3 H4]. split; [|done]. split; [done|].
    cbn [take_task spawned]. by apply list.Forall_app.
Qed.

Lemma owned_split p g1 g g2 :
  owned (mk_system p (g1 ++ g :: g2)) ≡ₚ option_list (dev g) ++ owned (mk_system p (g1 ++ g2)).
Proof.
  unfold owned. cbn [s_guards s_pool]. rewrite !omap_app. cbn. destruct (dev g); cbn [option_list app].
  - by rewrite <- !Permutation_middle.
  - done.
Qed.

Lemma step_inv s s' : Inv s -> Step s s' -> Inv s'.
Proof.
  intros (Hnd & Hp & Hg) H. unfold Inv.
  destruct H as [alive now n p gs r p' Ht|n d p gs Hd Hh|g1 g g2 p g' Hg'|db_open touched g1 g g2 p
    |d t1 t2 p gs Ht|n d t1 t2 p gs Ht|now n d t1 t2 p gs Ht|now p gs|ns p gs|now n ph p gs|n p gs];
    cbn [s_pool s_guards] in *.
  - destruct (try_checkout_home _ _ _ _ _ _ Ht Hp) as [H1 H2].
    apply try_checkout_owned in Ht. unfold owned in *. cbn [s_pool s_guards] in *.
    rewrite Ht in Hnd. split; [|split; [done|]].
    + destruct r as [d|]; cbn [option_list map app] in *; [|done].
      change (option_list (Some d)) with [d] in *. cbn [map app] in *.
      rewrite <- Permutation_middle in Hnd. done.
    + destruct r as [d|]; cbn [option_list map app]; [|done]. constructor; [|done].
      cbn. by apply H2.
  - split; [|split; [done|]]; [by constructor|by constructor].
  - rewrite owned_split in Hnd. apply list.Forall_app in Hg as [Hg1 Hg2].
    apply list.Forall_cons in Hg2 as [Hg2 Hg3]. split; [|split; [done|]].
    + rewrite owned_split. destruct Hg' as [->|[->| ->]]; cbn; try done.
      by apply list.NoDup_app in Hnd as (_ & _ & Hnd).
    + apply list.Forall_app. split; [done|]. constructor; [|done].
      by destruct Hg' as [->|[->| ->]].
  - rewrite owned_split in Hnd. apply list.Forall_app in Hg as [Hg1 Hg2].
    apply list.Forall_cons in Hg2 as [Hg2 Hg3]. split; [|split].
    + unfold owned in *. cbn [s_pool s_guards] in *. rewrite drop_guard_owned, app_assoc.
      by rewrite (Permutation_app_comm (omap dev (g1 ++ g2))), <- app_assoc.
    + by apply drop_guard_home.
    + by apply list.Forall_app.
  - destruct (take_task_inv _ _ _ _ Ht) as [H1 H2]. unfold owned in *. cbn [s_pool s_guards] in *.
    rewrite H1, <- Permutation_middle in Hnd. apply list.NoDup_cons in Hnd as [_ Hnd].
    split; [done|]. split; [by apply H2|done].
  - destruct (take_task_inv _ _ _ _ Ht) as [H1 H2]. unfold owned in *. cbn [s_pool s_guards] in *.
    rewrite H1, <- Permutation_middle in Hnd. apply list.NoDup_cons in Hnd as [_ Hnd].
    split; [done|]. split; [by apply H2|done].
  - destruct (take_task_inv _ _ _ _ Ht) as [H1 H2]. unfold owned in *. cbn [s_pool s_guards] in *.
    destruct (H2 Hp) as [H3 H4]. split; [|split; [by apply insert_session_home|done]].
    by rewrite insert_session_owned, <- H1.
  - unfold owned in *. cbn [s_pool s_guards] in *. split; [by rewrite evict_expired_owned|].
    split; [by apply evict_expired_home|done].
  - unfold owned in *. cbn [s_pool s_guards] in *. split; [by rewrite invalidate_owned|].
    split; [by apply invalidate_home|done].
  - by split.
  - by split.
Qed.

Lemma reachable_inv s : Reachable s -> Inv s.
Proof.
  unfold Reachable. intros H. remember (mk_system pool_new []) as s0 eqn:E.
  assert (H0 : Inv s0).
  { subst. split; [apply NoDup_nil_2|]. split; [|constructor].
    split; [apply map_Forall_empty|constructor]. }
  clear E. induction H as [|x y z Hxy _ IH]; [done|]. apply IH. by apply (step_inv x).
Qed.


End system.

(** ** Giving up a lock, and a whole candidate transaction *)

Section manager.
Context {X : External} {D Net : Type} `{!RustezClient D Net}.
Implicit Types (m : DeviceManager (D := D) (Net := Net)).

Lemma release_lock_touched ct g m :
  dev_is (touched_candidate (net m)) g = true ->
  let r := release_lock ct (g, m) in
  (rpc_time r <= ct)%N /\ dev (rpc_state r).1 = None /\
  (forall k, dev (rpc_dropped r k).1 = None) /\
  rpc_result r <> Ok LockConfirmed /\ pool (rpc_state r).2 = pool m.
Proof.
  intros Ht. cbn zeta. unfold release_lock. rewrite Ht.
  unfold dev_is in Ht. destruct (dev g) as [d|] eqn:Hd; [|done].
  unfold fut_bind at 1 2 3 4 5, fut_timeout, close_in_place. rewrite Hd.
  set (c := fut_map_err _ _ _).
  assert (Hs : dev (rpc_state c).1 = None /\ pool (rpc_state c).2 = pool m)
    by (subst c; cbn; by destruct (rpc_result _)).
  assert (Hk : forall k, dev (rpc_dropped c k).1 = None /\ pool (rpc_dropped c k).2 = pool m).
  { intros k. subst c. cbn. destruct (k <? _)%N; [done|]. by destruct (rpc_result _). }
  clearbody c. destruct Hs as [Hs Hp]. destruct (N.leb_spec (rpc_time c) ct); cbn.
  - split; [lia|]. split; [done|]. split.
    + intros k. destruct (k <? _)%N; [apply Hk|done].
    + by destruct (rpc_result c).
  - split; [lia|]. split; [apply Hk|]. split; [|by split; [|apply Hk]].
    intros k. destruct (k <? _)%N; apply Hk.
Qed.

(** Giving up a lock never leaves a dirty session in use.  When the session
    touched the candidate, [release_lock] ends within the cleanup budget, the
    guard no longer owns a session whatever happened (closed, failed, timed
    out, or dropped half-way), so dropping it can neither pool the session nor
    close it later, and the release is never reported as confirmed.  It is
    confirmed only when the device acknowledged the unlock of a session that
    did not touch the candidate. *)
Theorem release_lock_spec ct g m :
  let r := release_lock ct (g, m) in
  if dev_is (touched_candidate (net m)) g then
    (rpc_time r <= ct)%N /\ dev (rpc_state r).1 = None /\
    (forall k, dev (rpc_dropped r k).1 = None) /\
    rpc_result r <> Ok LockConfirmed
  else
    dev (rpc_state r).1 = dev g /\
    (rpc_result r <> Ok ClosedUnverified) /\
    (rpc_result r = Ok LockConfirmed <->
     exists d u, dev g = Some d /\ is_ok (device_config d (net m)) = true /\
                 rpc_result (config_unlock d (net m)) = Ok u) /\
    (rpc_result r = Ok LockConfirmed -> reuse_allowed (rpc_state r).1 = true).
Proof.
  cbn zeta. unfold release_lock. destruct (dev_is _ g) eqn:Ht.
  - pose proof (release_lock_touched ct g m Ht) as H. unfold release_lock in H.
    rewrite Ht in H. cbn zeta in H. tauto.
  - destruct (dev g) as [d|] eqn:Hd; cbn.
    + destruct (device_config d (net m)) as [u|e] eqn:Hc; cbn.
      * destruct (rpc_result (config_unlock d (net m))) as [v|e] eqn:Hu; cbn; rewrite ?Hd.
        -- split_and!; try done. split; [intros _; exists d, v; by rewrite Hc|done].
        -- split_and!; try done. split; [done|].
           intros (d' & v & [= <-] & _ & ?). congruence.
      * rewrite Hd. split_and!; try done. split; [done|]. intros (d' & v & [= <-] & He & _).
        by rewrite Hc in He.
    + rewrite Hd. split_and!; try done. split; [done|]. by intros (d' & v & [=] & _).
Qed.

(** "clean enough to skip a discarding close" and "clean enough to pool"
    are the same test: a guard that holds a session reports it reusable exactly
    when dropping it sends it back to the pool, and what goes back has no open
    configuration database and an untouched candidate. *)
Theorem drop_agrees_with_is_reusable g m d :
  dev g = Some d ->
  (is_reusable (is_config_db_open (net m)) (touched_candidate (net m)) g = true <->
   spawned (pool (drop_now g m)) = spawned (pool m) ++ [ReturnTask (router_name g) d]) /\
  (is_reusable (is_config_db_open (net m)) (touched_candidate (net m)) g = false <->
   spawned (pool (drop_now g m)) = spawned (pool m) ++ [CloseTask d]) /\
  (is_reusable (is_config_db_open (net m)) (touched_candidate (net m)) g = true ->
   is_config_db_open (net m) d = false /\ touched_candidate (net m) d = false).
Proof.
  intros Hd. unfold is_reusable, dev_is, drop_now, on_pool, drop_guard, drop_task. rewrite Hd.
  cbn [set_pool pool]. destruct (should_pool _ _ _) eqn:Hs; cbn [spawn spawned].
  - split; [done|]. split; [split; [done|]; by intros [_ [=]]%app_inj_tail|]. intros _.
    unfold should_pool in Hs. rewrite !andb_true_iff, !negb_true_iff in Hs. tauto.
  - split; [split; [done|]; by intros [_ [=]]%app_inj_tail|]. by split.
Qed.

(** ** [run] *)

Abbreviation taints_of := (fun m => taints (pool m)) (only parsing).
Definition return_tasks (p : SessionPool D) : list (Task D) :=
  List.filter (fun t => match t with ReturnTask _ _ => true | CloseTask _ => false end) (spawned p).
(** What connecting and transacting leave alone: the taints and the sessions on
    their way back to the pool. *)
Definition kept (m : DeviceManager (D := D) (Net := Net)) : gmap string CleanupTaint * list (Task D) :=
  (taints (pool m), return_tasks (pool m)).

Lemma keeps_net {A T E} (obs : DeviceManager -> A) (f : Future Net T E) :
  (forall n m, obs (set_net n m) = obs m) -> keeps obs (fut_net f).
Proof. apply keeps_at. Qed.

Lemma all_keep_lift {A} (b : CandidateBackend Net) (obs : DeviceManager -> A) :
  (forall n m, obs (set_net n m) = obs m) -> all_keep (CandidateBackend0 := lift_backend b) obs.
Proof. intros H. split; intros; by apply keeps_net. Qed.

Lemma return_tasks_spawn_close d p : return_tasks (spawn (CloseTask d) p) = return_tasks p.
Proof. unfold return_tasks. cbn [spawn spawned]. by rewrite List.filter_app, app_nil_r. Qed.

Lemma try_checkout_kept alive now n p r p' :
  try_checkout alive now n p = (r, p') -> taints p' = taints p /\ return_tasks p' = return_tasks p.
Proof.
  unfold try_checkout. cbn zeta. repeat case_match; intros [= <- <-];
    rewrite ?return_tasks_spawn_close; done.
Qed.

Lemma retry_loop_keeps {B A T} (obs : B -> A) left n bo (op : nat -> Future B T JmcpError) :
  (forall k, keeps obs (op k)) -> keeps obs (retry_loop left n bo op).
Proof.
  intros H. revert n; induction left as [|left IH]; intros n; cbn [retry_loop];
    apply keeps_bind; [done| |done|]; intros [v|e]; try apply keeps_ret.
  destruct (error_is_transient _); [|apply keeps_ret]. by apply keeps_bind.
Qed.

Lemma retry_loop_result {B T} (P : Result T JmcpError -> Prop) left n bo
    (op : nat -> Future B T JmcpError) b :
  (forall k b, P (rpc_result (op k b))) -> P (rpc_result (retry_loop left n bo op b)).
Proof.
  intros H. revert n b; induction left as [|left IH]; intros n b; cbn [retry_loop];
    unfold fut_bind at 1; cbn [rpc_result]; specialize (H (S n) b);
    destruct (rpc_result (op (S n) b)) as [v|e]; try done.
  destruct (error_is_transient _); [|done]. apply IH.
Qed.

Lemma connect_attempt_keeps {A} (obs : DeviceManager -> A) r e pol :
  (forall n m, obs (set_net n m) = obs m) -> keeps obs (connect_attempt r e pol).
Proof.
  intros H. unfold connect_attempt. destruct (connect_params _ _ _); [|apply keeps_ret].
  apply keeps_try; [by apply keeps_net|]. intros d0. apply keeps_ret.
Qed.

Lemma connect_fresh_keeps {A} (obs : DeviceManager -> A) r :
  (forall n m, obs (set_net n m) = obs m) -> keeps obs (connect_fresh r).
Proof.
  intros H m. unfold connect_fresh. destruct (get _ _) as [e|]; [|by apply keeps_ret].
  apply keeps_try; [|intros; apply keeps_ret]. apply retry_loop_keeps.
  intros k. by apply connect_attempt_keeps.
Qed.

Lemma open_keeps now r : keeps kept (open now r).
Proof.
  intros m. unfold open. destruct (try_checkout _ _ _ _) as [o p] eqn:Ht.
  apply try_checkout_kept in Ht as [H1 H2].
  assert (Hm : kept (set_pool p m) = kept m) by (unfold kept; cbn; by rewrite H1, H2).
  destruct o; [cbn; by split|].
  destruct (connect_fresh_keeps kept r ltac:(done) (set_pool p m)) as [K1 K2].
  split; [congruence|]. intros k. by rewrite K2.
Qed.

(** What connecting leaves alone on the network. *)
Section seen.
Context {A : Type} (obs : Net -> A) (Hopen : forall p, keeps obs (device_open p)).

Lemma keeps_fut_net {T E} (f : Future Net T E) :
  keeps obs f -> keeps (fun m => obs (net m)) (fut_net f).
Proof. intros H m. apply H. Qed.

Lemma connect_fresh_seen r : keeps (fun m => obs (net m)) (connect_fresh r).
Proof.
  intros m. unfold connect_fresh. destruct (get _ _) as [e|]; [|by split].
  apply (keeps_try (fun m : DeviceManager => obs (net m))); [|intros; apply keeps_ret].
  apply retry_loop_keeps. intros k. unfold connect_attempt. destruct (connect_params _ _ _); [|apply keeps_ret].
  apply keeps_try; [by apply keeps_fut_net|]. intros d0. apply keeps_ret.
Qed.

Lemma open_keeps_seen now r : keeps (fun m => obs (net m)) (open now r).
Proof.
  intros m. unfold open. destruct (try_checkout _ _ _ _) as [[d|] p]; [by split|].
  apply (connect_fresh_seen r (set_pool p m)).
Qed.

End seen.

Definition cleanup_error {T} (r : Result T JmcpError) : bool :=
  match r with Err (CandidateCleanupFailed _ _ _) => true | _ => false end.

Lemma open_no_cleanup_error now r m : cleanup_error (rpc_result (open now r m)) = false.
Proof.
  unfold open. destruct (try_checkout _ _ _ _) as [[d|] p]; [done|].
  generalize (set_pool p m). clear m. intros m. unfold connect_fresh, get, ok_or.
  destruct (devices _ !! r) as [e|]; [|done]. unfold fut_try, fut_bind at 1. cbn [rpc_result].
  unfold retry_transient.
  pose proof (retry_loop_result (fun x : Result D JmcpError => cleanup_error x = false)
    (CONNECT_MAX_ATTEMPTS - 1) 0 CONNECT_RETRY_BACKOFF
    (fun _ => connect_attempt r e (host_key_policy m)) m) as H.
  destruct (rpc_result (retry_loop _ _ _ _ m)); [done|]. apply H.
  intros k b. unfold connect_attempt, connect_params.
  destruct (ssh_config e) as [path|].
  - destruct (ssh_config_load path) as [cfg|]; [|done]. destruct (resolve cfg (ip e)). cbn.
    by destruct (rpc_result (device_open _ _)).
  - cbn. by destruct (rpc_result (device_open _ _)).
Qed.

Lemma execute_ok_reusable {B} `{!CandidateBackend B} req d t l (w : World B) ex w' :
  execute req d t l w = (ex, w') -> is_ok (result ex) = true -> reusable ex = true.
Proof.
  unfold execute. destruct (decide (mode req = Discard)) as [Hd|Hd].
  { rewrite Hd. destruct (run_step d t be_rollback w) as [[u|e] w1]; by intros [= <- <-]. }
  rewrite match_not_discard by done. destruct (run_step d t be_lock w) as [[u|e] w1].
  - destruct (primary_operation req d t w1) as [[o c] w2].
    destruct (cleanup (negb c) l w2) as [cf w3]. intros [= <- <-]. cbn.
    unfold combine. destruct (cleanup_is_empty cf); [|done]. by destruct o.
  - destruct (is_interruption e).
    + destruct (cleanup true l w1) as [cf w2]. intros [= <- <-]. cbn. unfold combine.
      by destruct (cleanup_is_empty cf).
    + by intros [= <- <-].
Qed.

(** Dropping a guard that may not be reused pools nothing. *)
Lemma drop_now_kept g m : reuse_allowed g = false -> kept (drop_now g m) = kept m.
Proof.
  intros Hg. unfold kept, drop_now, on_pool, drop_guard, drop_task.
  cbn [set_pool pool]. rewrite Hg. cbn [should_pool andb]. destruct (dev g) as [d|]; [|done].
  rewrite return_tasks_spawn_close. done.
Qed.

(** The two ways through [run]: it stops before the transaction, or it runs one
    on a session [d] that it settles afterwards. *)
Lemma run_cases b router req t ct w r w' :
  run b router req t ct w = (r, w') ->
  (cleanup_error r = false /\ is_ok r = false /\ kept (w_backend w') = kept (w_backend w)) \/
  exists d w1 ex w2 g g3 w3,
    execute (CandidateBackend0 := lift_backend (b d)) req (w_now w + t) t ct w1 = (ex, w2) /\
    kept (w_backend w2) = kept (w_backend w) /\ dev g = Some d /\ reuse_allowed g = false /\
    settle_session router d g (reusable ex) ct w2 = (g3, w3) /\
    r = result ex /\ w' = update (drop_now g3) (record_failure router r w3).
Proof.
  unfold run. set (dl := (w_now w + t)%N).
  destruct (run_step dl t (open (w_now w) router) w) as [[g0|e] w1] eqn:Ho.
  - assert (K1 : kept (w_backend w1) = kept (w_backend w))
      by (eapply run_step_keeps; [apply open_keeps|exact Ho]).
    cbn [prevent_reuse dev]. destruct (dev g0) as [d|] eqn:Hd.
    2:{ intros [= <- <-]. left. by split. }
    destruct (device_config d _) as [u|e] eqn:Hc.
    2:{ intros [= <- <-]. left. split; [done|]. split; [done|].
        cbn [update w_backend]. by rewrite drop_now_kept. }
    destruct (execute _ _ _ _ w1) as [ex w2] eqn:He.
    destruct (settle_session _ _ _ _ _ _) as [g3 w3] eqn:Hs. intros [= <- <-]. right.
    exists d, w1, ex, w2, (prevent_reuse g0), g3, w3. split_and!; try done.
    rewrite <- K1. eapply (execute_keeps (CandidateBackend0 := lift_backend (b d)) kept);
      [by apply all_keep_lift|exact He].
  - intros [= <- <-]. left. split; [|split; [done|]].
    + apply run_step_spec in Ho as [(_ & e' & [= <-] & He)|[[_ He]|(k & e' & _ & [= <-] & He)]].
      * by destruct e.
      * pose proof (open_no_cleanup_error (w_now w) router (w_backend w)) as Hn.
        rewrite <- He in Hn. exact Hn.
      * by destruct e.
    + eapply run_step_keeps; [apply open_keeps|exact Ho].
Qed.

Lemma settle_session_spec router d g ru ct w g' w' :
  settle_session router d g ru ct w = (g', w') -> dev g = Some d ->
  dev g' = Some d /\
  return_tasks (pool (w_backend w')) = return_tasks (pool (w_backend w)) /\
  (if ru then w' = update (on_pool (clear_cleanup_taint router)) w
   else reuse_allowed g' = reuse_allowed g /\
        taints (pool (w_backend w')) = taints (pool (w_backend w))).
Proof.
  unfold settle_session. destruct ru; intros [= <- <-] Hd; [done|].
  assert (Hk : kept (w_backend (timeout ct (fut_net (device_close d)) w).2) = kept (w_backend w)).
  { destruct (timeout _ _ _) as [o w1] eqn:Ht.
    eapply (timeout_keeps kept); [|exact Ht]. by apply keeps_net. }
  injection Hk as H1 H2. by rewrite H1, H2.
Qed.

Lemma drop_now_taints g m : taints (pool (drop_now g m)) = taints (pool m).
Proof.
  unfold drop_now, on_pool, drop_guard. cbn [set_pool pool]. by destruct (drop_task _ _ _).
Qed.

(** What [record_failure] leaves: only the router's taint, and only after a
    failed cleanup. *)
Lemma record_failure_taints router r (w : World DeviceManager) :
  let T := taints (pool (w_backend w)) in
  taints (pool (w_backend (record_failure router r w))) =
  match r with
  | Err (CandidateCleanupFailed _ rb ul) =>
      match failed_phases rb ul with
      | [] => T
      | ps => <[router := {| failed_at := w_now w; phases := RustStr.join "; " ps |}]> T
      end
  | _ => T
  end.
Proof.
  unfold record_failure. destruct r as [|[]]; try done.
  by destruct (failed_phases _ _).
Qed.

(** The taints after a candidate transaction.  Other routers' taints are
    untouched; a transaction that succeeds leaves the router untainted; one
    whose cleanup failed leaves a taint naming the phases that failed, for the
    next caller; any other failure keeps the old taint or clears it. *)
Theorem run_taints b router req t ct w r w' :
  run b router req t ct w = (r, w') ->
  let T := taints (pool (w_backend w)) in
  let T' := taints (pool (w_backend w')) in
  (forall n, n <> router -> T' !! n = T !! n) /\
  (is_ok r = true -> T' !! router = None) /\
  (forall primary rb ul, r = Err (CandidateCleanupFailed primary rb ul) ->
     failed_phases rb ul <> [] ->
     exists at_, T' !! router =
       Some {| failed_at := at_; phases := RustStr.join "; " (failed_phases rb ul) |}) /\
  (cleanup_error r = false -> T' !! router = T !! router \/ T' !! router = None).
Proof.
  intros H T T'. apply run_cases in H
    as [(Hc & Ho & Hk)|(d & w1 & ex & w2 & g & g3 & w3 & He & Hk & Hg & _ & Hs & Hr & Hw)].
  { injection Hk as HT _. unfold T, T'. rewrite HT, Ho. split_and!; try done; [|by left].
    intros p rb ul ->. done. }
  injection Hk as HT _.
  assert (HT' : T' = taints (pool (w_backend (record_failure router r w3))))
    by (unfold T'; rewrite Hw; apply drop_now_taints).
  rewrite record_failure_taints in HT'. cbn zeta in HT'.
  apply settle_session_spec in Hs as (_ & _ & Hs); [|done].
  assert (H3 : taints (pool (w_backend w3)) = if reusable ex then delete router T else T).
  { destruct (reusable ex); [|by destruct Hs as [_ ->]]. subst w3. cbn. by rewrite HT. }
  rewrite H3 in HT'. clear H3 Hs. split_and!.
  - intros n Hn. rewrite HT'. destruct (reusable ex), r as [|[]]; try destruct (failed_phases _ _);
      rewrite ?lookup_insert_ne, ?lookup_delete_ne by done; done.
  - intros Hok. rewrite HT'. destruct r; [|done].
    rewrite (execute_ok_reusable _ _ _ _ _ _ _ He) by by rewrite <- Hr. apply lookup_delete_eq.
  - intros p rb ul -> Hne. exists (w_now w3). rewrite HT'. destruct (failed_phases rb ul); [done|].
    apply lookup_insert_eq.
  - intros Hce. rewrite HT'. destruct r as [|[]]; try done;
      (destruct (reusable ex); [right; apply lookup_delete_eq|by left]).
Qed.

Lemma settle_session_seen {A} (obs : Net -> A) router d g ru ct w :
  (forall d, keeps obs (device_close d)) ->
  obs (net (w_backend (settle_session router d g ru ct w).2)) = obs (net (w_backend w)).
Proof.
  intros Hc. unfold settle_session. destruct ru; [done|]. cbn [snd].
  destruct (timeout _ _ _) as [o w1] eqn:Ht.
  eapply (timeout_keeps (fun m : DeviceManager => obs (net m))); [|exact Ht]. by apply keeps_fut_net.
Qed.

Lemma record_failure_seen router r (w : World DeviceManager) :
  net (w_backend (record_failure router r w)) = net (w_backend w).
Proof. unfold record_failure. destruct r as [|[]]; try done. by destruct (failed_phases _ _). Qed.

(** A transaction changes on the network what its [execute] does, besides what
    connecting and closing do. *)
Lemma run_seen {A} (obs : Net -> A) b router req t ct w r w' :
  (forall p, keeps obs (device_open p)) -> (forall d, keeps obs (device_close d)) ->
  (forall d dl w ex w', execute (CandidateBackend0 := lift_backend (b d)) req dl t ct w = (ex, w') ->
     obs (net (w_backend w')) = obs (net (w_backend w))) ->
  run b router req t ct w = (r, w') ->
  obs (net (w_backend w')) = obs (net (w_backend w)).
Proof.
  intros Hopen Hclose Hex. unfold run. set (dl := (w_now w + t)%N).
  destruct (run_step dl t (open (w_now w) router) w) as [[g0|e] w1] eqn:Ho;
    apply (run_step_keeps (fun m : DeviceManager => obs (net m))) in Ho;
    try (by apply open_keeps_seen); [|by intros [= _ <-]].
  destruct (dev (prevent_reuse g0)) as [d|]; [|by intros [= _ <-]].
  destruct (device_config d _) as [u|e]; [|by intros [= _ <-]].
  destruct (execute _ _ _ _ w1) as [ex w2] eqn:He. apply Hex in He.
  pose proof (settle_session_seen obs router d (prevent_reuse g0) (reusable ex) ct w2 Hclose) as Hs.
  destruct (settle_session _ _ _ _ _ _) as [g3 w3]. intros [= _ <-].
  cbn [update w_backend drop_now on_pool set_pool net]. rewrite record_failure_seen. cbn [snd] in Hs. congruence.
Qed.

Lemma return_tasks_in n d p : ReturnTask n d ∈ return_tasks p <-> ReturnTask n d ∈ spawned p.
Proof. unfold return_tasks. rewrite !list_elem_of_In, filter_In. naive_solver. Qed.

(** The laws of the device hold of it as seen from the manager. *)
Lemma keeps_running {A T E} (obs : Net -> A) (f : Future Net T E) :
  keeps obs f -> keeps (fun m => obs (net m)) (fut_net f).
Proof. intros H m. apply H. Qed.

#[local] Instance lift_laws (b : CandidateBackend Net) `{!CandidateLaws (CandidateBackend0 := b) Net} :
  CandidateLaws (CandidateBackend0 := lift_backend b) DeviceManager.
Proof.
  refine {| running := fun m : DeviceManager => running (CandidateBackend0 := b) (net m);
            locked := fun m => locked (CandidateBackend0 := b) (net m);
            dirty := fun m => dirty (CandidateBackend0 := b) (net m) |};
    try (intros; apply (keeps_running running); auto with jmcp); intros; cbn in *.
  - by apply rollback_clean.
  - by apply commit_clean.
  - by apply commit_confirmed_clean.
  - by apply unlock_free.
  - by apply unlock_clean.
Defined.


End manager.

(** ** A network of one device *)

Module DemoPool.
Import Demo.

(** The device, the connection attempts that still fail, the next handle, and
    whether sessions report a touched candidate. *)
Record Lab := mk_lab { lab_junos : Junos; lab_failures : nat; lab_next : nat; lab_touched : bool }.

Definition connect (_ : ConnectParams unit string) (l : Lab) : Rpc Lab nat RustEzError :=
  match lab_failures l with
  | S f => mk_rpc 5 (Err (RzNetconf NetconfTransport, "Connection refused (os error 111)"))
             (mk_lab (lab_junos l) f (lab_next l) (lab_touched l)) (fun _ => l)
  | 0 => mk_rpc 5 (Ok (lab_next l))
           (mk_lab (lab_junos l) 0 (S (lab_next l)) (lab_touched l)) (fun _ => l)
  end.
Definition instant {T} (r : Result T RustEzError) : Future Lab T RustEzError :=
  fun l => mk_rpc 1 r l (fun _ => l).

#[export] Instance lab_rustez : RustezClient nat Lab := {|
  HostKeyVerification := unit; SshConfigFile := string; JumpHost := string;
  ssh_config_load := fun p => Ok p;
  resolve := fun _ _ => ([], None);
  device_open := connect;
  device_close := fun _ => instant (Ok tt);
  device_cli := fun _ c => instant (Ok c);
  device_config := fun _ _ => Ok tt;
  config_unlock := fun _ => instant (Ok tt);
  session_alive := fun _ _ => true;
  is_config_db_open := fun _ _ => false;
  touched_candidate := fun l _ => lab_touched l
|}.

Definition on_junos {T} (f : Future Junos T JmcpError) : Future Lab T JmcpError :=
  fut_at lab_junos (fun j l => mk_lab j (lab_failures l) (lab_next l) (lab_touched l)) f.

Definition lab_backend (_ : nat) : CandidateBackend Lab := {|
  be_lock := on_junos be_lock;
  be_load p a := on_junos (be_load p a);
  be_load_rollback n := on_junos (be_load_rollback n);
  be_diff := on_junos be_diff;
  be_commit_check := on_junos be_commit_check;
  be_commit_with_comment c := on_junos (be_commit_with_comment c);
  be_commit_confirmed s := on_junos (be_commit_confirmed s);
  be_rollback := on_junos be_rollback;
  be_unlock := on_junos be_unlock
|}.

Lemma keeps_on_junos {A T} (obs : Junos -> A) (f : Future Junos T JmcpError) :
  keeps obs f -> keeps (fun l => obs (lab_junos l)) (on_junos f).
Proof. intros H l. apply H. Qed.

Definition lab_laws (d : nat) : CandidateLaws (CandidateBackend0 := lab_backend d) Lab.
Proof.
  refine {| running := fun l => j_running (lab_junos l); locked := fun l => j_locked (lab_junos l);
            dirty := fun l => is_some_b (j_staged (lab_junos l)) |};
    try (intros; by apply (keeps_on_junos j_running)); try done.
  - intros c l. apply commit_leaves_clean.
  - intros c l. apply commit_leaves_clean.
Defined.

Definition lab_inventory : Inventory := {|
  devices := {[ "r1" := demo_entry ]}; blocklist_defaults := None; source_path := "" |}.
Definition manager (taint : bool) (failures : nat) (j : Junos) : DeviceManager :=
  mk_manager lab_inventory "" [] false false tt
    (mk_pool ∅ (if taint then {[ "r1" := {| failed_at := 0; phases := "unlock=lost" |} ]} else ∅)
       POOL_IDLE_TIMEOUT [])
    (mk_lab j failures 0 false).
Definition lab_world (taint : bool) (failures : nat) (j : Junos) : World DeviceManager :=
  mk_world 0 None (manager taint failures j).

(** Two refused connections, then a session that is pooled again. *)
Definition demo_commit_run :=
  run lab_backend "r1" (req (CommitWithComment "c")) (from_secs 60) 30 (lab_world false 2 (fresh 1 true)).
Example demo_run_pools :
  (demo_commit_run.1, spawned (pool (w_backend demo_commit_run.2)), w_now demo_commit_run.2) =
  (Ok (ResCommitted "new"), [ReturnTask "r1" 0%nat], (3 * 5 + 2 * from_secs 3 + 5)%N).
Proof. vm_compute. reflexivity. Qed.
Example demo_retry_exhausted :
  (run lab_backend "r1" (req DryRun) (from_secs 60) 30 (lab_world false 3 (fresh 1 true))).1 =
  Err (Rustez (RzNetconf NetconfTransport, "Connection refused (os error 111)")).
Proof. vm_compute. reflexivity. Qed.

(** A discard clears the router's taint although it never took the lock: the
    other session that holds it still does, and the next caller is not warned. *)
Example discard_clears_taint_without_lock :
  let r := run lab_backend "r1" (req Discard) (from_secs 60) 30
             (lab_world true 0 (mk_junos "old" (Some "x") true 1 true)) in
  (taints (pool (w_backend (lab_world true 0 (fresh 1 true)))) !! "r1",
   taints (pool (w_backend r.2)) !! "r1", j_locked (lab_junos (net (w_backend r.2)))) =
  (Some {| failed_at := 0; phases := "unlock=lost" |}, None, true).
Proof. vm_compute. reflexivity. Qed.

Lemma run_taints_witness : taints (pool (w_backend demo_commit_run.2)) !! "r1" = None.
Proof.
  apply (run_taints lab_backend "r1" (req (CommitWithComment "c")) (from_secs 60) 30
    (lab_world false 2 (fresh 1 true)) demo_commit_run.1); vm_compute; reflexivity.
Defined.


Lemma try_checkout_spec_witness :
  slots (try_checkout (fun _ => true) 10 "r1"
           (mk_pool {[ "r1" := mk_entry 7%nat 0 ]} ∅ POOL_IDLE_TIMEOUT [])).2 !! "r1" = None.
Proof.
  pose proof (try_checkout_spec (fun _ => true) 10 "r1"
    (mk_pool {[ "r1" := mk_entry 7%nat 0 ]} ∅ POOL_IDLE_TIMEOUT []) _ _ (surjective_pairing _))
    as (-> & _ & _).
  vm_compute. reflexivity.
Defined.

Definition one_guard : System := mk_system pool_new [mk_guard (Some 3%nat) "r1" true].

Lemma drop_agrees_with_is_reusable_witness :
  let g := mk_guard (Some 3%nat) "r1" true in
  spawned (pool (drop_now g (manager false 0 (fresh 1 true)))) = [ReturnTask "r1" 3%nat].
Proof.
  apply (proj1 (proj1 (drop_agrees_with_is_reusable (mk_guard (Some 3%nat) "r1" true)
    (manager false 0 (fresh 1 true)) 3%nat eq_refl))).
  vm_compute. reflexivity.
Defined.

End DemoPool.
