(* ===== verification/JunosTransaction.v ===== *)
(** * The change-set transaction on Junos ([junos_transaction.rs])

    [JunosTransaction] drives one device through lock, fingerprint, stage,
    diff, validate, commit, rollback and the confirming commit, holding the
    session that owns the candidate lock from one call to the next.  The calls
    of [rustez]'s [ConfigManager] and of its raw RPC are parameters; what a
    [PooledDevice] does is [DeviceManager]'s. *)

From S2P Require Import Prelude RustStr Fmt Errors Helpers Inventory Async.
From S2P Require Import CandidateTransaction XmlText DeviceManager.
From Stdlib Require Import Ascii.

(** ** Data *)

Record ConfigPayloadSpec := { spec_text : string; spec_format : option string; spec_mode : option string }.
Record JunosAction := { act_payload : option ConfigPayloadSpec; act_rollback_source : option N }.

Definition validate_shape (a : JunosAction) (index : N) : Result unit string :=
  match act_payload a, act_rollback_source a with
  | Some _, None | None, Some _ => Ok tt
  | None, None => Err ("action " ^^ dec index
      ^^ " has neither `payload` nor `rollback_source`; exactly one is required. If you meant to load configuration, the field is `payload`, an object of the form {"
      ^^ dquote ^^ "text" ^^ dquote ^^ ": " ^^ dquote ^^ "<config>" ^^ dquote ^^ ", "
      ^^ dquote ^^ "format" ^^ dquote ^^ ": " ^^ dquote ^^ "set" ^^ dquote ^^ "|"
      ^^ dquote ^^ "text" ^^ dquote ^^ "|" ^^ dquote ^^ "xml" ^^ dquote ^^ "}")
  | Some _, Some _ => Err ("action " ^^ dec index
      ^^ " sets both `payload` and `rollback_source`; exactly one is required")
  end.

Record JunosValidation := { valid : bool; details : option string }.

(** [mecmcp_changeset]'s outcome types, as the source builds them. *)
Inductive CommitOutcome :=
  | Reconciled (succeeded : bool) (job_id : option string) (details : option string)
  | Indeterminate (reason : string)
  | AwaitingConfirmation (job_id : option string) (rollback_deadline_unix : N) (details : option string)
  | Detached (job_id : string).
Inductive RollbackRef := Archive (n : N) | CandidateRevert | Custom (target : string).
Record RollbackOutcome := { ro_succeeded : bool; ro_details : option string }.

(** [mecmcp_audit::Attribution] *)
Inductive ActorType := Human | Agent | Unknown.
Record AgentIdentity := { provider : string; provider_tier : string; model_id : string }.
Record Attribution := {
  change_ref : option string;
  principal : string;
  on_behalf_of : option string;
  actor_type : ActorType;
  agent : option AgentIdentity;
  request_id : string;
  approver : option string;
  change_set_id : option string
}.

(** ** The commit comment *)

Definition CHANGE_SET_ID_COMMENT_PREFIX : nat := 16.
Definition MAX_APPROVER_IN_COMMENT : nat := 64.

Definition agent_info (a : Attribution) : string :=
  match agent a with
  | Some ag =>
      let model := if is_empty (model_id ag) then "" else " model=" ^^ model_id ag in
      " via " ^^ provider ag ^^ "-" ^^ provider_tier ag ^^ model
  | None => ""
  end.
Definition approval_info (a : Attribution) : string :=
  match approver a with
  | Some approver =>
      if (N.of_nat MAX_APPROVER_IN_COMMENT <? len approver)%N
      then " approved-by=" ^^ take_chars MAX_APPROVER_IN_COMMENT approver ^^ "..."
      else " approved-by=" ^^ approver
  | None => ""
  end.
Definition change_set_info (a : Attribution) : string :=
  match change_set_id a with
  | Some id => " change-set=" ^^ take_chars CHANGE_SET_ID_COMMENT_PREFIX id
  | None => ""
  end.

Definition format_attribution (a : Attribution) : string :=
  let actor := match actor_type a with Human => "human" | Agent => "agent" | Unknown => "unknown" end in
  default "no-change-ref" (change_ref a) ^^ " by " ^^ principal a ^^ " (" ^^ actor ^^ ")"
  ^^ " on-behalf-of=" ^^ default "self" (on_behalf_of a) ^^ agent_info a
  ^^ " request.id=" ^^ request_id a ^^ approval_info a ^^ change_set_info a.

Definition escape_xml_text (value : string) : string :=
  replace_byte ">" "&gt;" (replace_byte "<" "&lt;" (replace_byte "&" "&amp;" value)).

Definition build_confirmed_commit_xml (minutes : N) (comment : string) : string :=
  "<commit-configuration><confirmed/><confirm-timeout>" ^^ dec minutes
  ^^ "</confirm-timeout><log>" ^^ escape_xml_text comment ^^ "</log></commit-configuration>".

Section junos.
Context {X : External}.

Definition junos_confirm_minutes (timeout : N) : Result N JmcpError :=
  let seconds := as_secs timeout in
  if (seconds <? 60)%N then
    Err (Validation ("confirm timeout must be at least 60 seconds; Junos schedules the rollback in whole minutes and cannot honour "
      ^^ dec seconds ^^ "s"))
  else if negb (seconds mod 60 =? 0)%N then
    Err (Validation ("confirm timeout must be a whole number of minutes; Junos cannot honour "
      ^^ dec seconds ^^ "s"))
  else if (seconds / 60 <=? U32_MAX)%N then Ok (seconds / 60)%N
  else Err (Validation "confirm timeout is implausibly large").

Definition uncertainty_needles : list string :=
  ["timeout"; "timed out"; "connection closed"; "connection reset"; "broken pipe";
   "unexpected eof"; "channel closed"; "connection lost"; "commit status unknown"].

Definition is_transport_uncertainty (error : RustEzError) : bool :=
  match rustez_view error with
  | RzNetconf (NetconfRpc (RpcServerError _)) => false
  | RzNetconf (NetconfRpc RpcCommitUnknown) => true
  | RzNetconf (NetconfRpc RpcParseError) => true
  | RzNetconf (NetconfTransport | NetconfFraming) => true
  | RzNetconf NetconfProtocol => true
  | RzSshConfig | RzFacts | RzConfig => true
  | RzXmlParse => true
  | _ =>
      let err_str := to_ascii_lowercase (rustez_display error) in
      existsb (fun needle => contains needle err_str) uncertainty_needles
  end.

(** An action resolved to a load instruction, before any session is opened. *)
Inductive ResolvedAction :=
  | ResolvedRollback (n : N)
  | ResolvedLoad (payload : ConfigPayload) (action : LoadAction).

Fixpoint check_exactly_one (i : N) (actions : list JunosAction) : Result unit JmcpError :=
  match actions with
  | [] => Ok tt
  | a :: rest =>
      match act_payload a, act_rollback_source a with
      | Some _, Some _ => Err (Validation ("action " ^^ dec i
          ^^ " has both payload and rollback_source; exactly one is required"))
      | None, None => Err (Validation ("action " ^^ dec i
          ^^ " has neither payload nor rollback_source"))
      | _, _ => check_exactly_one (i + 1) rest
      end
  end.

Definition resolve_action (a : JunosAction) : Result ResolvedAction JmcpError :=
  match act_rollback_source a with
  | Some n => Ok (ResolvedRollback n)
  | None =>
      match act_payload a with
      | Some spec =>
          let format := default "set" (spec_format spec) in
          let? payload := build_config_payload (spec_text spec) (Some format) in
          let? requested_mode := parse_load_mode (spec_mode spec) in
          let? load_action := resolve_load_action format requested_mode in
          Ok (ResolvedLoad payload load_action)
      | None => Err (Validation "exactly-one validation already checked this")
      end
  end.

(** [rustez]'s [ConfigManager] over an open configuration, and its raw RPC. *)
Class ConfigOps (D Net : Type) := {
  cfg_lock : D -> Future Net unit RustEzError;
  cfg_rollback : D -> N -> Future Net unit RustEzError;
  cfg_load : D -> ConfigPayload -> LoadAction -> Future Net unit RustEzError;
  cfg_diff : D -> Future Net (option string) RustEzError;
  cfg_commit_check : D -> Future Net unit RustEzError;
  cfg_commit_with_comment : D -> string -> Future Net unit RustEzError;
  device_rpc : D -> Net -> Result unit RustEzError;
  call_xml : D -> string -> Future Net string RustEzError
}.

Context {D Net : Type} `{!RustezClient D Net} `{!ConfigOps D Net}.
(** SHA-256 as lowercase hexadecimal, the per-phase cleanup budget, and the
    system clock in seconds since the epoch. *)
Context (sha256_hex : string -> string) (cleanup_timeout : N) (unix_now : N).

Abbreviation W := (World (DeviceManager (D := D) (Net := Net))).
Abbreviation Guard := (PooledDevice D).

Definition PANIC : JmcpError := Validation "PooledDevice used after drop".

Definition drop_in (g : Guard) (w : W) : W := update (drop_now g) w.
Definition drop_opt (g : option Guard) (w : W) : W :=
  match g with Some g => drop_in g w | None => w end.

(** A call on the device through the network. *)
Definition call {T} (f : Future Net T RustEzError) (w : W) : Result T RustEzError * W :=
  await (fut_net f) w.

(** [dev.config()?]: the handle whose configuration the calls that follow act
    on, or the error that returns early. *)
Definition config_of (g : Guard) (w : W) : Result D JmcpError :=
  match dev g with
  | None => Err PANIC
  | Some d => map_err Rustez (map_result (fun _ => d) (device_config d (net (w_backend w))))
  end.

(** A method of the guard. *)
Definition with_guard {T} (f : Future GuardState T JmcpError) (g : Guard) (w : W)
  : Result T JmcpError * Guard * W :=
  let (r, w') := await f (mk_world (w_now w) (w_cancel_at w) (g, w_backend w)) in
  (r, (w_backend w').1, mk_world (w_now w') (w_cancel_at w') (w_backend w').2).

Definition release (g : Guard) (w : W) : Result LockRelease JmcpError * Guard * W :=
  with_guard (release_lock cleanup_timeout) g w.

Definition open_device (router : string) (w : W) : Result Guard JmcpError * W :=
  await (open (w_now w) router) w.

(** ** [lock] and [unlock]

    [held] is [locked_session]: the guard kept between the calls. *)

Definition lock (router : string) (held : option Guard) (w : W)
  : Result unit JmcpError * option Guard * W :=
  match held with
  | Some _ => (Ok tt, held, w)
  | None =>
      match open_device router w with
      | (Err e, w) => (Err e, None, w)
      | (Ok dev, w) =>
          let dev := prevent_reuse dev in
          match config_of dev w with
          | Err e => (Err e, None, drop_in dev w)
          | Ok d =>
              match call (cfg_lock d) w with
              | (Err error, w) => (Err (Rustez error), None, drop_in (allow_reuse dev) w)
              | (Ok _, w) => (Ok tt, Some dev, w)
              end
          end
      end
  end.

Definition unlock (held : option Guard) (w : W) : Result unit JmcpError * option Guard * W :=
  match held with
  | None => (Ok tt, None, w)
  | Some dev =>
      let '(r, dev, w) := release dev w in
      (map_result (fun _ => tt) r, None, drop_in dev w)
  end.

(** ** [fingerprint] *)

Definition CANDIDATE_RPC : string :=
  "<get-configuration database=" ^^ dquote ^^ "candidate" ^^ dquote ^^ "/>".

Definition rpc_call (g : Guard) (xml : string) (w : W) : Result string JmcpError * W :=
  match dev g with
  | None => (Err PANIC, w)
  | Some d =>
      match device_rpc d (net (w_backend w)) with
      | Err e => (Err (Rustez e), w)
      | Ok _ => let (r, w) := call (call_xml d xml) w in (map_err Rustez r, w)
      end
  end.

Definition fingerprint (router : string) (held : option Guard) (w : W)
  : Result string JmcpError * W :=
  let read := match held with
    | Some session => rpc_call session CANDIDATE_RPC w
    | None =>
        match open_device router w with
        | (Err e, w) => (Err e, w)
        | (Ok dev, w) => let (r, w) := rpc_call dev CANDIDATE_RPC w in (r, drop_in dev w)
        end
    end in
  match read with
  | (Err e, w) => (Err e, w)
  | (Ok candidate_xml, w) =>
      (Ok ("sha256:" ^^ sha256_hex (normalise_candidate_for_fingerprint candidate_xml)), w)
  end.

(** ** [stage] *)

Record Staged := { st_diff : string; st_session : option Guard }.

Definition load_one (d : D) (a : ResolvedAction) (w : W) : Result unit RustEzError * W :=
  match a with
  | ResolvedRollback n => call (cfg_rollback d n) w
  | ResolvedLoad p la => call (cfg_load d p la) w
  end.

(** The load loop: the number loaded and the error that stopped it, if one did. *)
Fixpoint load_all (d : D) (loaded : N) (actions : list ResolvedAction) (w : W)
  : option (N * RustEzError) * W :=
  match actions with
  | [] => (None, w)
  | a :: rest =>
      match load_one d a w with
      | (Err error, w) => (Some (loaded, error), w)
      | (Ok _, w) => load_all d (loaded + 1) rest w
      end
  end.

(** The clean-up after a load failed: revert what was loaded, release the lock,
    and report both with the primary error. *)
Definition revert_partial (d : D) (g : Guard) (loaded : N) (error : RustEzError) (w : W)
  : JmcpError * W :=
  let '(revert_err, w) :=
    if (0 <? loaded)%N then
      let (r, w) := call (cfg_rollback d 0) w in
      (match r with Err e => Some (rustez_display e) | Ok _ => None end, w)
    else (None, w) in
  let '(r, g, w) := release g w in
  let unlock_err := match r with Err e => Some (to_string e) | Ok _ => None end in
  let primary := rustez_display error in
  let err := match revert_err, unlock_err with
    | Some rv, Some ul => CandidateCleanupFailed primary rv ul
    | Some rv, None => CandidateCleanupFailed primary rv "ok"
    | None, Some ul =>
        CandidateCleanupFailed primary (if (0 <? loaded)%N then "ok" else "skipped") ul
    | None, None => Rustez error
    end in
  (err, drop_in g w).

(** From a session in hand to the staged handle. *)
Definition stage_on (dev : Guard) (already_locked : bool) (actions : list ResolvedAction) (w : W)
  : Result Staged JmcpError * W :=
  match config_of dev w with
  | Err e => (Err e, drop_in dev w)
  | Ok d =>
      let lock_result := if already_locked then (Ok tt, w) else call (cfg_lock d) w in
      match lock_result with
      | (Err error, w) => (Err (Rustez error), drop_in (allow_reuse dev) w)
      | (Ok _, w) =>
          match load_all d 0 actions w with
          | (Some (loaded, error), w) =>
              let (e, w) := revert_partial d dev loaded error w in (Err e, w)
          | (None, w) =>
              match call (cfg_diff d) w with
              | (Err e, w) => (Err (Rustez e), drop_in dev w)
              | (Ok diff, w) => (Ok {| st_diff := default "" diff; st_session := Some dev |}, w)
              end
          end
      end
  end.

Definition stage (router : string) (held : option Guard) (actions : list JunosAction) (w : W)
  : Result Staged JmcpError * option Guard * W :=
  match (let? _ := check_exactly_one 0 actions in collect_results resolve_action actions) with
  | Err e => (Err e, held, w)
  | Ok resolved =>
      match held with
      | Some session => let (r, w) := stage_on session true resolved w in (r, None, w)
      | None =>
          match open_device router w with
          | (Err e, w) => (Err e, None, w)
          | (Ok dev, w) =>
              let (r, w) := stage_on (prevent_reuse dev) false resolved w in (r, None, w)
          end
      end
  end.

(** ** [validate] and [commit]

    The staged handle stays with the caller, so these return its session as
    the call leaves it. *)

Definition NO_SESSION : JmcpError :=
  Validation "staged transaction has no session; already consumed?".

Definition validate (staged : Staged) (w : W) : Result JunosValidation JmcpError * W :=
  match st_session staged with
  | None => (Err NO_SESSION, w)
  | Some session =>
      match config_of session w with
      | Err e => (Err e, w)
      | Ok d =>
          match call (cfg_commit_check d) w with
          | (Ok _, w) => (Ok {| valid := true; details := None |}, w)
          | (Err error, w) =>
              (match classify_check_error (Rustez error) with
               | CheckValid => Ok {| valid := true; details := None |}
               | CheckInvalid det => Ok {| valid := false; details := Some det |}
               | CheckFailed det =>
                   Err (Validation ("commit-check could not reach a verdict: " ^^ det))
               end, w)
          end
      end
  end.

Definition confirmed_commit_on_session (session : Guard) (minutes : N) (comment : string) (w : W)
  : Result CommitOutcome JmcpError * Guard * W :=
  let xml := build_confirmed_commit_xml minutes comment in
  match dev session with
  | None => (Err PANIC, session, w)
  | Some d =>
      match device_rpc d (net (w_backend w)) with
      | Err e => (Err (Rustez e), session, w)
      | Ok _ =>
          match call (call_xml d xml) w with
          | (Ok _, w) =>
              (Ok (AwaitingConfirmation None (unix_now + minutes * 60)
                 (Some ("confirmed commit issued; the device reverts in " ^^ dec minutes
                    ^^ " minute(s) unless a confirming commit is received"))),
               allow_reuse session, w)
          | (Err error, w) =>
              if is_transport_uncertainty error then
                (Ok (Indeterminate ("confirmed commit sent but the outcome is unknown: "
                   ^^ rustez_display error ^^ "; the device may be holding a pending rollback")),
                 session, w)
              else (Err (Rustez error), session, w)
          end
      end
  end.

Definition set_session (staged : Staged) (g : Guard) : Staged :=
  {| st_diff := st_diff staged; st_session := Some g |}.

Definition commit (staged : Staged) (attribution : Attribution) (confirm_timeout : option N) (w : W)
  : Result CommitOutcome JmcpError * Staged * W :=
  let confirm_minutes := match confirm_timeout with
    | Some timeout => map_result Some (junos_confirm_minutes timeout)
    | None => Ok None
    end in
  match confirm_minutes with
  | Err e => (Err e, staged, w)
  | Ok confirm_minutes =>
      match st_session staged with
      | None => (Err NO_SESSION, staged, w)
      | Some session =>
          let comment := format_attribution attribution in
          match confirm_minutes with
          | Some minutes =>
              let '(r, g, w) := confirmed_commit_on_session session minutes comment w in
              (r, set_session staged g, w)
          | None =>
              match config_of session w with
              | Err e => (Err e, staged, w)
              | Ok d =>
                  match call (cfg_commit_with_comment d comment) w with
                  | (Ok _, w) =>
                      let '(r, g, w) := release session w in
                      (Ok match r with
                          | Ok LockConfirmed => Reconciled true None (Some "commit succeeded")
                          | Ok ClosedUnverified => Reconciled true None
                              (Some "commit succeeded; session closed to release the candidate lock, release not acknowledged by the device")
                          | Err release_error => Indeterminate
                              ("commit succeeded but releasing the candidate lock failed: "
                               ^^ to_string release_error ^^ "; lock state unknown")
                          end, set_session staged g, w)
                  | (Err error, w) =>
                      (Ok (if is_transport_uncertainty error
                           then Indeterminate ("commit RPC timed out or transport dropped: "
                                  ^^ rustez_display error)
                           else Reconciled false None (Some (rustez_display error))),
                       staged, w)
                  end
              end
          end
      end
  end.

(** [ReleaseStaged::release]: whether the session is known to hold nothing. *)
Definition release_staged (staged : Staged) (w : W) : bool * Staged * W :=
  let emptied := {| st_diff := st_diff staged; st_session := None |} in
  match st_session staged with
  | None => (true, staged, w)
  | Some session =>
      let n := net (w_backend w) in
      if is_reusable (is_config_db_open n) (touched_candidate n) session
      then (true, emptied, drop_in session w)
      else
        let '(r, g, w) := with_guard
          (fut_bind (fut_timeout (F := JmcpError) cleanup_timeout close_in_place)
             (fun r => fut_ret match r with Ok (Some res) => res | _ => Err (Validation "") end))
          session w in
        (is_ok r, emptied, drop_in g w)
  end.

(** ** [rollback] and [confirm_commit] *)

(** [cfg.rollback(0)] with its failure only logged. *)
Definition revert_logged (d : D) (w : W) : W := (call (cfg_rollback d 0) w).2.
Definition release_logged (g : Guard) (w : W) : W :=
  let '(_, g, w) := release g w in drop_in g w.

Definition rollback (router : string) (to : RollbackRef) (w : W)
  : Result RollbackOutcome JmcpError * W :=
  match to with
  | Archive n =>
      match open_device router w with
      | (Err e, w) => (Err e, w)
      | (Ok dev, w) =>
          let dev := prevent_reuse dev in
          match config_of dev w with
          | Err e => (Err e, drop_in dev w)
          | Ok d =>
              match call (cfg_lock d) w with
              | (Err lock_error, w) => (Err (Rustez lock_error), drop_in (allow_reuse dev) w)
              | (Ok _, w) =>
                  match call (cfg_rollback d n) w with
                  | (Err load_error, w) =>
                      (Err (Rustez load_error), release_logged dev (revert_logged d w))
                  | (Ok _, w) =>
                      match call (cfg_commit_with_comment d ("rollback to archive " ^^ dec n)) w with
                      | (Ok _, w) =>
                          (Ok {| ro_succeeded := true;
                                 ro_details := Some ("rollback to archive " ^^ dec n ^^ " committed") |},
                           release_logged dev w)
                      | (Err commit_error, w) =>
                          (Ok {| ro_succeeded := false;
                                 ro_details := Some (rustez_display commit_error) |},
                           release_logged dev (revert_logged d w))
                      end
                  end
              end
          end
      end
  | CandidateRevert =>
      match open_device router w with
      | (Err e, w) => (Err e, w)
      | (Ok dev, w) =>
          match config_of dev w with
          | Err e => (Err e, drop_in dev w)
          | Ok d =>
              let (r, w) := call (cfg_rollback d 0) w in
              (match r with
               | Ok _ => Ok {| ro_succeeded := true;
                               ro_details := Some "candidate reverted (rollback 0)" |}
               | Err error =>
                   if is_transport_uncertainty error
                   then Err (Validation ("candidate revert (rollback 0) outcome unknown: "
                               ^^ rustez_display error))
                   else Ok {| ro_succeeded := false; ro_details := Some (rustez_display error) |}
               end, drop_in dev w)
          end
      end
  | Custom target =>
      (Err (Validation ("custom rollback target '" ^^ target ^^ "' is not supported on Junos")), w)
  end.

Definition confirm_commit (router : string) (attribution : Attribution) (w : W)
  : Result CommitOutcome JmcpError * W :=
  match open_device router w with
  | (Err e, w) => (Err e, w)
  | (Ok dev, w) =>
      match config_of dev w with
      | Err e => (Err e, drop_in dev w)
      | Ok d =>
          let (r, w) := call (cfg_commit_with_comment d
                          ("Confirming commit: " ^^ format_attribution attribution)) w in
          let outcome := match r with
            | Ok _ => Reconciled true None (Some "confirming commit succeeded")
            | Err error => Reconciled false None (Some (rustez_display error))
            end in
          let '(_, dev, w) := with_guard close_in_place dev w in
          (Ok outcome, drop_in dev w)
      end
  end.

End junos.
