(* ===== verification/JunosTransactionSpec.v ===== *)
(** * What the Junos change-set transaction promises

    The commit comment and its escaping; the confirm window; what [commit]
    may report about a commit; what [stage] reports when a load fails, and
    what becomes of the session; and the session [lock] keeps. *)

From S2P Require Import Prelude RustStr Fmt Errors Helpers Inventory Async.
From S2P Require Import CandidateTransaction CandidateSpec DeviceManager DeviceManagerSpec JunosTransaction.
From Stdlib Require Import Ascii.

(** ** Text *)

(** The escaped form of one byte, and the reverse of escaping. *)
Definition escape_byte (c : ascii) : string :=
  if Ascii.eqb c "&" then "&amp;" else if Ascii.eqb c "<" then "&lt;"
  else if Ascii.eqb c ">" then "&gt;" else String c "".
Fixpoint flat_map_str (f : ascii -> string) (s : string) : string :=
  match s with String c s' => f c ^^ flat_map_str f s' | "" => "" end.

Fixpoint unescape_xml_text (s : string) : string :=
  match s with
  | String "&" (String "a" (String "m" (String "p" (String ";" s')))) => String "&" (unescape_xml_text s')
  | String "&" (String "l" (String "t" (String ";" s'))) => String "<" (unescape_xml_text s')
  | String "&" (String "g" (String "t" (String ";" s'))) => String ">" (unescape_xml_text s')
  | String c s' => String c (unescape_xml_text s')
  | "" => ""
  end.

(** The three passes of the source escape each byte on its own. *)
Lemma escape_xml_text_bytes s : escape_xml_text s = flat_map_str escape_byte s.
Proof.
  unfold escape_xml_text. induction s as [|c s IH]; [done|].
  cbn [flat_map_str replace_byte]. unfold escape_byte at 1.
  destruct (Ascii.eqb_spec c "&") as [->|H1].
  { rewrite !replace_byte_app, IH. done. }
  cbn [replace_byte]. destruct (Ascii.eqb_spec c "<") as [->|H2].
  { rewrite replace_byte_app, IH. done. }
  cbn [replace_byte]. destruct (Ascii.eqb_spec c ">") as [->|H3]; by rewrite IH.
Qed.

Lemma unescape_other c s : c <> "&"%char ->
  unescape_xml_text (String c s) = String c (unescape_xml_text s).
Proof. intros H. destruct c as [[] [] [] [] [] [] [] []]; done. Qed.

Lemma escape_byte_unescape c s :
  unescape_xml_text (escape_byte c ^^ s) = String c (unescape_xml_text s).
Proof.
  unfold escape_byte. destruct (Ascii.eqb_spec c "&") as [->|H1]; [done|].
  destruct (Ascii.eqb_spec c "<") as [->|H2]; [done|].
  destruct (Ascii.eqb_spec c ">") as [->|H3]; [done|]. by apply unescape_other.
Qed.

Lemma flat_map_str_app f a b : flat_map_str f (a ^^ b) = flat_map_str f a ^^ flat_map_str f b.
Proof. induction a as [|c a IH]; [done|]. cbn. by rewrite IH, app_str_assoc. Qed.

Fixpoint count_byte (c : ascii) (s : string) : nat :=
  match s with
  | String d s' => (if Ascii.eqb c d then 1 else 0) + count_byte c s'
  | "" => 0
  end.
Lemma count_byte_app c a b : count_byte c (a ^^ b) = (count_byte c a + count_byte c b)%nat.
Proof. induction a as [|d a IH]; [done|]. cbn. rewrite IH. lia. Qed.
Lemma count_byte_none c s :
  str_forall (fun d => negb (Ascii.eqb c d)) s = true -> count_byte c s = 0%nat.
Proof.
  induction s as [|d s IH]; [done|]. cbn. rewrite andb_true_iff, negb_true_iff.
  intros [-> H]. by apply IH.
Qed.

Definition no_markup (c : ascii) : bool := negb (Ascii.eqb c "<" || Ascii.eqb c ">").

(** A commit comment cannot break out of the RPC it is put into: escaped
    text holds no angle bracket, whatever the comment, and nothing of the
    comment is lost, since unescaping gives it back.  So the confirmed-commit
    RPC has the same number of tags whatever the comment says. *)
Theorem escape_xml_text_safe s minutes :
  str_forall no_markup (escape_xml_text s) = true /\
  unescape_xml_text (escape_xml_text s) = s /\
  count_byte "<" (build_confirmed_commit_xml minutes s) = 7%nat.
Proof.
  assert (Hno : str_forall no_markup (flat_map_str escape_byte s) = true).
  { induction s as [|c s IH]; [done|]. cbn [flat_map_str]. rewrite str_forall_app, IH, andb_true_r.
    unfold escape_byte. destruct (Ascii.eqb_spec c "&"); [done|].
    destruct (Ascii.eqb_spec c "<"); [done|]. destruct (Ascii.eqb_spec c ">"); [done|].
    cbn [str_forall]. unfold no_markup. rewrite andb_true_r, negb_true_iff.
    apply orb_false_iff. by split; apply Ascii.eqb_neq. }
  rewrite !escape_xml_text_bytes. split; [done|]. split.
  - clear Hno. induction s as [|c s IH]; [done|]. cbn [flat_map_str].
    by rewrite escape_byte_unescape, IH.
  - unfold build_confirmed_commit_xml. rewrite !count_byte_app.
    rewrite (count_byte_none "<" (dec minutes)), (count_byte_none "<" (escape_xml_text s)); [done|..].
    + rewrite escape_xml_text_bytes. eapply str_forall_impl; [|exact Hno].
      intros c. unfold no_markup. rewrite (Ascii.eqb_sym "<").
      by destruct (Ascii.eqb c "<").
    + apply dec_avoids. by intros [[] [] [] [] [] [] [] []].
Qed.

(** An approver longer than the bound in bytes but not in characters is marked
    as truncated although nothing was cut. *)
Definition kana33 : string := str_take 99 (String.concat "" (repeat "ア" 33)).
Example approver_marked_but_not_truncated :
  approval_info {| change_ref := None; principal := "p"; on_behalf_of := None;
    actor_type := Human; agent := None; request_id := "r"; approver := Some kana33;
    change_set_id := None |} = " approved-by=" ^^ kana33 ^^ "...".
Proof. vm_compute. reflexivity. Qed.

Section junos.
Context {X : External}.

(** a confirm window is accepted exactly when it is a whole number of
    minutes (ignoring the part of a second below one), at least one, that fits
    a [u32]; the minutes passed to the device are then exactly the window, so
    no caller is told a deadline that the device does not keep. *)
Theorem junos_confirm_minutes_spec t n :
  junos_confirm_minutes t = Ok n <->
  as_secs t = (60 * n)%N /\ (1 <= n <= U32_MAX)%N.
Proof.
  unfold junos_confirm_minutes. cbn zeta. set (s := as_secs t).
  destruct (N.ltb_spec s 60); [split; [done|lia]|].
  pose proof (N.div_mod s 60 ltac:(done)) as Hdm.
  pose proof (N.mod_upper_bound s 60 ltac:(done)) as Hub.
  destruct (N.eqb_spec (s mod 60) 0) as [Hm|Hm]; cbn [negb].
  - destruct (N.leb_spec (s / 60) U32_MAX); split.
    + intros [= <-]. lia.
    + intros [Hs Hn]. f_equal. lia.
    + done.
    + intros [Hs Hn]. exfalso. assert (s / 60 = n)%N by lia. lia.
  - split; [done|]. intros [Hs _]. exfalso. apply Hm. rewrite Hs, N.mul_comm.
    by apply N.Div0.mod_mul.
Qed.

Context {D Net : Type} `{!RustezClient D Net} `{!ConfigOps D Net}.
Context (cleanup_timeout unix_now : N).
Abbreviation W := (World (DeviceManager (D := D) (Net := Net))).

(** ** Commit *)


(** ** Staging *)

Lemma release_touched (g : PooledDevice D) (w : W) :
  dev_is (touched_candidate (net (w_backend w))) g = true ->
  dev (release cleanup_timeout g w).1.2 = None /\
  pool (w_backend (release cleanup_timeout g w).2) = pool (w_backend w).
Proof.
  intros Ht. unfold release, with_guard.
  destruct (release_lock_touched cleanup_timeout g (w_backend w) Ht) as (_ & H1 & _ & _ & H2).
  unfold await. cbn. by split.
Qed.

Lemma drop_none (g : PooledDevice D) (w : W) :
  dev g = None -> w_backend (drop_in g w) = w_backend w.
Proof.
  intros H. unfold drop_in, update, drop_now, on_pool, drop_guard, drop_task. cbn.
  rewrite H. by destruct (w_backend w).
Qed.

(** A load that fails part-way is never left unreported.  [stage] returns
    the load's own error exactly when everything already loaded was reverted
    (or nothing had been) and the lock was released; otherwise it returns a
    cleanup failure that carries the load's error.  And if the clean-up left
    the candidate touched, the session is gone for good: nothing is handed to
    the pool and nothing is left for a later close to discard. *)
Theorem stage_load_failure dev0 locked0 acts w d w1 loaded error w2 :
  config_of dev0 w = Ok d ->
  (if locked0 : bool then (Ok tt, w) else call (cfg_lock d) w) = (Ok tt, w1) ->
  load_all d 0 acts w1 = (Some (loaded, error), w2) ->
  let rv := call (cfg_rollback d 0) w2 in
  let w3 := if (0 <? loaded)%N then rv.2 else w2 in
  let rel := release cleanup_timeout dev0 w3 in
  exists e w', stage_on cleanup_timeout dev0 locked0 acts w = (Err e, w') /\
    (e = Rustez error <-> (loaded = 0%N \/ is_ok rv.1 = true) /\ is_ok rel.1.1 = true) /\
    (e <> Rustez error -> exists rb ul, e = CandidateCleanupFailed (rustez_display error) rb ul) /\
    (dev_is (touched_candidate (net (w_backend w3))) dev0 = true ->
     pool (w_backend w') = pool (w_backend w3)).
Proof.
  intros Hc Hl Ha rv w3 rel. unfold stage_on. rewrite Hc, Hl, Ha. unfold revert_partial.
  assert (Hrv : (if (0 <? loaded)%N then let (r, w) := call (cfg_rollback d 0) w2 in
      (match r with Err e => Some (rustez_display e) | Ok _ => None end, w) else (None, w2)) =
    (if (0 <? loaded)%N then match rv.1 with Err e => Some (rustez_display e) | Ok _ => None end
     else None, w3)).
  { subst rv w3. destruct (0 <? loaded)%N; [|done]. by destruct (call _ w2). }
  rewrite Hrv. fold rel.
  pose proof (release_touched dev0 w3) as Ht. fold rel in Ht.
  destruct rel as [[r g] w4]. cbn [fst snd] in *.
  eexists _, _. split; [reflexivity|].
  assert (Hpool : dev_is (touched_candidate (net (w_backend w3))) dev0 = true ->
    pool (w_backend (drop_in g w4)) = pool (w_backend w3)).
  { intros H. destruct (Ht H) as [H1 H2]. by rewrite drop_none. }
  destruct (N.ltb_spec 0 loaded) as [Hp|Hz].
  - destruct rv.1, r; cbn [is_ok]; (split; [|split; [|done]]);
      try (split; [intros [=]; done|intros [[->|?] ?]; try done; lia]); try (by eauto); try done.
    all: try (split; [by auto|done]).
  - assert (loaded = 0%N) as -> by lia. destruct r; cbn [is_ok]; (split; [|split; [|done]]).
    + split; [by auto|done].
    + done.
    + split; [done|by intros [_ ?]].
    + eauto.
Qed.

(** ** The running configuration *)

(** Junos documents that only a commit changes the running configuration; the
    calls below do not commit. *)
Record NoCommit {A} (obs : Net -> A) : Prop := {
  nc_open p : keeps obs (device_open p);
  nc_close d : keeps obs (device_close d);
  nc_lock d : keeps obs (cfg_lock d);
  nc_unlock d : keeps obs (config_unlock d);
  nc_rollback d n : keeps obs (cfg_rollback d n);
  nc_load d p a : keeps obs (cfg_load d p a);
  nc_diff d : keeps obs (cfg_diff d);
  nc_check d : keeps obs (cfg_commit_check d)
}.

Section no_commit.
Context {A : Type} (obs : Net -> A) (L : NoCommit obs).
Abbreviation seen w := (obs (net (w_backend w))).

Lemma call_seen {T} (f : Future Net T RustEzError) (w : W) r w' :
  keeps obs f -> call f w = (r, w') -> seen w' = seen w.
Proof. intros Hf [= _ <-]. apply Hf. Qed.

Lemma drop_seen (g : PooledDevice D) (w : W) : seen (drop_in g w) = seen w.
Proof. done. Qed.

Lemma open_seen router (w : W) r w' : open_device router w = (r, w') -> seen w' = seen w.
Proof.
  intros [= _ <-]. apply (open_keeps_seen obs (nc_open obs L) _ router (w_backend w)).
Qed.

Lemma release_seen (g : PooledDevice D) (w : W) r g' w' :
  release cleanup_timeout g w = (r, g', w') -> seen w' = seen w.
Proof.
  unfold release, with_guard, await. intros [= _ _ <-].
  set (gobs := fun s : GuardState => obs (net s.2)).
  assert (Hnet : forall T (f : Future Net T RustEzError), keeps obs f -> keeps gobs (on_net f))
    by (intros T f Hf s0; apply Hf).
  assert (H : keeps gobs (release_lock cleanup_timeout)).
  { intros [g0 m]. unfold release_lock. destruct (dev_is _ g0).
    - apply (keeps_bind gobs); [|intros; apply keeps_ret].
      assert (Hc : keeps gobs (close_in_place (X := X))).
      { intros [g1 m1]. unfold close_in_place. destruct (dev g1) as [d|]; [|by split].
        apply (keeps_try gobs Rustez (on_net (device_close d)) (fun t => fut_ret (Ok t))
          (Hnet _ _ (nc_close obs L d)) (fun t => keeps_ret gobs (Ok t))
          (mk_guard None (router_name g1) (reuse_allowed g1), m1)). }
      by apply keeps_timeout.
    - destruct (dev g0) as [d|]; [|by split]. destruct (device_config d (net m)); [|by split].
      apply (keeps_try gobs); [|intros; apply (keeps_bind gobs); [by split|intros; apply keeps_ret]].
      apply Hnet, L. }
  apply (H (g, w_backend w)).
Qed.

Lemma load_all_seen d n acts (w : W) r w' : load_all d n acts w = (r, w') -> seen w' = seen w.
Proof.
  revert n w; induction acts as [|a acts IH]; intros n w; cbn [load_all]; [by intros [= _ <-]|].
  destruct (load_one d a w) as [[u|e] w1] eqn:H1.
  all: assert (E : seen w1 = seen w) by (destruct a; apply call_seen in H1; try done; apply L).
  - intros H%IH. congruence.
  - by intros [= _ <-].
Qed.

Lemma revert_partial_seen d g loaded e (w : W) r w' :
  revert_partial cleanup_timeout d g loaded e w = (r, w') -> seen w' = seen w.
Proof.
  unfold revert_partial. destruct (0 <? loaded)%N.
  - destruct (call (cfg_rollback d 0) w) as [r1 w1] eqn:H1.
    apply call_seen in H1; [|apply L].
    destruct (release _ g w1) as [[r2 g2] w2] eqn:H2. apply release_seen in H2.
    intros [= _ <-]. rewrite drop_seen. congruence.
  - destruct (release _ g w) as [[r2 g2] w2] eqn:H2. apply release_seen in H2.
    intros [= _ <-]. by rewrite drop_seen.
Qed.

Lemma stage_on_seen g lk acts (w : W) r w' :
  stage_on cleanup_timeout g lk acts w = (r, w') -> seen w' = seen w.
Proof.
  unfold stage_on. destruct (config_of g w) as [d|e]; [|by intros [= _ <-]].
  destruct (if lk : bool then _ else _) as [r1 w1] eqn:H1.
  assert (E1 : seen w1 = seen w)
    by (destruct lk; [by injection H1 as _ <-|apply call_seen in H1; [done|apply L]]).
  destruct r1 as [u|e]; [|by intros [= _ <-]].
  destruct (load_all d 0 acts w1) as [[[n e]|] w2] eqn:H2; apply load_all_seen in H2.
  - destruct (revert_partial _ _ _ _ _ _) as [e' w3] eqn:H3. apply revert_partial_seen in H3.
    intros [= _ <-]. congruence.
  - destruct (call (cfg_diff d) w2) as [r3 w3] eqn:H3. apply call_seen in H3; [|apply L].
    destruct r3; intros [= _ <-]; rewrite ?drop_seen; congruence.
Qed.

(** Everything before the commit is free of effects on the running
    configuration: taking and releasing the lock, staging (whatever it loads
    and however it fails) and validating leave it as it was. *)
Theorem before_commit_keeps_running router held actions staged (w : W) :
  seen (lock router held w).2 = seen w /\
  seen (unlock cleanup_timeout held w).2 = seen w /\
  seen (stage cleanup_timeout router held actions w).2 = seen w /\
  seen (validate staged w).2 = seen w.
Proof.
  split; [|split; [|split]].
  - unfold lock. destruct held; [done|]. destruct (open_device router w) as [[g|e] w1] eqn:H1;
      apply open_seen in H1; [|done].
    destruct (config_of _ w1) as [d|e]; [|done].
    destruct (call (cfg_lock d) w1) as [[u|e] w2] eqn:H2; apply call_seen in H2; try apply L.
    + cbn. congruence.
    + cbn [snd]. rewrite drop_seen. congruence.
  - unfold unlock. destruct held as [g|]; [|done].
    destruct (release _ g w) as [[r g'] w1] eqn:H1. apply release_seen in H1. done.
  - unfold stage. destruct (let? _ := check_exactly_one 0 actions in _) as [acts|e]; [|done].
    destruct held as [g|].
    + destruct (stage_on _ _ _ _ _) as [r w1] eqn:H1. by apply stage_on_seen in H1.
    + destruct (open_device router w) as [[g|e] w1] eqn:H1; apply open_seen in H1; [|done].
      destruct (stage_on _ _ _ _ _) as [r w2] eqn:H2. apply stage_on_seen in H2. cbn. congruence.
  - unfold validate. destruct (st_session staged) as [g|]; [|done].
    destruct (config_of g w) as [d|]; [|done].
    destruct (call (cfg_commit_check d) w) as [[u|e] w1] eqn:H1;
      (apply call_seen in H1; [done|apply L]).
Qed.

End no_commit.

(** while a transaction holds the lock, its session cannot be pooled.
    [lock] succeeds exactly when it keeps a session, one on which the device
    acknowledged the lock and that is marked not reusable; a second [lock] is
    a no-op; and [unlock] always lets the session go. *)
Theorem lock_keeps_session router (w : W) r held w' :
  lock router None w = (r, held, w') ->
  (is_ok r = true <-> held <> None) /\
  (forall g, held = Some g ->
     reuse_allowed g = false /\
     (exists d w1, dev g = Some d /\ is_ok (call (cfg_lock d) w1).1 = true) /\
     lock router (Some g) w' = (Ok tt, Some g, w') /\
     (unlock cleanup_timeout (Some g) w').1.2 = None).
Proof.
  unfold lock at 1. destruct (open_device router w) as [[g|e] w1]; [|by intros [= <- <- <-]].
  destruct (config_of (prevent_reuse g) w1) as [d|e] eqn:Hc; [|by intros [= <- <- <-]].
  destruct (call (cfg_lock d) w1) as [[u|e] w2] eqn:Hl; intros [= <- <- <-]; [|by split].
  split; [done|]. intros g' [= <-]. split; [done|]. split; [|split; [done|]].
  - exists d, w1. rewrite Hl. split; [|done]. unfold config_of in Hc.
    destruct (dev (prevent_reuse g)) as [d'|]; [|done].
    destruct (device_config d' _); [|done]. by injection Hc as ->.
  - unfold unlock. by destruct (release _ _ _) as [[r1 g1] w3].
Qed.

End junos.

(** ** A change set on the lab device *)

Module DemoChange.
Import Demo DemoPool.

Definition lost : RustEzError := (RzNetconf (NetconfRpc RpcCommitUnknown), "connection lost").
Definition refused : RustEzError := (RzNetconf (NetconfRpc (RpcServerError InvalidValue)), "syntax error").

Definition with_junos (l : Lab) (j : Junos) (touched : bool) : Lab :=
  mk_lab j (lab_failures l) (lab_next l) touched.
Definition done_with (l : Lab) : Rpc Lab unit RustEzError := mk_rpc 1 (Ok tt) l (fun _ => l).

#[export] Instance lab_config : ConfigOps nat Lab := {|
  cfg_lock := fun _ l => done_with (with_junos l (with_lock (lab_junos l) true) (lab_touched l));
  cfg_rollback := fun _ _ l => done_with (with_junos l (with_staged (lab_junos l) None) true);
  cfg_load := fun _ p _ l =>
    if String.eqb (payload_text p) "bad" then mk_rpc 1 (Err refused) l (fun _ => l)
    else done_with (with_junos l (with_staged (lab_junos l) (Some (payload_text p))) true);
  cfg_diff := fun _ => instant (Ok (Some "diff"));
  cfg_commit_check := fun _ => instant (Ok tt);
  cfg_commit_with_comment := fun _ _ l =>
    if j_commit_ok (lab_junos l)
    then done_with (with_junos l (mk_junos (default "old" (j_staged (lab_junos l))) None true 1 true) false)
    else mk_rpc 1 (Err lost) l (fun _ => l);
  device_rpc := fun _ _ => Ok tt;
  call_xml := fun _ x => instant (Ok x)
|}.

Definition load_text (t : string) : JunosAction :=
  {| act_payload := Some {| spec_text := t; spec_format := None; spec_mode := None |};
     act_rollback_source := None |}.
Definition who : Attribution := {|
  change_ref := Some "CHG-1"; principal := "bot"; on_behalf_of := None; actor_type := Agent;
  agent := None; request_id := "0a1b"; approver := Some "ann"; change_set_id := None |}.

Example comment_text :
  format_attribution who = "CHG-1 by bot (agent) on-behalf-of=self request.id=0a1b approved-by=ann".
Proof. vm_compute. reflexivity. Qed.

(** The second load is refused: the first is reverted, the touched session is
    closed, and the load's own error comes back. *)
Definition partial : Result Staged JmcpError * option (PooledDevice nat) * World DeviceManager :=
  stage 30 "r1" None [load_text "set a"; load_text "bad"] (lab_world false 0 (fresh 1 true)).
Example partial_stage :
  (partial.1.1, j_staged (lab_junos (net (w_backend partial.2))),
   spawned (pool (w_backend partial.2))) =
  (Err (Rustez refused), None, []).
Proof. vm_compute. reflexivity. Qed.

(** A confirming commit whose reply is lost is reported as a known failure,
    although the commit of a change set would be reported as indeterminate. *)
Example confirm_commit_lost_reply :
  (confirm_commit "r1" who (lab_world false 0 (fresh 1 false))).1 =
    Ok (Reconciled false None (Some "connection lost")) /\
  is_transport_uncertainty lost = true.
Proof. vm_compute. split; reflexivity. Qed.

(** A staged handle on a session of the lab, and the worlds of a failing load. *)
Definition guard0 : PooledDevice nat := mk_guard (Some 0%nat) "r1" false.
Definition staged0 : Staged := {| st_diff := "diff"; st_session := Some guard0 |}.
Definition w0 : World DeviceManager := lab_world false 0 (fresh 1 true).


Definition two_loads : list ResolvedAction :=
  [ResolvedLoad (PayloadSet "set a") LoadSet; ResolvedLoad (PayloadSet "bad") LoadSet].
Definition w_loaded : World DeviceManager := (load_all 0%nat 0 two_loads w0).2.
Lemma stage_load_failure_witness :
  exists e w', stage_on 30 guard0 true two_loads w0 = (Err e, w') /\ e = Rustez refused.
Proof.
  destruct (stage_load_failure (ConfigOps0 := lab_config) 30 guard0 true two_loads w0 0%nat w0 1 refused w_loaded
    eq_refl eq_refl ltac:(vm_compute; reflexivity)) as (e & w' & H1 & H2 & _).
  exists e, w'. split; [exact H1|]. apply H2. vm_compute. split; [right|]; reflexivity.
Defined.

Definition lab_no_commit : NoCommit (fun l : Lab => j_running (lab_junos l)).
Proof.
  split; try done; try (intros; intros l; split; [done|by intros]).
  - intros p l. cbn. unfold connect. by destruct (lab_failures l).
  - intros d p a l. cbn. by destruct (String.eqb (payload_text p) "bad").
Defined.

Lemma before_commit_keeps_running_witness :
  j_running (lab_junos (net (w_backend partial.2))) = "old".
Proof.
  exact (proj1 (proj2 (proj2 (before_commit_keeps_running 30 _ lab_no_commit "r1" None
    [load_text "set a"; load_text "bad"] staged0 w0)))).
Defined.

Lemma lock_keeps_session_witness :
  let r := lock "r1" None w0 in
  is_ok r.1.1 = true /\ r.1.2 <> None.
Proof.
  pose proof (lock_keeps_session 30 "r1" w0 (lock "r1" None w0).1.1 (lock "r1" None w0).1.2
    (lock "r1" None w0).2) as H.
  split; [vm_compute; reflexivity|]. apply H; vm_compute; reflexivity.
Defined.

End DemoChange.
