(* ===== verification/ChangesetStore.v ===== *)
(** * The records of the change-set coordinator

    [mecmcp_changeset]'s operation and change-set records, as far as the source
    reads or writes them, and the coordinator that stores them.  The
    coordinator is another crate: its calls are parameters.  They take and
    return a state [S] that holds the store, the devices and whatever else the
    process does meanwhile, so a call may find the store changed by another
    caller. *)

From S2P Require Import Prelude RustStr Fmt Errors Helpers JunosTransaction.

Inductive LifecycleState :=
  | StCommitting | StIndeterminate | StCommitted | StDiscarded | StOther (name : string).
#[export] Instance LifecycleState_eq_dec : EqDecision LifecycleState.
Proof. solve_decision. Defined.

Record OperationRecord := mk_op {
  op_id : string;
  op_owner : string;
  op_device : string;
  op_state : LifecycleState;
  op_attribution : option Attribution;
  op_rollback_deadline_unix : option N;
  op_config_lock_held : bool;
  op_details : option string;
  op_current : string
}.

Inductive ChangeSetState := CsFailed | CsOther (name : string).
#[export] Instance ChangeSetState_eq_dec : EqDecision ChangeSetState.
Proof. solve_decision. Defined.

(** [mecmcp_changeset::Approval], for the one field the source reads. *)
Record Approval := mk_approval { ap_approver : option string }.

(** The actions are stored as JSON; each is given here as its deserialisation
    reads it, which may fail. *)
Record ChangeSetRecord := mk_cs {
  cs_id : string;
  cs_device : string;
  cs_owner : string;
  cs_state : ChangeSetState;
  cs_approval : option Approval;
  cs_operation_id : option string;
  cs_actions : list (Result JunosAction string)
}.

Inductive UnlockOutcome := Released | UnlockOther (name : string).

(** A call of the device transaction: what it does when it ends, and what it
    leaves when it is dropped after a time. *)
Record Call (S T E : Type) := mk_call {
  call_run : S -> Result T E * S;
  call_dropped : N -> S -> S
}.
Arguments mk_call {S T E}.
Arguments call_run {S T E}.
Arguments call_dropped {S T E}.

(** [mecmcp_changeset::DeviceTransaction], for the calls the tools make
    themselves, and [ReleaseStaged]; [clock] is the process's clock and [E] the
    transaction's error type. *)
Class DeviceTransaction (S H E : Type) := {
  clock : S -> N;
  tx_lock : string -> Call S unit E;
  tx_fingerprint : Call S string E;
  tx_unlock : Call S UnlockOutcome E;
  tx_confirm_commit : string -> Attribution -> S -> Result CommitOutcome E * S;
  tx_release : H -> S -> bool * S
}.

Record ApplyRequest := {
  ar_change_set_id : string;
  ar_device : string;
  ar_endpoint : string;
  ar_principal : string;
  ar_expected_digest : string;
  ar_expected_fingerprint : string;
  ar_primary_action : string;
  ar_primary_target : option string;
  ar_config_authority : option string
}.
(** [ApplyOutput]: the operation, the fingerprint of the staged candidate and
    the staged handle. *)
Record ApplyOutput (H : Type) := {
  ao_operation_id : string;
  ao_after_fingerprint : string;
  ao_staged : H
}.
Arguments ao_operation_id {H}.
Arguments ao_after_fingerprint {H}.
Arguments ao_staged {H}.

(** What the steps after staging are given. *)
Record OperationRef := {
  or_operation_id : string;
  or_device : string;
  or_principal : string;
  or_fingerprint : string
}.

Record PlanOutput := {
  po_change_set_id : string;
  po_digest : string;
  po_state : string;
  po_approver : option string;
  po_approval_waiver : option string
}.

(** [mecmcp_changeset::ChangesetCoordinator].  Errors are given by their
    [Display].  The caller's cancellation token, which the tools only pass on to
    these calls, is part of [S]. *)
Class ChangesetCoordinator (S H : Type) := {
  lab_mode : bool;
  co_record : string -> string -> string -> S -> Result OperationRecord string * S;
  co_update : OperationRecord -> S -> Result unit string * S;
  co_change_set : string -> string -> S -> Result ChangeSetRecord string * S;
  co_change_sets : S -> list ChangeSetRecord * S;
  co_update_change_set : ChangeSetRecord -> S -> Result unit string * S;
  co_create_change_set : string -> list JunosAction -> string -> string -> string -> S ->
    Result PlanOutput string * S;
  co_waive_approval : string -> string -> string -> string -> S -> Result PlanOutput string * S;
  co_approve_change_set : string -> string -> string -> string -> ActorType -> S ->
    Result PlanOutput string * S;
  co_cancel_change_set : string -> string -> string -> S -> Result PlanOutput string * S;
  co_apply_change_set : ApplyRequest -> Attribution -> S -> Result (ApplyOutput H) string * S;
  co_diff_operation : OperationRef -> H -> S -> Result string string * S;
  co_validate_operation : OperationRef -> H -> S -> Result JunosValidation string * S;
  co_commit_operation : OperationRef -> string -> H -> Attribution -> option N -> S ->
    Result CommitOutcome string * S
}.
