(* ===== verification/ChangesetRecovery.v ===== *)
(** * Recovering crashed commits ([changeset_recovery.rs])

    After a restart the sweep asks each device whether the commit of an
    operation found [Indeterminate] is in its commit log, and settles only what
    the device confirms.  The coordinator that stores the records is a
    parameter; the order in which the concurrent probes finish, and what other
    traffic does to the store meanwhile, are inputs of the sweep. *)

From S2P Require Import Prelude RustStr Fmt Errors Helpers Inventory Async.
From S2P Require Import CandidateTransaction DeviceManager JunosTransaction ChangesetStore.
From Stdlib Require Import Ascii.

Inductive LockProbeResult := ProvenFree | NotProven.
Definition REPROBE_DEVICE_TIMEOUT : N := from_secs 20.

Inductive ReprobeOutcome :=
  | RoCommitted
  | RoCommittedProvisional
  | RoNotFound
  | RoUnreachable (reason : string).

(** ** Reading the commit log *)

Definition commit_log_contains_request_id (commit_log request_id : string) : bool :=
  if is_empty request_id then false
  else contains ("request.id=" ^^ request_id) commit_log.

(** [line_offsets]: the lines of a text with the offset each starts at. *)
Fixpoint line_offsets (pos : nat) (s : string) : list (nat * string) :=
  match s with
  | "" => []
  | String c s' =>
      if Ascii.eqb c LF then (pos, "") :: line_offsets (S pos) s'
      else if Ascii.eqb c CR && starts_with newline s' then
        match line_offsets (S pos) s' with
        | (_, l) :: ls => (pos, l) :: ls
        | [] => []
        end
      else
        match line_offsets (S pos) s' with
        | (_, l) :: ls => (pos, String c l) :: ls
        | [] => [(pos, String c "")]
        end
  end.

Definition is_header (line : string) : bool :=
  match find_ws (trim_start line) with
  | Some (first, _) => negb (is_empty first) && str_forall is_ascii_digit first
  | None => false
  end && negb (starts_with " " line).

Definition slice (from to : nat) (s : string) : string := str_take (to - from) (str_drop from s).

(** The loop over the lines: where the entry of the hit starts, where the
    current entry starts, and whether there was a hit. *)
Fixpoint find_entry (log needle : string) (start current : option nat) (hit : bool)
    (ls : list (nat * string)) : option string :=
  match ls with
  | [] =>
      if hit then match start with
                  | Some from => Some (trim_end (slice from (String.length log) log))
                  | None => None
                  end
      else None
  | (offset, line) :: rest =>
      if is_header line && hit then
        match start with
        | Some from => Some (trim_end (slice from offset log))
        | None => None
        end
      else
        let current := if is_header line then Some offset else current in
        if contains needle line then
          find_entry log needle (match current with Some c => Some c | None => Some offset end)
            current true rest
        else find_entry log needle start current hit rest
  end.

Definition commit_entry_for_request_id (commit_log request_id : string) : option string :=
  if is_empty request_id then None
  else find_entry commit_log ("request.id=" ^^ request_id) None None false
         (line_offsets 0 commit_log).

Definition entry_is_confirmed_commit (entry : string) : bool :=
  match lines entry with
  | header :: _ => contains "commit confirmed" header
  | [] => false
  end.

Definition is_reprobe_candidate (record : OperationRecord) : bool :=
  bool_decide (op_state record = StIndeterminate) &&
  match op_attribution record with Some _ => true | None => false end.

Definition settle_from_outcome (record : OperationRecord) (outcome : ReprobeOutcome)
    (lock_probe : LockProbeResult) : option OperationRecord :=
  match outcome with
  | RoCommitted =>
      let '(held, msg) :=
        match lock_probe with
        | ProvenFree => (false, "the lock was proven free and returned")
        | NotProven => (op_config_lock_held record, "the lock state could not be verified")
        end in
      let id := match op_attribution record with Some a => request_id a | None => "<none>" end in
      Some (mk_op (op_id record) (op_owner record) (op_device record) StCommitted
              (op_attribution record) (op_rollback_deadline_unix record) held
              (Some ("re-probed after restart: the device's commit log carries request.id=" ^^ id
                 ^^ ", so the commit landed before this process died; " ^^ msg))
              (op_current record))
  | RoCommittedProvisional | RoNotFound | RoUnreachable _ => None
  end.

(** ** Asking the device *)

Section reprobe.
Context {X : External} {D Net : Type} `{!RustezClient D Net} `{!ConfigOps D Net}.
Context (cleanup_timeout : N).
Abbreviation W := (World (DeviceManager (D := D) (Net := Net))).
(** What a call dropped after that long leaves behind is left open. *)
Context (abandoned : N -> W -> W).

Definition verdict (record : OperationRecord) (request_id commit_log : string) : ReprobeOutcome :=
  match commit_entry_for_request_id commit_log request_id with
  | None => RoNotFound
  | Some entry =>
      match op_rollback_deadline_unix record with
      | Some _ => RoCommittedProvisional
      | None => if entry_is_confirmed_commit entry then RoCommittedProvisional else RoCommitted
      end
  end.

Definition reprobe_operation (record : OperationRecord) (w : W)
  : Result ReprobeOutcome JmcpError * W :=
  match op_attribution record with
  | None => (Ok RoNotFound, w)
  | Some attribution =>
      match timeout REPROBE_DEVICE_TIMEOUT
              (run_cli (w_now w) (op_device record) "show system commit") w with
      | (Some (Err error), w) => (Ok (RoUnreachable (to_string error)), w)
      | (None, w) =>
          (Ok (RoUnreachable ("device did not answer within "
                 ^^ dec (as_secs REPROBE_DEVICE_TIMEOUT) ^^ "s")), w)
      | (Some (Ok commit_log), w) => (Ok (verdict record (request_id attribution) commit_log), w)
      end
  end.

(** [probe]: a call bounded by the cleanup budget. *)
Definition probe {T} (f : W -> Result T JmcpError * option (PooledDevice D) * W) (w : W)
  : option (Result T JmcpError) * option (PooledDevice D) * W :=
  let '(r, held, w') := f w in
  if (w_now w' - w_now w <=? cleanup_timeout)%N then (Some r, held, w')
  else (None, None, abandoned cleanup_timeout w).

Definition probe_lock_freedom (device : string) (w : W) : LockProbeResult * W :=
  match probe (lock device None) w with
  | (Some (Ok _), held, w) =>
      match probe (unlock cleanup_timeout held) w with
      | (Some (Ok _), _, w) => (ProvenFree, w)
      | (_, _, w) => (NotProven, w)
      end
  | (_, held, w) => (NotProven, drop_opt held w)
  end.

End reprobe.

(** ** The sweep *)

(** The coordinator's calls ([mecmcp_changeset::ChangesetCoordinator]). *)
Class Coordinator (C : Type) := {
  coord_operations : C -> list OperationRecord;
  coord_record : C -> string -> string -> string -> Result OperationRecord string;
  coord_update : C -> OperationRecord -> Result unit string * C
}.

Record SweepSummary := {
  candidates : N;
  settled : N;
  provisional : N;
  not_found : N;
  unreachable : N;
  write_failed : N;
  timed_out : bool
}.

(** One finished probe: what other traffic did to the store before it is
    handled, the joined task ([None] when it panicked), and the lock probe's
    answer ([None] when it ran out of the sweep's time). *)
Record Arrival (C : Type) := {
  traffic : C -> C;
  joined : option (OperationRecord * ReprobeOutcome);
  lock_answer : option LockProbeResult
}.
Arguments traffic {C}.
Arguments joined {C}.
Arguments lock_answer {C}.

Section sweep.
Context {C : Type} `{!Coordinator C}.

Definition still_a_candidate (c : C) (record : OperationRecord) : option OperationRecord :=
  match coord_record c (op_id record) (op_owner record) (op_device record) with
  | Ok current => if is_reprobe_candidate current then Some current else None
  | Err _ => None
  end.

Definition bump_settled s := {| candidates := candidates s; settled := settled s + 1;
  provisional := provisional s; not_found := not_found s; unreachable := unreachable s;
  write_failed := write_failed s; timed_out := timed_out s |}.
Definition bump_provisional s := {| candidates := candidates s; settled := settled s;
  provisional := provisional s + 1; not_found := not_found s; unreachable := unreachable s;
  write_failed := write_failed s; timed_out := timed_out s |}.
Definition bump_not_found s := {| candidates := candidates s; settled := settled s;
  provisional := provisional s; not_found := not_found s + 1; unreachable := unreachable s;
  write_failed := write_failed s; timed_out := timed_out s |}.
Definition bump_unreachable s := {| candidates := candidates s; settled := settled s;
  provisional := provisional s; not_found := not_found s; unreachable := unreachable s + 1;
  write_failed := write_failed s; timed_out := timed_out s |}.
Definition bump_write_failed s := {| candidates := candidates s; settled := settled s;
  provisional := provisional s; not_found := not_found s; unreachable := unreachable s;
  write_failed := write_failed s + 1; timed_out := timed_out s |}.
Definition set_timed_out s := {| candidates := candidates s; settled := settled s;
  provisional := provisional s; not_found := not_found s; unreachable := unreachable s;
  write_failed := write_failed s; timed_out := true |}.

(** The sweep's state: its summary, the store, and the writes it attempted
    (each with the record it replaced), latest last. *)
Record Sweep := mk_sweep {
  sw_summary : SweepSummary;
  sw_store : C;
  sw_writes : list (OperationRecord * OperationRecord)
}.

(** One iteration of the loop. *)
Definition handle_arrival (s : Sweep) (a : Arrival C) : Sweep :=
  let c := traffic a (sw_store s) in
  let with_summary sum := mk_sweep sum c (sw_writes s) in
  let summary := sw_summary s in
  match joined a with
  | None => with_summary (bump_unreachable summary)
  | Some (record, outcome) =>
      match outcome with
      | RoCommitted =>
          match still_a_candidate c record with
          | None => with_summary summary
          | Some current =>
              let '(lock_probe, summary) :=
                match lock_answer a with
                | Some result => (result, summary)
                | None => (NotProven, set_timed_out summary)
                end in
              match settle_from_outcome current outcome lock_probe with
              | None => with_summary summary
              | Some record' =>
                  let writes := sw_writes s ++ [(current, record')] in
                  match coord_update c record' with
                  | (Err _, c') => mk_sweep (bump_write_failed summary) c' writes
                  | (Ok _, c') => mk_sweep (bump_settled summary) c' writes
                  end
              end
          end
      | RoCommittedProvisional => with_summary (bump_provisional summary)
      | RoNotFound => with_summary (bump_not_found summary)
      | RoUnreachable _ => with_summary (bump_unreachable summary)
      end
  end.

Definition summary0 (n : N) : SweepSummary :=
  {| candidates := n; settled := 0; provisional := 0; not_found := 0; unreachable := 0;
     write_failed := 0; timed_out := false |}.

(** The whole sweep over the probes that finished, in the order they did;
    [out_of_time] when the loop stopped on its deadline. *)
Definition sweep_crashed_commits (c : C) (arrivals : list (Arrival C)) (out_of_time : bool) : Sweep :=
  let cands := List.filter is_reprobe_candidate (coord_operations c) in
  let s0 := mk_sweep (summary0 (N.of_nat (length cands))) c [] in
  match cands with
  | [] => s0
  | _ =>
      let s := foldl handle_arrival s0 arrivals in
      if out_of_time then mk_sweep (set_timed_out (sw_summary s)) (sw_store s) (sw_writes s) else s
  end.

End sweep.

(** ** Properties *)

(** *** Lines *)

Lemma line_offsets_lines pos s : map snd (line_offsets pos s) = lines s.
Proof.
  revert pos; induction s as [|c s IH]; intros pos; [done|]. cbn [line_offsets lines].
  destruct (Ascii.eqb c LF); [cbn; by rewrite IH|].
  specialize (IH (S pos)). destruct (_ && _) eqn:Hcr.
  - apply andb_true_iff in Hcr as [_ Hs]. rewrite <- IH.
    destruct s as [|d s]; [done|]. rewrite starts_with_newline in Hs. cbn [line_offsets] in *.
    rewrite Hs in *. done.
  - rewrite <- IH. by destruct (line_offsets (S pos) s) as [|[o l] ls].
Qed.

Definition no_eol (c : ascii) : bool := negb (Ascii.eqb c LF || Ascii.eqb c CR).

Lemma no_eol_spec c : no_eol c = true -> Ascii.eqb c LF = false /\ Ascii.eqb c CR = false.
Proof. unfold no_eol. by rewrite negb_true_iff, orb_false_iff. Qed.

Lemma prefix_nil s : String.prefix "" s = true.
Proof. by destruct s. Qed.

(** A text on one line is a prefix of a text when it is one of its first line. *)
Lemma prefix_first_line p s :
  str_forall no_eol p = true -> String.prefix p s = String.prefix p (hd "" (lines s)).
Proof.
  revert p; induction s as [|c s IH]; intros p Hp; [done|].
  destruct p as [|d p]; [by rewrite !prefix_nil|]. cbn [str_forall] in Hp.
  apply andb_true_iff in Hp as [[Hlf Hcr]%no_eol_spec Hp].
  rewrite prefix_cons. cbn [lines]. destruct (Ascii.eqb_spec c LF) as [->|Hn1].
  { cbn [hd]. by rewrite Hlf. }
  destruct (Ascii.eqb_spec c CR) as [->|Hn2]; cbn [andb].
  - rewrite Hcr. cbn [andb]. destruct (starts_with newline s) eqn:Hs.
    + destruct s as [|e s]; [done|]. rewrite starts_with_newline in Hs. cbn [lines].
      by rewrite Hs.
    + destruct (lines s); cbn [hd]; rewrite prefix_cons, Hcr; done.
  - specialize (IH p Hp). destruct (lines s) as [|l ls]; cbn [hd] in *;
      rewrite prefix_cons, IH; done.
Qed.

Lemma contains_cons p c s :
  contains p (String c s) = String.prefix p (String c s) || contains p s.
Proof.
  unfold contains. cbn [str_find]. destruct (String.prefix p (String c s)); [done|].
  by destruct (str_find p s) as [[]|].
Qed.

(** A text on one line is in a text when it is in one of its lines. *)
Lemma contains_lines p s :
  p <> "" -> str_forall no_eol p = true -> existsb (contains p) (lines s) = contains p s.
Proof.
  intros Hne Hp. destruct p as [|d p]; [done|]. clear Hne.
  assert (Hnil : contains (String d p) "" = false) by done.
  pose proof Hp as Hp'. cbn [str_forall] in Hp'.
  apply andb_true_iff in Hp' as [[Hlf Hcr]%no_eol_spec _].
  induction s as [|c s IH]; [done|]. rewrite contains_cons, prefix_cons. cbn [lines].
  destruct (Ascii.eqb_spec c LF) as [->|Hn1].
  { cbn [existsb]. by rewrite Hnil, Hlf, IH. }
  destruct (Ascii.eqb_spec c CR) as [->|Hn2]; cbn [andb].
  - rewrite Hcr. cbn [andb orb]. destruct (starts_with newline s); [done|].
    rewrite <- IH. destruct (lines s) as [|l ls]; cbn [existsb];
      rewrite contains_cons, prefix_cons, Hcr; cbn [andb orb]; [by rewrite Hnil|done].
  - pose proof (prefix_first_line p s) as Hf. cbn [str_forall] in Hp.
    apply andb_true_iff in Hp as [_ Hp]. rewrite (Hf Hp), <- IH.
    destruct (lines s) as [|l ls]; cbn [existsb hd]; rewrite contains_cons, prefix_cons.
    + by rewrite Hnil, orb_false_r.
    + by rewrite orb_assoc.
Qed.

(** *** Entries *)

Lemma find_entry_some log needle st cur hit ls :
  (hit = true -> st <> None) ->
  (is_Some (find_entry log needle st cur hit ls) <->
   hit = true \/ existsb (contains needle) (map snd ls) = true).
Proof.
  revert st cur hit; induction ls as [|[o l] ls IH]; intros st cur hit Hst; cbn [find_entry].
  - destruct hit; cbn; [|split; [by intros []|by intros []]].
    destruct st; [|by destruct Hst]. split; [by left|by eexists].
  - cbn [map snd existsb]. destruct (is_header l && hit) eqn:Hh.
    { apply andb_true_iff in Hh as [_ ->]. destruct st; [|by destruct Hst].
      split; [by left|by eexists]. }
    cbv zeta. destruct (contains needle l).
    + rewrite IH; [cbn; tauto|]. intros _. by repeat case_match.
    + rewrite IH; [|done]. cbn. tauto.
Qed.

Definition log_needle (id : string) : string := "request.id=" ^^ id.

Lemma log_needle_no_eol id : str_forall no_eol id = true -> str_forall no_eol (log_needle id) = true.
Proof. intros H. unfold log_needle. by rewrite str_forall_app, H. Qed.

(** Grouping the log into entries loses no hit: an entry is found for a
    request id exactly when the id is in the log at all. *)
Theorem entry_found_iff log id :
  str_forall no_eol id = true ->
  (is_Some (commit_entry_for_request_id log id) <->
   commit_log_contains_request_id log id = true).
Proof.
  intros Hid. unfold commit_entry_for_request_id, commit_log_contains_request_id.
  destruct (is_empty id); [by split; [intros []|]|].
  rewrite find_entry_some by done. rewrite line_offsets_lines.
  rewrite contains_lines; [|done|by apply log_needle_no_eol]. naive_solver.
Qed.

(** A log as the device prints it: entries of a header line and comment lines
    that are not headers. *)
Record LogEntry := { le_header : string; le_body : list string }.
Definition entry_lines (e : LogEntry) : list string := le_header e :: le_body e.
Fixpoint render_lines (ls : list string) : string :=
  match ls with [] => "" | l :: ls => l ^^ newline ^^ render_lines ls end.
Definition render_entry (e : LogEntry) : string := render_lines (entry_lines e).
Fixpoint render_log (es : list LogEntry) : string :=
  match es with [] => "" | e :: es => render_entry e ^^ render_log es end.

Record WfEntry (e : LogEntry) : Prop := {
  wf_header : clean_line (le_header e) /\ is_header (le_header e) = true;
  wf_body : Forall (fun l => clean_line l /\ is_header l = false) (le_body e)
}.
Definition mentions (needle : string) (e : LogEntry) : bool :=
  existsb (contains needle) (entry_lines e).

Fixpoint offsets (pos : nat) (ls : list string) : list (nat * string) :=
  match ls with
  | [] => []
  | l :: ls => (pos, l) :: offsets (pos + String.length (l ^^ newline)) ls
  end.

Lemma line_offsets_clean pos l t :
  clean_line l ->
  line_offsets pos (l ^^ newline ^^ t) =
  (pos, l) :: line_offsets (pos + String.length (l ^^ newline)) t.
Proof.
  intros (Hne & Hl & Hcr). unfold no_lf in Hl. revert pos.
  induction l as [|c l IH]; intros pos; [done|]. cbn [str_forall] in Hl.
  apply andb_true_iff in Hl as [Hc Hl]. apply negb_true_iff in Hc.
  cbn [String.append line_offsets String.length]. rewrite Hc. destruct l as [|d l].
  - cbn [String.append String.length].
    destruct (Ascii.eqb_spec c CR) as [->|Hn]; [destruct Hcr; by exists ""|].
    cbn. by replace (pos + 2)%nat with (S (S pos)) by lia.
  - assert (Hd : starts_with newline ((String d l) ^^ newline ^^ t) = false).
    { cbn [str_forall] in Hl. apply andb_true_iff in Hl as [Hd _].
      apply negb_true_iff in Hd. cbn [String.append]. by rewrite starts_with_newline. }
    rewrite Hd, andb_false_r, IH; [|done..|].
    + by replace (S pos + String.length (String d l ^^ newline))%nat
        with (pos + S (String.length (String d l ^^ newline)))%nat by lia.
    + intros [u Hu]. apply Hcr. exists (String c u). by rewrite Hu.
Qed.

Lemma line_offsets_render pos ls t :
  Forall clean_line ls ->
  line_offsets pos (render_lines ls ^^ t) =
  offsets pos ls ++ line_offsets (pos + String.length (render_lines ls)) t.
Proof.
  intros H. revert pos; induction H as [|l ls Hl Hls IH]; intros pos; cbn [render_lines offsets app].
  { cbn. by rewrite Nat.add_0_r. }
  rewrite !app_str_assoc, line_offsets_clean, IH by done. cbn [app].
  by rewrite !length_app_str, !Nat.add_assoc.
Qed.

Lemma slice_middle a b c :
  slice (String.length a) (String.length a + String.length b) (a ^^ b ^^ c) = b.
Proof.
  unfold slice. replace (String.length a + String.length b - String.length a)%nat
    with (String.length b) by lia.
  assert (Hd : str_drop (String.length a) (a ^^ b ^^ c) = b ^^ c)
    by (induction a as [|x a IH]; [done|exact IH]).
  rewrite Hd. clear Hd. induction b as [|x b IH]; [done|]. cbn. by rewrite IH.
Qed.

Section entries.
Context (log needle : string).

(** Lines without the needle, before a hit, only move the current entry. *)
Lemma find_entry_skip ls pos st cur rest :
  existsb (contains needle) ls = false ->
  exists cur', find_entry log needle st cur false (offsets pos ls ++ rest) =
               find_entry log needle st cur' false rest.
Proof.
  revert pos cur; induction ls as [|l ls IH]; intros pos cur; cbn [offsets app existsb find_entry].
  { by eexists. }
  rewrite orb_false_iff, andb_false_r. intros [Hl H]. rewrite Hl. by apply IH.
Qed.

(** The lines of a comment stay in the entry whose header came before them. *)
Lemma find_entry_body ls pos st h hit rest :
  Forall (fun l => is_header l = false) ls ->
  find_entry log needle st (Some h) hit (offsets pos ls ++ rest) =
  find_entry log needle (if existsb (contains needle) ls then Some h else st) (Some h)
    (hit || existsb (contains needle) ls) rest.
Proof.
  intros H. revert pos st hit; induction H as [|l ls Hl _ IH]; intros pos st hit;
    cbn [offsets app existsb find_entry].
  { by rewrite orb_false_r. }
  rewrite Hl. cbn [andb]. destruct (contains needle l); rewrite IH; cbn [orb].
  - destruct (existsb (contains needle) ls); by rewrite ?orb_true_r.
  - done.
Qed.

Lemma find_entry_entry e pos st cur rest :
  WfEntry e -> mentions needle e = true ->
  find_entry log needle st cur false (offsets pos (entry_lines e) ++ rest) =
  find_entry log needle (Some pos) (Some pos) true rest.
Proof.
  intros [[_ Hh] Hb] Hm. unfold mentions, entry_lines in *. cbn [offsets app existsb find_entry] in *.
  rewrite Hh. cbn [andb].
  assert (Hb' : Forall (fun l => is_header l = false) (le_body e))
    by (eapply list.Forall_impl; [exact Hb|by intros l []]).
  destruct (contains needle (le_header e)); cbn [orb] in Hm;
    rewrite find_entry_body by done.
  - by destruct (existsb _ _).
  - by rewrite Hm.
Qed.

End entries.

Lemma render_log_lines es : render_log es = render_lines (flat_map entry_lines es).
Proof.
  assert (Happ : forall a b, render_lines (a ++ b) = render_lines a ^^ render_lines b).
  { induction a as [|x a IH]; intros b; [done|]. cbn [app render_lines]. by rewrite IH, !app_str_assoc. }
  induction es as [|e es IH]; [done|]. cbn [render_log flat_map]. by rewrite IH, Happ.
Qed.

Lemma wf_clean es : Forall WfEntry es -> Forall clean_line (flat_map entry_lines es).
Proof.
  induction 1 as [|e es [[Hh _] Hb] _ IH]; [constructor|]. cbn [flat_map]. apply list.Forall_app.
  split; [|done]. constructor; [done|]. eapply list.Forall_impl; [exact Hb|by intros l []].
Qed.

Lemma not_mentioned_lines needle es :
  Forall (fun e => mentions needle e = false) es ->
  existsb (contains needle) (flat_map entry_lines es) = false.
Proof.
  induction 1 as [|e es He _ IH]; [done|]. cbn [flat_map]. rewrite existsb_app, IH, orb_false_r.
  exact He.
Qed.

(** The entry returned is the right one, whole.  In a log printed as
    numbered headers with comment lines below them, the search returns exactly
    the first entry that mentions the id, header included and nothing of its
    neighbours; so whether that commit is provisional is read from its own
    header. *)
Theorem entry_is_the_mentioning_one es1 e es2 id :
  id <> "" -> Forall WfEntry (es1 ++ e :: es2) ->
  Forall (fun e' => mentions (log_needle id) e' = false) es1 ->
  mentions (log_needle id) e = true ->
  commit_entry_for_request_id (render_log (es1 ++ e :: es2)) id = Some (trim_end (render_entry e)).
Proof.
  intros Hid Hwf Hno Hm. unfold commit_entry_for_request_id.
  destruct (is_empty id) eqn:He; [by destruct id|]. fold (log_needle id).
  apply list.Forall_app in Hwf as [Hw1 Hw2]. apply list.Forall_cons in Hw2 as [Hwe Hw2].
  assert (Hlog : render_log (es1 ++ e :: es2) =
    render_lines (flat_map entry_lines es1) ^^ render_lines (entry_lines e) ^^ render_log es2).
  { rewrite <- render_log_lines. clear. induction es1 as [|x es1 IH]; [done|].
    cbn [app render_log]. by rewrite IH, app_str_assoc. }
  rewrite Hlog. set (log := _ ^^ _ ^^ _).
  unfold log at 2. rewrite line_offsets_render by by apply wf_clean.
  rewrite line_offsets_render by (pose proof (wf_clean [e] ltac:(by constructor)) as Hc;
    cbn [flat_map] in Hc; by rewrite app_nil_r in Hc).
  set (a := render_lines (flat_map entry_lines es1)) in *.
  set (b := render_lines (entry_lines e)) in *. cbn [Nat.add].
  destruct (find_entry_skip log (log_needle id) (flat_map entry_lines es1) 0 None None
    (offsets (String.length a) (entry_lines e) ++
     line_offsets (String.length a + String.length b) (render_log es2)))
    as [cur' ->]; [by apply not_mentioned_lines|].
  rewrite find_entry_entry by done.
  destruct es2 as [|e2 es2]; cbn [render_log].
  - cbn [line_offsets find_entry]. do 2 f_equal. subst log. cbn [render_log].
    rewrite app_str_nil_r, length_app_str.
    pose proof (slice_middle a b "") as Hs. by rewrite app_str_nil_r in Hs.
  - apply list.Forall_cons in Hw2 as [[[Hc Hh] _] _]. unfold render_entry, entry_lines.
    cbn [render_lines]. rewrite !app_str_assoc, line_offsets_clean by done.
    cbn [find_entry]. rewrite Hh. cbn [andb]. do 2 f_equal. apply slice_middle.
Qed.

(** *** From the commit comment to the log *)

Definition uuid_char (c : ascii) : bool := is_ascii_alphanumeric c || Ascii.eqb c "-".

Lemma contains_trans a b c : contains a b = true -> contains b c = true -> contains a c = true.
Proof.
  intros (x & y & ->)%contains_app (u & v & ->)%contains_app. apply contains_app.
  exists (u ^^ x), (y ^^ v). by rewrite !app_str_assoc.
Qed.

Lemma format_attribution_request_id a :
  exists x y, format_attribution a = x ^^ log_needle (request_id a) ^^ y.
Proof.
  unfold format_attribution, log_needle.
  exists (default "no-change-ref" (change_ref a) ^^ " by " ^^ principal a ^^ " ("
    ^^ match actor_type a with Human => "human" | Agent => "agent" | Unknown => "unknown" end ^^ ")"
    ^^ " on-behalf-of=" ^^ default "self" (on_behalf_of a) ^^ agent_info a ^^ " "),
    (approval_info a ^^ change_set_info a).
  by rewrite !app_str_assoc.
Qed.

Lemma escape_needle id x y :
  str_forall uuid_char id = true ->
  exists x' y', escape_xml_text (x ^^ log_needle id ^^ y) = x' ^^ log_needle id ^^ y'.
Proof.
  intros Hid. unfold escape_xml_text. rewrite !replace_byte_app.
  assert (Hn : forall c r, c = "&"%char \/ c = "<"%char \/ c = ">"%char ->
    replace_byte c r (log_needle id) = log_needle id).
  { intros c r Hc. apply replace_byte_none. unfold log_needle. rewrite str_forall_app.
    apply andb_true_iff. split; [by destruct Hc as [->|[->| ->]]|].
    eapply str_forall_impl; [|exact Hid]. intros d Hd.
    destruct (Ascii.eqb_spec d c) as [->|]; [|done]. by destruct Hc as [->|[->| ->]]. }
  rewrite !Hn by auto. by eexists _, _.
Qed.

(** The commit comment written before a crash is found after it.  Whatever
    else the attribution says, if the device's log holds the comment of a
    commit, verbatim or as it was escaped for the RPC, then searching the log
    for that attribution's request id succeeds. *)
Theorem commit_comment_recoverable a log :
  request_id a <> "" -> str_forall uuid_char (request_id a) = true ->
  contains (format_attribution a) log = true \/
  contains (escape_xml_text (format_attribution a)) log = true ->
  commit_log_contains_request_id log (request_id a) = true.
Proof.
  intros Hne Hid Hlog. unfold commit_log_contains_request_id.
  destruct (is_empty (request_id a)) eqn:He; [by destruct (request_id a)|].
  destruct (format_attribution_request_id a) as (x & y & Hf). rewrite Hf in Hlog.
  destruct Hlog as [Hlog|Hlog]; (eapply contains_trans; [|exact Hlog]); apply contains_app.
  - exists x, y. reflexivity.
  - destruct (escape_needle (request_id a) x y Hid) as (x' & y' & ->). by exists x', y'.
Qed.

(** *** The sweep *)

Section sweep_properties.
Context {C : Type} `{!Coordinator C}.

Definition processed (s : SweepSummary) : N :=
  settled s + provisional s + not_found s + unreachable s + write_failed s.

(** What a write of the sweep may be. *)
Definition justified (arrivals : list (Arrival C)) (w : OperationRecord * OperationRecord) : Prop :=
  let '(cur, new) := w in
  is_reprobe_candidate cur = true /\
  op_state new = StCommitted /\ op_id new = op_id cur /\ op_owner new = op_owner cur /\
  op_device new = op_device cur /\ op_attribution new = op_attribution cur /\
  op_rollback_deadline_unix new = op_rollback_deadline_unix cur /\
  exists a record, a ∈ arrivals /\ joined a = Some (record, RoCommitted) /\
    (op_config_lock_held new = op_config_lock_held cur \/
     (op_config_lock_held new = false /\ lock_answer a = Some ProvenFree)).

Lemma justified_mono l1 l2 w : (forall a, a ∈ l1 -> a ∈ l2) -> justified l1 w -> justified l2 w.
Proof. destruct w as [cur new]. unfold justified. naive_solver. Qed.

Lemma handle_arrival_spec s a :
  (exists ws, sw_writes (handle_arrival s a) = sw_writes s ++ ws /\ Forall (justified [a]) ws) /\
  (processed (sw_summary (handle_arrival s a)) <= processed (sw_summary s) + 1)%N.
Proof.
  unfold handle_arrival. cbv zeta.
  assert (Hnil : exists ws, sw_writes s = sw_writes s ++ ws /\ Forall (justified [a]) ws)
    by (exists []; by rewrite app_nil_r).
  destruct (joined a) as [[record outcome]|] eqn:Hj; cbn [sw_writes sw_summary];
    [|split; [done|unfold processed; cbn; lia]].
  destruct outcome; cbn [sw_writes sw_summary]; try (split; [done|unfold processed; cbn; lia]).
  destruct (still_a_candidate _ record) as [cur|] eqn:Hc; cbn [sw_writes sw_summary];
    [|split; [done|lia]].
  assert (Hcand : is_reprobe_candidate cur = true).
  { unfold still_a_candidate in Hc. destruct (coord_record _ _ _ _) as [r|]; [|done].
    destruct (is_reprobe_candidate r) eqn:Hr; [|done]. by injection Hc as <-. }
  set (lp := match lock_answer a with Some result => (result, sw_summary s)
             | None => (NotProven, set_timed_out (sw_summary s)) end).
  assert (Hlp : processed lp.2 = processed (sw_summary s) /\
                (lp.1 = ProvenFree -> lock_answer a = Some ProvenFree)).
  { subst lp. destruct (lock_answer a); cbn; [split; [done|by intros ->]|by split]. }
  destruct lp as [probe summary]. cbn [fst snd] in Hlp. destruct Hlp as [Hsum Hfree].
  cbn [settle_from_outcome].
  set (hm := match probe with ProvenFree => _ | NotProven => _ end).
  assert (Hhm : hm.1 = op_config_lock_held cur \/ (hm.1 = false /\ lock_answer a = Some ProvenFree)).
  { subst hm. destruct probe; cbn; [right; by rewrite Hfree|by left]. }
  destruct hm as [held msg]. cbn [fst] in Hhm.
  destruct (coord_update _ _) as [[u|e] c'] eqn:Hu; cbn [sw_writes sw_summary].
  all: split; [eexists; split; [reflexivity|]|
    unfold processed in *; cbn [bump_settled bump_write_failed settled provisional not_found unreachable write_failed]; lia].
  all: constructor; [|constructor]; split_and!; try done;
    (exists a, record; split; [set_solver|done]).
Qed.

Lemma foldl_arrivals s l :
  (exists ws, sw_writes (foldl handle_arrival s l) = sw_writes s ++ ws /\ Forall (justified l) ws) /\
  (processed (sw_summary (foldl handle_arrival s l)) <= processed (sw_summary s) + N.of_nat (length l))%N.
Proof.
  revert s; induction l as [|a l IH]; intros s; cbn [foldl].
  { split; [exists []; by rewrite app_nil_r|cbn; lia]. }
  destruct (IH (handle_arrival s a)) as [(ws & Hw & Hws) Hn].
  destruct (handle_arrival_spec s a) as [(ws0 & Hw0 & Hws0) Hn0].
  split; [|cbn [length]; lia].
  exists (ws0 ++ ws). split; [by rewrite Hw, Hw0, app_assoc|]. apply list.Forall_app. split.
  - eapply list.Forall_impl; [exact Hws0|]. intros w. apply justified_mono. set_solver.
  - eapply list.Forall_impl; [exact Hws|]. intros w. apply justified_mono. set_solver.
Qed.


End sweep_properties.

(** ** A captured log *)

Definition entry0 : LogEntry := {|
  le_header := "0   2026-09-03 17:03:08 UTC by netconf via netconf";
  le_body := ["    no-change-ref by reprobe-370-w (agent) on-behalf-of=self via unknown-public request.id=abadcafe-dead-4bad-8bad-c0dedeadbeef change-set=30a15e0b686bae37"]
|}.
Definition entry1 : LogEntry := {|
  le_header := "1   2026-07-28 17:54:19 UTC by root via other"; le_body := [] |}.
Definition entry2 : LogEntry := {|
  le_header := "3   2026-03-30 21:49:31 UTC by netconf via netconf commit confirmed, rollback in 3mins";
  le_body := ["    provisional change request.id=11111111-2222-4333-8444-555555555555 change-set=deadbeef"]
|}.
Definition real_log : string := render_log [entry0; entry1; entry2].
Definition id0 : string := "abadcafe-dead-4bad-8bad-c0dedeadbeef".
Definition id2 : string := "11111111-2222-4333-8444-555555555555".

Definition record_for (id : string) (deadline : option N) : OperationRecord :=
  mk_op "op" "me" "r1" StIndeterminate
    (Some {| change_ref := None; principal := "p"; on_behalf_of := None; actor_type := Human;
             agent := None; request_id := id; approver := None; change_set_id := None |})
    deadline true None "sha256:00".

Example verdicts :
  (verdict (record_for id0 None) id0 real_log, verdict (record_for id2 None) id2 real_log,
   verdict (record_for id0 (Some 1%N)) id0 real_log, verdict (record_for "x" None) "x" real_log) =
  (RoCommitted, RoCommittedProvisional, RoCommittedProvisional, RoNotFound).
Proof. vm_compute. reflexivity. Qed.

Lemma entry_found_iff_witness :
  is_Some (commit_entry_for_request_id real_log id2).
Proof. apply entry_found_iff; vm_compute; reflexivity. Defined.

Lemma clean_line_dec l :
  match str_rev l with "" => false | String c _ => negb (Ascii.eqb c CR) end && no_lf l = true ->
  clean_line l.
Proof.
  intros [Hr Hl]%andb_true_iff. split; [by intros ->|]. split; [done|].
  intros [t ->]. rewrite str_rev_app_str in Hr. done.
Qed.
Lemma wf_entry_dec e :
  is_header (le_header e) = true ->
  forallb (fun l => match str_rev l with "" => false | String c _ => negb (Ascii.eqb c CR) end && no_lf l)
    (entry_lines e) = true ->
  forallb (fun l => negb (is_header l)) (le_body e) = true -> WfEntry e.
Proof.
  intros H1 H2 H3. cbn [entry_lines forallb] in H2. apply andb_true_iff in H2 as [H2 H4].
  split; [split; [by apply clean_line_dec|done]|]. apply Forall_forall. intros l Hl.
  rewrite forallb_forall in H3, H4. split; [by apply clean_line_dec, H4|].
  by apply negb_true_iff, H3.
Qed.

Lemma entry_is_the_mentioning_one_witness :
  commit_entry_for_request_id real_log id0 = Some (trim_end (render_entry entry0)).
Proof.
  apply (entry_is_the_mentioning_one [] entry0 [entry1; entry2] id0);
    [discriminate| |constructor|vm_compute; reflexivity].
  repeat (constructor; [apply wf_entry_dec; vm_compute; reflexivity|]). constructor.
Defined.

Definition attribution0 : Attribution := {|
  change_ref := Some "CHG <7>"; principal := "bot"; on_behalf_of := None; actor_type := Agent;
  agent := None; request_id := id0; approver := Some "ann"; change_set_id := None |}.
Lemma commit_comment_recoverable_witness :
  commit_log_contains_request_id
    ("0   2026-09-03" ^^ newline ^^ "    " ^^ escape_xml_text (format_attribution attribution0)) id0
  = true.
Proof.
  apply (commit_comment_recoverable attribution0); [discriminate|vm_compute; reflexivity|].
  right. vm_compute. reflexivity.
Defined.
