(* ===== verification/ChangesetTools.v ===== *)
(** * The change-set tools ([tools/changeset.rs], [tools/confirm_commit.rs])

    Creating, approving, cancelling, applying and confirming a change set, and
    what is recorded when an apply fails.  The coordinator and the device
    transaction are the classes of [ChangesetStore]; both act on one state [S],
    in the order the code calls them.  A response is the map of its JSON
    fields. *)

From S2P Require Import Prelude RustStr Fmt Errors Helpers Inventory Policy Async.
From S2P Require Import DeviceManager JunosTransaction ChangesetStore.

Inductive Json := JNull | JString (s : string) | JNumber (n : N) | JBool (b : bool).
#[export] Instance Json_eq_dec : EqDecision Json.
Proof. solve_decision. Defined.
Abbreviation Value := (gmap string Json).
Definition obj (fields : list (string * Json)) : Value := list_to_map fields.
Definition json_opt (o : option string) : Json :=
  match o with Some s => JString s | None => JNull end.

(** ** Arguments *)

Record CreateChangeSetArgs := {
  cr_device : string;
  cr_expected_fingerprint : string;
  cr_actions : list JunosAction
}.
Record ApproveChangeSetArgs := {
  pr_change_set_id : string;
  pr_device : string;
  pr_expected_digest : string
}.
Record CancelChangeSetArgs := { ca_change_set_id : string; ca_device : string }.
Record ApplyChangeSetArgs := {
  aa_change_set_id : string;
  aa_expected_digest : string;
  aa_expected_fingerprint : string;
  aa_device : string;
  aa_confirm_timeout_mins : option N
}.
Record ConfirmChangeSetArgs := { cf_operation_id : string; cf_device : string }.

Inductive AbandonOutcome := CandidateNotCommitted | CommitOutcomeUnknown.
#[export] Instance AbandonOutcome_eq_dec : EqDecision AbandonOutcome.
Proof. solve_decision. Defined.

Record Abandon := {
  ab_change_set_id : string;
  ab_device : string;
  ab_principal : string;
  ab_operation_id : string;
  ab_pre_stage_fingerprint : string;
  ab_reason : string;
  ab_outcome : AbandonOutcome
}.

Inductive ProbeError (E : Type) := Failed (e : E) | TimedOut.
Arguments Failed {E} e.
Arguments TimedOut {E}.

(** ** Records *)

Definition approver_for_commit (record : ChangeSetRecord) : option string :=
  match cs_approval record with Some approval => ap_approver approval | None => None end.

Definition set_failed (c : ChangeSetRecord) : ChangeSetRecord :=
  mk_cs (cs_id c) (cs_device c) (cs_owner c) CsFailed (cs_approval c) (cs_operation_id c)
    (cs_actions c).

Definition set_current (r : OperationRecord) (current : string) : OperationRecord :=
  mk_op (op_id r) (op_owner r) (op_device r) (op_state r) (op_attribution r)
    (op_rollback_deadline_unix r) (op_config_lock_held r) (op_details r) current.

(** What the record of the operation becomes once it is settled. *)
Definition settled_record (r : OperationRecord) (outcome : AbandonOutcome) (reason : string)
  : OperationRecord :=
  match outcome with
  | CandidateNotCommitted =>
      mk_op (op_id r) (op_owner r) (op_device r) StDiscarded (op_attribution r)
        (op_rollback_deadline_unix r) false
        (Some ("candidate discarded with the staged session after a failed apply: " ^^ reason))
        (op_current r)
  | CommitOutcomeUnknown =>
      mk_op (op_id r) (op_owner r) (op_device r) StIndeterminate (op_attribution r)
        (op_rollback_deadline_unix r) (op_config_lock_held r)
        (Some ("commit outcome unknown after a failed apply; verify the device and settle with `state resolve`: "
           ^^ reason))
        (op_current r)
  end.

Definition confirmed_record (r : OperationRecord) (det : option string) : OperationRecord :=
  mk_op (op_id r) (op_owner r) (op_device r) StCommitted (op_attribution r) None
    (op_config_lock_held r) det (op_current r).

(** A commit error does not mean the commit was sent: a record that never
    reached [Committing] proves that nothing was. *)
Definition effective_outcome (outcome : AbandonOutcome) (state : LifecycleState) : AbandonOutcome :=
  match outcome, state with
  | CommitOutcomeUnknown, (StCommitting | StIndeterminate) => CommitOutcomeUnknown
  | CommitOutcomeUnknown, _ => CandidateNotCommitted
  | other, _ => other
  end.

(** ** Cleaning up after a failed apply *)

Section cleanup.
Context {S H E : Type} `{!DeviceTransaction S H E} `{!ChangesetCoordinator S H}.
(** The per-phase cleanup budget. *)
Context (cleanup_timeout : N).

Definition probe {T} (budget : N) (future : Call S T E) (s : S) : Result T (ProbeError E) * S :=
  let (r, s') := call_run future s in
  if (clock (DeviceTransaction := DeviceTransaction0) s' - clock s <=? budget)%N
  then (map_err Failed r, s')
  else (Err TimedOut, call_dropped future budget s).

(** The lock and the fingerprint, checked under one lock that is given back:
    whether the revert is proven, and the record with the fingerprint read. *)
Definition prove_reverted (pre_stage_fingerprint : string) (record : OperationRecord) (s : S)
  : bool * OperationRecord * S :=
  match probe cleanup_timeout (tx_lock "changeset cleanup probe") s with
  | (Err _, s) => (false, record, s)
  | (Ok _, s) =>
      let (observed, s) := probe cleanup_timeout tx_fingerprint s in
      let (unlocked, s) := probe cleanup_timeout tx_unlock s in
      let returned := match unlocked with Ok Released => true | _ => false end in
      match observed with
      | Ok current =>
          if String.eqb current pre_stage_fingerprint
          then (returned, set_current record current, s)
          else (false, record, s)
      | Err _ => (false, record, s)
      end
  end.

Definition settle_change_set (change_set_id device : string) (s : S) : S :=
  match co_change_set change_set_id device s with
  | (Ok change_set, s) => (co_update_change_set (set_failed change_set) s).2
  | (Err _, s) => s
  end.

Definition abandon_failed_apply (staged : H) (about : Abandon) (s : S) : S :=
  let settle := settle_change_set (ab_change_set_id about) (ab_device about) in
  let (released, s) := tx_release staged s in
  if released then
    match co_record (ab_operation_id about) (ab_principal about) (ab_device about) s with
    | (Ok record, s) =>
        let outcome := effective_outcome (ab_outcome about) (op_state record) in
        let '(settled, record, s) :=
          match outcome with
          | CommitOutcomeUnknown => (true, record, s)
          | CandidateNotCommitted => prove_reverted (ab_pre_stage_fingerprint about) record s
          end in
        if settled
        then settle (co_update (settled_record record outcome (ab_reason about)) s).2
        else settle s
    | (Err _, s) => settle s
    end
  else settle s.

End cleanup.

(** ** The tools *)

Section tools.
Context {X : External} {P : PolicyEngine} {F : PolicyFns}.
Context {S H : Type} `{!DeviceTransaction S H JmcpError} `{!ChangesetCoordinator S H}.
(** The cleanup budget, the server-wide confirm window, [LoadAction::as_str],
    [Attribution::with_change_set] and the derived [Debug] of an outcome. *)
Context (cleanup_timeout default_mins : N).
Context (load_action_str : LoadAction -> string).
Context (with_change_set : Attribution -> string -> option string -> Attribution).
Context (outcome_debug : CommitOutcome -> string).

Definition POLICY_SIGNATURE : string := "junos-default-v1".

(** [.map_err(|e| JmcpError::Validation(e.to_string()))] *)
Definition coord_err {T} (r : Result T string) : Result T JmcpError := map_err Validation r.

(** The device's configuration policy over one payload. *)
Definition check_payload (policy : Policy) (tool device : string) (payload : ConfigPayloadSpec)
  : Result unit JmcpError :=
  let? decision := check_config policy device (default "set" (spec_format payload)) (spec_text payload) in
  match decision with
  | DecAllow => Ok tt
  | DecDeny rule source line_number =>
      Err (Denied tool device (rule_pattern rule) (source_str source)
             (excerpt (spec_text payload)) line_number)
  | DecDenyAllowlist _ _ _ => Err (ConfigDomainAllowlistInvariant tool device)
  end.

Definition load_mode_of (payload : ConfigPayloadSpec) : Result LoadAction JmcpError :=
  let? requested_mode := parse_load_mode (spec_mode payload) in
  resolve_load_action (default "set" (spec_format payload)) requested_mode.

(** *** Create *)

(** The first loop: every action has a valid shape, format and mode; whether
    one asks for [override]. *)
Fixpoint check_shapes (index : N) (actions : list JunosAction) (requests_override : bool)
  : Result bool JmcpError :=
  match actions with
  | [] => Ok requests_override
  | action :: rest =>
      let? _ := map_err Validation (validate_shape action index) in
      match act_payload action with
      | None => check_shapes (index + 1) rest requests_override
      | Some payload =>
          let format := default "set" (spec_format payload) in
          let? _ := build_config_payload "" (Some format) in
          let? requested_mode := parse_load_mode (spec_mode payload) in
          let? _ := resolve_load_action format requested_mode in
          check_shapes (index + 1) rest
            (if decide (requested_mode = LoadOverride) then true else requests_override)
      end
  end.

Fixpoint check_policy (policy : Policy) (tool device : string) (actions : list JunosAction)
  : Result unit JmcpError :=
  match actions with
  | [] => Ok tt
  | action :: rest =>
      match act_payload action with
      | None => check_policy policy tool device rest
      | Some payload =>
          let? _ := check_payload policy tool device payload in
          check_policy policy tool device rest
      end
  end.

Definition CREATE : string := "create_junos_change_set".
Definition APPLY : string := "apply_junos_change_set".

(** Everything [create] checks before anything is stored. *)
Definition admit_plan (args : CreateChangeSetArgs) (inv : Inventory) (policy : Policy)
  : Result unit JmcpError :=
  let? _ := get inv (cr_device args) in
  let? requests_override := check_shapes 0 (cr_actions args) false in
  if requests_override && lab_mode (S := S) (H := H) then Err (OverrideRequiresHumanApproval CREATE)
  else check_policy policy CREATE (cr_device args) (cr_actions args).

Definition create_change_set (args : CreateChangeSetArgs) (inv : Inventory) (policy : Policy)
    (attribution : Attribution) (s : S) : Result Value JmcpError * S :=
  match admit_plan args inv policy with
  | Err e => (Err e, s)
  | Ok _ =>
      let owner := principal attribution in
      match co_create_change_set (cr_device args) (cr_actions args) owner
              (cr_expected_fingerprint args) POLICY_SIGNATURE s with
      | (Err e, s) => (Err (Validation e), s)
      | (Ok result, s) =>
          if lab_mode (S := S) (H := H) then
            match co_waive_approval (po_change_set_id result) (cr_device args) owner
                    (po_digest result) s with
            | (Err e, s) => (Err (Validation e), s)
            | (Ok waived, s) =>
                (Ok (obj
                  [("change_set_id", JString (po_change_set_id waived));
                   ("plan_digest", JString (po_digest waived));
                   ("state", JString (po_state waived));
                   ("approver", json_opt (po_approver waived));
                   ("approval_waiver", json_opt (po_approval_waiver waived));
                   ("message", JString "change set created and approval waived: this server runs in lab mode, so no second principal reviewed it")]),
                 s)
            end
          else
            (Ok (obj
              [("change_set_id", JString (po_change_set_id result));
               ("plan_digest", JString (po_digest result));
               ("state", JString (po_state result));
               ("message", JString "change set created; awaiting approval by a second principal")]),
             s)
      end
  end.

(** *** Approve and cancel *)

Definition approve_change_set (args : ApproveChangeSetArgs) (inv : Inventory)
    (attribution : Attribution) (s : S) : Result Value JmcpError * S :=
  match get inv (pr_device args) with
  | Err e => (Err e, s)
  | Ok _ =>
      let (r, s) := co_approve_change_set (pr_change_set_id args) (pr_device args)
                      (principal attribution) (pr_expected_digest args)
                      (actor_type attribution) s in
      (map_result (fun result => obj
         [("change_set_id", JString (pr_change_set_id args));
          ("state", JString (po_state result));
          ("digest", JString (po_digest result));
          ("message", JString "change set approved; ready to apply")]) (coord_err r), s)
  end.

Definition cancel_change_set (args : CancelChangeSetArgs) (inv : Inventory)
    (attribution : Attribution) (s : S) : Result Value JmcpError * S :=
  match get inv (ca_device args) with
  | Err e => (Err e, s)
  | Ok _ =>
      let (r, s) := co_cancel_change_set (ca_change_set_id args) (ca_device args)
                      (principal attribution) s in
      (map_result (fun result => obj
         [("change_set_id", JString (ca_change_set_id args));
          ("state", JString (po_state result));
          ("digest", JString (po_digest result));
          ("message", JString "change set cancelled")]) (coord_err r), s)
  end.

(** *** Apply *)

(** The loop over the stored actions: each is read back, and a payload is
    checked against the policy and its load mode resolved. *)
Fixpoint check_actions (policy : Policy) (device : string) (actions : list (Result JunosAction string))
  : Result (list string) JmcpError :=
  match actions with
  | [] => Ok []
  | Err e :: _ => Err (Validation ("failed to deserialize action: " ^^ e))
  | Ok action :: rest =>
      match act_payload action with
      | None => check_actions policy device rest
      | Some payload =>
          let? _ := check_payload policy APPLY device payload in
          let? load_action := load_mode_of payload in
          let? modes := check_actions policy device rest in
          Ok (load_action_str load_action :: modes)
      end
  end.

Definition primary_action (resolved_modes : list string) : string :=
  match resolved_modes with
  | first :: rest => if forallb (String.eqb first) rest then first else "mixed"
  | [] => "merge"
  end.

(** The confirm window in seconds, or [None] for a plain commit. *)
Definition confirm_secs (mins : option N) : Result (option N) JmcpError :=
  match resolve_confirm_timeout default_mins mins with
  | Confirmed m => map_result Some (confirm_timeout_to_secs m)
  | OptedOut => Ok None
  end.

(** Everything before the coordinator stages: the request it is given, the
    attribution and the window of the commit. *)
Definition prepare_apply (args : ApplyChangeSetArgs) (inv : Inventory) (policy : Policy)
    (attribution : Attribution) (s : S)
  : Result (DeviceEntry * ApplyRequest * Attribution * option N) JmcpError * S :=
  match get inv (aa_device args) with
  | Err e => (Err e, s)
  | Ok entry =>
      match confirm_secs (aa_confirm_timeout_mins args) with
      | Err e => (Err e, s)
      | Ok secs =>
          match co_change_set (aa_change_set_id args) (aa_device args) s with
          | (Err e, s) => (Err (Validation e), s)
          | (Ok record, s) =>
              let attribution' :=
                with_change_set attribution (aa_change_set_id args) (approver_for_commit record) in
              match check_actions policy (aa_device args) (cs_actions record) with
              | Err e => (Err e, s)
              | Ok modes =>
                  (Ok (entry,
                       {| ar_change_set_id := aa_change_set_id args;
                          ar_device := aa_device args;
                          ar_endpoint := "junos://" ^^ ip entry ^^ ":" ^^ dec (port entry);
                          ar_principal := principal attribution;
                          ar_expected_digest := aa_expected_digest args;
                          ar_expected_fingerprint := aa_expected_fingerprint args;
                          ar_primary_action := primary_action modes;
                          ar_primary_target := None;
                          ar_config_authority := Some (authority_str (config_authority entry)) |},
                       attribution', secs), s)
              end
          end
      end
  end.

Definition authority_warning (entry : DeviceEntry) : option string :=
  if is_local (config_authority entry) then None
  else Some ("WARNING: this device is owned by " ^^ authority_str (config_authority entry)
         ^^ ". Changes may be overwritten at the next push from the owning management plane.").
Definition with_warning (warning : option string) (v : Value) : Value :=
  match warning with
  | Some w => <["config_authority_warning" := JString w]> v
  | None => v
  end.

(** The tool's answer to a commit's outcome: a response, or the reason to give
    up and what is known then. *)
Definition answer_outcome (change_set_id operation_id : string) (outcome : CommitOutcome)
  : Result Value (string * AbandonOutcome) :=
  let head state outcome_name :=
    [("change_set_id", JString change_set_id); ("operation_id", JString operation_id);
     ("state", JString state); ("commit_outcome", JString outcome_name)] in
  match outcome with
  | Reconciled true _ det =>
      Ok (obj (head "Applied" "Reconciled" ++
        [("details", json_opt det);
         ("message", JString "change set applied and committed successfully")]))
  | Reconciled false _ det =>
      Err ("commit failed: " ^^ default "no details" det, CandidateNotCommitted)
  | Indeterminate reason =>
      Err ("commit outcome indeterminate, manual reconciliation required: " ^^ reason,
           CommitOutcomeUnknown)
  | Detached job_id =>
      Ok (obj (head "Committing" "Detached" ++
        [("job_id", JString job_id);
         ("message", JString "commit detached, poll for completion")]))
  | AwaitingConfirmation _ deadline det =>
      Ok (obj (head "AwaitingConfirmation" "AwaitingConfirmation" ++
        [("rollback_deadline_unix", JNumber deadline); ("details", json_opt det);
         ("message", JString "commit awaiting confirmation; auto-rollback pending")]))
  end.

(** Diff, validate and commit what was staged: a response, or the reason to
    give up and what is known then. *)
Definition run_operation (args : ApplyChangeSetArgs) (who : string) (attribution : Attribution)
    (secs : option N) (staged : ApplyOutput H) (s : S)
  : Result Value (string * AbandonOutcome) * S :=
  let op := {| or_operation_id := ao_operation_id staged; or_device := aa_device args;
               or_principal := who; or_fingerprint := ao_after_fingerprint staged |} in
  match co_diff_operation op (ao_staged staged) s with
  | (Err e, s) => (Err (e, CandidateNotCommitted), s)
  | (Ok _, s) =>
      match co_validate_operation op (ao_staged staged) s with
      | (Err e, s) => (Err (e, CandidateNotCommitted), s)
      | (Ok validation, s) =>
          if negb (valid validation) then
            (Err ("configuration validation failed: " ^^ default "no details" (details validation),
                  CandidateNotCommitted), s)
          else
            match co_commit_operation op POLICY_SIGNATURE (ao_staged staged) attribution
                    (option_map from_secs secs) s with
            | (Err e, s) => (Err (e, CommitOutcomeUnknown), s)
            | (Ok outcome, s) =>
                (answer_outcome (aa_change_set_id args) (ao_operation_id staged) outcome, s)
            end
      end
  end.

Definition apply_change_set (args : ApplyChangeSetArgs) (inv : Inventory) (policy : Policy)
    (attribution : Attribution) (s : S) : Result Value JmcpError * S :=
  match prepare_apply args inv policy attribution s with
  | (Err e, s) => (Err e, s)
  | (Ok (entry, request, attribution', secs), s) =>
      match co_apply_change_set request attribution' s with
      | (Err e, s) => (Err (Validation e), s)
      | (Ok staged, s) =>
          match run_operation args (principal attribution) attribution' secs staged s with
          | (Ok v, s) => (Ok (with_warning (authority_warning entry) v), s)
          | (Err (reason, outcome), s) =>
              (Err (Validation reason),
               abandon_failed_apply (E := JmcpError) cleanup_timeout (ao_staged staged)
                 {| ab_change_set_id := aa_change_set_id args;
                    ab_device := aa_device args;
                    ab_principal := principal attribution;
                    ab_operation_id := ao_operation_id staged;
                    ab_pre_stage_fingerprint := aa_expected_fingerprint args;
                    ab_reason := reason;
                    ab_outcome := outcome |} s)
          end
      end
  end.

(** *** Confirm *)

(** [now] is the system clock in seconds since the epoch, read when the record
    has been. *)
Definition confirm_change_set (args : ConfirmChangeSetArgs) (inv : Inventory)
    (attribution : Attribution) (now : N) (s : S) : Result Value JmcpError * S :=
  match get inv (cf_device args) with
  | Err e => (Err e, s)
  | Ok _ =>
      match co_record (cf_operation_id args) (principal attribution) (cf_device args) s with
      | (Err e, s) => (Err (Validation e), s)
      | (Ok record, s) =>
          match op_rollback_deadline_unix record with
          | None =>
              (Err (Validation ("operation " ^^ cf_operation_id args
                 ^^ " has no pending confirmation; it was not committed with a confirm window")), s)
          | Some deadline =>
              if (deadline <=? now)%N then
                (Err (Validation ("the confirmation window for operation " ^^ cf_operation_id args
                   ^^ " closed at " ^^ dec deadline
                   ^^ "; the device has already rolled the change back")), s)
              else
                match tx_confirm_commit (cf_operation_id args) attribution s with
                | (Err e, s) => (Err e, s)
                | (Ok (Reconciled true _ det), s) =>
                    match co_update (confirmed_record record det) s with
                    | (Err e, s) => (Err (Validation e), s)
                    | (Ok _, s) =>
                        (Ok (obj
                          [("operation_id", JString (cf_operation_id args));
                           ("device", JString (cf_device args));
                           ("state", JString "Committed");
                           ("details", json_opt det);
                           ("message", JString "confirming commit accepted; the automatic rollback is cancelled")]), s)
                    end
                | (Ok other, s) =>
                    (Ok (obj
                      [("operation_id", JString (cf_operation_id args));
                       ("device", JString (cf_device args));
                       ("state", JString "Committing");
                       ("commit_outcome", JString (outcome_debug other));
                       ("rollback_deadline_unix", JNumber deadline);
                       ("message", JString "the confirming commit did not report success; the rollback timer is still running")]), s)
                end
          end
      end
  end.

(** [confirm_commit::handle]: the confirming commit of a window that no
    operation record tracks. *)
Definition handle_confirm_commit (device : string) (inv : Inventory) (attribution : Attribution)
    (s : S) : Result Value JmcpError * S :=
  match get inv device with
  | Err e => (Err e, s)
  | Ok _ =>
      match tx_confirm_commit "confirm_commit" attribution s with
      | (Err e, s) => (Err e, s)
      | (Ok (Reconciled true _ det), s) =>
          (Ok (obj
            [("device", JString device); ("confirmed", JBool true); ("details", json_opt det);
             ("message", JString "confirming commit accepted; any pending automatic rollback is cancelled")]), s)
      | (Ok (Reconciled false _ det), s) =>
          (Err (Validation ("confirming commit failed: " ^^ default "no details" det)), s)
      | (Ok other, s) =>
          (Ok (obj
            [("device", JString device); ("confirmed", JBool false);
             ("commit_outcome", JString (outcome_debug other));
             ("message", JString "the confirming commit did not report a definite outcome; if a rollback window is open on the device it may still be running")]), s)
      end
  end.

(** *** Status *)

(** [json!(operation.state)] *)
Context (state_json : LifecycleState -> Json).

(** The verdict on a record, if one is owed, and the deadline reported with it. *)
Definition confirmation_verdict (operation : OperationRecord) (now : N) : list (string * Json) :=
  match op_rollback_deadline_unix operation with
  | Some deadline =>
      if decide (op_state operation = StDiscarded) then
        [("commit_confirmation", JString "discarded")]
      else if bool_decide (op_state operation = StCommitted) && (deadline <=? now)%N then
        [("commit_confirmation", JString "indeterminate")]
      else
        [("rollback_deadline_unix", JNumber deadline);
         ("commit_confirmation",
            JString (if (now <? deadline)%N then "awaiting_confirmation"
                     else "presumed_auto_reverted"))]
  | None =>
      if decide (op_state operation = StCommitted) then
        [("commit_confirmation", JString "committed")]
      else []
  end.

Definition derive_commit_confirmation (change_set_id device : string) (now : N) (s : S) : Value * S :=
  match co_change_set change_set_id device s with
  | (Err _, s) => (∅, s)
  | (Ok change_set, s) =>
      match cs_operation_id change_set with
      | None => (∅, s)
      | Some operation_id =>
          match co_record operation_id (cs_owner change_set) device s with
          | (Err _, s) => (∅, s)
          | (Ok operation, s) =>
              (obj ([("operation_id", JString (op_id operation));
                     ("operation_state", state_json (op_state operation))]
                    ++ confirmation_verdict operation now), s)
          end
      end
  end.

(** [ChangesetCoordinator::change_set_status], or its variant with the staged
    actions; [serde_json::to_value] of what it returns, as an object if it is one. *)
Context {Status StatusError : Type} (status_error : StatusError -> string).
Context (co_status : string -> string -> S -> Result Status StatusError * S).
Context (to_value : Status -> Result (option Value) string).

(** [get_change_set_status] and [get_change_set_status_with_actions]: the same
    text, of the one status or the other.  [Map::extend] replaces what is there. *)
Definition get_change_set_status (change_set_id device : string) (now : N) (s : S)
  : Result Value JmcpError * S :=
  match co_status change_set_id device s with
  | (Err e, s) => (Err (Validation (status_error e)), s)
  | (Ok status, s) =>
      let (confirmation_fields, s) := derive_commit_confirmation change_set_id device now s in
      (match to_value status with
       | Err e => Err (Validation e)
       | Ok None => Err (Validation "status is not an object")
       | Ok (Some result) => Ok (confirmation_fields ∪ result)
       end, s)
  end.

Definition list_change_sets (filter_device : option string) (inv : Inventory) (s : S)
  : list ChangeSetRecord * S :=
  let (all_records, s) := co_change_sets s in
  (List.filter (fun record =>
     match filter_device with
     | Some d => String.eqb (cs_device record) d
     | None => true
     end && is_ok (get inv (cs_device record))) all_records, s).

Definition get_candidate_fingerprint (device : string) (s : S) : Result Value JmcpError * S :=
  let (r, s) := call_run tx_fingerprint s in
  (match r with
   | Ok fp => Ok (obj [("device", JString device); ("candidate_fingerprint", JString fp)])
   | Err e => Err (Validation (to_string e))
   end, s).

End tools.

(** ** The device transaction of the tools

    [JunosTransaction::new(dm, device)]: the session it keeps between [lock] and
    [unlock], the handle staged on it, and the world.  [S] is any state that
    holds one; what a call dropped after a time leaves of the world is left
    open ([abandoned]). *)
Section junos_calls.
Context {X : External} {D Net : Type} `{!RustezClient D Net} `{!ConfigOps D Net}.
Context (sha256_hex : string -> string) (cleanup_timeout : N) (router : string).

Record JunosTx := mk_tx {
  tx_held : option (PooledDevice D);
  tx_staged : Staged (D := D);
  tx_world : World (DeviceManager (D := D) (Net := Net))
}.

Context (abandoned : N -> World (DeviceManager (D := D) (Net := Net)) ->
                     World (DeviceManager (D := D) (Net := Net))).
Context {S : Type} (get_tx : S -> JunosTx) (set_tx : JunosTx -> S -> S).

Definition junos_transaction : DeviceTransaction S unit JmcpError := {|
  clock s := w_now (tx_world (get_tx s));
  tx_lock _ := mk_call
    (fun s => let t := get_tx s in
       let '(r, held, w) := lock router (tx_held t) (tx_world t) in
       (r, set_tx (mk_tx held (tx_staged t) w) s))
    (fun n s => let t := get_tx s in
       set_tx (mk_tx (tx_held t) (tx_staged t) (abandoned n (tx_world t))) s);
  tx_fingerprint := mk_call
    (fun s => let t := get_tx s in
       let '(r, w) := fingerprint sha256_hex router (tx_held t) (tx_world t) in
       (r, set_tx (mk_tx (tx_held t) (tx_staged t) w) s))
    (fun n s => let t := get_tx s in
       set_tx (mk_tx (tx_held t) (tx_staged t) (abandoned n (tx_world t))) s);
  tx_unlock := mk_call
    (fun s => let t := get_tx s in
       let '(r, held, w) := unlock cleanup_timeout (tx_held t) (tx_world t) in
       (map_result (fun _ => Released) r, set_tx (mk_tx held (tx_staged t) w) s))
    (fun n s => let t := get_tx s in
       set_tx (mk_tx None (tx_staged t) (abandoned n (tx_world t))) s);
  tx_confirm_commit _ att s :=
    let t := get_tx s in
    let '(r, w) := confirm_commit router att (tx_world t) in
    (r, set_tx (mk_tx (tx_held t) (tx_staged t) w) s);
  tx_release _ s :=
    let t := get_tx s in
    let '(b, staged, w) := release_staged cleanup_timeout (tx_staged t) (tx_world t) in
    (b, set_tx (mk_tx (tx_held t) staged w) s)
|}.

End junos_calls.
