(* ===== verification/ChangesetToolsSpec.v ===== *)
(** * What the change-set tools promise

    The calls an apply makes and their order, against any coordinator and any
    device; what its clean-up may record; what is admitted into a plan; what
    confirming a commit needs and writes; and the verdict of a status. *)

From S2P Require Import Prelude RustStr Fmt Errors Helpers Inventory Policy Async.
From S2P Require Import CandidateTransaction CandidateSpec DeviceManager DeviceManagerSpec.
From S2P Require Import JunosTransaction JunosTransactionSpec ChangesetStore ChangesetTools.

(** What became of a call: its answer, an error, or dropped by its timeout. *)
Inductive Ans (T : Type) := Answered (v : T) | Refused | Lost.
Arguments Answered {T} v.
Arguments Refused {T}.
Arguments Lost {T}.
Definition ans {T E} (r : Result T E) : Ans T :=
  match r with Ok v => Answered v | Err _ => Refused end.

Inductive Event :=
  | EvRelease (released : bool)
  | EvLock (a : Ans unit)
  | EvFingerprint (a : Ans string)
  | EvUnlock (a : Ans UnlockOutcome)
  | EvRecord (operation who device : string) (a : Ans OperationRecord)
  | EvUpdate (r : OperationRecord) (a : Ans unit)
  | EvChangeSet (id device : string) (a : Ans ChangeSetRecord)
  | EvUpdateChangeSet (c : ChangeSetRecord) (a : Ans unit)
  | EvList
  | EvCreate (device owner : string) (actions : list JunosAction)
  | EvWaive (device owner : string)
  | EvApprove (device approver : string)
  | EvCancel (device who : string)
  | EvApply (req : ApplyRequest) (attribution : Attribution) (a : Ans unit)
  | EvDiff (op : OperationRef) (a : Ans string)
  | EvValidate (op : OperationRef) (a : Ans JunosValidation)
  | EvCommit (op : OperationRef) (timeout : option N) (a : Ans CommitOutcome)
  | EvConfirm (a : Ans CommitOutcome).

(** ** A coordinator and a device that record their calls *)

Section logged.
Context {S H E : Type} `{!DeviceTransaction S H E} `{!ChangesetCoordinator S H}.

Abbreviation Logged := (list Event * S)%type.

Definition log_run {T} (ev : Ans T -> Event) (f : S -> Result T E * S)
  : Logged -> Result T E * Logged :=
  fun '(l, s) => let (r, s') := f s in (r, (l ++ [ev (ans r)], s')).
Definition log_call {T} (ev : Ans T -> Event) (c : Call S T E) : Call Logged T E :=
  mk_call (log_run ev (call_run c)) (fun n '(l, s) => (l ++ [ev Lost], call_dropped c n s)).
Definition log_co {T} (ev : Ans T -> Event) (f : S -> Result T string * S)
  : Logged -> Result T string * Logged :=
  fun '(l, s) => let (r, s') := f s in (r, (l ++ [ev (ans r)], s')).

#[export] Instance logged_transaction : DeviceTransaction Logged H E := {|
  clock := fun '(_, s) => clock (H := H) (E := E) s;
  tx_lock c := log_call EvLock (tx_lock (H := H) c);
  tx_fingerprint := log_call EvFingerprint (tx_fingerprint (H := H));
  tx_unlock := log_call EvUnlock (tx_unlock (H := H));
  tx_confirm_commit o a := log_run EvConfirm (tx_confirm_commit (H := H) o a);
  tx_release h := fun '(l, s) =>
    let (b, s') := tx_release (E := E) h s in (b, (l ++ [EvRelease b], s'))
|}.

#[export] Instance logged_coordinator : ChangesetCoordinator Logged H := {|
  lab_mode := lab_mode (S := S) (H := H);
  co_record o p d := log_co (EvRecord o p d) (co_record (H := H) o p d);
  co_update r := log_co (EvUpdate r) (co_update (H := H) r);
  co_change_set i d := log_co (EvChangeSet i d) (co_change_set (H := H) i d);
  co_change_sets := fun '(l, s) =>
    let (v, s') := co_change_sets (H := H) s in (v, (l ++ [EvList], s'));
  co_update_change_set c := log_co (EvUpdateChangeSet c) (co_update_change_set (H := H) c);
  co_create_change_set d acts o f p :=
    log_co (fun _ => EvCreate d o acts) (co_create_change_set (H := H) d acts o f p);
  co_waive_approval i d o g := log_co (fun _ => EvWaive d o) (co_waive_approval (H := H) i d o g);
  co_approve_change_set i d a g t :=
    log_co (fun _ => EvApprove d a) (co_approve_change_set (H := H) i d a g t);
  co_cancel_change_set i d p := log_co (fun _ => EvCancel d p) (co_cancel_change_set (H := H) i d p);
  co_apply_change_set req a := fun '(l, s) =>
    let (r, s') := co_apply_change_set (H := H) req a s in
    (r, (l ++ [EvApply req a (ans (map_result (fun _ => tt) r))], s'));
  co_diff_operation op h := log_co (EvDiff op) (co_diff_operation op h);
  co_validate_operation op h := log_co (EvValidate op) (co_validate_operation op h);
  co_commit_operation op p h a t := log_co (EvCommit op t) (co_commit_operation op p h a t)
|}.

(** ** Cleaning up after a failed apply *)

(** Marking the change set failed: always tried, whatever the device did. *)
Inductive Settled (id device : string) : list Event -> Prop :=
  | settled_unread a : (forall c, a <> Answered c) -> Settled id device [EvChangeSet id device a]
  | settled_marked c a :
      Settled id device [EvChangeSet id device (Answered c); EvUpdateChangeSet (set_failed c) a].

Definition read_op (about : Abandon) : Ans OperationRecord -> Event :=
  EvRecord (ab_operation_id about) (ab_principal about) (ab_device about).

(** The clean-up, up to that: what may be written about the operation, and the
    answers it needs for it. *)
Inductive Cleaned (about : Abandon) : list Event -> Prop :=
  | cleaned_unreleased : Cleaned about [EvRelease false]
  | cleaned_unread a : (forall r, a <> Answered r) -> Cleaned about [EvRelease true; read_op about a]
  | cleaned_unknown r a :
      ab_outcome about = CommitOutcomeUnknown ->
      op_state r = StCommitting \/ op_state r = StIndeterminate ->
      Cleaned about [EvRelease true; read_op about (Answered r);
                     EvUpdate (settled_record r CommitOutcomeUnknown (ab_reason about)) a]
  | cleaned_locked_out r a :
      effective_outcome (ab_outcome about) (op_state r) = CandidateNotCommitted ->
      a <> Answered tt ->
      Cleaned about [EvRelease true; read_op about (Answered r); EvLock a]
  | cleaned_unproven r f u :
      effective_outcome (ab_outcome about) (op_state r) = CandidateNotCommitted ->
      f <> Answered (ab_pre_stage_fingerprint about) \/ u <> Answered Released ->
      Cleaned about [EvRelease true; read_op about (Answered r); EvLock (Answered tt);
                     EvFingerprint f; EvUnlock u]
  | cleaned_proven r a :
      effective_outcome (ab_outcome about) (op_state r) = CandidateNotCommitted ->
      Cleaned about
        [EvRelease true; read_op about (Answered r); EvLock (Answered tt);
         EvFingerprint (Answered (ab_pre_stage_fingerprint about)); EvUnlock (Answered Released);
         EvUpdate (settled_record (set_current r (ab_pre_stage_fingerprint about))
                     CandidateNotCommitted (ab_reason about)) a].

Context (cleanup_timeout : N).

Definition probed {T} (r : Result T (ProbeError E)) : Ans T :=
  match r with Ok v => Answered v | Err (Failed _) => Refused | Err TimedOut => Lost end.

(** A probe is one call, and its result is what the log says of it. *)
Lemma probe_log {T} (ev : Ans T -> Event) (c : Call S T E) l (s : S) :
  exists r s', probe (H := H) cleanup_timeout (log_call ev c) (l, s) = (r, (l ++ [ev (probed r)], s')).
Proof.
  unfold probe. cbn. unfold log_run. destruct (call_run c s) as [r s']. cbn.
  destruct (_ <=? _)%N; [|by exists (Err TimedOut), (call_dropped c cleanup_timeout s)].
  exists (map_err Failed r), s'. by destruct r.
Qed.

Lemma settle_log id d l (s : S) :
  exists evs s', settle_change_set (H := H) id d (l, s) = (l ++ evs, s') /\ Settled id d evs.
Proof.
  unfold settle_change_set. cbn. unfold log_co.
  destruct (co_change_set id d s) as [[c|e] s']; cbn.
  - destruct (co_update_change_set _ s') as [r s'']. cbn. do 2 eexists.
    rewrite <- app_assoc. split; [done|]. apply settled_marked.
  - do 2 eexists. split; [done|]. apply settled_unread. discriminate.
Qed.

Lemma prove_reverted_log pre r l (s : S) :
  let '(settled, r', w') := prove_reverted (H := H) (E := E) cleanup_timeout pre r (l, s) in
  exists evs s', w' = (l ++ evs, s') /\
  if settled then
    r' = set_current r pre /\
    evs = [EvLock (Answered tt); EvFingerprint (Answered pre); EvUnlock (Answered Released)]
  else
    (exists a, a <> Answered tt /\ evs = [EvLock a]) \/
    (exists f u, (f <> Answered pre \/ u <> Answered Released) /\
                 evs = [EvLock (Answered tt); EvFingerprint f; EvUnlock u]).
Proof.
  unfold prove_reverted. cbn [tx_lock tx_fingerprint tx_unlock logged_transaction].
  destruct (probe_log EvLock (tx_lock "changeset cleanup probe") l s) as (rl & s1 & ->).
  destruct rl as [[]|e].
  2:{ exists [EvLock (probed (Err e))], s1. split; [done|]. left. eexists. split; [|done].
      by destruct e. }
  destruct (probe_log EvFingerprint tx_fingerprint (l ++ [EvLock (probed (Ok tt))]) s1)
    as (rf & s2 & ->).
  destruct (probe_log EvUnlock tx_unlock
    ((l ++ [EvLock (probed (Ok tt))]) ++ [EvFingerprint (probed rf)]) s2) as (ru & s3 & ->).
  rewrite <- !app_assoc. cbn [app].
  assert (Hu : forall b, match ru with Ok Released => true | _ => false end = b ->
    if b then probed ru = Answered Released else probed ru <> Answered Released).
  { intros b <-. destruct ru as [[|n]|[e|]]; done. }
  destruct rf as [fp|e].
  - destruct (String.eqb_spec fp pre) as [->|Hne].
    + do 2 eexists. split; [done|]. specialize (Hu _ eq_refl).
      destruct (match ru with Ok Released => true | _ => false end).
      * split; [done|]. cbn [probed]. by rewrite Hu.
      * right. do 2 eexists. split; [|done]. by right.
    + do 2 eexists. split; [done|]. right. do 2 eexists. split; [|done]. left. cbn. congruence.
  - do 2 eexists. split; [done|]. right. do 2 eexists. split; [|done]. left. by destruct e.
Qed.

Lemma abandon_log staged about l (s : S) :
  exists cl st s', abandon_failed_apply (E := E) cleanup_timeout staged about (l, s) =
    (l ++ cl ++ st, s') /\ Cleaned about cl /\ Settled (ab_change_set_id about) (ab_device about) st.
Proof.
  assert (Hs : forall cl w, (exists s1, w = (l ++ cl, s1)) -> Cleaned about cl ->
    exists cl st s', settle_change_set (H := H) (ab_change_set_id about) (ab_device about) w =
      (l ++ cl ++ st, s') /\ Cleaned about cl /\ Settled (ab_change_set_id about) (ab_device about) st).
  { intros cl w [s1 ->] Hc.
    destruct (settle_log (ab_change_set_id about) (ab_device about) (l ++ cl) s1)
      as (st & s2 & -> & Hst).
    exists cl, st, s2. by rewrite <- app_assoc. }
  unfold abandon_failed_apply. cbn [tx_release logged_transaction].
  destruct (tx_release (E := E) staged s) as [[|] s1].
  2:{ apply (Hs [EvRelease false]); [by eexists|constructor]. }
  cbn [co_record logged_coordinator]. unfold log_co at 1.
  destruct (co_record _ _ _ s1) as [[r|e] s2]; cbn [ans]; rewrite <- app_assoc; cbn [app].
  2:{ apply (Hs [EvRelease true; read_op about Refused]); [by eexists|]. constructor. discriminate. }
  destruct (effective_outcome (ab_outcome about) (op_state r)) eqn:Ho.
  - pose proof (prove_reverted_log (ab_pre_stage_fingerprint about) r
                  (l ++ [EvRelease true; read_op about (Answered r)]) s2) as Hp.
    destruct (prove_reverted _ _ _ _) as [[b r'] w']. destruct Hp as (evs & s3 & -> & Hb).
    destruct b.
    + destruct Hb as [-> ->]. cbn [co_update logged_coordinator]. unfold log_co at 1.
      destruct (co_update _ s3) as [a s4]. cbn [snd].
      eapply Hs; [|by apply cleaned_proven]. eexists. rewrite <- !app_assoc. done.
    + destruct Hb as [(a & Ha & ->)|(f & u & Hfu & ->)]; eapply Hs.
      * eexists. by rewrite <- app_assoc.
      * by apply cleaned_locked_out.
      * eexists. by rewrite <- app_assoc.
      * by apply cleaned_unproven.
  - cbn [co_update logged_coordinator]. unfold log_co at 1.
    destruct (co_update _ s2) as [a s3]. cbn [snd].
    eapply Hs; [eexists; by rewrite <- app_assoc|].
    unfold effective_outcome in Ho. apply cleaned_unknown; destruct (ab_outcome about); try done.
    destruct (op_state r); auto; done.
Qed.

(** C5: the clean-up after a failed apply records only what it proved, against
    any coordinator and any device.  It always ends by marking the change set
    failed, if it can be read.  It writes the operation as [Discarded], with its
    lock flag cleared, only when the session was released, the lock was then
    taken, the candidate read under it had its pre-stage fingerprint, and the
    lock was given back, in that order; as [Indeterminate] only when the commit
    may have been sent, and then without probing the device; otherwise it
    leaves the operation alone. *)
Theorem abandon_failed_apply_spec staged about l (s : S) :
  exists cl st s', abandon_failed_apply (E := E) cleanup_timeout staged about (l, s) =
    (l ++ cl ++ st, s') /\ Cleaned about cl /\ Settled (ab_change_set_id about) (ab_device about) st /\
  forall r' a, In (EvUpdate r' a) cl ->
    match op_state r' with
    | StDiscarded =>
        op_config_lock_held r' = false /\ op_current r' = ab_pre_stage_fingerprint about /\
        exists r, cl =
          [EvRelease true; read_op about (Answered r); EvLock (Answered tt);
           EvFingerprint (Answered (ab_pre_stage_fingerprint about));
           EvUnlock (Answered Released); EvUpdate r' a]
    | StIndeterminate =>
        ab_outcome about = CommitOutcomeUnknown /\
        exists r, (op_state r = StCommitting \/ op_state r = StIndeterminate) /\
          op_config_lock_held r' = op_config_lock_held r /\
          cl = [EvRelease true; read_op about (Answered r); EvUpdate r' a]
    | _ => False
    end.
Proof.
  destruct (abandon_log staged about l s) as (cl & st & s' & He & Hc & Hs).
  exists cl, st, s'. split_and!; [done..|]. intros r' a Hin.
  destruct Hc; cbn in Hin; repeat (destruct Hin as [Hin|Hin]; [try discriminate Hin|]);
    try done; injection Hin as <- <-; cbn.
  - split; [done|]. by exists r.
  - split_and!; [done..|]. by exists r.
Qed.

End logged.

(** ** Applying a change set *)

Section tools.
Context {X : External} {P : PolicyEngine} {F : PolicyFns}.
Context {S H : Type} `{!DeviceTransaction S H JmcpError} `{!ChangesetCoordinator S H}.
Context (cleanup_timeout default_mins : N) (load_action_str : LoadAction -> string).
Context (with_change_set : Attribution -> string -> option string -> Attribution).

(** An action that may be staged: it could be read back, the device's policy
    allows its text, and its format and mode go together. *)
Definition AdmittedAction (policy : Policy) (tool device : string) (a : Result JunosAction string)
  : Prop :=
  exists action, a = Ok action /\
  forall payload, act_payload action = Some payload ->
    check_payload policy tool device payload = Ok tt /\ is_ok (load_mode_of payload) = true.

Lemma check_actions_ok policy device actions modes :
  check_actions load_action_str policy device actions = Ok modes ->
  Forall (AdmittedAction policy APPLY device) actions.
Proof.
  revert modes; induction actions as [|[a|e] rest IH]; intros modes; cbn; [constructor| |done].
  destruct (act_payload a) as [p|] eqn:Hp.
  - destruct (check_payload policy APPLY device p) as [[]|] eqn:Hc; [|done].
    destruct (load_mode_of p) as [la|] eqn:Hm; [|done].
    destruct (check_actions _ policy device rest) as [ms|]; [|done]. intros _.
    constructor; [|by eapply IH]. exists a. split; [done|]. intros p' Hp'.
    rewrite Hp in Hp'. injection Hp' as <-. by rewrite Hc, Hm.
  - intros Hr. constructor; [|by eapply IH]. exists a. split; [done|]. congruence.
Qed.

(** The steps on what was staged, and how each can end them. *)
Inductive Steps (args : ApplyChangeSetArgs) (op : OperationRef) (secs : option N)
  : list Event -> Result Value (string * AbandonOutcome) -> Prop :=
  | steps_diff e : Steps args op secs [EvDiff op Refused] (Err (e, CandidateNotCommitted))
  | steps_validate d e :
      Steps args op secs [EvDiff op (Answered d); EvValidate op Refused]
        (Err (e, CandidateNotCommitted))
  | steps_invalid d v e :
      valid v = false ->
      Steps args op secs [EvDiff op (Answered d); EvValidate op (Answered v)]
        (Err (e, CandidateNotCommitted))
  | steps_commit_failed d v e :
      valid v = true ->
      Steps args op secs [EvDiff op (Answered d); EvValidate op (Answered v);
                          EvCommit op (option_map from_secs secs) Refused]
        (Err (e, CommitOutcomeUnknown))
  | steps_commit d v o :
      valid v = true ->
      Steps args op secs [EvDiff op (Answered d); EvValidate op (Answered v);
                          EvCommit op (option_map from_secs secs) (Answered o)]
        (answer_outcome (aa_change_set_id args) (or_operation_id op) o).

Lemma run_operation_log args who att secs (staged : ApplyOutput H) l (s : S) :
  let op := {| or_operation_id := ao_operation_id staged; or_device := aa_device args;
               or_principal := who; or_fingerprint := ao_after_fingerprint staged |} in
  exists r evs s',
    run_operation args who att secs staged (l, s) = (r, (l ++ evs, s')) /\ Steps args op secs evs r.
Proof.
  intros op. unfold run_operation. fold op.
  cbn [co_diff_operation co_validate_operation co_commit_operation logged_coordinator].
  unfold log_co. destruct (co_diff_operation _ _ s) as [[d|e] s1]; cbn [ans].
  2:{ eexists _, _, _. split; [done|]. constructor. }
  destruct (co_validate_operation _ _ s1) as [[v|e] s2]; cbn [ans]; rewrite <- !app_assoc.
  2:{ eexists _, _, _. split; [done|]. constructor. }
  destruct (valid v) eqn:Hv; cbn [negb].
  2:{ eexists _, _, _. split; [done|]. by constructor. }
  destruct (co_commit_operation _ _ _ _ _ s2) as [[o|e] s3]; cbn [ans]; rewrite <- ?app_assoc;
    eexists _, _, _; (split; [done|]); by constructor.
Qed.

Definition read_cs (args : ApplyChangeSetArgs) : Ans ChangeSetRecord -> Event :=
  EvChangeSet (aa_change_set_id args) (aa_device args).

(** What holds before anything is staged. *)
Record Prepared (args : ApplyChangeSetArgs) (inv : Inventory) (policy : Policy) (att : Attribution)
    (entry : DeviceEntry) (cs : ChangeSetRecord) (req : ApplyRequest) (att' : Attribution)
    (secs : option N) : Prop := {
  prep_device : get inv (aa_device args) = Ok entry;
  prep_window : confirm_secs default_mins (aa_confirm_timeout_mins args) = Ok secs;
  prep_actions : Forall (AdmittedAction policy APPLY (aa_device args)) (cs_actions cs);
  prep_attribution :
    att' = with_change_set att (aa_change_set_id args) (approver_for_commit cs);
  prep_target : ar_change_set_id req = aa_change_set_id args /\ ar_device req = aa_device args;
  prep_principal : ar_principal req = principal att;
  prep_expected : ar_expected_digest req = aa_expected_digest args /\
                  ar_expected_fingerprint req = aa_expected_fingerprint args
}.

Lemma prepare_apply_log args inv policy att l (s : S) :
  exists r evs s',
    prepare_apply default_mins load_action_str with_change_set args inv policy att (l, s) =
      (r, (l ++ evs, s')) /\
    match r with
    | Err _ => Forall (fun ev => exists a, ev = read_cs args a) evs
    | Ok (entry, req, att', secs) =>
        exists cs, evs = [read_cs args (Answered cs)] /\
                   Prepared args inv policy att entry cs req att' secs
    end.
Proof.
  assert (Hnil : forall e : JmcpError,
    exists (r : Result (DeviceEntry * ApplyRequest * Attribution * option N) JmcpError) evs s',
    (Err e, (l, s)) = (r, (l ++ evs, s')) /\ match r with
      | Err _ => Forall (fun ev => exists a, ev = read_cs args a) evs
      | Ok (entry, req, att', secs) =>
          exists cs, evs = [read_cs args (Answered cs)] /\
                     Prepared args inv policy att entry cs req att' secs
      end).
  { intros e. exists (Err e), [], s. rewrite app_nil_r. by split. }
  unfold prepare_apply. destruct (get inv (aa_device args)) as [entry|] eqn:Hd; [|apply Hnil].
  destruct (confirm_secs _ _) as [secs|] eqn:Hs; [|apply Hnil].
  cbn [co_change_set logged_coordinator]. unfold log_co.
  destruct (co_change_set _ _ s) as [[cs|e] s1]; cbn [ans].
  2:{ eexists _, _, _. split; [done|]. repeat constructor. by eexists. }
  destruct (check_actions _ policy (aa_device args) (cs_actions cs)) as [modes|] eqn:Hc.
  2:{ eexists _, _, _. split; [done|]. repeat constructor. by eexists. }
  eexists _, _, _. split; [done|]. cbn beta iota. exists cs. split; [done|].
  split; try done. by eapply check_actions_ok.
Qed.

(** The calls of one apply, and its result. *)
Inductive Applied (args : ApplyChangeSetArgs) (inv : Inventory) (policy : Policy) (att : Attribution)
  : list Event -> Result Value JmcpError -> Prop :=
  | applied_refused evs e :
      Forall (fun ev => exists a, ev = read_cs args a) evs -> Applied args inv policy att evs (Err e)
  | applied_not_staged entry cs req att' secs e :
      Prepared args inv policy att entry cs req att' secs ->
      Applied args inv policy att [read_cs args (Answered cs); EvApply req att' Refused]
        (Err (Validation e))
  | applied_failed entry cs req att' secs op steps reason outcome about cl st :
      Prepared args inv policy att entry cs req att' secs ->
      or_device op = aa_device args -> or_principal op = principal att ->
      Steps args op secs steps (Err (reason, outcome)) ->
      about = {| ab_change_set_id := aa_change_set_id args; ab_device := aa_device args;
                 ab_principal := principal att; ab_operation_id := or_operation_id op;
                 ab_pre_stage_fingerprint := aa_expected_fingerprint args;
                 ab_reason := reason; ab_outcome := outcome |} ->
      Cleaned about cl -> Settled (aa_change_set_id args) (aa_device args) st ->
      Applied args inv policy att
        ([read_cs args (Answered cs); EvApply req att' (Answered tt)] ++ steps ++ cl ++ st)
        (Err (Validation reason))
  | applied_done entry cs req att' secs op steps v :
      Prepared args inv policy att entry cs req att' secs ->
      or_device op = aa_device args -> or_principal op = principal att ->
      Steps args op secs steps (Ok v) ->
      Applied args inv policy att
        ([read_cs args (Answered cs); EvApply req att' (Answered tt)] ++ steps)
        (Ok (with_warning (authority_warning entry) v)).

(** C4: applying a change set, against any coordinator and any device.  Nothing is
    staged unless the device is known, the confirm window is valid, and every
    stored action could be read, is allowed by the device's policy and has a
    format and mode that go together.  What is staged is diffed, then
    validated, then committed, and only a valid candidate is committed, with
    the window the caller or the server asked for; each step is taken at most
    once and stops the run when it fails.  The answer is a success only if the
    commit was acknowledged (or detached, or awaits confirmation); after any
    failure past staging the clean-up has run and the change set was marked
    failed, and the outcome is taken as unknown exactly when the commit
    returned an error or an indeterminate outcome. *)
Theorem apply_change_set_protocol args inv policy att l (s : S) :
  exists r evs s',
    apply_change_set cleanup_timeout default_mins load_action_str with_change_set
      args inv policy att (l, s) = (r, (l ++ evs, s')) /\
    Applied args inv policy att evs r.
Proof.
  unfold apply_change_set.
  destruct (prepare_apply_log args inv policy att l s) as (r & evs & s1 & -> & Hr).
  destruct r as [[[[entry req] att'] secs]|e].
  2:{ eexists _, _, _. split; [done|]. by apply applied_refused. }
  destruct Hr as (cs & -> & Hp).
  cbn [co_apply_change_set logged_coordinator].
  destruct (co_apply_change_set req att' s1) as [[staged|e] s2]; cbn [map_result ans];
    rewrite <- app_assoc; cbn [app].
  2:{ eexists _, _, _. split; [done|]. by eapply applied_not_staged. }
  pose proof (run_operation_log args (principal att) att' secs staged
    (l ++ [read_cs args (Answered cs); EvApply req att' (Answered tt)]) s2) as Hrun.
  cbv zeta in Hrun. destruct Hrun as (r & steps & s3 & -> & Hsteps).
  destruct r as [v|[reason outcome]]; cbn beta iota.
  - eexists _, _, _. rewrite <- app_assoc. split; [done|].
    eapply applied_done; [done| | |exact Hsteps]; done.
  - edestruct abandon_log as (cl & st & s4 & He & Hc & Hst). rewrite He.
    eexists _, _, _. rewrite <- !app_assoc. split; [done|].
    eapply applied_failed; [done| | |exact Hsteps|reflexivity|exact Hc|exact Hst]; done.
Qed.

(** ** Creating a change set *)

(** An action whose shape, format and mode are accepted. *)
Definition shape_ok (a : JunosAction) : Prop :=
  (is_Some (act_payload a) <-> act_rollback_source a = None) /\
  forall p, act_payload a = Some p ->
    is_ok (build_config_payload "" (Some (default "set" (spec_format p)))) = true /\
    is_ok (load_mode_of p) = true.
Definition asks_override (a : JunosAction) : bool :=
  match act_payload a with
  | Some p => bool_decide (spec_mode p = Some "override")
  | None => false
  end.

Lemma parse_load_mode_override m la :
  parse_load_mode m = Ok la -> (la = LoadOverride <-> m = Some "override").
Proof.
  unfold parse_load_mode. destruct m as [m|]; cbn; [|by intros [= <-]].
  destruct (String.eqb_spec m "merge") as [->|]; [by intros [= <-]|].
  destruct (String.eqb_spec m "replace") as [->|]; [by intros [= <-]|].
  destruct (String.eqb_spec m "override") as [->|]; [by intros [= <-]|done].
Qed.

Lemma validate_shape_ok a i :
  is_ok (validate_shape a i) = true <-> (is_Some (act_payload a) <-> act_rollback_source a = None).
Proof.
  unfold validate_shape. destruct (act_payload a), (act_rollback_source a); cbn; split; try done.
  - intros [H1 _]. discriminate (H1 (mk_is_Some _ _ eq_refl)).
  - intros [_ H1]. by destruct (H1 eq_refl).
Qed.

Lemma check_shapes_spec i actions b :
  match check_shapes i actions b with
  | Ok b' => Forall shape_ok actions /\ b' = b || existsb asks_override actions
  | Err _ => ~ Forall shape_ok actions
  end.
Proof.
  revert i b; induction actions as [|a rest IH]; intros i b; cbn [check_shapes existsb].
  { split; [constructor|]. by rewrite orb_false_r. }
  pose proof (validate_shape_ok a i) as Hv. unfold asks_override at 1.
  destruct (validate_shape a i) as [u|m]; cbn [map_err] in *.
  2:{ intros Hf. inversion Hf as [|?? [Hs _]]; subst. by apply Hv in Hs. }
  assert (Hs := proj1 Hv eq_refl).
  assert (Hcons : forall b', (forall p, act_payload a = Some p ->
      is_ok (build_config_payload "" (Some (default "set" (spec_format p)))) = true /\
      is_ok (load_mode_of p) = true) ->
    match check_shapes (i + 1) rest b' with
    | Ok b2 => Forall shape_ok (a :: rest) /\ b2 = b' || existsb asks_override rest
    | Err _ => ~ Forall shape_ok (a :: rest)
    end).
  { intros b' Hp. specialize (IH (i + 1)%N b'). destruct (check_shapes _ _ _).
    - destruct IH as [Hf ->]. split; [|done]. constructor; [by split|done].
    - intros Hf. inversion Hf; subst. by apply IH. }
  assert (Hbad : forall p, act_payload a = Some p ->
    (is_ok (build_config_payload "" (Some (default "set" (spec_format p)))) = false \/
     is_ok (load_mode_of p) = false) -> ~ Forall shape_ok (a :: rest)).
  { intros p Hp Hor Hf. inversion Hf as [|?? [_ Ha]]; subst.
    destruct (Ha p Hp) as [H1 H2]. destruct Hor; congruence. }
  destruct (act_payload a) as [p|] eqn:Hp.
  2:{ cbn [orb]. by apply Hcons. }
  destruct (build_config_payload _ _) eqn:Hb; [|eapply (Hbad p); [done|left; by rewrite Hb]].
  pose proof (parse_load_mode_override (spec_mode p)) as Ho. unfold load_mode_of in Hcons, Hbad.
  destruct (parse_load_mode (spec_mode p)) as [la|] eqn:Hm; cbn beta iota in *.
  2:{ eapply (Hbad p); [done|]. right. by rewrite Hm. }
  destruct (resolve_load_action _ la) eqn:Hr.
  2:{ eapply (Hbad p); [done|]. right. by rewrite Hm, Hr. }
  specialize (Ho la eq_refl).
  pose proof (Hcons (if decide (la = LoadOverride) then true else b)) as Hc.
  replace (b || (bool_decide (spec_mode p = Some "override") || existsb asks_override rest))
    with ((if decide (la = LoadOverride) then true else b) || existsb asks_override rest).
  - apply Hc. intros p' [= <-]. by rewrite Hb, Hm, Hr.
  - destruct (decide (la = LoadOverride)) as [Hl|Hl].
    + rewrite bool_decide_eq_true_2 by (by apply Ho). by rewrite orb_true_r.
    + rewrite bool_decide_eq_false_2; [done|]. intros H0. by apply Hl, Ho.
Qed.

Definition policy_allows (policy : Policy) (tool device : string) (a : JunosAction) : Prop :=
  forall p, act_payload a = Some p -> check_payload policy tool device p = Ok tt.

Lemma check_policy_ok policy tool device actions :
  is_ok (check_policy policy tool device actions) = true <->
  Forall (policy_allows policy tool device) actions.
Proof.
  induction actions as [|a rest IH]; cbn; [by split|].
  rewrite list.Forall_cons, <- IH. unfold policy_allows at 1.
  destruct (act_payload a) as [p|].
  - destruct (check_payload policy tool device p) as [[]|e] eqn:Hc.
    + split; [|by intros [_ ?]]. intros Hr. split; [|done]. by intros p' [= <-].
    + split; [done|]. intros [Hp _]. specialize (Hp p eq_refl). congruence.
  - split; [|by intros [_ ?]]. by split.
Qed.

(** A plan that may be stored. *)
Record PlanAdmitted (args : CreateChangeSetArgs) (inv : Inventory) (policy : Policy) : Prop := {
  plan_device : is_Some (devices inv !! cr_device args);
  plan_shapes : Forall shape_ok (cr_actions args);
  plan_policy : Forall (policy_allows policy CREATE (cr_device args)) (cr_actions args);
  plan_override : lab_mode (S := S) (H := H) = true ->
                  existsb asks_override (cr_actions args) = false
}.

Lemma admit_plan_ok args inv policy :
  is_ok (admit_plan (S := S) (H := H) args inv policy) = true <-> PlanAdmitted args inv policy.
Proof.
  unfold admit_plan, get. destruct (devices inv !! cr_device args) as [entry|] eqn:Hd; cbn.
  2:{ split; [done|]. intros [[? Hs] _ _ _]. by rewrite Hd in Hs. }
  pose proof (check_shapes_spec 0 (cr_actions args) false) as Hs.
  destruct (check_shapes _ _ _) as [b|e].
  2:{ split; [done|]. by intros [_ Hsh _ _]. }
  destruct Hs as [Hs ->]. cbn [orb].
  destruct (existsb asks_override _ && lab_mode) eqn:Ho.
  - split; [done|]. intros [_ _ _ Hov]. apply andb_true_iff in Ho as [Ho Hl].
    rewrite (Hov Hl) in Ho. done.
  - rewrite check_policy_ok. split.
    + intros Hp. split; [by rewrite Hd|done|done|]. intros Hl. by rewrite Hl, andb_true_r in Ho.
    + by intros [_ _ Hp _].
Qed.

(** Creating a change set.  The plan is stored, for the caller as its owner,
    exactly when the device is known, every action is either a payload whose
    format and mode go together or a rollback, the device's policy allows every
    payload, and no action asks for [override] on a server that waives
    approval; otherwise it is refused and the coordinator is not called at
    all.  Approval is waived only in lab mode, and only for the plan just
    stored. *)
Theorem create_change_set_admission args inv policy att l (s : S) :
  exists r evs s',
    create_change_set args inv policy att (l, s) = (r, (l ++ evs, s')) /\
    (PlanAdmitted args inv policy ->
       exists waiver, evs = EvCreate (cr_device args) (principal att) (cr_actions args) :: waiver /\
         (waiver = [] \/ lab_mode (S := S) (H := H) = true /\
                         waiver = [EvWaive (cr_device args) (principal att)])) /\
    (~ PlanAdmitted args inv policy -> evs = [] /\ is_ok r = false) /\
    (is_ok r = true -> lab_mode (S := S) (H := H) = true ->
       In (EvWaive (cr_device args) (principal att)) evs).
Proof.
  pose proof (admit_plan_ok args inv policy) as Ha. unfold create_change_set.
  change (admit_plan (S := (list Event * S)%type) (H := H) args inv policy)
    with (admit_plan (S := S) (H := H) args inv policy).
  destruct (admit_plan args inv policy) as [u|e].
  2:{ exists (Err e), [], s. rewrite app_nil_r. split_and!; [done| |done|done].
      intros Hp. by apply Ha in Hp. }
  assert (Hp := proj1 Ha eq_refl).
  cbn [co_create_change_set co_waive_approval lab_mode logged_coordinator]. unfold log_co.
  destruct (co_create_change_set _ _ _ _ _ s) as [[plan|e] s1].
  2:{ eexists _, _, _. split_and!; [done| |done|done]. intros _. eexists. split; [done|]. by left. }
  destruct (lab_mode (S := S) (H := H)) eqn:Hl.
  2:{ eexists _, _, _. split_and!; [done| |done|done]. intros _. eexists. split; [done|]. by left. }
  destruct (co_waive_approval _ _ _ _ s1) as [[w|e] s2]; cbn [ans]; rewrite <- app_assoc; cbn [app].
  - eexists _, _, _. split_and!; [done| |done|].
    + intros _. eexists. split; [done|]. by right.
    + intros _ _. right. by left.
  - eexists _, _, _. split_and!; [done| |done|done].
    intros _. eexists. split; [done|]. by right.
Qed.

(** ** Confirming a commit *)

(** The calls of one confirmation, and its result. *)
Inductive ConfirmTrace (args : ConfirmChangeSetArgs) (inv : Inventory) (who : string) (now : N)
  : list Event -> Result Value JmcpError -> Prop :=
  | confirm_unknown_device e : devices inv !! cf_device args = None -> ConfirmTrace args inv who now [] (Err e)
  | confirm_no_record e : ConfirmTrace args inv who now [EvRecord (cf_operation_id args) who (cf_device args) Refused] (Err (Validation e))
  | confirm_no_window r e :
      (forall d, op_rollback_deadline_unix r = Some d -> (d <= now)%N) ->
      ConfirmTrace args inv who now [EvRecord (cf_operation_id args) who (cf_device args) (Answered r)] (Err (Validation e))
  | confirm_failed r d e :
      op_rollback_deadline_unix r = Some d -> (now < d)%N ->
      ConfirmTrace args inv who now [EvRecord (cf_operation_id args) who (cf_device args) (Answered r); EvConfirm Refused] (Err e)
  | confirm_not_acknowledged r d o v :
      op_rollback_deadline_unix r = Some d -> (now < d)%N ->
      (forall j det, o <> Reconciled true j det) ->
      v !! "state" = Some (JString "Committing") -> v !! "rollback_deadline_unix" = Some (JNumber d) ->
      ConfirmTrace args inv who now [EvRecord (cf_operation_id args) who (cf_device args) (Answered r); EvConfirm (Answered o)] (Ok v)
  | confirm_not_stored r d j det e :
      op_rollback_deadline_unix r = Some d -> (now < d)%N ->
      ConfirmTrace args inv who now
        [EvRecord (cf_operation_id args) who (cf_device args) (Answered r); EvConfirm (Answered (Reconciled true j det));
         EvUpdate (confirmed_record r det) Refused] (Err (Validation e))
  | confirm_done r d j det v :
      op_rollback_deadline_unix r = Some d -> (now < d)%N ->
      v !! "state" = Some (JString "Committed") ->
      ConfirmTrace args inv who now
        [EvRecord (cf_operation_id args) who (cf_device args) (Answered r); EvConfirm (Answered (Reconciled true j det));
         EvUpdate (confirmed_record r det) (Answered tt)] (Ok v).

Context (outcome_debug : CommitOutcome -> string).

(** Confirming a provisional commit, against any coordinator and any device.
    The confirming commit is sent only for a known device, an operation of the
    caller that carries a rollback deadline, and while that deadline lies in
    the future: never into a window that has closed.  The record becomes
    [Committed], without its deadline, only after the device acknowledged the
    confirmation, and the caller is told so only if that was stored; any other
    outcome is reported with the deadline still running and changes nothing. *)
Theorem confirm_change_set_spec args inv att now l (s : S) :
  exists r evs s',
    confirm_change_set outcome_debug args inv att now (l, s) = (r, (l ++ evs, s')) /\
    ConfirmTrace args inv (principal att) now evs r.
Proof.
  unfold confirm_change_set, get.
  destruct (devices inv !! cf_device args) as [entry|] eqn:Hd; cbn [ok_or].
  2:{ eexists _, [], _. rewrite app_nil_r. split; [done|]. by apply confirm_unknown_device. }
  cbn [co_record tx_confirm_commit co_update logged_coordinator logged_transaction].
  unfold log_co, log_run.
  destruct (co_record _ _ _ s) as [[r|e] s1]; cbn [ans].
  2:{ eexists _, _, _. split; [done|]. apply confirm_no_record. }
  destruct (op_rollback_deadline_unix r) as [d|] eqn:Hr.
  2:{ eexists _, _, _. split; [done|]. apply confirm_no_window. intros d Hd'. by rewrite Hr in Hd'. }
  destruct (N.leb_spec d now) as [Hle|Hlt].
  { eexists _, _, _. split; [done|]. apply confirm_no_window. intros d' Hd'.
    rewrite Hr in Hd'. by injection Hd' as <-. }
  destruct (tx_confirm_commit _ att s1) as [[o|e] s2]; cbn [ans]; rewrite <- app_assoc; cbn [app].
  2:{ eexists _, _, _. split; [done|]. by eapply confirm_failed. }
  assert (Hother : (forall j det, o <> Reconciled true j det) -> forall v : Value,
    v !! "state" = Some (JString "Committing") -> v !! "rollback_deadline_unix" = Some (JNumber d) ->
    exists r' evs s', (Ok v, (l ++ [EvRecord (cf_operation_id args) (principal att) (cf_device args) (Answered r); EvConfirm (Answered o)], s2)) =
      (r', (l ++ evs, s')) /\ ConfirmTrace args inv (principal att) now evs r').
  { intros Ho v H1 H2. eexists _, _, _. split; [done|]. by eapply confirm_not_acknowledged. }
  destruct o as [[] j det| | |]; try (apply Hother; done).
  destruct (co_update _ s2) as [[[]|e] s3]; cbn [ans]; rewrite <- app_assoc; cbn [app].
  - eexists _, _, _. split; [done|]. by eapply confirm_done.
  - eexists _, _, _. split; [done|]. by eapply confirm_not_stored.
Qed.

(** A status says of the commit what the coordinator's records say, whatever the
    status itself holds under those names. *)
Lemma status_says_verdict {Status StatusError} (state_json : LifecycleState -> Json)
    (status_error : StatusError -> string) (co_status : string -> string -> S -> Result Status StatusError * S)
    to_value change_set_id device now s v s' :
  get_change_set_status state_json status_error co_status to_value change_set_id device now s = (Ok v, s') ->
  exists status s1 fields,
    co_status change_set_id device s = (Ok status, s1) /\
    derive_commit_confirmation state_json change_set_id device now s1 = (fields, s') /\ fields ⊆ v.
Proof.
  unfold get_change_set_status. destruct (co_status _ _ s) as [[status|e] s1]; [|done].
  destruct (derive_commit_confirmation _ _ _ now s1) as [fields s2] eqn:Ed.
  destruct (to_value status) as [[m|]|e]; intros [= <- <-].
  exists status, s1, fields. split_and!; [done|done|]. apply map_union_subseteq_l.
Qed.

End tools.

(** A device whose authority nobody declared: writes to it are not warned about by
    the shared check, and are by [apply]. *)
Lemma undeclared_authority_warned {X : External} tool device allow entry :
  config_authority entry = AuthUnknown ->
  check_plane_owned_operation tool device (config_authority entry) allow = Ok None /\
  is_Some (authority_warning entry).
Proof. unfold authority_warning. intros ->. split; [done|]. by eexists. Qed.

(** ** Applies on the lab *)

Module DemoApply.
Import Demo DemoPool DemoChange.

(** One transaction with the two records about it; whether the device accepts
    the candidate. *)
Record Store := mk_store {
  st_tx : JunosTx (D := nat) (Net := Lab);
  st_op : OperationRecord;
  st_cs : ChangeSetRecord;
  st_accepts : bool
}.
Definition set_tx t s := mk_store t (st_op s) (st_cs s) (st_accepts s).
Definition set_op o s := mk_store (st_tx s) o (st_cs s) (st_accepts s).
Definition set_cs c s := mk_store (st_tx s) (st_op s) c (st_accepts s).

#[export] Instance lab_tx : DeviceTransaction Store unit JmcpError :=
  junos_transaction (ConfigOps0 := lab_config) (fun _ => "00") (from_secs 30) "r1"
    (fun _ w => w) st_tx set_tx.

Definition plan0 (s : Store) : PlanOutput := {|
  po_change_set_id := cs_id (st_cs s); po_digest := "d"; po_state := "Planned";
  po_approver := None; po_approval_waiver := None |}.

(** A coordinator of one operation that runs [JunosTransaction]'s calls. *)
#[export] Instance lab_coordinator : ChangesetCoordinator Store unit := {|
  lab_mode := false;
  co_record _ _ _ s := (Ok (st_op s), s);
  co_update r s := (Ok tt, set_op r s);
  co_change_set _ _ s := (Ok (st_cs s), s);
  co_change_sets s := ([st_cs s], s);
  co_update_change_set c s := (Ok tt, set_cs c s);
  co_create_change_set _ _ _ _ _ s := (Ok (plan0 s), s);
  co_waive_approval _ _ _ _ s := (Ok (plan0 s), s);
  co_approve_change_set _ _ _ _ _ s := (Ok (plan0 s), s);
  co_cancel_change_set _ _ _ s := (Ok (plan0 s), s);
  co_apply_change_set _ _ s :=
    let actions := omap result_ok (cs_actions (st_cs s)) in
    let '(r, held, w) := stage (from_secs 30) "r1" (tx_held (st_tx s)) actions (tx_world (st_tx s)) in
    match r with
    | Ok staged =>
        (Ok {| ao_operation_id := op_id (st_op s); ao_after_fingerprint := "staged"; ao_staged := tt |},
         set_tx (mk_tx held staged w) s)
    | Err e => (Err (to_string e), set_tx (mk_tx held (tx_staged (st_tx s)) w) s)
    end;
  co_diff_operation _ _ s := (Ok (st_diff (tx_staged (st_tx s))), s);
  co_validate_operation _ _ s :=
    (Ok {| valid := st_accepts s; details := Some "check" |}, s);
  co_commit_operation _ _ _ att t s :=
    let s := set_op (mk_op (op_id (st_op s)) (op_owner (st_op s)) (op_device (st_op s)) StCommitting
      (op_attribution (st_op s)) (op_rollback_deadline_unix (st_op s)) true None "staged") s in
    let '(r, staged, w) :=
      JunosTransaction.commit (from_secs 30) 0 (tx_staged (st_tx s)) att t (tx_world (st_tx s)) in
    (map_err to_string r, set_tx (mk_tx (tx_held (st_tx s)) staged w) s)
|}.

Definition store0 (commits accepts : bool) (text : string) : Store :=
  mk_store (mk_tx None {| st_diff := ""; st_session := None |} (lab_world false 0 (fresh 1 commits)))
    (mk_op "op" "bot" "r1" (StOther "Validated") None None true None "staged")
    (mk_cs "cs" "r1" "bot" (CsOther "Applied") (Some (mk_approval (Some "ann"))) (Some "op")
       [Ok (load_text text)]) accepts.
Definition args0 : ApplyChangeSetArgs := {|
  aa_change_set_id := "cs"; aa_expected_digest := "d"; aa_expected_fingerprint := "sha256:00";
  aa_device := "r1"; aa_confirm_timeout_mins := Some 0%N |}.
Definition mode_str (a : LoadAction) : string :=
  match a with LoadMerge => "merge" | LoadReplace => "replace" | LoadOverride => "override"
             | LoadSet => "set" end.
Definition named (a : Attribution) (id : string) (appr : option string) : Attribution := {|
  change_ref := change_ref a; principal := principal a; on_behalf_of := on_behalf_of a;
  actor_type := actor_type a; agent := agent a; request_id := request_id a;
  approver := appr; change_set_id := Some id |}.
Definition no_rules : @LibPolicy _ DemoEngine.engine := (Blocklist, [], [], [], []).
Definition no_policy : @Policy.Policy _ DemoEngine.engine := {|
  per_device := ∅; default_policy := no_rules; command_mode := Blocklist;
  default_commands_count := 0; default_config_count := 0; default_pfe_commands_count := 0;
  devices_with_rules := 0 |}.
Definition apply0 (s : Store) :=
  apply_change_set (F := DemoEngine.engine_fns) (from_secs 30) 10 mode_str named args0 lab_inventory
    no_policy who s.
Definition summary (r : Result Value JmcpError * Store) :=
  (map_result (fun v => v !! "state") r.1, op_state (st_op r.2), cs_state (st_cs r.2),
   j_running (lab_junos (net (w_backend (tx_world (st_tx r.2)))))).

(** A good apply; one the device does not accept; one whose commit reply is
    lost; and one the policy denies. *)
Example apply_runs :
  (summary (apply0 (store0 true true "set a")), summary (apply0 (store0 true false "set a"))) =
  ((Ok (Some (JString "Applied")), StCommitting, CsOther "Applied", "set a"),
   (Err (Validation "configuration validation failed: check"), StDiscarded, CsFailed, "old")).
Proof. vm_compute. reflexivity. Qed.
Example apply_refused :
  (summary (apply0 (store0 false true "set a")), summary (apply0 (store0 true true "set secret"))) =
  ((Err (Validation "commit outcome indeterminate, manual reconciliation required: commit RPC timed out or transport dropped: connection lost"),
    StIndeterminate, CsFailed, "old"),
   (Err (Denied APPLY "r1" "secret" "defaults" "set secret" (Some 1%N)), StOther "Validated",
    CsOther "Applied", "old")).
Proof. vm_compute. reflexivity. Qed.

End DemoApply.
