(* ===== verification/JsonValue.v ===== *)
(** * JSON values ([serde_json::Value])

    The values the tools build, read and compare.  The workspace turns on
    [preserve_order], so an object keeps the order in which its keys were first
    inserted; inserting an existing key replaces its value in place.  Numbers
    are the integers the code writes; [Float] keeps a number it only passes
    through. *)

From S2P Require Import Prelude RustStr Fmt Errors.
#[local] Set Warnings "-register-all".

Inductive Value :=
  | Null
  | Bool (b : bool)
  | Number (n : Z)
  | Float (repr : string)
  | Str (s : string)
  | Array (l : list Value)
  | Object (fields : list (string * Value)).

(** The members of an object, as a map: [get], [contains_key], [insert]. *)
Fixpoint obj_get {A} (key : string) (fields : list (string * A)) : option A :=
  match fields with
  | [] => None
  | (k, v) :: rest => if String.eqb k key then Some v else obj_get key rest
  end.

Fixpoint obj_insert {A} (key : string) (v : A) (fields : list (string * A))
  : list (string * A) :=
  match fields with
  | [] => [(key, v)]
  | (k, v') :: rest =>
      if String.eqb k key then (k, v) :: rest else (k, v') :: obj_insert key v rest
  end.

(** [Map::remove] of a map that keeps insertion order: the last member takes
    the place of the one removed. *)
Fixpoint replace_member {A} (key : string) (kv : string * A) (l : list (string * A))
  : list (string * A) :=
  match l with
  | [] => []
  | (k, v) :: l => if String.eqb k key then kv :: l else (k, v) :: replace_member key kv l
  end.
Definition obj_remove {A} (key : string) (l : list (string * A)) : list (string * A) :=
  match list.last l with
  | Some kv => if String.eqb kv.1 key then removelast l
               else match obj_get key l with
                    | Some _ => replace_member key kv (removelast l)
                    | None => l
                    end
  | None => l
  end.

Definition is_object (v : Value) : bool :=
  match v with Object _ => true | _ => false end.

(** [Value::get(key)] on an object; [None] on anything else. *)
Definition value_get (key : string) (v : Value) : option Value :=
  match v with Object fields => obj_get key fields | _ => None end.

(** [#[serde(skip_serializing_if = "Option::is_none")]]: the field is left out. *)
Definition opt_field (key : string) (o : option Value) : list (string * Value) :=
  match o with Some v => [(key, v)] | None => [] end.

(** The JSON text format ([serde_json]'s parser and pretty-printer). *)
Class JsonText {X : External} := {
  json_from_str : string -> Result Value JsonError;
  json_pretty : Value -> Result string JsonError
}.

Section induction.
Context (P : Value -> Prop).
Context (HNull : P Null) (HBool : forall b, P (Bool b)) (HNum : forall n, P (Number n))
  (HFloat : forall r, P (Float r)) (HStr : forall s, P (Str s))
  (HArr : forall l, Forall P l -> P (Array l))
  (HObj : forall fs, Forall (fun kv => P kv.2) fs -> P (Object fs)).

Fixpoint Value_ind' (v : Value) : P v :=
  match v with
  | Null => HNull
  | Bool b => HBool b
  | Number n => HNum n
  | Float r => HFloat r
  | Str s => HStr s
  | Array l =>
      HArr l ((fix go l := match l return Forall P l with
                           | [] => List.Forall_nil _
                           | v :: l' => @List.Forall_cons _ _ v l' (Value_ind' v) (go l')
                           end) l)
  | Object fs =>
      HObj fs ((fix go fs := match fs return Forall (fun kv => P kv.2) fs with
                             | [] => List.Forall_nil _
                             | kv :: fs' => @List.Forall_cons _ _ kv fs' (Value_ind' kv.2) (go fs')
                             end) fs)
  end.
End induction.

(** Equality of lists through an equality on their elements. *)
Fixpoint list_eqb {A} (eqb : A -> A -> bool) (l l' : list A) : bool :=
  match l, l' with
  | [], [] => true
  | x :: l, x' :: l' => eqb x x' && list_eqb eqb l l'
  | _, _ => false
  end.

Lemma list_eqb_spec {A} (eqb : A -> A -> bool) l :
  Forall (fun x => forall y, eqb x y = true <-> x = y) l ->
  forall l', list_eqb eqb l l' = true <-> l = l'.
Proof.
  induction 1 as [|x l Hx _ IH]; intros [|y l']; simpl; try (split; congruence).
  rewrite andb_true_iff, Hx, IH. split; [intros []|]; intuition congruence.
Qed.

Fixpoint value_eqb (a b : Value) {struct a} : bool :=
  match a, b with
  | Null, Null => true
  | Bool x, Bool y => Bool.eqb x y
  | Number x, Number y => (x =? y)%Z
  | Float x, Float y => String.eqb x y
  | Str x, Str y => String.eqb x y
  | Array l, Array l' => list_eqb value_eqb l l'
  | Object fs, Object fs' =>
      list_eqb (fun kv kv' => String.eqb kv.1 kv'.1 && value_eqb kv.2 kv'.2) fs fs'
  | _, _ => false
  end.

Lemma value_eqb_spec a b : value_eqb a b = true <-> a = b.
Proof.
  revert b; induction a as [| | | | |l IH|fs IH] using Value_ind'; intros b'; destruct b';
    cbn [value_eqb]; try (split; congruence).
  - rewrite Bool.eqb_true_iff. split; congruence.
  - rewrite Z.eqb_eq. split; congruence.
  - rewrite String.eqb_eq. split; congruence.
  - rewrite String.eqb_eq. split; congruence.
  - rewrite (list_eqb_spec _ _ IH). split; congruence.
  - rewrite list_eqb_spec; [split; congruence|].
    eapply list.Forall_impl; [exact IH|]. intros [k v] Hv [k' v']; cbn in *.
    rewrite andb_true_iff, String.eqb_eq, Hv. split; [intros []|]; intuition congruence.
Qed.

#[export] Instance Value_eq_dec : EqDecision Value.
Proof.
  intros a b. destruct (value_eqb a b) eqn:E.
  - left. by apply value_eqb_spec.
  - right. intros H%value_eqb_spec. congruence.
Defined.

(** ** Members *)

Lemma obj_get_insert {A} k (v : A) fs k' :
  obj_get k' (obj_insert k v fs) = if String.eqb k k' then Some v else obj_get k' fs.
Proof.
  induction fs as [|[j w] fs IH]; simpl; [done|].
  destruct (String.eqb_spec j k) as [->|Hj]; simpl.
  - by destruct (String.eqb_spec k k').
  - rewrite IH. destruct (String.eqb_spec j k') as [->|]; [|done].
    destruct (String.eqb_spec k k'); congruence.
Qed.

Lemma obj_insert_new {A} k (v : A) fs :
  obj_get k fs = None -> obj_insert k v fs = fs ++ [(k, v)].
Proof.
  induction fs as [|[j w] fs IH]; simpl; [done|].
  destruct (String.eqb j k); [discriminate|]. intros H. by rewrite IH.
Qed.

Lemma obj_get_app {A} k (fs fs' : list (string * A)) :
  obj_get k (fs ++ fs') = match obj_get k fs with Some v => Some v | None => obj_get k fs' end.
Proof. induction fs as [|[j w] fs IH]; simpl; [done|]. by destruct (String.eqb j k). Qed.

Lemma obj_get_app_r {A} k (f f' : list (string * A)) :
  k ∉ map fst f -> obj_get k (f ++ f') = obj_get k f'.
Proof.
  induction f as [|[k' v] f IH]; cbn; [done|]. intros H.
  destruct (String.eqb_spec k' k) as [->|]; [by destruct H; constructor|].
  apply IH. intros Hk. apply H. by constructor.
Qed.

Lemma obj_get_none {A} k (f : list (string * A)) : obj_get k f = None <-> k ∉ map fst f.
Proof.
  induction f as [|[k' v] f IH]; cbn.
  - split; [intros _; apply not_elem_of_nil|done].
  - rewrite not_elem_of_cons. destruct (String.eqb_spec k' k) as [->|]; naive_solver.
Qed.

Lemma obj_get_elem {A} k (fs : list (string * A)) : k ∈ map fst fs -> exists v, obj_get k fs = Some v.
Proof. destruct (obj_get k fs) eqn:E; [eauto|]. by apply obj_get_none in E. Qed.

Lemma map_fst_insert {A} k (v : A) fs k' :
  k' ∈ map fst (obj_insert k v fs) <-> k' = k \/ k' ∈ map fst fs.
Proof.
  induction fs as [|[k1 v1] fs IH]; cbn; [rewrite list_elem_of_singleton; set_solver|].
  destruct (String.eqb_spec k1 k) as [->|]; cbn; rewrite !elem_of_cons; [tauto|]. rewrite IH. tauto.
Qed.

Lemma NoDup_insert {A} k (v : A) fs : NoDup (map fst fs) -> NoDup (map fst (obj_insert k v fs)).
Proof.
  induction fs as [|[k1 v1] fs IH]; cbn; [intros; apply NoDup_singleton|].
  intros [H1 H2]%list.NoDup_cons.
  destruct (String.eqb_spec k1 k) as [->|]; cbn; apply list.NoDup_cons; [done|].
  split; [|by apply IH]. rewrite map_fst_insert. intros [|]; congruence.
Qed.

Lemma obj_get_replace {A} key (kv : string * A) l k :
  key ∈ map fst l -> NoDup (map fst l) -> kv.1 ∉ map fst l ->
  obj_get k (replace_member key kv l) =
  if String.eqb kv.1 k then Some kv.2 else if String.eqb key k then None else obj_get k l.
Proof.
  destruct kv as [k0 v0]. cbn. induction l as [|[k1 v1] l IH]; cbn; [by intros ?%not_elem_of_nil|].
  rewrite not_elem_of_cons. intros Hk [H1 H2]%list.NoDup_cons [H3 H4].
  destruct (String.eqb_spec k1 key) as [->|Hne]; cbn.
  - destruct (String.eqb_spec k0 k); [done|]. destruct (String.eqb_spec key k) as [->|]; [|done].
    by apply obj_get_none.
  - rewrite IH; [|by apply elem_of_cons in Hk as [|]; [congruence|]|done..].
    destruct (String.eqb_spec k1 k) as [->|], (String.eqb_spec k0 k); try congruence.
    destruct (String.eqb_spec key k); congruence.
Qed.

(** Removing a member removes it and nothing else, when the keys are distinct. *)
Lemma obj_get_remove {A} key (fs : list (string * A)) k :
  NoDup (map fst fs) ->
  obj_get k (obj_remove key fs) = if String.eqb key k then None else obj_get k fs.
Proof.
  destruct fs as [|[k0 v0] l _] using rev_ind; [by intros; cbn; case_match|].
  rewrite map_app. intros (H1 & H2 & _)%list.NoDup_app.
  assert (k0 ∉ map fst l) as Hn by (intros H; apply (H2 _ H); by left).
  unfold obj_remove. rewrite last_snoc, removelast_last. cbn [fst]. rewrite obj_get_app. cbn.
  destruct (String.eqb_spec k0 key) as [->|Hne].
  - destruct (String.eqb_spec key k) as [->|]; [by apply obj_get_none|].
    rewrite obj_get_app. cbn. destruct (obj_get k l); [done|]. by destruct (String.eqb_spec key k).
  - destruct (obj_get key l) as [v|] eqn:E.
    + assert (key ∈ map fst l) as Hk.
      { destruct (decide (key ∈ map fst l)) as [|Hd]; [done|]. apply obj_get_none in Hd. congruence. }
      rewrite obj_get_replace by done. cbn.
      destruct (String.eqb_spec k0 k) as [->|].
      * destruct (String.eqb_spec key k); [congruence|].
        rewrite obj_get_app, (proj2 (obj_get_none _ _) Hn). cbn. by rewrite String.eqb_refl.
      * destruct (String.eqb_spec key k); [done|]. rewrite obj_get_app. cbn.
        destruct (obj_get k l); [done|]. by destruct (String.eqb_spec k0 k).
    + rewrite obj_get_app. cbn. destruct (String.eqb_spec key k) as [->|]; [|done].
      rewrite E. by destruct (String.eqb_spec k0 k).
Qed.

Lemma obj_remove_gone {A} k (f : list (string * A)) :
  NoDup (map fst f) -> obj_get k (obj_remove k f) = None.
Proof. intros Hnd. rewrite obj_get_remove by done. by rewrite String.eqb_refl. Qed.
