(* ===== verification/SrxErrors.v ===== *)
(** * Errors of the SRX workflows ([rust-junosmcp-srx-core/src/error.rs])

    [SrxError] with its messages and audit classes, and the state of a feature
    and the response envelope ([absence.rs]).  Callers match on the
    [[code=..]] token of a message, which [error_code] reads back the way the
    audit log does. *)

From S2P Require Import Prelude RustStr Fmt Errors JsonValue.
From Stdlib Require Import Ascii.

Section srx_error.
Context {X : External}.

(** The five general variants carry the prefix [Srx]: their own names are those
    of other types here. *)
Inductive SrxError :=
  | SrxTransport (e : JmcpError)
  | SrxRpc (tag severity message : string)
  | SrxParse (msg : string)
  | SrxSchemaMismatch (rpc element : string)
  | SrxInvalidInput (msg : string)
  | SignaturePackageConfirmationRequired (router : string) (plan : Value)
  | SignaturePackageConfirmationTokenRequired (router : string)
  | SignaturePackageConfirmationTokenInvalid (router reason : string)
  | SignaturePackageConfirmationPlanDrift (router : string)
  | SignaturePackageConfirmationCapacityExceeded (router : string)
  | SignaturePackageLicenseInactive (router feature : string)
  | SignaturePackageServerUnreachable (router detail : string)
  | SignaturePackageNoRollbackTarget (router : string)
  | SignaturePackageNoUninstallTarget (router : string)
  | SignaturePackageClusterDesynced (router state : string)
  | SignaturePackageDownloadFailed (router detail : string)
  | SignaturePackageInstallFailed (router detail : string)
  | SignaturePackageVerificationFailed (router expected got : string)
  | SignaturePackagePollTimeout (router action : string) (elapsed_secs : N)
  | SignaturePackageDaemonNotReady (router : string)
  | ClusterHealthCheckTimeout (router : string) (elapsed_secs : N)
  | BundleStagingFull (router : string) (bundle_bytes cap_bytes : N)
  | BundleStagingEvicted (router request_id : string)
  | BundleRpcSubsetFailed (router : string) (failed_count total_count : N) (first_error : string)
  | BundlePerRouterContention (router : string)
  | BundleConfigCaptureFailed (router detail : string)
  | ResolutionCycle (router name chain : string)
  | ResolutionDepthExceeded (router name : string) (max_depth : N)
  | ResolutionNameNotFound (router name book : string).

Definition schema_mismatch (rpc element : string) : SrxError := SrxSchemaMismatch rpc element.

(** [[code=<code>] router=<router>] *)
Definition coded (code router : string) : string :=
  "[code=" ^^ code ^^ "] router=" ^^ router.

Context (value_display : Value -> string).

(** [impl Display for SrxError] *)
Definition srx_to_string (e : SrxError) : string :=
  match e with
  | SrxTransport e => "transport: " ^^ to_string e
  | SrxRpc tag severity message =>
      "rpc error: " ^^ tag ^^ " (" ^^ severity ^^ ") — " ^^ message
  | SrxParse m => "xml parse: " ^^ m
  | SrxSchemaMismatch rpc element =>
      "schema mismatch in " ^^ rpc ^^ ": missing required element <" ^^ element ^^ ">"
  | SrxInvalidInput m => "invalid input: " ^^ m
  | SignaturePackageConfirmationRequired r plan =>
      coded "confirmation_required" r
      ^^ ": confirmation required — re-call with confirm=true and the plan's confirmation_token; plan: "
      ^^ value_display plan
  | SignaturePackageConfirmationTokenRequired r =>
      coded "confirmation_token_required" r
      ^^ ": confirm=true requires the server-issued confirmation_token from a fresh preview"
  | SignaturePackageConfirmationTokenInvalid r reason =>
      coded "confirmation_token_invalid" r ^^ ": " ^^ reason
  | SignaturePackageConfirmationPlanDrift r =>
      coded "confirmation_plan_drift" r
      ^^ ": device state or requested plan changed; request and review a new preview"
  | SignaturePackageConfirmationCapacityExceeded r =>
      coded "confirmation_capacity_exceeded" r
      ^^ ": too many pending confirmations; retry after existing confirmations expire"
  | SignaturePackageLicenseInactive r feature =>
      coded "license_inactive" r ^^ ": feature license '" ^^ feature ^^ "' not active"
  | SignaturePackageServerUnreachable r detail =>
      coded "signatures_server_unreachable" r ^^ ": " ^^ detail
  | SignaturePackageNoRollbackTarget r =>
      coded "no_rollback_target" r
      ^^ ": no preserved previous IDP signature package to roll back to"
  | SignaturePackageNoUninstallTarget r =>
      coded "no_uninstall_target" r
      ^^ ": no AppID application package is currently installed; nothing to uninstall"
  | SignaturePackageClusterDesynced r state =>
      coded "cluster_desynced" r ^^ ": cluster state '" ^^ state ^^ "' (expected synchronized)"
  | SignaturePackageDownloadFailed r detail => coded "download_failed" r ^^ ": " ^^ detail
  | SignaturePackageInstallFailed r detail => coded "install_failed" r ^^ ": " ^^ detail
  | SignaturePackageVerificationFailed r expected got =>
      coded "post_install_version_mismatch" r ^^ ": expected=" ^^ expected ^^ ", got=" ^^ got
  | SignaturePackagePollTimeout r action elapsed =>
      coded "poll_timeout" r ^^ " action=" ^^ action ^^ ": elapsed=" ^^ dec elapsed ^^ "s"
  | SignaturePackageDaemonNotReady r =>
      coded "daemon_not_ready" r
      ^^ ": idp-policy daemon not initialized — restart idp-policy or add minimum 'security idp' config stanza"
  | ClusterHealthCheckTimeout r elapsed =>
      coded "cluster_health_check_timeout" r
      ^^ ": outer budget exceeded after " ^^ dec elapsed ^^ "s"
  | BundleStagingFull r bytes cap =>
      coded "bundle_staging_full" r ^^ ": staging dir over cap even after LRU eviction (bundle "
      ^^ dec bytes ^^ " bytes; cap " ^^ dec cap ^^ " bytes)"
  | BundleStagingEvicted r id =>
      coded "bundle_staging_evicted" r ^^ ": requested request_id=" ^^ id
      ^^ " not present in staging (LRU evicted or never written)"
  | BundleRpcSubsetFailed r failed total first_error =>
      coded "bundle_rpc_subset_failed" r ^^ ": " ^^ dec failed ^^ " of " ^^ dec total
      ^^ " bundle RPCs failed (first error: " ^^ first_error ^^ ")"
  | BundlePerRouterContention r =>
      coded "bundle_per_router_contention" r
      ^^ ": another collect_jtac_support_bundle is in flight; retry after it completes"
  | BundleConfigCaptureFailed r detail =>
      coded "bundle_config_capture_failed" r
      ^^ ": universal-baseline get-configuration RPC failed: " ^^ detail
  | ResolutionCycle r name chain =>
      coded "resolution_cycle" r ^^ ": cycle resolving '" ^^ name ^^ "': " ^^ chain
  | ResolutionDepthExceeded r name depth =>
      coded "resolution_depth_exceeded" r ^^ ": '" ^^ name ^^ "' exceeded max depth " ^^ dec depth
  | ResolutionNameNotFound r name book =>
      coded "resolution_name_not_found" r ^^ ": '" ^^ name ^^ "' not found in " ^^ book
  end.

(** [SrxError::audit_kind] *)
Definition srx_audit_kind (e : SrxError) : string :=
  match e with
  | SrxTransport inner => audit_kind inner
  | SrxRpc _ _ _ => "rpc"
  | SrxParse _ | SrxSchemaMismatch _ _ => "parse"
  | SrxInvalidInput _ => "invalid_input"
  | SignaturePackageConfirmationRequired _ _ => "confirmation_required"
  | SignaturePackageConfirmationTokenRequired _
  | SignaturePackageConfirmationTokenInvalid _ _
  | SignaturePackageConfirmationPlanDrift _
  | SignaturePackageConfirmationCapacityExceeded _ => "confirmation_token"
  | SignaturePackageLicenseInactive _ _ => "license_inactive"
  | SignaturePackageServerUnreachable _ _ => "unreachable"
  | SignaturePackageNoRollbackTarget _ | SignaturePackageNoUninstallTarget _ => "precondition_failed"
  | SignaturePackageClusterDesynced _ _ => "cluster_desynced"
  | SignaturePackageDownloadFailed _ _ => "download_failed"
  | SignaturePackageInstallFailed _ _ => "install_failed"
  | SignaturePackageVerificationFailed _ _ _ => "verify_mismatch"
  | SignaturePackagePollTimeout _ _ _ => "timeout"
  | SignaturePackageDaemonNotReady _ => "daemon_not_ready"
  | ClusterHealthCheckTimeout _ _ => "timeout"
  | BundleStagingFull _ _ _ => "staging_full"
  | BundleStagingEvicted _ _ => "staging_evicted"
  | BundleRpcSubsetFailed _ _ _ _ => "bundle_partial"
  | BundlePerRouterContention _ => "contention"
  | BundleConfigCaptureFailed _ _ => "capture_failed"
  | ResolutionCycle _ _ _ => "resolution_cycle"
  | ResolutionDepthExceeded _ _ _ => "resolution_depth_exceeded"
  | ResolutionNameNotFound _ _ _ => "resolution_name_not_found"
  end.

(** The code of a failed phase's audit line: the [[code=..]] token at the start
    of the message. *)
Definition error_code (e : SrxError) : string :=
  match srx_to_string e with
  | String "["%char tail =>
      match str_find "]" tail with
      | Some (inner, _) =>
          if starts_with "code=" inner then str_drop 5 inner else "internal"
      | None => "internal"
      end
  | _ => "internal"
  end.

End srx_error.

(** ** [absence.rs] *)

Inductive SrxState := Active | NotConfigured | SrxStateError.

Record SrxToolResponse (T : Type) := mk_response {
  sr_state : SrxState;
  sr_data : option T;
  sr_reason : option string;
  sr_raw_xml : option string
}.
Arguments mk_response {T}.
Arguments sr_state {T}.
Arguments sr_data {T}.
Arguments sr_reason {T}.
Arguments sr_raw_xml {T}.

Definition active {T} (data : T) : SrxToolResponse T := mk_response Active (Some data) None None.
Definition not_configured {T} (reason : string) : SrxToolResponse T :=
  mk_response NotConfigured None (Some reason) None.
Definition with_raw {T} (raw : string) (r : SrxToolResponse T) : SrxToolResponse T :=
  mk_response (sr_state r) (sr_data r) (sr_reason r) (Some raw).
