(* ===== verification/SignatureConfirmation.v ===== *)
(** * Confirmation of destructive signature workflows
    ([workflows/signature_package/confirmation.rs])

    A destructive workflow takes two calls.  The first returns the plan with a
    one-time token; the second presents the token, and the workflow runs only
    if caller, router, device and freshly computed plan are those of the first.
    The store keeps SHA-256 digests of tokens and plans, never the token.

    SHA-256, the JSON serialiser, base64 and the clock's formatting are
    parameters.  Every operation locks the store's mutex for all it does to the
    entries, so operations are atomic steps on one state; [now] is the instant
    each reads before it locks, so the instants of successive steps need not
    increase.  Its properties follow. *)

From S2P Require Import Prelude RustStr Fmt Errors JsonValue SrxErrors.

Definition DEFAULT_TTL : N := from_secs (5 * 60).
Definition DEFAULT_CAPACITY : N := 4096.

Record ConfirmationBinding := {
  caller : string;
  router : string;
  device_identity : string
}.
#[export] Instance ConfirmationBinding_eq_dec : EqDecision ConfirmationBinding.
Proof. solve_decision. Defined.

Definition binding_new (caller : option string) (router device_identity : string)
  : ConfirmationBinding :=
  {| caller := default "unauthenticated" caller; router := router;
     device_identity := device_identity |}.

(** [ConfirmedPlan] and [ValidatedPlan]: both are the correlation id. *)
Record ConfirmedPlan := { cp_correlation_id : string }.
Record ValidatedPlan := { vp_correlation_id : string }.

Inductive ConfirmationError := Capacity | Invalid | Expired | BindingMismatch | PlanDrift.

Record PendingConfirmation := {
  binding : ConfirmationBinding;
  plan_digest : string;
  correlation_id : string;
  expires_at : N
}.

Record ConfirmationStore := mk_store {
  inner : gmap string PendingConfirmation;
  ttl : N;
  capacity : N
}.

Definition store_new (ttl capacity : N) : ConfirmationStore := mk_store ∅ ttl capacity.
Definition store_default : ConfirmationStore := store_new DEFAULT_TTL DEFAULT_CAPACITY.

Definition set_inner (entries : gmap string PendingConfirmation) (s : ConfirmationStore)
  : ConfirmationStore := mk_store entries (ttl s) (capacity s).

(** What the store computes with but does not define. *)
Class ConfirmationEnv := {
  sha256 : string -> string;
  to_vec : Value -> string;
  encode_string : string -> string;
  instant_add : N -> N -> option N;
  expiry_rfc3339 : N -> N -> option string
}.

Section store.
Context {X : External} {CE : ConfirmationEnv}.

Definition confirmation_token_for_request (confirm : bool) (token : option string)
    (router : string) : Result (option string) SrxError :=
  let token :=
    match token with
    | Some t => let t := trim t in if is_empty t then None else Some t
    | None => None
    end in
  match confirm, token with
  | false, None => Ok None
  | false, Some _ => Err (SrxInvalidInput "confirmation_token requires confirm=true")
  | true, None => Err (SignaturePackageConfirmationTokenRequired router)
  | true, Some token => Ok (Some token)
  end.

Definition digest_bytes (bytes : string) : string := sha256 bytes.
Definition digest_plan (plan : Value) : string := digest_bytes (to_vec plan).

Definition retain_unexpired (now : N) (entries : gmap string PendingConfirmation)
  : gmap string PendingConfirmation :=
  filter (fun kv => (now < expires_at kv.2)%N) entries.

(** The loop that draws 32 random bytes until their token is fresh.  [draws] is
    what the operating system's source returns, draw by draw; [None] is a loop
    still running when they end. *)
Fixpoint fresh_token (entries : gmap string PendingConfirmation) (draws : list string)
  : option (string * string) :=
  match draws with
  | [] => None
  | token_bytes :: draws =>
      let token := encode_string token_bytes in
      let digest := digest_bytes token in
      match entries !! digest with
      | None => Some (token, digest)
      | Some _ => fresh_token entries draws
      end
  end.

(** The plan as the caller receives it. *)
Definition annotate (token expiry correlation_id : string) (fields : list (string * Value))
  : Value :=
  Object (obj_insert "correlation_id" (Str correlation_id)
         (obj_insert "confirmation_expires_at" (Str expiry)
         (obj_insert "confirmation_token" (Str token) fields))).

Definition issue (now wall : N) (draws : list string) (plan : Value)
    (b : ConfirmationBinding) (corr : string) (s : ConfirmationStore)
  : option (Result Value ConfirmationError) * ConfirmationStore :=
  match plan with
  | Object fields =>
      match instant_add now (ttl s), expiry_rfc3339 wall (ttl s) with
      | Some expires, Some expiry =>
          let digest := digest_plan plan in
          let s := set_inner (retain_unexpired now (inner s)) s in
          if (capacity s <=? N.of_nat (size (inner s)))%N then (Some (Err Capacity), s) else
          match fresh_token (inner s) draws with
          | None => (None, s)
          | Some (token, token_digest) =>
              let pending := {| binding := b; plan_digest := digest;
                                correlation_id := corr; expires_at := expires |} in
              (Some (Ok (annotate token expiry corr fields)),
               set_inner (<[token_digest := pending]> (inner s)) s)
          end
      | _, _ => (Some (Err Invalid), s)
      end
  | _ => (Some (Err Invalid), s)
  end.

(** The checks [validate_binding] and [consume] share; an expired entry is
    removed, one that belongs to another binding is kept. *)
Definition check_pending (now : N) (token : string) (b : ConfirmationBinding)
    (s : ConfirmationStore) : Result PendingConfirmation ConfirmationError * ConfirmationStore :=
  let d := digest_bytes token in
  match inner s !! d with
  | None => (Err Invalid, s)
  | Some pending =>
      if (expires_at pending <=? now)%N
      then (Err Expired, set_inner (delete d (inner s)) s)
      else if bool_decide (binding pending = b) then (Ok pending, s)
      else (Err BindingMismatch, s)
  end.

Definition validate_binding (now : N) (token : string) (b : ConfirmationBinding)
    (s : ConfirmationStore) : Result ValidatedPlan ConfirmationError * ConfirmationStore :=
  let (r, s) := check_pending now token b s in
  (map_result (fun p => {| vp_correlation_id := correlation_id p |}) r, s).

Definition consume (now : N) (token : string) (b : ConfirmationBinding)
    (current_plan : Value) (s : ConfirmationStore)
  : Result ConfirmedPlan ConfirmationError * ConfirmationStore :=
  match check_pending now token b s with
  | (Err e, s) => (Err e, s)
  | (Ok pending, s) =>
      let s := set_inner (delete (digest_bytes token) (inner s)) s in
      if String.eqb (plan_digest pending) (digest_plan current_plan)
      then (Ok {| cp_correlation_id := correlation_id pending |}, s)
      else (Err PlanDrift, s)
  end.

Definition into_srx_error (router : string) (e : ConfirmationError) : SrxError :=
  match e with
  | Capacity => SignaturePackageConfirmationCapacityExceeded router
  | PlanDrift => SignaturePackageConfirmationPlanDrift router
  | Expired => SignaturePackageConfirmationTokenInvalid router
                 "confirmation token expired; request a new preview"
  | BindingMismatch => SignaturePackageConfirmationTokenInvalid router
                 "confirmation token does not belong to this caller, router, or device"
  | Invalid => SignaturePackageConfirmationTokenInvalid router
                 "confirmation token is invalid or has already been used"
  end.

(** ** The store under concurrent callers: one operation at a time *)

Inductive StoreOp :=
  | OpIssue (now wall : N) (draws : list string) (plan : Value)
      (b : ConfirmationBinding) (corr : string)
  | OpValidate (now : N) (token : string) (b : ConfirmationBinding)
  | OpConsume (now : N) (token : string) (b : ConfirmationBinding) (plan : Value).

Inductive StoreOutcome :=
  | OutIssue (r : option (Result Value ConfirmationError))
  | OutValidate (r : Result ValidatedPlan ConfirmationError)
  | OutConsume (r : Result ConfirmedPlan ConfirmationError).

Definition store_step (s : ConfirmationStore) (o : StoreOp) : StoreOutcome * ConfirmationStore :=
  match o with
  | OpIssue now wall draws plan b corr =>
      let (r, s) := issue now wall draws plan b corr s in (OutIssue r, s)
  | OpValidate now token b => let (r, s) := validate_binding now token b s in (OutValidate r, s)
  | OpConsume now token b plan => let (r, s) := consume now token b plan s in (OutConsume r, s)
  end.

(** The operations so far, each with its outcome, and the store they leave. *)
Fixpoint store_run (s : ConfirmationStore) (ops : list StoreOp)
  : list (StoreOp * StoreOutcome) * ConfirmationStore :=
  match ops with
  | [] => ([], s)
  | o :: ops =>
      let (out, s) := store_step s o in
      let (outs, s) := store_run s ops in
      ((o, out) :: outs, s)
  end.

End store.

(** ** What the confirmation store promises

    [Ledger] is the specification: the grants outstanding, each under its own
    token and with the whole plan it was issued for.  The store keeps digests
    instead; [store_refines_ledger] shows that, while no two tokens or plans in
    play share a digest, nobody can tell the difference, whatever the
    interleaving of callers.  [consume_authorised] needs no such assumption: it
    says what a successful consumption proves about the past. *)

(** ** The specification *)

Record Grant := {
  g_binding : ConfirmationBinding;
  g_plan : Value;
  g_correlation_id : string;
  g_expires_at : N
}.
Abbreviation Ledger := (gmap string Grant).

Section ledger.
Context {X : External} {CE : ConfirmationEnv}.
Context (ttl capacity : N).

Fixpoint unused_token (l : Ledger) (draws : list string) : option string :=
  match draws with
  | [] => None
  | d :: draws =>
      match l !! encode_string d with
      | None => Some (encode_string d)
      | Some _ => unused_token l draws
      end
  end.

Definition ledger_issue (now wall : N) (draws : list string) (plan : Value)
    (b : ConfirmationBinding) (corr : string) (l : Ledger)
  : option (Result Value ConfirmationError) * Ledger :=
  match plan, instant_add now ttl, expiry_rfc3339 wall ttl with
  | Object fields, Some expires, Some expiry =>
      let l := filter (fun tg => (now < g_expires_at tg.2)%N) l in
      if (capacity <=? N.of_nat (size l))%N then (Some (Err Capacity), l) else
      match unused_token l draws with
      | None => (None, l)
      | Some token =>
          (Some (Ok (annotate token expiry corr fields)),
           <[token := {| g_binding := b; g_plan := plan; g_correlation_id := corr;
                         g_expires_at := expires |}]> l)
      end
  | _, _, _ => (Some (Err Invalid), l)
  end.

Definition ledger_check (now : N) (token : string) (b : ConfirmationBinding) (l : Ledger)
  : Result Grant ConfirmationError * Ledger :=
  match l !! token with
  | None => (Err Invalid, l)
  | Some g =>
      if (g_expires_at g <=? now)%N then (Err Expired, delete token l)
      else if bool_decide (g_binding g = b) then (Ok g, l)
      else (Err BindingMismatch, l)
  end.

(** A grant is used up by the first redemption that gets as far as comparing
    the plan, whether the plan matches or not. *)
Definition ledger_step (l : Ledger) (o : StoreOp) : StoreOutcome * Ledger :=
  match o with
  | OpIssue now wall draws plan b corr =>
      let (r, l) := ledger_issue now wall draws plan b corr l in (OutIssue r, l)
  | OpValidate now token b =>
      let (r, l) := ledger_check now token b l in
      (OutValidate (map_result (fun g => {| vp_correlation_id := g_correlation_id g |}) r), l)
  | OpConsume now token b plan =>
      match ledger_check now token b l with
      | (Err e, l) => (OutConsume (Err e), l)
      | (Ok g, l) =>
          (OutConsume (if bool_decide (g_plan g = plan)
                       then Ok {| cp_correlation_id := g_correlation_id g |}
                       else Err PlanDrift), delete token l)
      end
  end.

Fixpoint ledger_run (l : Ledger) (ops : list StoreOp) : list (StoreOp * StoreOutcome) :=
  match ops with
  | [] => []
  | o :: ops => let (out, l) := ledger_step l o in (o, out) :: ledger_run l ops
  end.

End ledger.

(** ** The simulation *)

(** The tokens and the plans an operation brings into play. *)
Definition op_tokens {CE : ConfirmationEnv} (o : StoreOp) : list string :=
  match o with
  | OpIssue _ _ draws _ _ _ => map encode_string draws
  | OpValidate _ t _ | OpConsume _ t _ _ => [t]
  end.
Definition op_plans (o : StoreOp) : list Value :=
  match o with
  | OpIssue _ _ _ p _ _ | OpConsume _ _ _ p => [p]
  | OpValidate _ _ _ => []
  end.

Definition inj_on {A B} (f : A -> B) (l : list A) : Prop :=
  forall a a', In a l -> In a' l -> f a = f a' -> a = a'.

Section simulation.
Context {X : External} {CE : ConfirmationEnv}.
Context (T : list string) (HT : inj_on digest_bytes T).
Context (P : list Value) (HP : inj_on digest_plan P).

Definition pending_of (g : Grant) : PendingConfirmation :=
  {| binding := g_binding g; plan_digest := digest_plan (g_plan g);
     correlation_id := g_correlation_id g; expires_at := g_expires_at g |}.

(** The ledger's grants are of the tokens and plans in play, and the store has
    the digest of each, and nothing else. *)
Record sim (l : Ledger) (entries : gmap string PendingConfirmation) : Prop := {
  sim_tokens : forall t g, l !! t = Some g -> In t T /\ In (g_plan g) P;
  sim_of : forall d p, entries !! d = Some p ->
             exists t g, l !! t = Some g /\ d = digest_bytes t /\ p = pending_of g;
  sim_has : forall t g, l !! t = Some g -> entries !! digest_bytes t = Some (pending_of g)
}.

Lemma sim_token l e t g : sim l e -> l !! t = Some g -> In t T.
Proof. intros H Hl. by destruct (sim_tokens _ _ H _ _ Hl). Qed.

Lemma sim_lookup l e t :
  sim l e -> In t T -> e !! digest_bytes t = pending_of <$> l !! t.
Proof.
  intros H Ht. destruct (l !! t) as [g|] eqn:E; [by apply (sim_has _ _ H)|].
  destruct (e !! digest_bytes t) as [p|] eqn:E2; [|done]. exfalso.
  destruct (sim_of _ _ H _ _ E2) as (t' & g & Hg & Hd & _).
  apply HT in Hd; [congruence|done|by eapply sim_token].
Qed.

Lemma sim_empty : sim ∅ ∅.
Proof. split; intros *; rewrite lookup_empty; discriminate. Qed.

Lemma sim_insert l e t g :
  sim l e -> In t T -> In (g_plan g) P ->
  sim (<[t := g]> l) (<[digest_bytes t := pending_of g]> e).
Proof.
  intros H Ht Hg. split.
  - intros t' g' [[<- <-]|[_ H']]%lookup_insert_Some; [done|]. by apply (sim_tokens _ _ H) in H'.
  - intros d p [[<- <-]|[Hd H']]%lookup_insert_Some.
    + exists t, g. by rewrite lookup_insert_eq.
    + destruct (sim_of _ _ H _ _ H') as (t' & g' & Hl & -> & ->).
      exists t', g'. rewrite lookup_insert_ne by congruence. done.
  - intros t' g' [[<- <-]|[Hn H']]%lookup_insert_Some; [by rewrite lookup_insert_eq|].
    rewrite lookup_insert_ne; [by apply (sim_has _ _ H)|].
    intros E. apply Hn, HT; [done|by eapply sim_token|done].
Qed.

Lemma sim_delete l e t :
  sim l e -> In t T -> sim (delete t l) (delete (digest_bytes t) e).
Proof.
  intros H Ht. split.
  - intros t' g' [_ H']%lookup_delete_Some. by apply (sim_tokens _ _ H) in H'.
  - intros d p [Hd H']%lookup_delete_Some.
    destruct (sim_of _ _ H _ _ H') as (t' & g' & Hl & -> & ->).
    exists t', g'. rewrite lookup_delete_ne by congruence. done.
  - intros t' g' [Hn H']%lookup_delete_Some.
    rewrite lookup_delete_ne; [by apply (sim_has _ _ H)|].
    intros E. apply Hn, HT; [done|by eapply sim_token|done].
Qed.

Lemma sim_retain l e now :
  sim l e -> sim (filter (fun tg => (now < g_expires_at tg.2)%N) l) (retain_unexpired now e).
Proof.
  intros H. split; unfold retain_unexpired.
  - intros t g [H' _]%map_lookup_filter_Some. by apply (sim_tokens _ _ H) in H'.
  - intros d p [H' Hn]%map_lookup_filter_Some.
    destruct (sim_of _ _ H _ _ H') as (t & g & Hl & -> & ->).
    exists t, g. split; [|done]. by apply map_lookup_filter_Some.
  - intros t g [H' Hn]%map_lookup_filter_Some.
    apply map_lookup_filter_Some. split; [by apply (sim_has _ _ H)|done].
Qed.

(** Both count the same number of outstanding grants. *)
Lemma sim_size l e : sim l e -> size e = size l.
Proof.
  revert e. induction l as [|t g l Hl IH] using map_ind; intros e H.
  - replace e with (∅ : gmap string PendingConfirmation); [done|].
    symmetry. apply map_empty. intros d. destruct (e !! d) eqn:E; [|done].
    destruct (sim_of _ _ H _ _ E) as (t & g & Hl & _). by rewrite lookup_empty in Hl.
  - destruct (sim_tokens _ _ H t g) as [Ht _]; [by rewrite lookup_insert_eq|].
    assert (Hd : e !! digest_bytes t = Some (pending_of g))
      by (apply (sim_has _ _ H); by rewrite lookup_insert_eq).
    pose proof (sim_delete _ _ _ H Ht) as H'. rewrite delete_insert_id in H' by done.
    rewrite <- (insert_delete_id _ _ _ Hd).
    rewrite !map_size_insert_None by (done || apply lookup_delete_eq). by rewrite (IH _ H').
Qed.

Lemma sim_fresh l e draws :
  sim l e -> (forall d, In d draws -> In (encode_string d) T) ->
  fresh_token e draws = (fun t => (t, digest_bytes t)) <$> unused_token l draws.
Proof.
  intros H. induction draws as [|d draws IH]; intros Hd; simpl; [done|].
  rewrite (sim_lookup _ _ _ H) by (apply Hd; by left).
  destruct (l !! encode_string d); simpl; [|done]. apply IH. intros; apply Hd; by right.
Qed.

Lemma unused_token_drawn l draws t :
  unused_token l draws = Some t -> exists d, In d draws /\ t = encode_string d.
Proof.
  induction draws as [|d draws IH]; simpl; [discriminate|].
  destruct (l !! encode_string d).
  - intros H. destruct (IH H) as (d' & Hin & ->). exists d'. by split; [right|].
  - intros [= <-]. exists d. by split; [left|].
Qed.

Lemma sim_check now token b s l r s' :
  sim l (inner s) -> In token T -> check_pending now token b s = (r, s') ->
  exists r' l', ledger_check now token b l = (r', l') /\ r = map_result pending_of r' /\
    sim l' (inner s') /\ ttl s' = ttl s /\ capacity s' = capacity s /\
    (forall g, r' = Ok g -> l' = l /\ s' = s /\ In (g_plan g) P).
Proof.
  intros H Ht. unfold check_pending, ledger_check. rewrite (sim_lookup _ _ _ H Ht).
  destruct (l !! token) as [g|] eqn:Hl; cbn [fmap option_fmap option_map].
  2: { intros [= <- <-]. exists (Err Invalid), l. by split_and!. }
  change (expires_at (pending_of g)) with (g_expires_at g). destruct (g_expires_at g <=? now)%N eqn:Hx.
  { intros [= <- <-]. exists (Err Expired), (delete token l).
    split_and!; try done; by apply sim_delete. }
  cbn [binding pending_of]. case_bool_decide.
  - intros [= <- <-]. exists (Ok g), l. split; [done|].
    split; [done|]. split; [done|]. split; [done|]. split; [done|].
    intros g' [= <-]. by destruct (sim_tokens _ _ H _ _ Hl).
  - intros [= <- <-]. exists (Err BindingMismatch), l. by split_and!.
Qed.

Lemma sim_plan_eqb g plan :
  In (g_plan g) P -> In plan P ->
  String.eqb (digest_plan (g_plan g)) (digest_plan plan) = bool_decide (g_plan g = plan).
Proof.
  intros H1 H2. case_bool_decide as Hp.
  - rewrite Hp. apply String.eqb_refl.
  - apply String.eqb_neq. intros E. by apply Hp, HP.
Qed.

End simulation.

Section refinement.
Context {X : External} {CE : ConfirmationEnv}.

Lemma sim_step T P l s o :
  inj_on digest_bytes T -> inj_on digest_plan P ->
  incl (op_tokens o) T -> incl (op_plans o) P -> sim T P l (inner s) ->
  exists l', ledger_step (ttl s) (capacity s) l o = ((store_step s o).1, l') /\
    sim T P l' (inner (store_step s o).2) /\
    ttl (store_step s o).2 = ttl s /\ capacity (store_step s o).2 = capacity s.
Proof.
  intros HT HP HoT HoP H. destruct o as [now wall draws plan b corr|now t b|now t b plan].
  - unfold ledger_step, store_step, ledger_issue, issue.
    destruct plan; try (exists l; by split_and!).
    destruct (instant_add _ _); [|exists l; by split_and!].
    destruct (expiry_rfc3339 _ _); [|exists l; by split_and!].
    pose proof (sim_retain T P _ _ now H) as Hr. cbn [inner set_inner ttl capacity].
    rewrite (sim_size T HT P _ _ Hr). destruct (_ <=? _)%N; [eexists; by split_and!|].
    rewrite (sim_fresh T HT P _ _ _ Hr).
    2: { intros d Hd. apply HoT. by apply in_map. }
    destruct (unused_token _ draws) as [t|] eqn:Hu; cbn [fmap option_fmap option_map];
      [|eexists; by split_and!].
    destruct (unused_token_drawn _ _ _ Hu) as (d & Hd & ->).
    eexists; split; [reflexivity|]. split; [|done]. cbn [inner set_inner snd].
    exact (sim_insert T HT P _ _ (encode_string d)
             {| g_binding := b; g_plan := Object fields; g_correlation_id := corr;
                g_expires_at := n |} Hr
             (HoT _ (in_map encode_string _ _ Hd)) (HoP _ (or_introl eq_refl))).
  - unfold ledger_step, store_step, validate_binding.
    destruct (check_pending now t b s) as [r s'] eqn:Hc.
    destruct (sim_check T HT P _ _ _ _ _ _ _ H (HoT t (or_introl eq_refl)) Hc)
      as (r' & l' & -> & -> & Hs & Ht & Hcap & _).
    exists l'. split; [|done]. cbn. do 3 f_equal. by destruct r'.
  - unfold ledger_step, store_step, consume.
    destruct (check_pending now t b s) as [r s'] eqn:Hc.
    pose proof (HoT t (or_introl eq_refl)) as Hin.
    destruct (sim_check T HT P _ _ _ _ _ _ _ H Hin Hc)
      as (r' & l' & -> & -> & Hs & Ht & Hcap & Hok).
    destruct r' as [g|e]; cbn [map_result]; [|by exists l'].
    destruct (Hok g eq_refl) as (-> & -> & Hg). exists (delete t l).
    cbn [plan_digest pending_of]. rewrite (sim_plan_eqb P HP) by (done || apply HoP; by left).
    pose proof (sim_delete T HT P _ _ _ H Hin) as Hdel. by case_bool_decide.
Qed.

Lemma sim_run T P ops l s :
  inj_on digest_bytes T -> inj_on digest_plan P ->
  incl (concat (map op_tokens ops)) T -> incl (concat (map op_plans ops)) P ->
  sim T P l (inner s) ->
  (store_run s ops).1 = ledger_run (ttl s) (capacity s) l ops.
Proof.
  intros HT HP. revert l s. induction ops as [|o ops IH]; intros l s HoT HoP H; [done|].
  cbn in HoT, HoP. apply incl_app_inv in HoT as [HoT HoT'], HoP as [HoP HoP'].
  destruct (sim_step T P l s o HT HP HoT HoP H) as (l' & Hl & Hs & Ht & Hc).
  cbn. rewrite Hl. destruct (store_step s o) as [out s']. cbn in *.
  specialize (IH l' s' HoT' HoP' Hs). rewrite Ht, Hc in IH.
  destruct (store_run s' ops) as [outs s'']. cbn in *. by rewrite IH.
Qed.

(** C9: A store that keeps digests behaves as the ledger that keeps the grants
    themselves: for every interleaving of issuing, checking and consuming, by
    any callers, every operation returns what the ledger returns, as long as no
    two tokens and no two plans in play have the same digest. *)
Theorem store_refines_ledger t c ops :
  inj_on digest_bytes (concat (map op_tokens ops)) ->
  inj_on digest_plan (concat (map op_plans ops)) ->
  (store_run (store_new t c) ops).1 = ledger_run t c ∅ ops.
Proof.
  intros HT HP. apply (sim_run _ _ ops ∅ (store_new t c) HT HP);
    [apply incl_refl|apply incl_refl|apply sim_empty].
Qed.

End refinement.

(** ** What a consumption proves about the past *)

Section history.
Context {X : External} {CE : ConfirmationEnv}.
Implicit Types (e : StoreOp * StoreOutcome) (hist : list (StoreOp * StoreOutcome)).

(** [e] used up the token with digest [d]. *)
Definition consumes (d : string) e : Prop :=
  match e with
  | (OpConsume _ token _ _, OutConsume (Ok _)) => digest_bytes token = d
  | _ => False
  end.

(** [e] handed a caller a token with digest [d], for the binding, plan and
    correlation id recorded in [p], to expire when [p] says. *)
Definition issues (ttl : N) (d : string) (p : PendingConfirmation) e : Prop :=
  match e with
  | (OpIssue now _ _ plan b corr, OutIssue (Some (Ok reply))) =>
      b = binding p /\ corr = correlation_id p /\ digest_plan plan = plan_digest p /\
      instant_add now ttl = Some (expires_at p) /\
      exists token, value_get "confirmation_token" reply = Some (Str token) /\
                    digest_bytes token = d
  | _ => False
  end.

Lemma value_get_annotate t x c fs :
  value_get "confirmation_token" (annotate t x c fs) = Some (Str t).
Proof. unfold annotate. cbn [value_get]. by rewrite !obj_get_insert. Qed.

Lemma fresh_token_spec entries draws token d :
  fresh_token entries draws = Some (token, d) ->
  d = digest_bytes token /\ entries !! d = None.
Proof.
  induction draws as [|x draws IH]; simpl; [discriminate|].
  destruct (entries !! digest_bytes (encode_string x)) eqn:E; [apply IH|].
  by intros [= <- <-].
Qed.

Lemma check_pending_spec now token b s r s' :
  check_pending now token b s = (r, s') ->
  ttl s' = ttl s /\ capacity s' = capacity s /\ (forall d p, inner s' !! d = Some p -> inner s !! d = Some p) /\
  match r with
  | Ok p => s' = s /\ inner s !! digest_bytes token = Some p /\ binding p = b /\
            (now < expires_at p)%N
  | Err _ => True
  end.
Proof.
  unfold check_pending. intros H. repeat case_match; simplify_eq/=; split_and!; try done.
  - by intros ?? [_ ?]%lookup_delete_Some.
  - by eapply bool_decide_eq_true_1.
  - by apply N.leb_gt.
Qed.

Lemma retain_sub now entries d p :
  retain_unexpired now entries !! d = Some p -> entries !! d = Some p.
Proof. by intros [? _]%map_lookup_filter_Some. Qed.

(** Every entry a step leaves was there before, and not just consumed, or is
    the one just issued. *)
Lemma step_entry s o out s' d p :
  store_step s o = (out, s') -> inner s' !! d = Some p ->
  ttl s' = ttl s /\
  ((inner s !! d = Some p /\ ~ consumes d (o, out)) \/ issues (ttl s) d p (o, out)).
Proof.
  destruct o as [now wall draws plan b corr|now t b|now t b plan]; simpl.
  - unfold issue. intros H Hd. repeat case_match; simplify_eq/=; split; try done; auto.
    + left. split; [by eapply retain_sub|tauto].
    + apply lookup_insert_Some in Hd as [[<- <-]|[_ Hd]].
      * right. split_and!; try done. eexists. split; [apply value_get_annotate|].
        symmetry. by eapply fresh_token_spec.
      * left. split; [by eapply retain_sub|tauto].
    + left. split; [by eapply retain_sub|tauto].
  - unfold validate_binding. destruct (check_pending _ _ _ _) as [r s1] eqn:Hc.
    intros [= <- <-] Hd. apply check_pending_spec in Hc as (? & _ & Hsub & _).
    split; [done|]. left. split; [by apply Hsub|tauto].
  - unfold consume. destruct (check_pending _ _ _ _) as [r s1] eqn:Hc.
    apply check_pending_spec in Hc as (Ht & _ & Hsub & Hr).
    destruct r as [q|e]; [|intros [= <- <-] Hd; split; [done|]; left; split; [by apply Hsub|tauto]].
    destruct Hr as (-> & Hq & _). intros H Hd.
    assert (Hs' : s' = set_inner (delete (digest_bytes t) (inner s)) s)
      by (by repeat case_match; simplify_eq).
    subst s'. cbn in Hd. apply lookup_delete_Some in Hd as [Hn Hd]. split; [done|]. left. split; [done|].
    destruct (String.eqb _ _); injection H as <-; cbn; naive_solver.
Qed.

(** Every entry has its issue in the history and no consumption since. *)
Definition provenance (ttl : N) hist (s : ConfirmationStore) : Prop :=
  forall d p, inner s !! d = Some p ->
  exists j e, hist !! j = Some e /\ issues ttl d p e /\
    forall k e', j < k -> hist !! k = Some e' -> ~ consumes d e'.

Lemma provenance_step hist s o out s' :
  provenance (ttl s) hist s -> store_step s o = (out, s') ->
  provenance (ttl s) (hist ++ [(o, out)]) s'.
Proof.
  intros H Hst d p Hd. destruct (step_entry _ _ _ _ _ _ Hst Hd) as [_ [[Hold Hnc]|Hnew]].
  - destruct (H d p Hold) as (j & e & Hj & He & Hk). exists j, e.
    split; [by apply lookup_app_l_Some|]. split; [done|].
    intros k e' Hjk [Hl|[_ Hl]]%lookup_app_Some; [by eapply Hk|].
    by apply list_lookup_singleton_Some in Hl as [_ <-].
  - exists (length hist), (o, out). split; [by apply list_lookup_middle|]. split; [done|].
    intros k e' Hlt Hl. apply lookup_lt_Some in Hl. rewrite length_app in Hl. cbn in Hl. lia.
Qed.

Lemma ttl_step s o : ttl (store_step s o).2 = ttl s /\ capacity (store_step s o).2 = capacity s.
Proof.
  destruct o as [now wall draws plan b corr|now t b|now t b plan]; simpl.
  - unfold issue. repeat case_match; simplify_eq/=; done.
  - unfold validate_binding. destruct (check_pending _ _ _ _) eqn:Hc.
    apply check_pending_spec in Hc as (? & ? & _). done.
  - unfold consume. destruct (check_pending _ _ _ _) as [[p|e] s1] eqn:Hc;
      apply check_pending_spec in Hc as (? & ? & _); [|done].
    destruct (String.eqb _ _); by cbn.
Qed.

Lemma consume_ok now token b plan s c s' :
  consume now token b plan s = (Ok c, s') ->
  exists p, inner s !! digest_bytes token = Some p /\ binding p = b /\
    cp_correlation_id c = correlation_id p /\ plan_digest p = digest_plan plan /\
    (now < expires_at p)%N.
Proof.
  unfold consume. destruct (check_pending now token b s) as [[p|] s1] eqn:Hc; [|done].
  destruct (check_pending_spec _ _ _ _ _ _ Hc) as (_ & _ & _ & -> & Hp & Hb & Hx).
  destruct (String.eqb_spec (plan_digest p) (digest_plan plan)); [|done].
  intros [= <- _]. by exists p.
Qed.

Definition authorised (ttl : N) hist (i : nat) : Prop :=
  forall now token b plan c, hist !! i = Some (OpConsume now token b plan, OutConsume (Ok c)) ->
  exists j e p, j < i /\ hist !! j = Some e /\ issues ttl (digest_bytes token) p e /\
    binding p = b /\ cp_correlation_id c = correlation_id p /\
    plan_digest p = digest_plan plan /\ (now < expires_at p)%N /\
    forall k e', j < k < i -> hist !! k = Some e' -> ~ consumes (digest_bytes token) e'.

Lemma authorised_run ops hist s :
  provenance (ttl s) hist s ->
  forall i, length hist <= i -> authorised (ttl s) (hist ++ (store_run s ops).1) i.
Proof.
  revert hist s. induction ops as [|o ops IH]; intros hist s H i Hi; cbn.
  { intros ????? Hl. rewrite app_nil_r in Hl. apply lookup_lt_Some in Hl. lia. }
  destruct (store_step s o) as [out s'] eqn:Hst.
  pose proof (provenance_step _ _ _ _ _ H Hst) as H'.
  pose proof (ttl_step s o) as [Ht _]. rewrite Hst in Ht. cbn in Ht. rewrite <- Ht in H'.
  specialize (IH (hist ++ [(o, out)]) s' H').
  destruct (store_run s' ops) as [outs s''] eqn:Hrun. cbn in *.
  rewrite Ht, <- app_assoc in IH.
  destruct (decide (length (hist ++ [(o, out)]) <= i)) as [Hle|Hgt]; [by apply IH|].
  assert (i = length hist) as -> by (rewrite length_app in Hgt; cbn in Hgt; lia).
  intros now token b plan c Hl. rewrite list_lookup_middle in Hl by done.
  injection Hl as -> ->. cbn in Hst. destruct (consume now token b plan s) as [r s1] eqn:Hcon.
  injection Hst as -> ->.
  destruct (consume_ok _ _ _ _ _ _ _ Hcon) as (p & Hp & Hb & Hc & Hpl & Hx).
  destruct (H _ _ Hp) as (j & e & Hj & He & Hk).
  pose proof (lookup_lt_Some _ _ _ Hj) as Hlt. exists j, e, p. split_and!; try done.
  - by apply lookup_app_l_Some.
  - intros k e' [Hk1 Hk2] Hl. rewrite lookup_app_l in Hl by done. by eapply Hk.
Qed.

(** In every run of the store, under any interleaving of callers, a
    successful [consume] has an earlier [issue] behind it that returned a token
    with the digest of the one presented, for the same caller, router, device
    and correlation id, for a plan with the same digest, whose lifetime had
    not ended; and no other successful [consume] used that token in between.
    So a token runs a destructive workflow at most once. *)
Theorem consume_authorised t c ops i now token b plan r :
  let hist := (store_run (store_new t c) ops).1 in
  hist !! i = Some (OpConsume now token b plan, OutConsume (Ok r)) ->
  exists j e p, j < i /\ hist !! j = Some e /\ issues t (digest_bytes token) p e /\
    binding p = b /\ cp_correlation_id r = correlation_id p /\
    plan_digest p = digest_plan plan /\ (now < expires_at p)%N /\
    forall k e', j < k < i -> hist !! k = Some e' -> ~ consumes (digest_bytes token) e'.
Proof.
  revert now token b plan r. apply (authorised_run ops [] (store_new t c)); [|cbn; lia].
  intros d p Hd. unfold store_new in Hd. cbn in Hd. by rewrite lookup_empty in Hd.
Qed.

End history.

(** ** Bounds *)

Section bounds.
Context {X : External} {CE : ConfirmationEnv}.

Definition within_capacity (s : ConfirmationStore) : Prop :=
  (N.of_nat (size (inner s)) <= capacity s)%N.

Lemma size_sub (e e' : gmap string PendingConfirmation) :
  (forall d p, e !! d = Some p -> e' !! d = Some p) -> size e <= size e'.
Proof. intros H. apply map_subseteq_size, map_subseteq_spec. exact H. Qed.

Lemma within_capacity_step s o : within_capacity s -> within_capacity (store_step s o).2.
Proof.
  unfold within_capacity. destruct (ttl_step s o) as [_ ->]. intros H.
  destruct o as [now wall draws plan b corr|now t b|now t b plan]; simpl.
  - pose proof (size_sub _ _ (retain_sub now (inner s))) as Hr.
    unfold issue. repeat case_match; simplify_eq/=; try lia.
    rewrite map_size_insert_None by by eapply fresh_token_spec.
    match goal with E : (_ <=? _)%N = false |- _ => apply N.leb_gt in E end. lia.
  - unfold validate_binding. destruct (check_pending _ _ _ _) as [r s1] eqn:Hc.
    apply check_pending_spec in Hc as (_ & _ & Hsub & _). apply size_sub in Hsub. cbn. lia.
  - unfold consume. destruct (check_pending _ _ _ _) as [[p|e] s1] eqn:Hc;
      apply check_pending_spec in Hc as (_ & _ & Hsub & _); apply size_sub in Hsub; [|cbn; lia].
    assert (Hd : size (delete (digest_bytes t) (inner s1)) <= size (inner s1))
      by (apply size_sub; by intros ?? [_ ?]%lookup_delete_Some).
    destruct (String.eqb _ _); cbn; lia.
Qed.

(** However many callers issue tokens, the store never holds more pending
    confirmations than its capacity. *)
Theorem store_capacity t c ops :
  (N.of_nat (size (inner (store_run (store_new t c) ops).2)) <= c)%N.
Proof.
  enough (H : within_capacity (store_run (store_new t c) ops).2 /\
              capacity (store_run (store_new t c) ops).2 = c)
    by (destruct H as [H Hc]; unfold within_capacity in H; by rewrite Hc in H).
  assert (H0 : within_capacity (store_new t c) /\ capacity (store_new t c) = c)
    by (split; [apply N.le_0_l|done]).
  revert H0. generalize (store_new t c). induction ops as [|o ops IH]; intros s [H Hc]; [done|].
  cbn. specialize (IH (store_step s o).2). pose proof (within_capacity_step s o H).
  destruct (ttl_step s o) as [_ Hcap]. destruct (store_step s o) as [out s']. cbn in *.
  destruct (store_run s' ops). apply IH. split; [done|congruence].
Qed.

(** With more draws than entries, whose tokens have distinct digests, one is
    fresh. *)
Lemma fresh_token_found entries draws :
  NoDup (map (fun d => digest_bytes (encode_string d)) draws) ->
  size entries < length draws -> fresh_token entries draws <> None.
Proof.
  revert entries. induction draws as [|d draws IH]; intros entries Hnd Hlt; cbn in *; [lia|].
  apply list.NoDup_cons in Hnd as [Hd Hnd].
  destruct (entries !! digest_bytes (encode_string d)) as [p|] eqn:Hp; [|done].
  assert (Heq : fresh_token entries draws =
                fresh_token (delete (digest_bytes (encode_string d)) entries) draws).
  { clear -Hd. induction draws as [|x draws IH]; cbn in *; [done|].
    apply not_elem_of_cons in Hd as [Hx Hd]. rewrite lookup_delete_ne by done.
    destruct (entries !! _); [by apply IH|done]. }
  rewrite Heq. apply IH; [done|]. rewrite map_size_delete_Some by done.
  assert (size entries <> 0) by (intros E; apply map_size_empty_inv in E; subst;
    by rewrite lookup_empty in Hp). lia.
Qed.

(** Issuing ends: when the random source returns [capacity] draws whose
    tokens have distinct digests, the search for a fresh token ends, and the
    caller has an answer. *)
Theorem issue_terminates now wall draws plan b corr s :
  NoDup (map (fun d => digest_bytes (encode_string d)) draws) ->
  (capacity s <= N.of_nat (length draws))%N ->
  (issue now wall draws plan b corr s).1 <> None.
Proof.
  intros Hnd Hlen. unfold issue. destruct plan; try done.
  destruct (instant_add now (ttl s)), (expiry_rfc3339 wall (ttl s)); try done.
  cbn [inner set_inner capacity]. destruct (N.leb_spec (capacity s)
    (N.of_nat (size (retain_unexpired now (inner s))))) as [|Hlt]; [done|].
  pose proof (fresh_token_found (retain_unexpired now (inner s)) draws Hnd) as Hf.
  destruct (fresh_token _ _) as [[]|]; [done|]. exfalso. apply Hf; [lia|done].
Qed.

End bounds.

(** ** A run

    Two previews and what can be done with their tokens.  The digest is the
    identity on tokens and a rendering of the router on plans. *)

Module DemoConfirmation.

#[local] Instance demo_external : External := string_external.

Definition render (v : Value) : string :=
  match value_get "router" v with Some (Str r) => "plan for " ^^ r | _ => "plan" end.

#[local] Instance demo_env : ConfirmationEnv := {|
  sha256 s := s;
  to_vec := render;
  encode_string s := "tok-" ^^ s;
  instant_add a b := if (a + b <? 1000000)%N then Some (a + b)%N else None;
  expiry_rfc3339 wall t := Some (dec (wall + t))
|}.

Definition plan (r : string) : Value := Object [("router", Str r)].
Definition alice (r : string) : ConfirmationBinding := binding_new (Some "alice") r "dev".
Definition nobody (r : string) : ConfirmationBinding := binding_new None r "dev".

Definition ops : list StoreOp :=
  [ OpIssue 0 50 ["a"] (plan "r1") (alice "r1") "c1";
    OpIssue 5 55 ["a"; "b"] (plan "r2") (alice "r2") "c2";
    OpIssue 6 56 ["c"] (plan "r3") (alice "r3") "c3";
    OpValidate 7 "tok-a" (nobody "r1");
    OpConsume 8 "tok-b" (alice "r2") (plan "r1");
    OpConsume 9 "tok-b" (alice "r2") (plan "r2");
    OpConsume 9 "tok-a" (alice "r1") (plan "r1");
    OpConsume 9 "tok-a" (alice "r1") (plan "r1");
    OpValidate 100 "tok-c" (alice "r3");
    OpIssue 999999 0 ["d"] (plan "r1") (alice "r1") "c4" ].

Definition hist : list (StoreOp * StoreOutcome) := (store_run (store_new 60 2) ops).1.

(** The second token is drawn afresh, the third refused for want of room, the
    stranger refused, the drifted plan uses its token up, and the good one runs
    once. *)
Example hist_outcomes :
  map snd hist =
  [ OutIssue (Some (Ok (annotate "tok-a" "110" "c1" [("router", Str "r1")])));
    OutIssue (Some (Ok (annotate "tok-b" "115" "c2" [("router", Str "r2")])));
    OutIssue (Some (Err Capacity));
    OutValidate (Err BindingMismatch);
    OutConsume (Err PlanDrift);
    OutConsume (Err Invalid);
    OutConsume (Ok {| cp_correlation_id := "c1" |});
    OutConsume (Err Invalid);
    OutValidate (Err Invalid);
    OutIssue (Some (Err Invalid)) ].
Proof. vm_compute. reflexivity. Qed.

Ltac decide_inj_on :=
  intros a a' Ha Ha'; cbn in Ha, Ha';
  repeat match goal with H : _ \/ _ |- _ => destruct H end; subst; try done;
  vm_compute; intros; congruence.

Lemma store_refines_ledger_witness :
  inj_on digest_bytes (concat (map op_tokens ops)) /\
  inj_on digest_plan (concat (map op_plans ops)) /\
  hist = ledger_run 60 2 ∅ ops.
Proof.
  assert (H1 : inj_on digest_bytes (concat (map op_tokens ops))) by (by intros a a' _ _).
  assert (H2 : inj_on digest_plan (concat (map op_plans ops))) by decide_inj_on.
  split; [exact H1|]. split; [exact H2|]. exact (store_refines_ledger 60 2 ops H1 H2).
Defined.

Lemma consume_authorised_witness :
  hist !! 6 = Some (OpConsume 9 "tok-a" (alice "r1") (plan "r1"),
                    OutConsume (Ok {| cp_correlation_id := "c1" |})) /\
  exists j e p, j < 6 /\ hist !! j = Some e /\ issues 60 "tok-a" p e /\
    binding p = alice "r1" /\ "c1" = correlation_id p /\
    plan_digest p = "plan for r1" /\ (9 < expires_at p)%N /\
    forall k e', j < k < 6 -> hist !! k = Some e' -> ~ consumes "tok-a" e'.
Proof.
  assert (H : hist !! 6 = Some (OpConsume 9 "tok-a" (alice "r1") (plan "r1"),
                OutConsume (Ok {| cp_correlation_id := "c1" |}))) by (vm_compute; reflexivity).
  split; [exact H|].
  exact (consume_authorised 60 2 ops 6 9 "tok-a" (alice "r1") (plan "r1")
           {| cp_correlation_id := "c1" |} H).
Defined.

Lemma issue_terminates_witness :
  NoDup (map (fun d => digest_bytes (encode_string d)) ["x"; "y"]) /\
  (issue 0 50 ["x"; "y"] (plan "r1") (alice "r1") "c1" (store_new 60 2)).1 <> None.
Proof.
  assert (H : NoDup (map (fun d => digest_bytes (encode_string d)) ["x"; "y"]))
    by (apply NoDup_fmap_2_strong; [intros ???? E; by injection E|];
        repeat constructor; set_solver).
  split; [exact H|].
  apply (issue_terminates 0 50 ["x"; "y"] (plan "r1") (alice "r1") "c1" (store_new 60 2) H).
  vm_compute. discriminate.
Defined.

End DemoConfirmation.
