(* ===== verification/Xml.v ===== *)
(** * XML replies ([rust-junosmcp-srx-core/src/xml.rs])

    The readers over a device's replies.  [roxmltree] parses: a document is its
    root element, a tree of [Node]s; parsing and [Node::text] are the crate's
    and parameters here, as are the four events [quick_xml] writes.  The text
    repairs that run before a parse are in [XmlText]. *)

From S2P Require Import Prelude RustStr Fmt Errors JsonValue SrxErrors XmlText.
#[local] Set Warnings "-register-all".

Inductive Node :=
  | Element (name : string) (attributes : list (string * string)) (children : list Node)
  | Text (s : string)
  | OtherNode.

Class Roxmltree := {
  parse_document : string -> Result Node string;
  node_text : Node -> option string;
  write_start : string -> list (string * string) -> string;
  write_empty : string -> list (string * string) -> string;
  write_end : string -> string;
  write_text : string -> string
}.

Definition is_element (n : Node) : bool :=
  match n with Element _ _ _ => true | _ => false end.
Definition tag_name (n : Node) : string :=
  match n with Element name _ _ => name | _ => "" end.
Definition children (n : Node) : list Node :=
  match n with Element _ _ cs => cs | _ => [] end.
Definition attribute (key : string) (n : Node) : option string :=
  match n with Element _ attrs _ => obj_get key attrs | _ => None end.

(** The node and its descendants, in document order. *)
Fixpoint descendants (n : Node) : list Node :=
  n :: match n with
       | Element _ _ cs => concat (map descendants cs)
       | _ => []
       end.

(** [n.is_element() && n.tag_name().name() == name] *)
Definition named (name : string) (n : Node) : bool :=
  is_element n && String.eqb (tag_name n) name.
Definition child (name : string) (n : Node) : option Node := find (named name) (children n).
Definition children_named (name : string) (n : Node) : list Node :=
  List.filter (named name) (children n).
Definition descendant (name : string) (n : Node) : option Node :=
  find (named name) (descendants n).
Definition descendants_named (name : string) (n : Node) : list Node :=
  List.filter (named name) (descendants n).

Record ReNode := { re_name : string; inner_xml : string }.

Section xml.
Context {X : External} {RX : Roxmltree}.

(** [.and_then(|n| n.text())] *)
Definition text_in (o : option Node) : option string :=
  match o with Some n => node_text n | None => None end.
Definition trimmed_text (o : option Node) : option string := trim <$> text_in o.

(** [node_to_xml]: what [write_node] writes for the node and its children. *)
Fixpoint write_node (n : Node) : string :=
  match n with
  | Element name attrs [] => write_empty name attrs
  | Element name attrs cs =>
      write_start name attrs ^^ String.concat "" (map write_node cs) ^^ write_end name
  | Text s => write_text s
  | OtherNode => ""
  end.
Definition node_to_xml (n : Node) : string := write_node n.

Definition re_node (item : Node) : ReNode := {|
  re_name := trim (default "" (text_in (child "re-name" item)));
  inner_xml := String.concat "" (map node_to_xml
                 (List.filter (fun n => negb (named "re-name" n)) (children item)))
|}.

Definition multi_re_split (reply_xml : string) : Result (list ReNode) SrxError :=
  let reply_xml := sanitize_rustez_xml reply_xml in
  match parse_document reply_xml with
  | Err e => Err (SrxParse e)
  | Ok doc =>
      match descendant "multi-routing-engine-results" doc with
      | None => Ok [{| re_name := ""; inner_xml := reply_xml |}]
      | Some envelope =>
          Ok (map re_node (children_named "multi-routing-engine-item" envelope))
      end
  end.

Definition text_of (xml name : string) : option string :=
  let input := if is_ok (parse_document xml) then xml else "<_>" ^^ xml ^^ "</_>" in
  match parse_document input with
  | Err _ => None
  | Ok doc => trimmed_text (descendant name doc)
  end.

Definition rpc_error_parts (root : Node) : option (string * string) :=
  let err_node :=
    if String.eqb (tag_name root) "rpc-error" then Some root else child "rpc-error" root in
  match err_node with
  | None => None
  | Some err_node =>
      let error_tag := default "" (trimmed_text (descendant "error-tag" err_node)) in
      let msg := trimmed_text (descendant "error-message" err_node) in
      let bad := trimmed_text (descendant "bad-element" err_node) in
      let reason :=
        match msg, bad with
        | Some m, Some b => "rpc-error: " ^^ m ^^ " (bad-element: " ^^ b ^^ ")"
        | Some m, None => "rpc-error: " ^^ m
        | None, Some b => "rpc-error: bad-element=" ^^ b
        | None, None => "rpc-error (unknown)"
        end in
      Some (error_tag, reason)
  end.

(** [child_text] of the workflows: the trimmed text of the first child with the
    name, unless empty. *)
Definition child_text (n : Node) (name : string) : option string :=
  match trimmed_text (child name n) with
  | Some t => if is_empty t then None else Some t
  | None => None
  end.

End xml.

(** [s.trim().parse::<uN>().ok()], for a type with the given maximum. *)
Definition parse_uint (max : N) (s : string) : option N :=
  match parse_usize s with
  | Some n => if (n <=? max)%N then Some n else None
  | None => None
  end.
Definition U16_MAX : N := 65535.
Definition U8_MAX : N := 255.
Definition sat_add_u32 (a b : N) : N := N.min U32_MAX (a + b).

(** ** Lemmas *)

Lemma find_named name l n : find (named name) l = Some n -> named name n = true /\ In n l.
Proof. intros H. by apply find_some in H as []. Qed.

Lemma descendants_self n : In n (descendants n).
Proof. destruct n; by left. Qed.

Lemma descendants_child n c d :
  In c (children n) -> In d (descendants c) -> In d (descendants n).
Proof.
  destruct n as [name attrs cs| |]; cbn; [|done|done]. intros Hc Hd. right.
  apply in_concat. exists (descendants c). split; [by apply in_map|done].
Qed.

(** ** A parser of a few documents

    [table_xml docs] knows the documents of a table, by their text; the examples
    of the readers run on it. *)

Definition table_xml (docs : list (string * Node)) : Roxmltree := {|
  parse_document s := match obj_get s docs with Some n => Ok n | None => Err "unknown document" end;
  node_text n := match n with
                 | Element _ _ (Text s :: _) => Some s
                 | Text s => Some s
                 | _ => None
                 end;
  write_start n _ := "<" ^^ n ^^ ">";
  write_empty n _ := "<" ^^ n ^^ "/>";
  write_end n := "</" ^^ n ^^ ">";
  write_text s := s
|}.

Definition el (name : string) (cs : list Node) : Node := Element name [] cs.
Definition tx (name text : string) : Node := el name [Text text].

(** What a two-node cluster wraps around the replies of its nodes. *)
Definition of_nodes (replies : list Node) : Node :=
  el "multi-routing-engine-results"
    (imap (fun i r => el "multi-routing-engine-item" [tx "re-name" ("node" ^^ dec (N.of_nat i)); r])
       replies).
