(* ===== verification/Proc.v ===== *)
(** * Cancellable asynchronous functions

    The body of a tool that takes a cancellation token.  Like a [Future] it can
    be dropped part-way (by a deadline or by the token), and it also knows the
    instant at which its token is cancelled and the time at which it runs.
    [let>] awaits one such function and goes on with its value, or returns its
    error.  [select_raw] is [mecmcp_device::cancel::select_cancel_raw], a
    parameter of which only the documented behaviour is assumed. *)

From S2P Require Import Prelude RustStr Fmt Errors Async.

Definition Proc (S T E : Type) : Type := option N -> N -> Future S T E.

Section proc.
Context {S : Type}.

Definition proc_ret {T E} (r : Result T E) : Proc S T E := fun _ _ => fut_ret r.
Definition proc_fut {T E} (f : N -> Future S T E) : Proc S T E := fun _ now => f now.
Definition proc_state {E} (f : S -> S) : Proc S unit E :=
  fun _ _ => fut_state (fun s => (Ok tt, f s)).
Definition proc_get {T E} (f : S -> Result T E) : Proc S T E :=
  fun _ _ => fut_state (fun s => (f s, s)).
Definition proc_sleep {E} (d : N) : Proc S unit E := fun _ _ => fut_sleep d.
(** [Instant::now()] and [ct.is_cancelled()] *)
Definition proc_now {E} : Proc S N E := fun _ now => fut_ret (Ok now).
Definition proc_is_cancelled {E} : Proc S bool E := fun ct now =>
  fut_ret (Ok match ct with Some c => (c <=? now)%N | None => false end).

Definition proc_bind {T E U F} (p : Proc S T E) (k : Result T E -> Proc S U F) : Proc S U F :=
  fun ct now s => fut_bind (p ct now) (fun r => k r ct (now + rpc_time (p ct now s))%N) s.
Definition proc_try {T E U F} (conv : E -> F) (p : Proc S T E) (k : T -> Proc S U F)
  : Proc S U F :=
  proc_bind p (fun r => match r with Ok t => k t | Err e => proc_ret (Err (conv e)) end).
Definition proc_then {T E U} (p : Proc S T E) (k : T -> Proc S U E) : Proc S U E :=
  proc_try (fun e => e) p k.
Definition proc_map_err {T E F} (conv : E -> F) (p : Proc S T E) : Proc S T F :=
  proc_bind p (fun r => proc_ret (map_err conv r)).

(** A local whose destructor is [cleanup]: it runs when the body ends and when
    the body is dropped. *)
Definition scoped {T E} (cleanup : S -> S) (p : Proc S T E) : Proc S T E := fun ct now s =>
  let r := p ct now s in
  mk_rpc (rpc_time r) (rpc_result r) (cleanup (rpc_state r))
    (fun k => cleanup (rpc_dropped r k)).

(** The same while the local stays alive: only a drop runs its destructor. *)
Definition guarded {T E} (cleanup : S -> S) (p : Proc S T E) : Proc S T E := fun ct now s =>
  let r := p ct now s in
  mk_rpc (rpc_time r) (rpc_result r) (rpc_state r) (fun k => cleanup (rpc_dropped r k)).

(** [timeout(limit, p).await.map_err(|_| elapsed)?] for a [p] that returns a
    result, and the bare [timeout(limit, p).await]. *)
Definition proc_timeout {T E F} (limit : N) (p : Proc S T E) : Proc S (option (Result T E)) F :=
  fun ct now => fut_timeout limit (p ct now).
Definition bounded {T E} (limit : N) (elapsed : E) (p : Proc S T E) : Proc S T E :=
  proc_bind (F := E) (proc_timeout (F := E) limit p) (fun r =>
    proc_ret match r with Ok (Some r) => r | Ok None => Err elapsed | Err e => Err e end).

(** A tool run by its caller. *)
Definition act_of {T E} (p : Proc S T E) : Act S T E := fun w =>
  await (p (w_cancel_at w) (w_now w)) w.

End proc.

(** A call on one field of the state. *)
Definition proc_at {A S T E} (get : A -> S) (set : S -> A -> A) (p : Proc S T E) : Proc A T E :=
  fun ct now => fut_at get set (p ct now).

Notation "'let>' x := p 'in' k" := (proc_then p (fun x => k))
  (at level 10, x pattern, k at level 200) : jmcp_scope.

(** ** Racing a call against the token *)

Class CancelSelect {X : External} := {
  select_raw : forall {S T E : Type}, option N -> N -> Future S T E ->
               Future S (Result T E) JmcpError
}.

(** What the tools rely on: the call's own outcome, or [Cancelled] and the call
    dropped; a drop of the whole drops the call. *)
Class CancelSelectLaws {X : External} {CS : CancelSelect} : Prop := {
  select_outcome : forall S T E ct now (f : Future S T E) s,
    (rpc_result (select_raw ct now f s) = Ok (rpc_result (f s)) /\
     rpc_state (select_raw ct now f s) = rpc_state (f s) /\
     rpc_time (select_raw ct now f s) = rpc_time (f s)) \/
    (rpc_result (select_raw ct now f s) = Err Cancelled /\
     exists k, rpc_state (select_raw ct now f s) = rpc_dropped (f s) k);
  select_dropped : forall S T E ct now (f : Future S T E) s k,
    exists k', rpc_dropped (select_raw ct now f s) k = rpc_dropped (f s) k';
  select_time : forall S T E ct now (f : Future S T E) s,
    (rpc_time (select_raw ct now f s) <= rpc_time (f s))%N
}.

Section select.
Context {X : External} {CS : CancelSelect} {S : Type}.

(** [select_cancel_raw(ct, p)] and [select_cancel(ct, p)]. *)
Definition select_cancel_raw {T E} (p : Proc S T E) : Proc S (Result T E) JmcpError :=
  fun ct now => select_raw ct now (p ct now).
Definition select_cancel {T} (p : Proc S T JmcpError) : Proc S T JmcpError :=
  let> r := select_cancel_raw p in proc_ret r.

End select.

(** The biased race: the token wins when it is cancelled by the time the call
    ends. *)
Definition biased_select {X : External} {S T E} (ct : option N) (now : N) (f : Future S T E)
  : Future S (Result T E) JmcpError := fun s =>
  let r := f s in
  match ct with
  | Some c =>
      if (c <=? now + rpc_time r)%N
      then mk_rpc (c - now) (Err Cancelled) (rpc_dropped r (c - now)) (rpc_dropped r)
      else mk_rpc (rpc_time r) (Ok (rpc_result r)) (rpc_state r) (rpc_dropped r)
  | None => mk_rpc (rpc_time r) (Ok (rpc_result r)) (rpc_state r) (rpc_dropped r)
  end.

Definition biased {X : External} : CancelSelect := {| select_raw S T E := @biased_select X S T E |}.

Lemma biased_laws {X : External} : CancelSelectLaws (CS := biased).
Proof.
  split; intros; cbn; unfold biased_select; repeat case_match; cbn; eauto.
  all: try (apply N.leb_le in H0); lia.
Qed.

(** ** Reasoning

    [holds P p Q D]: started in a state of [P], [p] ends in a result and state
    of [Q], and in a state of [D] wherever it is dropped. *)

Definition holds {S T E} (P : S -> Prop) (p : Proc S T E) (Q : Result T E -> S -> Prop)
    (D : S -> Prop) : Prop :=
  forall ct now s, P s ->
    Q (rpc_result (p ct now s)) (rpc_state (p ct now s)) /\ forall k, D (rpc_dropped (p ct now s) k).

Section rules.
Context {S : Type}.

Lemma holds_weaken {T E} (P P' : S -> Prop) (p : Proc S T E) (Q Q' : Result T E -> S -> Prop)
    (D D' : S -> Prop) :
  holds P p Q D -> (forall s, P' s -> P s) -> (forall r s, Q r s -> Q' r s) ->
  (forall s, D s -> D' s) -> holds P' p Q' D'.
Proof. intros H HP HQ HD ct now s Hs. destruct (H ct now s (HP s Hs)). eauto. Qed.

Lemma holds_ret {T E} (P : S -> Prop) (r : Result T E) (Q : Result T E -> S -> Prop) D :
  (forall s, P s -> Q r s /\ D s) -> holds P (proc_ret r) Q D.
Proof. intros H ct now s Hs. destruct (H s Hs). done. Qed.

Lemma holds_get {T E} (P : S -> Prop) (f : S -> Result T E) (Q : Result T E -> S -> Prop) D :
  (forall s, P s -> Q (f s) s /\ D s) -> holds P (proc_get f) Q D.
Proof. intros H ct now s Hs. destruct (H s Hs). done. Qed.

Lemma holds_state {E} (P : S -> Prop) (f : S -> S) (Q : Result unit E -> S -> Prop) D :
  (forall s, P s -> Q (Ok tt) (f s) /\ D (f s)) -> holds P (proc_state f) Q D.
Proof. intros H ct now s Hs. destruct (H s Hs). done. Qed.

Lemma holds_pure {T E} (P : S -> Prop) (p : Proc S T E) (Q : Result T E -> S -> Prop) D :
  (forall ct now s, rpc_state (p ct now s) = s /\ forall k, rpc_dropped (p ct now s) k = s) ->
  (forall r s, P s -> Q r s /\ D s) -> holds P p Q D.
Proof.
  intros H HQ ct now s Hs. destruct (H ct now s) as [H1 H2]. rewrite H1.
  split; [by apply HQ|]. intros k. rewrite H2. by apply (HQ (rpc_result (p ct now s))).
Qed.

Lemma holds_bind {T E U F} (P : S -> Prop) (p : Proc S T E) (M : Result T E -> S -> Prop)
    (k : Result T E -> Proc S U F) Q D :
  holds P p M D -> (forall r, holds (M r) (k r) Q D) -> holds P (proc_bind p k) Q D.
Proof.
  intros Hp Hk ct now s Hs. destruct (Hp ct now s Hs) as [H1 H2].
  destruct (Hk _ ct (now + rpc_time (p ct now s))%N _ H1) as [H3 H4].
  split; [exact H3|]. intros j. cbn. by case_match.
Qed.

Lemma holds_try {T E U F} (P : S -> Prop) (conv : E -> F) (p : Proc S T E)
    (M : Result T E -> S -> Prop) (k : T -> Proc S U F) (Q : Result U F -> S -> Prop) D :
  holds P p M D -> (forall t, holds (M (Ok t)) (k t) Q D) ->
  (forall e s, M (Err e) s -> Q (Err (conv e)) s /\ D s) -> holds P (proc_try conv p k) Q D.
Proof. intros Hp Hk He. apply (holds_bind _ _ M); [done|]. intros [t|e]; [apply Hk|by apply holds_ret, He]. Qed.

Lemma holds_scoped {T E} (P : S -> Prop) cleanup (p : Proc S T E) Q D :
  holds P p (fun r s => Q r (cleanup s)) (fun s => D (cleanup s)) -> holds P (scoped cleanup p) Q D.
Proof. intros H ct now s Hs. destruct (H ct now s Hs) as [H1 H2]. by split. Qed.

Lemma holds_map_err {T E F} (P : S -> Prop) (conv : E -> F) (p : Proc S T E) Q D :
  holds P p (fun r s => Q (map_err conv r) s /\ D s) D -> holds P (proc_map_err conv p) Q D.
Proof. intros H. eapply holds_bind; [done|]. intros r. by apply holds_ret. Qed.

(** An invariant of the whole state, kept however the function ends. *)
Definition keeps_inv {T E} (I : S -> Prop) (p : Proc S T E) : Prop :=
  holds I p (fun _ => I) I.

Lemma inv_of_pure {T E} (I : S -> Prop) (p : Proc S T E) :
  (forall ct now s, rpc_state (p ct now s) = s /\ forall k, rpc_dropped (p ct now s) k = s) ->
  keeps_inv I p.
Proof. intros H. apply holds_pure; auto. Qed.
Lemma inv_ret {T E} I (r : Result T E) : keeps_inv I (proc_ret r).
Proof. by apply holds_ret. Qed.
Lemma inv_get {T E} I (f : S -> Result T E) : keeps_inv I (proc_get f).
Proof. by apply holds_get. Qed.
Lemma inv_now {E} I : keeps_inv I (proc_now (S := S) (E := E)).
Proof. by apply inv_of_pure. Qed.
Lemma inv_is_cancelled {E} I : keeps_inv I (proc_is_cancelled (S := S) (E := E)).
Proof. by apply inv_of_pure. Qed.
Lemma inv_sleep {E} I d : keeps_inv I (proc_sleep (S := S) (E := E) d).
Proof. by apply inv_of_pure. Qed.
Lemma inv_state {E} (I : S -> Prop) f : (forall s, I s -> I (f s)) -> keeps_inv I (proc_state (E := E) f).
Proof. intros H. apply holds_state. auto. Qed.
Lemma inv_bind {T E U F} I (p : Proc S T E) (k : Result T E -> Proc S U F) :
  keeps_inv I p -> (forall r, keeps_inv I (k r)) -> keeps_inv I (proc_bind p k).
Proof. intros Hp Hk. eapply holds_bind; [exact Hp|apply Hk]. Qed.
Lemma inv_try {T E U F} I (conv : E -> F) (p : Proc S T E) (k : T -> Proc S U F) :
  keeps_inv I p -> (forall t, keeps_inv I (k t)) -> keeps_inv I (proc_try conv p k).
Proof. intros Hp Hk. apply inv_bind; [done|]. intros []; [apply Hk|apply inv_ret]. Qed.
Lemma inv_then {T E U} I (p : Proc S T E) (k : T -> Proc S U E) :
  keeps_inv I p -> (forall t, keeps_inv I (k t)) -> keeps_inv I (proc_then p k).
Proof. apply inv_try. Qed.
Lemma inv_map_err {T E F} I (conv : E -> F) (p : Proc S T E) :
  keeps_inv I p -> keeps_inv I (proc_map_err conv p).
Proof. intros H. apply inv_bind; [done|]. intros. apply inv_ret. Qed.
Lemma inv_scoped {T E} (I : S -> Prop) cleanup (p : Proc S T E) :
  (forall s, I s -> I (cleanup s)) -> keeps_inv I p -> keeps_inv I (scoped cleanup p).
Proof.
  intros Hc H. apply holds_scoped. eapply holds_weaken; [exact H|done| |]; cbn; auto.
Qed.
Lemma holds_guarded {T E} (P : S -> Prop) cleanup (p : Proc S T E) Q D :
  holds P p Q (fun s => D (cleanup s)) -> holds P (guarded cleanup p) Q D.
Proof. intros H ct now s Hs. destruct (H ct now s Hs) as [H1 H2]. by split. Qed.
Lemma inv_guarded {T E} (I : S -> Prop) cleanup (p : Proc S T E) :
  (forall s, I s -> I (cleanup s)) -> keeps_inv I p -> keeps_inv I (guarded cleanup p).
Proof.
  intros Hc H. apply holds_guarded. eapply holds_weaken; [exact H|done|done|]; cbn; auto.
Qed.
Lemma inv_timeout {T E F} I limit (p : Proc S T E) :
  keeps_inv I p -> keeps_inv I (proc_timeout (F := F) limit p).
Proof.
  intros H ct now s Hs. destruct (H ct now s Hs) as [H1 H2].
  unfold proc_timeout, fut_timeout. case_match; cbn; auto.
Qed.
Lemma inv_bounded {T E} I limit (e : E) (p : Proc S T E) :
  keeps_inv I p -> keeps_inv I (bounded limit e p).
Proof. intros H. apply inv_bind; [by apply inv_timeout|]. intros. apply inv_ret. Qed.

Lemma inv_keeps {A T E} (obs : S -> A) a (p : Proc S T E) :
  (forall ct now, keeps obs (p ct now)) -> keeps_inv (fun s => obs s = a) p.
Proof. intros H ct now s <-. destruct (H ct now s) as [-> H2]. done. Qed.

(** [Ok] under a deadline is [Ok] within it; nothing else is learnt. *)
Lemma holds_bounded {T E} (P : S -> Prop) limit (e : E) (p : Proc S T E) Q D :
  holds P p Q D -> (forall s, D s -> Q (Err e) s) -> (forall r s, Q r s -> D s) ->
  holds P (bounded limit e p) Q D.
Proof.
  intros H HD HQ ct now s Hs. destruct (H ct now s Hs) as [H1 H2].
  unfold bounded, proc_bind, fut_bind, proc_timeout, fut_timeout.
  case_match; cbn; split; auto; intros k; case_match; eauto.
Qed.

Context {X : External} {CS : CancelSelect} {CL : CancelSelectLaws}.

Lemma holds_select_raw {T E} (P : S -> Prop) (p : Proc S T E) M D (Q : Result (Result T E) JmcpError -> S -> Prop) :
  holds P p M D -> (forall r s, M r s -> Q (Ok r) s) -> (forall s, D s -> Q (Err Cancelled) s) ->
  holds P (select_cancel_raw p) Q D.
Proof.
  intros H HM HD ct now s Hs. destruct (H ct now s Hs) as [H1 H2]. unfold select_cancel_raw. split.
  - destruct (select_outcome _ _ _ ct now (p ct now) s) as [(-> & -> & _)|(-> & k & ->)]; auto.
  - intros k. destruct (select_dropped _ _ _ ct now (p ct now) s k) as [k' ->]. apply H2.
Qed.

Lemma inv_select_raw {T E} I (p : Proc S T E) :
  keeps_inv I p -> keeps_inv I (select_cancel_raw p).
Proof. intros H. by eapply holds_select_raw. Qed.
Lemma inv_select {T} I (p : Proc S T JmcpError) : keeps_inv I p -> keeps_inv I (select_cancel p).
Proof. intros H. apply inv_then; [by apply inv_select_raw|]. intros. apply inv_ret. Qed.

Lemma holds_select {T} (P : S -> Prop) (p : Proc S T JmcpError) M D (Q : Result T JmcpError -> S -> Prop) :
  holds P p M D -> (forall r s, M r s -> Q r s) -> (forall r s, Q r s -> D s) ->
  (forall s, D s -> Q (Err Cancelled) s) ->
  holds P (select_cancel p) Q D.
Proof.
  intros H HM HQ HD. apply (holds_try _ _ _ (fun r s => Q match r with Ok r => r | Err e => Err e end s)).
  - eapply holds_select_raw; [exact H| |]; cbn; auto.
  - intros t. apply holds_ret. cbn. eauto.
  - cbn. eauto.
Qed.

End rules.

Create HintDb proc discriminated.
#[export] Hint Resolve inv_ret inv_get inv_now inv_is_cancelled inv_sleep : proc.

(** Walk through the body of a function for an invariant of its state. *)
Ltac inv_step :=
  match goal with
  | |- forall _, _ => intro
  | |- keeps_inv _ (proc_then _ _) => apply inv_then
  | |- keeps_inv _ (proc_try _ _ _) => apply inv_try
  | |- keeps_inv _ (proc_bind _ _) => apply inv_bind
  | |- keeps_inv _ (proc_map_err _ _) => apply inv_map_err
  | |- keeps_inv _ (bounded _ _ _) => apply inv_bounded
  | |- keeps_inv _ (proc_timeout _ _) => apply inv_timeout
  | |- keeps_inv _ (select_cancel_raw _) => apply inv_select_raw
  | |- keeps_inv _ (select_cancel _) => apply inv_select
  | |- keeps_inv _ (if ?b then _ else _) => destruct b
  | |- keeps_inv _ (match ?x with _ => _ end) => destruct x
  | |- keeps_inv _ _ => solve [auto with proc]
  end.
Ltac inv_walk := repeat inv_step.
