(* ===== verification/SrxDevice.v ===== *)
(** * Workflows over a device's RPCs

    An SRX workflow is an async function over one device handle; [SrxDevice] is
    what [PooledDevice::rpc()] and its executor offer it. *)

From S2P Require Import Prelude RustStr Fmt Errors JsonValue SrxErrors Async.

Class SrxDevice {X : External} (S : Type) := {
  rpc_ready : S -> Result unit RustEzError;
  rpc_call : string -> list (string * string) -> Future S string RustEzError;
  rpc_call_xml : string -> Future S string RustEzError
}.

Section calls.
Context {X : External} {S : Type} {SD : SrxDevice S}.

(** [SrxError::Transport(JmcpError::from(e))] *)
Definition transport (e : RustEzError) : SrxError := SrxTransport (Rustez e).

(** [device.rpc().map_err(..)?] *)
Definition rpc : Act S unit SrxError :=
  fun w => (map_err transport (rpc_ready (w_backend w)), w).
Definition call (name : string) (args : list (string * string)) : Act S string SrxError :=
  act_try transport (await (rpc_call name args)) (fun reply => act_ret (Ok reply)).
Definition call_xml (body : string) : Act S string SrxError :=
  act_try transport (await (rpc_call_xml body)) (fun reply => act_ret (Ok reply)).

(** A fresh executor for one call. *)
Definition rpc_then_call (name : string) : Act S string SrxError :=
  let! _ := rpc in call name [].

Definition err {T} (e : SrxError) : Act S T SrxError := act_ret (Err e).
Definition ok {T} (t : T) : Act S T SrxError := act_ret (Ok t).

(** The check every workflow begins with. *)
Definition require_router (router : string) : Act S unit SrxError :=
  if is_empty (trim router) then err (SrxInvalidInput "router must not be empty")
  else ok tt.

End calls.

(** ** Arguments of the SRX workflows ([rust-junosmcp-srx-core/src/workflows])

    One record per workflow that is not in a file of its own arguments.  Numbers
    are unsigned and within the width of their Rust type; deserialisation is
    not modelled. *)

Record ServicesStatusArgs := { ss_router : string; ss_include_raw : bool }.
Record VpnLifecycleArgs := {
  vl_router : string; vl_peer : option string; vl_tunnel : option string; vl_include_raw : bool
}.
Record PolicyListArgs := {
  pl_router : string; pl_from_zone : option string; pl_to_zone : option string;
  pl_policy_name : option string; pl_include_hit_counts : bool; pl_limit : N; pl_offset : N;
  pl_include_raw : bool
}.
Record AddressResolveArgs := {
  ar_router : string; ar_name : string; ar_zone : option string; ar_include_raw : bool
}.
Record ApplicationResolveArgs := { rr_router : string; rr_name : string; rr_include_raw : bool }.
Record NatRulesArgs := {
  nr_router : string; nr_include_hit_counts : bool; nr_limit : N; nr_include_raw : bool
}.
Record ClusterHealthArgs := {
  ch_router : string; ch_include_raw : bool; ch_request_id : option string
}.
Inductive ProblemType :=
  | ProblemChassisCluster | ProblemVpn | ProblemTrafficLoss | ProblemIdpAppid
  | ProblemRouting | ProblemGeneric.
Inductive ProblemTypeArg := OneProblem (p : ProblemType) | ManyProblems (l : list ProblemType).
Record SupportBundleArgs := {
  sb_router : string; sb_problem_type : ProblemTypeArg; sb_request_id : option string;
  sb_include_logs : bool; sb_redact : bool; sb_max_log_bytes_per_file : N;
  sb_max_log_files : N; sb_timeout : N
}.
Record FlowSessionsArgs := {
  fs_router : string; fs_source_prefix : option string; fs_destination_prefix : option string;
  fs_source_port : option N; fs_destination_port : option N; fs_protocol : option string;
  fs_application : option string; fs_session_identifier : option string; fs_cap : option N;
  fs_acknowledge_unfiltered : bool; fs_include_raw : bool
}.
Record PolicyMatchArgs := {
  pm_router : string; pm_from_zone : string; pm_to_zone : string; pm_source_ip : string;
  pm_destination_ip : string; pm_source_port : N; pm_destination_port : N;
  pm_protocol : string; pm_include_raw : bool
}.

(** ** What a workflow sent to its device

    [logged_device] runs a workflow over any device and keeps the calls made,
    with the replies they got; the readers' properties speak of that list. *)

(** A call and its reply, [None] when it failed. *)
Inductive Sent :=
  | SentCall (name : string) (args : list (string * string)) (reply : option string)
  | SentXml (body : string) (reply : option string).

Section logged.
Context {X : External} {S : Type} {SD : SrxDevice S}.

Definition log_future {T E} (ev : Result T E -> Sent) (f : Future S T E)
  : Future (S * list Sent) T E := fun sl =>
  let r := f sl.1 in
  mk_rpc (rpc_time r) (rpc_result r) (rpc_state r, sl.2 ++ [ev (rpc_result r)])
    (fun k => (rpc_dropped r k, sl.2)).

#[export] Instance logged_device : SrxDevice (S * list Sent) := {|
  rpc_ready sl := rpc_ready sl.1;
  rpc_call name args :=
    log_future (fun r => SentCall name args (result_ok r)) (rpc_call name args);
  rpc_call_xml body := log_future (fun r => SentXml body (result_ok r)) (rpc_call_xml body)
|}.

(** The calls in the log of a world. *)
Definition sent (w : World (S * list Sent)) : list Sent := (w_backend w).2.

(** [m] adds to the log calls of which [Q] holds, together with its result. *)
Definition sends {T E} (m : Act (S * list Sent) T E) (Q : Result T E -> list Sent -> Prop) : Prop :=
  forall w, exists t, sent (m w).2 = sent w ++ t /\ Q (m w).1 t.

Lemma sends_ret {T E} (r : Result T E) (Q : Result T E -> list Sent -> Prop) :
  Q r [] -> sends (act_ret r) Q.
Proof. intros H w. exists []. by rewrite app_nil_r. Qed.

Lemma sends_then {T U E} (m : Act (S * list Sent) T E) (k : T -> Act (S * list Sent) U E)
    (M : Result T E -> list Sent -> Prop) (Q : Result U E -> list Sent -> Prop) :
  sends m M ->
  (forall e t, M (Err e) t -> Q (Err e) t) ->
  (forall x t, M (Ok x) t -> sends (k x) (fun r t' => Q r (t ++ t'))) ->
  sends (let! x := m in k x) Q.
Proof.
  intros Hm Herr Hk w. destruct (Hm w) as (t & Ht & HM). unfold act_then, act_try, act_bind.
  destruct (m w) as [[x|e] w1] eqn:Hmw; cbn [fst snd] in *.
  - destruct (Hk x t HM w1) as (t' & Ht' & HQ). exists (t ++ t').
    split; [by rewrite app_assoc, <- Ht|done].
  - exists t. split; [done|by apply Herr].
Qed.

(** Code before any call. *)
Lemma sends_then_ret {T U E} (r : Result T E) (k : T -> Act (S * list Sent) U E)
    (Q : Result U E -> list Sent -> Prop) :
  (forall e, r = Err e -> Q (Err e) []) -> (forall x, r = Ok x -> sends (k x) Q) ->
  sends (let! x := act_ret r in k x) Q.
Proof.
  intros Herr Hk. apply (sends_then _ _ (fun r' t => r' = r /\ t = [])).
  - by apply sends_ret.
  - intros e t [<- ->]. by apply Herr.
  - intros x t [<- ->]. by apply Hk.
Qed.

Lemma sends_rpc (Q : Result unit SrxError -> list Sent -> Prop) :
  (forall r, Q r []) -> sends rpc Q.
Proof. intros H w. exists []. by rewrite app_nil_r. Qed.

Lemma sends_call name args :
  sends (call name args) (fun r t => exists reply, t = [SentCall name args reply] /\
    match r with Ok xml => reply = Some xml | Err _ => reply = None end).
Proof.
  intros w. unfold call, act_try, act_bind, await. cbn.
  destruct (rpc_result _); cbn; eexists; (split; [done|]); by eexists.
Qed.

Lemma sends_call_xml body :
  sends (call_xml body) (fun r t => exists reply, t = [SentXml body reply] /\
    match r with Ok xml => reply = Some xml | Err _ => reply = None end).
Proof.
  intros w. unfold call_xml, act_try, act_bind, await. cbn.
  destruct (rpc_result _); cbn; eexists; (split; [done|]); by eexists.
Qed.

Lemma sends_weaken {T E} (m : Act (S * list Sent) T E) (P Q : Result T E -> list Sent -> Prop) :
  sends m P -> (forall r t, P r t -> Q r t) -> sends m Q.
Proof. intros Hm H w. destruct (Hm w) as (t & Ht & HP). exists t. split; [done|by apply H]. Qed.

End logged.
