(* ===== verification/License.v ===== *)
(** * Feature licenses ([rust-junosmcp-srx-core/src/workflows/license.rs])

    Which of the installed license records belong to a feature, their counts
    and their expiry.  The [time] crate's RFC 3339 parser is a parameter; an
    [OffsetDateTime] is its instant in nanoseconds. *)

From S2P Require Import Prelude RustStr Fmt Errors JsonValue SrxErrors XmlText Async Xml SrxDevice.
From stdpp Require Import sorting.
From Stdlib Require Import Ascii.

Inductive SrxLicensedFeature :=
  | Idp | AppId | UtmAntivirus | WebFiltering | AntiSpam | SecIntel | AtpCloud | SslProxy.

Definition record_patterns (f : SrxLicensedFeature) : list string :=
  match f with
  | Idp => ["idp"; "intrusion"]
  | AppId => ["application identification"; "appid"; "app-id"]
  | UtmAntivirus => ["antivirus"; "av-key"; "av_key"; "anti-virus"]
  | WebFiltering => ["web filtering"; "url filtering"; "web-filtering"]
  | AntiSpam => ["anti-spam"; "antispam"]
  | SecIntel => ["secintel"; "security intelligence"; "sec-intel"]
  | AtpCloud => ["atp cloud"; "sky atp"; "advanced threat"]
  | SslProxy => ["ssl proxy"; "ssl forward proxy"; "ssl-proxy"]
  end.

Definition display_name (f : SrxLicensedFeature) : string :=
  match f with
  | Idp => "idp" | AppId => "app_id" | UtmAntivirus => "utm_antivirus"
  | WebFiltering => "web_filtering" | AntiSpam => "anti_spam" | SecIntel => "sec_intel"
  | AtpCloud => "atp_cloud" | SslProxy => "ssl_proxy"
  end.

Record LicenseArgs := {
  la_router : string;
  la_feature : SrxLicensedFeature;
  la_include_raw : bool
}.
Record LicenseRecord := {
  feature_name : string;
  license_type : string;
  end_date : option Z
}.
Record LicenseCounts := { lc_used : N; lc_installed : N; lc_needed : N }.
Record LicenseData := {
  ld_feature : SrxLicensedFeature;
  license_records : list LicenseRecord;
  counts : LicenseCounts;
  earliest_expiry : option Z;
  all_permanent : bool
}.

Class TimeCrate := { rfc3339_parse : string -> Result Z string }.

Section license.
Context {X : External} {RX : Roxmltree} {TC : TimeCrate}.

Definition byte_is (i : nat) (c : ascii) (s : string) : bool :=
  match str_get i s with Some d => Ascii.eqb d c | None => false end.

Definition strip_suffix (p s : string) : string :=
  if ends_with p s then str_take (String.length s - String.length p) s else s.

(** The date as the code hands it to [time]; [None] is an unrecognised form. *)
Definition junos_date_rfc (s : string) : option string :=
  if (len s =? 19)%N && byte_is 10 " "%char s then
    Some (str_take 10 s ^^ "T" ^^ str_drop 11 s ^^ "+00:00")
  else if (len s =? 10)%N && byte_is 4 "-"%char s && byte_is 7 "-"%char s then
    Some (s ^^ "T23:59:59+00:00")
  else if contains "T" s then Some s
  else None.

Definition junos_date_to_offset (s : string) : Result Z string :=
  let s := trim (strip_suffix " UTC" (trim s)) in
  match junos_date_rfc s with
  | None => Err ("unrecognised Junos date format: " ^^ debug_str s)
  | Some rfc =>
      map_err (fun e => "rfc3339 parse " ^^ debug_str rfc ^^ ": " ^^ e) (rfc3339_parse rfc)
  end.

Definition feature_matches (feature : SrxLicensedFeature) (fs : Node) : bool :=
  let name_lc := to_ascii_lowercase (default "" (child_text fs "name")) in
  existsb (fun p => contains p name_lc) (record_patterns feature).

(** [child_text(a).or_else(|| child_text(b))] *)
Definition child_text_or (fs : Node) (a b : string) : option string :=
  match child_text fs a with Some t => Some t | None => child_text fs b end.
Definition count_of (fs : Node) (a b : string) : N :=
  match child_text_or fs a b with
  | Some t => default 0%N (parse_uint U32_MAX (trim t))
  | None => 0
  end.

Definition license_record (fs : Node) : Result LicenseRecord SrxError :=
  let? end_date :=
    match child_text fs "end-date" with
    | None => Ok None
    | Some s => map_err (fun e => SrxParse ("end-date parse error: " ^^ e))
                  (map_result Some (junos_date_to_offset s))
    end in
  let license_type :=
    match child_text_or fs "license-type" "validity-type" with
    | Some t => t
    | None => if bool_decide (is_Some end_date) then "date-based" else ""
    end in
  Ok {| feature_name := default "" (child_text fs "name"); license_type := license_type;
        end_date := end_date |}.

Definition add_counts (c : LicenseCounts) (fs : Node) : LicenseCounts := {|
  lc_used := sat_add_u32 (lc_used c) (count_of fs "licenses-used" "used-licensed");
  lc_installed := sat_add_u32 (lc_installed c) (count_of fs "licenses-installed" "licensed");
  lc_needed := sat_add_u32 (lc_needed c) (count_of fs "licenses-needed" "needed")
|}.

Definition license_parse (feature : SrxLicensedFeature) (summary_xml : string)
  : Result (SrxToolResponse LicenseData) SrxError :=
  match parse_document (sanitize_rustez_xml summary_xml) with
  | Err e => Err (SrxParse ("roxmltree: " ^^ e))
  | Ok doc =>
      let summaries := List.filter (feature_matches feature)
                         (descendants_named "feature-summary" doc) in
      let? records := collect_results license_record summaries in
      match records with
      | [] => Ok (not_configured (display_name feature ^^ " not present in installed licenses"))
      | _ =>
          Ok (active {|
            ld_feature := feature;
            license_records := records;
            counts := foldl add_counts {| lc_used := 0; lc_installed := 0; lc_needed := 0 |}
                        summaries;
            earliest_expiry := head (merge_sort Z.le (omap end_date records));
            all_permanent := forallb (fun r => negb (bool_decide (is_Some (end_date r)))) records
          |})
      end
  end.

Context {S : Type} {SD : SrxDevice S}.

Definition license_run (args : LicenseArgs) : Act S (SrxToolResponse LicenseData) SrxError :=
  let! _ := require_router (la_router args) in
  let! _ := rpc in
  let! summary := call "get-license-summary-information" [] in
  let! keys := call "get-license-key-information" [] in
  let! parsed := act_ret (license_parse (la_feature args) summary) in
  ok (if la_include_raw args
      then with_raw ("<!-- summary -->" ^^ newline ^^ summary ^^ newline ^^ "<!-- keys -->"
                     ^^ newline ^^ keys) parsed
      else parsed).

End license.
