(* ===== verification/ClusterStatus.v ===== *)
(** * Chassis-cluster status
    ([rust-junosmcp-srx-core/src/workflows/cluster_status.rs])

    The redundancy groups and members a cluster reports, merged over the
    replies of its nodes, and the replies that count as "no cluster". *)

From S2P Require Import Prelude RustStr Fmt Errors JsonValue SrxErrors XmlText Async Xml SrxDevice.
From Stdlib Require Import Ascii.

Record ClusterStatusArgs := { cs_router : string; cs_include_raw : bool }.
Record RgMember := mk_member {
  rm_node : string;
  rm_priority : N;
  rm_status : string;
  preempt : bool;
  manual : bool;
  rm_monitor_failures : list string
}.
Record RedundancyGroup := {
  group_id : N;
  failover_count : N;
  members : list RgMember
}.
Record ClusterNode := {
  cn_name : string;
  cn_priority : N;
  cn_status : string;
  cn_monitor_failures : list string
}.
Record ClusterStatusData := {
  cluster_id : option N;
  nodes : list ClusterNode;
  redundancy_groups : list RedundancyGroup
}.

Definition parse_failures (text : string) : list string :=
  if eq_ignore_ascii_case text "none" || is_empty text then []
  else List.filter (fun s => negb (is_empty s)) (map trim (split_byte ","%char text)).

Definition derive_cluster_nodes (rgs : list RedundancyGroup) : list ClusterNode :=
  match find (fun r => (group_id r =? 0)%N) rgs with
  | None => []
  | Some rg0 =>
      map (fun m => {| cn_name := rm_node m; cn_priority := rm_priority m;
                       cn_status := rm_status m; cn_monitor_failures := rm_monitor_failures m |})
          (members rg0)
  end.

Definition is_error_element (n : Node) : bool :=
  String.eqb (tag_name n) "error" || String.eqb (tag_name n) "rpc-error".
Definition contains_rpc_error (xml : string) : bool :=
  contains "<rpc-error>" xml || contains "<nc:rpc-error>" xml.

Section cluster_status.
Context {X : External} {RX : Roxmltree}.

(** The loop over the error elements' descendants, which returns early. *)
Definition says_not_configured (c : Node) : bool :=
  match text_in (Some c) with
  | None => false
  | Some t =>
      if named "error-tag" c then
        let t := trim t in String.eqb t "not-configured" || String.eqb t "data-missing"
      else if named "message" c then
        let lower := to_ascii_lowercase t in
        contains "not enabled" lower || contains "not configured" lower
      else false
  end.

Definition is_not_configured_xml (xml : string) : Result bool SrxError :=
  match parse_document xml with
  | Err e => Err (SrxParse ("roxmltree: " ^^ e))
  | Ok root =>
      let root_is_error := is_error_element root in
      let child_errors :=
        List.filter (fun n => is_element n && is_error_element n) (children root) in
      let any_error := root_is_error || negb (bool_decide (child_errors = [])) in
      if bool_decide (is_Some (descendant "chassis-cluster-status" root)) then Ok false
      else if negb any_error then Ok false
      else
        let error_nodes := if root_is_error then [root] else child_errors in
        if existsb says_not_configured
             (List.filter is_element (concat (map descendants error_nodes)))
        then Ok true
        else Ok true
  end.

(** One element of [<device-stats>], applied to the members read so far. *)
Definition stats_child (ms : list RgMember) (c : Node) : list RgMember :=
  let text := trim (default "" (text_in (Some c))) in
  let tag := tag_name c in
  if String.eqb tag "device-name" then ms ++ [mk_member text 0 "" false false []]
  else
    match reverse ms with
    | [] => ms
    | m :: before =>
        let m :=
          if String.eqb tag "device-priority" then
            mk_member (rm_node m) (default 0%N (parse_uint U16_MAX text)) (rm_status m)
              (preempt m) (manual m) (rm_monitor_failures m)
          else if String.eqb tag "redundancy-group-status" then
            mk_member (rm_node m) (rm_priority m) text (preempt m) (manual m)
              (rm_monitor_failures m)
          else if String.eqb tag "preempt" then
            mk_member (rm_node m) (rm_priority m) (rm_status m)
              (eq_ignore_ascii_case text "yes") (manual m) (rm_monitor_failures m)
          else if String.eqb tag "failover-mode" then
            mk_member (rm_node m) (rm_priority m) (rm_status m) (preempt m)
              (eq_ignore_ascii_case text "yes") (rm_monitor_failures m)
          else if String.eqb tag "monitor-failures" then
            mk_member (rm_node m) (rm_priority m) (rm_status m) (preempt m) (manual m)
              (parse_failures text)
          else m in
        reverse (m :: before)
    end.

Definition parse_device_stats (rg_node : Node) : list RgMember :=
  match child "device-stats" rg_node with
  | None => []
  | Some stats => foldl stats_child [] (List.filter is_element (children stats))
  end.

Definition rg_mismatch {T} (element : string) : Result T SrxError :=
  Err (schema_mismatch "get-chassis-cluster-status" element).

Definition parse_group (rg_node : Node) : Result RedundancyGroup SrxError :=
  let? group_id :=
    match text_in (child "redundancy-group-id" rg_node) with
    | None => rg_mismatch "redundancy-group-id"
    | Some t =>
        match parse_uint U16_MAX (trim t) with
        | Some n => Ok n
        | None => rg_mismatch "redundancy-group-id"
        end
    end in
  let? failovers :=
    match text_in (child "redundancy-group-failover-count" rg_node) with
    | None => Ok 0%N
    | Some t =>
        match parse_uint U32_MAX (trim t) with
        | Some n => Ok n
        | None => rg_mismatch "redundancy-group-failover-count"
        end
    end in
  Ok {| group_id := group_id; failover_count := failovers;
        members := parse_device_stats rg_node |}.

Definition has_member (ms : list RgMember) (m : RgMember) : bool :=
  existsb (fun em => String.eqb (rm_node em) (rm_node m)) ms.
Definition add_member (ms : list RgMember) (m : RgMember) : list RgMember :=
  if has_member ms m then ms else ms ++ [m].

(** Merge a group into those seen: the first report of a member wins. *)
Fixpoint merge_group (rgs : list RedundancyGroup) (rg : RedundancyGroup)
  : list RedundancyGroup :=
  match rgs with
  | [] => [rg]
  | existing :: rest =>
      if (group_id existing =? group_id rg)%N
      then {| group_id := group_id existing; failover_count := failover_count existing;
              members := foldl add_member (members existing) (members rg) |} :: rest
      else existing :: merge_group rest rg
  end.

Fixpoint merge_groups (rgs : list RedundancyGroup) (rg_nodes : list Node)
  : Result (list RedundancyGroup) SrxError :=
  match rg_nodes with
  | [] => Ok rgs
  | n :: rest => let? rg := parse_group n in merge_groups (merge_group rgs rg) rest
  end.

(** One node's reply: the cluster id, first found, and the groups. *)
Definition parse_re_node (acc : option N * list RedundancyGroup) (re : ReNode)
  : Result (option N * list RedundancyGroup) SrxError :=
  let (cid, rgs) := acc in
  if contains_rpc_error (inner_xml re) then Ok acc else
  match parse_document (inner_xml re) with
  | Err e => Err (SrxParse ("roxmltree: " ^^ e))
  | Ok doc =>
      match descendant "chassis-cluster-status" doc with
      | None => Ok acc
      | Some css =>
          let cid :=
            match cid, text_in (child "cluster-id" css) with
            | None, Some t => parse_uint U16_MAX (trim t)
            | _, _ => cid
            end in
          let? rgs := merge_groups rgs (children_named "redundancy-group" css) in
          Ok (cid, rgs)
      end
  end.

Fixpoint parse_re_nodes (acc : option N * list RedundancyGroup) (res : list ReNode)
  : Result (option N * list RedundancyGroup) SrxError :=
  match res with
  | [] => Ok acc
  | re :: rest => let? acc := parse_re_node acc re in parse_re_nodes acc rest
  end.

Definition cluster_parse (reply_xml : string) : Result (SrxToolResponse ClusterStatusData) SrxError :=
  let? unconfigured := is_not_configured_xml reply_xml in
  if unconfigured then Ok (not_configured "chassis cluster disabled") else
  let? re_nodes := multi_re_split reply_xml in
  let? acc := parse_re_nodes (None, []) re_nodes in
  match acc with
  | (None, []) => Ok (not_configured "chassis cluster disabled")
  | (cid, rgs) =>
      Ok (active {| cluster_id := cid; nodes := derive_cluster_nodes rgs;
                    redundancy_groups := rgs |})
  end.

Context {S : Type} {SD : SrxDevice S}.

Definition cluster_run (args : ClusterStatusArgs)
  : Act S (SrxToolResponse ClusterStatusData) SrxError :=
  let! _ := require_router (cs_router args) in
  let! _ := rpc in
  let! reply := call "get-chassis-cluster-status" [] in
  let! parsed := act_ret (cluster_parse reply) in
  ok (if cs_include_raw args then with_raw reply parsed else parsed).

End cluster_status.
