(* ===== verification/SrxReader.v ===== *)
(** * What the SRX readers share ([rust-junosmcp-srx-core/src/workflows/config_fetch.rs])

    Fetching a part of the configuration, parsing a node's reply, and choosing
    the first node of a cluster whose reply is not an error. *)

From S2P Require Import Prelude RustStr Fmt Errors JsonValue SrxErrors XmlText Xml Async SrxDevice.
From Stdlib Require Import Ascii.

(** The crate [ipnet]: its prefixes, and their parser. *)
Class IpNetCrate := { IpNet : Type; ipnet_parse : string -> option IpNet }.

(** [split_once(c)] *)
Definition split_once (c : ascii) (s : string) : option (string * string) :=
  match find_byte (Ascii.eqb c) s with
  | Some (before, rest) => Some (before, str_drop 1 rest)
  | None => None
  end.

(** [ensure_single_root]: several top-level elements get one around them. *)
Definition ensure_single_root `{Roxmltree} (xml : string) : string :=
  if is_ok (parse_document xml) then xml else "<_>" ^^ xml ^^ "</_>".

(** An option that is [Some] of a result, turned inside out ([transpose]). *)
Definition transpose {A T E} (f : A -> Result T E) (o : option A) : Result (option T) E :=
  match o with Some a => map_result Some (f a) | None => Ok None end.

Section reader.
Context {X : External} {RX : Roxmltree}.

(** [Document::parse(s).map_err(..)?] *)
Definition roxml (s : string) : Result Node SrxError :=
  map_err (fun e => SrxParse ("roxmltree: " ^^ e)) (parse_document s).

Definition child_elements (n : Node) : list Node := List.filter is_element (children n).
(** [child_text(n, tag).ok_or_else(..)] *)
Definition require_text (rpc : string) (n : Node) (tag element : string)
  : Result string SrxError :=
  ok_or (schema_mismatch rpc element) (child_text n tag).
(** [n.children().find(..).ok_or_else(..)] *)
Definition require_child (rpc : string) (n : Node) (tag element : string)
  : Result Node SrxError :=
  ok_or (schema_mismatch rpc element) (child tag n).
(** The text of a child, unfiltered. *)
Definition text_child (n : Node) (tag : string) : option string := trimmed_text (child tag n).
(** [child_text(n, tag).and_then(|t| t.parse().ok())] *)
Definition child_uint (max : N) (n : Node) (tag : string) : option N :=
  match child_text n tag with Some t => parse_uint max t | None => None end.

Definition is_inactive (n : Node) : bool := bool_decide (attribute "inactive" n = Some "inactive").

(** A node that answers [not-configured] is passed over; any other error of a
    node is the answer's. *)
Fixpoint first_usable (nodes : list ReNode) : Result (option ReNode) SrxError :=
  match nodes with
  | [] => Ok None
  | re_node :: rest =>
      let? doc := roxml (sanitize_rustez_xml (inner_xml re_node)) in
      match rpc_error_parts doc with
      | Some (tag, message) =>
          if String.eqb tag "not-configured" then first_usable rest
          else Err (SrxRpc tag "error" message)
      | None => Ok (Some re_node)
      end
  end.
Definition first_usable_node (reply_xml : string) : Result (option ReNode) SrxError :=
  let? re_nodes := multi_re_split reply_xml in first_usable re_nodes.

Definition get_configuration_envelope (filter_inner : string) : string :=
  "<get-configuration inherit=" ^^ dquote ^^ "inherit" ^^ dquote ^^ "><configuration>"
  ^^ filter_inner ^^ "</configuration></get-configuration>".

Context {S : Type} {SD : SrxDevice S}.

Definition get_configuration_subtree (filter_inner : string) : Act S string SrxError :=
  call_xml (get_configuration_envelope filter_inner).

End reader.

(** ** A loop that may fail *)

Fixpoint try_fold {A B E} (f : B -> A -> Result B E) (b : B) (l : list A) : Result B E :=
  match l with
  | [] => Ok b
  | a :: l => let? b := f b a in try_fold f b l
  end.

Lemma try_fold_app {A B E} (f : B -> A -> Result B E) b l l' :
  try_fold f b (l ++ l') = (let? b := try_fold f b l in try_fold f b l').
Proof.
  revert b. induction l as [|a l IH]; intros b; [done|]. cbn. destruct (f b a); [apply IH|done].
Qed.

(** An invariant of the steps is one of the loop. *)
Lemma try_fold_inv {A B E} (P : B -> Prop) (f : B -> A -> Result B E) l b b' :
  (forall b a b', a ∈ l -> P b -> f b a = Ok b' -> P b') ->
  P b -> try_fold f b l = Ok b' -> P b'.
Proof.
  revert b. induction l as [|a l IH]; intros b Hf Hb; cbn.
  - by intros [= <-].
  - destruct (f b a) as [b1|] eqn:Hfa; [|done]. apply IH.
    + intros b0 a0 b0' Hin. apply Hf. by right.
    + apply (Hf b a); [by left|done|done].
Qed.

(** ** IP protocols ([rust-junosmcp-srx-core/src/protocol.rs]) *)

Inductive Protocol := Tcp | Udp | Icmp | Other (n : N).

Definition protocol_parse {X : External} (s : string) : Result Protocol SrxError :=
  let trimmed := trim s in
  match to_ascii_lowercase trimmed with
  | "tcp" => Ok Tcp
  | "udp" => Ok Udp
  | "icmp" => Ok Icmp
  | _ =>
      map_result Other
        (ok_or (SrxInvalidInput
                  ("unrecognised protocol: expected tcp, udp, icmp, or a numeric IANA protocol "
                   ^^ "number 0-255"))
           (parse_uint U8_MAX trimmed))
  end.

Definition rpc_value (p : Protocol) : string :=
  match p with Tcp => "tcp" | Udp => "udp" | Icmp => "icmp" | Other n => dec n end.
