(* ===== verification/Resolve.v ===== *)
(** * Nested sets of the configuration ([rust-junosmcp-srx-core/src/workflows/resolve.rs])

    A set names other sets and leaves.  [resolve] walks the names below one,
    refusing cycles, missing names and nesting past a limit, and returns the
    leaves in the order they are first met.  Its properties follow. *)

From S2P Require Import Prelude RustStr Fmt Errors SrxErrors SrxReader.
From stdpp Require Import gmap.

(** The second constructor is the source's [Set]. *)
Inductive ConfigNode (L : Type) :=
  | Leaf (l : L)
  | SetOf (members : list string).
Arguments Leaf {L}.
Arguments SetOf {L}.

Definition MAX_RESOLUTION_DEPTH : nat := 16.

(** What the walk accumulates: the names of the leaves met, and the leaves. *)
Record Walked (L : Type) := { seen : gset string; out : list (string * L) }.
Arguments seen {L}.
Arguments out {L}.

Section resolve.
Context {X : External} {L : Type}.
Context (router : string) (nodes : gmap string (ConfigNode L)) (book : string).

Definition push_leaf (name : string) (l : L) (w : Walked L) : Walked L :=
  if bool_decide (name ∈ seen w) then w
  else {| seen := {[ name ]} ∪ seen w; out := out w ++ [(name, l)] |}.

(** [levels] is [MAX_RESOLUTION_DEPTH + 1 - depth], the levels that may still be
    entered; at none, the depth is past the limit. *)
Fixpoint walk (levels : nat) (path : list string) (w : Walked L) (name : string)
  : Result (Walked L) SrxError :=
  match levels with
  | 0 => Err (ResolutionDepthExceeded router name (N.of_nat MAX_RESOLUTION_DEPTH))
  | S levels =>
      match list_find (fun n => n = name) path with
      | Some (pos, _) =>
          Err (ResolutionCycle router name (RustStr.join " -> " (drop pos path ++ [name])))
      | None =>
          match nodes !! name with
          | None => Err (ResolutionNameNotFound router name book)
          | Some (Leaf l) => Ok (push_leaf name l w)
          | Some (SetOf members) => try_fold (walk levels (path ++ [name])) w members
          end
      end
  end.

Definition resolve (root : string) (cap : N) : Result (list (string * L) * bool) SrxError :=
  let? w := walk (S MAX_RESOLUTION_DEPTH) [] {| seen := ∅; out := [] |} root in
  let out := out w in
  let truncated := (cap <? N.of_nat (length out))%N in
  Ok (if truncated then take (N.to_nat cap) out else out, truncated).

End resolve.

(** ** What resolution answers ([rust-junosmcp-srx-core/src/workflows/resolve.rs])

    Resolution succeeds exactly when every name below the requested one is
    defined at a depth within the limit, and then returns each leaf below it
    once; each of its errors is true of the configuration. *)

(** [b] is [d] levels below [a]. *)
Inductive Below {L} (nodes : gmap string (ConfigNode L)) : nat -> string -> string -> Prop :=
  | below_self a : Below nodes 0 a a
  | below_member d a ms m b :
      nodes !! a = Some (SetOf ms) -> m ∈ ms -> Below nodes d m b -> Below nodes (S d) a b.

Section spec.
Context {X : External} {L : Type}.
Context (router : string) (nodes : gmap string (ConfigNode L)) (book : string).

#[local] Abbreviation Below := (Below nodes).
#[local] Abbreviation walk := (walk router nodes book).

Lemma below_trans d e a b c : Below d a b -> Below e b c -> Below (d + e) a c.
Proof. induction 1; intros Hc; [done|]. eapply below_member; eauto. Qed.

Lemma below_leaf d a b l : nodes !! a = Some (Leaf l) -> Below d a b -> d = 0 /\ b = a.
Proof. intros Ha H. inversion H; subst; [done|congruence]. Qed.

(** A cycle reaches every depth. *)
Lemma below_cycle d a : 0 < d -> Below d a a -> forall n, exists e, n <= e /\ Below e a a.
Proof.
  intros Hd H n. induction n as [|n (e & He & Hb)].
  - by exists d; split; [lia|].
  - exists (d + e). split; [lia|]. by eapply below_trans.
Qed.

(** What the walk has collected. *)
Definition collected (w : Walked L) : Prop :=
  NoDup (map fst (out w)) /\ (forall x, x ∈ seen w <-> x ∈ map fst (out w)) /\
  Forall (fun xl => nodes !! xl.1 = Some (Leaf xl.2)) (out w).

Definition leaf_below (a x : string) : Prop :=
  exists d l, Below d a x /\ nodes !! x = Some (Leaf l).

(** The walk from [names] added the leaves below them and nothing else. *)
Definition walked_from (names : list string) (w w' : Walked L) : Prop :=
  collected w' /\
  (forall x, x ∈ map fst (out w') <-> x ∈ map fst (out w) \/ exists a, a ∈ names /\ leaf_below a x).

Definition within (levels : nat) (a : string) : Prop :=
  forall d b, Below d a b -> d < levels /\ is_Some (nodes !! b).

(** What an error says of the names below [a], [k] levels down a path. *)
Definition explains (k : nat) (a : string) (e : SrxError) : Prop :=
  match e with
  | ResolutionNameNotFound r x bk =>
      r = router /\ bk = book /\ nodes !! x = None /\ exists d, Below d a x
  | ResolutionCycle r x _ =>
      r = router /\ (exists d, Below d a x) /\ exists d, 0 < d /\ Below d x x
  | ResolutionDepthExceeded r x m =>
      r = router /\ m = N.of_nat MAX_RESOLUTION_DEPTH /\ Below k a x
  | _ => False
  end.

Lemma one_name {A} (P : A -> Prop) a : (exists b, b ∈ [a] /\ P b) <-> P a.
Proof.
  split; [by intros (b & ->%list_elem_of_singleton & H)|]. intros H. exists a.
  split; [by apply list_elem_of_singleton|done].
Qed.

Lemma push_leaf_spec name l w :
  nodes !! name = Some (Leaf l) -> collected w -> walked_from [name] w (push_leaf name l w).
Proof.
  intros Hl (Hnd & Hseen & Hall). unfold push_leaf.
  assert (Hbelow : forall x, leaf_below name x <-> x = name).
  { intros x. split; [|intros ->; exists 0, l; split; [constructor|done]].
    intros (d & l' & Hb & _). by eapply below_leaf in Hb as []. }
  case_bool_decide as Hin.
  - split; [done|]. intros x. rewrite one_name, Hbelow. split; [tauto|].
    intros [?| ->]; [done|]. by apply Hseen.
  - split.
    + repeat split; cbn; rewrite ?map_app; cbn.
      * apply NoDup_app. repeat split; [done| |apply NoDup_singleton].
        intros x Hx Hn%list_elem_of_singleton. subst. by apply Hin, Hseen.
      * rewrite elem_of_union, elem_of_singleton, elem_of_app, list_elem_of_singleton, Hseen. tauto.
      * rewrite elem_of_union, elem_of_singleton, elem_of_app, list_elem_of_singleton, Hseen. tauto.
      * apply Forall_app. by repeat constructor.
    + intros x. cbn. rewrite map_app, elem_of_app, one_name, Hbelow. cbn.
      by rewrite list_elem_of_singleton.
Qed.

(** The members of a set, one after the other. *)
Lemma members_spec levels path ms w :
  (forall m w, m ∈ ms -> collected w ->
     match walk levels path w m with
     | Ok w' => walked_from [m] w w' /\ within levels m
     | Err e => explains levels m e
     end) ->
  collected w ->
  match try_fold (walk levels path) w ms with
  | Ok w' => walked_from ms w w' /\ forall m, m ∈ ms -> within levels m
  | Err e => exists m, m ∈ ms /\ explains levels m e
  end.
Proof.
  revert w. induction ms as [|m ms IH]; intros w Hstep Hw; cbn [try_fold].
  { split; [|by intros m Hm%elem_of_nil]. split; [done|]. intros x.
    split; [tauto|]. intros [?|(a & Ha%elem_of_nil & _)]; done. }
  pose proof (Hstep m w ltac:(by left) Hw) as Hm.
  destruct (walk levels path w m) as [w1|e]; [|exists m; split; [by left|done]].
  destruct Hm as [[Hw1 Hout1] Hin]. specialize (IH w1). destruct (try_fold _ w1 ms) as [w2|e].
  - destruct IH as [[Hw2 Hout2] Hrest]; [intros; apply Hstep; [by right|done]|done|].
    split; [|intros m' [->|Hm']%elem_of_cons; [done|by apply Hrest]].
    split; [done|]. intros x. rewrite Hout2, Hout1. split.
    + intros [[?|(a & Ha%list_elem_of_singleton & ?)]|(a & ? & ?)]; [by left| |];
        right; exists a; subst; split; try done; [by left|by right].
    + intros [?|(a & [->|Ha]%elem_of_cons & ?)]; [by do 2 left| |]; [left|]; right; eexists; split; eauto.
      by apply list_elem_of_singleton.
  - destruct IH as (m' & ? & ?); [intros; apply Hstep; [by right|done]|done|].
    exists m'. split; [by right|done].
Qed.

Lemma explains_member levels a ms m e :
  nodes !! a = Some (SetOf ms) -> m ∈ ms -> explains levels m e -> explains (S levels) a e.
Proof.
  intros Ha Hm. destruct e; cbn; try done.
  - intros (? & (d & ?) & ?). repeat split; try done. exists (S d). by eapply below_member.
  - intros (? & ? & ?). repeat split; try done. by eapply below_member.
  - intros (? & ? & ? & d & ?). repeat split; try done. exists (S d). by eapply below_member.
Qed.

Lemma within_member levels a ms :
  nodes !! a = Some (SetOf ms) -> (forall m, m ∈ ms -> within levels m) -> within (S levels) a.
Proof.
  intros Ha Hms d b Hb. inversion Hb as [|d' ? ms' m ? Ha' Hm Hb']; subst; [split; [lia|by eexists]|].
  assert (ms' = ms) as -> by congruence. destruct (Hms m Hm d' b Hb') as [? ?]. split; [lia|done].
Qed.

Lemma walked_set a ms w w' :
  nodes !! a = Some (SetOf ms) -> walked_from ms w w' -> walked_from [a] w w'.
Proof.
  intros Ha [Hw Hout]. split; [done|]. intros x. rewrite Hout, one_name.
  split; (intros [?|H]; [by left|right]).
  - destruct H as (m & Hm & d & l & Hb & Hl). exists (S d), l. split; [by eapply below_member|done].
  - destruct H as (d & l & Hb & Hl). inversion Hb as [|d' ? ms' m ? Ha' Hm Hb']; subst.
    + congruence.
    + assert (ms' = ms) as -> by congruence. exists m. split; [done|]. by exists d', l.
Qed.

Lemma walk_spec levels path w name :
  (forall p, p ∈ path -> exists d, 0 < d /\ Below d p name) -> collected w ->
  match walk levels path w name with
  | Ok w' => walked_from [name] w w' /\ within levels name
  | Err e => explains levels name e
  end.
Proof.
  revert path w name. induction levels as [|levels IH]; intros path w name Hpath Hw; cbn [Resolve.walk].
  { repeat split. constructor. }
  destruct (list_find _ path) as [[pos n]|] eqn:Hf.
  { apply list_find_Some in Hf as (Hn%list_elem_of_lookup_2 & -> & _). repeat split.
    - exists 0. constructor.
    - by apply Hpath. }
  destruct (nodes !! name) as [[l|ms]|] eqn:Hn.
  - split; [by apply push_leaf_spec|]. intros d b Hb.
    eapply below_leaf in Hb as [-> ->]; [|done]. split; [lia|by eexists].
  - pose proof (members_spec levels (path ++ [name]) ms w) as Hms.
    assert (Hstep : forall m w, m ∈ ms -> collected w ->
      match walk levels (path ++ [name]) w m with
      | Ok w' => walked_from [m] w w' /\ within levels m
      | Err e => explains levels m e
      end).
    { intros m w0 Hm. apply IH. intros p [Hp| ->%list_elem_of_singleton]%elem_of_app.
      - destruct (Hpath p Hp) as (d & Hd & Hb). exists (d + 1). split; [lia|].
        eapply below_trans; [done|]. eapply below_member; [done|done|constructor].
      - exists 1. split; [lia|]. eapply below_member; [done|done|constructor]. }
    specialize (Hms Hstep Hw). destruct (try_fold _ w ms) as [w'|e].
    + destruct Hms as [? ?]. split; [by eapply walked_set|by eapply within_member].
    + destruct Hms as (m & ? & ?). by eapply explains_member.
  - repeat split; [done|]. exists 0. constructor.
Qed.

(** The walk from the root. *)
Lemma root_walk root :
  match walk (S MAX_RESOLUTION_DEPTH) [] {| seen := ∅; out := [] |} root with
  | Ok w' => walked_from [root] {| seen := ∅; out := [] |} w' /\ within (S MAX_RESOLUTION_DEPTH) root
  | Err e => explains (S MAX_RESOLUTION_DEPTH) root e
  end.
Proof.
  apply walk_spec; [by intros p Hp%elem_of_nil|].
  repeat split; cbn; [constructor|set_solver|set_solver|done].
Qed.

(** C32: Resolving a name answers with all its leaves or with the reason it
    cannot.  When it succeeds, every name below the requested one is defined and
    none is more than 16 levels down (so there is no cycle), and what is
    returned is, cut at the cap and with [truncated] saying whether it was, a
    list of the leaves below the name, each exactly once with its configured
    value.  When it fails, the error is true: the name reported missing is below
    the requested one and undefined, the one reported on a cycle reaches itself,
    the one reported too deep is 17 levels down. *)
Theorem resolve_spec root cap :
  match resolve router nodes book root cap with
  | Ok (leaves, truncated) =>
      within (S MAX_RESOLUTION_DEPTH) root /\
      exists all,
        NoDup (map fst all) /\
        (forall x l, (x, l) ∈ all <-> nodes !! x = Some (Leaf l) /\ exists d, Below d root x) /\
        truncated = (cap <? N.of_nat (length all))%N /\
        leaves = take (N.to_nat cap) all
  | Err e => explains (S MAX_RESOLUTION_DEPTH) root e
  end.
Proof.
  pose proof (root_walk root) as H.
  unfold resolve. destruct (walk _ _ _ root) as [w|e].
  - destruct H as [[(Hnd & Hseen & Hall) Hout] Hin].
    split; [done|]. exists (out w). split_and!.
    * done.
    * intros x l. split.
      -- intros Hx. assert (nodes !! x = Some (Leaf l)) as Hl.
         { rewrite Forall_forall in Hall. apply (Hall _ Hx). }
         split; [done|]. apply (list_elem_of_fmap_2 fst) in Hx. cbn in Hx.
         apply Hout in Hx as [Hx%elem_of_nil|(a & Ha%list_elem_of_singleton & d & l' & Hb & _)]; [done|].
         subst. by exists d.
      -- intros [Hl (d & Hb)]. assert (x ∈ map fst (out w)) as Hx.
         { apply Hout. right. exists root. split; [by apply list_elem_of_singleton|]. by exists d, l. }
         apply list_elem_of_fmap in Hx as ([x' l'] & -> & Hx).
         rewrite Forall_forall in Hall. pose proof (Hall _ Hx) as Hl'. cbn in *.
         assert (l' = l) as -> by congruence. done.
    * done.
    * cbn. destruct (cap <? _)%N eqn:Hc; [done|]. rewrite take_ge; [done|]. apply N.ltb_ge in Hc. lia.
  - done.
Qed.

(** So resolution succeeds exactly on the names all of whose members are
    defined, within the limit. *)
Lemma resolve_ok_iff root cap :
  is_ok (resolve router nodes book root cap) = true <-> within (S MAX_RESOLUTION_DEPTH) root.
Proof.
  pose proof (root_walk root) as H.
  unfold resolve. destruct (walk _ _ _ root) as [w|e].
  - split; [|done]. intros _. apply H.
  - split; [done|]. intros Hin. exfalso.
    destruct e; cbn in H; try done.
    + destruct H as (_ & (d & Hb) & d' & Hd' & Hc).
      destruct (below_cycle d' name Hd' Hc (S MAX_RESOLUTION_DEPTH)) as (e & He & Hbe).
      destruct (Hin _ _ (below_trans _ _ _ _ _ Hb Hbe)). lia.
    + destruct H as (_ & _ & Hb). destruct (Hin _ _ Hb). lia.
    + destruct H as (_ & _ & Hn & d & Hb). destruct (Hin _ _ Hb) as [_ [? ?]]. congruence.
Qed.

End spec.
