(* ===== verification/ResolveAddress.v ===== *)
(** * Address-book resolution
    ([rust-junosmcp-srx-core/src/workflows/resolve_address.rs])

    The address books of a configuration (the global one, each zone's own, and
    named ones attached to zones), which of them a request is resolved in, and
    the concrete addresses below a name. *)

From S2P Require Import Prelude RustStr Fmt Errors NetAddr JsonValue SrxErrors XmlText Xml Async SrxDevice.
From S2P Require Import SrxDevice SrxReader Resolve.
From stdpp Require Import gmap.

Definition DEFAULT_ADDRESS_MEMBER_CAP : N := 1000.
Definition ADDRESS_FILTER : string :=
  "<security><address-book/><zones><security-zone><address-book/></security-zone></zones></security>".

Inductive AddressScope :=
  | Global
  | Zone (zone book : string).
Inductive AddressKind := Address | AddressSet.

Section address.
Context {X : External} {RX : Roxmltree} {IN : IpNetCrate}.

Inductive AddressValue :=
  | Prefix (prefix : IpNet)
  | Range (start stop : IpAddr)
  | Wildcard (address : string)
  | Dns (name : string).
Record ResolvedAddress := {
  ra_name : string; ra_value : AddressValue; ra_active : bool
}.
Record AddressResolution := {
  requested : string;
  scope : AddressScope;
  kind : AddressKind;
  members : list ResolvedAddress;
  truncated : bool
}.
#[local] Abbreviation Book := (gmap string (ConfigNode ResolvedAddress)).

#[local] Abbreviation mismatch := (schema_mismatch "get-configuration").

Definition parse_ip (what text : string) : Result IpAddr SrxError :=
  ok_or (SrxParse ("invalid " ^^ what ^^ ": " ^^ text)) (parse_ip_addr text).

Definition parse_range (range_node : Node) : Result AddressValue SrxError :=
  let? start := ok_or (mismatch "range-address/name") (child_text range_node "name") in
  let? upper_node := ok_or (mismatch "range-address-upper") (child "range-address-upper" range_node) in
  let? stop := ok_or (mismatch "range-address-upper/name") (child_text upper_node "name") in
  let? start_ip := parse_ip "range start" start in
  let? end_ip := parse_ip "range end" stop in
  Ok (Range start_ip end_ip).

Definition parse_address_value (addr_node : Node) : Result AddressValue SrxError :=
  match child_text addr_node "ip-prefix" with
  | Some prefix =>
      let? net := ok_or (SrxParse ("invalid ip-prefix: " ^^ prefix)) (ipnet_parse prefix) in
      Ok (Prefix net)
  | None =>
      match child "range-address" addr_node with
      | Some range_node => parse_range range_node
      | None =>
          match child "wildcard-address" addr_node with
          | Some wc_node =>
              map_result Wildcard
                (ok_or (mismatch "wildcard-address/name") (child_text wc_node "name"))
          | None =>
              match child "dns-name" addr_node with
              | Some dns_node =>
                  map_result Dns (ok_or (mismatch "dns-name/name") (child_text dns_node "name"))
              | None =>
                  Err (mismatch
                    "address value (ip-prefix|range-address|wildcard-address|dns-name)")
              end
          end
      end
  end.

(** The names a set lists. *)
Definition set_members (tags : list string) (n : Node) : list string :=
  omap (fun m => child_text m "name")
    (List.filter (fun m => existsb (String.eqb (tag_name m)) tags) (child_elements n)).

(** One element of a book. *)
Definition book_entry (map : Book) (e : Node) : Result Book SrxError :=
  if String.eqb (tag_name e) "address" then
    let? name := ok_or (mismatch "address/name") (child_text e "name") in
    let? value := parse_address_value e in
    let active := negb (is_inactive e) in
    Ok (<[name := Leaf {| ra_name := name; ra_value := value; ra_active := active |}]> map)
  else if String.eqb (tag_name e) "address-set" then
    let? name := ok_or (mismatch "address-set/name") (child_text e "name") in
    Ok (<[name := SetOf (set_members ["address"; "address-set"] e)]> map)
  else Ok map.
Definition parse_address_book (book_node : Node) : Result Book SrxError :=
  try_fold book_entry ∅ (child_elements book_node).

Record AddressBooks := {
  global : Book;
  zone_inline : gmap string Book;
  named_books : gmap string Book;
  attach : gmap string string
}.

Definition resolve_zone (books : AddressBooks) (zone : string) : option (string * Book) :=
  match zone_inline books !! zone with
  | Some m => Some (zone ^^ " (zone-inline)", m)
  | None =>
      let attached :=
        match attach books !! zone with
        | Some book_name => pair book_name <$> named_books books !! book_name
        | None => None
        end in
      match attached with
      | Some r => Some r
      | None => if bool_decide (global books = ∅) then None else Some ("global", global books)
      end
  end.

(** The zones a named book is attached to. *)
Definition attached_zones (book : Node) : list string :=
  concat (map (fun attach_node =>
    omap (fun zone_node => trim <$> node_text zone_node) (children_named "zone" attach_node))
    (children_named "attach" book)).

(** One top-level book. *)
Definition top_book (books : AddressBooks) (book : Node) : Result AddressBooks SrxError :=
  let book_name := default "" (child_text book "name") in
  if String.eqb book_name "global" || is_empty book_name then
    let? entries := parse_address_book book in
    Ok {| global := entries ∪ global books; zone_inline := zone_inline books;
          named_books := named_books books; attach := attach books |}
  else
    let attach := foldl (fun m zone_name => <[zone_name := book_name]> m) (attach books)
                    (attached_zones book) in
    let? entries := parse_address_book book in
    Ok {| global := global books; zone_inline := zone_inline books;
          named_books := <[book_name := entries]> (named_books books); attach := attach |}.

(** One [<security-zone>]. *)
Definition zone_book (books : AddressBooks) (zone_node : Node) : Result AddressBooks SrxError :=
  let? zone_name := ok_or (mismatch "security-zone/name") (child_text zone_node "name") in
  match child "address-book" zone_node with
  | Some book =>
      let? entries := parse_address_book book in
      Ok {| global := global books; zone_inline := <[zone_name := entries]> (zone_inline books);
            named_books := named_books books; attach := attach books |}
  | None => Ok books
  end.

Definition no_books : AddressBooks :=
  {| global := ∅; zone_inline := ∅; named_books := ∅; attach := ∅ |}.

Definition parse_address_books (config_xml : string) : Result AddressBooks SrxError :=
  let? doc := roxml (sanitize_rustez_xml config_xml) in
  let tops := concat (map (children_named "address-book") (descendants_named "security" doc)) in
  let? books := try_fold top_book no_books tops in
  try_fold zone_book books (descendants_named "security-zone" doc).

(** The book a request is resolved in, with its scope and label; the reason,
    when there is none. *)
Definition chosen_book (books : AddressBooks) (name : string) (zone : option string)
  : Result (Book * AddressScope * string) string :=
  match zone with
  | Some z =>
      match resolve_zone books z with
      | Some (book_name, m) =>
          if bool_decide (m !! name = None) && bool_decide (is_Some (global books !! name)) then
            Ok (global books, Zone z "global", "global address-book (zone '" ^^ z ^^ "')")
          else
            Ok (m, Zone z book_name,
                "address-book '" ^^ book_name ^^ "' (zone '" ^^ z ^^ "')")
      | None =>
          Err ("zone '" ^^ z ^^ "' has no address-book configured (no inline book, no book "
               ^^ "attached to it, and no global book)")
      end
  | None =>
      if bool_decide (global books = ∅) then Err "no global address-book configured"
      else Ok (global books, Global, "global address-book")
  end.

Definition address_parse (router name : string) (zone : option string) (reply_xml : string)
  : Result (SrxToolResponse AddressResolution) SrxError :=
  let? node := first_usable_node reply_xml in
  match node with
  | None => Ok (not_configured "no node returned address-book configuration without an error")
  | Some node =>
      let? books := parse_address_books (inner_xml node) in
      match chosen_book books name zone with
      | Err reason => Ok (not_configured reason)
      | Ok (map, scope, book_label) =>
          let? kind :=
            match map !! name with
            | Some (Leaf _) => Ok Address
            | Some (SetOf _) => Ok AddressSet
            | None => Err (ResolutionNameNotFound router name book_label)
            end in
          let? (leaves, truncated) :=
            resolve router map book_label name DEFAULT_ADDRESS_MEMBER_CAP in
          Ok (active {| requested := name; scope := scope; kind := kind;
                        members := leaves.*2; truncated := truncated |})
      end
  end.

Context {S : Type} {SD : SrxDevice S}.

Definition address_run (args : AddressResolveArgs)
  : Act S (SrxToolResponse AddressResolution) SrxError :=
  let! _ := require_router (ar_router args) in
  let! _ := if is_empty (trim (ar_name args)) then err (SrxInvalidInput "name must not be empty")
            else ok tt in
  let! _ := rpc in
  let! reply := get_configuration_subtree ADDRESS_FILTER in
  let! parsed := act_ret (address_parse (ar_router args) (ar_name args) (ar_zone args) reply) in
  ok (if ar_include_raw args then with_raw reply parsed else parsed).

End address.
