(* ===== verification/ResolveApplication.v ===== *)
(** * Application resolution
    ([rust-junosmcp-srx-core/src/workflows/resolve_application.rs])

    The applications and application sets of a configuration over the compiled-in
    [junos-*] defaults, and the match criteria of the applications below a name,
    read only when the walk reaches them.  Its properties follow. *)

From S2P Require Import Prelude RustStr Fmt Errors JsonValue SrxErrors XmlText Xml Async SrxDevice.
From S2P Require Import SrxDevice SrxReader Resolve ResolveAddress.
From S2P Require Import NetAddr CandidateSpec.
From stdpp Require Import gmap.
From Stdlib Require Import Ascii.

Definition DEFAULT_APPLICATION_MEMBER_CAP : N := 200.
Definition APPLICATION_FILTER : string :=
  "<applications/><groups><name>junos-defaults</name><applications/></groups>".

Inductive ApplicationKind := Application | ApplicationSet.
Record PortRange := { low : N; high : N }.
Inductive PortSpec :=
  | Numeric (range : PortRange)
  | Named (name : string).
Inductive ApplicationSource := Device | BuiltinTable.
Record ResolvedApplication := {
  rp_name : string;
  protocol : string;
  source_port : option PortSpec;
  destination_port : option PortSpec;
  inactivity_timeout : option N;
  icmp_type : option N;
  icmp_code : option N;
  rp_active : bool;
  source : ApplicationSource
}.
Record ApplicationResolution := {
  rp_requested : string;
  rp_kind : ApplicationKind;
  rp_members : list ResolvedApplication;
  rp_truncated : bool
}.

Definition builtin (name protocol : string) (port : option (N * N)) : ResolvedApplication := {|
  rp_name := name; protocol := protocol; source_port := None;
  destination_port := (fun '(low, high) => Numeric {| low := low; high := high |}) <$> port;
  inactivity_timeout := None; icmp_type := None; icmp_code := None; rp_active := true;
  source := BuiltinTable
|}.

(** An application of the device is its element, read later. *)
Inductive ApplicationLeaf :=
  | DeviceLeaf (n : Node)
  | Static (a : ResolvedApplication).
#[local] Abbreviation Applications := (gmap string (ConfigNode ApplicationLeaf)).

Definition junos_default_entries : list ResolvedApplication :=
  [builtin "junos-http" "tcp" (Some (80, 80)%N);
   builtin "junos-https" "tcp" (Some (443, 443)%N);
   builtin "junos-ftp" "tcp" (Some (21, 21)%N);
   builtin "junos-ssh" "tcp" (Some (22, 22)%N);
   builtin "junos-smtp" "tcp" (Some (25, 25)%N);
   builtin "junos-dns-udp" "udp" (Some (53, 53)%N);
   builtin "junos-icmp-ping" "icmp" None].
Definition static_junos_defaults : Applications :=
  list_to_map (map (fun a => (rp_name a, Leaf (Static a))) junos_default_entries).

Definition parse_port_spec (text : string) : PortSpec :=
  let range :=
    match split_once "-"%char text with
    | Some (lo, hi) =>
        match parse_uint U16_MAX (trim lo), parse_uint U16_MAX (trim hi) with
        | Some low, Some high => Some (Numeric {| low := low; high := high |})
        | _, _ => None
        end
    | None => None
    end in
  match range with
  | Some r => r
  | None =>
      match parse_uint U16_MAX (trim text) with
      | Some p => Numeric {| low := p; high := p |}
      | None => Named (trim text)
      end
  end.

Record ApplicationFields := {
  af_protocol : string;
  af_source_port : option PortSpec;
  af_destination_port : option PortSpec;
  af_inactivity_timeout : option N;
  af_icmp_type : option N;
  af_icmp_code : option N
}.

Definition KNOWN_APPLICATION_CHILDREN : list string :=
  ["name"; "description"; "protocol"; "source-port"; "destination-port"; "inactivity-timeout";
   "icmp-type"; "icmp-code"; "icmp6-type"; "icmp6-code"].

Section application.
Context {X : External} {RX : Roxmltree}.

#[local] Abbreviation mismatch := (schema_mismatch "get-configuration").

Definition reject_unknown_children (node : Node) (extra_allowed : list string)
  : Result unit SrxError :=
  match find (fun e => negb (existsb (String.eqb (tag_name e)) KNOWN_APPLICATION_CHILDREN)
                       && negb (existsb (String.eqb (tag_name e)) extra_allowed))
          (child_elements node) with
  | Some e =>
      Err (SrxParse ("unrecognised application child <" ^^ tag_name e
                     ^^ ">: refusing to report this application rather than silently drop a "
                     ^^ "match criterion"))
  | None => Ok tt
  end.

Definition parse_icmp_field (node : Node) (v4_tag v6_tag : string)
  : Result (option N) SrxError :=
  let read t := map_result Some
    (ok_or (SrxParse ("invalid " ^^ v4_tag ^^ "/" ^^ v6_tag ^^ ": " ^^ t)) (parse_uint U8_MAX t)) in
  match child_text node v4_tag, child_text node v6_tag with
  | Some _, Some _ =>
      Err (SrxParse ("application has both <" ^^ v4_tag ^^ "> and <" ^^ v6_tag ^^ ">"))
  | Some t, None => read t
  | None, Some t => read t
  | None, None => Ok None
  end.

Definition parse_application_fields (node : Node) : Result ApplicationFields SrxError :=
  let? _ := reject_unknown_children node [] in
  let? protocol := ok_or (mismatch "application/protocol") (child_text node "protocol") in
  let source_port := parse_port_spec <$> child_text node "source-port" in
  let destination_port := parse_port_spec <$> child_text node "destination-port" in
  let? inactivity_timeout :=
    transpose (fun t => ok_or (SrxParse ("invalid inactivity-timeout: " ^^ t)) (parse_uint U32_MAX t))
      (child_text node "inactivity-timeout") in
  let? icmp_type := parse_icmp_field node "icmp-type" "icmp6-type" in
  let? icmp_code := parse_icmp_field node "icmp-code" "icmp6-code" in
  Ok {| af_protocol := protocol; af_source_port := source_port;
        af_destination_port := destination_port; af_inactivity_timeout := inactivity_timeout;
        af_icmp_type := icmp_type; af_icmp_code := icmp_code |}.

Definition resolved (name : string) (active : bool) (fields : ApplicationFields)
  : ResolvedApplication := {|
  rp_name := name; protocol := af_protocol fields; source_port := af_source_port fields;
  destination_port := af_destination_port fields;
  inactivity_timeout := af_inactivity_timeout fields; icmp_type := af_icmp_type fields;
  icmp_code := af_icmp_code fields; rp_active := active; source := Device
|}.

Definition parse_term (name : string) (app_active : bool) (term : Node)
  : Result ResolvedApplication SrxError :=
  let? term_name := ok_or (mismatch "application/term/name") (child_text term "name") in
  let? fields := parse_application_fields term in
  Ok (resolved (name ^^ "#" ^^ term_name) (app_active && negb (is_inactive term)) fields).

Definition parse_application_node (app_node : Node)
  : Result (list ResolvedApplication) SrxError :=
  let? name := ok_or (mismatch "application/name") (child_text app_node "name") in
  let app_active := negb (is_inactive app_node) in
  match children_named "term" app_node with
  | [] =>
      let? fields := parse_application_fields app_node in
      Ok [resolved name app_active fields]
  | terms =>
      match find (fun e => negb (existsb (String.eqb (tag_name e)) ["name"; "description"; "term"]))
              (child_elements app_node) with
      | Some e =>
          Err (SrxParse ("unrecognised child <" ^^ tag_name e ^^ "> beside <term> in application '"
                         ^^ name ^^ "'"))
      | None => collect_results (parse_term name app_active) terms
      end
  end.

(** One element of an [<applications>] container. *)
Definition application_entry (map : Applications) (e : Node) : Result Applications SrxError :=
  if String.eqb (tag_name e) "application" then
    let? name := ok_or (mismatch "application/name") (child_text e "name") in
    Ok (<[name := Leaf (DeviceLeaf e)]> map)
  else if String.eqb (tag_name e) "application-set" then
    let? name := ok_or (mismatch "application-set/name") (child_text e "name") in
    Ok (<[name := SetOf (set_members ["application"; "application-set"] e)]> map)
  else Ok map.
Definition collect_applications_container (map : Applications) (container : Node)
  : Result Applications SrxError :=
  try_fold application_entry map (child_elements container).

Definition collect_applications (doc : Node) : Result Applications SrxError :=
  let? map := try_fold collect_applications_container ∅ (descendants_named "applications" doc) in
  let defaults := List.filter (fun g => bool_decide (child_text g "name" = Some "junos-defaults"))
                    (descendants_named "groups" doc) in
  try_fold collect_applications_container map
    (concat (List.map (children_named "applications") defaults)).

Definition leaf_members (leaf : ApplicationLeaf) : Result (list ResolvedApplication) SrxError :=
  match leaf with
  | Static a => Ok [a]
  | DeviceLeaf n => parse_application_node n
  end.

Definition application_parse (router name reply_xml : string)
  : Result (SrxToolResponse ApplicationResolution) SrxError :=
  let? node := first_usable_node reply_xml in
  match node with
  | None => Ok (not_configured "no node returned applications configuration without an error")
  | Some node =>
      let? doc := roxml (sanitize_rustez_xml (inner_xml node)) in
      let? map := collect_applications doc in
      let map := map ∪ static_junos_defaults in
      let? kind :=
        match map !! name with
        | Some (Leaf _) => Ok Application
        | Some (SetOf _) => Ok ApplicationSet
        | None => Err (ResolutionNameNotFound router name "applications")
        end in
      let? (leaves, truncated) :=
        resolve router map "applications" name DEFAULT_APPLICATION_MEMBER_CAP in
      let? members := collect_results (fun l => leaf_members l.2) leaves in
      Ok (active {| rp_requested := name; rp_kind := kind; rp_members := concat members;
                    rp_truncated := truncated |})
  end.

Context {S : Type} {SD : SrxDevice S}.

Definition application_run (args : ApplicationResolveArgs)
  : Act S (SrxToolResponse ApplicationResolution) SrxError :=
  let! _ := require_router (rr_router args) in
  let! _ := if is_empty (trim (rr_name args)) then err (SrxInvalidInput "name must not be empty")
            else ok tt in
  let! _ := rpc in
  let! reply := get_configuration_subtree APPLICATION_FILTER in
  let! parsed := act_ret (application_parse (rr_router args) (rr_name args) reply) in
  ok (if rr_include_raw args then with_raw reply parsed else parsed).

End application.

(** ** Resolution on configurations
    ([rust-junosmcp-srx-core/src/workflows/resolve_address.rs], [resolve_application.rs])

    Which definition a name resolves to, and three configurations on which the
    workflows' comments and their code disagree. *)

Section address.
Context {X : External} {RX : Roxmltree} {IN : IpNetCrate}.

(** A zone sees its own book and the global one: a name of its book is resolved
    there, any other name of the global book in the global book. *)
Lemma chosen_book_visible books name z :
  match chosen_book books name (Some z) with
  | Ok (b, _, _) =>
      (is_Some (b !! name) <->
       is_Some (global books !! name) \/ exists own, resolve_zone books z = Some own /\ is_Some (own.2 !! name)) /\
      (forall own, resolve_zone books z = Some own -> is_Some (own.2 !! name) -> b = own.2)
  | Err _ => resolve_zone books z = None
  end.
Proof.
  unfold chosen_book. destruct (resolve_zone books z) as [[label own]|]; [|done].
  destruct (own !! name) eqn:Hown; cbn [bool_decide decide_rel].
  - case_bool_decide; [done|]. cbn. split; [|by intros ? [= <-]].
    rewrite Hown. split; [|by intros _; eexists]. intros _. right. exists (label, own). cbn. rewrite Hown. by split; [|eexists].
  - case_bool_decide; [|done]. case_bool_decide as Hg; cbn.
    + split; [tauto|]. intros ? [= <-]. cbn. rewrite Hown. by intros [].
    + rewrite Hown. split; [|by intros ? [= <-]]. split; [by intros []|].
      intros [?|(? & [= <-] & Hs)]; [done|]. cbn in Hs. rewrite Hown in Hs. by destruct Hs.
Qed.

End address.

Module Demo.

#[local] Existing Instance string_external.

Definition application (name port : string) : Node :=
  el "application" [tx "name" name; tx "protocol" "tcp"; tx "destination-port" port].
Definition term (i : nat) : Node :=
  el "term" [tx "name" (dec (N.of_nat i)); tx "protocol" "tcp"].

Definition docs : list (string * Node) :=
  [("apps", el "configuration" [
      el "groups" [tx "name" "junos-defaults"; el "applications" [application "junos-http" "80"]];
      el "applications" [application "junos-http" "8080"]]);
   ("terms", el "configuration" [el "applications" [
      el "application" (tx "name" "many" :: map term (seq 0 201))]]);
   ("books", el "configuration" [el "security" [
      el "address-book" [tx "name" "global"; el "address" [tx "name" "host"; tx "ip-prefix" "10.0.0.1/32"]];
      el "zones" [el "security-zone" [tx "name" "trust"; el "address-book" [
        el "address-set" [tx "name" "set"; el "address" [tx "name" "host"]]]]]]])].
#[local] Instance xml : Roxmltree := table_xml docs.
#[local] Instance prefixes : IpNetCrate := {| IpNet := string; ipnet_parse := Some |}.

Definition members_of (r : Result (SrxToolResponse ApplicationResolution) SrxError)
  : option (list (string * option PortSpec) * bool) :=
  match r with
  | Ok resp => (fun d => (map (fun a => (rp_name a, destination_port a)) (rp_members d), rp_truncated d))
                 <$> sr_data resp
  | Err _ => None
  end.

(** A definition of the [junos-defaults] group replaces the one the device's own
    configuration gives of the same name. *)
Example defaults_replace_the_users_definition :
  members_of (application_parse "r1" "junos-http" "apps") =
  Some ([("junos-http", Some (Numeric {| low := 80; high := 80 |}))], false).
Proof. vm_compute. reflexivity. Qed.

(** The cap counts applications, not the members they expand to. *)
Example terms_pass_the_cap :
  match members_of (application_parse "r1" "many" "terms") with
  | Some (ms, truncated) =>
      ((DEFAULT_APPLICATION_MEMBER_CAP <? N.of_nat (length ms))%N, truncated) = (true, false)
  | None => False
  end.
Proof. vm_compute. reflexivity. Qed.

(** A set of a zone's book that names a global address does not resolve, though
    the same address does when asked for by itself. *)
Example global_member_of_a_zone_set :
  address_parse "r1" "set" (Some "trust") "books" =
    Err (ResolutionNameNotFound "r1" "host" "address-book 'trust (zone-inline)' (zone 'trust')") /\
  is_ok (address_parse "r1" "host" (Some "trust") "books") = true.
Proof. split; vm_compute; reflexivity. Qed.

End Demo.
