(* ===== verification/ListPolicies.v ===== *)
(** * Security policies ([rust-junosmcp-srx-core/src/workflows/list_policies.rs])

    The policies of every zone pair a device reports, each once, with their hit
    counts when asked for, and the page of them a request wants.  Its properties follow. *)

From S2P Require Import Prelude RustStr Fmt Errors JsonValue SrxErrors XmlText Xml Async SrxDevice.
From S2P Require Import SrxDevice SrxReader.
From stdpp Require Import gmap.

Definition DEFAULT_POLICY_LIMIT : N := 500.

Inductive PolicyAction :=
  | Permit
  | Deny
  | Reject
  | PermitWithServices (services : list string).
Inductive PolicyState := Enabled | Disabled.
Inductive PolicyLog := LogNone | SessionInit | SessionClose | Both.

Record SecurityPolicy := {
  from_zone : string;
  to_zone : string;
  name : string;
  state : PolicyState;
  sequence : N;
  source_addresses : list string;
  destination_addresses : list string;
  applications : list string;
  action : PolicyAction;
  log : PolicyLog;
  hit_count : option N
}.
Record PolicyListData := {
  policies : list SecurityPolicy;
  truncated : bool;
  total_count : N
}.

Abbreviation Key := (string * string * string)%type.
Abbreviation HitCounts := (gmap Key N).
Definition key (p : SecurityPolicy) : Key := (from_zone p, to_zone p, name p).

Definition KNOWN_POLICY_INFORMATION_CHILDREN : list string :=
  ["policy-name"; "policy-state"; "policy-identifier"; "policy-sequence-number";
   "source-addresses"; "destination-addresses"; "applications"; "policy-action"].

(** [len() as u32] *)
Definition as_u32 (n : nat) : N := N.of_nat n mod 4294967296.

Section policies.
Context {X : External} {RX : Roxmltree}.

#[local] Abbreviation mismatch := (schema_mismatch "get-firewall-policies").

Definition parse_name_list (container : Node) (item_tag name_tag : string) : list string :=
  omap (fun item => child_text item name_tag) (children_named item_tag container).
(** [.find(list_tag).map(parse_name_list).unwrap_or_default()] *)
Definition name_list (pi : Node) (list_tag item_tag name_tag : string) : list string :=
  match child list_tag pi with Some c => parse_name_list c item_tag name_tag | None => [] end.

Definition parse_state (pi : Node) : Result PolicyState SrxError :=
  match child_text pi "policy-state" with
  | Some "enabled" => Ok Enabled
  | Some "disabled" => Ok Disabled
  | Some other => Err (SrxParse ("unrecognised policy-state value: " ^^ other))
  | None => Err (mismatch "policy-state")
  end.

Definition parse_action (action_node : Node) (action_type : string) : Result PolicyAction SrxError :=
  let services :=
    match child "application-services" action_node with
    | Some svc => map tag_name (child_elements svc)
    | None => []
    end in
  match action_type with
  | "permit" => Ok match services with [] => Permit | _ => PermitWithServices services end
  | "deny" => Ok Deny
  | "reject" => Ok Reject
  | other => Err (SrxParse ("unrecognised policy action-type: " ^^ other))
  end.

Definition parse_log (action_node : Node) : PolicyLog :=
  match child "policy-log" action_node with
  | Some log_node =>
      match existsb (named "session-init") (children log_node),
            existsb (named "session-close") (children log_node) with
      | true, true => Both
      | true, false => SessionInit
      | false, true => SessionClose
      | false, false => LogNone
      end
  | None => LogNone
  end.

(** A child the parser does not know. *)
Definition unknown_child (pi : Node) : option Node :=
  find (fun e => negb (existsb (String.eqb (tag_name e)) KNOWN_POLICY_INFORMATION_CHILDREN))
    (child_elements pi).

Definition parse_policy_information (from_zone to_zone : string) (pi : Node)
  : Result SecurityPolicy SrxError :=
  let? _ :=
    match unknown_child pi with
    | Some e =>
        Err (SrxParse ("unrecognised <policy-information> child <" ^^ tag_name e
          ^^ ">: refusing to report this policy rather than silently drop a match criterion the "
          ^^ "parser doesn't understand (e.g. a negated address/application match)"))
    | None => Ok tt
    end in
  let? name := ok_or (mismatch "policy-name") (child_text pi "policy-name") in
  let? state := parse_state pi in
  let sequence := default 0%N (child_uint U32_MAX pi "policy-sequence-number") in
  let source_addresses := name_list pi "source-addresses" "source-address" "address-name" in
  let destination_addresses :=
    name_list pi "destination-addresses" "destination-address" "address-name" in
  let applications := name_list pi "applications" "application" "application-name" in
  let? action_node := ok_or (mismatch "policy-action") (child "policy-action" pi) in
  let? action_type := ok_or (mismatch "action-type") (child_text action_node "action-type") in
  let? action := parse_action action_node action_type in
  Ok {| from_zone := from_zone; to_zone := to_zone; name := name; state := state;
        sequence := sequence; source_addresses := source_addresses;
        destination_addresses := destination_addresses; applications := applications;
        action := action; log := parse_log action_node; hit_count := None |}.

(** A zone of a context; a context without one is the global policies'. *)
Definition context_zone (ctx : Node) (tag : string) : string :=
  default "any" (match child "context-information" ctx with
                 | Some c => child_text c tag
                 | None => None
                 end).
Definition context_policies (ctx : Node) : Result (list SecurityPolicy) SrxError :=
  let from_zone := context_zone ctx "source-zone-name" in
  let to_zone := context_zone ctx "destination-zone-name" in
  match child "policies" ctx with
  | None => Ok []
  | Some policies_node =>
      collect_results (parse_policy_information from_zone to_zone)
        (children_named "policy-information" policies_node)
  end.

(** The policies of one node of a cluster; none when it is not configured. *)
Definition node_policies (re_node : ReNode) : Result (list SecurityPolicy) SrxError :=
  let? doc := roxml (inner_xml re_node) in
  match rpc_error_parts doc with
  | Some (tag, message) =>
      if String.eqb tag "not-configured" then Ok [] else Err (SrxRpc tag "error" message)
  | None =>
      map_result (@concat SecurityPolicy)
        (collect_results context_policies (descendants_named "security-context" doc))
  end.

(** [if seen.insert(key) { all_policies.push(policy) }] *)
Fixpoint first_of_each (seen : gset Key) (l : list SecurityPolicy) : list SecurityPolicy :=
  match l with
  | [] => []
  | p :: l =>
      if bool_decide (key p ∈ seen) then first_of_each seen l
      else p :: first_of_each ({[ key p ]} ∪ seen) l
  end.

Definition with_hits (hc : HitCounts) (p : SecurityPolicy) : SecurityPolicy := {|
  from_zone := from_zone p; to_zone := to_zone p; name := name p; state := state p;
  sequence := sequence p; source_addresses := source_addresses p;
  destination_addresses := destination_addresses p; applications := applications p;
  action := action p; log := log p; hit_count := hc !! key p
|}.

Definition page (all_policies : list SecurityPolicy) (offset limit : N) : PolicyListData :=
  let total_count := as_u32 (length all_policies) in
  let start := N.min offset total_count in
  let stop := N.min (N.min USIZE_MAX (start + limit)) (N.of_nat (length all_policies)) in
  {| policies := take (N.to_nat (stop - start)) (drop (N.to_nat start) all_policies);
     truncated := (stop mod 4294967296 <? total_count)%N;
     total_count := total_count |}.

Definition policies_parse (reply_xml : string) (hit_counts : option HitCounts) (offset limit : N)
  : Result (SrxToolResponse PolicyListData) SrxError :=
  let? re_nodes := multi_re_split reply_xml in
  let? found := collect_results node_policies re_nodes in
  let all_policies := first_of_each ∅ (concat found) in
  let all_policies :=
    match hit_counts with Some hc => map (with_hits hc) all_policies | None => all_policies end in
  Ok (active (page all_policies offset limit)).

(** The hit counts of one context, into the map. *)
Definition context_hits (map : HitCounts) (ctx : Node) : HitCounts :=
  let from_zone := context_zone ctx "source-zone-name" in
  let to_zone := context_zone ctx "destination-zone-name" in
  foldl (fun map hc =>
    match child_text hc "policy-name", child_uint U64_MAX hc "hit-count" with
    | Some name, Some count => <[(from_zone, to_zone, name) := count]> map
    | _, _ => map
    end) map (descendants_named "policy-hit-count" ctx).
Definition node_hits (map : HitCounts) (re_node : ReNode) : Result HitCounts SrxError :=
  let? doc := roxml (inner_xml re_node) in
  match rpc_error_parts doc with
  | Some _ => Ok map
  | None => Ok (foldl context_hits map (descendants_named "security-context" doc))
  end.
Definition parse_hit_counts (reply_xml : string) : Result HitCounts SrxError :=
  let? re_nodes := multi_re_split reply_xml in
  try_fold node_hits ∅ re_nodes.

Context {S : Type} {SD : SrxDevice S}.

Definition policy_call_args (args : PolicyListArgs) : list (string * string) :=
  match pl_from_zone args with Some z => [("from-zone", z)] | None => [] end ++
  match pl_to_zone args with Some z => [("to-zone", z)] | None => [] end ++
  match pl_policy_name args with Some n => [("policy-name", n)] | None => [] end.

(** Hit counts are an extra: what goes wrong with them is logged. *)
Definition fetch_hits (call_args : list (string * string)) : Act S (option HitCounts) SrxError :=
  act_bind (await (rpc_call "get-security-policies-hit-count" call_args)) (fun r =>
    ok match r with Ok xml => result_ok (parse_hit_counts xml) | Err _ => None end).

Definition policies_run (args : PolicyListArgs) : Act S (SrxToolResponse PolicyListData) SrxError :=
  let! _ := require_router (pl_router args) in
  let! _ := rpc in
  let call_args := policy_call_args args in
  let! reply := call "get-firewall-policies" call_args in
  let! hit_counts := if pl_include_hit_counts args then fetch_hits call_args else ok None in
  let! parsed := act_ret (policies_parse reply hit_counts (pl_offset args) (pl_limit args)) in
  ok (if pl_include_raw args then with_raw reply parsed else parsed).

End policies.

(** ** What a policy listing holds ([rust-junosmcp-srx-core/src/workflows/list_policies.rs])

    Every policy of every node is listed, once per zone pair and name, and the
    pages of the listing cover it. *)

Section spec.
Context {X : External} {RX : Roxmltree}.

Lemma first_of_each_spec s l :
  NoDup (map key (first_of_each s l)) /\
  (forall k, k ∈ map key (first_of_each s l) <-> k ∈ map key l /\ k ∉ s) /\
  (forall p, p ∈ first_of_each s l -> p ∈ l).
Proof.
  revert s. induction l as [|p l IH]; intros s; cbn [first_of_each].
  { split_and!; [constructor|set_solver|done]. }
  case_bool_decide as Hp.
  - destruct (IH s) as (H1 & H2 & H3). split_and!; [done| |intros q ?; right; auto].
    intros k. rewrite H2. cbn. rewrite elem_of_cons. split; [tauto|].
    intros [[-> |?] ?]; done.
  - destruct (IH ({[key p]} ∪ s)) as (H1 & H2 & H3). split_and!.
    + cbn. constructor; [|done]. intros [_ Hn]%H2. apply Hn, elem_of_union_l. by apply elem_of_singleton.
    + intros k. cbn. rewrite !elem_of_cons, H2, elem_of_union, elem_of_singleton.
      destruct (decide (k = key p)) as [-> |]; tauto.
    + intros q [-> |?]%elem_of_cons; [by left|right; auto].
Qed.

Definition hits_applied (hits : option HitCounts) (p : SecurityPolicy) : SecurityPolicy :=
  match hits with Some hc => with_hits hc p | None => p end.

Lemma page_spec all offset limit :
  (N.of_nat (length all) < 4294967296)%N -> (offset <= U32_MAX)%N -> (limit <= U32_MAX)%N ->
  page all offset limit =
    {| policies := take (N.to_nat limit) (drop (N.to_nat offset) all);
       truncated := (offset + limit <? N.of_nat (length all))%N;
       total_count := N.of_nat (length all) |}.
Proof.
  intros Hlen Ho Hl. unfold page, as_u32. rewrite (N.mod_small (N.of_nat (length all))) by done.
  unfold USIZE_MAX, U32_MAX in *. set (n := N.of_nat (length all)) in *.
  rewrite (N.mod_small (N.min (N.min _ _) n)) by lia. f_equal.
  - destruct (N.le_gt_cases n offset).
    + rewrite (drop_ge all (N.to_nat offset)) by lia. rewrite take_nil.
      replace (N.min offset n) with n by lia. replace (N.to_nat _) with 0 by lia. done.
    + replace (N.min offset n) with offset by lia.
      destruct (N.le_gt_cases n (offset + limit)).
      * rewrite !take_ge; [done|rewrite length_drop; lia..].
      * f_equal. lia.
  - destruct (N.ltb_spec (N.min (N.min 18446744073709551615 (N.min offset n + limit)) n) n),
             (N.ltb_spec (offset + limit) n); lia.
Qed.

(** Two pages in a row are one. *)
Lemma pages_join {A} (l : list A) o a b :
  take a (drop o l) ++ take b (drop (o + a) l) = take (a + b) (drop o l).
Proof. by rewrite <- drop_drop, take_take_drop. Qed.

(** A listing leaves no policy out and lists none twice.  The policies of
    all nodes that are configured are merged so that each zone pair and name
    that any node reports is listed exactly once, as a node reported it but for
    its hit count; an error of any node is the listing's.  The response is the
    requested page of that merged list with its true length, and says that it
    was cut exactly when policies follow the page (for the counts a device can
    have, below 2^32). *)
Theorem policies_listed_once xml hits offset limit :
  match policies_parse xml hits offset limit with
  | Err _ => True
  | Ok resp =>
      exists re_nodes found merged d,
        multi_re_split xml = Ok re_nodes /\
        Forall2 (fun re ps => node_policies re = Ok ps) re_nodes found /\
        NoDup (map key merged) /\
        (forall k, k ∈ map key merged <-> k ∈ map key (concat found)) /\
        Forall (fun q => exists p, p ∈ concat found /\ q = hits_applied hits p) merged /\
        sr_data resp = Some d /\
        ((N.of_nat (length merged) < 4294967296)%N -> (offset <= U32_MAX)%N -> (limit <= U32_MAX)%N ->
         policies d = take (N.to_nat limit) (drop (N.to_nat offset) merged) /\
         total_count d = N.of_nat (length merged) /\
         truncated d = (offset + limit <? N.of_nat (length merged))%N)
  end.
Proof.
  unfold policies_parse. destruct (multi_re_split xml) as [re_nodes|]; [|done].
  destruct (collect_results node_policies re_nodes) as [found|] eqn:Hf; [|done].
  apply collect_results_ok in Hf.
  destruct (first_of_each_spec ∅ (concat found)) as (Hnd & Hkeys & Hin).
  set (firsts := first_of_each ∅ (concat found)) in *.
  exists re_nodes, found, (map (hits_applied hits) firsts). eexists.
  assert (Hmap : map key (map (hits_applied hits) firsts) = map key firsts).
  { rewrite map_map. apply map_ext. intros p. by destruct hits. }
  assert (Hmerged : map (hits_applied hits) firsts =
    match hits with Some hc => map (with_hits hc) firsts | None => firsts end).
  { destruct hits; [done|]. apply map_id. }
  rewrite Hmap. split_and!; try done.
  - intros k. rewrite Hkeys. set_solver.
  - apply Forall_map, Forall_forall. intros p Hp. exists p. auto.
  - rewrite <- Hmerged. intros ???. by rewrite page_spec.
Qed.

End spec.
