(* ===== verification/ListNatRules.v ===== *)
(** * NAT rules ([rust-junosmcp-srx-core/src/workflows/list_nat_rules.rs])

    The source, destination and static rules of the configuration.  A match
    criterion, selector or translation the reader does not understand is an
    error: a rule is never reported with part of what it says left out.  Its properties follow. *)

From S2P Require Import Prelude RustStr Fmt Errors JsonValue SrxErrors XmlText Xml Async SrxDevice.
From S2P Require Import SrxDevice SrxReader.
From S2P Require Import CandidateSpec.
From stdpp Require Import gmap.
From Stdlib Require Import Ascii.

Definition DEFAULT_NAT_RULE_LIMIT : N := 500.

Inductive NatZoneOrInterface :=
  | Zone (name : string)
  | Interface (name : string)
  | RoutingInstance (name : string).
Record NatPortMatch := { low : N; high : N }.
Record NatMatch := {
  source_addresses : list string;
  destination_addresses : list string;
  applications : list string;
  source_ports : list NatPortMatch;
  destination_ports : list NatPortMatch;
  protocols : list string
}.
Inductive SourceTranslation :=
  | Pool (pool_name : string)
  | ToInterface
  | Off.
Record DestinationTranslation := { pool_name : string }.

(** A rule of one of the three kinds; [to] is empty but for source rules. *)
Record NatRule (T : Type) := {
  rule_set : string;
  name : string;
  sequence : N;
  from : list NatZoneOrInterface;
  to : list NatZoneOrInterface;
  match_ : NatMatch;
  translation : T;
  active : bool;
  hit_count : option N
}.
Arguments rule_set {T}.
Arguments name {T}.
Arguments sequence {T}.
Arguments from {T}.
Arguments to {T}.
Arguments match_ {T}.
Arguments translation {T}.
Arguments active {T}.
Arguments hit_count {T}.

Definition KNOWN_MATCH_CHILDREN : list string :=
  ["source-address"; "source-address-name"; "destination-address"; "destination-address-name";
   "application"; "source-port"; "destination-port"; "protocol"].

Definition empty_match : NatMatch := {|
  source_addresses := []; destination_addresses := []; applications := []; source_ports := [];
  destination_ports := []; protocols := []
|}.

Abbreviation HitCounts := (gmap (string * string) N).

Section nat_rules.
Context {X : External} {RX : Roxmltree} {IN : IpNetCrate}.

Definition StaticTranslation : Type := IpNet.
Record NatRules := {
  nat_source : list (NatRule SourceTranslation);
  nat_destination : list (NatRule DestinationTranslation);
  static_nat : list (NatRule StaticTranslation);
  truncated : bool
}.

#[local] Abbreviation mismatch := (schema_mismatch "get-configuration").

(** [n.text().map(trim).filter(non-empty)] *)
Definition own_text (n : Node) : option string :=
  match trimmed_text (Some n) with
  | Some t => if is_empty t then None else Some t
  | None => None
  end.

Definition parse_selector (container_tag : string) (e : Node) : Result NatZoneOrInterface SrxError :=
  let text := trim (default "" (node_text e)) in
  match tag_name e with
  | "zone" => Ok (Zone text)
  | "interface" => Ok (Interface text)
  | "routing-instance" => Ok (RoutingInstance text)
  | other =>
      Err (SrxParse ("unrecognised NAT rule-set <" ^^ container_tag ^^ "> selector <" ^^ other ^^ ">"))
  end.
Definition parse_zone_selector_list (container : Node)
  : Result (list NatZoneOrInterface) SrxError :=
  let container_tag := tag_name container in
  let? selectors := collect_results (parse_selector container_tag) (child_elements container) in
  match selectors with
  | [] => Err (mismatch (if String.eqb container_tag "to"
                         then "rule-set/to (zone|interface|routing-instance)"
                         else "rule-set/from (zone|interface|routing-instance)"))
  | _ => Ok selectors
  end.
Definition parse_from (rule_set : Node) : Result (list NatZoneOrInterface) SrxError :=
  let? from := ok_or (mismatch "rule-set/from") (child "from" rule_set) in
  parse_zone_selector_list from.
Definition parse_to (rule_set : Node) : Result (list NatZoneOrInterface) SrxError :=
  match child "to" rule_set with
  | Some to => parse_zone_selector_list to
  | None => Ok []
  end.

Definition parse_match_address (n : Node) (inner_tag : string) : Result string SrxError :=
  match own_text n with
  | Some text => Ok text
  | None =>
      ok_or (SrxParse ("empty or unrecognised <" ^^ tag_name n
               ^^ "> in NAT match: neither literal text nor <" ^^ inner_tag ^^ "> child"))
        (child_text n inner_tag)
  end.

Definition port_of (what text s : string) : Result N SrxError :=
  ok_or (SrxParse ("invalid port" ^^ what ^^ ": " ^^ text)) (parse_uint U16_MAX s).
Definition parse_nat_port (n : Node) : Result NatPortMatch SrxError :=
  match own_text n with
  | Some text =>
      match split_once "-"%char text with
      | Some (lo, hi) =>
          let? low := port_of " range" text (trim lo) in
          let? high := port_of " range" text (trim hi) in
          Ok {| low := low; high := high |}
      | None =>
          let? p := port_of "" text (trim text) in
          Ok {| low := p; high := p |}
      end
  | None =>
      match child_text n "low", child_text n "high" with
      | Some lo, Some hi =>
          let? low := port_of " low" lo lo in
          let? high := port_of " high" hi hi in
          Ok {| low := low; high := high |}
      | _, _ => Err (SrxParse ("empty or unrecognised <" ^^ tag_name n ^^ "> port match"))
      end
  end.

Definition some_text (what : string) (n : Node) : Result string SrxError :=
  ok_or (SrxParse ("empty <" ^^ what)) (own_text n).

Definition add_source (m : NatMatch) (a : string) : NatMatch := {|
  source_addresses := source_addresses m ++ [a]; destination_addresses := destination_addresses m;
  applications := applications m; source_ports := source_ports m;
  destination_ports := destination_ports m; protocols := protocols m
|}.
Definition add_destination (m : NatMatch) (a : string) : NatMatch := {|
  source_addresses := source_addresses m; destination_addresses := destination_addresses m ++ [a];
  applications := applications m; source_ports := source_ports m;
  destination_ports := destination_ports m; protocols := protocols m
|}.
Definition add_application (m : NatMatch) (a : string) : NatMatch := {|
  source_addresses := source_addresses m; destination_addresses := destination_addresses m;
  applications := applications m ++ [a]; source_ports := source_ports m;
  destination_ports := destination_ports m; protocols := protocols m
|}.
Definition add_source_port (m : NatMatch) (p : NatPortMatch) : NatMatch := {|
  source_addresses := source_addresses m; destination_addresses := destination_addresses m;
  applications := applications m; source_ports := source_ports m ++ [p];
  destination_ports := destination_ports m; protocols := protocols m
|}.
Definition add_destination_port (m : NatMatch) (p : NatPortMatch) : NatMatch := {|
  source_addresses := source_addresses m; destination_addresses := destination_addresses m;
  applications := applications m; source_ports := source_ports m;
  destination_ports := destination_ports m ++ [p]; protocols := protocols m
|}.
Definition add_protocol (m : NatMatch) (p : string) : NatMatch := {|
  source_addresses := source_addresses m; destination_addresses := destination_addresses m;
  applications := applications m; source_ports := source_ports m;
  destination_ports := destination_ports m; protocols := protocols m ++ [p]
|}.

(** One criterion of a match; the last arm is the source's [unreachable!],
    which the check before it makes so. *)
Definition match_child (m : NatMatch) (e : Node) : Result NatMatch SrxError :=
  let tag := tag_name e in
  let unknown :=
    Err (SrxParse ("unrecognised NAT match child <" ^^ tag
           ^^ ">: refusing to report this rule rather than silently drop a match criterion the "
           ^^ "parser doesn't understand")) in
  if negb (existsb (String.eqb tag) KNOWN_MATCH_CHILDREN) then unknown
  else match tag with
  | "source-address" => map_result (add_source m) (parse_match_address e "src-addr")
  | "source-address-name" => map_result (add_source m) (some_text "source-address-name>" e)
  | "destination-address" => map_result (add_destination m) (parse_match_address e "dst-addr")
  | "destination-address-name" =>
      map_result (add_destination m) (some_text "destination-address-name>" e)
  | "application" => map_result (add_application m) (some_text "application> in NAT match" e)
  | "source-port" => map_result (add_source_port m) (parse_nat_port e)
  | "destination-port" => map_result (add_destination_port m) (parse_nat_port e)
  | "protocol" => map_result (add_protocol m) (some_text "protocol> in NAT match" e)
  | _ => unknown
  end.

Definition parse_match (container_tags : list string) (rule : Node) : Result NatMatch SrxError :=
  let? match_node :=
    ok_or (SrxParse ("rule has no recognised match container (tried "
                     ^^ debug_strs container_tags ^^ ")"))
      (find (fun n => is_element n && existsb (String.eqb (tag_name n)) container_tags)
         (children rule)) in
  try_fold match_child empty_match (child_elements match_node).

Definition source_translation (rule : Node) : Result SourceTranslation SrxError :=
  let? then_node := ok_or (mismatch "rule/then") (child "then" rule) in
  let? sn := ok_or (mismatch "then/source-nat") (child "source-nat" then_node) in
  match child "off" sn, child "interface" sn, child "pool" sn with
  | Some _, _, _ => Ok Off
  | None, Some _, _ => Ok ToInterface
  | None, None, Some pool =>
      map_result Pool (ok_or (mismatch "source-nat/pool/pool-name") (child_text pool "pool-name"))
  | None, None, None => Err (mismatch "source-nat")
  end.

Definition destination_translation (rule : Node) : Result DestinationTranslation SrxError :=
  let? then_node := ok_or (mismatch "rule/then") (child "then" rule) in
  let? dn := ok_or (mismatch "then/destination-nat") (child "destination-nat" then_node) in
  let? pool := ok_or (mismatch "destination-nat/pool") (child "pool" dn) in
  let? pool_name := ok_or (mismatch "destination-nat/pool/pool-name") (child_text pool "pool-name") in
  Ok {| pool_name := pool_name |}.

Definition static_translation (rule : Node) : Result StaticTranslation SrxError :=
  let? then_node := ok_or (mismatch "rule/then") (child "then" rule) in
  let? sn := ok_or (mismatch "then/static-nat") (child "static-nat" then_node) in
  let? prefix_node := ok_or (mismatch "static-nat/prefix") (child "prefix" sn) in
  let? addr_prefix :=
    ok_or (mismatch "static-nat/prefix/addr-prefix") (child_text prefix_node "addr-prefix") in
  ok_or (SrxParse ("invalid addr-prefix: " ^^ addr_prefix)) (ipnet_parse addr_prefix).

(** The three kinds' loops differ in the names of the match container, in
    whether a rule set has a [to], and in the translation. *)
Section kind.
Context {T : Type} (container_tags : list string)
  (to_of : Node -> Result (list NatZoneOrInterface) SrxError)
  (translation_of : Node -> Result T SrxError) (hit_counts : HitCounts).

Definition nat_rule (rule_set_name : string) (from to : list NatZoneOrInterface)
    (rule_set_active : bool) (irule : nat * Node) : Result (NatRule T) SrxError :=
  let (i, rule) := irule in
  let? name := ok_or (mismatch "rule/name") (child_text rule "name") in
  let? match_ := parse_match container_tags rule in
  let? translation := translation_of rule in
  Ok {| rule_set := rule_set_name; name := name;
        sequence := (N.of_nat i mod 4294967296 + 1) mod 4294967296;
        from := from; to := to; match_ := match_; translation := translation;
        active := rule_set_active && negb (is_inactive rule);
        hit_count := hit_counts !! (rule_set_name, name) |}.

Definition nat_rule_set (rule_set : Node) : Result (list (NatRule T)) SrxError :=
  let? rule_set_name := ok_or (mismatch "rule-set/name") (child_text rule_set "name") in
  let? from := parse_from rule_set in
  let? to := to_of rule_set in
  let rule_set_active := negb (is_inactive rule_set) in
  collect_results (nat_rule rule_set_name from to rule_set_active)
    (imap pair (children_named "rule" rule_set)).

Definition parse_kind (reply_xml : string) (limit : N) : Result (list (NatRule T) * bool) SrxError :=
  let? node := first_usable_node reply_xml in
  match node with
  | None => Ok ([], false)
  | Some re_node =>
      let? doc := roxml (sanitize_rustez_xml (inner_xml re_node)) in
      let? rules := collect_results nat_rule_set (descendants_named "rule-set" doc) in
      let rules := concat rules in
      Ok (rules, (limit <? N.of_nat (length rules))%N)
  end.

End kind.

Definition parse_source (reply_xml : string) (hit_counts : HitCounts) (limit : N)
  : Result (list (NatRule SourceTranslation) * bool) SrxError :=
  parse_kind ["src-nat-rule-match"; "match"] parse_to source_translation hit_counts reply_xml limit.
Definition parse_destination (reply_xml : string) (hit_counts : HitCounts) (limit : N)
  : Result (list (NatRule DestinationTranslation) * bool) SrxError :=
  parse_kind ["dnat-rule-match"; "dest-nat-rule-match"; "match"] (fun _ => Ok [])
    destination_translation hit_counts reply_xml limit.
Definition parse_static (reply_xml : string) (hit_counts : HitCounts) (limit : N)
  : Result (list (NatRule StaticTranslation) * bool) SrxError :=
  parse_kind ["static-nat-rule-match"; "match"] (fun _ => Ok []) static_translation hit_counts
    reply_xml limit.

Definition nat_parse (source_xml destination_xml static_xml : string) (hit_counts : HitCounts)
    (limit : N) : Result (SrxToolResponse NatRules) SrxError :=
  let? (source, source_truncated) := parse_source source_xml hit_counts limit in
  let? (destination, dest_truncated) := parse_destination destination_xml hit_counts limit in
  let? (static_nat, static_truncated) := parse_static static_xml hit_counts limit in
  Ok (SrxErrors.active {|
    nat_source := take (N.to_nat limit) source;
    nat_destination := take (N.to_nat limit) destination;
    static_nat := take (N.to_nat limit) static_nat;
    truncated := source_truncated || dest_truncated || static_truncated |}).

Definition rule_hits (rule_set_name : string) (map : HitCounts) (rule : Node) : HitCounts :=
  match child_text rule "name", child_uint U64_MAX rule "translation-hits" with
  | Some name, Some count => <[(rule_set_name, name) := count]> map
  | _, _ => map
  end.
Definition rule_set_hits (map : HitCounts) (rs : Node) : HitCounts :=
  match child_text rs "name" with
  | None => map
  | Some rule_set_name => foldl (rule_hits rule_set_name) map (children_named "rule" rs)
  end.
Definition nat_node_hits (map : HitCounts) (re_node : ReNode) : Result HitCounts SrxError :=
  let? doc := roxml (sanitize_rustez_xml (inner_xml re_node)) in
  match rpc_error_parts doc with
  | Some _ => Ok map
  | None => Ok (foldl rule_set_hits map (descendants_named "rule-set" doc))
  end.
Definition parse_nat_hit_counts (reply_xml : string) : Result HitCounts SrxError :=
  let? re_nodes := multi_re_split reply_xml in
  try_fold nat_node_hits ∅ re_nodes.

Context {S : Type} {SD : SrxDevice S}.

Definition hit_count_rpcs : list string :=
  ["get-source-nat-rule-sets-information"; "get-destination-nat-rule-sets-information";
   "get-static-nat-rule-information"].
(** Hit counts are an extra: what goes wrong with them is logged. *)
Definition fetch_kind_hits (map : HitCounts) (rpc : string) : Act S HitCounts SrxError :=
  act_bind (await (rpc_call rpc [("all", "")])) (fun r =>
    ok match r with
       | Ok xml => match parse_nat_hit_counts xml with Ok m => m ∪ map | Err _ => map end
       | Err _ => map
       end).
Definition fetch_hit_counts : Act S HitCounts SrxError :=
  foldl (fun m rpc => let! map := m in fetch_kind_hits map rpc) (ok ∅) hit_count_rpcs.

Definition nat_run (args : NatRulesArgs) : Act S (SrxToolResponse NatRules) SrxError :=
  let! _ := require_router (nr_router args) in
  let! _ := rpc in
  let! source_xml := get_configuration_subtree "<security><nat><source/></nat></security>" in
  let! destination_xml :=
    get_configuration_subtree "<security><nat><destination/></nat></security>" in
  let! static_xml := get_configuration_subtree "<security><nat><static/></nat></security>" in
  let! hit_counts := if nr_include_hit_counts args then fetch_hit_counts else ok ∅ in
  let! parsed :=
    act_ret (nat_parse source_xml destination_xml static_xml hit_counts (nr_limit args)) in
  ok (if nr_include_raw args
      then with_raw ("<!-- source -->" ^^ newline ^^ source_xml ^^ newline
                     ^^ "<!-- destination -->" ^^ newline ^^ destination_xml ^^ newline
                     ^^ "<!-- static -->" ^^ newline ^^ static_xml) parsed
      else parsed).

End nat_rules.

(** ** What a NAT listing says ([rust-junosmcp-srx-core/src/workflows/list_nat_rules.rs])

    Every rule of the configuration is listed, with every criterion and selector
    it has; a listing that would have to leave something out is an error. *)

Section spec.
Context {X : External} {RX : Roxmltree} {IN : IpNetCrate}.

(** ** A match, field by field *)

Definition tagged (tags : list string) (e : Node) : bool := existsb (String.eqb (tag_name e)) tags.
(** The entries of one field: what its elements say, in their order. *)
Definition field {A} (tags : list string) (read : Node -> Result A SrxError) (es : list Node)
  : Result (list A) SrxError := collect_results read (List.filter (tagged tags) es).

Definition read_source (e : Node) : Result string SrxError :=
  if String.eqb (tag_name e) "source-address" then parse_match_address e "src-addr"
  else some_text "source-address-name>" e.
Definition read_destination (e : Node) : Result string SrxError :=
  if String.eqb (tag_name e) "destination-address" then parse_match_address e "dst-addr"
  else some_text "destination-address-name>" e.

(** [m] is what the criteria [es] say, each of which the reader knows. *)
Definition says (es : list Node) (m : NatMatch) : Prop :=
  Forall (fun e => tagged KNOWN_MATCH_CHILDREN e = true) es /\
  field ["source-address"; "source-address-name"] read_source es = Ok (source_addresses m) /\
  field ["destination-address"; "destination-address-name"] read_destination es
    = Ok (destination_addresses m) /\
  field ["application"] (some_text "application> in NAT match") es = Ok (applications m) /\
  field ["source-port"] parse_nat_port es = Ok (source_ports m) /\
  field ["destination-port"] parse_nat_port es = Ok (destination_ports m) /\
  field ["protocol"] (some_text "protocol> in NAT match") es = Ok (protocols m).

Lemma field_snoc {A} tags (read : Node -> Result A SrxError) es e l x :
  field tags read es = Ok l -> tagged tags e = true -> read e = Ok x ->
  field tags read (es ++ [e]) = Ok (l ++ [x]).
Proof.
  unfold field. rewrite List.filter_app. intros Hl Ht Hx. cbn. rewrite Ht.
  apply collect_results_ok in Hl. apply collect_results_ok. apply Forall2_app; [done|]. by constructor.
Qed.

Lemma field_other {A} tags (read : Node -> Result A SrxError) es e :
  tagged tags e = false -> field tags read (es ++ [e]) = field tags read es.
Proof. unfold field. rewrite List.filter_app. intros Ht. cbn. by rewrite Ht, app_nil_r. Qed.

(** Whichever field an element belongs to, it is added there and nowhere else. *)
Lemma match_child_says es m e m' :
  says es m -> match_child m e = Ok m' -> says (es ++ [e]) m'.
Proof.
  intros (Hk & H1 & H2 & H3 & H4 & H5 & H6). unfold match_child.
  destruct (existsb _ KNOWN_MATCH_CHILDREN) eqn:Hknown; [|done]. cbn [negb].
  assert (Hall : Forall (fun e => tagged KNOWN_MATCH_CHILDREN e = true) (es ++ [e])).
  { apply Forall_app. split; [done|]. by constructor. }
  apply existsb_exists in Hknown as (t & Hin & Ht%String.eqb_eq). rewrite Ht.
  repeat (destruct Hin as [<-|Hin]); [..|done]; intros Hm;
    match type of Hm with map_result _ ?r = _ => destruct r as [x|] eqn:Hx; [|done] end;
    injection Hm as <-; (split; [exact Hall|]); repeat split;
    first [ rewrite field_other; [done|by unfold tagged; rewrite Ht]
          | eapply field_snoc; [done|by unfold tagged; rewrite Ht|];
            unfold read_source, read_destination; rewrite ?Ht; exact Hx ].
Qed.

Lemma says_nothing : says [] empty_match.
Proof. by repeat split. Qed.

Lemma match_fold_says es es' m m' :
  says es m -> try_fold match_child m es' = Ok m' -> says (es ++ es') m'.
Proof.
  revert es m. induction es' as [|e es' IH]; intros es m Hm; cbn [try_fold].
  { intros [= <-]. by rewrite app_nil_r. }
  destruct (match_child m e) as [m1|] eqn:He; [|done]. intros H.
  rewrite cons_middle, app_assoc. eapply IH; [|done]. by eapply match_child_says.
Qed.

(** The container of a rule's criteria. *)
Definition match_container (container_tags : list string) (rule : Node) : option Node :=
  find (fun n => is_element n && tagged container_tags n) (children rule).

Lemma parse_match_says tags rule m :
  parse_match tags rule = Ok m ->
  exists c, match_container tags rule = Some c /\ says (child_elements c) m.
Proof.
  unfold parse_match. fold (match_container tags rule).
  change (find _ (children rule)) with (match_container tags rule).
  destruct (match_container tags rule) as [c|]; [|done]. cbn [ok_or]. intros H.
  exists c. split; [done|]. by eapply (match_fold_says []); [apply says_nothing|].
Qed.

(** ** Selectors *)

Definition selector_text (s : NatZoneOrInterface) : string * string :=
  match s with
  | Zone n => ("zone", n)
  | Interface n => ("interface", n)
  | RoutingInstance n => ("routing-instance", n)
  end.

(** [l] is what the selectors of [container] say, and there is one. *)
Definition selects (container : Node) (l : list NatZoneOrInterface) : Prop :=
  map selector_text l =
    map (fun e => (tag_name e, trim (default "" (node_text e)))) (child_elements container) /\
  l <> [].

Lemma parse_selector_says tag e s :
  parse_selector tag e = Ok s -> selector_text s = (tag_name e, trim (default "" (node_text e))).
Proof.
  unfold parse_selector. intros H.
  repeat (case_match; try done); injection H as <-; cbn; congruence.
Qed.

Lemma parse_selectors_says container l :
  parse_zone_selector_list container = Ok l -> selects container l.
Proof.
  unfold parse_zone_selector_list. destruct (collect_results _ _) as [l'|] eqn:Hl; [|done].
  destruct l' as [|s l']; [done|]. intros [= <-]. split; [|done].
  apply collect_results_ok in Hl. induction Hl as [|e s0 es ss Hs _ IH]; [done|].
  cbn. by rewrite IH, (parse_selector_says _ _ _ Hs).
Qed.

(** ** Rules *)

(** The rules of a configuration, each with its rule set and its place in it. *)
Definition rule_elements (doc : Node) : list (Node * nat * Node) :=
  concat (map (fun rs => imap (fun i r => (rs, i, r)) (children_named "rule" rs))
            (descendants_named "rule-set" doc)).

Definition listed {T} (tags : list string) (to_of : Node -> Result (list NatZoneOrInterface) SrxError)
    (translation_of : Node -> Result T SrxError)
    (hits : HitCounts) (el : Node * nat * Node) (r : NatRule T) : Prop :=
  let '(rs, i, rule) := el in
  child_text rs "name" = Some (rule_set r) /\ child_text rule "name" = Some (name r) /\
  sequence r = ((N.of_nat i mod 4294967296 + 1) mod 4294967296)%N /\
  (exists c, child "from" rs = Some c /\ selects c (from r)) /\ to_of rs = Ok (to r) /\
  (exists c, match_container tags rule = Some c /\ says (child_elements c) (match_ r)) /\
  translation_of rule = Ok (translation r) /\
  active r = negb (is_inactive rs) && negb (is_inactive rule) /\
  hit_count r = hits !! (rule_set r, name r).

Section kind.
Context {T : Type} (tags : list string) (to_of : Node -> Result (list NatZoneOrInterface) SrxError)
  (translation_of : Node -> Result T SrxError) (hits : HitCounts).

Lemma nat_rule_listed rs name from to i rule r :
  child_text rs "name" = Some name -> parse_from rs = Ok from -> to_of rs = Ok to ->
  nat_rule tags translation_of hits name from to (negb (is_inactive rs)) (i, rule) = Ok r ->
  listed tags to_of translation_of hits (rs, i, rule) r.
Proof.
  intros Hn Hf Ht. unfold nat_rule. destruct (child_text rule "name") as [rn|] eqn:Hrn; [|done].
  cbn [ok_or]. destruct (parse_match tags rule) as [m|] eqn:Hm; [|done].
  destruct (translation_of rule) as [t|] eqn:Htr; [|done]. intros [= <-].
  apply parse_match_says in Hm. unfold listed. cbn. split_and!; try done.
  unfold parse_from in Hf. destruct (child "from" rs) as [c|]; [|done]. exists c.
  split; [done|]. by apply parse_selectors_says.
Qed.

Lemma nat_rule_set_listed rs rules :
  nat_rule_set tags to_of translation_of hits rs = Ok rules ->
  Forall2 (listed tags to_of translation_of hits)
    (imap (fun i r => (rs, i, r)) (children_named "rule" rs)) rules.
Proof.
  unfold nat_rule_set. destruct (child_text rs "name") as [name|] eqn:Hn; [|done]. cbn [ok_or].
  destruct (parse_from rs) as [from|] eqn:Hf; [|done]. destruct (to_of rs) as [to|] eqn:Ht; [|done].
  intros H%collect_results_ok.
  apply Forall2_same_length_lookup. apply Forall2_same_length_lookup in H as [Hlen H].
  rewrite !length_imap in *. split; [done|]. intros i el r Hel Hr.
  apply list_lookup_imap_Some in Hel as (rule & Hrule & ->).
  eapply nat_rule_listed; [done..|]. apply (H i); [|done].
  apply list_lookup_imap_Some. by exists rule.
Qed.

Lemma rule_sets_listed rule_sets found :
  collect_results (nat_rule_set tags to_of translation_of hits) rule_sets = Ok found ->
  Forall2 (listed tags to_of translation_of hits)
    (concat (map (fun rs => imap (fun i r => (rs, i, r)) (children_named "rule" rs)) rule_sets))
    (concat found).
Proof.
  intros H%collect_results_ok. induction H as [|rs rules rest found Hrs _ IH]; [done|].
  cbn. apply Forall2_app; [by apply nat_rule_set_listed|done].
Qed.

(** Nothing of a NAT rule is left out of the listing.  A listing of one of
    the three kinds that succeeds has one entry per rule of the configuration,
    in its order, and each entry says everything the rule says: its rule set and
    name, its place in the set, all the selectors of its set, all its match
    criteria field by field, its translation, and that it is active exactly when
    neither it nor its set is deactivated.  Whether the listing is longer than
    the limit is reported.  A criterion, selector or translation that the reader
    does not know makes the whole listing an error; only a device whose nodes
    all answer "not configured" has no rules. *)
Theorem nat_rules_say_everything xml limit :
  match parse_kind tags to_of translation_of hits xml limit with
  | Ok (rules, truncated) =>
      truncated = (limit <? N.of_nat (length rules))%N /\
      match first_usable_node xml with
      | Ok (Some node) =>
          exists doc, parse_document (sanitize_rustez_xml (inner_xml node)) = Ok doc /\
            Forall2 (listed tags to_of translation_of hits) (rule_elements doc) rules
      | Ok None => rules = []
      | Err _ => False
      end
  | Err _ => True
  end.
Proof.
  unfold parse_kind. destruct (first_usable_node xml) as [[node|]|]; [|by destruct limit|done].
  unfold roxml. destruct (parse_document _) as [doc|]; [|done]. cbn [map_err].
  destruct (collect_results _ _) as [found|] eqn:Hf; [|done]. split; [done|].
  exists doc. split; [done|]. by apply rule_sets_listed.
Qed.

End kind.

End spec.

Module Demo.

#[local] Existing Instance string_external.

Definition criteria : list Node := [tx "source-address" "10.0.0.0/8"; tx "protocol" "tcp"].
Definition set_of (translation : Node) (container : string) : Node :=
  el "configuration" [el "rule-set" [tx "name" "rs"; el "from" [tx "zone" "trust"; tx "zone" "dmz"];
    el "rule" [tx "name" "r1"; el container criteria; el "then" [translation]]]].
Definition hits (n : string) : Node :=
  el "reply" [el "rule-set" [tx "name" "rs"; el "rule" [tx "name" "r1"; tx "translation-hits" n]]].
Definition of_kind (kind : string) : string :=
  get_configuration_envelope ("<security><nat><" ^^ kind ^^ "/></nat></security>").
#[local] Instance xml : Roxmltree := table_xml
  [(of_kind "source", set_of (el "source-nat" [el "interface" []]) "src-nat-rule-match");
   (of_kind "destination", set_of (el "destination-nat" [el "pool" [tx "pool-name" "p"]]) "match");
   (of_kind "static", el "configuration" []);
   ("bad", set_of (el "source-nat" [el "unknown" []]) "match");
   ("get-source-nat-rule-sets-information", hits "5");
   ("get-destination-nat-rule-sets-information", hits "9");
   ("get-static-nat-rule-information", el "reply" [])].
#[local] Instance prefixes : IpNetCrate := {| IpNet := string; ipnet_parse := Some |}.
(** A device that answers every call with the text of the call. *)
#[local] Instance echo : SrxDevice unit := {|
  rpc_ready _ := Ok tt;
  rpc_call name _ s := mk_rpc 1 (Ok name) s (fun _ => s);
  rpc_call_xml body s := mk_rpc 1 (Ok body) s (fun _ => s)
|}.

Definition listing : option NatRules :=
  match (nat_run {| nr_router := "r1"; nr_include_hit_counts := true; nr_limit := 500;
                    nr_include_raw := false |} (mk_world 0 None tt)).1 with
  | Ok resp => sr_data resp
  | Err _ => None
  end.

(** The three kinds' counts share one map, keyed by rule set and rule: the
    source rule, translated 5 times, is reported with the count of the
    destination rule of the same names. *)
Example hit_counts_of_another_kind :
  (fun d => (map hit_count (nat_source d), map hit_count (nat_destination d))) <$> listing =
  Some ([Some 9%N], [Some 9%N]).
Proof. vm_compute. reflexivity. Qed.

Example rule_is_whole :
  (fun d => map (fun r => (from r, match_ r)) (nat_source d)) <$> listing =
  Some [([Zone "trust"; Zone "dmz"],
         {| source_addresses := ["10.0.0.0/8"]; destination_addresses := []; applications := [];
            source_ports := []; destination_ports := []; protocols := ["tcp"] |})].
Proof. vm_compute. reflexivity. Qed.

Example unknown_translation_is_refused :
  is_ok (parse_source "bad" ∅ 500) = false.
Proof. vm_compute. reflexivity. Qed.

End Demo.
