(* ===== verification/FlowSessions.v ===== *)
(** * Flow sessions ([rust-junosmcp-srx-core/src/workflows/flow_sessions.rs])

    A filtered query of the session table.  The device is first asked how many
    sessions the query would return; only a count within the cap lets the
    sessions themselves be asked for.  Its properties follow. *)

From S2P Require Import Prelude RustStr Fmt Errors NetAddr JsonValue SrxErrors XmlText Xml Async SrxDevice.
From S2P Require Import SrxDevice SrxReader.
From Stdlib Require Import Ascii.

Definition DEFAULT_CAP : N := 200.
Definition MAX_CAP : N := 2000.

Record FlowSession := {
  session_id : N;
  fl_protocol : string;
  source : IpAddr * N;
  destination : IpAddr * N;
  translated_source : option (IpAddr * N);
  translated_destination : option (IpAddr * N);
  fl_application : option string;
  policy_name : option string;
  in_interface : string;
  out_interface : string;
  fl_timeout : N;
  duration : N
}.
Record NodeSessions := {
  ns_re_name : string;
  sessions : list FlowSession;
  ns_error : option string
}.
Inductive RefusalReason := CountExceedsCap | CountUnavailable.
Record FlowSessionQuery := {
  nodes : list NodeSessions;
  total_count_reported : option N;
  truncated : bool;
  refused : option RefusalReason;
  cap : N
}.

Record FlowSessionFilter := {
  source_prefix : option string;
  destination_prefix : option string;
  source_port : option N;
  destination_port : option N;
  protocol : option Protocol;
  application : option string;
  session_identifier : option N
}.

Definition has_filter (f : FlowSessionFilter) : bool :=
  bool_decide (is_Some (source_prefix f)) || bool_decide (is_Some (destination_prefix f))
  || bool_decide (is_Some (source_port f)) || bool_decide (is_Some (destination_port f))
  || bool_decide (is_Some (protocol f)) || bool_decide (is_Some (application f))
  || bool_decide (is_Some (session_identifier f)).

Definition arg {A} (name : string) (show : A -> string) (o : option A) : list (string * string) :=
  match o with Some v => [(name, show v)] | None => [] end.
Definition to_rpc_args (f : FlowSessionFilter) : list (string * string) :=
  arg "source-prefix" (fun v => v) (source_prefix f) ++
  arg "destination-prefix" (fun v => v) (destination_prefix f) ++
  arg "source-port" dec (source_port f) ++
  arg "destination-port" dec (destination_port f) ++
  arg "protocol" rpc_value (protocol f) ++
  arg "application" (fun v => v) (application f) ++
  arg "session-identifier" dec (session_identifier f).

Inductive WalkDecision := Proceed | Refuse (reason : RefusalReason).
Definition plan_walk (summary_total : option N) (cap : N) : WalkDecision :=
  match summary_total with
  | Some total => if (total <=? cap)%N then Proceed else Refuse CountExceedsCap
  | None => Refuse CountUnavailable
  end.

Definition compose_refuse_raw (summary_xml : string) : string :=
  "<!-- summary -->" ^^ newline ^^ summary_xml.
Definition compose_walk_raw (summary_xml walk_xml : string) (truncated : bool) : string :=
  if truncated then
    "<!-- summary -->" ^^ newline ^^ summary_xml ^^ newline
    ^^ "<!-- walk raw XML omitted: result was truncated to the cap, and the raw walk body is not "
    ^^ "cap-bounded -->"
  else
    "<!-- summary -->" ^^ newline ^^ summary_xml ^^ newline ^^ "<!-- walk -->" ^^ newline
    ^^ walk_xml.

Section flow.
Context {X : External}.

Definition invalid {T} (msg : string) : Result T SrxError := Err (SrxInvalidInput msg).

Definition validate_prefix (s : string) : Result string SrxError :=
  let trimmed := trim s in
  if is_empty trimmed then invalid "prefix must not be empty" else
  match split_once "/"%char trimmed with
  | Some (addr, len) =>
      let? ip := ok_or (SrxInvalidInput "invalid prefix address") (parse_ip_addr addr) in
      let? len := ok_or (SrxInvalidInput "invalid prefix length") (parse_uint U8_MAX len) in
      let max := match ip with V4 _ => 32%N | V6 _ => 128%N end in
      if (len =? 0)%N then
        invalid ("prefix length must be at least 1 (/0 matches every address, which is not a "
                 ^^ "valid filter)")
      else if (max <? len)%N then invalid "prefix length out of range"
      else Ok trimmed
  | None =>
      let? _ := ok_or (SrxInvalidInput "invalid prefix") (parse_ip_addr trimmed) in
      Ok trimmed
  end.

(** [A-Za-z0-9._-]+ *)
Definition token_byte (c : ascii) : bool :=
  is_ascii_alphanumeric c || Ascii.eqb c "."%char || Ascii.eqb c "-"%char || Ascii.eqb c "_"%char.
Definition validate_identifier_token (field s : string) : Result string SrxError :=
  if (63 <? len s)%N then invalid (field ^^ " must be 63 characters or fewer")
  else if negb (str_forall token_byte s) then invalid (field ^^ " must match [A-Za-z0-9._-]+")
  else Ok s.

Definition validate_port (field : string) (p : N) : Result N SrxError :=
  if (p <=? U16_MAX)%N then Ok p else invalid (field ^^ " must be 0-65535").

(** [.map(str::trim).filter(non-empty)] *)
Definition given (o : option string) : option string :=
  match o with
  | Some s => if is_empty (trim s) then None else Some (trim s)
  | None => None
  end.

Definition validate_filter (args : FlowSessionsArgs) : Result FlowSessionFilter SrxError :=
  if is_empty (trim (fs_router args)) then invalid "router must not be empty" else
  if (bool_decide (is_Some (fs_source_port args)) || bool_decide (is_Some (fs_destination_port args)))
     && bool_decide (fs_protocol args = None)
  then invalid "source_port/destination_port filter requires protocol" else
  let? source_prefix := transpose validate_prefix (fs_source_prefix args) in
  let? destination_prefix := transpose validate_prefix (fs_destination_prefix args) in
  let? source_port := transpose (validate_port "source_port") (fs_source_port args) in
  let? destination_port := transpose (validate_port "destination_port") (fs_destination_port args) in
  let? protocol := transpose protocol_parse (fs_protocol args) in
  let? application :=
    transpose (validate_identifier_token "application") (given (fs_application args)) in
  let? session_identifier :=
    transpose (fun s => ok_or (SrxInvalidInput "session_identifier must be a non-negative integer")
                          (parse_uint U64_MAX s)) (given (fs_session_identifier args)) in
  let filter := {| source_prefix := source_prefix; destination_prefix := destination_prefix;
                   source_port := source_port; destination_port := destination_port;
                   protocol := protocol; application := application;
                   session_identifier := session_identifier |} in
  if negb (has_filter filter) && negb (fs_acknowledge_unfiltered args) then
    invalid ("flow-session query has no filter; narrow the query or set "
             ^^ "acknowledge_unfiltered=true to accept a capped, possibly-truncated walk")
  else Ok filter.

Definition validate_cap (cap : option N) : Result N SrxError :=
  let cap := default DEFAULT_CAP cap in
  if (cap =? 0)%N then invalid "cap must be at least 1"
  else if (MAX_CAP <? cap)%N then
    invalid ("cap " ^^ dec cap ^^ " exceeds hard ceiling " ^^ dec MAX_CAP)
  else Ok cap.

Context {RX : Roxmltree}.

Record RpcErrorInfo := { message : string; is_warning : bool; is_error : bool }.

Definition error_text (err : Node) : string :=
  default "rpc-error (no error-message)"
    (match trimmed_text (descendant "error-message" err) with
     | Some t => if is_empty t then None else Some t
     | None => None
     end).
Definition severity (err : Node) : option string :=
  to_ascii_lowercase <$> trimmed_text (descendant "error-severity" err).

Definition extract_rpc_error (xml : string) : option RpcErrorInfo :=
  match parse_document (ensure_single_root xml) with
  | Err _ => None
  | Ok doc =>
      match descendants_named "rpc-error" doc with
      | [] => None
      | errors =>
          let any s := existsb (fun e => bool_decide (severity e = Some s)) errors in
          Some {| message := RustStr.join "; " (map error_text errors);
                  is_warning := any "warning" && negb (any "error");
                  is_error := any "error" |}
      end
  end.

(** [.find(..).and_then(text).and_then(parse)] *)
Definition count_in (tag : string) (doc : Node) : option N :=
  match trimmed_text (descendant tag doc) with Some t => parse_uint U64_MAX t | None => None end.
Definition node_count (doc : Node) : option N :=
  match count_in "displayed-session-count" doc with
  | Some count => Some count
  | None => count_in "sessions-in-use" doc
  end.

(** The loop of [parse_summary_total]: [None] as soon as one node's count is
    unknown; [total] is [None] until a node was counted. *)
Fixpoint sum_counts (total : option N) (re_nodes : list ReNode) : Result (option N) SrxError :=
  match re_nodes with
  | [] => Ok total
  | re_node :: rest =>
      let count :=
        let? doc := roxml (ensure_single_root (inner_xml re_node)) in
        match node_count doc with
        | Some count => sum_counts (Some (N.min U64_MAX (default 0%N total + count))) rest
        | None => Ok None
        end in
      match extract_rpc_error (inner_xml re_node) with
      | Some e =>
          if is_error e then Ok None
          else if negb (is_warning e) then sum_counts total rest
          else count
      | None => count
      end
  end.
Definition parse_summary_total (xml : string) : Result (option N) SrxError :=
  let? re_nodes := multi_re_split xml in sum_counts None re_nodes.

Definition session_address (block : Node) (tag : string) : Result IpAddr SrxError :=
  ok_or (schema_mismatch "get-flow-session-information" tag)
    (match child_text block tag with Some t => parse_ip_addr t | None => None end).
Definition session_port (block : Node) (tag : string) : N := default 0%N (child_uint U16_MAX block tag).
Definition translated (block : Node) (address_tag port_tag : string) : option (IpAddr * N) :=
  match child_text block address_tag with
  | Some t => (fun a => (a, session_port block port_tag)) <$> parse_ip_addr t
  | None => None
  end.

Definition parse_session (block : Node) : Result FlowSession SrxError :=
  let? session_id := ok_or (schema_mismatch "get-flow-session-information" "session-identifier")
    (child_uint U64_MAX block "session-identifier") in
  let? source_address := session_address block "source-address" in
  let? destination_address := session_address block "destination-address" in
  Ok {|
    session_id := session_id;
    fl_protocol := default "" (child_text block "session-protocol-name");
    source := (source_address, session_port block "source-port");
    destination := (destination_address, session_port block "destination-port");
    translated_source := translated block "nat-source-address" "nat-source-port";
    translated_destination := translated block "nat-destination-address" "nat-destination-port";
    fl_application := child_text block "application";
    policy_name := child_text block "policy-name";
    in_interface := default "" (child_text block "in-interface-name");
    out_interface := default "" (child_text block "out-interface-name");
    fl_timeout := default 0%N (child_uint U32_MAX block "timeout");
    duration := default 0%N (child_uint U32_MAX block "duration")
  |}.
Definition parse_sessions (xml : string) : Result (list FlowSession) SrxError :=
  let? doc := roxml (ensure_single_root xml) in
  collect_results parse_session (descendants_named "flow-session" doc).

(** The nodes' sessions, at most [remaining] of them; whether any was cut. *)
Fixpoint walk_nodes (remaining : nat) (re_nodes : list ReNode)
  : Result (list NodeSessions * bool) SrxError :=
  match re_nodes with
  | [] => Ok ([], false)
  | re_node :: rest =>
      let rpc_error := extract_rpc_error (inner_xml re_node) in
      let read :=
        let? sessions := parse_sessions (inner_xml re_node) in
        let cut := (remaining <? length sessions)%nat in
        let sessions := take remaining sessions in
        let? (nodes, truncated) := walk_nodes (remaining - length sessions) rest in
        Ok ({| ns_re_name := re_name re_node; sessions := sessions;
               ns_error := message <$> rpc_error |} :: nodes, cut || truncated) in
      match rpc_error with
      | Some err =>
          if negb (is_warning err) then
            let? (nodes, truncated) := walk_nodes remaining rest in
            Ok ({| ns_re_name := re_name re_node; sessions := [];
                   ns_error := Some (message err) |} :: nodes, truncated)
          else read
      | None => read
      end
  end.

Definition parse_walk (xml : string) (total_count_reported : option N) (cap : N)
  : Result (SrxToolResponse FlowSessionQuery) SrxError :=
  let? re_nodes := multi_re_split (sanitize_rustez_xml xml) in
  let? (nodes, cut) := walk_nodes (N.to_nat cap) re_nodes in
  let over := match total_count_reported with Some t => (cap <? t)%N | None => false end in
  Ok (active {| nodes := nodes; total_count_reported := total_count_reported;
                truncated := over || cut; refused := None; cap := cap |}).

Context {S : Type} {SD : SrxDevice S}.

Definition FLOW_RPC : string := "get-flow-session-information".

Definition flow_run (args : FlowSessionsArgs) : Act S (SrxToolResponse FlowSessionQuery) SrxError :=
  let! filter := act_ret (validate_filter args) in
  let! cap := act_ret (validate_cap (fs_cap args)) in
  let! _ := rpc in
  let filter_rpc_args := to_rpc_args filter in
  let! summary_xml := call FLOW_RPC (("summary", "") :: filter_rpc_args) in
  let! total_count_reported := act_ret (parse_summary_total summary_xml) in
  match plan_walk total_count_reported cap with
  | Refuse reason =>
      let resp := active {| nodes := []; total_count_reported := total_count_reported;
                            truncated := true; refused := Some reason; cap := cap |} in
      ok (if fs_include_raw args then with_raw (compose_refuse_raw summary_xml) resp else resp)
  | Proceed =>
      let! walk_xml := call FLOW_RPC filter_rpc_args in
      let! parsed := act_ret (parse_walk walk_xml total_count_reported cap) in
      ok (if fs_include_raw args then
            let truncated := match sr_data parsed with Some d => truncated d | None => false end in
            with_raw (compose_walk_raw summary_xml walk_xml truncated) parsed
          else parsed)
  end.

End flow.

(** ** What a session query may do ([rust-junosmcp-srx-core/src/workflows/flow_sessions.rs])

    The sessions are asked for only after a count, of the very same query, that
    is within the cap; and no more than the cap are returned. *)

Section spec.
Context {X : External} {RX : Roxmltree} {S : Type} {SD : SrxDevice S}.

(** The sessions a query returns. *)
Definition session_total (l : list NodeSessions) : nat := sum_list (map (fun n => length (sessions n)) l).

Lemma walk_nodes_bound remaining re_nodes l cut :
  walk_nodes remaining re_nodes = Ok (l, cut) -> session_total l <= remaining.
Proof.
  revert remaining l cut. induction re_nodes as [|re re_nodes IH]; intros remaining l cut; cbn [walk_nodes].
  { intros [= <- <-]. cbn. lia. }
  assert (Hread : (let? read := parse_sessions (inner_xml re) in
      let cut := (remaining <? length read)%nat in
      let read := take remaining read in
      let? (nodes, truncated) := walk_nodes (remaining - length read) re_nodes in
      Ok ({| ns_re_name := re_name re; sessions := read;
             ns_error := message <$> extract_rpc_error (inner_xml re) |} :: nodes, cut || truncated))
    = Ok (l, cut) -> session_total l <= remaining).
  { destruct (parse_sessions _) as [read|]; [|done]. cbn zeta.
    destruct (walk_nodes _ re_nodes) as [[l' cut']|] eqn:Hl; [|done]. intros [= <- _].
    apply IH in Hl. unfold session_total in *. cbn. rewrite length_take in *. lia. }
  destruct (extract_rpc_error _) as [e|]; [|exact Hread].
  destruct (negb (is_warning e)); [|exact Hread].
  destruct (walk_nodes remaining re_nodes) as [[l' cut']|] eqn:Hl; [|done]. intros [= <- _].
  apply IH in Hl. done.
Qed.

Lemma validate_cap_bounds o c : validate_cap o = Ok c -> (1 <= c <= MAX_CAP)%N.
Proof.
  unfold validate_cap, invalid. destruct (N.eqb_spec (default DEFAULT_CAP o) 0); [done|].
  destruct (N.ltb_spec MAX_CAP (default DEFAULT_CAP o)); [done|]. intros [= <-]. lia.
Qed.

(** A filter narrows the query, or the caller said it knows that it does not. *)
Lemma validate_filter_narrows args f :
  validate_filter args = Ok f -> has_filter f || fs_acknowledge_unfiltered args = true.
Proof.
  unfold validate_filter, invalid. repeat case_match; try done. all: intros [= <-].
  all: match goal with H : negb _ && negb _ = false |- _ =>
         apply andb_false_iff in H; rewrite !negb_false_iff in H end.
  all: apply orb_true_iff; done.
Qed.

Definition asks (f : FlowSessionFilter) (summary : bool) (reply : option string) : Sent :=
  SentCall FLOW_RPC ((if summary then [("summary", "")] else []) ++ to_rpc_args f) reply.

Lemma parse_walk_bound xml total c resp :
  parse_walk xml total c = Ok resp ->
  exists q, sr_data resp = Some q /\ cap q = c /\ refused q = None /\
    (N.of_nat (session_total (nodes q)) <= c)%N.
Proof.
  unfold parse_walk. destruct (multi_re_split _) as [re_nodes|]; [|done].
  destruct (walk_nodes _ re_nodes) as [[l cut]|] eqn:Hl; [|done]. intros [= <-].
  apply walk_nodes_bound in Hl. eexists. repeat split. cbn [nodes]. lia.
Qed.

Lemma if_raw_data {T} (b : bool) raw (r : SrxToolResponse T) :
  sr_data (if b then with_raw raw r else r) = sr_data r.
Proof. by destruct b. Qed.

(** The calls of a query: nothing, the count, or the count and the sessions, in
    which case the count was read, and within the cap. *)
Definition counted_first (f : FlowSessionFilter) (c : N) (t : list Sent) : Prop :=
  t = [] \/
  (exists reply, t = [asks f true reply]) \/
  (exists summary n reply,
     t = [asks f true (Some summary); asks f false reply] /\
     parse_summary_total summary = Ok (Some n) /\ (n <= c)%N).

(** A query of the session table never asks for the sessions before it has
    asked for their number.  The only calls it makes are the count and then,
    when the count could be read and is within the cap, the sessions, both with
    the same filter; the cap is at most 2000, and an unfiltered query needs the
    caller's acknowledgement.  Whatever the device answers, the response holds
    at most that many sessions over all nodes, and a refused one none. *)
Theorem flow_counts_first args :
  sends (flow_run args) (fun r t =>
    match validate_filter args, validate_cap (fs_cap args) with
    | Ok f, Ok c =>
        has_filter f || fs_acknowledge_unfiltered args = true /\ (1 <= c <= MAX_CAP)%N /\
        counted_first f c t /\
        match r with
        | Ok resp => exists q, sr_data resp = Some q /\ cap q = c /\
            (N.of_nat (session_total (nodes q)) <= c)%N /\
            (refused q = None <-> length t = 2) /\ (is_Some (refused q) -> nodes q = [])
        | Err _ => True
        end
    | _, _ => t = [] /\ is_ok r = false
    end).
Proof.
  unfold flow_run. apply sends_then_ret; [intros e ->; done|]. intros f Hf.
  pose proof (validate_filter_narrows _ _ Hf) as Hn. rewrite Hf.
  apply sends_then_ret; [intros e ->; done|]. intros c Hc.
  pose proof (validate_cap_bounds _ _ Hc) as Hb. rewrite Hc.
  apply (sends_then _ _ (fun _ t => t = [])); [by apply sends_rpc| |].
  { intros e t ->. repeat split; try done; try lia. by left. }
  intros [] ? ->. eapply sends_then; [apply sends_call| |].
  { intros e t (reply & -> & ->). repeat split; try done; try lia. right. left. by eexists. }
  intros summary ? (? & -> & ->). apply sends_then_ret.
  { intros e _. repeat split; try done; try lia. right. left. by eexists. }
  intros total Htotal. destruct (plan_walk total c) as [|reason] eqn:Hplan.
  - destruct total as [n|]; [|done]. cbn in Hplan.
    destruct (N.leb_spec n c); [|done].
    eapply sends_then; [apply sends_call| |].
    { intros e t (reply & -> & ->). repeat split; try done; try lia. right. right.
      exists summary, n, None. done. }
    intros walk_xml ? (? & -> & ->).
    assert (Hcounted : counted_first f c
      [asks f true (Some summary); asks f false (Some walk_xml)]).
    { right. right. by exists summary, n, (Some walk_xml). }
    apply sends_then_ret; [by intros e _; repeat split; try done; try lia|].
    intros parsed (q & Hq & Hcap & Href & Htot)%parse_walk_bound.
    apply sends_ret. repeat split; try done; try lia. exists q. rewrite if_raw_data, Hq, Href.
    repeat split; [done|done|]. by intros [].
  - apply sends_ret. repeat split; try done; try lia. { right. left. by eexists. }
    rewrite if_raw_data. eexists. repeat split; [cbn; lia|done|done].
Qed.

End spec.
