(* ===== verification/PolicyMatch.v ===== *)
(** * Policy match ([rust-junosmcp-srx-core/src/workflows/policy_match.rs])

    The device's verdict on a 5-tuple: its zone-pair policies first, and when
    none matches its global ones.  Its properties follow. *)

From S2P Require Import Prelude RustStr Fmt Errors NetAddr JsonValue SrxErrors XmlText Xml Async SrxDevice.
From S2P Require Import ClusterStatus SrxDevice SrxReader FlowSessions.
From Stdlib Require Import Ascii.

(** ** [Display] of an [IpAddr] *)

Definition hex_digit (d : N) : ascii := ascii_of_N (if (d <? 10)%N then 48 + d else 87 + d).
(** [{:x}]; a segment has at most four digits. *)
Fixpoint hex_go (fuel : nat) (n : N) : string :=
  match fuel with
  | 0 => ""
  | S f => if (n <? 16)%N then String (hex_digit n) ""
           else hex_go f (n / 16) ^^ String (hex_digit (n mod 16)) ""
  end.
Definition hex_segment : N -> string := hex_go 4.

(** A run of zero segments: where it starts and how long it is. *)
Record Span := { start : nat; span_len : nat }.
Fixpoint longest_zeros (i : nat) (longest current : Span) (segments : list N) : Span :=
  match segments with
  | [] => longest
  | segment :: rest =>
      if (segment =? 0)%N then
        let current := {| start := if (span_len current =? 0)%nat then i else start current;
                          span_len := 1 + span_len current |} in
        longest_zeros (1 + i)
          (if (span_len longest <? span_len current)%nat then current else longest) current rest
      else longest_zeros (1 + i) longest {| start := 0; span_len := 0 |} rest
  end.

Definition ipv4_to_string (octets : list N) : string := RustStr.join "." (map dec octets).
Definition hex_segments (l : list N) : string := RustStr.join ":" (map hex_segment l).
Definition ipv6_to_string (segments : list N) : string :=
  match segments with
  | [0; 0; 0; 0; 0; 65535; ab; cd]%N =>
      "::ffff:" ^^ ipv4_to_string [ab / 256; ab mod 256; cd / 256; cd mod 256]%N
  | _ =>
      let none := {| start := 0; span_len := 0 |} in
      let longest := longest_zeros 0 none none segments in
      if (1 <? span_len longest)%nat then
        hex_segments (take (start longest) segments) ^^ "::"
        ^^ hex_segments (drop (start longest + span_len longest) segments)
      else hex_segments segments
  end.
Definition ip_to_string (a : IpAddr) : string :=
  match a with V4 o => ipv4_to_string o | V6 s => ipv6_to_string s end.

Example ip_compressed : ip_to_string (V6 [65152; 0; 0; 0; 0; 0; 0; 1]%N) = "fe80::1".
Proof. reflexivity. Qed.
Example ip_first_run : ip_to_string (V6 [1; 0; 0; 2; 0; 0; 3; 4]%N) = "1::2:0:0:3:4".
Proof. reflexivity. Qed.
Example ip_mapped : ip_to_string (V6 [0; 0; 0; 0; 0; 65535; 258; 772]%N) = "::ffff:1.2.3.4".
Proof. reflexivity. Qed.

(** ** The 5-tuple *)

Record FiveTuple := {
  ft_from_zone : string;
  ft_to_zone : string;
  source_ip : IpAddr;
  destination_ip : IpAddr;
  ft_source_port : N;
  ft_destination_port : N;
  ft_protocol : Protocol
}.
Inductive MatchVerdict := Permit | Deny | Reject | NoMatch.
Inductive DefaultAction := DefaultDeny | DefaultPermit.
Record MatchedPolicy := {
  mp_from_zone : string; mp_to_zone : string; mp_name : string; mp_sequence : N
}.
Record PolicyMatchResult := {
  verdict : MatchVerdict;
  matched_policy : option MatchedPolicy;
  is_global : bool;
  default_action : option DefaultAction
}.

Section policy_match.
Context {X : External} {RX : Roxmltree}.

Definition validate_zone_token (field s : string) : Result string SrxError :=
  if is_empty s then invalid (field ^^ " must not be empty")
  else if (63 <? len s)%N then invalid (field ^^ " must be 63 characters or fewer")
  else if negb (str_forall token_byte s) then invalid (field ^^ " must match [A-Za-z0-9._-]+")
  else Ok s.

Definition parse_five_tuple (args : PolicyMatchArgs) : Result FiveTuple SrxError :=
  if is_empty (trim (pm_router args)) then invalid "router must not be empty" else
  let? from_zone := validate_zone_token "from_zone" (trim (pm_from_zone args)) in
  let? to_zone := validate_zone_token "to_zone" (trim (pm_to_zone args)) in
  let? source_ip := ok_or (SrxInvalidInput "source_ip is not a valid IP address")
    (parse_ip_addr (trim (pm_source_ip args))) in
  let? destination_ip := ok_or (SrxInvalidInput "destination_ip is not a valid IP address")
    (parse_ip_addr (trim (pm_destination_ip args))) in
  let? source_port := validate_port "source_port" (pm_source_port args) in
  let? destination_port := validate_port "destination_port" (pm_destination_port args) in
  let? protocol := protocol_parse (pm_protocol args) in
  Ok {| ft_from_zone := from_zone; ft_to_zone := to_zone; source_ip := source_ip;
        destination_ip := destination_ip; ft_source_port := source_port;
        ft_destination_port := destination_port; ft_protocol := protocol |}.

(** ** The replies *)

Definition zone_field (rpc : string) (global : bool) (policy_node : Node) (name : string)
  : Result string SrxError :=
  match child_text policy_node name with
  | Some z => Ok z
  | None => if global then Ok "any" else Err (schema_mismatch rpc name)
  end.

Definition fell_through (action_lc : string) : option DefaultAction :=
  match action_lc with
  | "deny-all" => Some DefaultDeny
  | "permit-all" => Some DefaultPermit
  | _ => None
  end.

Definition explicit_verdict (action_lc : string) : Result MatchVerdict SrxError :=
  match action_lc with
  | "permit" => Ok Permit
  | "deny" => Ok Deny
  | "reject" => Ok Reject
  | other => Err (SrxParse ("unrecognised match-policies action-type: " ^^ debug_str other))
  end.

Definition policy_reply (rpc : string) (global : bool) (policy_node : Node)
  : Result PolicyMatchResult SrxError :=
  let? policy_name := ok_or (schema_mismatch rpc "policy-name") (child_text policy_node "policy-name") in
  let? action_type := ok_or (schema_mismatch rpc "action-type") (child_text policy_node "action-type") in
  let sequence := default 0%N (child_uint U32_MAX policy_node "policy-sequence-number") in
  let action_lc := to_ascii_lowercase (trim action_type) in
  match fell_through action_lc with
  | Some default_action =>
      Ok {| verdict := NoMatch; matched_policy := None; is_global := false;
            default_action := Some default_action |}
  | None =>
      let? verdict := explicit_verdict action_lc in
      let? from_zone := zone_field rpc global policy_node "from-zone-name" in
      let? to_zone := zone_field rpc global policy_node "to-zone-name" in
      Ok {| verdict := verdict;
            matched_policy := Some {| mp_from_zone := from_zone; mp_to_zone := to_zone;
                                      mp_name := policy_name; mp_sequence := sequence |};
            is_global := global || (eq_ignore_ascii_case from_zone "any"
                                    && eq_ignore_ascii_case to_zone "any");
            default_action := None |}
  end.

Definition parse_reply (xml rpc : string) (global : bool)
  : Result (SrxToolResponse PolicyMatchResult) SrxError :=
  let? re_nodes := multi_re_split (sanitize_rustez_xml xml) in
  let? node :=
    ok_or (SrxRpc "rpc-error" "error" ("every node returned rpc-error for " ^^ rpc))
      (find (fun n => negb (contains_rpc_error (inner_xml n))) re_nodes) in
  let? doc := roxml (inner_xml node) in
  let? policy_node :=
    ok_or (schema_mismatch rpc "policy-information") (descendant "policy-information" doc) in
  map_result active (policy_reply rpc global policy_node).
Definition match_parse (xml : string) : Result (SrxToolResponse PolicyMatchResult) SrxError :=
  parse_reply xml "match-firewall-policies" false.
Definition parse_global (xml : string) : Result (SrxToolResponse PolicyMatchResult) SrxError :=
  parse_reply xml "match-global-policies" true.

(** [data.is_some_and(|d| d.verdict == NoMatch)], and its [!=] counterpart. *)
Definition no_match (d : PolicyMatchResult) : bool :=
  match verdict d with NoMatch => true | _ => false end.
Definition zone_fell_through (r : SrxToolResponse PolicyMatchResult) : bool :=
  match sr_data r with Some d => no_match d | None => false end.
Definition global_matched (r : SrxToolResponse PolicyMatchResult) : bool :=
  match sr_data r with Some d => negb (no_match d) | None => false end.

Definition match_resolve (zone_xml : string) (global_xml : option string)
  : Result (SrxToolResponse PolicyMatchResult) SrxError :=
  let? zone := match_parse zone_xml in
  if negb (zone_fell_through zone) then Ok zone else
  let? global_xml :=
    ok_or (SrxParse ("zone-pair query fell through to the default policy; the global-policy "
                     ^^ "query is required before answering")) global_xml in
  let? global := parse_global global_xml in
  Ok (if global_matched global then global else zone).

Context {S : Type} {SD : SrxDevice S}.

Definition tuple_args (t : FiveTuple) : list (string * string) :=
  [("source-ip", ip_to_string (source_ip t));
   ("destination-ip", ip_to_string (destination_ip t));
   ("source-port", dec (ft_source_port t));
   ("destination-port", dec (ft_destination_port t));
   ("protocol", rpc_value (ft_protocol t))].
Definition zone_args (t : FiveTuple) : list (string * string) :=
  ("from-zone", ft_from_zone t) :: ("to-zone", ft_to_zone t) :: tuple_args t.

Definition match_run (args : PolicyMatchArgs) : Act S (SrxToolResponse PolicyMatchResult) SrxError :=
  let! five_tuple := act_ret (parse_five_tuple args) in
  let! _ := rpc in
  let! zone_reply := call "match-firewall-policies" (zone_args five_tuple) in
  let! zone := act_ret (match_parse zone_reply) in
  let! global_reply :=
    if zone_fell_through zone then
      let! reply := call "match-global-policies" (tuple_args five_tuple) in ok (Some reply)
    else ok None in
  let! parsed := act_ret (match_resolve zone_reply global_reply) in
  ok (if pm_include_raw args then
        with_raw (match global_reply with
                  | Some global => zone_reply ^^ newline ^^ global
                  | None => zone_reply
                  end) parsed
      else parsed).

End policy_match.

(** ** What a policy match answers ([rust-junosmcp-srx-core/src/workflows/policy_match.rs])

    The answer follows the device's order of evaluation: its zone-pair policies,
    then its global ones, then its default. *)

Section spec.
Context {X : External} {RX : Roxmltree} {S : Type} {SD : SrxDevice S}.

Definition zone_query (t : FiveTuple) (reply : option string) : Sent :=
  SentCall "match-firewall-policies" (zone_args t) reply.
Definition global_query (t : FiveTuple) (reply : option string) : Sent :=
  SentCall "match-global-policies" (tuple_args t) reply.

(** A reply that parses is one record. *)
Lemma parse_reply_active xml rpc global r :
  parse_reply xml rpc global = Ok r -> exists d, r = active d /\
    (verdict d <> NoMatch -> global = true -> is_global d = true) /\
    (verdict d = NoMatch <-> is_Some (default_action d)).
Proof.
  unfold parse_reply. destruct (multi_re_split _); [|done]. destruct (find _ _); [|done].
  cbn [ok_or]. destruct (roxml _); [|done]. destruct (descendant _ _) as [n|]; [|done].
  cbn [ok_or]. unfold policy_reply. destruct (child_text n "policy-name"); [|done].
  destruct (child_text n "action-type"); [|done]. cbn [ok_or map_result].
  destruct (fell_through _) as [a|].
  - intros [= <-]. eexists. split; [done|]. cbn. split; [done|]. by split; [eexists|].
  - destruct (explicit_verdict _) as [v|] eqn:Hv; [|done].
    destruct (zone_field _ _ _ _) as [f|]; [|done]. destruct (zone_field _ _ _ _) as [g|]; [|done].
    intros [= <-]. eexists. split; [done|]. cbn. split; [by intros _ ->|].
    split; [|by intros []]. intros ->. unfold explicit_verdict in Hv. by repeat case_match.
Qed.

(** C31: The verdict on a 5-tuple is the device's, in its order of evaluation.  A
    malformed tuple is refused before anything is sent.  Otherwise the zone-pair
    policies are asked first, and an explicit match there is the answer; when
    they fall through to the default policy the global policies are asked with
    the same addresses, ports and protocol, an explicit match there is the
    answer, marked as global, and only when they fall through as well is the
    default reported.  A query that fails leaves no answer. *)
Theorem match_follows_evaluation_order args :
  sends (match_run args) (fun r t =>
    match parse_five_tuple args with
    | Err _ => t = [] /\ is_ok r = false
    | Ok ft =>
        match r with
        | Err _ => t = [] \/ (exists reply, t = [zone_query ft reply]) \/
                   exists reply reply', t = [zone_query ft reply; global_query ft reply']
        | Ok resp =>
            exists zone_reply zone d,
              match_parse zone_reply = Ok (active zone) /\ sr_data resp = Some d /\
              (verdict zone <> NoMatch /\ d = zone /\ t = [zone_query ft (Some zone_reply)] \/
               verdict zone = NoMatch /\
               exists global_reply global,
                 parse_global global_reply = Ok (active global) /\
                 t = [zone_query ft (Some zone_reply); global_query ft (Some global_reply)] /\
                 (verdict global = NoMatch /\ d = zone \/
                  verdict global <> NoMatch /\ d = global /\ is_global d = true))
        end
    end).
Proof.
  unfold match_run. apply sends_then_ret; [intros e ->; done|]. intros ft ->.
  apply (sends_then _ _ (fun _ t => t = [])); [by apply sends_rpc|intros e t ->; by left|].
  intros [] ? ->. eapply sends_then; [apply sends_call| |].
  { intros e t (reply & -> & _). right. left. by eexists. }
  intros zone_reply ? (? & -> & ->). apply sends_then_ret.
  { intros e _. right. left. by eexists. }
  intros zone Hzone. destruct (parse_reply_active _ _ _ _ Hzone) as (zd & -> & _).
  unfold zone_fell_through. cbn [sr_data active].
  unfold match_resolve. rewrite Hzone. unfold zone_fell_through. cbn [sr_data active].
  destruct (no_match zd) eqn:Hnm; cbn [negb].
  - assert (verdict zd = NoMatch) as Hv by (unfold no_match in Hnm; by destruct (verdict zd)).
    eapply (sends_then _ _ (fun r t => exists reply, t = [global_query ft reply] /\
      match r with Ok o => o = reply /\ is_Some reply | Err _ => True end)).
    { eapply sends_then; [apply sends_call| |].
      - intros e t (reply & -> & _). by eexists.
      - intros x t (? & -> & ->). apply sends_ret. eexists. split; [done|]. split; [done|]. by eexists. }
    { intros e t (reply & -> & _). right. right. by do 2 eexists. }
    intros o t (? & -> & <- & [global_reply ->]). cbn [ok_or]. apply sends_then_ret.
    { intros e _. right. right. by do 2 eexists. }
    intros parsed. destruct (parse_global global_reply) as [global|] eqn:Hg; [|done].
    destruct (parse_reply_active _ _ _ _ Hg) as (gd & -> & Hglob & _). intros [= <-].
    apply sends_ret. exists zone_reply, zd. rewrite if_raw_data. unfold global_matched.
    cbn [sr_data active]. destruct (no_match gd) eqn:Hgm; cbn [negb sr_data active]; eexists;
      (split; [done|]); (split; [done|]); right; (split; [done|]); exists global_reply, gd;
      (split; [done|]); (split; [done|]).
    + left. split; [|done]. unfold no_match in Hgm. by destruct (verdict gd).
    + right. assert (verdict gd <> NoMatch) by (intros Hv'; unfold no_match in Hgm; by rewrite Hv' in Hgm).
      auto.
  - apply sends_then_ret; [done|]. intros o [= <-]. apply sends_then_ret; [done|].
    intros parsed [= <-]. apply sends_ret. exists zone_reply, zd, zd. rewrite if_raw_data.
    split; [done|]. split; [done|]. left. split; [|done].
    intros Hv. unfold no_match in Hnm. by rewrite Hv in Hnm.
Qed.

End spec.
