(* ===== verification/ServicesStatus.v ===== *)
(** * Security services ([rust-junosmcp-srx-core/src/workflows/services_status.rs])

    Five sub-calls, each of which may fail by itself, and per node the state of
    the five services.  Its properties follow. *)

From S2P Require Import Prelude RustStr Fmt Errors JsonValue SrxErrors XmlText Xml Async SrxDevice.
From S2P Require Import SrxDevice SrxReader.
From S2P Require Import CandidateSpec.

Record SubCall := { sub_raw : string; sub_result : Result (list ReNode) string }.

Record SubServiceStatus (T : Type) := {
  ss_state : SrxState; ss_data : option T; ss_reason : option string
}.
Arguments ss_state {T}.
Arguments ss_data {T}.
Arguments ss_reason {T}.

Definition sub_active {T} (data : T) : SubServiceStatus T :=
  {| ss_state := Active; ss_data := Some data; ss_reason := None |}.
Definition sub_not_configured {T} (reason : string) : SubServiceStatus T :=
  {| ss_state := NotConfigured; ss_data := None; ss_reason := Some reason |}.
Definition sub_error {T} (reason : string) : SubServiceStatus T :=
  {| ss_state := SrxStateError; ss_data := None; ss_reason := Some reason |}.

Record IdpInfo := { package_version : string; detector_version : string }.
Record AppIdInfo := { appid_version : string }.
Record UtmAvInfo := { engine_type : string }.
Record SecIntelInfo := { feeds : list string }.
Record AtpCloudInfo := { connection_url : option string }.
Record NodeServicesStatus := {
  sv_re_name : string;
  idp : SubServiceStatus IdpInfo;
  appid : SubServiceStatus AppIdInfo;
  utm_av : SubServiceStatus UtmAvInfo;
  secintel : SubServiceStatus SecIntelInfo;
  atp_cloud : SubServiceStatus AtpCloudInfo
}.
Record ServicesStatusData := { sv_nodes : list NodeServicesStatus }.

Section services.
Context {X : External} {RX : Roxmltree}.

(** What the five parsers begin with: a reply that does not parse, or is an
    error, decides the status. *)
Definition parse_service {T} (read : Node -> SubServiceStatus T) (xml : string)
  : SubServiceStatus T :=
  match parse_document xml with
  | Err e => sub_error ("xml parse error: " ^^ e)
  | Ok doc =>
      match rpc_error_parts doc with
      | Some (error_tag, reason) =>
          if String.eqb error_tag "not-configured" then sub_not_configured reason
          else sub_error reason
      | None => read doc
      end
  end.

(** The root or the first descendant with the name. *)
Definition find_element (node : Node) (name : string) : option Node :=
  if String.eqb (tag_name node) name then Some node else descendant name node.

Definition parse_idp : string -> SubServiceStatus IdpInfo := parse_service (fun doc =>
  match find_element doc "idp-security-package-information" with
  | None => sub_not_configured "idp-security-package-information element absent"
  | Some el =>
      sub_active {| package_version := default "" (text_child el "security-package-version");
                    detector_version := default "" (text_child el "detector-version") |}
  end).
Definition parse_appid : string -> SubServiceStatus AppIdInfo := parse_service (fun doc =>
  match find_element doc "appid-package-version" with
  | None => sub_not_configured "appid-package-version element absent"
  | Some el => sub_active {| appid_version := default "" (text_child el "version-detail") |}
  end).
Definition parse_utm_av : string -> SubServiceStatus UtmAvInfo := parse_service (fun doc =>
  let engine_type := default "" (trimmed_text (descendant "anti-virus-scan-engine-type" doc)) in
  if is_empty engine_type || String.eqb engine_type "no-config"
  then sub_not_configured "UTM anti-virus not configured (no-config)"
  else sub_active {| engine_type := engine_type |}).
Definition parse_secintel : string -> SubServiceStatus SecIntelInfo := parse_service (fun doc =>
  let feeds := List.filter (fun s => negb (is_empty s))
                 (omap (fun n => trim <$> node_text n) (descendants_named "feed-name" doc)) in
  let has_summary := bool_decide (is_Some (descendant "secintel-feed-summary" doc)) in
  if negb has_summary && bool_decide (feeds = [])
  then sub_not_configured "secintel-feed-summary element absent"
  else sub_active {| feeds := feeds |}).
Definition parse_atp : string -> SubServiceStatus AtpCloudInfo := parse_service (fun doc =>
  if bool_decide (is_Some (descendant "aamw-errors" doc))
  then sub_not_configured "AAMW/ATP Cloud not configured (no connection URL)"
  else match descendant "aamw-status" doc with
       | None => sub_not_configured "aamw-status element absent"
       | Some status_node =>
           sub_active {| connection_url := text_child status_node "aamw-connection-url" |}
       end).

Definition per_node {T} (sub : SubCall) (index : nat) (parse : string -> SubServiceStatus T)
  : SubServiceStatus T :=
  match sub_result sub with
  | Err reason => sub_error reason
  | Ok nodes =>
      match nodes !! index with
      | Some node => parse (inner_xml node)
      | None => sub_error "no payload for this RE node"
      end
  end.

(** The names of the first sub-call that could be split. *)
Definition node_names (subs : list SubCall) : list string :=
  match omap (fun s => result_ok (sub_result s)) subs with
  | nodes :: _ => map re_name nodes
  | [] => [""]
  end.

Definition not_configured_state {T} (s : SubServiceStatus T) : bool :=
  match ss_state s with NotConfigured => true | _ => false end.
Definition absent (n : NodeServicesStatus) : bool :=
  not_configured_state (idp n) && not_configured_state (appid n) && not_configured_state (utm_av n)
  && not_configured_state (secintel n) && not_configured_state (atp_cloud n).

(** What the five captures say. *)
Definition services_of (idp appid utm secintel atp : SubCall)
  : SrxToolResponse ServicesStatusData :=
  let nodes := imap (fun i name => {|
      sv_re_name := name; idp := per_node idp i parse_idp; appid := per_node appid i parse_appid;
      utm_av := per_node utm i parse_utm_av; secintel := per_node secintel i parse_secintel;
      atp_cloud := per_node atp i parse_atp |})
    (node_names [idp; appid; utm; secintel; atp]) in
  if forallb absent nodes
  then not_configured "no SRX security services configured on this device"
  else active {| sv_nodes := nodes |}.

Context (srx_display : SrxError -> string).
Context {S : Type} {SD : SrxDevice S}.

Definition capture (rpc : string) : Act S SubCall SrxError :=
  act_bind (await (rpc_call rpc [])) (fun r =>
    ok match r with
       | Ok xml => {| sub_raw := xml;
                      sub_result := map_err (fun e => "xml split error: " ^^ srx_display e)
                                      (multi_re_split xml) |}
       | Err e => {| sub_raw := ""; sub_result := Err ("rpc error: " ^^ rustez_display e) |}
       end).

Definition services_run (args : ServicesStatusArgs)
  : Act S (SrxToolResponse ServicesStatusData) SrxError :=
  let! _ := require_router (ss_router args) in
  let! _ := SrxDevice.rpc in
  let! idp := capture "get-idp-security-package-information" in
  let! appid := capture "get-appid-package-version" in
  let! utm := capture "get-anti-virus-status" in
  let! secintel := capture "get-secintel-feed-summary" in
  let! atp := capture "get-aamw-status" in
  let resp := services_of idp appid utm secintel atp in
  let section name (sub : SubCall) := "<!-- " ^^ name ^^ " -->" ^^ newline ^^ sub_raw sub in
  ok (if ss_include_raw args
      then with_raw (RustStr.join newline
             [section "idp" idp; section "appid" appid; section "utm" utm;
              section "secintel" secintel; section "atp" atp]) resp
      else resp).

End services.

(** ** What a services report covers
    ([rust-junosmcp-srx-core/src/workflows/services_status.rs]) *)

Section spec.
Context {X : External} {RX : Roxmltree}.

(** A check that failed is never taken for absence: what reads as "not
    configured" is a reply that parsed and says so. *)
Lemma not_configured_is_said {T} sub i (read : Node -> SubServiceStatus T) :
  not_configured_state (per_node sub i (parse_service read)) = true ->
  exists nodes node doc,
    sub_result sub = Ok nodes /\ nodes !! i = Some node /\ parse_document (inner_xml node) = Ok doc /\
    match rpc_error_parts doc with
    | Some (tag, _) => tag = "not-configured"
    | None => ss_state (read doc) = NotConfigured
    end.
Proof.
  unfold per_node. destruct (sub_result sub) as [nodes|]; [|done].
  destruct (nodes !! i) as [node|] eqn:Hn; [|done]. unfold parse_service.
  destruct (parse_document _) as [doc|] eqn:Hd; [|done]. intros H. exists nodes, node, doc.
  split_and!; try done. destruct (rpc_error_parts doc) as [[tag reason]|].
  - destruct (String.eqb_spec tag "not-configured"); done.
  - unfold not_configured_state in H. by destruct (ss_state _).
Qed.

(** The report has the nodes of the first sub-call that could be split. *)
Lemma services_nodes idp appid utm secintel atp d :
  sr_data (services_of idp appid utm secintel atp) = Some d ->
  map sv_re_name (sv_nodes d) = node_names [idp; appid; utm; secintel; atp].
Proof.
  unfold services_of. case_match; [done|]. intros [= <-]. cbn [sv_nodes].
  apply list_eq. intros i. change (map sv_re_name) with (fmap (M:=list) sv_re_name).
  rewrite list_lookup_fmap, list_lookup_imap. by destruct (_ !! i).
Qed.

End spec.

Module Demo.

#[local] Existing Instance string_external.
#[local] Instance xml : Roxmltree := table_xml
  [("none", el "rpc-error" [tx "error-tag" "not-configured"]);
   ("appid", el "appid-package-version" [tx "version-detail" "3910"])].

Definition sub (nodes : list ReNode) : SubCall := {| sub_raw := ""; sub_result := Ok nodes |}.
Definition alone : SubCall := sub [{| re_name := ""; inner_xml := "none" |}].
Definition cluster : SubCall :=
  sub [{| re_name := "node0"; inner_xml := "none" |}; {| re_name := "node1"; inner_xml := "appid" |}].

(** A first reply without the cluster's envelope hides the second node: its
    active service is reported as absent from the device. *)
Example second_node_is_not_reported :
  services_of alone cluster alone alone alone =
    not_configured "no SRX security services configured on this device" /\
  ss_state (per_node cluster 1 parse_appid) = Active.
Proof. split; reflexivity. Qed.

End Demo.
