(* ===== verification/VpnLifecycle.v ===== *)
(** * VPN report ([rust-junosmcp-srx-core/src/workflows/vpn_lifecycle.rs])

    The IKE and IPsec security associations of each node, and which belong
    together.  Its properties follow. *)

From S2P Require Import Prelude RustStr Fmt Errors JsonValue SrxErrors XmlText Xml Async SrxDevice.
From S2P Require Import ClusterStatus SrxDevice SrxReader.

Record IkeSa := {
  index : option N;
  remote_address : string;
  ike_state : string;
  mode : string;
  initiator_cookie : string;
  responder_cookie : string;
  ike_lifetime_remaining_seconds : option N;
  gateway_name : option string
}.
Record IpsecSa := {
  tunnel_id : option N;
  direction : string;
  gateway : string;
  spi : string;
  block_state : string;
  lifetime_remaining_seconds : option N;
  lifetime_remaining_kilobytes : option N
}.
Record VpnCorrelation := { ike_sa_index : option N; ipsec_sa_tunnel_ids : list N }.
Record NodeVpnReport := {
  nv_re_name : string;
  ike_sas : list IkeSa;
  ipsec_sas : list IpsecSa;
  correlations : list VpnCorrelation
}.
Record VpnLifecycleData := { nv_nodes : list NodeVpnReport }.

(** "Expires in N seconds" *)
Definition parse_lifetime_seconds (text : string) : option N :=
  let text := trim text in
  if starts_with "Expires in " text then
    let after := str_drop 11 text in
    if ends_with " seconds" after
    then parse_uint U64_MAX (trim (str_take (String.length after - 8) after))
    else None
  else None.

(** [if !acc.contains(&id) { acc.push(id) }] *)
Definition push_new (acc : list N) (id : N) : list N :=
  if existsb (N.eqb id) acc then acc else acc ++ [id].

Definition correlate (ike_sas : list IkeSa) (ipsec_sas : list IpsecSa) : list VpnCorrelation :=
  map (fun ike => {|
    ike_sa_index := index ike;
    ipsec_sa_tunnel_ids :=
      foldl push_new []
        (omap tunnel_id
           (List.filter (fun ipc => String.eqb (gateway ipc) (remote_address ike)) ipsec_sas)) |})
    ike_sas.

Section vpn.
Context {X : External} {RX : Roxmltree}.

Definition is_sa_information (n : Node) : bool :=
  is_element n && (String.eqb (tag_name n) "ike-security-associations-information"
                   || String.eqb (tag_name n) "ipsec-security-associations-information").

(** An error element with no associations besides it; the code looks for a
    known message, and answers the same when it finds none. *)
Definition vpn_not_configured_xml (xml : string) : Result bool SrxError :=
  let xml := trim xml in
  if is_empty xml then Ok false else
  let? root := roxml (sanitize_rustez_xml xml) in
  let root_is_error := is_error_element root in
  let child_errors := List.filter (fun n => is_element n && is_error_element n) (children root) in
  let any_error := root_is_error || negb (bool_decide (child_errors = [])) in
  if negb any_error then Ok false
  else if existsb is_sa_information (descendants root) then Ok false
  else
    let error_nodes := if root_is_error then [root] else child_errors in
    if existsb says_not_configured (List.filter is_element (concat (map descendants error_nodes)))
    then Ok true
    else Ok true.

(** One [<ike-security-associations-block>]. *)
Definition ike_block (block : Node) : list IkeSa :=
  let remote_address := default "" (text_child block "ike-sa-remote-address") in
  let index := match text_child block "ike-sa-index" with
               | Some t => parse_uint U64_MAX t
               | None => None
               end in
  let gateway_name := child_text block "ike-gw-name" in
  map (fun sa_node => {|
      index := index;
      remote_address := remote_address;
      ike_state := default "" (text_child sa_node "ike-sa-state");
      mode := default "" (text_child sa_node "ike-sa-exchange-type");
      initiator_cookie := default "" (text_child sa_node "ike-sa-initiator-cookie");
      responder_cookie := default "" (text_child sa_node "ike-sa-responder-cookie");
      ike_lifetime_remaining_seconds :=
        match text_child sa_node "ike-sa-lifetime" with
        | Some t => parse_lifetime_seconds t
        | None => None
        end;
      gateway_name := gateway_name |})
    (children_named "ike-security-associations" block).

Definition parse_ike (xml : string) : Result (list IkeSa) SrxError :=
  let? not_configured := vpn_not_configured_xml xml in
  if not_configured : bool then Ok [] else
  let? doc := map_err (fun e => SrxParse ("IKE xml parse: " ^^ e))
                (parse_document (sanitize_rustez_xml xml)) in
  Ok (concat (map ike_block (descendants_named "ike-security-associations-block" doc))).

Definition hard_lifetime (t : string) : option N :=
  match parse_uint U64_MAX t with
  | Some n => if (n =? 0)%N then None else Some n
  | None => None
  end.
Definition lifesize (t : string) : option N :=
  if String.eqb t "unlim" || String.eqb t "-" then None else parse_uint U64_MAX t.
(** [child_text(n, tag).as_deref().and_then(f)] *)
Definition text_then (n : Node) (tag : string) (f : string -> option N) : option N :=
  match text_child n tag with Some t => f t | None => None end.

(** One [<ipsec-security-associations-block>]. *)
Definition ipsec_block (block : Node) : list IpsecSa :=
  let block_state := default "" (text_child block "sa-block-state") in
  map (fun sa_node => {|
      tunnel_id := text_then sa_node "sa-tunnel-index" (parse_uint U32_MAX);
      direction := default "" (text_child sa_node "sa-direction");
      gateway := default "" (text_child sa_node "sa-remote-gateway");
      spi := default "" (text_child sa_node "sa-spi");
      block_state := block_state;
      lifetime_remaining_seconds := text_then sa_node "sa-hard-lifetime" hard_lifetime;
      lifetime_remaining_kilobytes := text_then sa_node "sa-lifesize-remaining" lifesize |})
    (children_named "ipsec-security-associations" block).

Definition parse_ipsec (xml : string) : Result (list IpsecSa) SrxError :=
  if is_empty (trim xml) then Ok [] else
  let? not_configured := vpn_not_configured_xml xml in
  if not_configured : bool then Ok [] else
  let? doc := map_err (fun e => SrxParse ("IPsec xml parse: " ^^ e))
                (parse_document (sanitize_rustez_xml xml)) in
  Ok (concat (map ipsec_block (descendants_named "ipsec-security-associations-block" doc))).

(** [if let Some(p) = filter { l.retain(|a| field(a).contains(p)) }] *)
Definition retain {A} (filter : option string) (field : A -> string) (l : list A) : list A :=
  match filter with Some p => List.filter (fun a => contains p (field a)) l | None => l end.

Definition node_report (ipsec_nodes : list ReNode) (peer_filter tunnel_filter : option string)
    (ike_node : ReNode) : Result NodeVpnReport SrxError :=
  let ipsec_inner :=
    match find (fun n => String.eqb (re_name n) (re_name ike_node)) ipsec_nodes with
    | Some n => inner_xml n
    | None => ""
    end in
  let? ike_sas := parse_ike (inner_xml ike_node) in
  let? ipsec_sas := parse_ipsec ipsec_inner in
  let ike_sas := retain peer_filter remote_address ike_sas in
  let ipsec_sas := retain tunnel_filter gateway (retain peer_filter gateway ipsec_sas) in
  Ok {| nv_re_name := re_name ike_node; ike_sas := ike_sas; ipsec_sas := ipsec_sas;
        correlations := correlate ike_sas ipsec_sas |}.

Definition parse_combined (ike_xml ipsec_xml : string) (peer_filter tunnel_filter : option string)
  : Result (SrxToolResponse VpnLifecycleData) SrxError :=
  let ike_xml := sanitize_rustez_xml ike_xml in
  let ipsec_xml := sanitize_rustez_xml ipsec_xml in
  let? ike_not_configured := vpn_not_configured_xml ike_xml in
  let? ipsec_not_configured := vpn_not_configured_xml ipsec_xml in
  if ike_not_configured && ipsec_not_configured
  then Ok (not_configured "security ike/ipsec stanza absent") else
  let? ike_nodes := multi_re_split ike_xml in
  let? ipsec_nodes := multi_re_split ipsec_xml in
  let? nodes := collect_results (node_report ipsec_nodes peer_filter tunnel_filter) ike_nodes in
  Ok (active {| nv_nodes := nodes |}).

Context {S : Type} {SD : SrxDevice S}.

Definition IKE_BODY : string :=
  "<get-ike-security-associations-information><detail/></get-ike-security-associations-information>".

Definition vpn_run (args : VpnLifecycleArgs) : Act S (SrxToolResponse VpnLifecycleData) SrxError :=
  let! _ := require_router (vl_router args) in
  let! _ := rpc in
  let! ike_xml := call_xml IKE_BODY in
  let! ipsec_xml := call "get-security-associations-information" [] in
  let! parsed := act_ret (parse_combined ike_xml ipsec_xml (vl_peer args) (vl_tunnel args)) in
  ok (if vl_include_raw args
      then with_raw ("<!-- IKE -->" ^^ newline ^^ ike_xml ^^ newline ^^ "<!-- IPsec -->" ^^ newline
                     ^^ ipsec_xml) parsed
      else parsed).

End vpn.

(** ** Which tunnels a VPN report pairs with a peer
    ([rust-junosmcp-srx-core/src/workflows/vpn_lifecycle.rs]) *)

Lemma push_new_spec l acc :
  NoDup acc ->
  NoDup (foldl push_new acc l) /\ forall x, x ∈ foldl push_new acc l <-> x ∈ acc \/ x ∈ l.
Proof.
  revert acc. induction l as [|id l IH]; intros acc Hacc; cbn [foldl].
  { split; [done|]. intros x. set_solver. }
  assert (Hin : existsb (N.eqb id) acc = true <-> id ∈ acc).
  { rewrite existsb_exists. split; [intros (y & Hy%list_elem_of_In & ->%N.eqb_eq); done|].
    intros H. exists id. split; [by apply list_elem_of_In|apply N.eqb_refl]. }
  unfold push_new at 2 4. destruct (existsb _ acc) eqn:He.
  - destruct (IH acc Hacc) as [H1 H2]. split; [done|]. intros x. rewrite H2, elem_of_cons.
    assert (id ∈ acc) by by apply Hin. split; [tauto|]. intros [?|[-> |?]]; auto.
  - destruct (IH (acc ++ [id])) as [H1 H2].
    { apply list.NoDup_app. split_and!; [done| |apply NoDup_singleton].
      intros x Hx ->%list_elem_of_singleton. apply Hin in Hx. congruence. }
    split; [done|]. intros x. rewrite H2, elem_of_app, list_elem_of_singleton, elem_of_cons. tauto.
Qed.

(** An IKE association is paired with exactly the tunnels whose remote gateway
    is its peer, each once. *)
Lemma correlate_spec ike ipsec :
  Forall2 (fun i c =>
      ike_sa_index c = index i /\ NoDup (ipsec_sa_tunnel_ids c) /\
      forall id, id ∈ ipsec_sa_tunnel_ids c <->
        exists s, s ∈ ipsec /\ gateway s = remote_address i /\ tunnel_id s = Some id)
    ike (correlate ike ipsec).
Proof.
  unfold correlate. induction ike as [|i ike IH]; cbn [map]; constructor; [|done]. clear IH.
  cbn [ike_sa_index ipsec_sa_tunnel_ids].
  destruct (push_new_spec (omap tunnel_id
    (List.filter (fun s => String.eqb (gateway s) (remote_address i)) ipsec)) []) as [H1 H2]; [constructor|].
  split_and!; [done|done|]. intros id. rewrite H2, elem_of_nil, list_elem_of_omap. split.
  - intros [[]|(s & Hs & Ht)]. apply list_elem_of_In, filter_In in Hs as [Hs ->%String.eqb_eq%eq_sym].
    exists s. split; [by apply list_elem_of_In|done].
  - intros (s & Hs & Hg & Ht). right. exists s. split; [|done]. apply list_elem_of_In, filter_In.
    split; [by apply list_elem_of_In|]. by apply String.eqb_eq.
Qed.
