(* ===== verification/ClusterHealth.v ===== *)
(** * Cluster health ([rust-junosmcp-srx-core/src/workflows/cluster_health.rs])

    Eight sub-calls, seven checks over their replies, and the verdict that sums
    the findings up.  Its properties follow. *)

From S2P Require Import Prelude RustStr Fmt Errors SrxErrors XmlText Xml Async SrxDevice.
From S2P Require Import ClusterStatus SrxDevice SrxReader JsonValue.
From S2P Require Import CandidateSpec.
From Stdlib Require Import Ascii.

Inductive Severity := Pass | Warn | Fail_.
Inductive Verdict := VerdictPass | VerdictWarn | VerdictFail.
Record Finding := {
  check_id : string;
  severity : Severity;
  f_message : string;
  detail : option Value
}.

(** [for finding in findings { match (worst, severity) { .. } }] *)
Fixpoint roll_up_from (worst : Verdict) (findings : list Finding) : Verdict :=
  match findings with
  | [] => worst
  | finding :: rest =>
      match worst, severity finding with
      | _, Fail_ => VerdictFail
      | VerdictPass, Warn => roll_up_from VerdictWarn rest
      | _, _ => roll_up_from worst rest
      end
  end.
Definition roll_up : list Finding -> Verdict := roll_up_from VerdictPass.

Definition CHECK_IDS : list string :=
  ["red_led"; "disabled_secondary"; "control_link_failure"; "major_alarm"; "minor_alarm";
   "recent_reboot"; "version_skew"].

Record ClusterHealthData := {
  verdict : Verdict;
  findings : list Finding;
  request_id : string;
  cluster_status : option ClusterStatusData
}.
Record SubCall := { raw : string; error : option string }.
Definition call_ok (s : SubCall) : bool := bool_decide (error s = None).

Definition synth_warn (id code reason : string) : Finding := {|
  check_id := id; severity := Warn; f_message := "check " ^^ id ^^ " skipped: " ^^ reason;
  detail := Some (Object [("code", Str code); ("reason", Str reason)])
|}.
Definition finding (id : string) (sev : Severity) (message : string) (detail : list (string * Value)) : Finding :=
  {| check_id := id; severity := sev; f_message := message; detail := Some (Object detail) |}.

(** ** The version trains *)

Fixpoint digits_prefix (s : string) : string :=
  match s with
  | String c s => if is_ascii_digit c then String c (digits_prefix s) else ""
  | "" => ""
  end.
Definition train_of (version : string) : string :=
  let parts := split_byte "."%char version in
  let major := default "" (parts !! 0) in
  let minor_digits := digits_prefix (default "" (parts !! 1)) in
  if is_empty major || is_empty minor_digits then version
  else major ^^ "." ^^ minor_digits.

Definition skew_finding (base_name base_ver : string) (other : string * string) : option Finding :=
  let (re_name, ver) := other in
  if String.eqb ver base_ver then None
  else
    let sev := if String.eqb (train_of base_ver) (train_of ver) then Warn else Fail_ in
    Some (finding "version_skew" sev
      (base_name ^^ " runs " ^^ base_ver ^^ ", " ^^ re_name ^^ " runs " ^^ ver)
      [("node_a", Str base_name); ("version_a", Str base_ver); ("node_b", Str re_name);
       ("version_b", Str ver)]).
Definition skew_findings (versions : list (string * string)) : list Finding :=
  match versions with
  | (base_name, base_ver) :: others => omap (skew_finding base_name base_ver) others
  | [] => []
  end.

Definition member_finding (group_id : N) (member : RgMember) : option Finding :=
  let lower := to_ascii_lowercase (rm_status member) in
  if String.eqb lower "disabled" || String.eqb lower "lost" then
    Some (finding "disabled_secondary" Fail_
      ("RG" ^^ dec group_id ^^ " member " ^^ rm_node member ^^ " is in state " ^^ rm_status member)
      [("rg", Number (Z.of_N group_id)); ("node", Str (rm_node member));
       ("status", Str (rm_status member))])
  else None.
Definition check_disabled_secondary (snapshot : option ClusterStatusData) : list Finding :=
  match snapshot with
  | None => [synth_warn "disabled_secondary" "data_unavailable"
               "cluster_status RPC produced no parseable snapshot"]
  | Some snap =>
      concat (map (fun rg => omap (member_finding (group_id rg)) (members rg))
                (redundancy_groups snap))
  end.

Section health.
Context {X : External} {RX : Roxmltree}.

(** The nodes whose reply parses, with it; nothing when the reply cannot be
    split. *)
Definition parsed_nodes (raw : string) : list (ReNode * Node) :=
  match multi_re_split raw with
  | Ok re_nodes => omap (fun re => pair re <$> result_ok (parse_document (inner_xml re))) re_nodes
  | Err _ => []
  end.
(** A check over the elements of one name, unless the call itself failed. *)
Definition over_elements (id : string) (sub : SubCall) (tag : string)
    (f : ReNode -> Node -> option Finding) : list Finding :=
  match error sub with
  | Some reason => [synth_warn id "data_unavailable" reason]
  | None =>
      concat (map (fun rd => omap (f rd.1) (descendants_named tag rd.2)) (parsed_nodes (raw sub)))
  end.

Definition led_finding (re : ReNode) (led : Node) : option Finding :=
  let color := default "" (text_child led "current-led-color") in
  if eq_ignore_ascii_case color "Red" then
    let node := default (re_name re) (text_child led "node-name") in
    Some (finding "red_led" Fail_ ("node " ^^ node ^^ " cluster LED is Red")
      [("node", Str node); ("color", Str color)])
  else None.
Definition check_red_led (info : SubCall) : list Finding :=
  over_elements "red_led" info "chassis-cluster-led-information" led_finding.

(** The nodes of a tree in document order, each with its parent. *)
Fixpoint with_parents (parent : option Node) (n : Node) : list (option Node * Node) :=
  (parent, n) :: match n with
                 | Element _ _ cs => concat (map (with_parents (Some n)) cs)
                 | _ => []
                 end.
Definition fabric_finding (re : ReNode) (pn : option Node * Node) : option Finding :=
  let (parent, child) := pn in
  if negb (named "fabric-link-child-interface-monitored-status" child) then None
  else if eq_ignore_ascii_case (trim (default "" (node_text child))) "Down" then
    let iface := default "?" (match parent with
                              | Some p => text_child p "fabric-link-child-interface-name"
                              | None => None
                              end) in
    Some (finding "control_link_failure" Fail_
      ("fabric-link child interface " ^^ iface ^^ " monitored status Down on " ^^ re_name re)
      [("node", Str (re_name re)); ("interface", Str iface)])
  else None.
Definition transition_finding (re : ReNode) (rec : Node) : option Finding :=
  let reason := default "" (text_child rec "transition-reason") in
  let lower := to_ascii_lowercase reason in
  if contains "control link failure" lower || contains "fabric link failure" lower then
    Some (finding "control_link_failure" Fail_
      ("RG transition record on " ^^ re_name re ^^ ": " ^^ reason)
      [("node", Str (re_name re)); ("reason", Str reason)])
  else None.
Definition check_control_link_failure (interfaces info : SubCall) : list Finding :=
  (if call_ok interfaces
   then concat (map (fun rd => omap (fabric_finding rd.1) (with_parents None rd.2))
                  (parsed_nodes (raw interfaces)))
   else []) ++
  (if call_ok info
   then concat (map (fun rd => omap (transition_finding rd.1)
                       (descendants_named "redundancy-group-state-transition-record" rd.2))
                  (parsed_nodes (raw info)))
   else []) ++
  (if call_ok interfaces || call_ok info then []
   else [synth_warn "control_link_failure" "data_unavailable"
           "neither cluster-interfaces nor cluster-information available"]).

Definition alarm_finding (class_filter : string) (sev : Severity) (id : string) (re : ReNode)
    (alarm : Node) : option Finding :=
  let class := default "" (text_child alarm "alarm-class") in
  if eq_ignore_ascii_case class class_filter then
    let description := default "" (match text_child alarm "alarm-description" with
                                   | Some d => Some d
                                   | None => text_child alarm "alarm-short-description"
                                   end) in
    Some (finding id sev (class ^^ " alarm on " ^^ re_name re ^^ ": " ^^ description)
      [("node", Str (re_name re)); ("class", Str class); ("description", Str description)])
  else None.
Definition iter_alarms (alarms : SubCall) (class_filter : string) (sev : Severity) (id : string)
  : list Finding :=
  match error alarms with
  | Some reason =>
      if String.eqb id "major_alarm" then [synth_warn id "data_unavailable" reason] else []
  | None => over_elements id alarms "alarm-detail" (alarm_finding class_filter sev id)
  end.
Definition check_major_alarm (alarms : SubCall) : list Finding :=
  iter_alarms alarms "Major" Fail_ "major_alarm".
Definition check_minor_alarm (alarms : SubCall) : list Finding :=
  iter_alarms alarms "Minor" Warn "minor_alarm".

Definition uptime_finding (re : ReNode) (uptime_info : Node) : option Finding :=
  let seconds := match descendant "up-time" uptime_info with
                 | Some n => match attribute "seconds" n with
                             | Some s => parse_uint U64_MAX (trim s)
                             | None => None
                             end
                 | None => None
                 end in
  match seconds with
  | Some s =>
      if (s <? 300)%N then
        Some (finding "recent_reboot" Warn
          (re_name re ^^ " uptime " ^^ dec s
           ^^ "s < 5 min; let it converge before destructive changes")
          [("node", Str (re_name re)); ("uptime_seconds", Number (Z.of_N s))])
      else None
  | None => None
  end.
Definition check_recent_reboot (uptime : SubCall) : list Finding :=
  over_elements "recent_reboot" uptime "system-uptime-information" uptime_finding.

Definition node_version (re : ReNode) : option (string * string) :=
  match parse_document (inner_xml re) with
  | Ok doc =>
      let v := default "" (trimmed_text (descendant "junos-version" doc)) in
      if is_empty v then None else Some (re_name re, v)
  | Err _ => None
  end.
Definition check_version_skew (software : SubCall) : list Finding :=
  match error software with
  | Some reason => [synth_warn "version_skew" "data_unavailable" reason]
  | None =>
      match multi_re_split (raw software) with
      | Err _ => []
      | Ok re_nodes =>
          if (length re_nodes <? 2)%nat then [] else
          let versions := omap node_version re_nodes in
          if (length versions <? 2)%nat then [] else skew_findings versions
      end
  end.

Context {S : Type} {SD : SrxDevice S}.
Context (new_v4 : string).

Definition mint_request_id : string := "srxmcp-" ^^ new_v4.

Definition capture (rpc : string) : Act S SubCall SrxError :=
  act_bind (await (rpc_call rpc [])) (fun r =>
    ok match r with
       | Ok xml => {| raw := xml; error := None |}
       | Err e => {| raw := ""; error := Some ("rpc error: " ^^ rustez_display e) |}
       end).

(** The snapshot of the cluster, when its reply could be read. *)
Definition snapshot_of (status : SubCall) : option ClusterStatusData :=
  if call_ok status then
    match cluster_parse (raw status) with
    | Ok r => match sr_state r with Active => sr_data r | _ => None end
    | Err _ => None
    end
  else None.

(** What the checks find, in their order. *)
Definition checks (status interfaces info software alarms uptime : SubCall) : list Finding :=
  check_red_led info ++ check_disabled_secondary (snapshot_of status)
  ++ check_control_link_failure interfaces info ++ check_major_alarm alarms
  ++ check_minor_alarm alarms ++ check_recent_reboot uptime ++ check_version_skew software.

Definition the_request_id (args : ClusterHealthArgs) : string :=
  match ch_request_id args with
  | Some s => if is_empty (trim s) then mint_request_id else s
  | None => mint_request_id
  end.

(** Whether the device is standalone; a reply that does not parse is an error. *)
Definition standalone (status : SubCall) : Result bool SrxError :=
  if call_ok status then
    let? parsed := cluster_parse (raw status) in
    Ok match sr_state parsed with NotConfigured => true | _ => false end
  else Ok false.

Definition health_run (args : ClusterHealthArgs)
  : Act S (SrxToolResponse ClusterHealthData) SrxError :=
  let! _ := require_router (ch_router args) in
  let request_id := the_request_id args in
  let! _ := SrxDevice.rpc in
  let! status := capture "get-chassis-cluster-status" in
  let! alone := act_ret (standalone status) in
  if alone : bool then
    let resp := not_configured "chassis cluster disabled" in
    ok (if ch_include_raw args then with_raw (raw status) resp else resp)
  else
  let! interfaces := capture "get-chassis-cluster-interfaces" in
  let! info := capture "get-chassis-cluster-information" in
  let! dp_stats := capture "get-chassis-cluster-data-plane-statistics" in
  let! cl_stats := capture "get-chassis-cluster-statistics" in
  let! software := capture "get-software-information" in
  let! alarms := capture "get-system-alarm-information" in
  let! uptime := capture "get-system-uptime-information" in
  let findings := checks status interfaces info software alarms uptime in
  let resp := active {| verdict := roll_up findings; findings := findings;
                        request_id := request_id; cluster_status := snapshot_of status |} in
  let section name (sub : SubCall) := "<!-- " ^^ name ^^ " -->" ^^ newline ^^ raw sub in
  ok (if ch_include_raw args
      then with_raw (RustStr.join newline
             [section "cluster-status" status; section "cluster-interfaces" interfaces;
              section "cluster-information" info; section "dp-stats" dp_stats;
              section "cl-stats" cl_stats; section "software" software;
              section "alarms" alarms; section "uptime" uptime]) resp
      else resp).

End health.

(** ** What a health verdict means ([rust-junosmcp-srx-core/src/workflows/cluster_health.rs]) *)

Definition found (sev : Severity) (fs : list Finding) : Prop :=
  exists f, f ∈ fs /\ severity f = sev.

Lemma found_cons sev f fs : found sev (f :: fs) <-> severity f = sev \/ found sev fs.
Proof.
  unfold found. split.
  - intros (g & [-> |Hg]%elem_of_cons & Hs); [by left|right; eauto].
  - intros [Hs|(g & Hg & Hs)]; [exists f|exists g]; split; try done; [by left|by right].
Qed.

Lemma roll_up_from_spec worst fs :
  worst <> VerdictFail ->
  match roll_up_from worst fs with
  | VerdictFail => found Fail_ fs
  | VerdictWarn => ~ found Fail_ fs /\ (worst = VerdictWarn \/ found Warn fs)
  | VerdictPass => worst = VerdictPass /\ Forall (fun f => severity f = Pass) fs
  end.
Proof.
  revert worst. induction fs as [|f fs IH]; intros worst Hw; cbn [roll_up_from].
  { destruct worst; try done; split; try done; [|by left]. by intros (? & ?%elem_of_nil & _). }
  destruct worst; [| |done]; destruct (severity f) eqn:Hs;
    try (by exists f; split; [left|]);
    match goal with |- context [roll_up_from ?w fs] => specialize (IH w ltac:(done)) end;
    destruct (roll_up_from _ fs); rewrite ?found_cons, ?Forall_cons, ?Hs; intuition (auto; congruence).
Qed.

(** The verdict is the worst severity found. *)
Lemma roll_up_spec fs :
  match roll_up fs with
  | VerdictFail => found Fail_ fs
  | VerdictWarn => ~ found Fail_ fs /\ found Warn fs
  | VerdictPass => Forall (fun f => severity f = Pass) fs
  end.
Proof.
  pose proof (roll_up_from_spec VerdictPass fs ltac:(done)) as H. unfold roll_up.
  destruct (roll_up_from VerdictPass fs); [by destruct H| |done].
  destruct H as [? [?|?]]; done.
Qed.

Section spec.
Context {X : External} {RX : Roxmltree}.

Lemma gap_is_found id code reason fs :
  synth_warn id code reason ∈ fs -> ~ Forall (fun f => severity f = Pass) fs.
Proof. rewrite list.Forall_forall. intros Hin Hall. by specialize (Hall _ Hin). Qed.

(** A clean bill of health needs the data: when a call a check reads from
    failed, the verdict is not [Pass]. *)
Theorem pass_needs_every_call status interfaces info software alarms uptime :
  roll_up (checks status interfaces info software alarms uptime) = VerdictPass ->
  is_Some (snapshot_of status) /\ error info = None /\ error alarms = None /\
  error uptime = None /\ error software = None.
Proof.
  intros H. pose proof (roll_up_spec (checks status interfaces info software alarms uptime)) as Hp.
  rewrite H in Hp. unfold checks in Hp. rewrite !Forall_app in Hp.
  destruct Hp as (H1 & H2 & _ & H4 & _ & H6 & H7). split_and!.
  - unfold check_disabled_secondary in H2. destruct (snapshot_of status); [by eexists|].
    by eapply gap_is_found in H2; [|by left].
  - unfold check_red_led, over_elements in H1. destruct (error info); [|done].
    by eapply gap_is_found in H1; [|by left].
  - unfold check_major_alarm, iter_alarms in H4. destruct (error alarms); [|done].
    by eapply gap_is_found in H4; [|by left].
  - unfold check_recent_reboot, over_elements in H6. destruct (error uptime); [|done].
    by eapply gap_is_found in H6; [|by left].
  - unfold check_version_skew in H7. destruct (error software); [|done].
    by eapply gap_is_found in H7; [|by left].
Qed.

(** A reply that cannot be split, on the other hand, goes unremarked. *)
Lemma unreadable_reply_is_silent raw e :
  multi_re_split raw = Err e ->
  let sub := {| raw := raw; error := None |} in
  check_red_led sub = [] /\ check_control_link_failure sub sub = [] /\ check_major_alarm sub = [] /\
  check_minor_alarm sub = [] /\ check_recent_reboot sub = [] /\ check_version_skew sub = [].
Proof.
  intros H sub.
  unfold check_red_led, check_control_link_failure, check_major_alarm, check_minor_alarm,
    iter_alarms, check_recent_reboot, over_elements, check_version_skew, parsed_nodes, sub.
  cbn [ClusterHealth.raw error]. by rewrite H.
Qed.

End spec.

Module Demo.

#[local] Existing Instance string_external.
#[local] Instance xml : Roxmltree := table_xml
  [("status", el "chassis-cluster-status" [tx "cluster-id" "1"])].
Definition answered (raw : string) : SubCall := {| raw := raw; error := None |}.

(** So a cluster of which only the status could be read is reported healthy. *)
Example garbage_passes :
  let garbage := answered "garbage" in
  roll_up (checks (answered "status") garbage garbage garbage garbage garbage) = VerdictPass.
Proof. reflexivity. Qed.

End Demo.
