(* ===== verification/SignaturePlan.v ===== *)
(** * Plans of the signature workflows
    ([workflows/signature_package/plan.rs])

    The plan a preview returns and a confirmation is checked against, with the
    JSON value [serde] makes of it: that value is what is digested, so what it
    contains is what the caller approves. *)

From S2P Require Import Prelude RustStr Fmt JsonValue.

Inductive Service := ServiceIdp | ServiceAppid.
Inductive Topology := Standalone | ChassisCluster.
Inductive TargetSource := LatestFromCheckServer | Pinned.

Record NodeVersionInfo := {
  nv_re_name : string;
  nv_current_package_version : string;
  nv_current_detector_version : option string
}.

(** The fields that name the plan's code and action have one value each and are
    not fields here; [plan_value] writes them. *)
Record DownloadAndInstallPlan := {
  di_router : string;
  di_service : Service;
  di_topology : Topology;
  di_nodes : list NodeVersionInfo;
  di_target_package_version : string;
  di_target_source : TargetSource;
  di_latest_from_check_server : option string;
  di_estimated_package_size_bytes : option N;
  di_estimated_install_duration_seconds : option N;
  di_preflight_blockers : list string;
  di_warning : string
}.

Record RollbackPlan := {
  rp_router : string;
  rp_service : Service;
  rp_topology : Topology;
  rp_current_package_version : string;
  rp_rollback_target_version : string;
  rp_preflight_blockers : list string;
  rp_warning : string
}.

Record UninstallPlan := {
  up_router : string;
  up_service : Service;
  up_topology : Topology;
  up_current_package_version : string;
  up_preflight_blockers : list string;
  up_warning : string
}.

Inductive ConfirmationPlan :=
  | PlanDownloadAndInstall (p : DownloadAndInstallPlan)
  | PlanRollback (p : RollbackPlan)
  | PlanUninstall (p : UninstallPlan).

Record AlreadyAtTargetResponse := {
  at_router : string;
  at_service : Service;
  at_current_package_version : string;
  at_target_package_version : string;
  at_message : string
}.

Definition already_at_target (router : string) (service : Service) (current target : string)
  : AlreadyAtTargetResponse := {|
  at_router := router; at_service := service;
  at_current_package_version := current; at_target_package_version := target;
  at_message := "device already running target version; no action taken"
|}.

(** ** [serde_json::to_value] *)

Definition service_str (s : Service) : string :=
  match s with ServiceIdp => "idp" | ServiceAppid => "appid" end.
Definition topology_str (t : Topology) : string :=
  match t with Standalone => "standalone" | ChassisCluster => "chassis_cluster" end.
Definition target_source_str (t : TargetSource) : string :=
  match t with LatestFromCheckServer => "latest_from_check_server" | Pinned => "pinned" end.

Definition strs (l : list string) : Value := Array (map Str l).
Definition num (n : N) : Value := Number (Z.of_N n).

Definition node_value (n : NodeVersionInfo) : Value :=
  Object ([("re_name", Str (nv_re_name n));
           ("current_package_version", Str (nv_current_package_version n))] ++
          opt_field "current_detector_version" (Str <$> nv_current_detector_version n)).

Definition plan_header (router action : string) (s : Service) (t : Topology)
  : list (string * Value) :=
  [("code", Str "confirmation_required"); ("router", Str router); ("action", Str action);
   ("service", Str (service_str s)); ("topology", Str (topology_str t))].

Definition plan_value (p : ConfirmationPlan) : Value :=
  match p with
  | PlanDownloadAndInstall p =>
      Object (plan_header (di_router p) "download_and_install" (di_service p) (di_topology p) ++
        [("nodes", Array (map node_value (di_nodes p)));
         ("target_package_version", Str (di_target_package_version p));
         ("target_source", Str (target_source_str (di_target_source p)))] ++
        opt_field "latest_from_check_server" (Str <$> di_latest_from_check_server p) ++
        opt_field "estimated_package_size_bytes" (num <$> di_estimated_package_size_bytes p) ++
        opt_field "estimated_install_duration_seconds"
          (num <$> di_estimated_install_duration_seconds p) ++
        [("preflight_blockers", strs (di_preflight_blockers p));
         ("warning", Str (di_warning p))])
  | PlanRollback p =>
      Object (plan_header (rp_router p) "rollback" (rp_service p) (rp_topology p) ++
        [("current_package_version", Str (rp_current_package_version p));
         ("rollback_target_version", Str (rp_rollback_target_version p));
         ("preflight_blockers", strs (rp_preflight_blockers p));
         ("warning", Str (rp_warning p))])
  | PlanUninstall p =>
      Object (plan_header (up_router p) "uninstall" (up_service p) (up_topology p) ++
        [("current_package_version", Str (up_current_package_version p));
         ("preflight_blockers", strs (up_preflight_blockers p));
         ("warning", Str (up_warning p))])
  end.

(** ** The value says everything about the plan *)

Lemma strs_inj l l' : strs l = strs l' -> l = l'.
Proof.
  unfold strs. intros [= H]. revert l' H. induction l as [|s l IH]; intros [|s' l']; cbn;
    try discriminate; [done|]. intros [= -> H]. f_equal. by apply IH.
Qed.

Lemma node_value_inj n n' : node_value n = node_value n' -> n = n'.
Proof.
  destruct n as [a b [d|]], n' as [a' b' [d'|]]; cbn; intros H; by simplify_eq.
Qed.

Lemma map_inj {A B} (f : A -> B) l l' :
  (forall a a', f a = f a' -> a = a') -> map f l = map f l' -> l = l'.
Proof.
  intros Hf. revert l'. induction l as [|x l IH]; intros [|x' l']; cbn; try discriminate; [done|].
  intros [= H%Hf H2]. subst. f_equal. by apply IH.
Qed.

Lemma plan_header_inj r a s t r' a' s' t' fs fs' :
  plan_header r a s t ++ fs = plan_header r' a' s' t' ++ fs' ->
  r = r' /\ a = a' /\ s = s' /\ t = t' /\ fs = fs'.
Proof.
  cbn. intros [= -> -> Hs Ht ->]. split_and!; try done.
  - by destruct s, s'.
  - by destruct t, t'.
Qed.

Lemma target_source_str_inj a b : target_source_str a = target_source_str b -> a = b.
Proof. by destruct a, b. Qed.
Lemma num_inj a b : num a = num b -> a = b.
Proof. intros [= H]. lia. Qed.

Lemma download_value_inj p p' :
  plan_value (PlanDownloadAndInstall p) = plan_value (PlanDownloadAndInstall p') -> p = p'.
Proof.
  destruct p as [r sv t ns tv ts l e1 e2 bl w], p' as [r' sv' t' ns' tv' ts' l' e1' e2' bl' w'].
  unfold plan_value. intros H. injection H as Hr Hs Ht Hn Htv Hts Hrest.
  assert (sv = sv') as <- by by destruct sv, sv'.
  assert (t = t') as <- by by destruct t, t'.
  apply (map_inj node_value) in Hn; [|apply node_value_inj].
  apply target_source_str_inj in Hts. cbn in Hr, Hn, Htv, Hts. subst.
  destruct l, l', e1, e1', e2, e2'; cbn in Hrest; simplify_eq; f_equal; try lia;
    by apply strs_inj; unfold strs; f_equal.
Qed.

(** The JSON a caller is shown, and the store digests, determines the plan:
    two plans with the same value are the same plan, in every field. *)
Theorem plan_value_injective p p' : plan_value p = plan_value p' -> p = p'.
Proof.
  destruct p as [p|p|p], p' as [p'|p'|p']; try discriminate.
  - intros H. f_equal. by apply download_value_inj.
  - destruct p as [? sv t ? ? ? ?], p' as [? sv' t' ? ? ? ?]. intros H. injection H as ? Hs Ht ? ? ? ?.
    f_equal. f_equal; [done|by destruct sv, sv'|by destruct t, t'|..]; try done.
    by apply strs_inj; unfold strs; f_equal.
  - destruct p as [? sv t ? ? ?], p' as [? sv' t' ? ? ?]. intros H. injection H as ? Hs Ht ? ? ?.
    f_equal. f_equal; [done|by destruct sv, sv'|by destruct t, t'|..]; try done.
    by apply strs_inj; unfold strs; f_equal.
Qed.

Definition demo_plan : ConfirmationPlan := PlanUninstall {|
  up_router := "r1"; up_service := ServiceAppid; up_topology := Standalone;
  up_current_package_version := "3910"; up_preflight_blockers := []; up_warning := "w" |}.

Lemma plan_value_injective_witness :
  plan_value demo_plan = plan_value demo_plan /\ demo_plan = demo_plan.
Proof. split; [reflexivity|]. apply (plan_value_injective demo_plan demo_plan). reflexivity. Defined.
