(* ===== verification/SignaturePoll.v ===== *)
(** * Polling ([workflows/signature_package/poll.rs])

    Probe until done, at an interval, with a deadline.  [poll_loop] takes fuel;
    [poll_until_done] gives it one round for each interval that fits before the
    deadline and one more, which is enough for any probe
    ([poll_until_done_ends]); [None] is a loop still running. *)

From S2P Require Import Prelude RustStr Fmt Async.

Inductive PollOutcome (T : Type) := Done (v : T) | Pending.
Arguments Done {T}.
Arguments Pending {T}.

Inductive PollError (E : Type) := PollTimeout (elapsed : N) | Probe (e : E).
Arguments PollTimeout {E}.
Arguments Probe {E}.

Section poll.
Context {S T E : Type} (interval deadline : N) (probe : Future S (PollOutcome T) E).

Fixpoint poll_loop (fuel : nat) (start : N) (w : World S)
  : option (Result T (PollError E) * World S) :=
  match fuel with
  | 0 => None
  | Datatypes.S fuel =>
      match await probe w with
      | (Ok (Done value), w) => Some (Ok value, w)
      | (Ok Pending, w) =>
          if (deadline <=? w_now w + interval)%N
          then Some (Err (PollTimeout (w_now w - start)), w)
          else poll_loop fuel start (advance w interval (w_backend w))
      | (Err e, w) => Some (Err (Probe e), w)
      end
  end.

Definition poll_until_done (w : World S) : option (Result T (PollError E) * World S) :=
  poll_loop (Datatypes.S (N.to_nat ((deadline - w_now w) / interval))) (w_now w) w.

(** ** Rounds *)

(** A round: one probe, and the sleep after it. *)
Definition round (w : World S) : World S :=
  let w := (await probe w).2 in advance w interval (w_backend w).
Fixpoint after (k : nat) (w : World S) : World S :=
  match k with 0 => w | Datatypes.S k => after k (round w) end.

(** The probe says pending and the next one would come before the deadline. *)
Definition goes_on (w : World S) : bool :=
  match await probe w with
  | (Ok Pending, w) => (w_now w + interval <? deadline)%N
  | _ => false
  end.

(** What the last probe makes of the poll. *)
Definition verdict (start : N) (w : World S) : Result T (PollError E) * World S :=
  match await probe w with
  | (Ok (Done value), w) => (Ok value, w)
  | (Ok Pending, w) => (Err (PollTimeout (w_now w - start)), w)
  | (Err e, w) => (Err (Probe e), w)
  end.

Lemma poll_loop_step fuel start w :
  poll_loop (Datatypes.S fuel) start w =
  if goes_on w then poll_loop fuel start (round w) else Some (verdict start w).
Proof.
  cbn [poll_loop]. unfold goes_on, verdict, round.
  destruct (await probe w) as [[[v|]|e] w']; try done. cbn [snd].
  destruct (N.leb_spec deadline (w_now w' + interval)), (N.ltb_spec (w_now w' + interval) deadline);
    try done; lia.
Qed.

Lemma goes_on_time w : goes_on w = true -> (w_now w + interval <= w_now (round w) < deadline)%N.
Proof.
  unfold goes_on, round. destruct (await probe w) as [[[v|]|e] w'] eqn:Hp; try done.
  intros H%N.ltb_lt. unfold await in Hp. injection Hp as _ <-. cbn in *. lia.
Qed.

Lemma after_S k w : after (Datatypes.S k) w = round (after k w).
Proof. revert w. induction k as [|k IH]; intros w; [done|]. cbn in *. apply IH. Qed.

Lemma poll_loop_ends fuel start w :
  (0 < interval)%N -> N.to_nat ((deadline - w_now w) / interval) < fuel ->
  exists k, k <= N.to_nat ((deadline - w_now w) / interval) /\
    (forall j, j < k -> goes_on (after j w) = true) /\ goes_on (after k w) = false /\
    poll_loop fuel start w = Some (verdict start (after k w)).
Proof.
  intros Hi. revert w. induction fuel as [|fuel IH]; intros w Hf;
    [by apply Nat.nlt_0_r in Hf|].
  rewrite poll_loop_step. destruct (goes_on w) eqn:Hg.
  2: { exists 0. split_and!; [apply Nat.le_0_l|intros j Hj; lia|done|done]. }
  pose proof (goes_on_time w Hg) as Ht.
  assert (Hd : ((deadline - w_now (round w)) / interval + 1 <= (deadline - w_now w) / interval)%N).
  { generalize dependent (w_now (round w)). intros n Ht.
    rewrite <- (N.div_add (deadline - n) 1 interval) by lia.
    apply N.Div0.div_le_mono. lia. }
  remember ((deadline - w_now w) / interval)%N as q eqn:Eq.
  specialize (IH (round w)). remember ((deadline - w_now (round w)) / interval)%N as q' eqn:Eq'.
  destruct IH as (k & Hk & Hj & Hlast & Heq); [lia|].
  exists (Datatypes.S k). split_and!; try done; [lia|].
  intros [|j] Hlt; [done|]. apply Hj. lia.
Qed.

End poll.

(** Polling ends: with a positive interval, after at most one probe per
    interval up to the deadline and one more, whatever the device does; every
    probe before the last found it pending with time left, and the result is
    the last probe's: its value, its error, or a timeout when it is still
    pending and the next probe would come too late. *)
Theorem poll_until_done_ends {S T E} interval deadline (probe : Future S (PollOutcome T) E) w :
  (0 < interval)%N ->
  exists k, k <= N.to_nat ((deadline - w_now w) / interval) /\
    (forall j, j < k -> goes_on interval deadline probe (after interval probe j w) = true) /\
    goes_on interval deadline probe (after interval probe k w) = false /\
    poll_until_done interval deadline probe w =
      Some (verdict probe (w_now w) (after interval probe k w)).
Proof. intros Hi. apply poll_loop_ends; [done|apply Nat.lt_succ_diag_r]. Qed.

Lemma poll_loop_reach {S T E} interval deadline (probe : Future S (PollOutcome T) E) start k :
  forall fuel w, (forall j, j < k -> goes_on interval deadline probe (after interval probe j w) = true) ->
  goes_on interval deadline probe (after interval probe k w) = false -> k < fuel ->
  poll_loop interval deadline probe fuel start w =
    Some (verdict probe start (after interval probe k w)).
Proof.
  induction k as [|k IH]; intros [|fuel] w Hj Hk Hf; [lia| |lia|]; rewrite poll_loop_step.
  - cbn [after] in Hk. by rewrite Hk.
  - pose proof (Hj 0 ltac:(lia)) as H0. cbn [after] in H0. rewrite H0. apply IH; [|done|lia].
    intros j Hlt. apply (Hj (Datatypes.S j)). lia.
Qed.

(** C16: A device that gets there is seen to: when the probes before the [k]-th
    found it pending with room for another, and the [k]-th finds it done with
    [v], the poll returns [v]. *)
Theorem poll_until_done_live {S T E} interval deadline (probe : Future S (PollOutcome T) E) w k v w' :
  (0 < interval)%N ->
  (forall j, j < k -> goes_on interval deadline probe (after interval probe j w) = true) ->
  await probe (after interval probe k w) = (Ok (Done v), w') ->
  poll_until_done interval deadline probe w = Some (Ok v, w').
Proof.
  intros Hi Hj Hd.
  assert (Hk : goes_on interval deadline probe (after interval probe k w) = false)
    by (unfold goes_on; by rewrite Hd).
  destruct (poll_loop_ends interval deadline probe _ (w_now w) w Hi (Nat.lt_succ_diag_r _))
    as (k' & Hle & Hj' & Hk' & _).
  assert (k = k') as <-.
  { destruct (Nat.lt_trichotomy k k') as [Hlt|[?|Hlt]]; [|done|].
    - by rewrite Hj' in Hk.
    - by rewrite Hj in Hk'. }
  unfold poll_until_done. erewrite poll_loop_reach by (done || lia).
  unfold verdict. by rewrite Hd.
Qed.

(** ** A device that takes three probes *)

Definition demo_probe : Future nat (PollOutcome string) string := fun b =>
  mk_rpc 2 (Ok (if b =? 0 then Done "3910" else Pending)) (b - 1) (fun _ => b).
Definition demo_world : World nat := mk_world 100 None 2.

Lemma poll_until_done_ends_witness :
  (0 < 5)%N /\
  exists k, k <= 6 /\
    (forall j, j < k -> goes_on 5 130 demo_probe (after 5 demo_probe j demo_world) = true) /\
    goes_on 5 130 demo_probe (after 5 demo_probe k demo_world) = false /\
    poll_until_done 5 130 demo_probe demo_world =
      Some (verdict demo_probe 100 (after 5 demo_probe k demo_world)).
Proof. split; [lia|]. apply (poll_until_done_ends 5 130 demo_probe demo_world). lia. Defined.

Lemma poll_until_done_live_witness :
  await demo_probe (after 5 demo_probe 2 demo_world) = (Ok (Done "3910"), mk_world 116 None 0) /\
  poll_until_done 5 130 demo_probe demo_world = Some (Ok "3910", mk_world 116 None 0).
Proof.
  split; [reflexivity|].
  apply (poll_until_done_live 5 130 demo_probe demo_world 2); [lia| |reflexivity].
  intros [|[|j]] Hj; [reflexivity|reflexivity|lia].
Defined.

(** The timeout comes up to an interval before the deadline: here after 9 and
    2 of budgets of 10 and 6. *)
Example poll_times_out_early :
  poll_until_done 5 110 demo_probe (mk_world 100 None 9) =
    Some (Err (PollTimeout 9), mk_world 109 None 7) /\
  poll_until_done 5 110 demo_probe (mk_world 104 None 9) =
    Some (Err (PollTimeout 2), mk_world 106 None 8).
Proof. split; reflexivity. Qed.
