(* ===== verification/SignatureServer.v ===== *)
(** * What a signature workflow runs on

    [SignatureServer] is the server as the IDP and AppID workflows see it: the
    device's RPCs, the per-router leases, the confirmation store and the audit
    log, all acting on one state.  With it: the checks the workflows make before
    anything else ([workflows/signature_package/preflight.rs]) and the loop that
    polls the device's status RPCs. *)

From S2P Require Import Prelude RustStr Fmt Errors JsonValue SrxErrors XmlText Async Xml SrxDevice License ClusterStatus SignatureConfirmation SignaturePlan.

Record AuditLine {X : External} := {
  al_tool : string;
  al_action : string;
  al_service : string;
  al_caller : string;
  al_request_id : string;
  al_phase : string;
  al_current_version : string;
  al_target_version : string;
  al_failure : option SrxError
}.
Arguments AuditLine : clear implicits.

Class SignatureServer {X : External} (S : Type) := {
  #[global] ss_device :: SrxDevice S;
  Lease : Type;
  lease_acquire (router holder correlation_id : string) : Future S Lease JmcpError;
  lease_release : Lease -> S -> S;
  conf_issue : Value -> ConfirmationBinding -> string -> Act S Value ConfirmationError;
  conf_validate : string -> ConfirmationBinding -> Act S ValidatedPlan ConfirmationError;
  conf_consume : string -> ConfirmationBinding -> Value -> Act S ConfirmedPlan ConfirmationError;
  audit : AuditLine X -> S -> S
}.

(** [iter().find_map(f)] *)
Definition find_map {A B} (f : A -> option B) (l : list A) : option B := head (omap f l).

Inductive AsyncStatusOutcome := StatusPending | StatusDone | StatusFailed (detail : string).

Inductive PollFailure {X : External} :=
  | PfTimeout (elapsed_secs : N)
  | PfFailed (detail : string)
  | PfTransport (e : SrxError).

Definition POLL_INTERVAL_SECS : N := 5.
Definition DEFAULT_TIMEOUT_SECS : N := 600.
Definition MAX_TIMEOUT_SECS : N := 1800.
Definition clamp_timeout (t : option N) : N :=
  from_secs (N.min (default DEFAULT_TIMEOUT_SECS t) MAX_TIMEOUT_SECS).

Section preflight.
Context {X : External} {RX : Roxmltree} {TC : TimeCrate} {S : Type} {SV : SignatureServer S}.

Definition detect_commit_confirmed (commit_info_xml : string) : Result bool SrxError :=
  match parse_document (sanitize_rustez_xml commit_info_xml) with
  | Err e => Err (SrxParse ("roxmltree (commit-information): " ^^ e))
  | Ok doc => Ok (existsb (named "commit-confirmed") (descendants doc))
  end.

(** The feature's name in the error; the [Debug] name of the features no
    signature workflow asks for. *)
Definition inactive_feature (f : SrxLicensedFeature) : string :=
  match f with
  | Idp => "idp" | AppId => "app_id" | UtmAntivirus => "utmantivirus"
  | WebFiltering => "webfiltering" | AntiSpam => "antispam" | SecIntel => "secintel"
  | AtpCloud => "atpcloud" | SslProxy => "sslproxy"
  end.

Definition license_active (router : string) (feature : SrxLicensedFeature) : Act S unit SrxError :=
  let! _ := rpc in
  let! summary_xml := call "get-license-summary-information" [] in
  let! parsed := act_ret (license_parse feature summary_xml) in
  let inactive := err (SignaturePackageLicenseInactive router (inactive_feature feature)) in
  match sr_state parsed with
  | Active =>
      match sr_data parsed with
      | Some data => if (lc_installed (counts data) =? 0)%N then inactive else ok tt
      | None => ok tt
      end
  | _ => inactive
  end.

(** The status of the first member that is neither primary nor secondary. *)
Definition unhealthy_member (data : ClusterStatusData) : option string :=
  find_map (fun m =>
    let s := to_ascii_lowercase (rm_status m) in
    if String.eqb s "primary" || String.eqb s "secondary" then None else Some (rm_status m))
    (concat (map members (redundancy_groups data))).

Definition cluster_topology (router : string) : Act S Topology SrxError :=
  let! _ := rpc in
  let! reply := call "get-chassis-cluster-status" [] in
  let! parsed := act_ret (cluster_parse reply) in
  match sr_state parsed with
  | NotConfigured | SrxStateError => ok Standalone
  | Active =>
      match sr_data parsed with
      | Some data =>
          match unhealthy_member data with
          | Some status => err (SignaturePackageClusterDesynced router status)
          | None => ok ChassisCluster
          end
      | None => ok ChassisCluster
      end
  end.

(** The probe for an open commit-confirmed window: every error is ignored. *)
Definition commit_window_blockers : Act S (list string) SrxError :=
  act_bind rpc (fun r =>
    match r with
    | Err _ => ok []
    | Ok _ =>
        act_bind (call "get-commit-information" []) (fun r =>
          match r with
          | Ok commit_xml =>
              match detect_commit_confirmed commit_xml with
              | Ok true => ok ["commit-confirmed window open (informational)"]
              | _ => ok []
              end
          | Err _ => ok []
          end)
    end).

(** ** Polling a status RPC *)

(** The loop of [poll_status]: [probe] reads the device's status text.  It runs
    at most one round per interval that fits before the deadline, so that much
    fuel changes nothing ([status_loop_fuel]). *)
Fixpoint status_loop (fuel : nat) (probe : Act S string SrxError)
    (classify : string -> AsyncStatusOutcome) (deadline started : N) : Act S unit PollFailure :=
  fun w =>
  match fuel with
  | 0 => (Err (PfTimeout (as_secs (w_now w - started))), w)
  | Datatypes.S fuel =>
      if (deadline <=? w_now w)%N then (Err (PfTimeout (as_secs (w_now w - started))), w) else
      match probe w with
      | (Err e, w) => (Err (PfTransport e), w)
      | (Ok detail, w) =>
          match classify detail with
          | StatusDone => (Ok tt, w)
          | StatusFailed d => (Err (PfFailed d), w)
          | StatusPending =>
              if (deadline <=? w_now w + from_secs POLL_INTERVAL_SECS)%N
              then (Err (PfTimeout (as_secs (w_now w - started))), w)
              else status_loop fuel probe classify deadline started
                     (advance w (from_secs POLL_INTERVAL_SECS) (w_backend w))
          end
      end
  end.

Definition status_fuel (deadline now : N) : nat :=
  Datatypes.S (N.to_nat ((deadline - now) / from_secs POLL_INTERVAL_SECS)).

Definition convert_poll_failure (router action : string) (f : PollFailure) : SrxError :=
  match f with
  | PfTimeout elapsed_secs => SignaturePackagePollTimeout router action elapsed_secs
  | PfFailed detail =>
      if String.eqb action "download" then SignaturePackageDownloadFailed router detail
      else SignaturePackageInstallFailed router detail
  | PfTransport e => e
  end.

(** ** Leases and audit lines *)

(** [let _lease = acquire(..).await?;] and the scope it guards. *)
Definition with_lease {T} (router holder correlation_id : string) (body : Act S T SrxError)
  : Act S T SrxError := fun w =>
  match await (lease_acquire router holder correlation_id) w with
  | (Err e, w) => (Err (SrxTransport e), w)
  | (Ok lease, w) =>
      let (r, w) := body w in
      (r, mk_world (w_now w) (w_cancel_at w) (lease_release lease (w_backend w)))
  end.

Definition conf {T} (router : string) (m : Act S T ConfirmationError) : Act S T SrxError :=
  act_try (into_srx_error router) m (fun t => act_ret (Ok t)).

Definition emit (l : AuditLine X) : Act S unit SrxError := act_state (audit l).

(** [m.inspect_err(|e| audit(.., Some(e)))?] *)
Definition audit_failure {T} (line : option SrxError -> AuditLine X) (m : Act S T SrxError)
  : Act S T SrxError :=
  act_bind m (fun r =>
    match r with
    | Ok t => ok t
    | Err e => let! _ := emit (line (Some e)) in err e
    end).

End preflight.

(** ** The status poll ends *)

Section poll_ends.
Context {X : External} {S : Type}.
Context (probe : Act S string SrxError) (classify : string -> AsyncStatusOutcome).
Context (deadline started : N).

(** A probe takes time, and at most [T] of it. *)
Definition takes_at_most (T : N) : Prop :=
  forall w, (w_now w <= w_now (probe w).2 <= w_now w + T)%N.

Lemma interval_pos : (0 < from_secs POLL_INTERVAL_SECS)%N.
Proof. done. Qed.

Lemma div_interval_step n m :
  (n + from_secs POLL_INTERVAL_SECS <= m < deadline)%N ->
  ((deadline - m) / from_secs POLL_INTERVAL_SECS + 1 <=
   (deadline - n) / from_secs POLL_INTERVAL_SECS)%N.
Proof.
  intros H. pose proof interval_pos.
  rewrite <- (N.div_add (deadline - m) 1 (from_secs POLL_INTERVAL_SECS)) by lia.
  apply N.Div0.div_le_mono. lia.
Qed.

Lemma status_loop_fuel_gen T fuel k w :
  takes_at_most T -> status_fuel deadline (w_now w) <= fuel ->
  status_loop (fuel + k) probe classify deadline started w =
  status_loop fuel probe classify deadline started w.
Proof.
  intros HT. revert w. induction fuel as [|fuel IH]; intros w Hf.
  { unfold status_fuel in Hf. by apply Nat.nle_succ_0 in Hf. }
  cbn [status_loop Nat.add]. destruct (deadline <=? w_now w)%N; [done|].
  specialize (HT w). destruct (probe w) as [[d|e] w1]; [|done]. destruct (classify d); try done.
  destruct (N.leb_spec deadline (w_now w1 + from_secs POLL_INTERVAL_SECS)); [done|].
  apply IH. cbn [snd] in HT. unfold status_fuel, advance in *. cbn [w_now].
  assert (Hs : (w_now w + from_secs POLL_INTERVAL_SECS <=
                w_now w1 + from_secs POLL_INTERVAL_SECS < deadline)%N) by lia.
  apply div_interval_step in Hs.
  apply le_S_n in Hf. etransitivity; [|exact Hf].
  remember ((deadline - w_now w) / from_secs POLL_INTERVAL_SECS)%N as q.
  remember ((deadline - (w_now w1 + from_secs POLL_INTERVAL_SECS)) /
            from_secs POLL_INTERVAL_SECS)%N as q'. lia.
Qed.

Lemma status_loop_time T fuel w :
  takes_at_most T ->
  (w_now (status_loop fuel probe classify deadline started w).2 <= N.max (w_now w) deadline + T)%N.
Proof.
  intros HT. revert w. induction fuel as [|fuel IH]; intros w; cbn [status_loop]; [cbn; lia|].
  destruct (N.leb_spec deadline (w_now w)); [cbn; lia|].
  specialize (HT w) as HTw. destruct (probe w) as [[d|e] w1]; cbn [snd] in HTw; [|cbn; lia].
  destruct (classify d); [|cbn; lia..].
  destruct (N.leb_spec deadline (w_now w1 + from_secs POLL_INTERVAL_SECS)); [cbn; lia|].
  specialize (IH (advance w1 (from_secs POLL_INTERVAL_SECS) (w_backend w1))).
  cbn [advance w_now] in IH. lia.
Qed.

(** Polling a status RPC ends: the loop takes no more rounds than intervals
    fit before the deadline, so its fuel changes nothing, and when no RPC takes
    longer than [T] it is over at most [T] after the deadline, whatever the
    device answers. *)
Theorem status_poll_ends T k w :
  takes_at_most T ->
  status_loop (status_fuel deadline (w_now w) + k) probe classify deadline started w =
    status_loop (status_fuel deadline (w_now w)) probe classify deadline started w /\
  (w_now (status_loop (status_fuel deadline (w_now w)) probe classify deadline started w).2
     <= N.max (w_now w) deadline + T)%N.
Proof. intros HT. split; [by eapply status_loop_fuel_gen|by apply status_loop_time]. Qed.

End poll_ends.

(** A device that is never done, probed in two seconds. *)
Lemma status_poll_ends_witness :
  let probe : Act unit string (@SrxError string_external) :=
    fun w => (Ok "busy", advance w (from_secs 2) tt) in
  takes_at_most probe (from_secs 2) /\
  status_loop (status_fuel (from_secs 60) 0 + 7) probe (fun _ => StatusPending) (from_secs 60) 0
    (mk_world 0 None tt) =
  status_loop (status_fuel (from_secs 60) 0) probe (fun _ => StatusPending) (from_secs 60) 0
    (mk_world 0 None tt) /\
  (w_now (status_loop (status_fuel (from_secs 60) 0) probe (fun _ => StatusPending) (from_secs 60) 0
            (mk_world 0 None tt)).2 <= from_secs 60 + from_secs 2)%N.
Proof.
  intros probe. assert (H : takes_at_most probe (from_secs 2)) by (intros w; cbn; lia).
  split; [exact H|].
  apply (status_poll_ends probe (fun _ => StatusPending) (from_secs 60) 0 (from_secs 2) 7
           (mk_world 0 None tt) H).
Defined.
