(* ===== verification/IdpPackage.v ===== *)
(** * IDP signature packages
    ([rust-junosmcp-srx-core/src/workflows/idp_package.rs])

    Reading a device's package versions, and the two destructive workflows:
    downloading and installing a package, and rolling back.  Both take two
    calls; the second does nothing to the device before it holds the router's
    lease, has repeated the checks and has used up the confirmation. *)

From S2P Require Import Prelude RustStr Fmt Errors JsonValue SrxErrors XmlText Async Xml SrxDevice License ClusterStatus SignatureConfirmation SignaturePlan SignatureServer.
From Stdlib Require Import Ascii.

Definition RPC_PACKAGE_INFORMATION : string := "get-idp-security-package-information".
Definition RPC_CHECK_SERVER : string := "request-idp-security-package-download/check-server".
Definition RPC_DOWNLOAD : string := "request-idp-security-package-download".
Definition RPC_INSTALL : string := "request-idp-security-package-install".
Definition RPC_ROLLBACK : string := "request-idp-security-package-rollback".
Definition XML_CHECK_SERVER : string :=
  "<request-idp-security-package-download><check-server/></request-idp-security-package-download>".
Definition XML_DOWNLOAD_STATUS : string :=
  "<request-idp-security-package-download><status/></request-idp-security-package-download>".
Definition XML_INSTALL_STATUS : string :=
  "<request-idp-security-package-install><status/></request-idp-security-package-install>".

Inductive IdpAction := IdpCheckServer | IdpDownloadAndInstall | IdpRollback.

Record IdpPackageArgs := {
  router : string;
  action : IdpAction;
  version : option string;
  confirm : bool;
  confirmation_token : option string;
  timeout : option N;
  include_raw : bool
}.

Record IdpCheckServerNode := {
  re_name : string;
  current_package_version : option string;
  current_detector_version : option string;
  current_rollback_version : option string
}.

Record IdpCheckServerData := {
  data_router : string;
  service : Service;
  topology : Topology;
  latest_version : string;
  nodes : list IdpCheckServerNode;
  update_available : bool;
  raw_xml : option string
}.

Record DownloadAndInstallCompletedData := {
  dc_router : string;
  dc_service : Service;
  dc_topology : Topology;
  dc_target_package_version : string;
  dc_installed_package_version : string;
  dc_elapsed_seconds : N
}.
Inductive DownloadAndInstallResponse :=
  | AlreadyAtTarget (r : AlreadyAtTargetResponse)
  | Completed (d : DownloadAndInstallCompletedData).

Record RollbackCompletedData := {
  rc_router : string;
  rc_service : Service;
  rc_topology : Topology;
  rc_previous_package_version : string;
  rc_installed_package_version : string;
  rc_elapsed_seconds : N
}.

Inductive IdpPackageResponse :=
  | RespCheckServer (d : IdpCheckServerData)
  | RespDownloadAndInstall (r : DownloadAndInstallResponse)
  | RespRollback (d : RollbackCompletedData).

Inductive PlanOutcome :=
  | PlanAlreadyAtTarget (r : AlreadyAtTargetResponse)
  | PlanNeedsConfirmation (p : ConfirmationPlan).

(** ** Versions *)

Definition normalize_version_text (raw : string) : option string :=
  let t := trim raw in
  if is_empty t || eq_ignore_ascii_case t "n/a" || starts_with "N/A(" t then None else Some t.

(** [chars().take_while(|c| c.is_ascii_digit())] *)
Fixpoint take_digits (s : string) : string :=
  match s with
  | String c s => if is_ascii_digit c then String c (take_digits s) else ""
  | "" => ""
  end.

Definition extract_version_info (detail : string) : option string :=
  match str_find "Version info:" detail with
  | None => None
  | Some (_, tail) =>
      let digits := take_digits (str_drop (String.length "Version info:") tail) in
      if is_empty digits then None else Some digits
  end.

Definition leading_version_number (v : string) : string :=
  match find_byte (Ascii.eqb "("%char) v with
  | Some (before, _) => trim before
  | None => trim v
  end.

(** Async status text: "Failed;" wins over "Done;". *)
Definition parse_async_status_detail (detail : string) : AsyncStatusOutcome :=
  let t := trim detail in
  if contains "Failed;" t then StatusFailed t
  else if starts_with "Done;" t then StatusDone
  else StatusPending.

(** ** Plans *)

Definition resolve_target (pinned : option string) (latest : string)
  : string * TargetSource * option string :=
  match pinned with
  | Some v => if is_empty (trim v) then (latest, LatestFromCheckServer, None)
              else (trim v, Pinned, Some latest)
  | None => (latest, LatestFromCheckServer, None)
  end.

Definition at_target (target_lead : string) (n : IdpCheckServerNode) : bool :=
  match current_package_version n with
  | None => false
  | Some v => String.eqb (leading_version_number v) target_lead
  end.

Definition all_at_target (ns : list IdpCheckServerNode) (target : string) : bool :=
  negb (bool_decide (ns = [])) && forallb (at_target (leading_version_number target)) ns.

(** [snapshot.nodes[0].current_package_version.clone().unwrap_or_default()] *)
Definition first_version (ns : list IdpCheckServerNode) : string :=
  match ns with n :: _ => default "" (current_package_version n) | [] => "" end.

Definition topology_words (t : Topology) : string :=
  match t with Standalone => "standalone" | ChassisCluster => "chassis cluster" end.

Definition build_plan (snapshot : IdpCheckServerData) (pinned : option string)
    (blockers : list string) : PlanOutcome :=
  let '(target, target_source, latest_visibility) :=
    resolve_target pinned (latest_version snapshot) in
  if all_at_target (nodes snapshot) target then
    PlanAlreadyAtTarget (already_at_target (data_router snapshot) (service snapshot)
                           (first_version (nodes snapshot)) target)
  else
    PlanNeedsConfirmation (PlanDownloadAndInstall {|
      di_router := data_router snapshot;
      di_service := service snapshot;
      di_topology := topology snapshot;
      di_nodes := map (fun n => {|
          nv_re_name := re_name n;
          nv_current_package_version := default "N/A" (current_package_version n);
          nv_current_detector_version := current_detector_version n |}) (nodes snapshot);
      di_target_package_version := target;
      di_target_source := target_source;
      di_latest_from_check_server := latest_visibility;
      di_estimated_package_size_bytes := None;
      di_estimated_install_duration_seconds := None;
      di_preflight_blockers := blockers;
      di_warning := "Will download IDP signature package " ^^ target ^^ " and install it on "
        ^^ data_router snapshot ^^ " (" ^^ topology_words (topology snapshot)
        ^^ "). This briefly suspends IDP processing during attack-DB swap."
    |}).

Section workflow.
Context {X : External} {RX : Roxmltree} {TC : TimeCrate} {S : Type} {SV : SignatureServer S}.

Definition build_rollback_plan (snapshot : IdpCheckServerData) (blockers : list string)
  : Result ConfirmationPlan SrxError :=
  match find_map current_rollback_version (nodes snapshot) with
  | None => Err (SignaturePackageNoRollbackTarget (data_router snapshot))
  | Some target =>
      let current := default "N/A" (find_map current_package_version (nodes snapshot)) in
      Ok (PlanRollback {|
        rp_router := data_router snapshot;
        rp_service := service snapshot;
        rp_topology := topology snapshot;
        rp_current_package_version := current;
        rp_rollback_target_version := target;
        rp_preflight_blockers := blockers;
        rp_warning := "Will revert IDP signature package from " ^^ leading_version_number current
          ^^ " to " ^^ leading_version_number target ^^ " on " ^^ data_router snapshot ^^ " ("
          ^^ topology_words (topology snapshot)
          ^^ "). Brief IDP processing pause (~30s); no data-plane outage."
      |})
  end.

(** ** Parsers *)

Definition package_node (n : ReNode) : IdpCheckServerNode :=
  let field name :=
    match text_of (inner_xml n) name with
    | Some v => normalize_version_text v
    | None => None
    end in
  {| re_name := Xml.re_name n;
     current_package_version := field "security-package-version";
     current_detector_version := field "detector-version";
     current_rollback_version := field "security-package-rollback-version" |}.

Definition parse_package_information (reply_xml : string)
  : Result (list IdpCheckServerNode) SrxError :=
  let? split := multi_re_split reply_xml in
  match split with
  | [] => Err (schema_mismatch RPC_PACKAGE_INFORMATION "multi-routing-engine-item")
  | _ => Ok (map package_node split)
  end.

Definition parse_check_server_reply (reply_xml router : string) : Result string SrxError :=
  let msg := if contains "<xnm:error" reply_xml || contains "xmlns:xnm" reply_xml
             then default "" (text_of reply_xml "message") else "" in
  if negb (is_empty msg) then Err (SignaturePackageServerUnreachable router msg) else
  match text_of reply_xml "secpack-download-status-detail" with
  | None => Err (schema_mismatch RPC_CHECK_SERVER "secpack-download-status-detail")
  | Some detail =>
      if contains "Failed;" detail then Err (SignaturePackageServerUnreachable router detail)
      else ok_or (SrxParse (RPC_CHECK_SERVER
             ^^ ": missing 'Version info:NNNN' in detail text: " ^^ debug_str detail))
             (extract_version_info detail)
  end.

(** A rollback that failed for want of a backup is told apart. *)
Definition parse_rollback_ack (reply_xml router : string) : Result unit SrxError :=
  let detail := default "" (text_of reply_xml "secpack-rollback-status-detail") in
  match parse_async_status_detail detail with
  | StatusDone | StatusPending => Ok tt
  | StatusFailed d =>
      if contains "No backup available" d then Err (SignaturePackageNoRollbackTarget router)
      else Err (SignaturePackageInstallFailed router d)
  end.

(** ** Reading the device *)

Definition check_server (args : IdpPackageArgs) : Act S IdpCheckServerData SrxError :=
  let! _ := require_router (router args) in
  let! _ := rpc in
  let! info_xml := call RPC_PACKAGE_INFORMATION [] in
  let! check_xml := call_xml XML_CHECK_SERVER in
  let! nodes := act_ret (parse_package_information info_xml) in
  let! latest_version := act_ret (parse_check_server_reply check_xml (router args)) in
  ok {|
    data_router := router args;
    service := ServiceIdp;
    topology := if 1 <? length nodes then ChassisCluster else Standalone;
    latest_version := latest_version;
    nodes := nodes;
    update_available := existsb (fun n => negb (at_target (leading_version_number latest_version) n))
                          nodes;
    raw_xml := if include_raw args
      then Some ("<!-- package-information -->" ^^ newline ^^ info_xml ^^ newline
                 ^^ "<!-- check-server -->" ^^ newline ^^ check_xml)
      else None
  |}.

Definition preflight (args : IdpPackageArgs) : Act S (IdpCheckServerData * list string) SrxError :=
  let! _ := license_active (router args) Idp in
  let! topology := cluster_topology (router args) in
  let! blockers := commit_window_blockers in
  let! snapshot := check_server args in
  ok ({| data_router := data_router snapshot; service := service snapshot; topology := topology;
         latest_version := latest_version snapshot; nodes := nodes snapshot;
         update_available := update_available snapshot; raw_xml := raw_xml snapshot |}, blockers).

Definition preflight_rollback (args : IdpPackageArgs)
  : Act S (IdpCheckServerData * list string) SrxError :=
  let! _ := license_active (router args) Idp in
  let! topology := cluster_topology (router args) in
  let! blockers := commit_window_blockers in
  let! info_xml := rpc_then_call RPC_PACKAGE_INFORMATION in
  let! nodes := act_ret (parse_package_information info_xml) in
  ok ({| data_router := router args; service := ServiceIdp; topology := topology;
         latest_version := ""; nodes := nodes; update_available := false; raw_xml := None |},
      blockers).

Definition poll_status (rpc_body detail_element : string) (deadline started : N)
  : Act S unit PollFailure := fun w =>
  let probe :=
    let! _ := rpc in
    let! reply := call_xml rpc_body in
    ok (default "" (text_of reply detail_element)) in
  status_loop (status_fuel deadline (w_now w)) probe parse_async_status_detail deadline started w.

Definition download_and_poll (args : IdpPackageArgs) (outer_budget started : N)
  : Act S unit SrxError :=
  let! _ := rpc_then_call RPC_DOWNLOAD in
  act_try (convert_poll_failure (router args) "download")
    (poll_status XML_DOWNLOAD_STATUS "secpack-download-status-detail" (started + outer_budget)
       started) (fun u => ok u).

Definition install_and_poll (args : IdpPackageArgs) (outer_budget started : N)
  : Act S unit SrxError :=
  let! _ := rpc_then_call RPC_INSTALL in
  act_try (convert_poll_failure (router args) "install")
    (poll_status XML_INSTALL_STATUS "secpack-status-detail" (started + outer_budget)
       started) (fun u => ok u).

(** The first node that is not on the target, or the version the nodes have. *)
Definition verify_nodes (args : IdpPackageArgs) (target : string)
    (ns : list IdpCheckServerNode) : Result string SrxError :=
  match find (fun n => negb (at_target (leading_version_number target) n)) ns with
  | Some n => Err (SignaturePackageVerificationFailed (router args) target
                     (default "N/A" (current_package_version n)))
  | None => Ok (default target (find_map current_package_version ns))
  end.

Definition verify_installed_version (args : IdpPackageArgs) (target : string)
  : Act S string SrxError :=
  let! info_xml := rpc_then_call RPC_PACKAGE_INFORMATION in
  let! nodes := act_ret (parse_package_information info_xml) in
  act_ret (verify_nodes args target nodes).

Definition audit_line (phase action : string) (args : IdpPackageArgs) (caller : option string)
    (request_id current_version target_version : string) (failure : option SrxError)
  : AuditLine X := {|
  al_tool := "manage_idp_security_package";
  al_action := action;
  al_service := "idp";
  al_caller := default "unknown" caller;
  al_request_id := request_id;
  al_phase := phase;
  al_current_version := current_version;
  al_target_version := target_version;
  al_failure := failure
|}.

(** ** The destructive workflows *)

Definition run_destructive (args : IdpPackageArgs) (caller : option string) (request_id : string)
    (snapshot : IdpCheckServerData) : Act S DownloadAndInstallResponse SrxError :=
  let! started := act_now in
  let outer_budget := clamp_timeout (timeout args) in
  let target := (resolve_target (version args) (latest_version snapshot)).1.1 in
  if all_at_target (nodes snapshot) target then
    ok (AlreadyAtTarget (already_at_target (router args) ServiceIdp
                           (first_version (nodes snapshot)) target))
  else
    let current := default "N/A" (find_map current_package_version (nodes snapshot)) in
    let line phase := audit_line phase "download_and_install" args caller request_id in
    let! _ := emit (line "preflight_passed" current target None) in
    let! _ := audit_failure (line "failed" current target)
                (download_and_poll args outer_budget started) in
    let! _ := emit (line "download_complete" current target None) in
    let! _ := audit_failure (line "failed" current target)
                (install_and_poll args outer_budget started) in
    let! _ := emit (line "install_complete" current target None) in
    let! installed := audit_failure (line "failed" current target)
                        (verify_installed_version args target) in
    let! _ := emit (line "verified" installed target None) in
    let! now := act_now in
    ok (Completed {|
      dc_router := router args;
      dc_service := ServiceIdp;
      dc_topology := topology snapshot;
      dc_target_package_version := target;
      dc_installed_package_version := installed;
      dc_elapsed_seconds := as_secs (now - started)
    |}).

Definition run_rollback_destructive (args : IdpPackageArgs) (caller : option string)
    (request_id : string) (snapshot : IdpCheckServerData) : Act S RollbackCompletedData SrxError :=
  let! started := act_now in
  match find_map current_rollback_version (nodes snapshot) with
  | None => err (SignaturePackageNoRollbackTarget (router args))
  | Some target =>
      let previous := default "N/A" (find_map current_package_version (nodes snapshot)) in
      let line phase := audit_line phase "rollback" args caller request_id in
      let! _ := emit (line "preflight_passed" previous target None) in
      let! _ := rpc in
      let! reply := audit_failure (line "failed" previous target) (call RPC_ROLLBACK []) in
      let! _ := audit_failure (line "failed" previous target)
                  (act_ret (parse_rollback_ack reply (router args))) in
      let! _ := emit (line "install_complete" previous target None) in
      let! installed := audit_failure (line "failed" previous target)
                          (verify_installed_version args target) in
      let! _ := emit (line "verified" installed target None) in
      let! now := act_now in
      ok {|
        rc_router := router args;
        rc_service := ServiceIdp;
        rc_topology := topology snapshot;
        rc_previous_package_version := previous;
        rc_installed_package_version := installed;
        rc_elapsed_seconds := as_secs (now - started)
      |}
  end.

Definition require_confirmation {T} (args : IdpPackageArgs) (b : ConfirmationBinding)
    (request_id : string) (plan : ConfirmationPlan) : Act S T SrxError :=
  let! plan_value := conf (router args) (conf_issue (plan_value plan) b request_id) in
  err (SignaturePackageConfirmationRequired (router args) plan_value).

Definition download_and_install (args : IdpPackageArgs) (caller : option string)
    (device_identity request_id : string) : Act S DownloadAndInstallResponse SrxError :=
  let! _ := require_router (router args) in
  let! token := act_ret (confirmation_token_for_request (confirm args)
                           (confirmation_token args) (router args)) in
  let b := binding_new caller (router args) device_identity in
  match token with
  | None =>
      let! (snapshot, _) := preflight args in
      match build_plan snapshot (version args) [] with
      | PlanAlreadyAtTarget resp => ok (AlreadyAtTarget resp)
      | PlanNeedsConfirmation plan => require_confirmation args b request_id plan
      end
  | Some token =>
      let! validated := conf (router args) (conf_validate token b) in
      with_lease (router args) "manage_idp_security_package/download_and_install"
        (vp_correlation_id validated)
        (let! (snapshot, _) := preflight args in
         match build_plan snapshot (version args) [] with
         | PlanAlreadyAtTarget _ => err (SignaturePackageConfirmationPlanDrift (router args))
         | PlanNeedsConfirmation plan =>
             let! confirmed := conf (router args) (conf_consume token b (plan_value plan)) in
             run_destructive args caller (cp_correlation_id confirmed) snapshot
         end)
  end.

Definition rollback (args : IdpPackageArgs) (caller : option string)
    (device_identity request_id : string) : Act S RollbackCompletedData SrxError :=
  let! _ := require_router (router args) in
  let! token := act_ret (confirmation_token_for_request (confirm args)
                           (confirmation_token args) (router args)) in
  let b := binding_new caller (router args) device_identity in
  match token with
  | None =>
      let! (snapshot, _) := preflight_rollback args in
      let! plan := act_ret (build_rollback_plan snapshot []) in
      require_confirmation args b request_id plan
  | Some token =>
      let! validated := conf (router args) (conf_validate token b) in
      with_lease (router args) "manage_idp_security_package/rollback"
        (vp_correlation_id validated)
        (let! (snapshot, _) := preflight_rollback args in
         let! plan := act_ret (build_rollback_plan snapshot []) in
         let! confirmed := conf (router args) (conf_consume token b (plan_value plan)) in
         run_rollback_destructive args caller (cp_correlation_id confirmed) snapshot)
  end.

(** [run]: the verb the tool was called with. *)
Definition run (args : IdpPackageArgs) (caller : option string)
    (device_identity request_id : string) : Act S IdpPackageResponse SrxError :=
  match action args with
  | IdpCheckServer =>
      let! d := check_server args in ok (RespCheckServer d)
  | IdpDownloadAndInstall =>
      let! r := download_and_install args caller device_identity request_id in
      ok (RespDownloadAndInstall r)
  | IdpRollback =>
      let! d := rollback args caller device_identity request_id in ok (RespRollback d)
  end.

End workflow.
