(* ===== verification/AppidPackage.v ===== *)
(** * AppID signature packages
    ([rust-junosmcp-srx-core/src/workflows/appid_package.rs])

    The application-identification counterpart of [IdpPackage]: downloading and
    installing a package, and uninstalling it, under the same two-call
    protocol.  Its status texts are plain English and are compared in lower
    case; Unicode's lower-casing is a parameter. *)

From S2P Require Import Prelude RustStr Fmt Errors JsonValue SrxErrors XmlText Async Xml SrxDevice License ClusterStatus SignatureConfirmation SignaturePlan SignatureServer.
From Stdlib Require Import Ascii.

Definition RPC_PACKAGE_VERSION : string := "get-appid-package-version".
Definition RPC_CHECK_SERVER : string := "request-appid-application-package-download-check-server".
Definition RPC_DOWNLOAD : string := "request-appid-application-package-download".
Definition RPC_DOWNLOAD_STATUS : string := "request-appid-application-package-download-status".
Definition RPC_INSTALL : string := "request-appid-application-package-install".
Definition RPC_INSTALL_STATUS : string := "request-appid-application-package-install-status".
Definition RPC_UNINSTALL : string := "request-appid-application-package-uninstall".
Definition RPC_UNINSTALL_STATUS : string := "request-appid-application-package-uninstall-status".
Definition EL_SERVER_STATUS_DETAIL : string := "apppack-server-status-detail".
Definition EL_DOWNLOAD_STATUS_DETAIL : string := "apppack-download-status-detail".
Definition EL_INSTALL_STATUS_DETAIL : string := "apppack-install-status-detail".
Definition EL_UNINSTALL_STATUS_DETAIL : string := "apppack-uninstall-status-detail".

Inductive AppidAction := AppidCheckServer | AppidDownloadAndInstall | AppidUninstall.

Record AppidPackageArgs := {
  router : string;
  action : AppidAction;
  version : option string;
  confirm : bool;
  confirmation_token : option string;
  timeout : option N;
  include_raw : bool
}.

Record AppidCheckServerNode := {
  re_name : string;
  current_package_version : option string;
  release_date : option string
}.

Record AppidCheckServerData := {
  data_router : string;
  service : Service;
  topology : Topology;
  latest_version : string;
  nodes : list AppidCheckServerNode;
  update_available : bool;
  raw_xml : option string
}.

Record DownloadAndInstallCompletedData := {
  dc_router : string;
  dc_service : Service;
  dc_topology : Topology;
  dc_target_package_version : string;
  dc_installed_package_version : string;
  dc_elapsed_seconds : N
}.
Inductive DownloadAndInstallResponse :=
  | AlreadyAtTarget (r : AlreadyAtTargetResponse)
  | Completed (d : DownloadAndInstallCompletedData).

Record UninstallCompletedData := {
  uc_router : string;
  uc_service : Service;
  uc_topology : Topology;
  uc_previous_package_version : string;
  uc_elapsed_seconds : N
}.

Inductive AppidPackageResponse :=
  | RespCheckServer (d : AppidCheckServerData)
  | RespDownloadAndInstall (r : DownloadAndInstallResponse)
  | RespUninstall (d : UninstallCompletedData).

Inductive PlanOutcome :=
  | PlanAlreadyAtTarget (r : AlreadyAtTargetResponse)
  | PlanNeedsConfirmation (p : ConfirmationPlan).

(** [str::to_lowercase] *)
Class Unicode := { to_lowercase : string -> string }.

(** ** Versions *)

Definition normalize_version_text (raw : string) : option string :=
  let t := trim raw in
  if is_empty t || eq_ignore_ascii_case t "n/a" || starts_with "N/A(" t || String.eqb t "0"
  then None else Some t.

(** [chars().take_while(|c| c.is_ascii_digit())] *)
Fixpoint take_digits (s : string) : string :=
  match s with
  | String c s => if is_ascii_digit c then String c (take_digits s) else ""
  | "" => ""
  end.

Definition extract_version_info (detail : string) : option string :=
  match str_find "Version info:" detail with
  | None => None
  | Some (_, tail) =>
      let digits := take_digits (str_drop (String.length "Version info:") tail) in
      if is_empty digits then None else Some digits
  end.

Definition leading_version_number (v : string) : string :=
  let trimmed := trim v in
  match find_byte (fun c => Ascii.eqb "("%char c || Ascii.eqb " "%char c) trimmed with
  | Some (before, _) => trim before
  | None => trimmed
  end.

Definition parse_async_status_detail {U : Unicode} (detail : string) : AsyncStatusOutcome :=
  let t := trim detail in
  let lower := to_lowercase t in
  if contains "failed" lower then StatusFailed t
  else if starts_with "downloaded" lower || starts_with "installed" lower
          || starts_with "uninstalled" lower then StatusDone
  else StatusPending.

(** ** Plans *)

Definition resolve_target (pinned : option string) (latest : string)
  : string * TargetSource * option string :=
  match pinned with
  | Some v => if is_empty (trim v) then (latest, LatestFromCheckServer, None)
              else (trim v, Pinned, Some latest)
  | None => (latest, LatestFromCheckServer, None)
  end.

Definition at_target (target_lead : string) (n : AppidCheckServerNode) : bool :=
  match current_package_version n with
  | None => false
  | Some v => String.eqb (leading_version_number v) target_lead
  end.

Definition all_at_target (ns : list AppidCheckServerNode) (target : string) : bool :=
  negb (bool_decide (ns = [])) && forallb (at_target (leading_version_number target)) ns.

(** [snapshot.nodes[0].current_package_version.clone().unwrap_or_default()] *)
Definition first_version (ns : list AppidCheckServerNode) : string :=
  match ns with n :: _ => default "" (current_package_version n) | [] => "" end.

Definition topology_words (t : Topology) : string :=
  match t with Standalone => "standalone" | ChassisCluster => "chassis cluster" end.

Definition build_plan (snapshot : AppidCheckServerData) (pinned : option string)
    (blockers : list string) : PlanOutcome :=
  let '(target, target_source, latest_visibility) :=
    resolve_target pinned (latest_version snapshot) in
  if all_at_target (nodes snapshot) target then
    PlanAlreadyAtTarget (already_at_target (data_router snapshot) (service snapshot)
                           (first_version (nodes snapshot)) target)
  else
    PlanNeedsConfirmation (PlanDownloadAndInstall {|
      di_router := data_router snapshot;
      di_service := service snapshot;
      di_topology := topology snapshot;
      di_nodes := map (fun n => {|
          nv_re_name := re_name n;
          nv_current_package_version := default "N/A" (current_package_version n);
          nv_current_detector_version := None |}) (nodes snapshot);
      di_target_package_version := target;
      di_target_source := target_source;
      di_latest_from_check_server := latest_visibility;
      di_estimated_package_size_bytes := None;
      di_estimated_install_duration_seconds := None;
      di_preflight_blockers := blockers;
      di_warning := "Will download AppID application package " ^^ target ^^ " and install it on "
        ^^ data_router snapshot ^^ " (" ^^ topology_words (topology snapshot)
        ^^ "). This briefly suspends application identification during package swap."
    |}).

Section workflow.
Context {X : External} {RX : Roxmltree} {TC : TimeCrate} {U : Unicode}.
Context {S : Type} {SV : SignatureServer S}.

Definition build_uninstall_plan (snapshot : AppidCheckServerData) (blockers : list string)
  : Result ConfirmationPlan SrxError :=
  match find_map current_package_version (nodes snapshot) with
  | None => Err (SignaturePackageNoUninstallTarget (data_router snapshot))
  | Some current =>
      Ok (PlanUninstall {|
        up_router := data_router snapshot;
        up_service := service snapshot;
        up_topology := topology snapshot;
        up_current_package_version := current;
        up_preflight_blockers := blockers;
        up_warning := "Will uninstall the active AppID signature package (" ^^ current ^^ ") on "
          ^^ data_router snapshot ^^ " (" ^^ topology_words (topology snapshot)
          ^^ "). Application identification will be disabled until a fresh package is installed."
      |})
  end.

(** ** Parsers *)

Definition package_node (n : ReNode) : AppidCheckServerNode :=
  let field name :=
    match text_of (inner_xml n) name with
    | Some v => normalize_version_text v
    | None => None
    end in
  {| re_name := Xml.re_name n;
     current_package_version := field "version-detail";
     release_date := field "release-date" |}.

Definition parse_package_version (reply_xml : string)
  : Result (list AppidCheckServerNode) SrxError :=
  let? split := multi_re_split reply_xml in
  match split with
  | [] => Err (schema_mismatch RPC_PACKAGE_VERSION "multi-routing-engine-item")
  | _ => Ok (map package_node split)
  end.

Definition parse_check_server_reply (reply_xml router : string) : Result string SrxError :=
  let msg := if contains "<xnm:error" reply_xml || contains "xmlns:xnm" reply_xml
             then default "" (text_of reply_xml "message") else "" in
  if negb (is_empty msg) then Err (SignaturePackageServerUnreachable router msg) else
  match text_of reply_xml EL_SERVER_STATUS_DETAIL with
  | None => Err (schema_mismatch RPC_CHECK_SERVER "apppack-server-status-detail")
  | Some detail =>
      let dlower := to_lowercase detail in
      if contains "not reachable" dlower || contains "verification failed" dlower
         || contains "failed;" dlower || contains "could not connect" dlower
      then Err (SignaturePackageServerUnreachable router detail)
      else ok_or (SrxParse (RPC_CHECK_SERVER
             ^^ ": missing 'Version info:NNNN' in detail text: " ^^ debug_str detail))
             (extract_version_info detail)
  end.

(** ** Reading the device *)

Definition check_server (args : AppidPackageArgs) : Act S AppidCheckServerData SrxError :=
  let! _ := require_router (router args) in
  let! _ := rpc in
  let! info_xml := call RPC_PACKAGE_VERSION [] in
  let! check_xml := call RPC_CHECK_SERVER [] in
  let! nodes := act_ret (parse_package_version info_xml) in
  let! latest_version := act_ret (parse_check_server_reply check_xml (router args)) in
  ok {|
    data_router := router args;
    service := ServiceAppid;
    topology := if 1 <? length nodes then ChassisCluster else Standalone;
    latest_version := latest_version;
    nodes := nodes;
    update_available := existsb (fun n => negb (at_target (leading_version_number latest_version) n))
                          nodes;
    raw_xml := if include_raw args
      then Some ("<!-- package-version -->" ^^ newline ^^ info_xml ^^ newline
                 ^^ "<!-- check-server -->" ^^ newline ^^ check_xml)
      else None
  |}.

Definition preflight (args : AppidPackageArgs)
  : Act S (AppidCheckServerData * list string) SrxError :=
  let! _ := license_active (router args) AppId in
  let! topology := cluster_topology (router args) in
  let! blockers := commit_window_blockers in
  let! snapshot := check_server args in
  ok ({| data_router := data_router snapshot; service := service snapshot; topology := topology;
         latest_version := latest_version snapshot; nodes := nodes snapshot;
         update_available := update_available snapshot; raw_xml := raw_xml snapshot |}, blockers).

Definition preflight_uninstall (args : AppidPackageArgs)
  : Act S (AppidCheckServerData * list string) SrxError :=
  let! _ := license_active (router args) AppId in
  let! topology := cluster_topology (router args) in
  let! blockers := commit_window_blockers in
  let! info_xml := rpc_then_call RPC_PACKAGE_VERSION in
  let! nodes := act_ret (parse_package_version info_xml) in
  ok ({| data_router := router args; service := ServiceAppid; topology := topology;
         latest_version := ""; nodes := nodes; update_available := false; raw_xml := None |},
      blockers).

Definition poll_status (rpc_name detail_element : string) (deadline started : N)
  : Act S unit PollFailure := fun w =>
  let probe :=
    let! _ := rpc in
    let! reply := call rpc_name [] in
    ok (default "" (text_of reply detail_element)) in
  status_loop (status_fuel deadline (w_now w)) probe parse_async_status_detail deadline started w.

Definition download_and_poll (args : AppidPackageArgs) (outer_budget started : N)
  : Act S unit SrxError :=
  let! _ := rpc_then_call RPC_DOWNLOAD in
  act_try (convert_poll_failure (router args) "download")
    (poll_status RPC_DOWNLOAD_STATUS EL_DOWNLOAD_STATUS_DETAIL (started + outer_budget) started)
    (fun u => ok u).

Definition install_and_poll (args : AppidPackageArgs) (outer_budget started : N)
  : Act S unit SrxError :=
  let! _ := rpc_then_call RPC_INSTALL in
  act_try (convert_poll_failure (router args) "install")
    (poll_status RPC_INSTALL_STATUS EL_INSTALL_STATUS_DETAIL (started + outer_budget) started)
    (fun u => ok u).

(** The first node that is not on the target, or the version the nodes have. *)
Definition verify_nodes (args : AppidPackageArgs) (target : string)
    (ns : list AppidCheckServerNode) : Result string SrxError :=
  match find (fun n => negb (at_target (leading_version_number target) n)) ns with
  | Some n => Err (SignaturePackageVerificationFailed (router args) target
                     (default "N/A" (current_package_version n)))
  | None => Ok (default target (find_map current_package_version ns))
  end.

Definition verify_installed_version (args : AppidPackageArgs) (target : string)
  : Act S string SrxError :=
  let! info_xml := rpc_then_call RPC_PACKAGE_VERSION in
  let! nodes := act_ret (parse_package_version info_xml) in
  act_ret (verify_nodes args target nodes).

Definition audit_line (phase action : string) (args : AppidPackageArgs) (caller : option string)
    (request_id current_version target_version : string) (failure : option SrxError)
  : AuditLine X := {|
  al_tool := "manage_appid_signature_package";
  al_action := action;
  al_service := "appid";
  al_caller := default "unknown" caller;
  al_request_id := request_id;
  al_phase := phase;
  al_current_version := current_version;
  al_target_version := target_version;
  al_failure := failure
|}.

(** ** The destructive workflows *)

Definition run_install_destructive (args : AppidPackageArgs) (caller : option string)
    (request_id : string) (snapshot : AppidCheckServerData)
  : Act S DownloadAndInstallResponse SrxError :=
  let! started := act_now in
  let outer_budget := clamp_timeout (timeout args) in
  let target := (resolve_target (version args) (latest_version snapshot)).1.1 in
  if all_at_target (nodes snapshot) target then
    ok (AlreadyAtTarget (already_at_target (router args) ServiceAppid
                           (first_version (nodes snapshot)) target))
  else
    let current := default "N/A" (find_map current_package_version (nodes snapshot)) in
    let line phase := audit_line phase "download_and_install" args caller request_id in
    let! _ := emit (line "preflight_passed" current target None) in
    let! _ := audit_failure (line "failed" current target)
                (download_and_poll args outer_budget started) in
    let! _ := emit (line "download_complete" current target None) in
    let! _ := audit_failure (line "failed" current target)
                (install_and_poll args outer_budget started) in
    let! _ := emit (line "install_complete" current target None) in
    let! installed := audit_failure (line "failed" current target)
                        (verify_installed_version args target) in
    let! _ := emit (line "verified" installed target None) in
    let! now := act_now in
    ok (Completed {|
      dc_router := router args;
      dc_service := ServiceAppid;
      dc_topology := topology snapshot;
      dc_target_package_version := target;
      dc_installed_package_version := installed;
      dc_elapsed_seconds := as_secs (now - started)
    |}).

Definition run_uninstall_destructive (args : AppidPackageArgs) (caller : option string)
    (request_id : string) (snapshot : AppidCheckServerData)
  : Act S UninstallCompletedData SrxError :=
  let! started := act_now in
  let outer_budget := clamp_timeout (timeout args) in
  match find_map current_package_version (nodes snapshot) with
  | None => err (SignaturePackageNoUninstallTarget (router args))
  | Some previous =>
      let line phase := audit_line phase "uninstall" args caller request_id in
      let! _ := emit (line "preflight_passed" previous "(none)" None) in
      let! _ := rpc in
      let! _ := audit_failure (line "failed" previous "(none)") (call RPC_UNINSTALL []) in
      let! _ := audit_failure (line "failed" previous "(none)")
                  (act_try (convert_poll_failure (router args) "uninstall")
                     (poll_status RPC_UNINSTALL_STATUS EL_UNINSTALL_STATUS_DETAIL
                        (started + outer_budget) started) (fun u => ok u)) in
      let! _ := emit (line "install_complete" previous "(none)" None) in
      let! post := rpc_then_call RPC_PACKAGE_VERSION in
      let! post_nodes := act_ret (parse_package_version post) in
      match find_map current_package_version post_nodes with
      | Some v =>
          let e := SignaturePackageVerificationFailed (router args) "N/A" v in
          let! _ := emit (line "failed" previous "(none)" (Some e)) in
          err e
      | None =>
          let! _ := emit (line "verified" "(none)" "(none)" None) in
          let! now := act_now in
          ok {|
            uc_router := router args;
            uc_service := ServiceAppid;
            uc_topology := topology snapshot;
            uc_previous_package_version := previous;
            uc_elapsed_seconds := as_secs (now - started)
          |}
      end
  end.

Definition require_confirmation {T} (args : AppidPackageArgs) (b : ConfirmationBinding)
    (request_id : string) (plan : ConfirmationPlan) : Act S T SrxError :=
  let! plan_value := conf (router args) (conf_issue (plan_value plan) b request_id) in
  err (SignaturePackageConfirmationRequired (router args) plan_value).

Definition download_and_install (args : AppidPackageArgs) (caller : option string)
    (device_identity request_id : string) : Act S DownloadAndInstallResponse SrxError :=
  let! _ := require_router (router args) in
  let! token := act_ret (confirmation_token_for_request (confirm args)
                           (confirmation_token args) (router args)) in
  let b := binding_new caller (router args) device_identity in
  match token with
  | None =>
      let! (snapshot, _) := preflight args in
      match build_plan snapshot (version args) [] with
      | PlanAlreadyAtTarget resp => ok (AlreadyAtTarget resp)
      | PlanNeedsConfirmation plan => require_confirmation args b request_id plan
      end
  | Some token =>
      let! validated := conf (router args) (conf_validate token b) in
      with_lease (router args) "manage_appid_signature_package/download_and_install"
        (vp_correlation_id validated)
        (let! (snapshot, _) := preflight args in
         match build_plan snapshot (version args) [] with
         | PlanAlreadyAtTarget _ => err (SignaturePackageConfirmationPlanDrift (router args))
         | PlanNeedsConfirmation plan =>
             let! confirmed := conf (router args) (conf_consume token b (plan_value plan)) in
             run_install_destructive args caller (cp_correlation_id confirmed) snapshot
         end)
  end.

Definition uninstall (args : AppidPackageArgs) (caller : option string)
    (device_identity request_id : string) : Act S UninstallCompletedData SrxError :=
  let! _ := require_router (router args) in
  let! token := act_ret (confirmation_token_for_request (confirm args)
                           (confirmation_token args) (router args)) in
  let b := binding_new caller (router args) device_identity in
  match token with
  | None =>
      let! (snapshot, _) := preflight_uninstall args in
      let! plan := act_ret (build_uninstall_plan snapshot []) in
      require_confirmation args b request_id plan
  | Some token =>
      let! validated := conf (router args) (conf_validate token b) in
      with_lease (router args) "manage_appid_signature_package/uninstall"
        (vp_correlation_id validated)
        (let! (snapshot, _) := preflight_uninstall args in
         let! plan := act_ret (build_uninstall_plan snapshot []) in
         let! confirmed := conf (router args) (conf_consume token b (plan_value plan)) in
         run_uninstall_destructive args caller (cp_correlation_id confirmed) snapshot)
  end.

(** [run]: the verb the tool was called with. *)
Definition run (args : AppidPackageArgs) (caller : option string)
    (device_identity request_id : string) : Act S AppidPackageResponse SrxError :=
  match action args with
  | AppidCheckServer =>
      let! d := check_server args in ok (RespCheckServer d)
  | AppidDownloadAndInstall =>
      let! r := download_and_install args caller device_identity request_id in
      ok (RespDownloadAndInstall r)
  | AppidUninstall =>
      let! d := uninstall args caller device_identity request_id in ok (RespUninstall d)
  end.

End workflow.
