(* ===== verification/SignatureWorkflowSpec.v ===== *)
(** * What the signature workflows promise

    Every call of a workflow to the device, the lease manager and the
    confirmation store is recorded by [logged_server], over any implementation
    of them.  [accept] is the two-call protocol as an automaton over that log:
    an RPC that is not known to read only is admitted when the caller's token
    was checked, the router's lease was taken after that, and the token was then
    used up for the plan computed under the lease.  [emits] is the logic of
    programs over it: what a piece of a workflow adds to the log, from a phase
    to a phase. *)

From S2P Require Import Prelude RustStr Fmt Errors JsonValue SrxErrors XmlText Async Xml SrxDevice License ClusterStatus SignatureConfirmation SignaturePlan SignatureServer.
From S2P Require IdpPackage AppidPackage.

(** ** The log *)

Inductive Event {X : External} :=
  | EvCall (name : string) (reply : Result string RustEzError)
  | EvXml (body : string) (reply : Result string RustEzError)
  | EvAcquire (router : string) (acquired : bool)
  | EvRelease
  | EvIssue (plan : Value) (b : ConfirmationBinding)
  | EvValidate (token : string) (b : ConfirmationBinding) (valid : bool)
  | EvConsume (token : string) (b : ConfirmationBinding) (plan : Value) (consumed : bool)
  | EvAudit (line : AuditLine X).
Arguments Event : clear implicits.

Section logged.
Context {X : External} {S : Type} {SV : SignatureServer S}.
Abbreviation Logged := (S * list (Event X))%type.

Definition log_future {T E} (ev : Result T E -> Event X) (f : Future S T E)
  : Future Logged T E := fun sl =>
  let r := f sl.1 in
  mk_rpc (rpc_time r) (rpc_result r) (rpc_state r, sl.2 ++ [ev (rpc_result r)])
    (fun k => (rpc_dropped r k, sl.2)).

Definition log_act {T E} (ev : Result T E -> Event X) (m : Act S T E) : Act Logged T E := fun w =>
  let (r, w') := m (mk_world (w_now w) (w_cancel_at w) (w_backend w).1) in
  (r, mk_world (w_now w') (w_cancel_at w') (w_backend w', (w_backend w).2 ++ [ev r])).

Definition logged_device : SrxDevice Logged := {|
  rpc_ready sl := rpc_ready sl.1;
  rpc_call name args := log_future (EvCall name) (rpc_call name args);
  rpc_call_xml body := log_future (EvXml body) (rpc_call_xml body)
|}.

#[export] Instance logged_server : SignatureServer Logged := {|
  ss_device := logged_device;
  Lease := Lease (S := S);
  lease_acquire router holder c :=
    log_future (fun r => EvAcquire router (is_ok r)) (lease_acquire router holder c);
  lease_release l sl := (lease_release l sl.1, sl.2 ++ [EvRelease]);
  conf_issue plan b c := log_act (fun _ => EvIssue plan b) (conf_issue plan b c);
  conf_validate t b := log_act (fun r => EvValidate t b (is_ok r)) (conf_validate t b);
  conf_consume t b p := log_act (fun r => EvConsume t b p (is_ok r)) (conf_consume t b p);
  audit line sl := (audit line sl.1, sl.2 ++ [EvAudit line])
|}.

End logged.
Abbreviation Logged S X := (S * list (Event X))%type.

(** ** The protocol *)

Definition read_only_calls : list string :=
  ["get-license-summary-information"; "get-chassis-cluster-status"; "get-commit-information";
   IdpPackage.RPC_PACKAGE_INFORMATION; AppidPackage.RPC_PACKAGE_VERSION;
   AppidPackage.RPC_CHECK_SERVER; AppidPackage.RPC_DOWNLOAD_STATUS;
   AppidPackage.RPC_INSTALL_STATUS; AppidPackage.RPC_UNINSTALL_STATUS].
Definition read_only_bodies : list string :=
  [IdpPackage.XML_CHECK_SERVER; IdpPackage.XML_DOWNLOAD_STATUS; IdpPackage.XML_INSTALL_STATUS].

(** [Ended]: the lease was given back. *)
Inductive Phase := Idle | Checked | Leased | Confirmed | Ended.

Definition same_grant (token : option string) (b : ConfirmationBinding) (t : string)
    (b' : ConfirmationBinding) : bool :=
  bool_decide (token = Some t) && bool_decide (b = b').

Definition accept {X : External} (token : option string) (b : ConfirmationBinding) (ph : Phase)
    (ev : Event X) : option Phase :=
  match ev, ph with
  | EvCall name _, (Idle | Leased) =>
      if existsb (String.eqb name) read_only_calls then Some ph else None
  | EvXml body _, (Idle | Leased) =>
      if existsb (String.eqb body) read_only_bodies then Some ph else None
  | EvCall _ _, Confirmed | EvXml _ _, Confirmed => Some Confirmed
  | EvIssue _ b', Idle =>
      if bool_decide (token = None) && bool_decide (b = b') then Some Idle else None
  | EvValidate t b' valid, Idle =>
      if same_grant token b t b' then Some (if valid then Checked else Idle) else None
  | EvAcquire r acquired, Checked =>
      if String.eqb r (router b) then Some (if acquired then Leased else Checked) else None
  | EvConsume t b' _ consumed, Leased =>
      if same_grant token b t b' then Some (if consumed then Confirmed else Leased) else None
  | EvRelease, (Leased | Confirmed) => Some Ended
  | EvAudit _, Confirmed => Some Confirmed
  | _, _ => None
  end.

Fixpoint accept_all {X : External} token b (ph : Phase) (evs : list (Event X)) : option Phase :=
  match evs with
  | [] => Some ph
  | ev :: evs =>
      match accept token b ph ev with Some ph => accept_all token b ph evs | None => None end
  end.

Lemma accept_all_app {X : External} token b ph (l1 l2 : list (Event X)) :
  accept_all token b ph (l1 ++ l2) =
  match accept_all token b ph l1 with Some ph => accept_all token b ph l2 | None => None end.
Proof. revert ph. induction l1 as [|ev l1 IH]; intros ph; [done|]. cbn. by case_match. Qed.

(** ** The logic *)

Section logic.
Context {X : External} {RX : Roxmltree} {TC : TimeCrate} {S : Type} {SV : SignatureServer S}.
Context (token : option string) (b : ConfirmationBinding).

Definition emits {T E} (ph : Phase) (m : Act (Logged S X) T E)
    (Q : Result T E -> Phase -> Prop) : Prop :=
  forall w, exists evs ph', (w_backend (m w).2).2 = (w_backend w).2 ++ evs /\
    accept_all token b ph evs = Some ph' /\ Q (m w).1 ph'.

(** Stays in the phase, whatever the result. *)
Definition stays {T E} (ph : Phase) (m : Act (Logged S X) T E) : Prop :=
  emits ph m (fun _ ph' => ph' = ph).

Lemma emits_ret {T E} ph (r : Result T E) (Q : Result T E -> Phase -> Prop) :
  Q r ph -> emits ph (act_ret r) Q.
Proof. intros H w. exists [], ph. by rewrite app_nil_r. Qed.

Lemma emits_bind {T E U F} ph (m : Act (Logged S X) T E) (k : Result T E -> Act (Logged S X) U F) Q R :
  emits ph m R -> (forall r ph', R r ph' -> emits ph' (k r) Q) -> emits ph (act_bind m k) Q.
Proof.
  intros Hm Hk w. unfold act_bind. destruct (Hm w) as (evs & ph1 & Hl & Ha & HR).
  destruct (m w) as [r w1]. cbn in *. destruct (Hk _ _ HR w1) as (evs2 & ph2 & Hl2 & Ha2 & HQ).
  exists (evs ++ evs2), ph2. rewrite Hl2, Hl, app_assoc, accept_all_app, Ha. done.
Qed.

Lemma emits_weaken {T E} ph (m : Act (Logged S X) T E) (Q R : Result T E -> Phase -> Prop) :
  emits ph m Q -> (forall r ph', Q r ph' -> R r ph') -> emits ph m R.
Proof. intros Hm HQ w. destruct (Hm w) as (evs & ph' & ? & ? & ?). exists evs, ph'. auto. Qed.

(** A step that stays, then the rest; an error ends here. *)
Lemma emits_then {T E U} ph (m : Act (Logged S X) T E) (k : T -> Act (Logged S X) U E) Q :
  stays ph m -> (forall e, Q (Err e) ph) -> (forall t, emits ph (k t) Q) ->
  emits ph (act_then m k) Q.
Proof.
  intros Hm He Hk. unfold act_then, act_try. eapply emits_bind; [exact Hm|].
  intros [t|e] ph' ->; [apply Hk|]. by apply emits_ret.
Qed.

Lemma stays_then {T E U} ph (m : Act (Logged S X) T E) (k : T -> Act (Logged S X) U E) :
  stays ph m -> (forall t, stays ph (k t)) -> stays ph (act_then m k).
Proof. intros Hm Hk. by apply emits_then. Qed.
Lemma stays_try {T E U F} ph (c : E -> F) (m : Act (Logged S X) T E) (k : T -> Act (Logged S X) U F) :
  stays ph m -> (forall t, stays ph (k t)) -> stays ph (act_try c m k).
Proof.
  intros Hm Hk. unfold act_try. eapply emits_bind; [exact Hm|].
  intros [t|e] ph' ->; [apply Hk|by apply emits_ret].
Qed.
Lemma stays_bind {T E U F} ph (m : Act (Logged S X) T E) (k : Result T E -> Act (Logged S X) U F) :
  stays ph m -> (forall r, stays ph (k r)) -> stays ph (act_bind m k).
Proof. intros Hm Hk. eapply emits_bind; [exact Hm|]. intros r ph' ->. apply Hk. Qed.
Lemma stays_ret {T E} ph (r : Result T E) : stays ph (act_ret r).
Proof. by apply emits_ret. Qed.
Lemma stays_ok {T} ph (t : T) : stays ph (ok t).
Proof. by apply emits_ret. Qed.
Lemma stays_err {T} ph e : stays ph (err (T := T) e).
Proof. by apply emits_ret. Qed.
Lemma stays_now {E} ph : stays ph (act_now (E := E)).
Proof. intros w. exists [], ph. by rewrite app_nil_r. Qed.
Lemma stays_rpc ph : stays ph rpc.
Proof. intros w. exists [], ph. by rewrite app_nil_r. Qed.

(** Admitted in the phase: a known reader before the confirmation, anything
    after it. *)
Definition may_call (ph : Phase) (name : string) : Prop :=
  forall r, accept (X := X) token b ph (EvCall name r) = Some ph.
Definition may_send (ph : Phase) (body : string) : Prop :=
  forall r, accept (X := X) token b ph (EvXml body r) = Some ph.

Lemma stays_call ph name args : may_call ph name -> stays ph (call name args).
Proof.
  intros H. apply stays_try; [|intros; apply stays_ret]. intros w.
  eexists [EvCall name _], ph.
  unfold may_call in H. cbn [accept_all]. by rewrite H.
Qed.
Lemma stays_call_xml ph body : may_send ph body -> stays ph (call_xml body).
Proof.
  intros H. apply stays_try; [|intros; apply stays_ret]. intros w.
  eexists [EvXml body _], ph.
  unfold may_send in H. cbn [accept_all]. by rewrite H.
Qed.
Lemma stays_rpc_then_call ph name : may_call ph name -> stays ph (rpc_then_call name).
Proof. intros H. apply stays_then; [apply stays_rpc|]. intros _. by apply stays_call. Qed.
Lemma stays_router ph r : stays ph (require_router r).
Proof. unfold require_router. destruct (is_empty _); [apply stays_err|apply stays_ok]. Qed.

Lemma stays_status_loop ph probe classify deadline started :
  stays ph probe -> forall fuel, stays ph (status_loop fuel probe classify deadline started).
Proof.
  intros Hp. induction fuel as [|fuel IH]; intros w; cbn [status_loop].
  - exists [], ph. by rewrite app_nil_r.
  - destruct (deadline <=? w_now w)%N; [exists [], ph; by rewrite app_nil_r|].
    destruct (Hp w) as (evs & ph' & Hl & Ha & ->). destruct (probe w) as [[d|e] w1]; cbn in Hl.
    2: { by exists evs, ph. }
    destruct (classify d); [|by exists evs, ph..].
    destruct (deadline <=? _)%N; [by exists evs, ph|].
    destruct (IH (advance w1 (from_secs POLL_INTERVAL_SECS) (w_backend w1)))
      as (evs2 & ph2 & Hl2 & Ha2 & HQ). cbn in Hl2. exists (evs ++ evs2), ph2.
    by rewrite Hl2, Hl, app_assoc, accept_all_app, Ha.
Qed.

Lemma stays_at_fuel {T E} ph (f : World (Logged S X) -> nat) (m : nat -> Act (Logged S X) T E) :
  (forall n, stays ph (m n)) -> stays ph (fun w => m (f w) w).
Proof. intros H w. apply (H (f w) w). Qed.

Lemma stays_emit line : stays Confirmed (emit line).
Proof. intros w. by exists [EvAudit line], Confirmed. Qed.
Lemma stays_audit_failure {T} line (m : Act (Logged S X) T SrxError) :
  stays Confirmed m -> stays Confirmed (audit_failure line m).
Proof.
  intros H. apply stays_bind; [done|]. intros [t|e]; [apply stays_ok|].
  apply stays_then; [apply stays_emit|]. intros _. apply stays_err.
Qed.

End logic.

Create HintDb stays.
#[export] Hint Resolve stays_ret stays_ok stays_err stays_now stays_rpc stays_router
  stays_call stays_call_xml stays_rpc_then_call stays_emit stays_audit_failure : stays.
#[export] Hint Extern 1 (may_call _ _ _ _) => intro; reflexivity : stays.
#[export] Hint Extern 1 (may_send _ _ _ _) => intro; reflexivity : stays.

(** Walk through a workflow's text; the leaves are resolved by hints. *)
Ltac stays_step :=
  match goal with
  | |- stays _ _ _ (act_then _ _) => apply stays_then
  | |- stays _ _ _ (act_try _ _ _) => apply stays_try
  | |- stays _ _ _ (act_bind _ _) => apply stays_bind
  | |- stays _ _ _ (audit_failure _ _) => apply stays_audit_failure
  | |- stays _ _ _ (match ?x with _ => _ end) => destruct x
  | |- forall _, _ => intro
  | _ => progress cbv zeta
  end.
Ltac stays_auto := repeat (eauto with stays; stays_step); eauto with stays.

(** ** The checks *)

Section checks.
Context {X : External} {RX : Roxmltree} {TC : TimeCrate} {U : AppidPackage.Unicode}.
Context {S : Type} {SV : SignatureServer S} (token : option string) (b : ConfirmationBinding).

Definition reading (ph : Phase) : Prop := ph = Idle \/ ph = Leased.

Lemma reading_idle : reading Idle.
Proof. by left. Qed.
Lemma reading_leased : reading Leased.
Proof. by right. Qed.
#[local] Hint Resolve reading_idle reading_leased : stays.

Lemma stays_license ph r f : reading ph -> stays token b ph (license_active (S := Logged S X) r f).
Proof. intros [-> | ->]; unfold license_active; stays_auto. Qed.
Lemma stays_topology ph r : reading ph -> stays token b ph (cluster_topology (S := Logged S X) r).
Proof. intros [-> | ->]; unfold cluster_topology; stays_auto. Qed.
Lemma stays_blockers ph : reading ph -> stays token b ph (commit_window_blockers (S := Logged S X)).
Proof. intros [-> | ->]; unfold commit_window_blockers; stays_auto. Qed.
#[local] Hint Resolve stays_license stays_topology stays_blockers : stays.

Lemma stays_idp_check ph args : reading ph ->
  stays token b ph (IdpPackage.check_server (S := Logged S X) args).
Proof. intros [-> | ->]; unfold IdpPackage.check_server; stays_auto. Qed.
Lemma stays_appid_check ph args : reading ph ->
  stays token b ph (AppidPackage.check_server (S := Logged S X) args).
Proof. intros [-> | ->]; unfold AppidPackage.check_server; stays_auto. Qed.
#[local] Hint Resolve stays_idp_check stays_appid_check : stays.

Lemma stays_idp_preflight ph args : reading ph ->
  stays token b ph (IdpPackage.preflight (S := Logged S X) args).
Proof. intros H; unfold IdpPackage.preflight; stays_auto. Qed.
Lemma stays_appid_preflight ph args : reading ph ->
  stays token b ph (AppidPackage.preflight (S := Logged S X) args).
Proof. intros H; unfold AppidPackage.preflight; stays_auto. Qed.
Lemma stays_preflight_rollback ph args : reading ph ->
  stays token b ph (IdpPackage.preflight_rollback (S := Logged S X) args).
Proof. intros [-> | ->]; unfold IdpPackage.preflight_rollback; stays_auto. Qed.
Lemma stays_preflight_uninstall ph args : reading ph ->
  stays token b ph (AppidPackage.preflight_uninstall (S := Logged S X) args).
Proof. intros [-> | ->]; unfold AppidPackage.preflight_uninstall; stays_auto. Qed.

(** ** The destructive parts, once confirmed *)

Lemma stays_idp_poll body el d s :
  stays token b Confirmed (IdpPackage.poll_status (S := Logged S X) body el d s).
Proof.
  apply (stays_at_fuel token b Confirmed (fun w => status_fuel d (w_now w))
    (fun n => status_loop n _ _ d s)). intros n. apply stays_status_loop. stays_auto.
Qed.
Lemma stays_appid_poll name el d s :
  stays token b Confirmed (AppidPackage.poll_status (S := Logged S X) name el d s).
Proof.
  apply (stays_at_fuel token b Confirmed (fun w => status_fuel d (w_now w))
    (fun n => status_loop n _ _ d s)). intros n. apply stays_status_loop. stays_auto.
Qed.
#[local] Hint Resolve stays_idp_poll stays_appid_poll : stays.

Lemma stays_run_destructive args caller c snapshot :
  stays token b Confirmed (IdpPackage.run_destructive (S := Logged S X) args caller c snapshot).
Proof.
  unfold IdpPackage.run_destructive, IdpPackage.download_and_poll, IdpPackage.install_and_poll,
    IdpPackage.verify_installed_version. stays_auto.
Qed.
Lemma stays_run_rollback args caller c snapshot :
  stays token b Confirmed (IdpPackage.run_rollback_destructive (S := Logged S X) args caller c snapshot).
Proof. unfold IdpPackage.run_rollback_destructive, IdpPackage.verify_installed_version. stays_auto. Qed.
Lemma stays_run_install args caller c snapshot :
  stays token b Confirmed (AppidPackage.run_install_destructive (S := Logged S X) args caller c snapshot).
Proof.
  unfold AppidPackage.run_install_destructive, AppidPackage.download_and_poll,
    AppidPackage.install_and_poll, AppidPackage.verify_installed_version. stays_auto.
Qed.
Lemma stays_run_uninstall args caller c snapshot :
  stays token b Confirmed (AppidPackage.run_uninstall_destructive (S := Logged S X) args caller c snapshot).
Proof. unfold AppidPackage.run_uninstall_destructive. stays_auto. Qed.

End checks.

(** ** The two calls *)

Section protocol.
Context {X : External} {RX : Roxmltree} {TC : TimeCrate} {U : AppidPackage.Unicode}.
Context {S : Type} {SV : SignatureServer S}.

(** A workflow ends having nothing checked, checked a token but got no lease, or
    given the lease back. *)
Definition settled (ph : Phase) : Prop := ph = Idle \/ ph = Checked \/ ph = Ended.

Lemma stays_issue {T} b r plan id (k : Value -> Act (Logged S X) T SrxError) :
  (forall v, stays None b Idle (k v)) ->
  stays None b Idle (act_then (conf r (conf_issue plan b id)) k).
Proof.
  intros Hk. apply stays_then; [|done]. apply stays_try; [|intros; apply stays_ret].
  intros w. cbn [conf_issue logged_server]. unfold log_act.
  destruct (conf_issue plan b id _) as [q w']. cbn. exists [EvIssue plan b], Idle.
  split_and!; try done. cbn. by rewrite bool_decide_eq_true_2.
Qed.

Lemma emits_validate t b r :
  emits (Some t) b Idle (conf (S := Logged S X) r (conf_validate t b))
    (fun q ph' => ph' = if is_ok q then Checked else Idle).
Proof.
  intros w. unfold conf, act_try, act_bind. cbn [conf_validate logged_server]. unfold log_act.
  destruct (conf_validate t b _) as [q w']. exists [EvValidate t b (is_ok q)].
  cbn. unfold same_grant. rewrite !bool_decide_eq_true_2 by done.
  destruct q; cbn; eexists; by split_and!.
Qed.

Lemma emits_consume t b r plan :
  emits (Some t) b Leased (conf (S := Logged S X) r (conf_consume t b plan))
    (fun q ph' => ph' = if is_ok q then Confirmed else Leased).
Proof.
  intros w. unfold conf, act_try, act_bind. cbn [conf_consume logged_server]. unfold log_act.
  destruct (conf_consume t b plan _) as [q w']. exists [EvConsume t b plan (is_ok q)].
  cbn. unfold same_grant. rewrite !bool_decide_eq_true_2 by done.
  destruct q; cbn; eexists; by split_and!.
Qed.

(** The lease is given back however the body ends. *)
Lemma emits_lease {T} t b holder c (body : Act (Logged S X) T SrxError) :
  emits (Some t) b Leased body (fun _ ph' => ph' = Leased \/ ph' = Confirmed) ->
  emits (Some t) b Checked (with_lease (router b) holder c body) (fun _ ph' => settled ph').
Proof.
  intros Hb w. unfold with_lease, await. cbn [lease_acquire logged_server]. unfold log_future.
  cbn [rpc_result rpc_time rpc_state]. unfold advance.
  destruct (rpc_result (lease_acquire (router b) holder c (w_backend w).1)) as [l|e] eqn:Hr.
  2: { exists [EvAcquire (router b) false], Checked. cbn. rewrite String.eqb_refl.
       split_and!; try done. right. by left. }
  match goal with |- context [body ?w1] => destruct (Hb w1) as (evs & ph & Hl & Ha & Hph) end.
  destruct (body _) as [r w2] eqn:Hbody. cbn in Hl.
  exists (EvAcquire (router b) true :: evs ++ [EvRelease]), Ended. cbn. rewrite String.eqb_refl.
  split_and!.
  - rewrite Hl, <- !app_assoc. done.
  - rewrite accept_all_app, Ha. by destruct Hph as [-> | ->].
  - right. by right.
Qed.

(** The second call: check the token, then the leased body. *)
Lemma emits_second {T} t b r holder (body : ValidatedPlan -> Act (Logged S X) T SrxError) :
  r = router b ->
  (forall v, emits (Some t) b Leased (body v) (fun _ ph' => ph' = Leased \/ ph' = Confirmed)) ->
  emits (Some t) b Idle
    (let! validated := conf r (conf_validate t b) in
     with_lease r holder (vp_correlation_id validated) (body validated))
    (fun _ ph' => settled ph').
Proof.
  intros -> Hb. eapply emits_bind; [apply emits_validate|]. intros [v|e] ph ->; cbn.
  - by apply emits_lease.
  - apply emits_ret. by left.
Qed.

(** The leased body: the checks again, the plan, the confirmation, the work. *)
Lemma emits_leased {T} t b r plan (work : ConfirmedPlan -> Act (Logged S X) T SrxError) :
  (forall c, stays (Some t) b Confirmed (work c)) ->
  emits (Some t) b Leased (let! confirmed := conf r (conf_consume t b plan) in work confirmed)
    (fun _ ph' => ph' = Leased \/ ph' = Confirmed).
Proof.
  intros Hw. eapply emits_bind; [apply emits_consume|]. intros [c|e] ph ->; cbn.
  - eapply emits_weaken; [apply Hw|]. intros _ ph' ->. by right.
  - apply emits_ret. by left.
Qed.

(** The token the call presents, trimmed; [None] is a preview, or a call
    refused outright. *)
Definition presented (confirm : bool) (token : option string) (router : string) : option string :=
  match confirmation_token_for_request confirm token router with Ok t => t | Err _ => None end.

(** Where a call ends; a preview does not leave the first phase. *)
Definition ends (confirm : bool) (ph : Phase) : Prop :=
  settled ph /\ (confirm = false -> ph = Idle).

Lemma emits_two_calls {T} b r cf tk (preview : Act (Logged S X) T SrxError) second :
  stays None b Idle preview ->
  (forall t, emits (Some t) b Idle (second t) (fun _ ph' => settled ph')) ->
  emits (presented cf tk r) b Idle
    (let! _ := require_router r in
     let! token := act_ret (confirmation_token_for_request cf tk r) in
     match token with None => preview | Some t => second t end)
    (fun _ ph' => ends cf ph').
Proof.
  intros Hp Hs. assert (H0 : ends cf Idle) by (split; [by left|done]).
  apply emits_then; [apply stays_router|done|]. intros _. unfold presented.
  destruct (confirmation_token_for_request cf tk r) as [[t|]|e] eqn:Ht; cbn.
  - eapply emits_weaken; [apply Hs|]. intros ? ph' H. split; [done|]. intros ->.
    unfold confirmation_token_for_request in Ht. by repeat case_match.
  - eapply emits_weaken; [apply Hp|]. by intros ? ph' ->.
  - by apply emits_ret.
Qed.

Lemma stays_map {T V E} tok b ph (m : Act (Logged S X) T E) (f : T -> V) Q :
  emits tok b ph m (fun _ ph' => Q ph') ->
  emits tok b ph (act_then m (fun t => act_ret (Ok (f t)))) (fun _ ph' => Q ph').
Proof.
  intros H. eapply emits_bind; [exact H|]. intros [t|e] ph' HQ; by apply emits_ret.
Qed.

#[local] Hint Resolve stays_idp_preflight stays_appid_preflight stays_preflight_rollback
  stays_preflight_uninstall stays_idp_check stays_appid_check reading_idle reading_leased : stays.

(** A check under the lease, then the rest of the leased body. *)
Lemma emits_leased_then {T A} t b (m : Act (Logged S X) A SrxError) (k : A -> Act (Logged S X) T SrxError) :
  stays (Some t) b Leased m ->
  (forall a, emits (Some t) b Leased (k a) (fun _ ph' => ph' = Leased \/ ph' = Confirmed)) ->
  emits (Some t) b Leased (act_then m k) (fun _ ph' => ph' = Leased \/ ph' = Confirmed).
Proof. intros Hm Hk. apply emits_then; [done|by left|done]. Qed.

Lemma idp_download_protocol args caller dev id :
  emits (presented (IdpPackage.confirm args) (IdpPackage.confirmation_token args)
           (IdpPackage.router args))
    (binding_new caller (IdpPackage.router args) dev) Idle
    (IdpPackage.download_and_install (S := Logged S X) args caller dev id)
    (fun _ ph' => ends (IdpPackage.confirm args) ph').
Proof.
  unfold IdpPackage.download_and_install. apply emits_two_calls.
  - apply stays_then; [auto with stays|]. intros [snapshot ?].
    destruct (IdpPackage.build_plan _ _ _); [apply stays_ok|].
    apply stays_issue. intros; apply stays_err.
  - intros t. apply emits_second; [done|]. intros v. apply emits_leased_then; [auto with stays|].
    intros [snapshot ?]. destruct (IdpPackage.build_plan _ _ _).
    + apply emits_ret. by left.
    + apply emits_leased. intros c. apply stays_run_destructive.
Qed.

Lemma idp_rollback_protocol args caller dev id :
  emits (presented (IdpPackage.confirm args) (IdpPackage.confirmation_token args)
           (IdpPackage.router args))
    (binding_new caller (IdpPackage.router args) dev) Idle
    (IdpPackage.rollback (S := Logged S X) args caller dev id)
    (fun _ ph' => ends (IdpPackage.confirm args) ph').
Proof.
  unfold IdpPackage.rollback. apply emits_two_calls.
  - apply stays_then; [auto with stays|]. intros [snapshot ?].
    apply stays_then; [apply stays_ret|]. intros plan. apply stays_issue. intros; apply stays_err.
  - intros t. apply emits_second; [done|]. intros v. apply emits_leased_then; [auto with stays|].
    intros [snapshot ?]. apply emits_leased_then; [apply stays_ret|]. intros plan.
    apply emits_leased. intros c. apply stays_run_rollback.
Qed.

Lemma appid_download_protocol args caller dev id :
  emits (presented (AppidPackage.confirm args) (AppidPackage.confirmation_token args)
           (AppidPackage.router args))
    (binding_new caller (AppidPackage.router args) dev) Idle
    (AppidPackage.download_and_install (S := Logged S X) args caller dev id)
    (fun _ ph' => ends (AppidPackage.confirm args) ph').
Proof.
  unfold AppidPackage.download_and_install. apply emits_two_calls.
  - apply stays_then; [auto with stays|]. intros [snapshot ?].
    destruct (AppidPackage.build_plan _ _ _); [apply stays_ok|].
    apply stays_issue. intros; apply stays_err.
  - intros t. apply emits_second; [done|]. intros v. apply emits_leased_then; [auto with stays|].
    intros [snapshot ?]. destruct (AppidPackage.build_plan _ _ _).
    + apply emits_ret. by left.
    + apply emits_leased. intros c. apply stays_run_install.
Qed.

Lemma appid_uninstall_protocol args caller dev id :
  emits (presented (AppidPackage.confirm args) (AppidPackage.confirmation_token args)
           (AppidPackage.router args))
    (binding_new caller (AppidPackage.router args) dev) Idle
    (AppidPackage.uninstall (S := Logged S X) args caller dev id)
    (fun _ ph' => ends (AppidPackage.confirm args) ph').
Proof.
  unfold AppidPackage.uninstall. apply emits_two_calls.
  - apply stays_then; [auto with stays|]. intros [snapshot ?].
    apply stays_then; [apply stays_ret|]. intros plan. apply stays_issue. intros; apply stays_err.
  - intros t. apply emits_second; [done|]. intros v. apply emits_leased_then; [auto with stays|].
    intros [snapshot ?]. apply emits_leased_then; [apply stays_ret|]. intros plan.
    apply emits_leased. intros c. apply stays_run_uninstall.
Qed.

Lemma ends_check tok b ph cf {T} (m : Act (Logged S X) T SrxError) :
  ph = Idle -> stays tok b ph m -> emits tok b ph m (fun _ ph' => ends cf ph').
Proof.
  intros -> H. eapply emits_weaken; [exact H|]. intros ? ph' ->. split; [by left|done].
Qed.


(** What a phase means of the log that led to it: the steps, in their order. *)
Definition behind (tok : option string) (b : ConfirmationBinding) (ph : Phase)
    (evs : list (Event X)) : Prop :=
  match ph with
  | Idle | Ended => True
  | Checked => exists t l1 l2, tok = Some t /\ evs = l1 ++ EvValidate t b true :: l2
  | Leased => exists t l1 l2 l3, tok = Some t /\
      evs = l1 ++ EvValidate t b true :: l2 ++ EvAcquire (router b) true :: l3
  | Confirmed => exists t p l1 l2 l3 l4, tok = Some t /\
      evs = l1 ++ EvValidate t b true :: l2 ++ EvAcquire (router b) true :: l3 ++
            EvConsume t b p true :: l4
  end.

Lemma same_grant_true tok b t b' : same_grant tok b t b' = true -> tok = Some t /\ b = b'.
Proof.
  intros [?%bool_decide_eq_true_1 ?%bool_decide_eq_true_1]%andb_true_iff. done.
Qed.

Lemma behind_step tok b ph ph' evs ev :
  behind tok b ph evs -> accept tok b ph ev = Some ph' -> behind tok b ph' (evs ++ [ev]).
Proof.
  intros Hb Ha. destruct ph, ev; cbn in Ha; try discriminate; simplify_eq/=; try done;
    repeat (case_match; simplify_eq/=; try done);
    repeat match goal with
    | H : same_grant _ _ _ _ = true |- _ => apply same_grant_true in H as [? ?]; subst
    | H : String.eqb _ _ = true |- _ => apply String.eqb_eq in H; subst
    end.
  - by exists token, evs, [].
  - destruct Hb as (t & l1 & l2 & -> & ->). exists t, l1, l2, []. by simplify_list_eq.
  - destruct Hb as (t & l1 & l2 & -> & ->). exists t, l1, (l2 ++ [EvAcquire (router b) false]).
    by simplify_list_eq.
  - destruct Hb as (t & l1 & l2 & l3 & -> & ->). exists t, l1, l2, (l3 ++ [EvCall name reply]).
    by simplify_list_eq.
  - destruct Hb as (t & l1 & l2 & l3 & -> & ->). exists t, l1, l2, (l3 ++ [EvXml body reply]).
    by simplify_list_eq.
  - destruct Hb as (t & l1 & l2 & l3 & [= <-] & ->). exists token, plan, l1, l2, l3, [].
    by simplify_list_eq.
  - destruct Hb as (t & l1 & l2 & l3 & [= <-] & ->).
    eexists _, l1, l2, (l3 ++ [_]). by simplify_list_eq.
  - destruct Hb as (t & p & l1 & l2 & l3 & l4 & -> & ->).
    exists t, p, l1, l2, l3, (l4 ++ [EvCall name reply]). by simplify_list_eq.
  - destruct Hb as (t & p & l1 & l2 & l3 & l4 & -> & ->).
    exists t, p, l1, l2, l3, (l4 ++ [EvXml body reply]). by simplify_list_eq.
  - destruct Hb as (t & p & l1 & l2 & l3 & l4 & -> & ->).
    exists t, p, l1, l2, l3, (l4 ++ [EvAudit line]). by simplify_list_eq.
Qed.

Lemma behind_all tok b evs ph : accept_all tok b Idle evs = Some ph -> behind tok b ph evs.
Proof.
  revert ph. induction evs as [|ev evs IH] using rev_ind; intros ph; [by intros [= <-]|].
  rewrite accept_all_app. destruct (accept_all tok b Idle evs) as [ph1|] eqn:H1; [|discriminate].
  cbn. destruct (accept tok b ph1 ev) eqn:Ha; [|discriminate]. intros [= <-].
  eapply behind_step; [by apply IH|done].
Qed.

(** In a log the protocol admits, an RPC not known to read has behind it the
    check of the caller's token, the lease and the consumption. *)
Lemma admitted_destructive tok b ph pre name r post :
  accept_all tok b Idle (pre ++ EvCall name r :: post) = Some ph ->
  existsb (String.eqb name) read_only_calls = false -> behind tok b Confirmed pre.
Proof.
  rewrite accept_all_app. destruct (accept_all tok b Idle pre) as [ph1|] eqn:H1; [|discriminate].
  cbn [accept_all]. intros H2 Hro. apply behind_all.
  destruct ph1; cbn [accept] in H2; rewrite ?Hro in H2; try discriminate. done.
Qed.

End protocol.

(** ** What success means *)

Section success.
Context {X : External} {RX : Roxmltree} {TC : TimeCrate} {U : AppidPackage.Unicode}.
Context {S : Type} {SV : SignatureServer S}.

Abbreviation log w := (w_backend w).2.

Lemma act_then_ok {S' T V E} (m : Act S' T E) (k : T -> Act S' V E) w v w' :
  act_then m k w = (Ok v, w') -> exists t w1, m w = (Ok t, w1) /\ k t w1 = (Ok v, w').
Proof.
  unfold act_then, act_try, act_bind. destruct (m w) as [[t|e] w1]; [|discriminate]. eauto.
Qed.

Lemma audit_failure_ok {T} line (m : Act (Logged S X) T SrxError) w t w' :
  audit_failure line m w = (Ok t, w') -> m w = (Ok t, w').
Proof. unfold audit_failure, act_bind. by destruct (m w) as [[v|e] w1]. Qed.

Lemma emits_grows {T E} tok b ph (m : Act (Logged S X) T E) Q w r w' :
  emits tok b ph m Q -> m w = (r, w') -> exists evs, log w' = log w ++ evs.
Proof. intros H Hm. destruct (H w) as (evs & ? & Hl & _). rewrite Hm in Hl. eauto. Qed.

Lemma conf_ok {T} r (m : Act (Logged S X) T ConfirmationError) w t w' :
  conf r m w = (Ok t, w') -> m w = (Ok t, w').
Proof.
  unfold conf, act_try, act_bind, act_ret. destruct (m w) as [[v|e] w1]; [|discriminate].
  by intros [= -> ->].
Qed.

Lemma consume_logged t b p w c w' :
  conf_consume (S := Logged S X) t b p w = (Ok c, w') -> log w' = log w ++ [EvConsume t b p true].
Proof. cbn. unfold log_act. destruct (conf_consume _ _ _ _) as [r w1]. by intros [= -> <-]. Qed.

Lemma call_logged name args w reply w' :
  call (S := Logged S X) name args w = (Ok reply, w') ->
  log w' = log w ++ [EvCall name (Ok reply)].
Proof.
  unfold call, act_try, act_bind, await, act_ret. cbn.
  destruct (rpc_result _) as [r|e] eqn:Hr; [|discriminate]. by intros [= -> <-].
Qed.

Lemma rpc_ok w u w' : rpc (S := Logged S X) w = (Ok u, w') -> w' = w.
Proof. unfold rpc. intros H. by injection H. Qed.

Lemma rpc_then_call_logged name w reply w' :
  rpc_then_call (S := Logged S X) name w = (Ok reply, w') ->
  log w' = log w ++ [EvCall name (Ok reply)].
Proof. intros (u & w1 & Hu & Hc)%act_then_ok. apply rpc_ok in Hu as ->. by apply call_logged in Hc. Qed.

Lemma act_ret_ok {S' T E} (r : Result T E) (w : World S') t w' :
  act_ret r w = (Ok t, w') -> r = Ok t /\ w' = w.
Proof. unfold act_ret. by intros [= -> ->]. Qed.

Lemma find_map_in {A B} (f : A -> option B) l v :
  find_map f l = Some v -> exists a, In a l /\ f a = Some v.
Proof.
  unfold find_map. induction l as [|a l IH]; cbn; [done|]. destruct (f a) eqn:Hf.
  - intros [= ->]. exists a. by split; [left|].
  - intros H. destruct (IH H) as (a' & ? & ?). exists a'. by split; [right|].
Qed.

(** Every node a reply names is on the target, and it names at least one. *)
Lemma idp_verify_nodes args target ns v :
  ns <> [] -> IdpPackage.verify_nodes args target ns = Ok v ->
  IdpPackage.all_at_target ns target = true /\
  exists n, In n ns /\ IdpPackage.current_package_version n = Some v.
Proof.
  intros Hne. unfold IdpPackage.verify_nodes. destruct (find _ ns) as [n|] eqn:Hf; [discriminate|].
  assert (Hall : forall n, In n ns ->
    IdpPackage.at_target (IdpPackage.leading_version_number target) n = true).
  { intros n Hn. pose proof (List.find_none _ _ Hf n Hn) as H. by apply negb_false_iff in H. }
  intros [= <-]. split.
  - unfold IdpPackage.all_at_target. apply andb_true_iff. split.
    + by rewrite bool_decide_eq_false_2.
    + by apply forallb_forall.
  - destruct ns as [|n ns]; [done|]. specialize (Hall n (or_introl eq_refl)).
    unfold IdpPackage.at_target in Hall.
    destruct (IdpPackage.current_package_version n) as [v'|] eqn:Hv; [|discriminate].
    exists n. split; [by left|]. unfold find_map. cbn. by rewrite Hv.
Qed.

Lemma idp_parse_nonempty reply ns :
  IdpPackage.parse_package_information reply = Ok ns -> ns <> [].
Proof.
  unfold IdpPackage.parse_package_information. destruct (multi_re_split reply) as [[|n l]|];
    try discriminate. by intros [= <-].
Qed.

Lemma idp_verify_logged args target w v w' :
  IdpPackage.verify_installed_version (S := Logged S X) args target w = (Ok v, w') ->
  exists reply ns, log w' = log w ++ [EvCall IdpPackage.RPC_PACKAGE_INFORMATION (Ok reply)] /\
    IdpPackage.parse_package_information reply = Ok ns /\
    IdpPackage.all_at_target ns target = true /\
    exists n, In n ns /\ IdpPackage.current_package_version n = Some v.
Proof.
  intros (reply & w1 & Hc & H)%act_then_ok. apply rpc_then_call_logged in Hc.
  apply act_then_ok in H as (ns & w2 & [Hp ->]%act_ret_ok & [Hv ->]%act_ret_ok).
  exists reply, ns. split_and!; try done; eapply idp_verify_nodes; eauto using idp_parse_nonempty.
Qed.

Lemma emit_logged line w u w' :
  emit (S := Logged S X) line w = (Ok u, w') -> log w' = log w ++ [EvAudit line].
Proof. by intros [= _ <-]. Qed.

Lemma idp_destructive_completed args caller c snapshot w d w' :
  IdpPackage.run_destructive (S := Logged S X) args caller c snapshot w =
    (Ok (IdpPackage.Completed d), w') ->
  IdpPackage.dc_target_package_version d =
    (IdpPackage.resolve_target (IdpPackage.version args) (IdpPackage.latest_version snapshot)).1.1 /\
  exists mid reply ns line,
    log w' = log w ++ mid ++
      [EvCall IdpPackage.RPC_PACKAGE_INFORMATION (Ok reply); EvAudit line] /\
    al_phase line = "verified" /\
    IdpPackage.parse_package_information reply = Ok ns /\
    IdpPackage.all_at_target ns (IdpPackage.dc_target_package_version d) = true /\
    exists n, In n ns /\
      IdpPackage.current_package_version n = Some (IdpPackage.dc_installed_package_version d).
Proof.
  unfold IdpPackage.run_destructive.
  intros (started & w1 & [= <- <-] & H)%act_then_ok. cbv zeta in H.
  destruct (IdpPackage.all_at_target _ _) eqn:Hat; [discriminate|].
  apply act_then_ok in H as (u1 & w2 & H1 & H). apply act_then_ok in H as (u2 & w3 & H2 & H).
  apply act_then_ok in H as (u3 & w4 & H3 & H). apply act_then_ok in H as (u4 & w5 & H4 & H).
  apply act_then_ok in H as (u5 & w6 & H5 & H). apply act_then_ok in H as (v & w7 & H6 & H).
  apply act_then_ok in H as (u6 & w8 & H7 & H). apply act_then_ok in H as (now & w9 & [= <- <-] & H).
  injection H as <- <-. split; [done|]. cbn.
  apply emit_logged in H1, H3, H5, H7. apply audit_failure_ok in H2, H4, H6.
  assert (S2 : stays (Some "") (binding_new None "" "") Confirmed
      (IdpPackage.download_and_poll (S := Logged S X) args (clamp_timeout (IdpPackage.timeout args)) (w_now w)))
    by (unfold IdpPackage.download_and_poll; stays_auto; apply stays_idp_poll).
  assert (S4 : stays (Some "") (binding_new None "" "") Confirmed
      (IdpPackage.install_and_poll (S := Logged S X) args (clamp_timeout (IdpPackage.timeout args)) (w_now w)))
    by (unfold IdpPackage.install_and_poll; stays_auto; apply stays_idp_poll).
  destruct (emits_grows _ _ _ _ _ _ _ _ S2 H2) as [e2 G2].
  destruct (emits_grows _ _ _ _ _ _ _ _ S4 H4) as [e4 G4].
  destruct (idp_verify_logged _ _ _ _ _ H6) as (reply & ns & G6 & Hp & Ha & Hn).
  eexists (_ :: e2 ++ _ :: e4 ++ [_]), reply, ns, _. split_and!; try done.
  - rewrite H7, G6, H5, G4, H3, G2, H1. simplify_list_eq. reflexivity.
  - done.
Qed.

Lemma lease_logged {T} r holder c (body : Act (Logged S X) T SrxError) w t w' :
  with_lease r holder c body w = (Ok t, w') ->
  exists w1 w2, log w1 = log w ++ [EvAcquire r true] /\ body w1 = (Ok t, w2) /\
    log w' = log w2 ++ [EvRelease].
Proof.
  unfold with_lease, await. cbn [lease_acquire logged_server]. unfold log_future.
  cbn [rpc_result rpc_time rpc_state].
  destruct (rpc_result (lease_acquire r holder c (w_backend w).1)) as [l|e] eqn:Hr;
    [|discriminate].
  intros Heq.
  match type of Heq with context [body ?w1] =>
    destruct (body w1) as [q w2] eqn:Hb; exists w1, w2 end.
  injection Heq as -> <-. done.
Qed.

Lemma idp_plan_target snapshot pinned bl plan :
  IdpPackage.build_plan snapshot pinned bl = IdpPackage.PlanNeedsConfirmation plan ->
  exists p, plan = PlanDownloadAndInstall p /\
    di_target_package_version p =
      (IdpPackage.resolve_target pinned (IdpPackage.latest_version snapshot)).1.1.
Proof.
  unfold IdpPackage.build_plan. destruct (IdpPackage.resolve_target _ _) as [[tgt src] vis].
  destruct (IdpPackage.all_at_target _ _); [discriminate|]. intros [= <-]. by eexists.
Qed.

(** C10: [completed] is never said of a package that was not confirmed or not
    found on the device: when [download_and_install] reports completion, its
    log has the consumption of the caller's token for a plan with the reported
    target, and ends with the device's package information, in which every node
    is on that target and one has the version reported. *)
Theorem completed_is_verified args caller dev id w d w' :
  IdpPackage.download_and_install (S := Logged S X) args caller dev id w =
    (Ok (IdpPackage.Completed d), w') ->
  exists token plan pre mid reply ns line,
    presented (IdpPackage.confirm args) (IdpPackage.confirmation_token args)
      (IdpPackage.router args) = Some token /\
    log w' = log w ++ pre ++
      EvConsume token (binding_new caller (IdpPackage.router args) dev)
        (plan_value (PlanDownloadAndInstall plan)) true :: mid ++
      [EvCall IdpPackage.RPC_PACKAGE_INFORMATION (Ok reply); EvAudit line; EvRelease] /\
    di_target_package_version plan = IdpPackage.dc_target_package_version d /\
    IdpPackage.parse_package_information reply = Ok ns /\
    IdpPackage.all_at_target ns (IdpPackage.dc_target_package_version d) = true /\
    exists n, In n ns /\
      IdpPackage.current_package_version n = Some (IdpPackage.dc_installed_package_version d).
Proof.
  unfold IdpPackage.download_and_install. intros H.
  apply act_then_ok in H as (u & w1 & H1 & H). apply act_then_ok in H as (tok & w2 & [Ht ->]%act_ret_ok & H).
  assert (w1 = w) as ->.
  { unfold require_router in H1. destruct (is_empty _); [discriminate|]. by injection H1. }
  unfold presented. rewrite Ht. destruct tok as [token|].
  2: { apply act_then_ok in H as ([snapshot bl] & w2 & _ & H). exfalso.
       destruct (IdpPackage.build_plan _ _ _); [discriminate|].
       by apply act_then_ok in H as (? & ? & _ & H). }
  apply act_then_ok in H as (v & w2 & H2 & H).
  destruct (emits_grows _ _ _ _ _ _ _ _ (emits_validate _ _ _) H2) as [e2 G2].
  apply lease_logged in H as (w3 & w4 & G3 & H & G4).
  apply act_then_ok in H as ([snapshot bl] & w5 & H5 & H).
  destruct (emits_grows _ _ _ _ _ _ _ _
    (stays_idp_preflight (Some token) (binding_new caller "" "") Leased args reading_leased) H5)
    as [e5 G5].
  destruct (IdpPackage.build_plan snapshot (IdpPackage.version args) []) as [|plan] eqn:Hplan;
    [discriminate|].
  apply act_then_ok in H as (c & w6 & H6%conf_ok & H). apply consume_logged in H6 as G6.
  destruct (idp_destructive_completed _ _ _ _ _ _ _ H)
    as (Htgt & mid & reply & ns & line & G7 & _ & Hp & Ha & Hn).
  apply idp_plan_target in Hplan as (p & -> & Hpt). rewrite <- Hpt in Htgt.
  exists token, p, (e2 ++ EvAcquire (IdpPackage.router args) true :: e5), mid, reply, ns, line.
  split; [done|]. split; [|split_and!; try done].
  rewrite G4, G7, G6, G5, G3, G2. simplify_list_eq. reflexivity.
Qed.

End success.

(** ** A device, a store and two calls *)

Module DemoSignature.
Import SignatureConfirmation.DemoConfirmation.
#[local] Existing Instance demo_external.
#[local] Existing Instance demo_env.

(** Replies are names of these documents. *)
Definition leaf (name text : string) : Node := Element name [] [Text text].
Definition document (s : string) : Result Node string :=
  if String.eqb s "LICENSE" then
    Ok (Element "license-summary-information" []
          [Element "feature-summary" [] [leaf "name" "IDP-SIG"; leaf "licensed" "1"]])
  else if String.eqb s "STANDALONE" then
    Ok (Element "error" [] [leaf "message" "Chassis cluster is not enabled."])
  else if String.eqb s "DENIED" then
    Ok (Element "rpc-error" [] [leaf "error-tag" "access-denied";
                                leaf "error-message" "permission denied"])
  else if String.eqb s "COMMITS" then Ok (Element "commit-information" [] [])
  else if starts_with "INFO" s then
    Ok (Element "idp-security-package-information" []
          [leaf "security-package-version" (str_drop 4 s)])
  else if String.eqb s "LATEST" then
    Ok (Element "secpack-download-status" []
          [leaf "secpack-download-status-detail" "Version info:3910(Minor)"])
  else if String.eqb s "DONE" then
    Ok (Element "status" [] [leaf "secpack-download-status-detail" "Done;ok";
                             leaf "secpack-status-detail" "Done;ok"])
  else Err "not a document".

#[local] Instance demo_xml : Roxmltree := {|
  parse_document := document;
  node_text n := match n with
                 | Element _ _ (Text s :: _) => Some s
                 | Text s => Some s
                 | _ => None
                 end;
  write_start n _ := "<" ^^ n ^^ ">";
  write_empty n _ := "<" ^^ n ^^ "/>";
  write_end n := "</" ^^ n ^^ ">";
  write_text s := s
|}.
#[local] Instance demo_time : TimeCrate := {| rfc3339_parse _ := Err "not a date" |}.
#[local] Instance demo_unicode : AppidPackage.Unicode := {| AppidPackage.to_lowercase := to_ascii_lowercase |}.

Record Lab := mk_lab {
  cluster_reply : string;
  installed : string;
  confirmations : ConfirmationStore;
  leased : list string
}.

Definition reply {E} (s : string) (l : Lab) : Rpc Lab string E :=
  mk_rpc 1 (Ok s) l (fun _ => l).

#[local] Instance lab_device : SrxDevice (X := demo_external) Lab := {|
  rpc_ready _ := Ok tt;
  rpc_call name _ l :=
    if String.eqb name "get-license-summary-information" then reply "LICENSE" l
    else if String.eqb name "get-chassis-cluster-status" then reply (cluster_reply l) l
    else if String.eqb name "get-commit-information" then reply "COMMITS" l
    else if String.eqb name IdpPackage.RPC_PACKAGE_INFORMATION then
      reply ("INFO" ^^ installed l) l
    else if String.eqb name IdpPackage.RPC_INSTALL then
      reply "ACK" (mk_lab (cluster_reply l) "3910(Minor)" (confirmations l) (leased l))
    else reply "ACK" l;
  rpc_call_xml body l :=
    if String.eqb body IdpPackage.XML_CHECK_SERVER then reply "LATEST" l else reply "DONE" l
|}.

Definition on_store {T E} (f : ConfirmationStore -> Result T E * ConfirmationStore) (w : World Lab)
  : Result T E * World Lab :=
  let l := w_backend w in
  let (r, s) := f (confirmations l) in
  (r, mk_world (w_now w) (w_cancel_at w) (mk_lab (cluster_reply l) (installed l) s (leased l))).

#[local] Instance lab_server : SignatureServer (X := demo_external) Lab := {|
  Lease := string;
  lease_acquire r _ _ l :=
    if existsb (String.eqb r) (leased l) then mk_rpc 9 (Err (DeviceLeaseBusy r 9)) l (fun _ => l)
    else mk_rpc 1 (Ok r) (mk_lab (cluster_reply l) (installed l) (confirmations l) (r :: leased l))
           (fun _ => l);
  lease_release r l := mk_lab (cluster_reply l) (installed l) (confirmations l)
                         (List.filter (fun r' => negb (String.eqb r r')) (leased l));
  conf_issue plan b c w :=
    on_store (fun s => match issue (w_now w) (w_now w) ["a"; "b"] plan b c s with
                       | (Some r, s) => (r, s)
                       | (None, s) => (Err Invalid, s)
                       end) w;
  conf_validate t b w := on_store (validate_binding (w_now w) t b) w;
  conf_consume t b p w := on_store (consume (w_now w) t b p) w;
  audit _ l := l
|}.

Definition lab (cluster : string) : World (Logged Lab demo_external) :=
  mk_world 100 None (mk_lab cluster "3900(Major)" (store_new 1000 8) [], []).

Definition args (version : option string) (token : option string) : IdpPackage.IdpPackageArgs := {|
  IdpPackage.router := "r1";
  IdpPackage.action := IdpPackage.IdpDownloadAndInstall;
  IdpPackage.version := version;
  IdpPackage.confirm := match token with Some _ => true | None => false end;
  IdpPackage.confirmation_token := token;
  IdpPackage.timeout := None;
  IdpPackage.include_raw := false
|}.

Definition call_tool (v t : option string) (caller : string) (w : World (Logged Lab demo_external)) :=
  IdpPackage.download_and_install (args v t) (Some caller) "dev" "req" w.

Definition after_preview (v : option string) (cluster : string) : World (Logged Lab demo_external) :=
  (call_tool v None "alice" (lab cluster)).2.

(** The preview answers with the token; another caller cannot use it; its owner
    can, once. *)
Example two_calls :
  let w1 := after_preview None "STANDALONE" in
  let (r2, w2) := call_tool None (Some "tok-a") "mallory" w1 in
  let (r3, w3) := call_tool None (Some "tok-a") "alice" w2 in
  let (r4, w4) := call_tool None (Some "tok-a") "alice" w3 in
  r2 = Err (into_srx_error "r1" BindingMismatch) /\
  r3 = Ok (IdpPackage.Completed {|
         IdpPackage.dc_router := "r1"; IdpPackage.dc_service := ServiceIdp;
         IdpPackage.dc_topology := Standalone;
         IdpPackage.dc_target_package_version := "3910";
         IdpPackage.dc_installed_package_version := "3910(Minor)";
         IdpPackage.dc_elapsed_seconds := 0 |}) /\
  r4 = Err (into_srx_error "r1" Invalid) /\ leased (w_backend w4).1 = [].
Proof. vm_compute. by split_and!. Qed.

(** A pinned version is in the plan the caller approves, and nowhere in what is
    sent: the device downloads and installs the latest package, and the call
    then fails because that is not the pinned one. *)
Example pinned_version_installs_latest :
  let (r, w) := call_tool (Some "3714") (Some "tok-a") "alice"
                  (after_preview (Some "3714") "STANDALONE") in
  r = Err (SignaturePackageVerificationFailed "r1" "3714" "3910(Minor)") /\
  installed (w_backend w).1 = "3910(Minor)".
Proof. vm_compute. by split_and!. Qed.

(** A device that refuses to show its cluster status counts as standalone. *)
Example refused_cluster_status_is_standalone :
  (cluster_topology (S := Logged Lab demo_external) "r1" (lab "DENIED")).1 = Ok Standalone.
Proof. vm_compute. done. Qed.

Definition completed : World (Logged Lab demo_external) :=
  (call_tool None (Some "tok-a") "alice" (after_preview None "STANDALONE")).2.

Lemma completed_is_verified_witness :
  exists d, call_tool None (Some "tok-a") "alice" (after_preview None "STANDALONE") =
    (Ok (IdpPackage.Completed d), completed) /\
  exists token plan pre mid reply ns line,
    presented true (Some "tok-a") "r1" = Some token /\
    (w_backend completed).2 = (w_backend (after_preview None "STANDALONE")).2 ++ pre ++
      EvConsume token (binding_new (Some "alice") "r1" "dev")
        (plan_value (PlanDownloadAndInstall plan)) true :: mid ++
      [EvCall IdpPackage.RPC_PACKAGE_INFORMATION (Ok reply); EvAudit line; EvRelease] /\
    di_target_package_version plan = IdpPackage.dc_target_package_version d /\
    IdpPackage.parse_package_information reply = Ok ns /\
    IdpPackage.all_at_target ns (IdpPackage.dc_target_package_version d) = true /\
    exists n, In n ns /\
      IdpPackage.current_package_version n = Some (IdpPackage.dc_installed_package_version d).
Proof.
  eexists. split; [vm_compute; reflexivity|].
  apply (completed_is_verified (SV := lab_server) (args None (Some "tok-a")) (Some "alice") "dev" "req"
           (after_preview None "STANDALONE") _ completed).
  vm_compute. reflexivity.
Defined.

End DemoSignature.
