(* ===== verification/RustPath.v ===== *)
(** * Paths ([std::path::Path], on Unix)

    The parts of [Path] the code uses, on UTF-8 strings: the components, the
    parent, joining, and the component-wise prefix test.  A path is the bytes it
    was given: [parent] returns a slice of them. *)

From S2P Require Import Prelude RustStr.
From Stdlib Require Import Ascii.

Definition SLASH : ascii := "/"%char.

Inductive Component := RootDir | CurDir | ParentDir | Normal (name : string).
#[export] Instance Component_eq_dec : EqDecision Component.
Proof. solve_decision. Defined.

Definition is_absolute (p : string) : bool := starts_with "/" p.

(** A leading [.] that stands alone; later ones are dropped. *)
Definition include_cur_dir (p : string) : bool := String.eqb p "." || starts_with "./" p.

(** The bytes before the body, and the body split at the separators. *)
Definition path_prefix (p : string) : string :=
  if is_absolute p then "/" else if include_cur_dir p then "." else "".
Definition path_body (p : string) : list string :=
  split_byte SLASH (str_drop (String.length (path_prefix p)) p).

Definition is_blank (s : string) : bool := is_empty s || String.eqb s ".".
Definition body_component (s : string) : list Component :=
  if is_blank s then [] else if String.eqb s ".." then [ParentDir] else [Normal s].

Definition components (p : string) : list Component :=
  (if is_absolute p then [RootDir] else if include_cur_dir p then [CurDir] else [])
  ++ flat_map body_component (path_body p).

(** The body without its trailing blank parts, which the backward iterator
    skips. *)
Fixpoint trim_right (body : list string) : list string :=
  match body with
  | [] => []
  | s :: rest =>
      match trim_right rest with
      | [] => if is_blank s then [] else [s]
      | rest' => s :: rest'
      end
  end.

Definition path_parent (p : string) : option string :=
  match trim_right (path_body p) with
  | [] => if negb (is_absolute p) && include_cur_dir p then Some "" else None
  | body => Some (path_prefix p ^^ join "/" (trim_right (removelast body)))
  end.

(** [PathBuf::push] on a copy. *)
Definition path_join (base p : string) : string :=
  if is_absolute p then p
  else if is_empty base || ends_with "/" base then base ^^ p
  else base ^^ "/" ^^ p.

Fixpoint list_prefix {A} {E : EqDecision A} (l k : list A) : bool :=
  match l, k with
  | [], _ => true
  | x :: l, y :: k => bool_decide (x = y) && list_prefix l k
  | _ :: _, [] => false
  end.

Definition path_starts_with (p base : string) : bool :=
  list_prefix (components base) (components p).

Definition has_parent_dir (p : string) : bool :=
  existsb (fun c => bool_decide (c = ParentDir)) (components p).

Lemma list_prefix_spec {A} {E : EqDecision A} (l k : list A) :
  list_prefix l k = true <-> exists t, k = l ++ t.
Proof.
  revert k; induction l as [|x l IH]; intros k; simpl.
  { split; [by exists k|done]. }
  destruct k as [|y k]; simpl.
  { split; [done|]. by intros [t [=]]. }
  rewrite andb_true_iff, bool_decide_eq_true, IH. split.
  - intros [-> [t ->]]. by exists t.
  - intros [t [= -> ->]]. split; [done|]. by exists t.
Qed.

(** The paths of the standard library's documentation and tests. *)
Example path_parent_examples :
  map path_parent ["/foo/bar"; "/foo"; "/"; "foo/bar"; "foo"; ""; "./foo"; "."; "foo/./"; "a//b"; "..";
                   "/a/b/."] =
  [Some "/foo"; Some "/"; None; Some "foo"; Some ""; None; Some "."; Some ""; Some ""; Some "a";
   Some ""; Some "/a"].
Proof. vm_compute. reflexivity. Qed.
Example components_example :
  components "/a/./b/../c//" = [RootDir; Normal "a"; Normal "b"; ParentDir; Normal "c"].
Proof. vm_compute. reflexivity. Qed.

(** ** Joining one plain name *)

(** What a path starts like does not change when more follows a slash. *)
Lemma starts_like_slash c u t :
  is_absolute (String c u ^^ String SLASH t) = is_absolute (String c u) /\
  include_cur_dir (String c u ^^ String SLASH t) = include_cur_dir (String c u).
Proof.
  unfold is_absolute, include_cur_dir, starts_with. cbn [String.append].
  rewrite !prefix_cons. split; [by destruct u, t|].
  destruct u as [|d u]; cbn [String.append].
  - rewrite prefix_cons. cbn [String.eqb]. destruct (Ascii.eqb_spec c ".") as [->|Hn]; [by destruct t|].
    assert (Ascii.eqb "." c = false) as -> by (apply Ascii.eqb_neq; congruence). done.
  - rewrite !prefix_cons. cbn [String.eqb]. by destruct u, t, (Ascii.eqb c ".").
Qed.

Lemma split_byte_app c a b : split_byte c (a ^^ String c b) = split_byte c a ++ split_byte c b.
Proof.
  induction a as [|d a IH]; cbn; [by rewrite Ascii.eqb_refl|].
  destruct (Ascii.eqb d c); [by rewrite IH|]. rewrite IH. destruct (split_byte c a) eqn:Ha; [|done].
  destruct a as [|e a]; [done|]. cbn in Ha. destruct (Ascii.eqb e c); [done|]. by destruct (split_byte c a).
Qed.

Definition plain_name (s : string) : Prop :=
  is_blank s = false /\ s <> ".." /\ str_forall (fun c => negb (Ascii.eqb c SLASH)) s = true.

Lemma split_plain s : str_forall (fun c => negb (Ascii.eqb c SLASH)) s = true -> split_byte SLASH s = [s].
Proof.
  induction s as [|c s IH]; [done|]. cbn [str_forall split_byte].
  intros [Hc%negb_true_iff Hs]%andb_true_iff. by rewrite Hc, (IH Hs).
Qed.

Lemma plain_component s : plain_name s -> body_component s = [Normal s].
Proof.
  intros (Hb & Hd & _). unfold body_component. rewrite Hb. by destruct (String.eqb_spec s "..").
Qed.

Lemma body_slash u name : plain_name name ->
  flat_map body_component (split_byte SLASH (u ^^ String SLASH name)) =
  flat_map body_component (split_byte SLASH u) ++ [Normal name].
Proof.
  intros Hn. rewrite split_byte_app, flat_map_app, (split_plain name) by apply Hn.
  cbn. by rewrite plain_component, app_nil_r.
Qed.

Lemma str_drop_app_le n a b : (n <= String.length a)%nat -> str_drop n (a ^^ b) = str_drop n a ^^ b.
Proof.
  revert a. induction n as [|n IH]; intros a H; [by destruct a|].
  destruct a as [|c a]; cbn in *; [lia|]. apply IH. lia.
Qed.

Lemma prefix_length p : (String.length (path_prefix p) <= String.length p)%nat.
Proof.
  unfold path_prefix, is_absolute, include_cur_dir, starts_with.
  destruct p as [|c p]; [done|]. repeat case_match; cbn; lia.
Qed.

(** A path with something after a slash starts the way the part before the
    slash does. *)
Lemma components_slash u name : u <> "" -> plain_name name ->
  components (u ^^ String SLASH name) = components u ++ [Normal name].
Proof.
  intros Hu Hn. destruct u as [|c u]; [done|].
  destruct (starts_like_slash c u name) as [Ha Hc].
  assert (path_prefix (String c u ^^ String SLASH name) = path_prefix (String c u)) as Hp
    by (unfold path_prefix; by rewrite Ha, Hc).
  unfold components, path_body. rewrite Ha, Hc, Hp, str_drop_app_le by apply prefix_length.
  by rewrite body_slash, app_assoc.
Qed.

Lemma components_trailing u : u <> "" -> components (u ^^ "/") = components u.
Proof.
  intros Hu. destruct u as [|c u]; [done|].
  change "/" with (String SLASH ""). destruct (starts_like_slash c u "") as [Ha Hc].
  assert (path_prefix (String c u ^^ String SLASH "") = path_prefix (String c u)) as Hp
    by (unfold path_prefix; by rewrite Ha, Hc).
  unfold components, path_body. rewrite Ha, Hc, Hp, str_drop_app_le by apply prefix_length.
  rewrite split_byte_app, flat_map_app. cbn. by rewrite app_nil_r.
Qed.

Lemma ends_with_slash s : ends_with "/" s = true -> exists u, s = u ^^ "/".
Proof.
  unfold ends_with. intros [t Ht]%prefix_app. exists (str_rev t).
  apply (f_equal str_rev) in Ht. by rewrite str_rev_involutive, str_rev_app_str in Ht.
Qed.

(** Joining a plain name appends one component, whatever the base looks like. *)
Lemma components_join base name : plain_name name ->
  components (path_join base name) = components base ++ [Normal name].
Proof.
  intros Hn. pose proof Hn as (Hb & Hd & Hs).
  assert (is_absolute name = false) as Ha.
  { unfold is_absolute, starts_with. destruct name as [|c t]; [done|]. rewrite prefix_cons.
    cbn [str_forall] in Hs. apply andb_true_iff in Hs as [Hc _].
    destruct (Ascii.eqb_spec "/" c) as [<-|]; done. }
  unfold path_join. rewrite Ha. destruct base as [|c base]; cbn [is_empty orb].
  - assert (include_cur_dir name = false) as Hi.
    { unfold include_cur_dir. apply orb_false_iff in Hb as [_ ->]. cbn.
      unfold starts_with. destruct (String.prefix "./" name) eqn:E; [|done].
      apply prefix_app in E as [t ->]. cbn in Hs. done. }
    cbn [String.append]. unfold components, path_body, path_prefix. rewrite Ha, Hi. cbn [String.length].
    replace (str_drop 0 name) with name by (by destruct name).
    rewrite split_plain by done. cbn. by rewrite plain_component.
  - destruct (ends_with "/" (String c base)) eqn:He.
    + apply ends_with_slash in He as [u Hu]. rewrite Hu. destruct u as [|d u].
      * change ("" ^^ "/") with "/". change ("/" ^^ name) with (String SLASH name).
        assert (is_absolute (String SLASH name) = true) as Hr
          by (unfold is_absolute, starts_with; rewrite prefix_cons; by destruct name).
        change (components "/") with [RootDir].
        unfold components, path_body, path_prefix. rewrite Hr. cbn [String.length str_drop].
        replace (str_drop 0 name) with name by (by destruct name).
        rewrite split_plain by done. cbn [flat_map]. by rewrite plain_component.
      * rewrite app_str_assoc. change ("/" ^^ name) with (String SLASH name).
        by rewrite components_slash, components_trailing.
    + change ("/" ^^ name) with (String SLASH name). by rewrite components_slash.
Qed.
