(* ===== verification/ConfigTools.v ===== *)
(** * The configuration tools ([tools/load_commit.rs], [commit_check.rs], [rollback_config.rs], [discard_candidate.rs], [config_diff.rs], [get_config.rs])

    Each tool checks its arguments, the device, who owns it and the policy, and
    only then runs one candidate transaction, or one CLI command, on a pooled
    session.  Redaction is the crate [mecmcp_redact]'s and a parameter.  A tool
    ends with a reply, an error, or a panic: the [unreachable!] arms and the
    overflow of [Instant + Duration] are values here. *)

From S2P Require Import Prelude RustStr Fmt Errors Helpers Inventory Policy Output Async JsonValue.
From S2P Require Import Async CandidateTransaction DeviceManager.

(** ** Arguments ([tools/mod.rs]) *)

Record LoadCommitArgs := {
  lc_device : string; lc_config_text : string; lc_config_format : string; lc_mode : string;
  lc_commit_comment : string; lc_confirm_timeout_mins : option N; lc_timeout : N
}.
Record CommitCheckArgs := {
  cc_device : string; cc_config_text : string; cc_config_format : string; cc_timeout : N
}.
Record RollbackConfigArgs := {
  rb_device : string; rb_version : Z; rb_commit : bool; rb_confirm_timeout_mins : option N;
  rb_commit_comment : option string; rb_timeout : N
}.
Record DiscardCandidateArgs := { dc_device : string; dc_timeout : N }.
Record ConfigDiffArgs := { cd_device : string; cd_version : Z; cd_timeout : N }.
Record GetConfigArgs := {
  gc_device : string; gc_timeout : N; gc_config_path : option string; gc_format : string;
  gc_max_lines : option N; gc_max_bytes : option N; gc_tail : bool
}.

(** [mecmcp_redact] *)
Class Redactor := {
  redact_text : string -> string;
  redact_xml_str : string -> option string;
  redact_json_value : Value -> Value
}.

Inductive ToolStop {X : External} := Failed (e : JmcpError) | Panicked (msg : string).

(** The largest [Instant]: an [i64] of seconds, and the nanoseconds below one. *)
Definition INSTANT_MAX : N := 9223372036854775807 * NANOS_PER_SEC + 999999999.

Section tools.
Context {X : External} {JT : JsonText} {P : PolicyEngine} {PF : PolicyFns} {Re : Redactor}.
Context {D Net : Type} {RC : RustezClient D Net}.
Context (backend : D -> CandidateBackend Net).
(** The server-wide settings, the clock, the Unicode table and the regex crate. *)
Context (cleanup_timeout default_confirm_mins : N) (unix_now : option N).
Context (unicode_alphanumeric : string -> bool) (regex_new : string -> option (string -> bool)).

#[local] Abbreviation DeviceManager := (DeviceManager (D := D) (Net := Net)).
Definition Tool (T : Type) : Type := Act DeviceManager T ToolStop.

Definition check {T} (r : Result T JmcpError) : Tool T := act_ret (map_err Failed r).
Definition panic {T} (msg : string) : Tool T := act_ret (Err (Panicked msg)).
(** [dm.inventory().get(name)?] *)
Definition device_entry (name : string) : Tool DeviceEntry :=
  act_get (fun m => map_err Failed (get (inventory m) name)).

(** [candidate_transaction::run(..).await?] *)
Definition transact (device : string) (request : CandidateRequest) (timeout : N)
  : Tool CandidateResult := fun w =>
  if (INSTANT_MAX <? w_now w + timeout)%N
  then (Err (Panicked "overflow when adding duration to instant"), w)
  else let (r, w) := run backend device request timeout cleanup_timeout w in (map_err Failed r, w).

(** [timeout(limit, f).await.map_err(|_| JmcpError::Timeout(limit))??], for an
    [f] that starts at once. *)
Definition within {T} (limit : N) (f : N -> Future DeviceManager T JmcpError) : Tool T := fun w =>
  match timeout limit (f (w_now w)) w with
  | (Some r, w) => (map_err Failed r, w)
  | (None, w) => (Err (Failed (Timeout limit)), w)
  end.

(** [match policy.check_config(..)? { .. }] of the tools that load a
    configuration. *)
Definition config_gate (p : Policy) (tool device format text : string) : Result unit JmcpError :=
  let? d := check_config p device format text in
  match d with
  | DecAllow => Ok tt
  | DecDeny rule source line_number =>
      Err (Denied tool device (rule_pattern rule) (source_str source) (excerpt text) line_number)
  | DecDenyAllowlist _ _ _ => Err (ConfigDomainAllowlistInvariant tool device)
  end.

(** What the caller is told about a confirmed commit. *)
Definition confirmed_fields (mins : N) : list (string * Value) :=
  [("confirmed", Bool true); ("rollback_in_minutes", Number (Z.of_N mins));
   ("rollback_deadline_unix", Number (Z.of_N (rollback_deadline_unix unix_now mins)));
   ("message", Str ("Commit confirmed: auto-rollback in " ^^ dec mins
      ^^ " minutes unless confirmed. Send another commit to confirm with confirm_commit."))].
Definition warning_field (warning : option string) : list (string * Value) :=
  opt_field "warning" (option_map Str warning).

(** The commit a tool asks for: confirmed unless the caller opted out. *)
Definition commit_mode (confirm : option N) (comment : string)
  : Result (CandidateMode * option N) JmcpError :=
  match resolve_confirm_timeout default_confirm_mins confirm with
  | Confirmed mins =>
      let? secs := confirm_timeout_to_secs mins in
      Ok (CommitConfirmed secs, Some mins)
  | OptedOut => Ok (CommitWithComment comment, None)
  end.

(** ** [load_and_commit_config] *)

Definition load_commit_note : Value :=
  Str "commit_comment is not applied during confirmed commits (rustez API limitation)".

Definition load_and_commit_config (args : LoadCommitArgs) (p : Policy)
    (allow_plane_owned_writes : bool) : Tool Value :=
  let device := lc_device args in
  let! _ := check (validate_input_length "config_text" (lc_config_text args)) in
  let! entry := device_entry device in
  let! authority_warning := check (check_plane_owned_operation "load_and_commit_config" device
                              (config_authority entry) allow_plane_owned_writes) in
  let! _ := check (config_gate p "load_and_commit_config" device (lc_config_format args)
                     (lc_config_text args)) in
  let! load_mode := check (parse_load_mode (Some (lc_mode args))) in
  let! _ := check (refuse_override_outside_changeset "load_and_commit_config" load_mode) in
  let! load_action := check (resolve_load_action (lc_config_format args) load_mode) in
  let! payload := check (build_config_payload (lc_config_text args) (Some (lc_config_format args))) in
  let! (mode, confirmed) := check (commit_mode (lc_confirm_timeout_mins args) (lc_commit_comment args)) in
  let! result := transact device
    {| payload := Some payload; rollback_source := None; mode := mode; load_action := load_action |}
    (from_secs (lc_timeout args)) in
  match result with
  | ResCommitted diff =>
      act_ret (Ok (Object ([("success", Bool true); ("diff", Str diff)]
        ++ match confirmed with
           | Some mins =>
               confirmed_fields mins
               ++ (if is_empty (lc_commit_comment args) then [] else [("note", load_commit_note)])
           | None => []
           end
        ++ warning_field authority_warning)))
  | ResCommitFailed diff error =>
      act_ret (Ok (Object ([("success", Bool false); ("diff", Str diff); ("error", Str error)]
        ++ warning_field authority_warning)))
  | _ => panic "load/commit transaction returned the wrong result kind"
  end.

(** ** [commit_check_config] *)

Definition check_failed_hint : string :=
  "commit-check could not reach a verdict (for example the known multi-RE reply parsing limitation on chassis clusters). This is NOT a statement that the configuration is invalid, but it is also NOT a validation pass — do not commit until the configuration has been independently validated (e.g. on a standalone RE).".

Definition outcome_value (diff : string) (outcome : CheckOutcome) : Value :=
  match outcome with
  | CheckValid =>
      Object [("success", Bool true); ("outcome", Str "valid"); ("diff", Str diff);
              ("checked_only", Bool true)]
  | CheckInvalid error =>
      Object [("success", Bool false); ("outcome", Str "invalid"); ("diff", Str diff);
              ("error", Str error)]
  | CheckFailed error =>
      Object [("success", Bool false); ("outcome", Str "check_failed"); ("diff", Str diff);
              ("error", Str error); ("hint", Str check_failed_hint)]
  end.

Definition commit_check_config (args : CommitCheckArgs) (p : Policy) : Tool Value :=
  let device := cc_device args in
  let! _ := check (validate_input_length "config_text" (cc_config_text args)) in
  let! _ := device_entry device in
  let! _ := check (config_gate p "commit_check_config" device (cc_config_format args)
                     (cc_config_text args)) in
  let! load_action := check (resolve_load_action (cc_config_format args) LoadMerge) in
  let! payload := check (build_config_payload (cc_config_text args) (Some (cc_config_format args))) in
  let! result := transact device
    {| payload := Some payload; rollback_source := None; mode := CommitCheck;
       load_action := load_action |} (from_secs (cc_timeout args)) in
  match result with
  | ResCommitCheck diff outcome => act_ret (Ok (outcome_value diff outcome))
  | _ => panic "commit-check transaction returned the wrong result kind"
  end.

(** ** [rollback_config] *)

Definition rollback_note : Value :=
  Str "commit_comment is ignored during confirmed commits (rustez API limitation)".

Definition rollback_base (committed : bool) (diff : string) (version : N) : list (string * Value) :=
  [("committed", Bool committed); ("diff", Str diff); ("version", Number (Z.of_N version))].

Definition rollback_config (args : RollbackConfigArgs) (allow_plane_owned_writes : bool)
  : Tool Value :=
  let device := rb_device args in
  let! entry := device_entry device in
  let! authority_warning :=
    check (if rb_commit args then
             check_plane_owned_operation "rollback_config" device (config_authority entry)
               allow_plane_owned_writes
           else Ok None) in
  let! version := check (validate_rollback_version (rb_version args)) in
  let! (mode, confirmed) :=
    check (if negb (rb_commit args) then Ok (DryRun, None)
           else commit_mode (rb_confirm_timeout_mins args)
                  (default ("rollback to " ^^ dec version ^^ " via rollback_config")
                     (rb_commit_comment args))) in
  let! result := transact device
    {| payload := None; rollback_source := Some version; mode := mode; load_action := LoadMerge |}
    (from_secs (rb_timeout args)) in
  match result with
  | ResDryRun diff => act_ret (Ok (Object (rollback_base false diff version)))
  | ResCommitted diff =>
      act_ret (Ok (Object (rollback_base true diff version
        ++ match confirmed with
           | Some mins =>
               confirmed_fields mins
               ++ (if bool_decide (is_Some (rb_commit_comment args)) then [("note", rollback_note)]
                   else [])
           | None => []
           end
        ++ warning_field authority_warning)))
  | ResCommitFailed diff error =>
      act_ret (Ok (Object (rollback_base false diff version ++ [("error", Str error)]
        ++ warning_field authority_warning)))
  | _ => panic "rollback transaction returned unexpected result kind"
  end.

(** ** [discard_candidate] *)

Definition discard_candidate (args : DiscardCandidateArgs) : Tool Value :=
  let! _ := device_entry (dc_device args) in
  let! result := transact (dc_device args)
    {| payload := None; rollback_source := None; mode := Discard; load_action := LoadMerge |}
    (from_secs (dc_timeout args)) in
  match result with
  | ResDiscarded =>
      act_ret (Ok (Object [("success", Bool true);
        ("message", Str "candidate configuration discarded (rolled back to running)")]))
  | _ => panic "discard transaction returned the wrong result kind"
  end.

(** ** [junos_config_diff] *)

(** One CLI command on a pooled session, which goes out of scope afterwards, or
    when the call is dropped. *)
Definition cli_once (device command : string) (conv : RustEzError -> JmcpError) (now : N)
  : Future DeviceManager string JmcpError :=
  fut_try (fun e => e) (open now device) (fun g =>
    match dev g with
    | None => fut_ret (Err (Validation "PooledDevice used after drop"))
    | Some d =>
        fut_bind (fut_guarded g (fut_net (device_cli d command))) (fun r =>
          fut_drop g (map_err conv r))
    end).

Definition parse_error_hint (err_text : string) : option string :=
  let lower := to_ascii_lowercase err_text in
  if contains "juniper.conf" lower || contains "parse error" lower then
    Some (err_text ^^ " (the on-box configuration failed to parse for the current mode — common right after a chassis-cluster enable/disable. Fix or load a valid config on the device, then retry junos_config_diff.)")
  else None.

Definition diff_error (e : RustEzError) : JmcpError :=
  match parse_error_hint (rustez_display e) with
  | Some hint => ConfigParseHint hint
  | None => Rustez e
  end.

Definition junos_config_diff (args : ConfigDiffArgs) : Tool Value :=
  let! version := check (validate_rollback_version (cd_version args)) in
  let! result := within (from_secs (cd_timeout args))
    (cli_once (cd_device args) ("show configuration | compare rollback " ^^ dec version) diff_error) in
  act_ret (Ok (Str (redact_text (strip_config_xml_wrapper result)))).

(** ** [get_junos_config] *)

Definition redact_config_output (text format : string) : string :=
  if String.eqb format "xml" then default (redact_text text) (redact_xml_str text)
  else if String.eqb format "json" then
    match json_from_str text with
    | Ok value => default (redact_text text) (result_ok (json_pretty (redact_json_value value)))
    | Err _ => redact_text text
    end
  else redact_text text.

Definition build_command (config_path : option string) (format : string)
  : Result string JmcpError :=
  let? suffix := config_display_suffix format in
  let base :=
    match config_path with
    | Some path =>
        if is_empty (trim path) then "show configuration" else "show configuration " ^^ trim path
    | None => "show configuration"
    end in
  Ok (match suffix with Some suffix => base ^^ " | " ^^ suffix | None => base end).

Definition get_junos_config (args : GetConfigArgs) (p : Policy) : Tool Value :=
  let device := gc_device args in
  let! _ := check (validate_output_caps (gc_max_lines args) (gc_max_bytes args)) in
  let! _ := check
    match gc_config_path args with
    | Some path =>
        let? _ := validate_input_length "config_path" path in
        validate_config_path unicode_alphanumeric path
    | None => Ok tt
    end in
  let! command := check (build_command (gc_config_path args) (gc_format args)) in
  let! _ := device_entry device in
  let! _ := check (enforce_decision (check_command p device command) "get_junos_config" device command) in
  let! result := within (from_secs (gc_timeout args)) (cli_once device command Rustez) in
  let stripped := strip_config_xml_wrapper result in
  let redacted := redact_config_output stripped (gc_format args) in
  act_ret (Ok (Str (process_output regex_new command redacted (gc_max_lines args)
                      (gc_max_bytes args) (gc_tail args)))).

End tools.
