(* ===== verification/Template.v ===== *)
(** * Rendering and applying templates ([tools/template.rs])

    Variables are a JSON object, the template is rendered by [minijinja] (a
    parameter), and the result is applied to the devices one after another, each
    by a candidate transaction of its own; a device that is refused or fails
    gets a row with its error and the next one is tried. *)

From S2P Require Import Prelude RustStr Fmt Errors Helpers Inventory Policy Output Async JsonValue.
From S2P Require Import Async CandidateTransaction DeviceManager ConfigTools.

Record TemplateArgs := {
  template_content : string; vars_content : string;
  device_name : option string; device_names : option (list string);
  apply_config : bool; commit_comment : string; dry_run : bool;
  config_format : option string; tp_mode : string;
  confirm_timeout_mins : option N; tp_timeout : N
}.

(** [minijinja], with undefined variables an error. *)
Class Minijinja := {
  Tmpl : Type;
  template_from_str : string -> Result Tmpl string;
  tmpl_render : Tmpl -> Value -> Result string string
}.

Definition MAX_TEMPLATE_BYTES : N := 65536.

Section pure.
Context {X : External} {JT : JsonText} {MJ : Minijinja}.

Definition over_limit (what : string) (n : N) : string :=
  what ^^ " exceeds " ^^ dec MAX_TEMPLATE_BYTES ^^ "-byte limit (" ^^ dec n ^^ " bytes)".

Definition parse_vars (input : string) : Result Value JmcpError :=
  if (MAX_TEMPLATE_BYTES <? len input)%N then
    Err (TemplateVars (over_limit "vars_content" (len input)))
  else
    let? parsed := map_err (fun e => TemplateVars ("JSON parse failed: " ^^ json_error_display e))
                     (json_from_str input) in
    if negb (is_object parsed) then
      Err (TemplateVars "vars_content must deserialize to a top-level JSON object")
    else Ok parsed.

Definition render (content : string) (vars : Value) : Result string JmcpError :=
  if (MAX_TEMPLATE_BYTES <? len content)%N then
    Err (TemplateSyntax (over_limit "template_content" (len content)))
  else
    let? tmpl := map_err TemplateSyntax (template_from_str content) in
    map_err TemplateRender (tmpl_render tmpl vars).

Definition is_set_line (line : string) : bool :=
  let line := trim_start line in starts_with "set " line || starts_with "delete " line.

Definition detect_format (rendered : string) : string :=
  if starts_with "<" (trim_start rendered) then "xml"
  else if existsb is_set_line (lines rendered) then "set"
  else "text".

Definition resolve_devices (args : TemplateArgs) : Result (list string) JmcpError :=
  match device_name args, device_names args with
  | Some _, Some _ => Err (Validation "specify exactly one of `device_name` or `device_names`")
  | Some one, None => Ok [one]
  | None, Some [] => Err (Validation "`device_names` cannot be empty")
  | None, Some many => Ok many
  | None, None => Ok []
  end.

Definition resolve_format (args : TemplateArgs) (rendered : string) : Result string JmcpError :=
  match config_format args with
  | Some f =>
      if String.eqb f "set" || String.eqb f "text" || String.eqb f "xml" then Ok f
      else Err (BadFormat f)
  | None => Ok (detect_format rendered)
  end.

End pure.

Inductive CommitOneOutcome :=
  | OneDryRun (diff : string)
  | OneCommitted (echo : string) (confirmed : option N).

Section tool.
Context {X : External} {JT : JsonText} {MJ : Minijinja} {P : PolicyEngine} {PF : PolicyFns}.
Context {D Net : Type} {RC : RustezClient D Net}.
Context (backend : D -> CandidateBackend Net).
Context (cleanup_timeout default_confirm_mins : N) (unix_now : option N).

#[local] Abbreviation Tool := (Tool (D := D) (Net := Net)).

Definition commit_one (device : string) (payload : ConfigPayload) (load_action : LoadAction)
    (args : TemplateArgs) : Tool CommitOneOutcome :=
  let! (mode, confirmed) :=
    check (if dry_run args then Ok (DryRun, None)
           else commit_mode default_confirm_mins (confirm_timeout_mins args) (commit_comment args)) in
  let! result := transact backend cleanup_timeout device
    {| payload := Some payload; rollback_source := None; mode := mode; load_action := load_action |}
    (from_secs (tp_timeout args)) in
  match result with
  | ResDryRun diff => act_ret (Ok (OneDryRun diff))
  | ResCommitted _ => act_ret (Ok (OneCommitted (commit_comment args) confirmed))
  | ResCommitFailed _ error => act_ret (Err (Failed (Validation error)))
  | _ => panic "template transaction returned the wrong result kind"
  end.

Definition row (router : Value) (rendered format : string) (rest : list (string * Value)) : Value :=
  Object ([("router", router); ("rendered_template", Str rendered); ("config_format", Str format)]
          ++ rest).

Definition outcome_row (device rendered format : string) (o : CommitOneOutcome) : Value :=
  row (Str device) rendered format
    match o with
    | OneDryRun diff => [("diff", Str diff)]
    | OneCommitted echo confirmed =>
        ("commit_comment", Str echo)
        :: match confirmed with Some mins => confirmed_fields unix_now mins | None => [] end
    end.

(** The row of a device the policy refuses. *)
Definition refusal (d : Decision) : option string :=
  match d with
  | DecAllow => None
  | DecDeny rule source _ =>
      Some ("blocklist denied: pattern `" ^^ rule_pattern rule ^^ "` from " ^^ source_str source)
  | DecDenyAllowlist _ _ _ =>
      Some "policy invariant violated: config domain returned DenyAllowlist"
  end.

(** One iteration of the apply loop. *)
Definition apply_one (p : Policy) (args : TemplateArgs) (rendered format : string)
    (payload : ConfigPayload) (load_action : LoadAction) (device : string) : Tool Value :=
  let! decision := check (check_config p device format rendered) in
  match refusal decision with
  | Some error => act_ret (Ok (row (Str device) rendered format [("error", Str error)]))
  | None =>
      act_bind (commit_one device payload load_action args) (fun r =>
        match r with
        | Err (Failed Cancelled) => act_ret (Err (Failed Cancelled))
        | Err (Failed e) => act_ret (Ok (row (Str device) rendered format [("error", Str (to_string e))]))
        | Err (Panicked msg) => panic msg
        | Ok o => act_ret (Ok (outcome_row device rendered format o))
        end)
  end.

Fixpoint apply_all (p : Policy) (args : TemplateArgs) (rendered format : string)
    (payload : ConfigPayload) (load_action : LoadAction) (ds : list string) : Tool (list Value) :=
  match ds with
  | [] => act_ret (Ok [])
  | d :: ds =>
      let! r := apply_one p args rendered format payload load_action d in
      let! rs := apply_all p args rendered format payload load_action ds in
      act_ret (Ok (r :: rs))
  end.

Fixpoint check_known (ds : list string) : Tool unit :=
  match ds with
  | [] => act_ret (Ok tt)
  | d :: ds => let! _ := device_entry d in check_known ds
  end.

Definition results (rows : list Value) (applied : bool) : Value :=
  Object [("results", Array rows); ("applied", Bool applied)].

Definition rendered_rows (rendered format : string) (ds : list string) : list Value :=
  match ds with
  | [] => [row Null rendered format []]
  | _ => map (fun d => row (Str d) rendered format []) ds
  end.

Definition render_and_apply_j2_template (args : TemplateArgs) (p : Policy) : Tool Value :=
  let! ds := check (resolve_devices args) in
  let! _ := check_known ds in
  let! vars := check (parse_vars (vars_content args)) in
  let! rendered := check (render (template_content args) vars) in
  let! format := check (resolve_format args rendered) in
  let! load_mode := check (parse_load_mode (Some (tp_mode args))) in
  let! _ := check (refuse_override_outside_changeset "render_and_apply_j2_template" load_mode) in
  let! load_action := check (resolve_load_action format load_mode) in
  let! _ := check (if negb (String.eqb format "set") && existsb (has_config_rules_for p) ds
                   then Err (TemplateFormatMismatch format) else Ok tt) in
  if negb (apply_config args) then
    act_ret (Ok (results (rendered_rows rendered format ds) false))
  else
    let! payload := check (build_config_payload rendered (Some format)) in
    let! rows := apply_all p args rendered format payload load_action ds in
    act_ret (Ok (results rows (negb (dry_run args)))).

End tool.
