(* ===== verification/ConfigToolsSpec.v ===== *)
(** * What the configuration tools promise

    Their [unreachable!] arms are unreachable; the tools that only look never
    change the running configuration; and [load_and_commit_config] reaches a
    device only after every gate, with the transaction the arguments describe. *)

From S2P Require Import Prelude RustStr Fmt Errors Helpers Inventory Policy Output Async JsonValue.
From S2P Require Import Async CandidateTransaction CandidateSpec DeviceManager DeviceManagerSpec ConfigTools Template.

(** ** The kind of a result *)

Definition result_kind (m : CandidateMode) (r : CandidateResult) : bool :=
  match m, r with
  | DryRun, ResDryRun _ | CommitCheck, ResCommitCheck _ _
  | (CommitWithComment _ | CommitConfirmed _), (ResCommitted _ | ResCommitFailed _ _)
  | Discard, ResDiscarded => true
  | _, _ => false
  end.

Section kinds.
Context {X : External} {B : Type} `{!CandidateBackend B}.

Lemma primary_operation_kind req d t (w : World B) r c w' :
  primary_operation req d t w = (Ok r, c, w') -> result_kind (mode req) r = true.
Proof.
  unfold primary_operation. destruct (load_step req d t w) as [[u|e] w1]; [|done].
  destruct (run_step d t be_diff w1) as [[df|e] w2]; [|done].
  destruct (mode req); unfold commit_arm.
  1: by intros [= <- _ _].
  1: { destruct (run_step d t be_commit_check w2) as [[u'|e] w3]; [by intros [= <- _ _]|].
       destruct (is_interruption e); [done|]. by intros [= <- _ _]. }
  1,2: destruct (ensure_active d t w2); [|done]; destruct (await _ w2) as [[u'|e] w3];
         by intros [= <- _ _].
  done.
Qed.

Lemma execute_kind req d t l (w : World B) ex w' r :
  execute req d t l w = (ex, w') -> result ex = Ok r -> result_kind (mode req) r = true.
Proof.
  unfold execute. destruct (decide (mode req = Discard)) as [Hd|Hd].
  { rewrite Hd. destruct (run_step d t be_rollback w) as [[u|e] w1]; intros [= <- _]; [|done].
    by intros [= <-]. }
  rewrite match_not_discard by done. destruct (run_step d t be_lock w) as [[u|e] w1].
  - destruct (primary_operation req d t w1) as [[o c] w2] eqn:Ho.
    destruct (cleanup (negb c) l w2) as [cf w3]. intros [= <- _]. cbn [result]. unfold combine.
    destruct (cleanup_is_empty cf); [|done]. intros ->. by eapply primary_operation_kind.
  - destruct (is_interruption e).
    + destruct (cleanup true l w1) as [cf w2]. intros [= <- _]. cbn [result]. unfold combine.
      by destruct (cleanup_is_empty cf).
    + by intros [= <- _].
Qed.

End kinds.

Section tools.
Context {X : External} {JT : JsonText} {MJ : Minijinja} {P : PolicyEngine} {PF : PolicyFns} {Re : Redactor}.
Context {D Net : Type} {RC : RustezClient D Net}.
Context (backend : D -> CandidateBackend Net).
Context (cleanup_timeout default_confirm_mins : N) (unix_now : option N).
Context (unicode_alphanumeric : string -> bool) (regex_new : string -> option (string -> bool)).

#[local] Abbreviation Tool := (Tool (D := D) (Net := Net)).
#[local] Abbreviation DeviceManager := (DeviceManager (D := D) (Net := Net)).
#[local] Abbreviation W := (World DeviceManager).
#[local] Abbreviation transact := (transact backend cleanup_timeout).

(** [run_cases] with the result's kind. *)
Lemma run_kind router req t ct w r w' :
  run backend router req t ct w = (Ok r, w') -> result_kind (mode req) r = true.
Proof.
  intros H. apply run_cases in H as [(_ & Hr & _)|(d & w1 & ex & w2 & g & g3 & w3 & He & _ & _ & _ & _ & Hr & _)].
  - discriminate Hr.
  - exact (execute_kind _ _ _ _ _ _ _ _ He (eq_sym Hr)).
Qed.

Lemma transact_kind device req t (w : W) r w' :
  transact device req t w = (Ok r, w') -> result_kind (mode req) r = true.
Proof.
  unfold ConfigTools.transact. destruct (_ <? _)%N; [done|].
  destruct (run _ _ _ _ _ w) as [[r0|e] w1] eqn:Hr; [|done]. intros [= <- _]. by eapply run_kind.
Qed.

(** ** Panics *)

Definition overflow_msg : string := "overflow when adding duration to instant".

(** A tool whose deadline is [n] after it starts panics only because that
    instant cannot be represented. *)
Definition panics_late {T} (n : N) (t : Tool T) : Prop := forall w m,
  (t w).1 = Err (Panicked m) -> m = overflow_msg /\ (INSTANT_MAX < w_now w + n)%N.
(** A tool's checks: they read the state, and cannot panic. *)
Definition checks {T} (t : Tool T) : Prop := forall w,
  (t w).2 = w /\ forall m, (t w).1 <> Err (Panicked m).

Lemma checks_check {T} (r : Result T JmcpError) : checks (check r).
Proof. intros w. by destruct r. Qed.
Lemma checks_device_entry n : checks (device_entry n).
Proof. intros w. unfold device_entry, act_get. cbn. by destruct (get _ _). Qed.

Lemma late_then {T U} n (t : Tool T) (k : T -> Tool U) :
  checks t -> (forall v, panics_late n (k v)) -> panics_late n (act_then t k).
Proof.
  intros Ht Hk w m. unfold act_then, act_try, act_bind. destruct (Ht w) as [Hw Hm].
  destruct (t w) as [[v|e] w1]; cbn [fst snd] in *; [subst w1; apply Hk|].
  cbn. intros [= ->]. by destruct (Hm m).
Qed.

Lemma late_then_transact {U} device req n (k : CandidateResult -> Tool U) :
  (forall v, result_kind (mode req) v = true -> forall w m, (k v w).1 <> Err (Panicked m)) ->
  panics_late n (act_then (transact device req n) k).
Proof.
  intros Hk w m. unfold act_then, act_try, act_bind.
  destruct (transact device req n w) as [[v|e] w1] eqn:Ht.
  - intros H. apply transact_kind in Ht. by destruct (Hk v Ht w1 m).
  - cbn. intros [= ->]. unfold ConfigTools.transact in Ht.
    destruct (N.ltb_spec INSTANT_MAX (w_now w + n)) as [Hn|]; [by injection Ht as <- _|].
    destruct (run _ _ _ _ _ w) as [[r0|e] w2]; [done|]. by injection Ht.
Qed.

Lemma within_no_panic {T} n (f : N -> Future DeviceManager T JmcpError) w m :
  (within n f w).1 <> Err (Panicked m).
Proof. unfold within. by destruct (timeout _ _ _) as [[[v|e]|] w1]. Qed.

Lemma late_then_within {T U} n l (f : N -> Future DeviceManager T JmcpError) (k : T -> Tool U) :
  (forall v w m, (k v w).1 <> Err (Panicked m)) -> panics_late n (act_then (within l f) k).
Proof.
  intros Hk w m. unfold act_then, act_try, act_bind.
  pose proof (within_no_panic l f w m) as Hm. destruct (within l f w) as [[v|e] w1]; cbn in *.
  - intros H. by destruct (Hk v w1 m).
  - intros [= ->]. done.
Qed.

(** The requests of the configuration tools, and the time each may take. *)
Inductive ConfigCall :=
  | CallLoadCommit (args : LoadCommitArgs)
  | CallCommitCheck (args : CommitCheckArgs)
  | CallRollback (args : RollbackConfigArgs)
  | CallDiscard (args : DiscardCandidateArgs)
  | CallDiff (args : ConfigDiffArgs)
  | CallGetConfig (args : GetConfigArgs).

Definition call_tool (p : Policy) (allow : bool) (c : ConfigCall) : Tool Value :=
  match c with
  | CallLoadCommit a =>
      load_and_commit_config backend cleanup_timeout default_confirm_mins unix_now a p allow
  | CallCommitCheck a => commit_check_config backend cleanup_timeout a p
  | CallRollback a => rollback_config backend cleanup_timeout default_confirm_mins unix_now a allow
  | CallDiscard a => discard_candidate backend cleanup_timeout a
  | CallDiff a => junos_config_diff a
  | CallGetConfig a => get_junos_config unicode_alphanumeric regex_new a p
  end.
Definition call_timeout (c : ConfigCall) : N :=
  from_secs match c with
            | CallLoadCommit a => lc_timeout a | CallCommitCheck a => cc_timeout a
            | CallRollback a => rb_timeout a | CallDiscard a => dc_timeout a
            | CallDiff a => cd_timeout a | CallGetConfig a => gc_timeout a
            end.

Lemma commit_mode_kind confirm comment m c r :
  commit_mode default_confirm_mins confirm comment = Ok (m, c) -> result_kind m r = true ->
  (exists d, r = ResCommitted d) \/ exists d e, r = ResCommitFailed d e.
Proof.
  clear unicode_alphanumeric regex_new.
  unfold commit_mode. destruct (resolve_confirm_timeout _ _); [destruct (confirm_timeout_to_secs _)|];
    intros [= <- _]; destruct r; naive_solver.
Qed.

(** The value a check went on with. *)
Lemma late_then_check {T U} n (r : Result T JmcpError) (k : T -> Tool U) :
  (forall v, r = Ok v -> panics_late n (k v)) -> panics_late n (act_then (check r) k).
Proof. destruct r as [v|e]; intros H w m; [by apply (H v)|done]. Qed.

Ltac late := repeat first
  [ apply late_then_check;
    lazymatch goal with |- forall _ : _ * _, _ => intros [md cf] Hmd | _ => intros ? ? end
  | apply late_then; [apply checks_device_entry|intros ?]
  | apply late_then_transact; cbn [mode] ].


(** ** The tools that only look *)

Section running.
Context {L : forall d, CandidateLaws (CandidateBackend0 := backend d) Net}.

(** The running configuration is the device's, whichever session one asks, and
    connecting and closing do not change it. *)
Record OneDevice (conf : Net -> string) : Prop := {
  od_running d n : running (CandidateBackend0 := backend d) n = conf n;
  od_open p : keeps conf (device_open p);
  od_close d : keeps conf (device_close d)
}.

Context (conf : Net -> string) (O : OneDevice conf).
Definition steady {T} (t : Tool T) : Prop :=
  forall w, conf (net (w_backend (t w).2)) = conf (net (w_backend w)).

Lemma transact_steady device req n : commits (mode req) = false -> steady (transact device req n).
Proof.
  intros Hc w. unfold ConfigTools.transact. destruct (_ <? _)%N; [done|].
  destruct (run _ _ _ _ _ w) as [r w1] eqn:Hr. cbn [snd].
  eapply (run_seen conf); [apply O|apply O| |exact Hr]. intros d dl w2 ex w3 He.
  rewrite <- !(od_running conf O d).
  exact (execute_keeps_running (CandidateBackend0 := lift_backend (backend d))
    (CandidateLaws0 := lift_laws (backend d)) _ _ _ _ _ _ _ Hc He).
Qed.

Lemma steady_ret {T} (r : Result T ToolStop) : steady (act_ret r).
Proof. done. Qed.
Lemma steady_checks {T} (t : Tool T) : checks t -> steady t.
Proof. intros H w. by destruct (H w) as [-> _]. Qed.
Lemma steady_bind {T U} (t : Tool T) (k : Result T ToolStop -> Tool U) :
  steady t -> (forall r, steady (k r)) -> steady (act_bind t k).
Proof.
  intros Ht Hk w. unfold act_bind. specialize (Ht w). destruct (t w) as [r w1]; cbn in *.
  by rewrite Hk.
Qed.
Lemma steady_then {T U} (t : Tool T) (k : T -> Tool U) :
  steady t -> (forall v, steady (k v)) -> steady (act_then t k).
Proof. intros Ht Hk. apply steady_bind; [done|]. intros [v|e]; [apply Hk|apply steady_ret]. Qed.
Lemma steady_then_check {T U} (r : Result T JmcpError) (k : T -> Tool U) :
  (forall v, r = Ok v -> steady (k v)) -> steady (act_then (check r) k).
Proof. destruct r as [v|e]; intros H w; [by apply (H v)|done]. Qed.

Ltac steady := repeat first
  [ apply steady_then_check;
    lazymatch goal with |- forall _ : _ * _, _ => intros [md cf] Hmd | _ => intros ? ? end
  | apply steady_then; [solve [apply steady_checks; apply checks_device_entry]|intros ?]
  | apply steady_then; [by apply transact_steady|intros ?] ].

Lemma commit_one_dry device payload act args :
  dry_run args = true ->
  steady (commit_one backend cleanup_timeout default_confirm_mins device payload act args).
Proof.
  intros Hd. unfold commit_one. rewrite Hd. steady. injection Hmd as <- <-.
  steady. by case_match.
Qed.

Lemma apply_one_dry p args rendered format payload act d :
  dry_run args = true -> steady (apply_one backend cleanup_timeout default_confirm_mins unix_now
                                   p args rendered format payload act d).
Proof.
  intros Hd. unfold apply_one. steady. destruct (refusal v); [done|].
  apply steady_bind; [by apply commit_one_dry|]. by intros [|[[]|]].
Qed.

Lemma apply_all_dry p args rendered format payload act ds :
  dry_run args = true -> steady (apply_all backend cleanup_timeout default_confirm_mins unix_now
                                   p args rendered format payload act ds).
Proof.
  intros Hd. induction ds as [|d ds IH]; cbn [apply_all]; [done|].
  apply steady_then; [by apply apply_one_dry|intros r]. by apply steady_then.
Qed.

Lemma check_known_checks ds : steady (check_known ds).
Proof. induction ds as [|d ds IH]; cbn [check_known]; [done|]. steady. apply IH. Qed.

Lemma template_dry args p :
  apply_config args = false \/ dry_run args = true ->
  steady (render_and_apply_j2_template backend cleanup_timeout default_confirm_mins unix_now args p).
Proof.
  intros Hd. unfold render_and_apply_j2_template. apply steady_then_check; intros ds _.
  apply steady_then; [apply check_known_checks|intros _]. steady.
  destruct (negb (apply_config args)) eqn:Ha; [done|].
  destruct Hd as [Hd|Hd]; [by rewrite Hd in Ha|]. steady.
  apply steady_then; [by apply apply_all_dry|done].
Qed.

(** A call that only looks: a check, a preview, a discard, a render or a dry
    run. *)
Inductive Look : Tool Value -> Prop :=
  | look_check args p : Look (commit_check_config backend cleanup_timeout args p)
  | look_preview args allow : rb_commit args = false ->
      Look (rollback_config backend cleanup_timeout default_confirm_mins unix_now args allow)
  | look_discard args : Look (discard_candidate backend cleanup_timeout args)
  | look_template args p : apply_config args = false \/ dry_run args = true ->
      Look (render_and_apply_j2_template backend cleanup_timeout default_confirm_mins unix_now args p).

(** C20: a commit check, a rollback preview, a discard, and a template that is
    only rendered or dry-run leave the running configuration as it was, on every
    device and whatever fails, times out or is cancelled on the way, connecting
    and the session's return to the pool included. *)
Theorem looking_never_changes_config t : Look t -> steady t.
Proof.
  intros [args p|args allow Hc|args|args p Hd].
  - unfold commit_check_config. steady. by case_match.
  - unfold rollback_config. rewrite Hc. cbn [negb]. steady.
    injection Hmd as <- <-. steady. by case_match.
  - unfold discard_candidate. steady. by case_match.
  - by apply template_dry.
Qed.

End running.

(** ** What reaches a device from [load_and_commit_config] *)

(** The device is not owned by a management plane. *)
Definition own_device (e : DeviceEntry) : Prop :=
  config_authority e = AuthLocal \/ config_authority e = AuthUnknown.

(** Every gate was passed, and the transaction is the one the arguments ask
    for: the text as it was given, never an override, and a confirmed commit of
    the caller's window (or the server's default) unless the caller opted out
    with a zero. *)
Record AllGatesPassed (args : LoadCommitArgs) (p : Policy) (allow : bool) (m : DeviceManager)
    (entry : DeviceEntry) (req : CandidateRequest) : Prop := {
  adm_length : (len (lc_config_text args) <= MAX_INPUT_LEN)%N;
  adm_known : devices (inventory m) !! lc_device args = Some entry;
  adm_plane : own_device entry \/ allow = true;
  adm_policy : check_config p (lc_device args) (lc_config_format args) (lc_config_text args) = Ok DecAllow;
  adm_payload : exists pl, payload req = Some pl /\ rollback_source req = None /\
    build_config_payload (lc_config_text args) (Some (lc_config_format args)) = Ok pl;
  adm_no_override : lc_mode args <> "override" /\ load_action req <> LoadOverride;
  adm_confirmed : mode req = match lc_confirm_timeout_mins args with
                             | Some 0%N => CommitWithComment (lc_commit_comment args)
                             | o => CommitConfirmed (default default_confirm_mins o * 60)
                             end
}.

Lemma then_check_inv {T U} (r : Result T JmcpError) (k : T -> Tool U) w o w' :
  act_then (check r) k w = (o, w') ->
  (exists e, r = Err e /\ o = Err (Failed e) /\ w' = w) \/ exists v, r = Ok v /\ k v w = (o, w').
Proof. destruct r as [v|e]; cbn; [by right; eexists|]. intros [= <- <-]. left. by eexists. Qed.

Lemma then_entry_inv {U} n (k : DeviceEntry -> Tool U) w o w' :
  act_then (device_entry n) k w = (o, w') ->
  (exists e, o = Err (Failed e) /\ w' = w) \/
  exists v, devices (inventory (w_backend w)) !! n = Some v /\ k v w = (o, w').
Proof.
  unfold device_entry. rewrite then_get. unfold get, ok_or.
  destruct (devices _ !! n) as [v|]; cbn; [by right; eexists|]. intros [= <- <-]. left. by eexists.
Qed.

Lemma plane_owned_inv tool d entry allow warning :
  check_plane_owned_operation tool d (config_authority entry) allow = Ok warning ->
  (own_device entry \/ allow = true) /\ (warning = None <-> own_device entry).
Proof.
  clear unicode_alphanumeric regex_new.
  unfold check_plane_owned_operation, own_device.
  destruct (config_authority entry), allow; intros H; simplify_eq; naive_solver.
Qed.

Lemma config_gate_ok p tool d f t : config_gate p tool d f t = Ok tt -> check_config p d f t = Ok DecAllow.
Proof. unfold config_gate. destruct (check_config p d f t) as [[]|]; cbn; by intros. Qed.

Lemma no_override tool m a f act :
  parse_load_mode (Some m) = Ok a -> refuse_override_outside_changeset tool a = Ok tt ->
  resolve_load_action f a = Ok act -> m <> "override" /\ act <> LoadOverride.
Proof.
  intros Hp Hr Ha. unfold refuse_override_outside_changeset in Hr. destruct (decide (a = LoadOverride)) as [|Hn]; [done|].
  split.
  - intros ->. cbn in Hp. by injection Hp as <-.
  - unfold resolve_load_action in Ha. destruct (String.eqb f "set"); [|congruence].
    by destruct a; simplify_eq.
Qed.

Lemma confirm_secs mins secs : confirm_timeout_to_secs mins = Ok secs -> secs = (mins * 60)%N.
Proof.
  unfold confirm_timeout_to_secs, u32_checked_mul. destruct (mins =? 0)%N; [done|].
  destruct (_ <=? _)%N; [|done]. by intros [= <-].
Qed.

Lemma commit_mode_spec confirm comment md cf :
  commit_mode default_confirm_mins confirm comment = Ok (md, cf) ->
  match confirm with
  | Some 0%N => md = CommitWithComment comment /\ cf = None
  | o => md = CommitConfirmed (default default_confirm_mins o * 60) /\
         cf = Some (default default_confirm_mins o)
  end.
Proof.
  unfold commit_mode, resolve_confirm_timeout. destruct confirm as [[|n]|].
  - by intros [= <- <-].
  - destruct (confirm_timeout_to_secs (N.pos n)) as [s|] eqn:Hs; [|done]. intros [= <- <-].
    by rewrite (confirm_secs _ _ Hs).
  - destruct (confirm_timeout_to_secs default_confirm_mins) as [s|] eqn:Hs; [|done]. intros [= <- <-].
    by rewrite (confirm_secs _ _ Hs).
Qed.

(** What the caller is told of the transaction's result. *)
Definition reported (args : LoadCommitArgs) (entry : DeviceEntry)
    (res : Result CandidateResult JmcpError) (r : Result Value ToolStop) : Prop :=
  match res with
  | Ok (ResCommitted d) => exists v, r = Ok v /\
      value_get "success" v = Some (Bool true) /\ value_get "diff" v = Some (Str d) /\
      value_get "rollback_in_minutes" v =
        match lc_confirm_timeout_mins args with
        | Some 0%N => None
        | o => Some (Number (Z.of_N (default default_confirm_mins o)))
        end /\
      (value_get "warning" v = None <-> own_device entry)
  | Ok (ResCommitFailed d e) => exists v, r = Ok v /\
      value_get "success" v = Some (Bool false) /\ value_get "error" v = Some (Str e) /\
      (value_get "warning" v = None <-> own_device entry)
  | Ok _ => False
  | Err e => r = Err (Failed e)
  end.

Lemma warning_none (warning : option string) entry :
  (warning = None <-> own_device entry) ->
  obj_get "warning" (warning_field warning) = None <-> own_device entry.
Proof. intros <-. by destruct warning. Qed.

(** C19: [load_and_commit_config] leaves everything as it was, with an error,
    unless every gate was passed: the text within the limit, the device known
    and not plane-owned (or the break-glass flag set), the policy allowing the
    text, and no override.  Then it runs exactly one candidate transaction, the
    one the arguments ask for, which is confirmed unless the caller opted out;
    and the reply says what that transaction did: success only for a commit,
    the rollback window exactly when there is one, and a warning exactly for a
    plane-owned device. *)
Theorem load_commit_admission args p allow w r w' :
  load_and_commit_config backend cleanup_timeout default_confirm_mins unix_now args p allow w = (r, w') ->
  (w' = w /\ is_ok r = false) \/
  exists entry req res, AllGatesPassed args p allow (w_backend w) entry req /\
    run backend (lc_device args) req (from_secs (lc_timeout args)) cleanup_timeout w = (res, w') /\
    reported args entry res r.
Proof.
  unfold load_and_commit_config. intros Hrun.
  apply then_check_inv in Hrun as [(e & _ & -> & ->)|([] & Hlen & Hrun)]; [by left|].
  apply then_entry_inv in Hrun as [(e & -> & ->)|(entry & Hent & Hrun)]; [by left|].
  apply then_check_inv in Hrun as [(e & _ & -> & ->)|(warning & Hw & Hrun)]; [by left|].
  apply then_check_inv in Hrun as [(e & _ & -> & ->)|([] & Hgate & Hrun)]; [by left|].
  apply then_check_inv in Hrun as [(e & _ & -> & ->)|(lm & Hlm & Hrun)]; [by left|].
  apply then_check_inv in Hrun as [(e & _ & -> & ->)|([] & Hov & Hrun)]; [by left|].
  apply then_check_inv in Hrun as [(e & _ & -> & ->)|(act & Hact & Hrun)]; [by left|].
  apply then_check_inv in Hrun as [(e & _ & -> & ->)|(pl & Hpl & Hrun)]; [by left|].
  apply then_check_inv in Hrun as [(e & _ & -> & ->)|([md cf] & Hmd & Hrun)]; [by left|].
  pose proof (plane_owned_inv _ _ _ _ _ Hw) as [Hplane Hwarn]. apply warning_none in Hwarn.
  unfold act_then, act_try, act_bind in Hrun. set (req := {| payload := Some pl |}) in Hrun.
  unfold ConfigTools.transact in Hrun. destruct (_ <? _)%N; [injection Hrun as <- <-; by left|].
  destruct (run _ _ _ _ _ w) as [res w1] eqn:Hres. right. exists entry, req, res.
  pose proof (commit_mode_spec _ _ _ _ Hmd) as Hc.
  split; [split; try done|].
  - unfold validate_input_length in Hlen. destruct (N.ltb_spec MAX_INPUT_LEN (len (lc_config_text args))); [done|lia].
  - by eapply config_gate_ok.
  - by exists pl.
  - by eapply no_override.
  - subst req. cbn [mode]. destruct (lc_confirm_timeout_mins args) as [[|n]|]; by destruct Hc.
  - assert (Hk : forall x, res = Ok x -> result_kind md x = true) by (intros x ->; by eapply run_kind in Hres).
    destruct res as [x|e]; cbn [map_err] in Hrun; [|by injection Hrun as <- <-].
    destruct (commit_mode_kind _ _ _ _ _ Hmd (Hk _ eq_refl)) as [[d ->]|(d & e & ->)];
      injection Hrun as <- <-; (split; [done|]); eexists; (split; [done|]); cbn.
    + split_and!; try done.
      * destruct (lc_confirm_timeout_mins args) as [[|n]|]; destruct Hc as [_ ->]; cbn; [by destruct warning|done|done].
      * destruct cf; cbn; [|done]. by destruct (is_empty (lc_commit_comment args)).
    + by split_and!.
Qed.

End tools.

(** ** One device owned by a management plane *)

Module DemoConfig.
Import Demo.
#[local] Existing Instance DemoEngine.engine.
#[local] Existing Instance DemoEngine.engine_fns.
#[local] Existing Instance DemoPool.lab_rustez.
#[local] Instance plain_json : JsonText := {|
  json_from_str s := if String.eqb s "{}" then Ok (Object []) else Err "not json";
  json_pretty _ := Ok "" |}.
#[local] Instance no_redaction : Redactor := {|
  redact_text s := s; redact_xml_str _ := None; redact_json_value v := v |}.
#[local] Instance verbatim : Minijinja := {|
  Tmpl := string; template_from_str := Ok; tmpl_render t _ := Ok t |}.

Definition inv (a : JunosAuthority) : Inventory := {|
  devices := {[ "r1" := {| ip := "10.0.0.1"; port := 22; username := "u"; auth := Password "x";
                           ssh_config := None; blocklist := None; config_authority := a |} ]};
  blocklist_defaults := None; source_path := "" |}.
Definition world (a : JunosAuthority) : World (DeviceManager (D := nat) (Net := DemoPool.Lab)) :=
  mk_world 0 None (mk_manager (inv a) "" [] false false tt pool_new
                     (DemoPool.mk_lab (fresh 1 true) 0 0 false)).
Definition pol : Policy := DemoEngine.built (inv AuthLocal).
Definition conf (l : DemoPool.Lab) : string := j_running (DemoPool.lab_junos l).
Definition running_after {T} (r : T * World (DeviceManager (D := nat) (Net := DemoPool.Lab))) : string :=
  conf (net (w_backend r.2)).

Definition load_args : LoadCommitArgs := {|
  lc_device := "r1"; lc_config_text := "set system host-name a"; lc_config_format := "set";
  lc_mode := "merge"; lc_commit_comment := "c"; lc_confirm_timeout_mins := None; lc_timeout := 60 |}.
Definition load a := load_and_commit_config DemoPool.lab_backend 30 10 (Some 1000%N) load_args pol false (world a).

Example load_commits :
  (map_result (value_get "rollback_deadline_unix") (load AuthLocal).1, running_after (load AuthLocal)) =
  (Ok (Some (Number 1600)), "set system host-name a").
Proof. vm_compute. reflexivity. Qed.
Example load_refuses_plane_owned :
  ((load AuthMist).1, running_after (load AuthMist)) =
  (Err (Failed (PlaneOwnedDevice "load_and_commit_config" "r1" "mist")), "old").
Proof. vm_compute. reflexivity. Qed.

Definition template_args (apply dry : bool) : TemplateArgs := {|
  template_content := "set system host-name a"; vars_content := "{}"; device_name := Some "r1";
  device_names := None; apply_config := apply; commit_comment := "c"; dry_run := dry;
  config_format := None; tp_mode := "merge"; confirm_timeout_mins := None; tp_timeout := 60 |}.
Definition template a apply dry :=
  render_and_apply_j2_template DemoPool.lab_backend 30 10 None (template_args apply dry) pol (world a).

(** The template tool has no such check: the device owned by Mist gets the same
    configuration, without a warning. *)
Example template_commits_to_plane_owned :
  (is_ok (template AuthMist true false).1, running_after (template AuthMist true false)) =
  (true, "set system host-name a").
Proof. vm_compute. reflexivity. Qed.

(** [dry_run] alone only renders: no device is asked for a diff. *)
Example dry_run_does_not_imply_apply :
  (template AuthLocal false true).1 =
  Ok (results [row (Str "r1") "set system host-name a" "set" []] false).
Proof. vm_compute. reflexivity. Qed.

Definition far : DiscardCandidateArgs := {| dc_device := "r1"; dc_timeout := U64_MAX |}.

Lemma lab_one_device : OneDevice DemoPool.lab_backend (L := DemoPool.lab_laws) conf.
Proof.
  split; [done| |done]. intros p l. cbn. unfold DemoPool.connect.
  by destruct (DemoPool.lab_failures l).
Defined.

Definition check_args : CommitCheckArgs := {|
  cc_device := "r1"; cc_config_text := "set system host-name a"; cc_config_format := "set";
  cc_timeout := 60 |}.
Lemma looking_never_changes_config_witness :
  running_after (commit_check_config DemoPool.lab_backend 30 check_args pol (world AuthLocal)) = "old".
Proof.
  exact (looking_never_changes_config DemoPool.lab_backend 30 10 None (L := DemoPool.lab_laws) conf
    lab_one_device _ (look_check _ _ _ _ check_args pol) (world AuthLocal)).
Defined.

Lemma load_commit_admission_witness :
  exists entry req res, AllGatesPassed 10 load_args pol false (w_backend (world AuthLocal)) entry req /\
    run DemoPool.lab_backend "r1" req (from_secs 60) 30 (world AuthLocal) = (res, (load AuthLocal).2) /\
    reported 10 load_args entry res (load AuthLocal).1.
Proof.
  destruct (load_commit_admission DemoPool.lab_backend 30 10 (Some 1000%N) load_args pol false
    (world AuthLocal) _ _ (surjective_pairing _)) as [[_ H]|H]; [|exact H].
  exfalso. revert H. vm_compute. discriminate.
Defined.

End DemoConfig.
