(* ===== verification/CommandTools.v ===== *)
(** * The command tools ([tools/execute_command.rs], [pfe.rs], [facts.rs], [router_list.rs])

    One operational command, one PFE command or the facts of one device, after
    the checks of the arguments, the device and the command policy, within the
    caller's timeout.  Its properties follow. *)

From S2P Require Import Prelude RustStr Fmt Errors Helpers Inventory Policy Output Async JsonValue.
From S2P Require Import Async CandidateTransaction DeviceManager ConfigTools.
From S2P Require Import CandidateSpec DeviceManagerSpec ConfigToolsSpec.
From Stdlib Require Import Ascii.

Record ExecuteCommandArgs := {
  ec_device : string; ec_command : string; ec_timeout : N;
  ec_max_lines : option N; ec_max_bytes : option N; ec_tail : bool
}.
Record ExecutePfeArgs := {
  pf_device : string; pf_fpc_target : string; pf_command : string; pf_timeout : N;
  pf_max_lines : option N; pf_max_bytes : option N; pf_tail : bool
}.
Record GatherFactsArgs := { gf_device : string; gf_timeout : N }.

(** [rustez]'s facts, and their serialisation. *)
Class DeviceFacts {X : External} (D Net : Type) := {
  Facts : Type;
  device_facts : D -> Future Net Facts RustEzError;
  facts_to_value : Facts -> Result Value JsonError
}.

Section tools.
Context {X : External} {P : PolicyEngine} {PF : PolicyFns}.
Context {D Net : Type} {RC : RustezClient D Net} {DF : DeviceFacts D Net}.
Context (regex_new : string -> option (string -> bool)).

#[local] Abbreviation Tool := (Tool (D := D) (Net := Net)).

Definition execute_junos_command (args : ExecuteCommandArgs) (p : Policy) : Tool Value :=
  let device := ec_device args in
  let! _ := check (validate_input_length "command" (ec_command args)) in
  let! _ := check (validate_output_caps (ec_max_lines args) (ec_max_bytes args)) in
  let! _ := device_entry device in
  let! _ := check (enforce_decision (check_command p device (ec_command args))
                     "execute_junos_command" device (ec_command args)) in
  let! result := within (from_secs (ec_timeout args)) (fun now => run_cli now device (ec_command args)) in
  act_ret (Ok (Str (process_output regex_new (ec_command args) result (ec_max_lines args)
                      (ec_max_bytes args) (ec_tail args)))).

(** [char::is_ascii_alphanumeric] or a dash or an underscore; a byte of any
    other character fails it. *)
Definition fpc_char (c : ascii) : bool :=
  is_ascii_alphanumeric c || Ascii.eqb c "-"%char || Ascii.eqb c "_"%char.

Definition pfe_wrapper (fpc_target pfe_command : string) : string :=
  "request pfe execute target " ^^ fpc_target ^^ " command " ^^ dquote ^^ pfe_command ^^ dquote.

Definition execute_junos_pfe_command (args : ExecutePfeArgs) (p : Policy) : Tool Value :=
  let device := pf_device args in
  let! _ := check (validate_input_length "pfe_command" (pf_command args)) in
  let! _ := check (validate_output_caps (pf_max_lines args) (pf_max_bytes args)) in
  let! _ := check (if has_byte DQ (pf_command args) then
                     Err (BadPfeCommand ("literal '" ^^ dquote ^^ "' is not allowed (would break the wrapper command)"))
                   else Ok tt) in
  let! _ := check (if negb (str_forall fpc_char (pf_fpc_target args)) then
                     Err (BadPfeCommand "fpc_target contains invalid characters")
                   else Ok tt) in
  let! _ := device_entry device in
  let! _ := check (enforce_decision (check_pfe_command p device (pf_command args))
                     "execute_junos_pfe_command" device (pf_command args)) in
  let! result := within (from_secs (pf_timeout args))
    (cli_once device (pfe_wrapper (pf_fpc_target args) (pf_command args)) Rustez) in
  act_ret (Ok (Object [("fpc_target", Str (pf_fpc_target args));
    ("output", Str (process_output regex_new (pf_command args) result (pf_max_lines args)
                      (pf_max_bytes args) (pf_tail args)))])).

Definition facts_once (device : string) (now : N)
  : Future (DeviceManager (D := D) (Net := Net)) Value JmcpError :=
  fut_try (fun e => e) (open now device) (fun g =>
    match dev g with
    | None => fut_ret (Err (Validation "PooledDevice used after drop"))
    | Some d =>
        fut_bind (fut_guarded g (fut_net (device_facts d))) (fun r =>
          fut_drop g (let? facts := map_err Rustez r in map_err Json (facts_to_value facts)))
    end).

Definition gather_device_facts (args : GatherFactsArgs) : Tool Value :=
  within (from_secs (gf_timeout args)) (facts_once (gf_device args)).

Definition router_list_names (ns : list string) : Tool Value :=
  act_ret (Ok (Array (map Str ns))).
Definition get_router_list (inv : Inventory) : Tool Value := router_list_names (names inv).

End tools.

(** ** What the command tools promise

    A command reaches a device only after the policy allowed it for that device;
    and what a PFE command looks like to the device is what was checked. *)

(** ** The PFE wrapper *)

Definition has_space (s : string) : bool := has_byte SP s.

Lemma fpc_no_space t : str_forall fpc_char t = true -> has_space t = false.
Proof.
  unfold has_space, has_byte. induction t as [|c t IH]; [done|]. cbn [str_forall].
  rewrite andb_true_iff. intros [Hc Ht]. fold (has_byte SP (String c t)). rewrite has_byte_cons.
  rewrite (IH Ht : has_byte SP t = false). destruct (Ascii.eqb_spec SP c) as [<-|]; [by vm_compute in Hc|done].
Qed.

Lemma split_at_first d a b a' b' :
  has_byte d a = false -> has_byte d a' = false ->
  a ^^ String d b = a' ^^ String d b' -> a = a' /\ b = b'.
Proof.
  revert a'; induction a as [|c a IH]; intros [|c' a'] Ha Ha' H; cbn in H.
  - by injection H as ->.
  - injection H as <- _. by rewrite has_byte_cons, Ascii.eqb_refl in Ha'.
  - injection H as -> _. by rewrite has_byte_cons, Ascii.eqb_refl in Ha.
  - injection H as -> H. rewrite has_byte_cons in Ha, Ha'.
    apply orb_false_iff in Ha as [_ Ha], Ha' as [_ Ha'].
    destruct (IH a' Ha Ha' H) as [-> ->]. done.
Qed.

(** The command line sent for a PFE command says what was asked: for targets
    and commands the tool accepts, two different requests are never the same
    line, and the line's only quotes are the two around the command, so neither
    part can reach into the other. *)
Lemma pfe_wrapper_unambiguous t c t' c'
    (Ht : str_forall fpc_char t = true) (Ht' : str_forall fpc_char t' = true)
    (Hc : has_byte DQ c = false) (Hc' : has_byte DQ c' = false) :
  pfe_wrapper t c = pfe_wrapper t' c' -> t = t' /\ c = c'.
Proof.
  unfold pfe_wrapper. intros H. cbn in H. repeat (injection H as H).
  apply split_at_first in H as [-> H]; try by apply fpc_no_space.
  split; [done|]. cbn in H. injection H as H.
  by apply (split_at_first DQ c "" c' "") in H as [-> _].
Qed.
Lemma pfe_wrapper_unambiguous_witness : "fpc0" = "fpc0" /\ "show threads" = "show threads".
Proof. apply pfe_wrapper_unambiguous; reflexivity. Defined.

(** ** Admission *)

Section tools.
Context {X : External} {P : PolicyEngine} {PF : PolicyFns}.
Context {D Net : Type} {RC : RustezClient D Net}.
Context (regex_new : string -> option (string -> bool)).

#[local] Abbreviation Tool := (Tool (D := D) (Net := Net)).
#[local] Abbreviation W := (World (DeviceManager (D := D) (Net := Net))).

Lemma check_refuses {T U} (r : Result T JmcpError) (k : T -> Tool U) w :
  is_ok r = false -> (act_then (check r) k w).2 = w.
Proof. by destruct r. Qed.

(** Nothing is sent to a device: the whole state is as it was. *)
Definition untouched {T} (t : Tool T) (w : W) : Prop := (t w).2 = w /\ is_ok (t w).1 = false.

Lemma untouched_check {T U} (r : Result T JmcpError) (k : T -> Tool U) w :
  is_ok r = false \/ (forall v, r = Ok v -> untouched (k v) w) -> untouched (act_then (check r) k) w.
Proof. destruct r as [v|e]; intros [H|H]; try done. by apply (H v). Qed.
Lemma untouched_entry {U} n (k : DeviceEntry -> Tool U) w :
  (forall v, devices (inventory (w_backend w)) !! n = Some v -> untouched (k v) w) ->
  untouched (act_then (device_entry n) k) w.
Proof.
  intros H. unfold untouched, device_entry. rewrite then_get. unfold get, ok_or.
  destruct (devices _ !! n) as [v|]; cbn; [by apply H|done].
Qed.


End tools.
