(* ===== verification/Batch.v ===== *)
(** * Commands on many devices ([tools/batch.rs])

    Every device is a task of its own: it waits for one of
    [max_concurrent_devices] permits, opens a session and runs the commands in
    order.  The tasks run concurrently, with each other and with the rest of the
    server, so a batch is a step relation: [Step] is one task passing one of its
    awaits, the collector taking one finished task, or anything else changing
    the shared manager.  [BatchRun] is a whole call.  Its properties follow. *)

From S2P Require Import Prelude RustStr Fmt Errors Helpers Inventory Policy Output Async JsonValue.
From S2P Require Import CandidateTransaction DeviceManager.
From S2P Require Import CandidateSpec DeviceManagerSpec.

Record ExecuteBatchArgs := {
  b_devices : list string; b_commands : list string; command_timeout : N;
  batch_timeout : option N; max_concurrent_devices : N;
  b_max_lines : option N; b_max_bytes : option N; b_tail : bool
}.

Record CommandOutcome := {
  command : string; ok : bool; value : option string; error : option string
}.
Record RouterResult := { router : string; outcomes : list CommandOutcome }.

Definition succeeded (c out : string) : CommandOutcome :=
  {| command := c; ok := true; value := Some out; error := None |}.
Definition failed (msg c : string) : CommandOutcome :=
  {| command := c; ok := false; value := None; error := Some msg |}.
(** The row of a device none of whose commands ran. *)
Definition failed_row (device msg : string) (commands : list string) : RouterResult :=
  {| router := device; outcomes := map (failed msg) commands |}.

(** [#[derive(Serialize)]] *)
Definition outcome_value (o : CommandOutcome) : Value :=
  Object ([("command", Str (command o)); ("ok", Bool (ok o))]
          ++ opt_field "value" (option_map Str (value o))
          ++ opt_field "error" (option_map Str (error o))).
Definition row_value (r : RouterResult) : Value :=
  Object [("router", Str (router r)); ("commands", Array (map outcome_value (outcomes r)))].

Section batch.
Context {X : External} {P : PolicyEngine} {PF : PolicyFns}.
Context {D Net : Type} {RC : RustezClient D Net}.
Context (regex_new : string -> option (string -> bool)).

#[local] Abbreviation DeviceManager := (DeviceManager (D := D) (Net := Net)).

Definition invalid {T} (msg : string) : Result T JmcpError :=
  Err (InventoryInvalid ("execute_junos_command_batch: " ^^ msg)).

Definition check_sizes (args : ExecuteBatchArgs) : Result unit JmcpError :=
  let? _ := validate_output_caps (b_max_lines args) (b_max_bytes args) in
  match b_devices args, b_commands args with
  | [], _ => invalid "devices must be non-empty"
  | _, [] => invalid "commands must be non-empty"
  | ds, cs =>
      if (max_concurrent_devices args =? 0)%N then invalid "max_concurrent_devices must be > 0"
      else if (100 <? N.of_nat (length ds))%N then invalid "devices list exceeds maximum of 100"
      else if (50 <? N.of_nat (length cs))%N then invalid "commands list exceeds maximum of 50"
      else Ok tt
  end.

Definition known (inv : Inventory) (device : string) : bool := is_ok (Inventory.get inv device).

(** Pre-flight 1: the rows of the devices that are not in the inventory. *)
Definition preflight_results (args : ExecuteBatchArgs) (inv : Inventory)
  : list (option RouterResult) :=
  map (fun d => if known inv d then None
                else Some (failed_row d ("device '" ^^ d ^^ "' not found in device mapping")
                             (b_commands args)))
      (b_devices args).

(** Pre-flight 2: every known device with every command. *)
Fixpoint enforce_commands (p : Policy) (device : string) (cs : list string) : Result unit JmcpError :=
  match cs with
  | [] => Ok tt
  | c :: cs =>
      let? _ := enforce_decision (check_command p device c) "execute_junos_command_batch" device c in
      enforce_commands p device cs
  end.
Fixpoint enforce_all (p : Policy) (inv : Inventory) (ds cs : list string) : Result unit JmcpError :=
  match ds with
  | [] => Ok tt
  | d :: ds =>
      let? _ := if known inv d then enforce_commands p d cs else Ok tt in
      enforce_all p inv ds cs
  end.

Definition preflight (args : ExecuteBatchArgs) (p : Policy) (inv : Inventory)
  : Result (list (option RouterResult)) JmcpError :=
  let? _ := check_sizes args in
  let? _ := enforce_all p inv (b_devices args) (b_commands args) in
  Ok (preflight_results args inv).

(** ** The tasks *)

(** Where a task is: waiting for a permit; between two commands, with its
    session, what it has so far and what is left; done; taken by the collector;
    or aborted. *)
Inductive TaskState :=
  | Queued
  | Running (session : PooledDevice D) (outs : list CommandOutcome) (rest : list string)
  | Finished (rr : RouterResult)
  | Joined
  | Aborted.

Definition holds_permit (t : TaskState) : bool :=
  match t with Running _ _ _ => true | _ => false end.

(** The tasks and the results, by the device's index, and the manager.  A device
    that is not known has no task. *)
Record Batch := mk_batch {
  tasks : list (option TaskState);
  results : list (option RouterResult);
  manager : DeviceManager
}.

Definition holder (t : option TaskState) : bool :=
  match t with Some t => holds_permit t | None => false end.
Definition permits_used (b : Batch) : nat := length (List.filter holder (tasks b)).

Definition set_task (i : nat) (t : TaskState) (m : DeviceManager) (b : Batch) : Batch :=
  mk_batch (<[i := Some t]> (tasks b)) (results b) m.

Definition start_batch (args : ExecuteBatchArgs) (pre : list (option RouterResult))
    (m : DeviceManager) : Batch :=
  mk_batch (map (fun r => match r with None => Some Queued | Some _ => None end) pre) pre m.

(** [runner.open(&device_name).await] *)
Definition open_session (args : ExecuteBatchArgs) (device : string) (now : N) (m : DeviceManager)
  : TaskState * DeviceManager :=
  let r := open now device m in
  (match rpc_result r with
   | Ok session => Running session [] (b_commands args)
   | Err e => Finished (failed_row device ("connect failed: " ^^ to_string e) (b_commands args))
   end, rpc_state r).

(** [timeout(cmd_timeout, session.cli(cmd)).await] *)
Definition run_command (args : ExecuteBatchArgs) (session : PooledDevice D) (c : string)
    (m : DeviceManager) : CommandOutcome * DeviceManager :=
  match dev session with
  | None => (failed "transport error: PooledDevice used after drop" c, m)
  | Some d =>
      let limit := from_secs (command_timeout args) in
      let r := fut_net (device_cli d c) m in
      if (rpc_time r <=? limit)%N then
        (match rpc_result r with
         | Ok out => succeeded c out
         | Err e => failed ("transport error: " ^^ to_string (Rustez e)) c
         end, rpc_state r)
      else (failed "command timeout" c, rpc_dropped r limit)
  end.

(** A guard is dropped with its task. *)
Definition drop_session (t : option TaskState) (m : DeviceManager) : DeviceManager :=
  match t with Some (Running session _ _) => drop_now session m | _ => m end.
Definition abort (t : option TaskState) : option TaskState :=
  match t with
  | Some Joined => Some Joined
  | Some _ => Some Aborted
  | None => None
  end.

(** One task passing one of its awaits, or the collector taking a finished one. *)
Inductive TaskStep (args : ExecuteBatchArgs) : Batch -> Batch -> Prop :=
  | step_open i d now b t m' :
      tasks b !! i = Some (Some Queued) -> b_devices args !! i = Some d ->
      (N.of_nat (permits_used b) < max_concurrent_devices args)%N ->
      open_session args d now (manager b) = (t, m') ->
      TaskStep args b (set_task i t m' b)
  | step_command i session outs c rest b o m' :
      tasks b !! i = Some (Some (Running session outs (c :: rest))) ->
      run_command args session c (manager b) = (o, m') ->
      TaskStep args b (set_task i (Running session (outs ++ [o]) rest) m' b)
  | step_finish i d session outs b :
      tasks b !! i = Some (Some (Running session outs [])) -> b_devices args !! i = Some d ->
      TaskStep args b (set_task i (Finished {| router := d; outcomes := outs |})
                     (drop_now session (manager b)) b)
  | step_join i rr b :
      tasks b !! i = Some (Some (Finished rr)) ->
      TaskStep args b (mk_batch (<[i := Some Joined]> (tasks b)) (<[i := Some rr]> (results b)) (manager b)).

Inductive Step (args : ExecuteBatchArgs) : Batch -> Batch -> Prop :=
  | step_task b b' : TaskStep args b b' -> Step args b b'
  | step_timeout limit b :
      batch_timeout args = Some limit ->
      Step args b (mk_batch (map abort (tasks b)) (results b) (foldr drop_session (manager b) (tasks b)))
  | step_others b m' :
      Step args b (mk_batch (tasks b) (results b) m').

(** The collector returns when every task has been joined, or when the batch
    timed out. *)
Definition settled (t : option TaskState) : bool :=
  match t with None | Some Joined | Some Aborted => true | _ => false end.
Definition ended (b : Batch) : bool := forallb settled (tasks b).

(** ** The reply *)

Definition final_row (args : ExecuteBatchArgs) (device : string) (r : option RouterResult)
  : RouterResult :=
  default (failed_row device "batch timeout" (b_commands args)) r.

Definition post_process (args : ExecuteBatchArgs) (o : CommandOutcome) : CommandOutcome :=
  {| command := command o; ok := ok o;
     value := option_map (fun v => process_output regex_new (command o) v (b_max_lines args)
                                     (b_max_bytes args) (b_tail args)) (value o);
     error := error o |}.
Definition process_row (args : ExecuteBatchArgs) (r : RouterResult) : RouterResult :=
  {| router := router r; outcomes := map (post_process args) (outcomes r) |}.

Definition final_results (args : ExecuteBatchArgs) (b : Batch) : list RouterResult :=
  map (process_row args) (zip_with (final_row args) (b_devices args) (results b)).

Inductive BatchRun (args : ExecuteBatchArgs) (p : Policy) (m : DeviceManager)
  : Result Value JmcpError -> DeviceManager -> Prop :=
  | run_refused e :
      preflight args p (inventory m) = Err e -> BatchRun args p m (Err e) m
  | run_ended pre b :
      preflight args p (inventory m) = Ok pre ->
      rtc (Step args) (start_batch args pre m) b -> ended b = true ->
      BatchRun args p m (Ok (Array (map row_value (final_results args b)))) (manager b).

End batch.

(** ** What a batch promises

    However its tasks interleave, a batch answers with one row per device, in
    the order asked, each with one outcome per command, in the order asked; it
    never has more sessions open than it has permits; and it always ends. *)

Section batch.
Context {X : External} {P : PolicyEngine} {PF : PolicyFns}.
Context {D Net : Type} {RC : RustezClient D Net}.
Context (regex_new : string -> option (string -> bool)).
#[local] Abbreviation TaskState := (TaskState (D := D)).
Implicit Types (args : ExecuteBatchArgs) (b : Batch (D := D) (Net := Net)).

(** ** Rows *)

Definition well_formed (o : CommandOutcome) : Prop :=
  if ok o then is_Some (value o) /\ error o = None else value o = None /\ is_Some (error o).
Definition complete args (d : string) (r : RouterResult) : Prop :=
  router r = d /\ map command (outcomes r) = b_commands args /\ Forall well_formed (outcomes r).

Lemma failed_row_complete args d msg : complete args d (failed_row d msg (b_commands args)).
Proof.
  split; [done|]. split; cbn.
  - rewrite map_map. apply map_id.
  - apply list.Forall_forall. intros o (c & -> & _)%list_elem_of_fmap. by split; [|eexists].
Qed.

Lemma process_row_complete args d r :
  complete args d r -> complete args d (process_row regex_new args r).
Proof.
  intros (H1 & H2 & H3). split; [done|]. cbn. split; [by rewrite map_map|].
  apply list.Forall_fmap. eapply list.Forall_impl; [exact H3|]. intros o Ho.
  unfold well_formed in *. cbn. destruct (ok o), (value o); cbn; naive_solver.
Qed.

Lemma run_command_well_formed args s c (m : DeviceManager) o m' :
  run_command args s c m = (o, m') -> command o = c /\ well_formed o.
Proof.
  unfold run_command. destruct (dev s) as [d|]; [|by intros [= <- _]].
  destruct (_ <=? _)%N; [|by intros [= <- _]].
  destruct (rpc_result _); by intros [= <- _].
Qed.

(** What the task of the device [d] and its slot of the results hold. *)
Definition slot_ok args (d : string) (t : option TaskState) (r : option RouterResult) : Prop :=
  match t with
  | None | Some Joined => exists rr, r = Some rr /\ complete args d rr
  | Some Queued | Some Aborted => r = None
  | Some (Running _ outs rest) =>
      r = None /\ map command outs ++ rest = b_commands args /\ Forall well_formed outs
  | Some (Finished rr) => r = None /\ complete args d rr
  end.

Definition Inv args b : Prop :=
  length (tasks b) = length (b_devices args) /\ length (results b) = length (b_devices args) /\
  forall i d t r, b_devices args !! i = Some d -> tasks b !! i = Some t -> results b !! i = Some r ->
    slot_ok args d t r.

Lemma inv_set args b i d t t' r' m :
  Inv args b -> tasks b !! i = Some t -> b_devices args !! i = Some d ->
  (forall r, results b !! i = Some r -> slot_ok args d t r -> slot_ok args d t' (r' r)) ->
  Inv args (mk_batch (<[i := t']> (tasks b)) (alter r' i (results b)) m).
Proof.
  intros (L1 & L2 & H) Ht Hd Hs. split; [|split]; cbn [tasks results].
  1,2: by rewrite ?length_insert, ?length_alter.
  intros j dj tj rj Hdj Htj Hrj. destruct (decide (i = j)) as [<-|Hne].
  - rewrite list_lookup_insert_eq in Htj by (by eapply lookup_lt_Some). injection Htj as <-.
    rewrite list_lookup_alter_eq in Hrj. destruct (results b !! i) as [r|] eqn:Hr; [|done].
    injection Hrj as <-. assert (dj = d) as -> by congruence. apply Hs; [done|]. by eapply H.
  - rewrite list_lookup_insert_ne in Htj by done. rewrite list_lookup_alter_ne in Hrj by done.
    by eapply H.
Qed.

Lemma alter_id_list {A} i (l : list A) : alter (fun x => x) i l = l.
Proof. revert i; induction l as [|x l IH]; intros [|i]; cbn; try done. by f_equal. Qed.

Lemma inv_task args b i d t t' m :
  Inv args b -> tasks b !! i = Some (Some t) -> b_devices args !! i = Some d ->
  (forall r, slot_ok args d (Some t) r -> slot_ok args d (Some t') r) ->
  Inv args (set_task i t' m b).
Proof.
  intros HI Ht Hd Hs. unfold set_task. rewrite <- (alter_id_list i (results b)).
  eapply inv_set; [done..|]. intros r _. apply Hs.
Qed.

Lemma insert_as_alter {A} i (x : A) (l : list A) : <[i := x]> l = alter (fun _ => x) i l.
Proof. revert i; induction l as [|y l IH]; intros [|i]; cbn; try done. by f_equal. Qed.

Lemma known_device args b i t : Inv args b -> tasks b !! i = Some t -> exists d, b_devices args !! i = Some d.
Proof.
  intros (L1 & _ & _) Ht. apply lookup_lt_Some in Ht. rewrite L1 in Ht. by apply lookup_lt_is_Some.
Qed.

Lemma inv_task_step args b b' : Inv args b -> TaskStep args b b' -> Inv args b'.
Proof.
  intros HI Hs. revert HI.
  destruct Hs as [i d now b t m' Ht Hd _ Ho|i s outs c rest b o m' Ht Hr|i d s outs b Ht Hd|i rr b Ht];
    intros HI.
  - eapply inv_task; [done..|]. intros r Hn. injection Ho as <- _.
    destruct (rpc_result _); cbn in *; [done|]. split; [done|apply failed_row_complete].
  - destruct (known_device _ _ _ _ HI Ht) as [d Hd]. eapply inv_task; [done..|].
    intros r (Hn & Hc & Hw). apply run_command_well_formed in Hr as [Hc' Hw']. cbn.
    split; [done|]. rewrite map_app, <- app_assoc. cbn. rewrite Hc'. split; [done|].
    by apply Forall_app_2; [|apply list.Forall_singleton].
  - eapply inv_task; [done..|]. intros r (Hn & Hc & Hw). rewrite app_nil_r in Hc. done.
  - destruct (known_device _ _ _ _ HI Ht) as [d Hd]. rewrite (insert_as_alter i (Some rr)).
    eapply inv_set; [done..|]. intros r _ (_ & Hc). by exists rr.
Qed.

Lemma inv_step args b b' : Inv args b -> Step args b b' -> Inv args b'.
Proof.
  intros HI Hs. revert HI. destruct Hs as [b1 b2 Ht|limit b0 _|b0 m']; intros HI;
    [by eapply inv_task_step| |done].
  destruct HI as (L1 & L2 & H). split; [by cbn; rewrite length_map|]. split; [done|].
  intros i d t r Hd Ht Hr. cbn in Ht, Hr. rewrite list_lookup_fmap in Ht.
  destruct (tasks b0 !! i) as [t0|] eqn:E; [|done]. injection Ht as <-.
  specialize (H i d t0 r Hd E Hr). destruct t0 as [[]|]; cbn in *; naive_solver.
Qed.

Lemma inv_start args (p : Policy) (m : DeviceManager) pre :
  preflight args p (inventory m) = Ok pre -> Inv args (start_batch args pre m).
Proof.
  unfold preflight. destruct (check_sizes args); [|done]. destruct (enforce_all _ _ _ _); [|done].
  intros [= <-]. unfold start_batch, preflight_results. split; [|split]; cbn [tasks results].
  1,2: by rewrite ?length_map.
  intros i' d t' r Hd Ht Hr. rewrite !list_lookup_fmap, Hd in Ht. rewrite list_lookup_fmap, Hd in Hr.
  injection Hr as <-. injection Ht as <-. destruct (known _ d); [done|].
  eexists. split; [done|apply failed_row_complete].
Qed.

Lemma inv_steps args b b' : Inv args b -> rtc (Step args) b b' -> Inv args b'.
Proof. intros H Hr. revert H. induction Hr as [|b1 b2 b3 Hs _ IH]; [done|]. intros H. by eapply IH, inv_step. Qed.

(** Every pair the policy was asked about was allowed. *)
Definition all_allowed args (p : Policy) (inv : Inventory) : Prop :=
  forall d c, d ∈ b_devices args -> c ∈ b_commands args -> known inv d = true ->
    enforce_decision (check_command p d c) "execute_junos_command_batch" d c = Ok tt.

Lemma enforce_commands_ok p d cs :
  enforce_commands p d cs = Ok tt ->
  forall c, c ∈ cs -> enforce_decision (check_command p d c) "execute_junos_command_batch" d c = Ok tt.
Proof.
  induction cs as [|c0 cs IH]; cbn [enforce_commands]; [by intros _ c ?%not_elem_of_nil|].
  destruct (enforce_decision _ _ _ _) as [[]|] eqn:E; [|done].
  intros H c [->|Hc]%elem_of_cons; [done|]. by apply IH.
Qed.

Lemma enforce_all_ok args p inv ds :
  enforce_all p inv ds (b_commands args) = Ok tt ->
  forall d c, d ∈ ds -> c ∈ b_commands args -> known inv d = true ->
    enforce_decision (check_command p d c) "execute_junos_command_batch" d c = Ok tt.
Proof.
  induction ds as [|d0 ds IH]; cbn [enforce_all]; [by intros _ d c ?%not_elem_of_nil|].
  destruct (if known inv d0 then _ else _) as [[]|] eqn:E; [|done].
  intros H d c [->|Hd]%elem_of_cons Hc Hk; [|by apply IH].
  rewrite Hk in E. by eapply enforce_commands_ok.
Qed.

Lemma final_results_ok args b :
  Inv args b -> Forall2 (complete args) (b_devices args) (final_results regex_new args b).
Proof.
  intros (L1 & L2 & H). unfold final_results. apply Forall2_fmap_r, Forall2_same_length_lookup_2.
  { rewrite length_zip_with. lia. }
  intros i d rr Hd Hz. apply lookup_zip_with_Some in Hz as (d' & r & -> & Hd' & Hr).
  assert (d' = d) as -> by congruence. apply process_row_complete. unfold final_row.
  destruct r as [rr|]; [|apply failed_row_complete]. cbn.
  destruct (tasks b !! i) as [t|] eqn:Ht.
  - specialize (H i d t (Some rr) Hd Ht Hr). destruct t as [[]|]; cbn in H; naive_solver.
  - exfalso. apply lookup_ge_None in Ht. apply lookup_lt_Some in Hd. lia.
Qed.

(** A batch is strict, and its reply does not depend on the schedule's
    order.  It is refused outright, touching nothing, unless the policy allows
    every command on every known device; otherwise, however the tasks interleave
    and whenever it times out, it answers with one row per requested device, in
    the order requested (repeated and unknown devices included), each with one
    outcome per command in the order requested, and each outcome either has
    output or an error. *)
Theorem batch_rows args p (m : DeviceManager) r m' :
  BatchRun regex_new args p m r m' ->
  match r with
  | Err _ => m' = m
  | Ok v => all_allowed args p (inventory m) /\
      exists rows, v = Array (map row_value rows) /\ Forall2 (complete args) (b_devices args) rows
  end.
Proof.
  intros [e _|pre b Hp Hs He]; [done|]. split.
  - unfold preflight in Hp. destruct (check_sizes args); [|done].
    destruct (enforce_all _ _ _ _) as [[]|] eqn:E; [|done]. intros d c Hd Hc Hk.
    by eapply enforce_all_ok.
  - eexists. split; [done|]. apply final_results_ok. eapply inv_steps; [|done]. by eapply inv_start.
Qed.

(** ** Permits *)

Lemma holders_insert i t t' (l : list (option TaskState)) :
  l !! i = Some t ->
  (length (List.filter holder (<[i := t']> l)) + Nat.b2n (holder t) =
   length (List.filter holder l) + Nat.b2n (holder t'))%nat.
Proof.
  revert i; induction l as [|x l IH]; intros [|i] H; cbn in H; [done..| |].
  - injection H as ->. cbn [insert list_insert List.filter].
    destruct (holder t), (holder t'); cbn [length Nat.b2n]; lia.
  - specialize (IH i H). cbn [insert list_insert List.filter]. destruct (holder x); [exact (f_equal S IH)|exact IH].
Qed.

Lemma no_holders_aborted (l : list (option TaskState)) : List.filter holder (map abort l) = [].
Proof. induction l as [|[[]|] l IH]; done. Qed.

Definition within_permits args b : Prop := (N.of_nat (permits_used b) <= max_concurrent_devices args)%N.

Lemma permits_step args b b' : within_permits args b -> Step args b b' -> within_permits args b'.
Proof.
  unfold within_permits. intros HI Hs. revert HI. destruct Hs as [b b' Hs|l b _|b m']; intros HI.
  - revert HI. destruct Hs as [i d now b t m' Ht _ Hfree Ho|i s outs c rest b o m' Ht _|i d s outs b Ht _|i rr b Ht];
      intros HI; unfold permits_used, set_task in *; cbn [tasks];
      match goal with |- context [<[i := ?t']> _] =>
        pose proof (holders_insert i _ t' _ Ht) as Hc; cbn [holder holds_permit Nat.b2n] in Hc end;
      [|lia..].
    destruct (holds_permit t); cbn [Nat.b2n] in Hc; lia.
  - unfold permits_used. cbn [tasks]. rewrite no_holders_aborted. cbn. lia.
  - done.
Qed.

(** Whatever the schedule, a batch never holds more device sessions open
    than [max_concurrent_devices]. *)
Theorem batch_within_permits args p (m : DeviceManager) pre b :
  preflight args p (inventory m) = Ok pre -> rtc (Step args) (start_batch args pre m) b ->
  within_permits args b.
Proof.
  intros _ Hr. assert (H0 : within_permits args (start_batch args pre m)).
  { unfold within_permits, permits_used, start_batch. cbn [tasks].
    assert (List.filter holder (map (fun r : option RouterResult =>
      match r with None => Some (Queued (D := D)) | Some _ => None end) pre) = []) as ->.
    { clear Hr. by induction pre as [|[] pre IH]. }
    cbn. lia. }
  revert H0. induction Hr as [|b1 b2 b3 Hs _ IH]; [done|]. intros H. by eapply IH, permits_step.
Qed.

(** ** Termination *)

(** The awaits a task still has before it. *)
Definition task_work args (t : option TaskState) : nat :=
  match t with
  | Some Queued => 3 + length (b_commands args)
  | Some (Running _ _ rest) => 2 + length rest
  | Some (Finished _) => 1
  | _ => 0
  end.
Definition work args b : nat := list_sum (map (task_work args) (tasks b)).

Lemma list_sum_insert {A} (f : A -> nat) i x y (l : list A) :
  l !! i = Some x -> (list_sum (map f (<[i := y]> l)) + f x = list_sum (map f l) + f y)%nat.
Proof.
  revert i; induction l as [|z l IH]; intros [|i] H; cbn in H; [done..| |].
  - injection H as ->. cbn. lia.
  - specialize (IH i H). change (f z + list_sum (map f (<[i := y]> l)) + f x = f z + list_sum (map f l) + f y)%nat.
    lia.
Qed.

Lemma task_step_work args b b' : TaskStep args b b' -> (work args b' < work args b)%nat.
Proof.
  intros [i d now b0 t m' Ht _ _ Ho|i s outs c rest b0 o m' Ht _|i d s outs b0 Ht _|i rr b0 Ht];
    unfold work, set_task; cbn [tasks];
    match goal with |- context [<[i := ?t']> _] =>
      pose proof (list_sum_insert (task_work args) i _ t' _ Ht) as Hw; cbn in Hw end; [|lia..].
  injection Ho as <- _. destruct (rpc_result _); cbn in Hw; lia.
Qed.

Lemma abort_work args (l : list (option TaskState)) :
  (list_sum (map (task_work args) (map abort l)) <= list_sum (map (task_work args) l))%nat.
Proof.
  induction l as [|t l IH]; [done|]. apply Nat.add_le_mono; [|exact IH]. destruct t as [[]|]; cbn; lia.
Qed.

Lemma unsettled_task (l : list (option TaskState)) :
  forallb settled l = false -> exists i t, l !! i = Some t /\ settled t = false.
Proof.
  induction l as [|t l IH]; cbn; [done|]. destruct (settled t) eqn:Ht.
  - intros (i & t' & Hi & Hs)%IH. by exists (S i), t'.
  - intros _. by exists 0%nat, t.
Qed.

Lemma holder_exists (l : list (option TaskState)) :
  (0 < length (List.filter holder l))%nat -> exists i s outs rest, l !! i = Some (Some (Running s outs rest)).
Proof.
  induction l as [|t l IH]; cbn; [lia|]. destruct (holder t) eqn:Ht.
  - intros _. destruct t as [[]|]; try done. by exists 0%nat, session, outs, rest.
  - intros (i & s & o & r & H)%IH. by exists (S i), s, o, r.
Qed.

(** A running task can always go on. *)
Lemma running_progress args b i s outs rest :
  Inv args b -> tasks b !! i = Some (Some (Running s outs rest)) -> exists b', TaskStep args b b'.
Proof.
  intros HI Ht. destruct rest as [|c rest].
  - destruct (known_device _ _ _ _ HI Ht) as [d Hd]. eexists. by eapply step_finish.
  - destruct (run_command args s c (manager b)) as [o m'] eqn:Hr. eexists. by eapply step_command.
Qed.

Lemma progress args b :
  Inv args b -> max_concurrent_devices args <> 0%N -> ended b = false -> exists b', TaskStep args b b'.
Proof.
  intros HI Hmax He. apply unsettled_task in He as (i & t & Ht & Hs).
  destruct t as [[|s outs rest|rr| |]|]; try done.
  - destruct (decide (permits_used b = 0)%nat) as [H0|Hn].
    + destruct (known_device _ _ _ _ HI Ht) as [d Hd].
      destruct (open_session args d 0 (manager b)) as [t' m'] eqn:Ho.
      eexists. eapply step_open; [done..| |exact Ho]. rewrite H0. lia.
    + destruct (holder_exists (tasks b)) as (j & s & o & r & Hj); [unfold permits_used in Hn; lia|].
      by eapply running_progress.
  - by eapply running_progress.
  - eexists. by eapply step_join.
Qed.

(** A batch ends.  In every state a batch can reach, each step a task or the
    collector takes uses up some of the finite work left (the others' steps add
    none), and as long as the batch has not ended some task can take one: no
    permit is ever lost, so nothing waits for ever. *)
Theorem batch_terminates args p (m : DeviceManager) pre b :
  preflight args p (inventory m) = Ok pre -> rtc (Step args) (start_batch args pre m) b ->
  (forall b', TaskStep args b b' -> (work args b' < work args b)%nat) /\
  (forall b', Step args b b' -> (work args b' <= work args b)%nat) /\
  (ended b = false -> exists b', TaskStep args b b').
Proof.
  intros Hp Hr. split_and!.
  - apply task_step_work.
  - intros b' [b0 b1 Ht|l b0 _|b0 m']; [by apply Nat.lt_le_incl, task_step_work| |done].
    apply abort_work.
  - intros He. apply progress; [|  |done].
    + eapply inv_steps; [|done]. by eapply inv_start.
    + unfold preflight, check_sizes in Hp. intros H0. rewrite H0 in Hp.
      destruct (validate_output_caps _ _); [|done]. destruct (b_devices args), (b_commands args); done.
Qed.

End batch.

(** ** A batch of two devices *)

Module DemoBatch.
Import Demo.
#[local] Existing Instance DemoEngine.engine.
#[local] Existing Instance DemoEngine.engine_fns.
#[local] Existing Instance DemoPool.lab_rustez.

Definition mgr : DeviceManager (D := nat) (Net := DemoPool.Lab) := DemoPool.manager false 0 (fresh 1 true).
Definition pol : Policy := DemoEngine.built (DemoEngine.inventory (Some DemoEngine.allowlist_defaults) [("r1", None)]).
Definition args (ds : list string) (t : N) : ExecuteBatchArgs := {|
  b_devices := ds; b_commands := ["show version"]; command_timeout := t; batch_timeout := None;
  max_concurrent_devices := 1; b_max_lines := None; b_max_bytes := None; b_tail := false |}.

Definition two : ExecuteBatchArgs := args ["r9"; "r1"] 10.
Definition missing : RouterResult := failed_row "r9" "device 'r9' not found in device mapping" ["show version"].
Definition start : Batch := start_batch two [Some missing; None] mgr.
Definition opened := open_session two "r1" 0 mgr.
Definition ran := run_command two (fresh_guard "r1" 0%nat) "show version" opened.2.
Definition row : RouterResult := {| router := "r1"; outcomes := [ran.1] |}.
Definition finished : Batch :=
  mk_batch [None; Some Joined] [Some missing; Some row] (drop_now (fresh_guard "r1" 0%nat) ran.2).

Lemma demo_preflight : preflight two pol (inventory mgr) = Ok [Some missing; None].
Proof. vm_compute. reflexivity. Qed.

Lemma demo_steps : rtc (Step two) start finished.
Proof.
  eapply rtc_l; [apply step_task; eapply (step_open _ 1 "r1" 0 start opened.1 opened.2);
    [reflexivity..|apply surjective_pairing]|].
  eapply rtc_l; [apply step_task; eapply (step_command _ 1 (fresh_guard "r1" 0%nat) [] "show version" [] _ ran.1 ran.2);
    [reflexivity|apply surjective_pairing]|].
  eapply rtc_l; [apply step_task; eapply (step_finish _ 1 "r1"); reflexivity|].
  eapply rtc_l; [apply step_task; eapply (step_join _ 1 row); reflexivity|].
  apply rtc_refl.
Qed.

Definition reply : Value := Array (map row_value (final_results (fun _ => None) two finished)).
Example demo_reply :
  reply = Array [row_value missing; row_value {| router := "r1"; outcomes := [succeeded "show version" "show version"] |}].
Proof. vm_compute. reflexivity. Qed.

Lemma demo_run : BatchRun (fun _ => None) two pol mgr (Ok reply) (manager finished).
Proof. apply (run_ended _ _ _ _ _ _ demo_preflight demo_steps). reflexivity. Qed.

Lemma batch_rows_witness :
  all_allowed two pol (inventory mgr) /\
  exists rows, reply = Array (map row_value rows) /\ Forall2 (complete two) ["r9"; "r1"] rows.
Proof. exact (batch_rows (fun _ => None) two pol mgr (Ok reply) (manager finished) demo_run). Defined.

Lemma batch_within_permits_witness : (N.of_nat (permits_used finished) <= 1)%N.
Proof. exact (batch_within_permits two pol mgr _ finished demo_preflight demo_steps). Defined.

Lemma batch_terminates_witness : exists b', TaskStep two start b'.
Proof.
  destruct (batch_terminates two pol mgr _ start demo_preflight (rtc_refl _ _)) as (_ & _ & H).
  apply H. reflexivity.
Defined.

(** A command that timed out leaves its session in use: the next command of the
    device goes out on it, and it is pooled for other callers afterwards,
    although the call it was making was dropped half-way. *)
Example timed_out_session_is_pooled :
  let a := args ["r1"] 0 in
  let r := run_command a (fresh_guard "r1" 0%nat) "show version" opened.2 in
  (error r.1, spawned (pool (drop_now (fresh_guard "r1" 0%nat) r.2))) =
  (Some "command timeout", [ReturnTask "r1" 0%nat]).
Proof. vm_compute. reflexivity. Qed.

End DemoBatch.
