(* ===== verification/InventoryTools.v ===== *)
(** * Adding and reloading devices ([inventory.rs], [tools/add_device.rs], [tools/reload_devices.rs])

    [add_device] extends the JSON inventory, stages it in a temporary file,
    validates the staged content and the policy built from it, renames it into
    place and swaps the inventory and the policy in memory; [reload_devices]
    swaps them for what a file holds.  The file system, SHA-256 and the
    shared inventory loader are parameters ([InventoryHost]), as is the JSON text format; the
    temporary file is dropped, and removed, when a step fails. *)

From S2P Require Import Prelude RustStr Fmt Errors Helpers Inventory Policy Async JsonValue.
From S2P Require Import DeviceManager RustPath.

(** ** The inventory document *)

(** [#[serde(tag = "type", rename_all = "snake_case")]] *)
Definition auth_value (a : AuthConfig) : Value :=
  match a with
  | Password pw => Object [("type", Str "password"); ("password", Str pw)]
  | SshKey path => Object [("type", Str "ssh_key"); ("private_key_path", Str path)]
  end.

Definition entry_value (ip : string) (port : N) (username : string) (auth : AuthConfig) : Value :=
  Object [("ip", Str ip); ("port", Number (Z.of_N port)); ("username", Str username);
          ("auth", auth_value auth)].

Definition cannot_extend : string :=
  "this inventory keeps its devices in a form add_device cannot extend (`devices` is present but is not an object); add the device by editing the file directly".

Section document.
Context {X : External}.

(** The insertion into the object that holds the devices. *)
Definition insert_new (name : string) (entry : Value) (obj : list (string * Value))
  : Result (list (string * Value)) JmcpError :=
  match obj_get name obj with
  | Some _ => Err (DeviceExists name)
  | None => Ok (obj_insert name entry obj)
  end.

Definition insert_device (inv : Value) (name ip : string) (port : N) (username : string)
    (auth : AuthConfig) : Result Value JmcpError :=
  let entry := entry_value ip port username auth in
  match inv with
  | Object obj =>
      match obj_get "devices" obj with
      | Some (Object ds) =>
          let? ds' := insert_new name entry ds in
          Ok (Object (obj_insert "devices" (Object ds') obj))
      | Some _ => Err (InventoryParse cannot_extend)
      | None =>
          let? obj' := insert_new name entry obj in
          Ok (Object obj')
      end
  | _ => Err (InventoryParse "top-level inventory is not a JSON object")
  end.

End document.

(** ** The host *)

Inductive ErrorKind := NotFound | InvalidInput | InvalidData.

Class InventoryHost {X : External} {JT : JsonText} (F : Type) := {
  (** [std::io::Error] *)
  io_new : ErrorKind -> string -> IoError;
  io_not_found : IoError -> bool;
  (** [std::fs] and [Path]'s queries *)
  fs_read : F -> string -> Result string IoError;
  fs_exists : F -> string -> bool;
  fs_is_file : F -> string -> bool;
  fs_mode : F -> string -> Result N IoError;
  fs_set_mode : string -> N -> F -> Result unit IoError * F;
  fs_canonicalize : F -> string -> Result string IoError;
  (** [tempfile::NamedTempFile] *)
  TempFile : Type;
  temp_path : TempFile -> string;
  temp_new_in : string -> F -> Result TempFile IoError * F;
  temp_write : TempFile -> string -> F -> Result unit IoError * F;
  temp_sync : TempFile -> F -> Result unit IoError * F;
  temp_persist : TempFile -> string -> F -> Result unit IoError * F;
  temp_drop : TempFile -> F -> F;
  (** [sha2] and [mecmcp_inventory] *)
  sha256 : string -> list N;
  shared_load : F -> string -> Result SharedInventory string
}.

Definition ZERO_HASH : list N := repeat 0%N 32.

Section files.
Context {X : External} {JT : JsonText} {F : Type} {H : InventoryHost F}.

Definition hash_file (f : F) (path : string) : Result (list N) IoError :=
  match fs_read f path with
  | Ok bytes => Ok (sha256 bytes)
  | Err e => if io_not_found e then Ok ZERO_HASH else Err e
  end.

Definition inventory_load (f : F) (path : string) : Result Inventory JmcpError :=
  Inventory.load (fs_exists f) (shared_load f path) path.

(** Code on the file system: a step that may fail, one after another; a failure
    leaves the state of the step that failed. *)
Definition Fs (F T : Type) : Type := F -> Result T IoError * F.
Definition fs_then {T U} (m : Fs F T) (k : T -> Fs F U) : Fs F U := fun f =>
  let (r, f) := m f in match r with Ok t => k t f | Err e => (Err e, f) end.
(** Code that owns a temporary file until it succeeds. *)
Definition fs_or_drop {T} (t : TempFile) (m : Fs F T) : Fs F T := fun f =>
  let (r, f) := m f in match r with Ok v => (Ok v, f) | Err e => (Err e, temp_drop t f) end.

Definition copy_mode (path : string) (tmp : TempFile) : Fs F unit := fun f =>
  match fs_mode f path with
  | Ok mode => fs_set_mode (temp_path tmp) mode f
  | Err _ => (Ok tt, f)
  end.

Definition write_staged (path : string) (value : Value) (tmp : TempFile) : Fs F unit :=
  fs_then (fun f => (map_err (fun e => io_new InvalidData (json_error_display e)) (json_pretty value), f))
    (fun pretty =>
  fs_then (temp_write tmp pretty) (fun _ =>
  fs_then (temp_write tmp newline) (fun _ =>
  fs_then (temp_sync tmp) (fun _ => copy_mode path tmp)))).

Definition stage_atomic (path : string) (value : Value) : Fs F TempFile := fun f =>
  match path_parent path with
  | None => (Err (io_new InvalidInput "inventory path has no parent directory"), f)
  | Some parent =>
      if negb (is_empty parent) && negb (fs_exists f parent) then
        (Err (io_new NotFound ("parent directory does not exist: " ^^ parent)), f)
      else
        let resolved_parent := if is_empty parent then "." else parent in
        fs_then (temp_new_in resolved_parent) (fun tmp =>
        fs_or_drop tmp (fs_then (write_staged path value tmp) (fun _ f => (Ok tmp, f)))) f
  end.

Definition write_atomic (path : string) (value : Value) : Fs F unit :=
  fs_then (stage_atomic path value) (fun tmp => temp_persist tmp path).

End files.

(** ** The tools *)

Record AddDeviceArgs := {
  device_name : option string;
  device_ip : option string;
  device_port : option N;
  username : option string;
  auth : option AuthConfig
}.

Record ResolvedAdd := {
  ra_device_name : string;
  ra_device_ip : string;
  ra_device_port : N;
  ra_username : string;
  ra_auth : AuthConfig
}.

Record ReloadDevicesArgs := { file_name : option string }.

Section tools.
Context {X : External} {JT : JsonText} {P : PolicyEngine} {PF : PolicyFns}.
Context {D Net : Type} {RC : RustezClient D Net} {F : Type} {H : InventoryHost F}.

(** The device manager, the policy ([ArcSwap<Policy>]) and the disk. *)
Record Server := mk_server {
  dm : DeviceManager (D := D) (Net := Net);
  policy : Policy;
  fs : F
}.
Definition set_fs (f : F) (s : Server) : Server := mk_server (dm s) (policy s) f.
Definition set_dm (m : DeviceManager) (s : Server) : Server := mk_server m (policy s) (fs s).
Definition set_policy (p : Policy) (s : Server) : Server := mk_server (dm s) p (fs s).

(** What happens while this call waits for the inventory write lock: how long it
    waits, and the state the other calls leave.  Taking the lock cannot fail. *)
Context (others : Server -> N * Server).

Definition Tool (T : Type) : Type := Act Server T JmcpError.
(** Code between two awaits that works on the disk. *)
Definition on_fs {T} (conv : IoError -> JmcpError) (m : Fs F T) : Tool T := fun w =>
  let s := w_backend w in
  let (r, f) := m (fs s) in
  (map_err conv r, mk_world (w_now w) (w_cancel_at w) (set_fs f s)).

(** [dm.write_lock().lock().await] *)
Definition acquire_write_lock : Tool unit := fun w =>
  let (d, s) := others (w_backend w) in (Ok tt, advance w d s).

Definition missing_fields (args : AddDeviceArgs) : list string :=
  let need {A} (o : option A) name := match o with None => [name] | Some _ => [] end in
  need (device_name args) "device_name" ++ need (device_ip args) "device_ip"
  ++ need (username args) "username" ++ need (auth args) "auth".

Definition validate (args : AddDeviceArgs) (m : DeviceManager (D := D) (Net := Net))
  : Result ResolvedAdd JmcpError :=
  if inventory_readonly m then Err InventoryReadonly
  else
    match device_name args, device_ip args, username args, auth args with
    | Some name, Some ip, Some user, Some a =>
        if negb (is_valid_device_name name) then Err (InvalidDeviceName name)
        else if is_ok (Inventory.get (inventory m) name) then Err (DeviceExists name)
        else if negb (is_valid_ip_or_hostname ip) then Err (InvalidDeviceIp ip)
        else
          let port := default 22%N (device_port args) in
          if negb ((1 <=? port)%N && (port <=? 65535)%N) then Err (InvalidDevicePort port)
          else
            let? _ :=
              match a with
              | Password _ =>
                  if negb (allow_password_auth_add m) then Err PasswordAuthDisabled else Ok tt
              | SshKey path =>
                  if negb (is_valid_auth_path path) then
                    Err (Validation ("invalid private_key_path `" ^^ path
                      ^^ "`: must be non-empty and must not start with '-'"))
                  else Ok tt
              end in
            if negb (is_valid_ssh_username user) then
              Err (Validation ("invalid username `" ^^ user
                ^^ "`: must match ^[A-Za-z0-9_.-]{1,64}$ and must not start with '-'"))
            else
              Ok {| ra_device_name := name; ra_device_ip := ip; ra_device_port := port;
                    ra_username := user; ra_auth := a |}
    | _, _, _, _ => Err (MissingArguments (missing_fields args))
    end.

Definition no_path : JmcpError :=
  InventoryWrite "inventory has no on-disk path; add_device requires --device-mapping to point at a writable file".

Definition read_error (e : IoError) : JmcpError := InventoryRead (io_display e).
Definition write_error (e : IoError) : JmcpError := InventoryWrite (io_display e).

(** From the staged file: parse it, build the policy, hash it, rename it into
    place.  An error drops the temporary file; a failed rename has already
    consumed it. *)
Definition check_staged (tmp : TempFile) : Tool (Inventory * Policy * list N) :=
  let! staged_inv := act_get (fun s =>
    map_err (fun e => InventoryParse (to_string e)) (inventory_load (fs s) (temp_path tmp))) in
  let! new_policy := act_get (fun _ => Policy.build staged_inv) in
  let! new_hash := act_get (fun s => map_err read_error (hash_file (fs s) (temp_path tmp))) in
  act_ret (Ok (staged_inv, new_policy, new_hash)).

Definition tool_or_drop {T} (tmp : TempFile) (m : Tool T) : Tool T :=
  act_bind m (fun r =>
    match r with
    | Ok v => act_ret (Ok v)
    | Err e => act_bind (act_state (E := JmcpError) (fun s => set_fs (temp_drop tmp (fs s)) s))
                 (fun _ => act_ret (Err e))
    end).

Definition add_reply (name path : string) (count : N) : Value :=
  Object [("added", Str name); ("inventory_path", Str path); ("router_count", Number (Z.of_N count))].

(** What [handle] does under the write lock. *)
Definition add_locked (resolved : ResolvedAdd) : Tool Value :=
  let! path := act_get (fun s => Ok (inventory_path (dm s))) in
  if is_empty path then act_ret (Err no_path)
  else
    let! on_disk_hash := act_get (fun s => map_err read_error (hash_file (fs s) path)) in
    let! _ := act_get (fun s =>
      if bool_decide (on_disk_hash = inventory_hash (dm s)) then Ok tt
      else Err InventoryDriftedOnDisk) in
    let! raw := act_get (fun s => map_err read_error (fs_read (fs s) path)) in
    let! value := act_get (fun _ =>
      map_err (fun e => InventoryParse (json_error_display e)) (json_from_str raw)) in
    let! updated := act_get (fun _ =>
      insert_device value (ra_device_name resolved) (ra_device_ip resolved)
        (ra_device_port resolved) (ra_username resolved) (ra_auth resolved)) in
    let! tmp := on_fs write_error (stage_atomic path updated) in
    let! (staged_inv, new_policy, new_hash) := tool_or_drop tmp (check_staged tmp) in
    let! _ := on_fs write_error (temp_persist tmp path) in
    let! _ := act_state (fun s => set_dm (store_inventory staged_inv path new_hash (dm s)) s) in
    let! _ := act_state (set_policy new_policy) in
    act_get (fun s => Ok (add_reply (ra_device_name resolved) path (inv_len (inventory (dm s))))).

Definition add_device (args : AddDeviceArgs) : Tool Value :=
  let! resolved := act_get (fun s => validate args (dm s)) in
  let! _ := acquire_write_lock in
  add_locked resolved.

(** ** [reload_devices] *)

Definition outside_dir (resolved dir : string) : JmcpError :=
  InventoryInvalid ("file_name resolves outside inventory directory (resolved=" ^^ resolved
    ^^ ", inventory_dir=" ^^ dir ^^ ")").
Definition no_parent : JmcpError :=
  InventoryInvalid "current inventory path has no parent directory".

(** [args.file_name], unless empty. *)
Definition requested (args : ReloadDevicesArgs) : option string :=
  match file_name args with
  | Some p => if is_empty p then None else Some p
  | None => None
  end.

Definition reload_path (args : ReloadDevicesArgs) (prev_path : string) : Result string JmcpError :=
  match requested args with
  | None => Ok prev_path
  | Some candidate =>
      if has_parent_dir candidate then
        Err (InventoryInvalid "file_name must not contain '..' path components")
      else if is_absolute candidate then
        Err (InventoryInvalid "file_name must be a relative path within the inventory directory")
      else
        let? parent := ok_or no_parent (path_parent prev_path) in
        Ok (path_join parent candidate)
  end.

(** The check against the canonical paths, for a requested file. *)
Definition check_contained (args : ReloadDevicesArgs) (prev_path path : string) (f : F)
  : Result unit JmcpError :=
  match requested args with
  | None => Ok tt
  | Some _ =>
      let? parent := ok_or no_parent (path_parent prev_path) in
      let? inv_dir := map_err read_error (fs_canonicalize f parent) in
      let? resolved := map_err read_error (fs_canonicalize f path) in
      if path_starts_with resolved inv_dir then Ok tt else Err (outside_dir resolved inv_dir)
  end.

(** [#[derive(PartialEq)]] *)
Definition auth_eqb (a b : AuthConfig) : bool :=
  match a, b with
  | Password p, Password q => String.eqb p q
  | SshKey p, SshKey q => String.eqb p q
  | _, _ => false
  end.

Definition inventory_entry_equal (a b : DeviceEntry) : bool :=
  String.eqb (ip a) (ip b) && (port a =? port b)%N
  && String.eqb (Inventory.username a) (Inventory.username b)
  && auth_eqb (Inventory.auth a) (Inventory.auth b).

(** The names in the first inventory and not in the second, in order
    ([BTreeSet::difference]). *)
Definition names_difference (a b : Inventory) : list string :=
  List.filter (fun n => negb (contains_router b n)) (names a).
Definition names_changed (prev new : Inventory) : list string :=
  List.filter (fun n =>
    match Inventory.get prev n, Inventory.get new n with
    | Ok p, Ok q => negb (inventory_entry_equal p q)
    | _, _ => false
    end) (List.filter (contains_router new) (names prev)).

Definition strs (l : list string) : Value := Array (map Str l).

Definition reload_reply (prev new : Inventory) (path : string) : Value :=
  Object [("previous_router_count", Number (Z.of_N (inv_len prev)));
          ("new_router_count", Number (Z.of_N (inv_len new)));
          ("added", strs (names_difference new prev));
          ("removed", strs (names_difference prev new));
          ("changed", strs (names_changed prev new));
          ("inventory_path", Str path)].

Definition reload_locked (args : ReloadDevicesArgs) : Tool Value :=
  let! prev_path := act_get (fun s => Ok (inventory_path (dm s))) in
  let! path := act_get (fun _ => reload_path args prev_path) in
  let! _ := act_get (fun s =>
    if fs_is_file (fs s) path then Ok tt
    else Err (InventoryRead ("not a regular file: " ^^ path))) in
  let! _ := act_get (fun s => check_contained args prev_path path (fs s)) in
  let! new_inv := act_get (fun s =>
    map_err (fun e => InventoryParse (to_string e)) (inventory_load (fs s) path)) in
  if inv_is_empty new_inv then act_ret (Err EmptyInventory)
  else
    let! prev := act_get (fun s => Ok (inventory (dm s))) in
    let! new_policy := act_get (fun _ => Policy.build new_inv) in
    let! new_hash := act_get (fun s => map_err read_error (hash_file (fs s) path)) in
    let! _ := act_state (fun s => set_dm (store_inventory new_inv path new_hash (dm s)) s) in
    let! _ := act_state (set_policy new_policy) in
    let! _ :=
      match names_difference prev new_inv ++ names_changed prev new_inv with
      | [] => act_ret (Ok tt)
      | stale => act_state (fun s => set_dm (on_pool (invalidate stale) (dm s)) s)
      end in
    act_ret (Ok (reload_reply prev new_inv path)).

Definition reload (args : ReloadDevicesArgs) : Tool Value :=
  let! _ := acquire_write_lock in
  reload_locked args.

Definition reload_devices (args : ReloadDevicesArgs) : Tool Value :=
  let! _ := act_get (fun s => if inventory_readonly (dm s) then Err InventoryReadonly else Ok tt) in
  reload args.

Definition reload_current_from_disk : Tool Value := reload {| file_name := None |}.

End tools.
