(* ===== verification/InventoryToolsSpec.v ===== *)
(** * What adding and reloading devices promise

    [add_device] and [reload_devices] change everything or nothing: an error
    leaves the inventory, the policy, the pool and every file as they were when
    the write lock was taken, and success leaves memory holding exactly what was
    validated on disk.  A reload keeps no pooled session of a device that is
    gone or whose address or credentials changed. *)

From S2P Require Import Prelude RustStr Fmt Errors Helpers Inventory Policy Async JsonValue.
From S2P Require Import CandidateTransaction CandidateSpec DeviceManager DeviceManagerSpec RustPath InventoryTools.
From Stdlib Require Import Ascii.

(** ** The document *)

Section document.
Context {X : External}.

(** Where a document keeps its devices: in [devices] when it has that key. *)
Definition device_slots (doc : Value) : option (list (string * Value)) :=
  match doc with
  | Object obj =>
      match obj_get "devices" obj with
      | Some (Object ds) => Some ds
      | Some _ => None
      | None => Some obj
      end
  | _ => None
  end.

Lemma insert_new_ok name e obj obj' :
  insert_new name e obj = Ok obj' -> obj_get name obj = None /\ obj' = obj ++ [(name, e)].
Proof.
  unfold insert_new. destruct (obj_get name obj) eqn:E; [done|]. intros [= <-].
  split; [done|]. by apply obj_insert_new.
Qed.

(** [insert_device] adds exactly one device at the end of the map that
    holds the devices, be it a bare map or the [devices] object of an envelope:
    every device that was there is there still, in the same order, and every
    other key of the document keeps its value.  It refuses a name already
    taken, and a document it cannot extend.  (A bare map can be given a device
    called [devices] only by becoming an envelope, so that name is apart.) *)
Theorem insert_device_spec doc name i p u a :
  match insert_device doc name i p u a with
  | Ok doc' =>
      exists ds, device_slots doc = Some ds /\ obj_get name ds = None /\
        (name <> "devices" ->
         device_slots doc' = Some (ds ++ [(name, entry_value i p u a)])) /\
        (forall k, k <> "devices" -> k <> name -> value_get k doc' = value_get k doc)
  | Err (DeviceExists n) =>
      n = name /\ exists ds, device_slots doc = Some ds /\ is_Some (obj_get name ds)
  | Err e => device_slots doc = None /\ exists m, e = InventoryParse m
  end.
Proof.
  unfold insert_device. destruct doc as [| | | | | |obj]; try by split; [|eexists].
  cbn [device_slots]. destruct (obj_get "devices" obj) as [v|] eqn:Ed.
  - destruct v as [| | | | | |ds]; try by split; [|eexists].
    destruct (insert_new name _ ds) as [ds'|e] eqn:En.
    + apply insert_new_ok in En as [Hn ->]. exists ds. split_and!; [done|done|..].
      * intros _. cbn [device_slots]. by rewrite obj_get_insert.
      * intros k Hk _. cbn. rewrite obj_get_insert. by destruct (String.eqb_spec "devices" k).
    + unfold insert_new in En. destruct (obj_get name ds) eqn:Eg; [|done]. injection En as <-.
      split; [done|]. exists ds. by rewrite Eg.
  - destruct (insert_new name _ obj) as [obj'|e] eqn:En.
    + apply insert_new_ok in En as [Hn ->]. exists obj. split_and!; [done|done|..].
      * intros Hd. cbn. rewrite obj_get_app, Ed. cbn.
        by destruct (String.eqb_spec name "devices").
      * intros k _ Hk. cbn. rewrite obj_get_app. destruct (obj_get k obj); [done|]. cbn.
        by destruct (String.eqb_spec name k).
    + unfold insert_new in En. destruct (obj_get name obj) eqn:Eg; [|done]. injection En as <-.
      split; [done|]. exists obj. by rewrite Eg.
Qed.

(** A bare inventory to which a device called [devices] is added stops being
    one: its document is read as an envelope from then on. *)
Lemma device_named_devices_breaks_inventory obj i p u a :
  obj_get "devices" obj = None ->
  exists doc', insert_device (Object obj) "devices" i p u a = Ok doc' /\
    device_slots doc' = Some (match entry_value i p u a with Object fs => fs | _ => [] end).
Proof.
  intros H. cbn. rewrite H. cbn. unfold insert_new. rewrite H. eexists. split; [done|].
  cbn. by rewrite obj_insert_new, obj_get_app, H.
Qed.

End document.

(** ** The disk *)

(** Every file that could be read reads the same. *)
Definition keeps_files {X : External} {JT : JsonText} {F : Type} {H : InventoryHost F} (f f' : F) : Prop :=
  forall p c, fs_read f p = Ok c -> fs_read f' p = Ok c.

(** What the documentation of [tempfile] and of rename(2) says: a temporary file
    is a new, empty file of its own ([Staged f0 t f]: [f] is [f0] with the file
    [t] beside the others); writing, syncing and changing the mode touch that
    file alone; dropping it removes it; a rename puts its content at the
    destination or changes nothing.  An inventory that loads is a file that
    reads. *)
Class HostLaws {X : External} {JT : JsonText} {F : Type} (H : InventoryHost F) := {
  Staged : F -> TempFile -> F -> Prop;
  new_staged d f t f' : temp_new_in d f = (Ok t, f') ->
    Staged f t f' /\ fs_read f' (temp_path t) = Ok "";
  new_failed d f e f' : temp_new_in d f = (Err e, f') -> keeps_files f f';
  write_staged_law f0 t f s : Staged f0 t f ->
    Staged f0 t (temp_write t s f).2 /\
    ((temp_write t s f).1 = Ok tt -> forall c, fs_read f (temp_path t) = Ok c ->
       fs_read (temp_write t s f).2 (temp_path t) = Ok (c ^^ s));
  sync_staged f0 t f : Staged f0 t f ->
    Staged f0 t (temp_sync t f).2 /\
    forall c, fs_read f (temp_path t) = Ok c -> fs_read (temp_sync t f).2 (temp_path t) = Ok c;
  mode_staged f0 t m f : Staged f0 t f ->
    Staged f0 t (fs_set_mode (temp_path t) m f).2 /\
    forall c c', fs_read f (temp_path t) = Ok c ->
      fs_read (fs_set_mode (temp_path t) m f).2 (temp_path t) = Ok c' -> c' = c;
  drop_staged f0 t f : Staged f0 t f -> keeps_files f0 (temp_drop t f);
  persist_failed f0 t p f e f' : Staged f0 t f -> temp_persist t p f = (Err e, f') ->
    keeps_files f0 f';
  persist_ok f0 t p f f' c : Staged f0 t f -> temp_persist t p f = (Ok tt, f') ->
    fs_read f (temp_path t) = Ok c -> fs_read f' p = Ok c;
  load_reads f p sh : shared_load f p = Ok sh -> exists c, fs_read f p = Ok c
}.

Section disk.
Context {X : External} {JT : JsonText} {F : Type} {H : InventoryHost F} {L : HostLaws H}.

(** The temporary file may hold [c], and nothing else. *)
Definition holds (t : TempFile) (c : string) (f : F) : Prop :=
  forall c', fs_read f (temp_path t) = Ok c' -> c' = c.

Lemma fs_then_ok {T U} (m : Fs F T) (k : T -> Fs F U) f u f2 :
  fs_then m k f = (Ok u, f2) -> exists t f1, m f = (Ok t, f1) /\ k t f1 = (Ok u, f2).
Proof. unfold fs_then. destruct (m f) as [[t|e] f1]; [by eauto|done]. Qed.

Lemma fs_then_staged {T U} f0 t (m : Fs F T) (k : T -> Fs F U) f :
  Staged f0 t (m f).2 -> (forall v f1, Staged f0 t f1 -> Staged f0 t (k v f1).2) ->
  Staged f0 t (fs_then m k f).2.
Proof. unfold fs_then. destruct (m f) as [[v|e] f1]; cbn; auto. Qed.

Lemma copy_mode_staged f0 path t f :
  Staged f0 t f -> Staged f0 t (copy_mode path t f).2.
Proof. intros Hs. unfold copy_mode. destruct (fs_mode f path); [|done]. by apply mode_staged. Qed.

Lemma copy_mode_holds f0 path t f c :
  Staged f0 t f -> fs_read f (temp_path t) = Ok c -> holds t c (copy_mode path t f).2.
Proof.
  intros Hs Hc c' Hc'. unfold copy_mode in Hc'. destruct (fs_mode f path) as [m|].
  - by apply (proj2 (mode_staged f0 t m f Hs) c c').
  - cbn in Hc'. congruence.
Qed.

Lemma write_staged_spec f0 path value t f :
  Staged f0 t f -> fs_read f (temp_path t) = Ok "" ->
  Staged f0 t (write_staged path value t f).2 /\
  ((write_staged path value t f).1 = Ok tt -> exists text,
     json_pretty value = Ok text /\ holds t (text ^^ newline) (write_staged path value t f).2).
Proof.
  intros Hs He. unfold write_staged. split.
  - repeat (apply fs_then_staged; [try (by apply write_staged_law); try (by apply sync_staged); done|
      intros ? ? ?]).
    all: try (by apply write_staged_law); try (by apply sync_staged); try by apply copy_mode_staged.
    all: repeat (apply fs_then_staged; [try (by apply write_staged_law); by apply sync_staged|
      intros ? ? ?]); by apply copy_mode_staged.
  - intros Hok. destruct (fs_then _ _ f) as [r f5] eqn:Hrun. cbn in Hok. subst r.
    apply fs_then_ok in Hrun as (text & f1 & E1 & Hrun). injection E1 as E1 <-.
    destruct (json_pretty value) as [text'|]; [|done]. injection E1 as <-.
    apply fs_then_ok in Hrun as ([] & f2 & E2 & Hrun).
    apply fs_then_ok in Hrun as ([] & f3 & E3 & Hrun).
    apply fs_then_ok in Hrun as ([] & f4 & E4 & Hrun).
    exists text'. split; [done|].
    pose proof (write_staged_law f0 t f text' Hs) as [S2 R2]. rewrite E2 in S2, R2.
    pose proof (write_staged_law f0 t f2 newline S2) as [S3 R3]. rewrite E3 in S3, R3.
    pose proof (sync_staged f0 t f3 S3) as [S4 R4]. rewrite E4 in S4, R4.
    replace f5 with (copy_mode path t f4).2 by by rewrite Hrun.
    eapply copy_mode_holds; [exact S4|]. apply R4, R3; [done|]. by apply (R2 eq_refl "").
Qed.

(** Staging succeeds with a file of its own that holds the document, or leaves
    every file as it was. *)
Lemma stage_atomic_spec path value f :
  match stage_atomic path value f with
  | (Ok t, f') => Staged f t f' /\
      exists text, json_pretty value = Ok text /\ holds t (text ^^ newline) f'
  | (Err _, f') => keeps_files f f'
  end.
Proof.
  unfold stage_atomic. destruct (path_parent path) as [parent|]; [|by intros ? ?].
  destruct (negb (is_empty parent) && _); [by intros ? ?|]. cbv zeta.
  set (d := if is_empty parent then "." else parent). unfold fs_then at 1.
  destruct (temp_new_in d f) as [[t|e] f1] eqn:En; [|by eapply new_failed].
  destruct (new_staged _ _ _ _ En) as [S1 R1]. unfold fs_or_drop, fs_then at 1.
  pose proof (write_staged_spec f path value t f1 S1 R1) as [S2 W2].
  destruct (write_staged path value t f1) as [[[]|e] f2]; cbn [fst snd] in *.
  - split; [done|]. by apply W2.
  - by apply drop_staged.
Qed.

End disk.

(** ** [add_device] *)

Section tools.
Context {X : External} {JT : JsonText} {P : PolicyEngine} {PF : PolicyFns}.
Context {D Net : Type} {RC : RustezClient D Net} {F : Type} {H : InventoryHost F} {L : HostLaws H}.
#[local] Abbreviation Server := (Server (D := D) (Net := Net) (F := F)).
#[local] Abbreviation Tool := (Tool (D := D) (Net := Net) (F := F)).
#[local] Abbreviation DeviceManager := (DeviceManager (D := D) (Net := Net)).
Implicit Types (s : Server).

(** Nothing has changed: not the inventory, its path or hash, the pool or the
    policy, nor any file. *)
Record Untouched (s s' : Server) : Prop := {
  un_dm : dm s' = dm s;
  un_policy : policy s' = policy s;
  un_files : keeps_files (fs s) (fs s')
}.

(** The device is on disk and in memory: the file held the document the server
    knew ([ad_known]), it now holds that document with the device inserted, and
    the inventory, its hash and the policy are those of the new content.  The
    pool and the manager's settings are as they were. *)
Record Added (ra : ResolvedAdd) (s s' : Server)
    (old text : string) (doc doc' : Value) : Prop := {
  ad_known : fs_read (fs s) (inventory_path (dm s)) = Ok old /\
             inventory_hash (dm s) = sha256 old;
  ad_parsed : json_from_str old = Ok doc;
  ad_inserted : insert_device doc (ra_device_name ra) (ra_device_ip ra) (ra_device_port ra)
                  (ra_username ra) (ra_auth ra) = Ok doc';
  ad_text : json_pretty doc' = Ok text;
  ad_disk : fs_read (fs s') (inventory_path (dm s)) = Ok (text ^^ newline);
  ad_dm : exists inv, dm s' =
            store_inventory inv (inventory_path (dm s)) (sha256 (text ^^ newline)) (dm s);
  ad_policy : Policy.build (inventory (dm s')) = Ok (policy s');
  ad_loaded : exists f path, inventory_load f path = Ok (inventory (dm s')) /\
                fs_read f path = Ok (text ^^ newline)
}.

Lemma untouched_refl s : Untouched s s.
Proof. split; [done|done|by intros ? ?]. Qed.

Lemma hash_of_read (f : F) path c : fs_read f path = Ok c -> hash_file f path = Ok (sha256 c).
Proof. intros E. unfold hash_file. by rewrite E. Qed.

Lemma load_file_reads (f : F) path inv :
  inventory_load f path = Ok inv -> exists c, fs_read f path = Ok c.
Proof.
  unfold inventory_load, Inventory.load. destruct (shared_load f path) as [sh|] eqn:E; [|done].
  intros _. by eapply load_reads.
Qed.

(** Checking the staged file changes nothing; dropping it on an error leaves the
    files as they were. *)
Lemma check_staged_spec t text f0 w r w' :
  tool_or_drop t (check_staged t) w = (r, w') ->
  Staged f0 t (fs (w_backend w)) -> holds t text (fs (w_backend w)) ->
  match r with
  | Ok (inv, p, h) => w' = w /\ inventory_load (fs (w_backend w)) (temp_path t) = Ok inv /\
      Policy.build inv = Ok p /\ h = sha256 text /\
      fs_read (fs (w_backend w)) (temp_path t) = Ok text
  | Err _ => dm (w_backend w') = dm (w_backend w) /\ policy (w_backend w') = policy (w_backend w) /\
      keeps_files f0 (fs (w_backend w'))
  end.
Proof.
  intros Hrun Hs Ht. unfold tool_or_drop, act_bind in Hrun.
  destruct (check_staged t w) as [r1 w1] eqn:Hc. unfold check_staged in Hc.
  rewrite then_get in Hc.
  assert (Hdrop : forall e, r1 = Err e -> w1 = w -> match r with Ok _ => False | Err _ =>
    dm (w_backend w') = dm (w_backend w) /\ policy (w_backend w') = policy (w_backend w) /\
    keeps_files f0 (fs (w_backend w')) end).
  { intros e -> ->. injection Hrun as <- <-. cbn. split_and!; [done|done|by apply drop_staged]. }
  destruct (inventory_load (fs (w_backend w)) (temp_path t)) as [inv|e] eqn:Hl; cbn [map_err] in Hc.
  2:{ injection Hc as <- <-. specialize (Hdrop _ eq_refl eq_refl). by destruct r. }
  rewrite then_get in Hc. destruct (Policy.build inv) as [p|e] eqn:Hp.
  2:{ injection Hc as <- <-. specialize (Hdrop _ eq_refl eq_refl). by destruct r. }
  destruct (load_file_reads _ _ _ Hl) as [c Hr]. pose proof (Ht _ Hr) as ->.
  rewrite then_get, (hash_of_read _ _ _ Hr) in Hc. cbn in Hc. injection Hc as <- <-.
  injection Hrun as <- <-. done.
Qed.

Lemma add_locked_spec ra w r w' :
  add_locked ra w = (r, w') ->
  match r with
  | Err _ => Untouched (w_backend w) (w_backend w')
  | Ok _ => exists old text doc doc', Added ra (w_backend w) (w_backend w') old text doc doc'
  end.
Proof.
  unfold add_locked. rewrite then_get. set (s := w_backend w). set (path := inventory_path (dm s)).
  assert (Hno : forall e, (Err e, w) = (r, w') -> match r with Err _ => Untouched s (w_backend w')
    | Ok _ => exists old text doc doc', Added ra s (w_backend w') old text doc doc' end).
  { intros e [= <- <-]. apply untouched_refl. }
  destruct (is_empty path); [by apply Hno|].
  rewrite then_get; fold s. destruct (hash_file (fs s) path) as [h|] eqn:Hh; [|by apply Hno].
  cbn [map_err]. rewrite then_get; fold s. destruct (bool_decide_reflect (h = inventory_hash (dm s))) as [Hd|];
    [|by apply Hno].
  rewrite then_get; fold s. destruct (fs_read (fs s) path) as [old|] eqn:Hr; [|by apply Hno].
  cbn [map_err]. rewrite then_get; fold s. destruct (json_from_str old) as [doc|] eqn:Hj; [|by apply Hno].
  cbn [map_err]. rewrite then_get; fold s. destruct (insert_device _ _ _ _ _ _) as [doc'|] eqn:Hi; [|by apply Hno].
  unfold act_then at 1, act_try at 1, act_bind at 1, on_fs at 1. fold s.
  pose proof (stage_atomic_spec path doc' (fs s)) as Hst.
  destruct (stage_atomic path doc' (fs s)) as [[t|ioe] f1]; cbn [map_err].
  2:{ intros [= <- <-]. by split. }
  destruct Hst as (Hs & text & Ht & Hh1).
  unfold act_then at 1, act_try at 1, act_bind at 1.
  set (w1 := mk_world _ _ _). destruct (tool_or_drop t (check_staged t) w1) as [r1 w2] eqn:Hc.
  pose proof (check_staged_spec t _ (fs s) w1 r1 w2 Hc Hs Hh1) as Hck.
  destruct r1 as [[[inv p] h']|e].
  2:{ intros [= <- <-]. destruct Hck as (? & ? & ?). by split. }
  destruct Hck as (-> & Hl & Hp & -> & Hrt).
  unfold act_then at 1, act_try at 1, act_bind at 1, on_fs. cbn [w_backend w1 fs set_fs].
  destruct (temp_persist t path f1) as [[[]|ioe] f2] eqn:Hpe; cbn [map_err].
  2:{ intros [= <- <-]. split; [done|done|by eapply persist_failed]. }
  rewrite !then_state. intros [= <- <-]. exists old, text, doc, doc'.
  split; cbn; try done.
  - split; [done|]. unfold hash_file in Hh. rewrite Hr in Hh. congruence.
  - by eapply persist_ok.
  - by exists inv.
  - by exists f1, (temp_path t).
Qed.

(** What [validate] lets through. *)
Record WellFormedAdd (ra : ResolvedAdd) (m : DeviceManager) : Prop := {
  wa_writable : inventory_readonly m = false;
  wa_name : is_valid_device_name (ra_device_name ra) = true;
  wa_new : devices (inventory m) !! ra_device_name ra = None;
  wa_ip : is_valid_ip_or_hostname (ra_device_ip ra) = true;
  wa_port : (1 <= ra_device_port ra <= 65535)%N;
  wa_user : is_valid_ssh_username (ra_username ra) = true;
  wa_key : forall p, ra_auth ra = SshKey p -> is_valid_auth_path p = true;
  wa_password : forall p, ra_auth ra = Password p -> allow_password_auth_add m = true
}.

Lemma validate_spec args m ra : validate args m = Ok ra -> WellFormedAdd ra m.
Proof.
  unfold validate. destruct (inventory_readonly m) eqn:Hro; [done|].
  destruct (device_name args) as [n|], (device_ip args) as [i|], (username args) as [u|],
    (auth args) as [a|]; try done.
  destruct (is_valid_device_name n) eqn:Hn; [|done]. cbn [negb].
  destruct (is_ok (Inventory.get (inventory m) n)) eqn:Hg; [done|].
  destruct (is_valid_ip_or_hostname i) eqn:Hi; [|done]. cbn [negb].
  set (port := default 22%N (device_port args)).
  destruct ((1 <=? port)%N && (port <=? 65535)%N) eqn:Hp; [|done]. cbn [negb].
  destruct (match a with Password _ => _ | SshKey _ => _ end) as [[]|] eqn:Ha; [|done].
  destruct (is_valid_ssh_username u) eqn:Hu; [|done]. intros [= <-].
  apply andb_true_iff in Hp as [Hp1%N.leb_le Hp2%N.leb_le].
  split; cbn; try done.
  - unfold Inventory.get, ok_or in Hg. by destruct (devices (inventory m) !! n).
  - intros p ->. by destruct (is_valid_auth_path p).
  - intros p ->. by destruct (allow_password_auth_add m).
Qed.

(** C17: adding a device is all or nothing.  Arguments that do not validate
    change nothing at all; past that, with [s] the state when the write lock was
    taken, an error (an inventory that drifted on disk, a document that does not
    parse or take the device, a staged inventory the loader or the policy
    refuses, a failed write or rename) leaves the inventory, the policy, the
    pool and every file as they were in [s]; and success means the arguments
    were well formed, the file held what the server last knew of it, it now
    holds that document with exactly this device inserted, and the inventory,
    the hash and the policy in memory are those of that very content. *)
Theorem add_device_all_or_nothing others args w :
  match add_device others args w with
  | (Err e, w') =>
      (validate args (dm (w_backend w)) = Err e /\ w' = w) \/
      Untouched (others (w_backend w)).2 (w_backend w')
  | (Ok _, w') => exists ra old text doc doc',
      validate args (dm (w_backend w)) = Ok ra /\ WellFormedAdd ra (dm (w_backend w)) /\
      Added ra (others (w_backend w)).2 (w_backend w') old text doc doc'
  end.
Proof.
  unfold add_device. rewrite then_get.
  destruct (validate args (dm (w_backend w))) as [ra|e] eqn:Hv; [|by left].
  unfold act_then at 1, act_try at 1, act_bind at 1, acquire_write_lock.
  destruct (others (w_backend w)) as [d s] eqn:Ho. cbn [snd].
  destruct (add_locked ra (advance w d s)) as [r w'] eqn:Hr.
  apply add_locked_spec in Hr. cbn [w_backend advance] in Hr. destruct r.
  - destruct Hr as (old & text & doc & doc' & Ha). exists ra, old, text, doc, doc'.
    split_and!; [done|by eapply validate_spec|done].
  - by right.
Qed.

(** ** [reload_devices] *)

Lemma slots_invalidate ns (p : SessionPool D) r :
  slots (invalidate ns p) !! r = if decide (r ∈ ns) then None else slots p !! r.
Proof.
  unfold invalidate. revert p; induction ns as [|n ns IH]; intros p; cbn [foldl].
  { by rewrite decide_False by set_solver. }
  rewrite IH. unfold remove_and_close. destruct (decide (r ∈ ns)).
  { by rewrite decide_True by set_solver. }
  destruct (slots p !! n) as [e|] eqn:En; destruct (decide (r = n)) as [->|Hne]; cbn.
  - by rewrite lookup_delete_eq, decide_True by set_solver.
  - by rewrite lookup_delete_ne, decide_False by (try done; set_solver).
  - by rewrite decide_True by set_solver.
  - by rewrite decide_False by set_solver.
Qed.

Lemma auth_eqb_spec a b : auth_eqb a b = true <-> a = b.
Proof. destruct a, b; cbn; rewrite ?String.eqb_eq; split; congruence. Qed.

Lemma inventory_entry_equal_spec a b : inventory_entry_equal a b = true <->
  ip a = ip b /\ port a = port b /\ Inventory.username a = Inventory.username b /\
  Inventory.auth a = Inventory.auth b.
Proof.
  unfold inventory_entry_equal.
  rewrite !andb_true_iff, !String.eqb_eq, N.eqb_eq, auth_eqb_spec. tauto.
Qed.

Lemma contains_router_spec inv n : contains_router inv n = true <-> is_Some (devices inv !! n).
Proof. apply bool_decide_eq_true. Qed.

(** A router whose session stays pooled has the address and the credentials it
    had. *)
Lemma not_stale prev new r (e : DeviceEntry) :
  devices prev !! r = Some e ->
  r ∉ names_difference prev new ++ names_changed prev new ->
  exists e', devices new !! r = Some e' /\ inventory_entry_equal e e' = true.
Proof.
  intros He Hr. rewrite not_elem_of_app in Hr. destruct Hr as [H1 H2].
  assert (Hin : r ∈ names prev) by by (apply elem_of_names; eexists).
  destruct (devices new !! r) as [e'|] eqn:E'.
  - exists e'. split; [done|]. destruct (inventory_entry_equal e e') eqn:Eq; [done|].
    destruct H2. unfold names_changed. rewrite !list_elem_of_In, !filter_In.
    split; [split; [by rewrite <- list_elem_of_In|by apply contains_router_spec; rewrite E'; eexists]|].
    unfold Inventory.get, ok_or. by rewrite He, E', Eq.
  - destruct H1. unfold names_difference. rewrite list_elem_of_In, filter_In.
    split; [by rewrite <- list_elem_of_In|].
    unfold contains_router. rewrite E', bool_decide_eq_false_2; [done|]. by intros [].
Qed.

(** The file a reload reads when one was asked for is inside the inventory
    directory, symbolic links resolved. *)
Definition contained (args : ReloadDevicesArgs) (prev path : string) (f : F) : Prop :=
  match requested args with
  | None => path = prev
  | Some c =>
      has_parent_dir c = false /\ is_absolute c = false /\
      exists parent dir resolved, path_parent prev = Some parent /\ path = path_join parent c /\
        fs_canonicalize f parent = Ok dir /\ fs_canonicalize f path = Ok resolved /\
        exists rest, components resolved = components dir ++ rest
  end.

Lemma check_contained_spec args prev path f :
  reload_path args prev = Ok path -> check_contained args prev path f = Ok tt ->
  contained args prev path f.
Proof.
  unfold reload_path, check_contained, contained. destruct (requested args) as [c|]; [|by intros [= <-]].
  destruct (has_parent_dir c); [done|]. destruct (is_absolute c); [done|].
  destruct (path_parent prev) as [parent|]; cbn; [|done]. intros [= <-].
  destruct (fs_canonicalize f parent) as [dir|] eqn:Ed; cbn; [|done].
  destruct (fs_canonicalize f (path_join parent c)) as [res|] eqn:Er; cbn; [|done].
  destruct (path_starts_with res dir) eqn:Hp; [|done]. intros _.
  apply list_prefix_spec in Hp. split_and!; [done..|]. by exists parent, dir, res.
Qed.

(** What a successful reload leaves: [path] is the file read and [new] what it
    holds. *)
Record Reloaded (args : ReloadDevicesArgs) (s s' : Server) (path : string) (new : Inventory)
    : Prop := {
  re_contained : contained args (inventory_path (dm s)) path (fs s);
  re_loaded : inventory_load (fs s) path = Ok new;
  re_nonempty : devices new <> ∅;
  re_policy : Policy.build new = Ok (policy s');
  re_hash : exists c, fs_read (fs s) path = Ok c /\ inventory_hash (dm s') = sha256 c;
  re_dm : inventory (dm s') = new /\ inventory_path (dm s') = path;
  re_net : net (dm s') = net (dm s) /\ fs s' = fs s;
  re_pool : pool (dm s') = invalidate (names_difference (inventory (dm s)) new
              ++ names_changed (inventory (dm s)) new) (pool (dm s))
}.

Lemma reload_locked_spec args w r w' :
  reload_locked args w = (r, w') ->
  match r with
  | Err _ => w' = w
  | Ok v => exists path new, Reloaded args (w_backend w) (w_backend w') path new /\
              v = reload_reply (inventory (dm (w_backend w))) new path
  end.
Proof.
  unfold reload_locked. rewrite then_get. set (s := w_backend w).
  set (prev := inventory_path (dm s)).
  assert (Hno : forall e, (Err e, w) = (r, w') -> match r with Err _ => w' = w
    | Ok v => exists path new, Reloaded args s (w_backend w') path new /\
                v = reload_reply (inventory (dm s)) new path end).
  { by intros e [= <- <-]. }
  rewrite then_get; fold s. destruct (reload_path args prev) as [path|] eqn:Hpath; [|by apply Hno].
  rewrite then_get; fold s. destruct (fs_is_file (fs s) path); [|by apply Hno].
  rewrite then_get; fold s.
  destruct (check_contained args prev path (fs s)) as [[]|] eqn:Hcont; [|by apply Hno].
  rewrite then_get; fold s. destruct (inventory_load (fs s) path) as [new|] eqn:Hl; [|by apply Hno].
  cbn [map_err]. destruct (inv_is_empty new) eqn:Hemp; [by apply Hno|].
  rewrite then_get; fold s. rewrite then_get.
  destruct (Policy.build new) as [p|] eqn:Hp; [|by apply Hno].
  destruct (load_file_reads _ _ _ Hl) as [c Hc].
  rewrite then_get; fold s. rewrite (hash_of_read _ _ _ Hc). cbn [map_err].
  rewrite !then_state. cbn [w_now w_cancel_at w_backend set_dm set_policy dm policy fs].
  assert (Hne : devices new <> ∅).
  { intros E. unfold inv_is_empty, inv_len in Hemp. by rewrite E, map_size_empty in Hemp. }
  assert (Hct := check_contained_spec _ _ _ _ Hpath Hcont).
  destruct (names_difference _ _ ++ names_changed _ _) as [|n ns] eqn:Hst; intros [= <- <-];
    eexists path, new; (split; [|done]); split; cbn; try done; try (by eauto); by rewrite Hst.
Qed.

(** A reload is all or nothing, stays in the inventory directory, and keeps
    no stale session.  An error leaves the whole state as it was when the write
    lock was taken.  Otherwise the file read was the current one, or one asked
    for by a relative path that resolves inside the inventory directory; memory
    holds what it holds, with the policy built from it and its hash; and every
    session still in the pool is one that was there for a router which, if it was
    in the previous inventory, is in the new one with the same address, port,
    user and credentials. *)
Theorem reload_all_or_nothing others args w :
  match reload others args w with
  | (Err _, w') => w_backend w' = (others (w_backend w)).2
  | (Ok v, w') => exists path new,
      let s := (others (w_backend w)).2 in let s' := w_backend w' in
      Reloaded args s s' path new /\ v = reload_reply (inventory (dm s)) new path /\
      forall r session, slots (pool (dm s')) !! r = Some session ->
        slots (pool (dm s)) !! r = Some session /\
        forall e, devices (inventory (dm s)) !! r = Some e ->
          exists e', devices new !! r = Some e' /\ ip e = ip e' /\ port e = port e' /\
            Inventory.username e = Inventory.username e' /\ Inventory.auth e = Inventory.auth e'
  end.
Proof.
  unfold reload, act_then, act_try, act_bind, acquire_write_lock.
  destruct (others (w_backend w)) as [d s] eqn:Ho. cbn [snd].
  destruct (reload_locked args (advance w d s)) as [r w'] eqn:Hr.
  apply reload_locked_spec in Hr. cbn [w_backend advance] in Hr. destruct r as [v|e].
  - destruct Hr as (path & new & HR & Hv). exists path, new. cbv zeta. split_and!; [done..|].
    intros r session. rewrite (re_pool _ _ _ _ _ HR), slots_invalidate.
    destruct (decide _) as [|Hn]; [done|]. intros Hs. split; [done|]. intros e He.
    destruct (not_stale _ _ _ _ He Hn) as (e' & He' & Heq). exists e'.
    by rewrite inventory_entry_equal_spec in Heq.
  - by subst w'.
Qed.

(** ** Memory and disk agree *)

(** What the server knows of its inventory file is what the file holds, and the
    policy in force is that of the inventory in force. *)
Definition Coherent (s : Server) : Prop :=
  (exists c, fs_read (fs s) (inventory_path (dm s)) = Ok c /\ inventory_hash (dm s) = sha256 c) /\
  Policy.build (inventory (dm s)) = Ok (policy s).

Lemma untouched_coherent s s' : Untouched s s' -> Coherent s -> Coherent s'.
Proof.
  intros [Hd Hp Hf] [(c & Hc & Hh) Hb]. unfold Coherent. rewrite Hd, Hp. split; [|done].
  exists c. split; [by apply Hf|done].
Qed.

(** The requests that can change the inventory. *)
Inductive Request := ReqAdd (args : AddDeviceArgs) | ReqReload (args : ReloadDevicesArgs)
  | ReqRefresh.
Definition serve others (req : Request) : Tool Value :=
  match req with
  | ReqAdd args => add_device others args
  | ReqReload args => reload_devices others args
  | ReqRefresh => reload_current_from_disk others
  end.

(** C18: no request, however it ends, leaves the hash or the policy behind the
    inventory: if memory and disk agreed (before the call, and in the state the
    calls it waited for left), they agree afterwards.  In particular the server
    never takes its own [add_device] for drift on disk. *)
Theorem requests_keep_coherent others req w
    (H0 : Coherent (w_backend w)) (H1 : Coherent (others (w_backend w)).2) :
  Coherent (w_backend (serve others req w).2).
Proof.
  assert (Hreload : forall args, Coherent (w_backend (reload others args w).2)).
  { intros args. unfold reload, act_then, act_try, act_bind, acquire_write_lock.
    destruct (others (w_backend w)) as [d s] eqn:Ho. cbn [snd] in H1.
    destruct (reload_locked args (advance w d s)) as [r w'] eqn:Hr.
    apply reload_locked_spec in Hr. cbn [w_backend advance] in Hr. destruct r as [v|e]; [|by subst w'].
    destruct Hr as (path & new & [_ _ _ Hp Hh [Hi Hpa] [_ Hf] _] & _). cbn [snd].
    unfold Coherent. by rewrite Hi, Hpa, Hf. }
  destruct req as [args|args|]; cbn [serve].
  - unfold add_device. rewrite then_get. destruct (validate _ _) as [ra|]; [|done].
    unfold act_then at 1, act_try at 1, act_bind at 1, acquire_write_lock.
    destruct (others (w_backend w)) as [d s] eqn:Ho. cbn [snd] in H1.
    destruct (add_locked ra (advance w d s)) as [r w'] eqn:Hr.
    apply add_locked_spec in Hr. cbn [w_backend advance] in Hr. destruct r as [v|e]; cbn [snd].
    + destruct Hr as (old & text & doc & doc' & [_ _ _ _ Hd [inv Hdm] Hp _]).
      split; [|done]. rewrite Hdm. cbn. by eexists.
    + by eapply untouched_coherent.
  - unfold reload_devices. rewrite then_get. destruct (inventory_readonly _); [done|]. apply Hreload.
  - apply Hreload.
Qed.

End tools.

(** ** A disk, and a document of one line

    An inventory file holds [name@address] items separated by commas; a
    temporary file is a new name in its directory. *)

Module DemoTools.
#[local] Existing Instance string_external.
#[local] Existing Instance DemoEngine.engine.
#[local] Existing Instance DemoEngine.engine_fns.
#[local] Existing Instance DemoPool.lab_rustez.

Record Disk := mk_disk { files : gmap string string; next : N }.
Definition put (p c : string) (f : Disk) : Disk := mk_disk (<[p := c]> (files f)) (next f).
Definition remove (p : string) (f : Disk) : Disk := mk_disk (delete p (files f)) (next f).
Definition read (f : Disk) (p : string) : Result string string :=
  ok_or "No such file or directory (os error 2)" (files f !! p).

Definition new_in (d : string) (f : Disk) : Result string string * Disk :=
  let p := path_join d (".tmp" ^^ dec (next f)) in
  match files f !! p with
  | Some _ => (Err "File exists", f)
  | None => (Ok p, put p "" (mk_disk (files f) (next f + 1)))
  end.
Definition append (t s : string) (f : Disk) : Result unit string * Disk :=
  match files f !! t with Some c => (Ok tt, put t (c ^^ s) f) | None => (Err "gone", f) end.
Definition persist (t p : string) (f : Disk) : Result unit string * Disk :=
  match files f !! t with
  | Some c => (Ok tt, put p c (remove t f))
  | None => (Err "gone", remove t f)
  end.

Definition item (s : string) : string * string :=
  match split_byte "@"%char s with n :: rest => (n, join "@" rest) | [] => ("", "") end.
Definition items (c : string) : list (string * string) :=
  match trim c with "" => [] | t => map item (split_byte ","%char t) end.
Definition entry (a : string) : DeviceEntry := {|
  ip := a; port := 22; Inventory.username := "u"; Inventory.auth := Password "x";
  ssh_config := None; blocklist := None; config_authority := AuthUnknown |}.
Definition shared (f : Disk) (p : string) : Result SharedInventory string :=
  let? c := read f p in
  Ok {| sh_names := map fst (items c);
        sh_get n := map_result entry (ok_or "no such device" (obj_get n (items c)));
        sh_policy := None |}.
Definition pretty (v : Value) : Result string string :=
  match v with
  | Object fs => Ok (join "," (map (fun kv => kv.1 ^^ "@" ^^
      match value_get "ip" kv.2 with Some (Str a) => a | _ => "" end) fs))
  | _ => Err "not an object"
  end.

#[local] Instance line_json : JsonText := {|
  json_from_str c := Ok (Object (map (fun x => (x.1, Object [("ip", Str x.2)])) (items c)));
  json_pretty := pretty
|}.
#[local] Instance disk_host : InventoryHost Disk := {|
  io_new _ m := m; io_not_found _ := true;
  fs_read := read; fs_exists f p := true; fs_is_file f p := is_ok (read f p);
  fs_mode _ _ := Ok 384%N; fs_set_mode _ _ f := (Ok tt, f);
  fs_canonicalize _ p := Ok p;
  TempFile := string; temp_path t := t; temp_new_in := new_in; temp_write := append;
  temp_sync _ f := (Ok tt, f); temp_persist := persist; temp_drop := remove;
  sha256 c := map byte_n (String.list_ascii_of_string c);
  shared_load := shared
|}.

(** [f] is [f0] and the file [t], which [f0] did not have. *)
Definition staged (f0 : Disk) (t : string) (f : Disk) : Prop :=
  files f0 !! t = None /\ exists c, files f = <[t := c]> (files f0).

Lemma read_ok f p c : read f p = Ok c <-> files f !! p = Some c.
Proof. unfold read. destruct (files f !! p); cbn; split; congruence. Qed.

#[local] Instance disk_laws : HostLaws disk_host.
Proof.
  refine {| Staged := staged |}; cbn.
  - unfold new_in. intros d f t f'. destruct (files f !! _) eqn:E; [done|]. intros [= <- <-].
    split; [|apply read_ok, lookup_insert_eq]. split; [done|by exists ""].
  - unfold new_in. intros d f e f'. destruct (files f !! _); [|done]. by intros [= _ <-] ? ?.
  - intros f0 t f s [Hn [c Hf]]. unfold append. rewrite Hf, lookup_insert_eq. cbn. split.
    + split; [done|]. exists (c ^^ s). cbn. by rewrite Hf, insert_insert_eq.
    + intros _ c'. rewrite !read_ok. cbn. rewrite Hf, !lookup_insert_eq. by intros [= <-].
  - done.
  - intros f0 t _ f Hs. split; [done|]. congruence.
  - intros f0 t f [Hn [c Hf]] p c'. rewrite !read_ok. cbn. rewrite Hf.
    intros Hp. rewrite delete_insert_id by done. done.
  - intros f0 t p f e f' [Hn [c Hf]]. unfold persist. by rewrite Hf, lookup_insert_eq.
  - intros f0 t p f f' c [Hn [c' Hf]]. unfold persist. rewrite Hf, lookup_insert_eq. intros [= <-].
    rewrite !read_ok. rewrite Hf, lookup_insert_eq. cbn. intros [= <-]. apply lookup_insert_eq.
  - intros f p sh. unfold shared. destruct (read f p) as [c|]; [|done]. by exists c.
Defined.

Definition path : string := "/etc/jmcp/devices.json".
Definition disk (c : string) : Disk := mk_disk {[ path := c ]} 0.
Definition loaded (c : string) : Inventory :=
  default empty_inventory (result_ok (inventory_load (disk c) path)).
Definition server (c : string) : Server (D := nat) (Net := DemoPool.Lab) (F := Disk) :=
  mk_server (mk_manager (loaded c) path (map byte_n (String.list_ascii_of_string c)) false true tt
               pool_new (DemoPool.mk_lab (Demo.fresh 1 true) 0 0 false))
    (DemoEngine.built (loaded c)) (disk c).
Definition world c := mk_world 0 None (server c).
Definition alone {A} (s : A) : N * A := (0%N, s).

Definition add_r2 : AddDeviceArgs := {|
  device_name := Some "r2"; device_ip := Some "10.0.0.2"; device_port := None;
  username := Some "u"; auth := Some (Password "x") |}.
Definition added := add_device alone add_r2 (world "r1@10.0.0.1").

Example add_device_runs :
  (added.1, map_to_list (files (fs (w_backend added.2))), names (inventory (dm (w_backend added.2)))) =
  (Ok (add_reply "r2" path 2), [(path, "r1@10.0.0.1,r2@10.0.0.2" ^^ newline)], ["r1"; "r2"]).
Proof. vm_compute. reflexivity. Qed.

(** Another process wrote the file: the device is refused and nothing changes. *)
Example add_device_drift :
  (add_device alone add_r2 (mk_world 0 None (set_fs (disk "r9@10.0.0.9") (server "r1@10.0.0.1")))).1 =
  Err InventoryDriftedOnDisk.
Proof. vm_compute. reflexivity. Qed.

Lemma server_coherent c : is_ok (Policy.build (loaded c)) = true -> Coherent (server c).
Proof.
  intros Hb. split.
  - exists c. split; [|done]. apply read_ok. apply lookup_insert_eq.
  - unfold server. cbn [dm policy inventory]. unfold DemoEngine.built.
    by destruct (Policy.build (loaded c)).
Qed.

Lemma requests_keep_coherent_witness :
  Coherent (w_backend (serve alone (ReqAdd add_r2) (world "r1@10.0.0.1")).2).
Proof.
  apply (requests_keep_coherent alone (ReqAdd add_r2) (world "r1@10.0.0.1"));
    apply server_coherent; vm_compute; reflexivity.
Defined.

(** A session that is checked out while its router's address changes: the reload
    finds nothing in the pool to close, and the session is pooled again when its
    guard is dropped; the next caller gets it, connected to the old address. *)
Definition checked_out := await (open 0 "r1") (mk_world 0 None (dm (server "r1@10.0.0.1"))).
Definition reloaded : Server (D := nat) (Net := DemoPool.Lab) (F := Disk) :=
  w_backend (reload_devices alone {| file_name := None |}
    (mk_world 0 None (mk_server (w_backend checked_out.2) (policy (server "r1@10.0.0.1"))
                        (disk "r1@10.9.9.9")))).2.
Example stale_session_survives_reload :
  let g := default (mk_guard None "" false) (result_ok checked_out.1) in
  let m := drop_now g (dm reloaded) in
  let returned := (await (run_task 10 (ReturnTask "r1" 0%nat)) (mk_world 10 None m)).2 in
  (dev g, map_result ip (Inventory.get (inventory m) "r1"), spawned (pool m),
   map_result dev (await (open 20 "r1") returned).1) =
  (Some 0%nat, Ok "10.9.9.9", [ReturnTask "r1" 0%nat], Ok (Some 0%nat)).
Proof. vm_compute. reflexivity. Qed.

(** A reload that changes only the [ssh_config] of a device, through which its
    sessions are connected, keeps the pooled session. *)
Lemma ssh_config_change_unnoticed e c :
  inventory_entry_equal e
    {| ip := ip e; port := port e; Inventory.username := Inventory.username e;
       Inventory.auth := Inventory.auth e; ssh_config := c; blocklist := blocklist e;
       config_authority := config_authority e |} = true.
Proof. by apply inventory_entry_equal_spec. Qed.

End DemoTools.
