(* ===== verification/Transfer.v ===== *)
(** * Sending a file to a device ([tools/transfer_file.rs])

    A staged file is hashed, compared with what the device holds under
    [/var/tmp/], copied with SCP and hashed again on the device.  The host's
    file system, SHA-256, the SCP crate and the wait for another transfer's
    permit are parameters. *)

From S2P Require Import Prelude RustStr Fmt Errors NetAddr Inventory Async JsonValue Proc.
From S2P Require Import DeviceManager RustPath.
From Stdlib Require Import Ascii.

(** ** Text *)

(** [{:02x}] of a byte. *)
Definition hex_digit (n : N) : ascii := if (n <? 10)%N then digit n else ascii_of_N (87 + n).
Definition hex2 (b : N) : string := String (hex_digit (b / 16)) (String (hex_digit (b mod 16)) "").
Fixpoint hex32 (bytes : list N) : string :=
  match bytes with b :: rest => hex2 b ^^ hex32 rest | [] => "" end.

Definition is_path_byte (b : ascii) : bool :=
  is_ascii_alphanumeric b || Ascii.eqb b "/" || Ascii.eqb b "." || Ascii.eqb b "_"
  || Ascii.eqb b "-" || Ascii.eqb b "+".

(** At most [n] digits from the front: how many there are, and the rest. *)
Fixpoint take_digits (n : nat) (s : string) : nat * string :=
  match n, s with
  | S n', String c s' =>
      if is_ascii_digit c then let (k, r) := take_digits n' s' in (S k, r) else (O, s)
  | _, _ => (O, s)
  end.

(** The octets that are left, the dots between them and what may not follow. *)
Fixpoint match_octets (left : nat) (s : string) : option nat :=
  let (k, r) := take_digits 3 s in
  match k, left with
  | O, _ => None
  | _, O =>
      match r with
      | String next _ => if is_ascii_digit next || Ascii.eqb next "." then None else Some k
      | "" => Some k
      end
  | _, S left' =>
      match r with
      | String c r' =>
          if Ascii.eqb c "." then option_map (fun n => (k + 1 + n)%nat) (match_octets left' r')
          else None
      | "" => None
      end
  end.
Definition match_ipv4 (bytes : string) : option nat := match_octets 3 bytes.

Fixpoint drop_path (s : string) : string :=
  match s with String c s' => if is_path_byte c then drop_path s' else s | "" => "" end.

(** [out.push(b as char)]: the character whose number is the byte. *)
Definition byte_as_char (b : ascii) : string :=
  if (byte_n b <? 128)%N then String b ""
  else String (ascii_of_N (192 + byte_n b / 64)) (String (ascii_of_N (128 + byte_n b mod 64)) "").

Fixpoint scrub_go (fuel : nat) (s : string) : string :=
  match fuel, s with
  | S f, String b rest =>
      let copied := byte_as_char b ^^ scrub_go f rest in
      if Ascii.eqb b "/" && match rest with String c _ => is_path_byte c | "" => false end
      then "<path>" ^^ scrub_go f (drop_path rest)
      else if is_ascii_digit b then
        match match_ipv4 s with
        | Some stop => "<host>" ^^ scrub_go f (str_drop stop s)
        | None => copied
        end
      else copied
  | _, _ => ""
  end.
Definition scrub_scp_stderr (stderr : string) : string := scrub_go (String.length stderr) stderr.

Definition allowed_byte (b : ascii) : bool :=
  is_ascii_alphanumeric b || Ascii.eqb b "." || Ascii.eqb b "_" || Ascii.eqb b "-".

(** [split_whitespace] *)
Fixpoint words_go (fuel : nat) (s : string) : list string :=
  match fuel with
  | O => []
  | S f =>
      let s := trim_start s in
      if is_empty s then [] else
      match find_ws s with
      | Some (w, rest) => w :: words_go f rest
      | None => [s]
      end
  end.
Definition split_whitespace (s : string) : list string := words_go (S (String.length s)) s.

(** The text after the last occurrence of a byte ([rfind]). *)
Fixpoint after_last (c : ascii) (s : string) : option string :=
  match s with
  | "" => None
  | String d s' =>
      match after_last c s' with
      | Some t => Some t
      | None => if Ascii.eqb d c then Some s' else None
      end
  end.

(** [strip_suffix] of one byte. *)
Fixpoint strip_last (c : ascii) (s : string) : option string :=
  match s with
  | "" => None
  | String d "" => if Ascii.eqb d c then Some "" else None
  | String d s' => option_map (String d) (strip_last c s')
  end.

Definition is_hex (c : ascii) : bool := match hex_value c with Some _ => true | None => false end.
Fixpoint hex_bytes (s : string) : list N :=
  match s with
  | String a (String b rest) =>
      N.lor (N.shiftl (default 0%N (hex_value a)) 4) (default 0%N (hex_value b)) :: hex_bytes rest
  | _ => []
  end.

Definition MIN_FREE_HEADROOM_BYTES : N := 32 * 1024 * 1024.
Definition saturating_add (a b : N) : N := N.min U64_MAX (a + b).
Definition saturating_mul (a b : N) : N := N.min U64_MAX (a * b).

Definition skipped_response (basename : string) (sha : list N) (size : N) : Value :=
  Object [("status", Str "skipped"); ("remote_path", Str ("/var/tmp/" ^^ basename));
    ("size_bytes", Number (Z.of_N size)); ("sha256", Str (hex32 sha)); ("verified", Bool true);
    ("message", Str "destination already present with matching sha256; no transfer performed")].

(** ** Jobs *)

Inductive SshHostKeyMode := Strict | AcceptNew | AcceptAll.

Record ScpJob := {
  sj_private_key_path : string; sj_known_hosts_file : string; sj_username : string;
  sj_host : string; sj_port : N; sj_local_path : string; sj_remote_dir : string;
  sj_host_key_mode : SshHostKeyMode
}.
Record ScpFetchJob := {
  fj_private_key_path : string; fj_known_hosts_file : string; fj_username : string;
  fj_host : string; fj_port : N; fj_remote_path : string; fj_local_path : string;
  fj_host_key_mode : SshHostKeyMode
}.
Record ScpOutcome := { exit_code : Z; stdout : string; stderr : string }.

Record TransferFileArgs := {
  tf_device : string; tf_source_path : string; tf_force : bool; tf_verify : bool; tf_timeout : N
}.

Record TransferConfig := {
  staging_dir : string; known_hosts_file : string; host_key_mode : SshHostKeyMode
}.

Section pure.
Context {X : External}.

Definition validate_source_basename (source : string) : Result unit JmcpError :=
  let quoted := "source_path '" ^^ source ^^ "'" in
  if is_empty source then Err (BadSourcePath "source_path is empty")
  else if (255 <? len source)%N then
    Err (BadSourcePath ("source_path exceeds 255 bytes (got " ^^ dec (len source) ^^ ")"))
  else if starts_with "." source then Err (BadSourcePath (quoted ^^ " must not start with '.'"))
  else if contains "/" source || contains "\" source then
    Err (BadSourcePath (quoted ^^ " must not contain '/' or '\\' (basename only)"))
  else if contains ".." source then Err (BadSourcePath (quoted ^^ " must not contain '..'"))
  else match find_byte (fun b => negb (allowed_byte b)) source with
       | Some (_, String bad _) =>
           Err (BadSourcePath (quoted ^^ " contains disallowed byte 0x" ^^ hex2 (byte_n bad)
                               ^^ "; only [A-Za-z0-9._-] are permitted"))
       | _ => Ok tt
       end.

Definition classify_scp_failure (outcome : ScpOutcome) (device_name known_hosts_file : string)
  : JmcpError :=
  if contains "@revoked" (stderr outcome) then HostKeyRevoked device_name known_hosts_file
  else if contains "Host key verification failed" (stderr outcome)
          || contains "REMOTE HOST IDENTIFICATION HAS CHANGED" (stderr outcome)
  then HostKeyMismatch device_name known_hosts_file
  else if (exit_code outcome =? 255)%Z
          && (contains "Connection timed out" (stderr outcome)
              || contains "No route to host" (stderr outcome))
  then ConnectTimeout device_name
  else ScpFailed (exit_code outcome) (scrub_scp_stderr (stderr outcome)).

Definition size_multiplier (s : string) : string * N :=
  match strip_last "G" s with Some t => (t, 1024 * 1024 * 1024)%N | None =>
  match strip_last "M" s with Some t => (t, 1024 * 1024)%N | None =>
  match strip_last "K" s with Some t => (t, 1024%N) | None =>
  match strip_last "B" s with Some t => (t, 1%N) | None => (s, 1%N) end end end end.

Definition parse_size_with_suffix (s : string) : Result N JmcpError :=
  let (num_part, mult) := size_multiplier s in
  match parse_f64 num_part with
  | Some n => Ok (as_u64 (f64_mul n mult))
  | None => Err (InsufficientDisk 0 0 ("could not parse storage size '" ^^ s ^^ "'"))
  end.

Fixpoint storage_rows (rows : list string) (root_mount_avail : option string)
  : Result N JmcpError :=
  match rows with
  | [] =>
      match root_mount_avail with
      | Some avail => parse_size_with_suffix avail
      | None =>
          Err (InsufficientDisk 0 0 "no /var, /.mount/var, or /.mount row found in storage output")
      end
  | line :: rest =>
      let trimmed := trim line in
      if is_empty trimmed || starts_with "Filesystem" trimmed then storage_rows rest root_mount_avail
      else
      let fields := split_whitespace trimmed in
      match fields !! 3%nat, list.last fields with
      | Some avail, Some mount =>
          if (length fields <? 6)%nat then storage_rows rest root_mount_avail
          else if String.eqb mount "/var" || String.eqb mount "/.mount/var"
          then parse_size_with_suffix avail
          else storage_rows rest (if String.eqb mount "/.mount" then Some avail else root_mount_avail)
      | _, _ => storage_rows rest root_mount_avail
      end
  end.
Definition parse_storage_free_bytes (output : string) : Result N JmcpError :=
  storage_rows (lines output) None.

(** What one line of [file checksum] says: nothing, that the file is missing, or
    its digest. *)
Definition checksum_line (line : string) : option (option (list N)) :=
  let trimmed := trim line in
  if is_empty trimmed then None
  else if contains "No such file or directory" trimmed then Some None
  else match after_last "=" trimmed with
       | Some rest =>
           let hex := trim rest in
           if (len hex =? 64)%N && str_forall is_hex hex then Some (Some (hex_bytes hex)) else None
       | None => None
       end.

Fixpoint checksum_lines (rows : list string) : option (option (list N)) :=
  match rows with
  | [] => None
  | line :: rest =>
      match checksum_line line with Some found => Some found | None => checksum_lines rest end
  end.
Definition parse_checksum_output (output : string) : Result (option (list N)) JmcpError :=
  ok_or (Validation ("unable to parse checksum output: " ^^ debug_str output))
    (checksum_lines (lines output)).

End pure.

(** ** The host and the SCP crate *)

Inductive FileKind := RegularFile | SymbolicLink | OtherFile.
Definition is_file (k : FileKind) : bool := match k with RegularFile => true | _ => false end.

(** [sha2::Sha256], fed piece by piece. *)
Class Sha256 := {
  Hasher : Type;
  hasher_new : Hasher;
  hasher_update : Hasher -> string -> Hasher;
  hasher_finalize : Hasher -> list N
}.

(** [std::fs].  Opening a file gives what the reads of its content return in
    turn, each taking [fs_read_time]. *)
Class StagingHost {X : External} (F : Type) := {
  io_interrupted : IoError -> bool;
  fs_metadata : F -> string -> Result FileKind IoError;
  fs_symlink_metadata : F -> string -> Result FileKind IoError;
  fs_open_read : F -> string -> Result (list (Result string IoError)) IoError;
  fs_read_time : N;
  fs_remove_file : string -> F -> Result unit IoError * F;
  fs_rename : string -> string -> F -> Result unit IoError * F
}.

(** [mecmcp_scp] *)
Inductive ScpHostKey := ScpKnownHosts (path : string) | ScpAcceptNew (path : string) | ScpAcceptAll.
Record ScpSshConfig := {
  sc_host : string; sc_port : N; sc_username : string; sc_private_key_path : string;
  sc_host_key_verification : ScpHostKey
}.
Inductive ScpError {X : External} :=
  | ScpIo (e : IoError)
  | ScpAuth (msg : string)
  | ScpConnect (msg : string)
  | ScpHostKeyVerification (msg : string)
  | ScpHostKeyRevoked (msg : string)
  | ScpChannel (msg : string)
  | ScpChannelClosed (msg : string)
  | ScpClientPoisoned.
Class ScpCrate {X : External} (W : Type) := {
  ScpClient : Type;
  scp_poisoned : string;
  scp_connect : ScpSshConfig -> Proc W ScpClient ScpError;
  scp_upload : ScpClient -> string -> string -> Proc W (list string) ScpError;
  scp_download : ScpClient -> string -> string -> Proc W (list string) ScpError;
  scp_close : ScpClient -> Proc W unit ScpError
}.

(** The trait [ScpRunner]. *)
Class ScpRunner {X : External} (W : Type) := {
  runner_run : ScpJob -> Proc W ScpOutcome IoError;
  runner_fetch : ScpFetchJob -> Proc W ScpOutcome IoError
}.

Section runner.
Context {X : External} {F : Type} {SH : StagingHost F} {W : Type} {SC : ScpCrate W}.

Definition synthesize_outcome (e : ScpError) : Result ScpOutcome IoError :=
  let failed msg := Ok {| exit_code := 255; stdout := ""; stderr := msg |} in
  match e with
  | ScpIo io => if io_interrupted io then Err io else failed (io_display io)
  | ScpAuth msg | ScpConnect msg | ScpHostKeyVerification msg | ScpHostKeyRevoked msg
  | ScpChannel msg | ScpChannelClosed msg => failed msg
  | ScpClientPoisoned => failed scp_poisoned
  end.

Definition scp_host_key_verification (mode : SshHostKeyMode) (known_hosts_file : string)
  : ScpHostKey :=
  match mode with
  | Strict => ScpKnownHosts known_hosts_file
  | AcceptNew => ScpAcceptNew known_hosts_file
  | AcceptAll => ScpAcceptAll
  end.

(** Connect, copy, close: [synthesize_outcome] for the first two's errors. *)
Definition scp_session (cfg : ScpSshConfig) (copy : ScpClient -> Proc W (list string) ScpError)
  : Proc W ScpOutcome IoError :=
  proc_bind (scp_connect cfg) (fun r =>
    match r with
    | Err e => proc_ret (synthesize_outcome e)
    | Ok client =>
        proc_bind (copy client) (fun r =>
          match r with
          | Err e => proc_ret (synthesize_outcome e)
          | Ok server_messages =>
              proc_bind (scp_close client) (fun _ =>
                proc_ret (Ok {| exit_code := 0; stdout := "";
                                stderr := join newline server_messages |}))
          end)
    end).

Definition mecmcp_run (job : ScpJob) : Proc W ScpOutcome IoError :=
  scp_session {| sc_host := sj_host job; sc_port := sj_port job; sc_username := sj_username job;
      sc_private_key_path := sj_private_key_path job;
      sc_host_key_verification := scp_host_key_verification (sj_host_key_mode job) (sj_known_hosts_file job) |}
    (fun client => scp_upload client (sj_local_path job) (sj_remote_dir job)).

Definition mecmcp_fetch (job : ScpFetchJob) : Proc W ScpOutcome IoError :=
  scp_session {| sc_host := fj_host job; sc_port := fj_port job; sc_username := fj_username job;
      sc_private_key_path := fj_private_key_path job;
      sc_host_key_verification := scp_host_key_verification (fj_host_key_mode job) (fj_known_hosts_file job) |}
    (fun client => scp_download client (fj_remote_path job) (fj_local_path job)).

Definition MecmcpScpRunner : ScpRunner W :=
  {| runner_run := mecmcp_run; runner_fetch := mecmcp_fetch |}.

End runner.

(** ** The tool *)

Section tool.
Context {X : External} {CS : CancelSelect} {Sh : Sha256} {F : Type} {SH : StagingHost F}.
Context {D Net : Type} {RC : RustezClient D Net} {SR : ScpRunner (Net * F)}.
(** The device leases, which only [upgrade_junos] takes. *)
Context {L : Type}.
(** How long a router's permit stays with an earlier transfer. *)
Context (permit_wait : string -> N).

Record Site := mk_site {
  site_dm : DeviceManager (D := D) (Net := Net);
  site_fs : F;
  site_locks : gset string;
  site_leases : L
}.
Definition set_site_dm m (s : Site) : Site := mk_site m (site_fs s) (site_locks s) (site_leases s).
Definition set_site_fs f (s : Site) : Site := mk_site (site_dm s) f (site_locks s) (site_leases s).
Definition set_site_locks l (s : Site) : Site := mk_site (site_dm s) (site_fs s) l (site_leases s).
(** What an SCP session reads and writes: the device and the host's files. *)
Definition site_wire (s : Site) : Net * F := (net (site_dm s), site_fs s).
Definition set_site_wire (w : Net * F) (s : Site) : Site :=
  set_site_fs w.2 (set_site_dm (set_net w.1 (site_dm s)) s).

#[local] Abbreviation Tool := (Proc Site).

Definition on_dm {T E} (f : N -> Future (DeviceManager (D := D) (Net := Net)) T E) : Tool T E :=
  proc_at site_dm set_site_dm (proc_fut f).
Definition fs_reads {T} (f : F -> Result T JmcpError) : Tool T JmcpError :=
  proc_get (fun s => f (site_fs s)).
Definition fs_writes {T} (f : F -> Result T IoError * F) : Tool T IoError := fun _ _ =>
  fut_state (fun s => let (r, f') := f (site_fs s) in (r, set_site_fs f' s)).

(** [dm.open(..)]; the session goes back to the pool when its owner's scope
    ends. *)
Definition open_session (device : string) : Tool (PooledDevice D) JmcpError :=
  select_cancel (on_dm (fun now => open now device)).
Definition drop_session (g : PooledDevice D) (s : Site) : Site :=
  set_site_dm (drop_now g (site_dm s)) s.
Definition with_session {T} (g : PooledDevice D) (k : D -> Tool T JmcpError) : Tool T JmcpError :=
  scoped (drop_session g)
    match dev g with
    | Some d => k d
    | None => proc_ret (Err (Validation "PooledDevice used after drop"))
    end.
Definition site_cli (d : D) (command : string) : Tool string RustEzError :=
  on_dm (fun _ => fut_net (device_cli d command)).

(** [select_cancel_raw(ct, dev.cli(command)).await?.map_err(DeviceProbeFailed)?] *)
Definition probe (d : D) (command phase : string) : Tool string JmcpError :=
  let> r := select_cancel_raw (site_cli d command) in
  proc_ret (map_err (fun e => DeviceProbeFailed phase (rustez_display e)) r).

(** [TransferLocks::acquire] and the permit's destructor. *)
Definition acquire (router : string) : Tool unit JmcpError := fun _ _ s =>
  mk_rpc (if bool_decide (router ∈ site_locks s) then permit_wait router else 0%N) (Ok tt)
    (set_site_locks ({[router]} ∪ site_locks s) s) (fun _ => s).
Definition release (router : string) (s : Site) : Site :=
  set_site_locks (site_locks s ∖ {[router]}) s.
Definition with_permit {T} (router : string) (body : Tool T JmcpError) : Tool T JmcpError :=
  let> _ := select_cancel_raw (acquire router) in
  scoped (release router) body.

(** *** Hashing a file *)

Fixpoint hash_reads (reads : list (Result string IoError)) (h : Hasher) (size : N)
  : Result (list N * N) JmcpError :=
  match reads with
  | [] => Ok (hasher_finalize h, size)
  | Err e :: _ => Err (Io e)
  | Ok block :: rest =>
      if is_empty block then Ok (hasher_finalize h, size)
      else hash_reads rest (hasher_update h block) (size + len block)
  end.
(** How many reads that makes. *)
Fixpoint read_count (reads : list (Result string IoError)) : N :=
  match reads with
  | Ok block :: rest => if is_empty block then 1%N else (1 + read_count rest)%N
  | _ => 1%N
  end.
Definition sha256_file (path : string) : Tool (list N * N) JmcpError := fun _ _ s =>
  match fs_open_read (site_fs s) path with
  | Err e => fut_ret (Err (Io e)) s
  | Ok reads =>
      mk_rpc (fs_read_time * read_count reads) (hash_reads reads hasher_new 0) s (fun _ => s)
  end.

(** The same loop with a look at the token before each read: the time it takes
    and its result. *)
Fixpoint hash_reads_ct (ct : option N) (now : N) (reads : list (Result string IoError))
    (h : Hasher) (size : N) : N * Result (list N * N) JmcpError :=
  if match ct with Some c => (c <=? now)%N | None => false end then (0%N, Err Cancelled) else
  let spend (r : N * Result (list N * N) JmcpError) := (fs_read_time + r.1, r.2)%N in
  match reads with
  | [] => spend (0%N, Ok (hasher_finalize h, size))
  | Err e :: _ => spend (0%N, Err (Io e))
  | Ok block :: rest =>
      if is_empty block then spend (0%N, Ok (hasher_finalize h, size))
      else spend (hash_reads_ct ct (now + fs_read_time) rest (hasher_update h block) (size + len block))
  end.
(** The blocking thread, which is left behind when the token wins the race. *)
Definition hash_thread (path : string) : Tool (list N * N) JmcpError := fun ct now s =>
  let (t, r) := match fs_open_read (site_fs s) path with
                | Err e => (0%N, Err (Io e))
                | Ok reads => hash_reads_ct ct now reads hasher_new 0
                end in
  mk_rpc t r s (fun _ => s).
Definition sha256_file_cancellable (path : string) : Tool (list N * N) JmcpError := fun ct now =>
  fut_try (fun e => e) (biased_select ct now (hash_thread path ct now)) fut_ret.

(** *** [handle] *)

Context (cfg : TransferConfig).

Definition check_known_hosts (f : F) : Result unit JmcpError :=
  let tolerated := match host_key_mode cfg with
                   | Strict => Err (KnownHostsMissing (known_hosts_file cfg))
                   | AcceptNew | AcceptAll => Ok tt
                   end in
  match fs_metadata f (known_hosts_file cfg) with
  | Ok m => if is_file m then Ok tt else tolerated
  | Err _ => tolerated
  end.

Definition check_staged_file (local_path : string) (f : F) : Result unit JmcpError :=
  match fs_symlink_metadata f local_path with
  | Err _ => Err (BadSourcePath ("staged file not found or unreadable: " ^^ local_path))
  | Ok SymbolicLink =>
      Err (BadSourcePath ("staged path is a symlink, refusing to follow: " ^^ local_path))
  | Ok OtherFile => Err (BadSourcePath ("staged path is not a regular file: " ^^ local_path))
  | Ok RegularFile => Ok tt
  end.

(** The device's entry and its private key. *)
Definition key_entry (device : string) (m : DeviceManager (D := D) (Net := Net))
  : Result (DeviceEntry * string) JmcpError :=
  let? entry := get (inventory m) device in
  match auth entry with
  | Password _ => Err (UnsupportedAuth device)
  | SshKey private_key_path => Ok (entry, private_key_path)
  end.

Definition scp_error (e : IoError) : JmcpError := if io_interrupted e then Cancelled else Io e.

Definition scp_job (entry : DeviceEntry) (private_key_path local_path : string) : ScpJob := {|
  sj_private_key_path := private_key_path; sj_known_hosts_file := known_hosts_file cfg;
  sj_username := username entry; sj_host := ip entry; sj_port := port entry;
  sj_local_path := local_path; sj_remote_dir := "/var/tmp/"; sj_host_key_mode := host_key_mode cfg |}.

Definition check_free_space (device storage_out : string) (local_size : N) : Result unit JmcpError :=
  let? free_bytes := parse_storage_free_bytes storage_out in
  let required := saturating_add local_size MIN_FREE_HEADROOM_BYTES in
  if (free_bytes <? required)%N
  then Err (InsufficientDisk free_bytes required ("device '" ^^ device ^^ "' /var/tmp"))
  else Ok tt.

Definition transferred_response (remote_path : string) (size : N) (sha : list N) (verified : bool) : Value :=
  Object [("status", Str "transferred"); ("remote_path", Str remote_path);
    ("size_bytes", Number (Z.of_N size)); ("sha256", Str (hex32 sha)); ("verified", Bool verified)].

Definition remote_path_of (basename : string) : string := "/var/tmp/" ^^ basename.
Definition checksum_command (remote_path : string) : string := "file checksum sha-256 " ^^ remote_path.

(** The device's digest of the file, before and after the copy. *)
Definition remote_checksum (d : D) (remote_path phase : string) : Tool (option (list N)) JmcpError :=
  let> out := probe d (checksum_command remote_path) phase in
  proc_ret (parse_checksum_output out).

(** Step 3: the copy. *)
Definition upload (args : TransferFileArgs) (job : ScpJob) : Tool unit JmcpError :=
  let> outcome := proc_map_err scp_error (proc_at site_wire set_site_wire (runner_run job)) in
  proc_ret (if (exit_code outcome =? 0)%Z then Ok tt
            else Err (classify_scp_failure outcome (tf_device args) (known_hosts_file cfg))).

(** Step 4: what the device holds after it. *)
Definition verify_upload (args : TransferFileArgs) (d : D) (remote_path : string)
    (local_sha : list N) (local_size : N) : Tool Value JmcpError :=
  let mismatch remote := VerifyMismatch remote_path (hex32 local_sha) remote in
  let> remote_sha_post := remote_checksum d remote_path "verify_checksum" in
  match remote_sha_post with
  | None =>
      if tf_verify args then proc_ret (Err (mismatch "<missing>"))
      else proc_ret (Ok (transferred_response remote_path local_size local_sha false))
  | Some post =>
      let verified := bool_decide (post = local_sha) in
      if tf_verify args && negb verified then
        proc_bind (site_cli d ("file delete " ^^ remote_path)) (fun _ =>
          proc_ret (Err (mismatch (hex32 post))))
      else proc_ret (Ok (transferred_response remote_path local_size local_sha verified))
  end.

Definition transfer_on (args : TransferFileArgs) (d : D) (entry : DeviceEntry)
    (private_key_path local_path : string) (local_sha : list N) (local_size : N)
  : Tool Value JmcpError :=
  let remote_path := remote_path_of (tf_source_path args) in
  let> storage_out := probe d "show system storage no-forwarding" "storage_probe" in
  let> _ := proc_ret (check_free_space (tf_device args) storage_out local_size) in
  let> remote_sha_pre := remote_checksum d remote_path "remote_checksum" in
  let copy :=
    let> _ := upload args (scp_job entry private_key_path local_path) in
    verify_upload args d remote_path local_sha local_size in
  match remote_sha_pre with
  | Some remote =>
      if bool_decide (remote = local_sha)
      then proc_ret (Ok (skipped_response (tf_source_path args) local_sha local_size))
      else if tf_force args then copy
      else proc_ret (Err (DestExistsDiffers remote_path (hex32 local_sha) (hex32 remote)))
  | None => copy
  end.

Definition transfer_locked (args : TransferFileArgs) : Tool Value JmcpError :=
  let local_path := path_join (staging_dir cfg) (tf_source_path args) in
  let> _ := fs_reads (check_staged_file local_path) in
  let> (local_sha, local_size) := sha256_file_cancellable local_path in
  let> (entry, private_key_path) := proc_get (fun s => key_entry (tf_device args) (site_dm s)) in
  let> g := open_session (tf_device args) in
  with_session g (fun d =>
    transfer_on args d entry private_key_path local_path local_sha local_size).

Definition transfer_body (args : TransferFileArgs) : Tool Value JmcpError :=
  let> cancelled := proc_is_cancelled in
  if cancelled then proc_ret (Err Cancelled) else
  let> _ := proc_ret (validate_source_basename (tf_source_path args)) in
  let> _ := fs_reads check_known_hosts in
  with_permit (tf_device args) (transfer_locked args).

Definition transfer_file (args : TransferFileArgs) : Tool Value JmcpError :=
  let timeout := from_secs (tf_timeout args) in
  bounded timeout (TransferOuterTimeout timeout) (transfer_body args).

End tool.
