(* ===== verification/Fetch.v ===== *)
(** * Fetching a file from a device ([tools/fetch_file.rs])

    The mirror image of [Transfer]: the device's file is copied to a
    [.partial] sibling in the staging directory, hashed there, and renamed to
    its name only then. *)

From S2P Require Import Prelude RustStr Fmt Errors Inventory Async JsonValue Proc.
From S2P Require Import DeviceManager RustPath Transfer.
From stdpp Require Import sorting.
From Stdlib Require Import Ascii.

Record FetchFileArgs := {
  ff_device : string; ff_remote_path : string; ff_local_name : option string;
  ff_force : bool; ff_verify : bool; ff_timeout : N
}.

(** [Path::file_name] *)
Definition file_name (p : string) : option string :=
  match list.last (components p) with Some (Normal n) => Some n | _ => None end.

(** [set_file_name(name + ".partial")]; [None] is the code's [expect]. *)
Definition partial_path (local_path : string) : option string :=
  option_map (fun name => path_join (default "" (path_parent local_path)) (name ^^ ".partial"))
    (file_name local_path).

Definition fetch_skipped_response (local_path remote_basename : string) (sha : list N) (size : N)
  : Value :=
  Object [("status", Str "skipped"); ("local_path", Str local_path);
    ("remote_path", Str (remote_path_of remote_basename)); ("size_bytes", Number (Z.of_N size));
    ("sha256", Str (hex32 sha)); ("verified", Bool true);
    ("message", Str "local file already present with matching sha256; no fetch performed")].

Definition fetched_response (local_path remote_path : string) (size : N) (sha : list N)
    (verified : bool) : Value :=
  Object [("status", Str "fetched"); ("local_path", Str local_path);
    ("remote_path", Str remote_path); ("size_bytes", Number (Z.of_N size));
    ("sha256", Str (hex32 sha)); ("verified", Bool verified)].

Section tool.
Context {X : External} {CS : CancelSelect} {Sh : Sha256} {F : Type} {SH : StagingHost F}.
Context {D Net : Type} {RC : RustezClient D Net} {SR : ScpRunner (Net * F)}.
Context {L : Type} (permit_wait : string -> N) (cfg : TransferConfig).

#[local] Abbreviation Tool := (Proc (Site (F := F) (D := D) (Net := Net) (L := L))).

Definition fetch_job (entry : DeviceEntry) (private_key_path remote_path partial : string)
  : ScpFetchJob := {|
  fj_private_key_path := private_key_path; fj_known_hosts_file := known_hosts_file cfg;
  fj_username := username entry; fj_host := ip entry; fj_port := port entry;
  fj_remote_path := remote_path; fj_local_path := partial; fj_host_key_mode := host_key_mode cfg |}.

(** [let _ = std::fs::remove_file(path);] *)
Definition remove_quietly (path : string) : Tool unit JmcpError :=
  proc_bind (fs_writes (fs_remove_file path)) (fun _ => proc_ret (Ok tt)).
Definition fail_without (partial : string) (e : JmcpError) {T} : Tool T JmcpError :=
  let> _ := remove_quietly partial in proc_ret (Err e).

(** The copy, the hash of what arrived and the rename. *)
Definition download (args : FetchFileArgs) (entry : DeviceEntry)
    (private_key_path remote_path local_path partial : string) (remote_sha : list N)
  : Tool Value JmcpError :=
  let> _ := remove_quietly partial in
  proc_bind (proc_at site_wire set_site_wire
               (runner_fetch (fetch_job entry private_key_path remote_path partial))) (fun r =>
    match r with
    | Err e => fail_without partial (scp_error e)
    | Ok outcome =>
        if negb (exit_code outcome =? 0)%Z
        then fail_without partial
               (classify_scp_failure outcome (ff_device args) (known_hosts_file cfg))
        else
        let> (post_sha, post_size) := sha256_file_cancellable partial in
        let verified := bool_decide (post_sha = remote_sha) in
        if ff_verify args && negb verified
        then fail_without partial (FetchVerifyMismatch local_path (hex32 post_sha) (hex32 remote_sha))
        else
        let> _ := proc_map_err Io (fs_writes (fs_rename partial local_path)) in
        proc_ret (Ok (fetched_response local_path remote_path post_size post_sha verified))
    end).

(** What is at the local name already: [Some] ends the call. *)
Definition local_conflict (args : FetchFileArgs) (local_path : string) (remote_sha : list N)
  : Tool (option Value) JmcpError :=
  let> meta := fs_reads (fun f => Ok (fs_symlink_metadata f local_path)) in
  match meta with
  | Ok SymbolicLink =>
      proc_ret (Err (BadSourcePath
        ("local destination is a symlink, refusing to overwrite: " ^^ local_path)))
  | Ok RegularFile =>
      let> (local_sha, local_size) := sha256_file_cancellable local_path in
      if bool_decide (local_sha = remote_sha)
      then proc_ret (Ok (Some (fetch_skipped_response local_path (ff_remote_path args) local_sha local_size)))
      else if ff_force args then proc_ret (Ok None)
      else proc_ret (Err (LocalDestExistsDiffers local_path (hex32 local_sha) (hex32 remote_sha)))
  | Ok OtherFile | Err _ => proc_ret (Ok None)
  end.

Definition fetch_on (args : FetchFileArgs) (d : D) (entry : DeviceEntry)
    (private_key_path local_path partial : string) : Tool Value JmcpError :=
  let remote_path := remote_path_of (ff_remote_path args) in
  let> found := remote_checksum d remote_path "remote_checksum" in
  match found with
  | None => proc_ret (Err (RemoteFileMissing (ff_device args) remote_path))
  | Some remote_sha =>
      let> skip := local_conflict args local_path remote_sha in
      match skip with
      | Some reply => proc_ret (Ok reply)
      | None => download args entry private_key_path remote_path local_path partial remote_sha
      end
  end.

Definition local_basename (args : FetchFileArgs) : string :=
  default (ff_remote_path args) (ff_local_name args).

Definition fetch_locked (args : FetchFileArgs) : Tool Value JmcpError :=
  let> (entry, private_key_path) := proc_get (fun s => key_entry (ff_device args) (site_dm s)) in
  let local_path := path_join (staging_dir cfg) (local_basename args) in
  match partial_path local_path with
  | None => proc_ret (Err (Validation "local_path has a file name"))
  | Some partial =>
      let> g := open_session (ff_device args) in
      with_session g (fun d => fetch_on args d entry private_key_path local_path partial)
  end.

Definition fetch_body (args : FetchFileArgs) : Tool Value JmcpError :=
  let> cancelled := proc_is_cancelled in
  if cancelled then proc_ret (Err Cancelled) else
  let> _ := proc_ret (validate_source_basename (ff_remote_path args)) in
  let> _ := proc_ret (validate_source_basename (local_basename args)) in
  let> _ := fs_reads (check_known_hosts cfg) in
  with_permit permit_wait (ff_device args) (fetch_locked args).

Definition fetch_file (args : FetchFileArgs) : Tool Value JmcpError :=
  let timeout := from_secs (ff_timeout args) in
  bounded timeout (TransferOuterTimeout timeout) (fetch_body args).

End tool.

(** ** Listing the staged files ([tools/list_staged_files.rs])

    The regular files of the staging directory with their digests, at most
    [STAGING_DIR_MAX_ENTRIES] of them in the order of their names, and, on
    request, what the device reports of its [/var/tmp/]. *)

(** ** The device's listing *)

Record DeviceFileEntry := { df_path : string; df_size_bytes : N; df_mtime_iso : string }.

Definition month_to_num (m : string) : N :=
  if String.eqb m "Jan" then 1 else if String.eqb m "Feb" then 2
  else if String.eqb m "Mar" then 3 else if String.eqb m "Apr" then 4
  else if String.eqb m "May" then 5 else if String.eqb m "Jun" then 6
  else if String.eqb m "Jul" then 7 else if String.eqb m "Aug" then 8
  else if String.eqb m "Sep" then 9 else if String.eqb m "Oct" then 10
  else if String.eqb m "Nov" then 11 else if String.eqb m "Dec" then 12 else 0%N.

(** [{:0>2}], which counts characters, and [{:02}] of a number. *)
Definition pad2 (s : string) : string :=
  match length (chars s) with O => "00" | 1%nat => "0" ^^ s | _ => s end.

Definition junos_date_to_iso (date time : string) : string :=
  match split_byte "-" date with
  | [year; month; day] =>
      let t := if contains ":" time then time ^^ ":00" else "00:00:00" in
      year ^^ "-" ^^ pad2 (dec (month_to_num month)) ^^ "-" ^^ pad2 day ^^ "T" ^^ t
  | _ => date ^^ "T" ^^ time
  end.

(** One line, past its header and footer forms. *)
Definition listing_entry (current_year : Z) (fields : list string) : option DeviceFileEntry :=
  match fields with
  | perms :: _ :: _ :: _ :: size :: month :: day :: time :: first :: rest =>
      if starts_with "d" perms then None else
      match parse_usize size with
      | None => None
      | Some size =>
          if (month_to_num month =? 0)%N then None else
          let name := RustStr.join " " (first :: rest) in
          if String.eqb name "." || String.eqb name ".." then None else
          let date year := year ^^ "-" ^^ month ^^ "-" ^^ pad2 day in
          Some {| df_path := "/var/tmp/" ^^ name; df_size_bytes := size;
                  df_mtime_iso := if contains ":" time
                                  then junos_date_to_iso (date (display_Z current_year)) time
                                  else junos_date_to_iso (date time) "00:00" |}
      end
  | _ => None
  end.

Definition listing_line (current_year : Z) (line : string) : option DeviceFileEntry :=
  let trimmed := trim_end line in
  if is_empty trimmed || starts_with "total " trimmed || ends_with ":" trimmed then None
  else listing_entry current_year (split_whitespace trimmed).

Definition parse_var_tmp_listing (output : string) (current_year : Z) : list DeviceFileEntry :=
  omap (listing_line current_year) (lines output).

(** ** The staging directory *)

Record StagedFileEntry := {
  sf_name : string; sf_size_bytes : N; sf_sha256 : string; sf_mtime_iso : string
}.
Definition STAGING_DIR_MAX_ENTRIES : nat := 256.
Record StagingDirResult := {
  entries : list StagedFileEntry; truncated : bool; total_found : nat
}.

(** What [DirEntry::metadata] tells: the kind and, where the platform has it, the
    modification time in seconds since the epoch. *)
Record Metadata := { md_kind : FileKind; md_modified : option Z }.
Record DirEntry {X : External} := {
  de_name : string;   (** [file_name().to_string_lossy()] *)
  de_path : string;
  de_metadata : Result Metadata IoError
}.

(** [tokio::fs::read_dir] and [chrono]. *)
Class StagingDir {X : External} (F : Type) := {
  fs_exists : F -> string -> bool;
  fs_read_dir : F -> string -> Result (list (Result DirEntry IoError)) IoError;
  DateTime : Type;
  from_timestamp : Z -> option DateTime;
  iso_utc : DateTime -> string;
  year_of : DateTime -> string
}.

(** [str::parse::<i32>] *)
Definition parse_i32 (s : string) : option Z :=
  let (neg, digits) := match s with
                       | String "-" t => (true, t)
                       | _ => (false, strip_plus s)
                       end in
  if is_empty digits then None else
  match parse_digits 0 digits with
  | Some n =>
      let z := if neg then (- Z.of_N n)%Z else Z.of_N n in
      if ((-2147483648 <=? z) && (z <=? 2147483647))%Z then Some z else None
  | None => None
  end.

Record ListStagedFilesArgs := { ls_device : option string; ls_timeout : N }.

Section staged.
Context {X : External} {Sh : Sha256} {F : Type} {SH : StagingHost F} {SD : StagingDir F}.
(** [Utc::now()] *)
Context (utc_now : DateTime).

(** A directory entry that is kept: its name, path and modification time. *)
Definition Prelim : Type := string * string * option Z.

Definition staged_entry (e : DirEntry) : Result (option Prelim) IoError :=
  let? meta := de_metadata e in
  Ok (if is_file (md_kind meta) && negb (starts_with "." (de_name e))
      then Some (de_name e, de_path e, md_modified meta) else None).

Fixpoint gather (rd : list (Result DirEntry IoError)) : Result (list Prelim) IoError :=
  match rd with
  | [] => Ok []
  | next :: rest =>
      let? entry := next in
      let? kept := staged_entry entry in
      let? found := gather rest in
      Ok (match kept with Some p => p :: found | None => found end)
  end.

(** [sort_by(|a, b| a.0.cmp(&b.0))], which is stable. *)
Definition name_le (a b : Prelim) : Prop := strings.String.le a.1.1 b.1.1.
#[global] Instance name_le_dec : RelDecision name_le := fun a b => strings.String.le_dec a.1.1 b.1.1.
Definition sort_names : list Prelim -> list Prelim := merge_sort name_le.

Definition systemtime_to_iso (t : option Z) : string :=
  match t with
  | None => "unknown"
  | Some t => iso_utc (default utc_now (from_timestamp (Z.max 0 t)))
  end.

(** ** The tool *)

Context {D Net : Type} {RC : RustezClient D Net} {L : Type}.

#[local] Abbreviation Tool := (Proc (Site (F := F) (D := D) (Net := Net) (L := L))).

Fixpoint hash_entries (prelim : list Prelim) : Tool (list StagedFileEntry) JmcpError :=
  match prelim with
  | [] => proc_ret (Ok [])
  | (name, path, mtime) :: rest =>
      let> (sha, size) := sha256_file path in
      let> out := hash_entries rest in
      proc_ret (Ok ({| sf_name := name; sf_size_bytes := size; sf_sha256 := hex32 sha;
                       sf_mtime_iso := systemtime_to_iso mtime |} :: out))
  end.

(** The kept names, and whether and out of how many; the first pass. *)
Definition list_names (staging_dir : string) (f : F) : Result (list Prelim * bool * nat) JmcpError :=
  if negb (fs_exists f staging_dir) then Ok ([], false, O) else
  let? rd := map_err Io (fs_read_dir f staging_dir) in
  let? found := map_err Io (gather rd) in
  let prelim := sort_names found in
  let total_found := length prelim in
  let truncated := (STAGING_DIR_MAX_ENTRIES <? total_found)%nat in
  Ok (if truncated then take STAGING_DIR_MAX_ENTRIES prelim else prelim, truncated, total_found).

Definition read_staging_dir (staging_dir : string) : Tool StagingDirResult JmcpError :=
  let> (prelim, truncated, total_found) := fs_reads (list_names staging_dir) in
  let> out := hash_entries prelim in
  proc_ret (Ok {| entries := out; truncated := truncated; total_found := total_found |}).

Definition staged_value (e : StagedFileEntry) : Value :=
  Object [("name", Str (sf_name e)); ("size_bytes", Number (Z.of_N (sf_size_bytes e)));
    ("sha256", Str (sf_sha256 e)); ("mtime_iso", Str (sf_mtime_iso e))].
Definition device_file_value (e : DeviceFileEntry) : Value :=
  Object [("path", Str (df_path e)); ("size_bytes", Number (Z.of_N (df_size_bytes e)));
    ("mtime_iso", Str (df_mtime_iso e))].

Definition staged_payload (staging_dir : string) (staged : StagingDirResult) (device : Value)
    (device_files : Value) : Value :=
  Object [("staging_dir", Str staging_dir);
    ("staged_files", Array (map staged_value (entries staged)));
    ("staged_files_truncated", Bool (truncated staged));
    ("staged_files_total_found", Number (Z.of_nat (total_found staged)));
    ("device", device); ("device_files", device_files)].

Definition current_year : Z := default 2026%Z (parse_i32 (year_of utc_now)).

(** What the device says of [/var/tmp/]. *)
Definition list_var_tmp (device_name : string) : Tool (list DeviceFileEntry) JmcpError :=
  let> _ := proc_get (fun s => get (inventory (site_dm s)) device_name) in
  let> g := on_dm (fun now => open now device_name) in
  with_session g (fun d =>
    let> raw := proc_map_err (fun e => DeviceProbeFailed "list_var_tmp" (rustez_display e))
                  (site_cli d "file list /var/tmp/ detail") in
    proc_ret (Ok (parse_var_tmp_listing raw current_year))).

Definition list_staged_files (args : ListStagedFilesArgs) (staging_dir : string)
  : Tool Value JmcpError :=
  let timeout := from_secs (ls_timeout args) in
  bounded timeout (Timeout timeout)
    (let> staged := read_staging_dir staging_dir in
     match ls_device args with
     | None => proc_ret (Ok (staged_payload staging_dir staged Null Null))
     | Some device_name =>
         let> found := list_var_tmp device_name in
         proc_ret (Ok (staged_payload staging_dir staged (Str device_name)
                         (Array (map device_file_value found))))
     end).

End staged.
