(* ===== verification/Upgrade.v ===== *)
(** * Upgrading a device ([tools/upgrade_junos.rs])

    A read-only preflight, a second one under the device's lease, then: the
    baseline, the transfer of the image, the installation and reboot, the wait
    for the target version, and the baseline again. *)

From S2P Require Import Prelude RustStr Fmt Errors Helpers NetAddr Inventory Async JsonValue Proc.
From S2P Require Import DeviceManager RustPath Transfer.
From stdpp Require Import sorting.
From Stdlib Require Import Ascii.

(** ** Reading the device's answers *)

Definition strip_prefix (p s : string) : option string :=
  if starts_with p s then Some (str_drop (String.length p) s) else None.

Fixpoint first_version (rows : list string) : option string :=
  match rows with
  | [] => None
  | line :: rest =>
      match strip_prefix "Junos:" (trim line) with
      | Some t => if is_empty (trim t) then first_version rest else Some (trim t)
      | None => first_version rest
      end
  end.
Definition parse_junos_version (output : string) : option string := first_version (lines output).

Definition detect_cluster_active (output : string) : bool :=
  existsb (fun line => starts_with "Cluster ID:" (trim line)) (lines output).

Definition checked_u64 (n : N) : option N := if (n <=? U64_MAX)%N then Some n else None.

Fixpoint rollback_go (total_secs num : N) (have_num : bool) (s : string) : option N :=
  match s with
  | "" => if have_num then None else Some total_secs
  | String c rest =>
      match to_digit 10 c with
      | Some d =>
          n ← checked_u64 (num * 10);
          n ← checked_u64 (n + d);
          rollback_go total_secs n true rest
      | None =>
          if Ascii.eqb c "m" then
            if negb have_num then None else
            m ← checked_u64 (num * 60);
            t ← checked_u64 (total_secs + m);
            rollback_go t 0 false rest
          else if Ascii.eqb c "s" then
            if negb have_num then None else
            t ← checked_u64 (total_secs + num);
            rollback_go t 0 false rest
          else None
      end
  end.
Definition parse_rollback_duration (token : string) : option N := rollback_go 0 0 false token.

Definition rollback_needle : string := "rollback in ".
Fixpoint first_rollback (rows : list string) : option N :=
  match rows with
  | [] => None
  | line :: rest =>
      match str_find rollback_needle (trim line) with
      | Some (_, found) =>
          let tail := str_drop (String.length rollback_needle) found in
          parse_rollback_duration (match find_ws tail with Some (token, _) => token | None => tail end)
      | None => first_rollback rest
      end
  end.
Definition detect_active_commit_confirmed (output : string) : option N :=
  first_rollback (lines output).

(** ** Baselines ([BTreeMap], iterated in the order of its keys) *)

Definition Baseline : Type := gmap string string.
Record BaselineDiff := { added : list string; removed : list string }.

Definition baseline_lines (side : option string) : list string :=
  match side with
  | Some s => List.filter (fun l => negb (is_empty l)) (map trim (lines s))
  | None => []
  end.
Definition lines_missing (l from : list string) : list string :=
  List.filter (fun x => bool_decide (x ∉ from)) l.
Definition line_diff (pre post : option string) : BaselineDiff :=
  {| added := lines_missing (baseline_lines post) (baseline_lines pre);
     removed := lines_missing (baseline_lines pre) (baseline_lines post) |}.
Definition diff_baseline (pre post : Baseline) : gmap string BaselineDiff :=
  set_to_map (fun k => (k, line_diff (pre !! k) (post !! k))) (dom pre ∪ dom post : gset string).

Definition btree_value {A} (f : A -> Value) (m : gmap string A) : Value :=
  Object (omap (fun k => v ← m !! k; Some (k, f v))
            (merge_sort strings.String.le (elements (dom m : gset string)))).
Definition strs_value (l : list string) : Value := Array (map Str l).
Definition diff_value (d : BaselineDiff) : Value :=
  Object [("added", strs_value (added d)); ("removed", strs_value (removed d))].

(** ** Preflight *)

Definition UPGRADE_DISK_HEADROOM_BYTES : N := 32 * 1024 * 1024.
Definition ESTIMATED_OUTAGE_SECONDS : N := 420.

Record UpgradeJunosArgs := {
  up_device : string; up_source_path : string; up_target_version : string;
  up_confirm : bool; up_timeout : N; up_reboot_wait_secs : N
}.

Record PreflightFacts := {
  cluster_status_output : string; version_output : string; commit_output : string;
  storage_output : string; local_image_size : N; local_image_sha256 : list N;
  image_basename : string
}.

Inductive PreflightDecision :=
  | ClusterUnsupported
  | UnparseableVersion
  | UnparseableStorage
  | AlreadyAtTarget (current_version : string)
  | CommitConfirmedActive (rollback_secs : N)
  | NotEnoughDisk (free required : N)
  | NeedsConfirmation (payload : Value)
  | Proceed.

Definition outage_warning : string :=
  "DESTRUCTIVE: this will install a new Junos image and REBOOT the device, causing an outage of approximately 5–7 minutes. Re-call with confirm=true to proceed.".

Definition confirmation_payload (facts : PreflightFacts) (args : UpgradeJunosArgs)
    (current_version : string) (free : N) : Value :=
  Object [("code", Str "confirmation_required"); ("router", Str (up_device args));
    ("current_version", Str current_version); ("target_version", Str (up_target_version args));
    ("image_basename", Str (image_basename facts));
    ("image_size_bytes", Number (Z.of_N (local_image_size facts)));
    ("device_var_free_bytes", Number (Z.of_N free));
    ("estimated_outage_seconds", Number (Z.of_N ESTIMATED_OUTAGE_SECONDS));
    ("preflight_blockers", Array []); ("warning", Str outage_warning)].

Definition required_space (facts : PreflightFacts) : N :=
  saturating_add (saturating_mul (local_image_size facts) 2) UPGRADE_DISK_HEADROOM_BYTES.

Section upgrade.
Context {X : External}.

Definition evaluate_preflight (facts : PreflightFacts) (args : UpgradeJunosArgs)
  : PreflightDecision :=
  if detect_cluster_active (cluster_status_output facts) then ClusterUnsupported else
  match parse_junos_version (version_output facts) with
  | None => UnparseableVersion
  | Some current_version =>
      if String.eqb current_version (up_target_version args) then AlreadyAtTarget current_version else
      match detect_active_commit_confirmed (commit_output facts) with
      | Some rollback_secs => CommitConfirmedActive rollback_secs
      | None =>
          match parse_storage_free_bytes (storage_output facts) with
          | Err _ => UnparseableStorage
          | Ok free =>
              if (free <? required_space facts)%N then NotEnoughDisk free (required_space facts)
              else if negb (up_confirm args)
              then NeedsConfirmation (confirmation_payload facts args current_version free)
              else Proceed
          end
      end
  end.

Definition install_needles : list string :=
  ["connection closed"; "connection reset"; "broken pipe"; "unexpected eof"; "early eof";
   "channel closed"; "session closed"].
Definition install_error_indicates_session_drop (err : string) : bool :=
  existsb (fun needle => contains needle (to_ascii_lowercase err)) install_needles.
Definition error_indicates_stale_session (err : string) : bool := error_is_transient err.

Definition build_transfer_args (args : UpgradeJunosArgs) : TransferFileArgs := {|
  tf_device := up_device args; tf_source_path := up_source_path args; tf_force := false;
  tf_verify := true; tf_timeout := up_timeout args |}.

Definition BASELINE_COMMANDS : list string :=
  ["show version"; "show interfaces terse | except " ^^ dquote ^^ "\.[0-9]+ " ^^ dquote;
   "show route summary"; "show security flow session summary"; "show system alarms";
   "show system core-dumps no-forwarding"].

Record BuildSuccessArgs := {
  bs_router : string; bs_from_version : string; bs_to_version : string;
  bs_image_basename : string; bs_image_sha256 : list N; bs_elapsed_seconds : N;
  bs_preflight_secs : N; bs_transfer_secs : N; bs_install_secs : N;
  bs_reboot_wait_secs : N; bs_postverify_secs : N;
  bs_pre_baseline : Baseline; bs_post_baseline : Baseline
}.

Definition build_success_response (a : BuildSuccessArgs) : list (string * Value) :=
  let n x := Number (Z.of_N x) in
  [("status", Str "upgraded"); ("router", Str (bs_router a));
   ("from_version", Str (bs_from_version a)); ("to_version", Str (bs_to_version a));
   ("image_basename", Str (bs_image_basename a)); ("image_sha256", Str (hex32 (bs_image_sha256 a)));
   ("elapsed_seconds", n (bs_elapsed_seconds a));
   ("phase_timings", Object [("preflight_secs", n (bs_preflight_secs a));
      ("transfer_secs", n (bs_transfer_secs a)); ("install_secs", n (bs_install_secs a));
      ("reboot_wait_secs", n (bs_reboot_wait_secs a)); ("postverify_secs", n (bs_postverify_secs a))]);
   ("pre_baseline", btree_value Str (bs_pre_baseline a));
   ("post_baseline", btree_value Str (bs_post_baseline a));
   ("baseline_diff", btree_value diff_value (diff_baseline (bs_pre_baseline a) (bs_post_baseline a)))].

(** [serde_json::Value] as the error carries it. *)
Context (json_value : Value -> JsonValue).

(** [None] is the [unreachable!] arm. *)
Definition finish_preflight (decision : PreflightDecision) (args : UpgradeJunosArgs)
  : option (Result Value JmcpError) :=
  match decision with
  | ClusterUnsupported => Some (Err (UpgradeClusterUnsupported (up_device args)))
  | UnparseableVersion =>
      Some (Err (DeviceProbeFailed "version_parse" "could not parse Junos version from `show version`"))
  | UnparseableStorage =>
      Some (Err (DeviceProbeFailed "storage_parse" "could not parse free bytes from `show system storage`"))
  | AlreadyAtTarget current_version =>
      Some (Ok (Object [("status", Str "already_at_target"); ("router", Str (up_device args));
        ("current_version", Str current_version); ("target_version", Str (up_target_version args));
        ("message", Str "device already running target version; no action taken")]))
  | CommitConfirmedActive rollback_secs =>
      Some (Err (UpgradeCommitConfirmedActive (up_device args) rollback_secs))
  | NotEnoughDisk free required =>
      Some (Err (InsufficientDisk free required ("device '" ^^ up_device args
        ^^ "' /var/tmp (install needs 2× image + 32 MiB headroom)")))
  | NeedsConfirmation payload => Some (Err (ConfirmationRequired (json_value payload)))
  | Proceed => None
  end.

End upgrade.

(** ** The tool *)

(** [FlockDeviceLock] of [mecmcp_device]. *)
Class DeviceLeases {X : External} (L : Type) := {
  LeaseGuard : Type;
  lease_acquire (router holder correlation_id : string) : Proc L LeaseGuard JmcpError;
  lease_release : LeaseGuard -> L -> L
}.

Section tool.
Context {X : External} {CS : CancelSelect} {Sh : Sha256} {F : Type} {SH : StagingHost F}.
Context {D Net : Type} {RC : RustezClient D Net} {SR : ScpRunner (Net * F)}.
Context {L : Type} {DL : DeviceLeases L}.
Context (permit_wait : string -> N) (transfer_cfg : TransferConfig) (json_value : Value -> JsonValue).

#[local] Abbreviation Tool := (Proc (Site (F := F) (D := D) (Net := Net) (L := L))).

(** [open_validated]: [k] gets the session that answered, and its answer. *)
Definition with_validated {T} (router command phase : string) (k : D -> string -> Tool T JmcpError)
  : Tool T JmcpError :=
  let> g := open_session router in
  match dev g with
  | None => let> _ := proc_state (drop_session g) in
            proc_ret (Err (Validation "PooledDevice used after drop"))
  | Some d =>
      proc_bind (guarded (drop_session g) (select_cancel_raw (site_cli d command))) (fun r =>
        match r with
        | Ok (Ok out) => scoped (drop_session g) (k d out)
        | Ok (Err e) =>
            let> _ := proc_state (drop_session g) in
            if error_indicates_stale_session (rustez_display e) then
              let> fresh := select_cancel (on_dm (fun _ => open_fresh router)) in
              with_session fresh (fun d =>
                let> out := probe d command phase in k d out)
            else proc_ret (Err (DeviceProbeFailed phase (rustez_display e)))
        | Err e => let> _ := proc_state (drop_session g) in proc_ret (Err e)
        end)
  end.

Definition version_command : string := "show version | match Junos:".

Definition gather_facts (router image_basename : string) (local_size : N) (local_sha : list N)
  : Tool PreflightFacts JmcpError :=
  with_validated router "show chassis cluster status" "cluster_probe" (fun d cluster =>
    let> version := probe d version_command "version_probe" in
    let> commit := probe d "show system commit" "commit_probe" in
    let> storage := probe d "show system storage no-forwarding" "storage_probe" in
    proc_ret (Ok {| cluster_status_output := cluster; version_output := version;
      commit_output := commit; storage_output := storage; local_image_size := local_size;
      local_image_sha256 := local_sha; image_basename := image_basename |})).

Fixpoint baseline_loop (d : D) (commands : list string) (out : Baseline) : Tool Baseline JmcpError :=
  match commands with
  | [] => proc_ret (Ok out)
  | cmd :: rest =>
      let> r := select_cancel_raw (site_cli d cmd) in
      baseline_loop d rest
        (<[cmd := match r with
                  | Ok s => s
                  | Err e => "<error capturing: " ^^ rustez_display e ^^ ">"
                  end]> out)
  end.
Definition capture_baseline (device_name : string) : Tool Baseline JmcpError :=
  let> g := open_session device_name in
  with_session g (fun d => baseline_loop d BASELINE_COMMANDS ∅).

Definition install_command (source_path : string) : string :=
  "request system software add /var/tmp/" ^^ source_path ^^ " no-copy reboot".

(** Phase 3.  The RPC is not raced against the token. *)
Definition install (args : UpgradeJunosArgs) : Tool unit JmcpError :=
  let> g := open_session (up_device args) in
  with_session g (fun d =>
    proc_bind (site_cli d (install_command (up_source_path args))) (fun r =>
      match r with
      | Ok _ =>
          let> cancelled := proc_is_cancelled in
          proc_ret (if cancelled then Err Cancelled else Ok tt)
      | Err e =>
          proc_ret (if install_error_indicates_session_drop (rustez_display e) then Ok tt
                    else Err (DeviceProbeFailed "install_rpc" (rustez_display e)))
      end)).

(** *** [wait_for_version] *)

Section wait.
Context (router target_version : string).
Context (budget initial_delay poll_interval attempt_deadline : N).
Context (probe_version : Tool string JmcpError).

(** What one attempt settles: the answer of the wait, or the version last seen. *)
Definition attempt_verdict (attempt : Result (option (Result string JmcpError)) JmcpError)
    (last_observed : option string) : Result string JmcpError + option string :=
  match attempt with
  | Err e => inl (Err e)
  | Ok (Some (Ok output)) =>
      match parse_junos_version output with
      | Some observed =>
          if String.eqb observed target_version then inl (Ok output) else inr (Some observed)
      | None => inr last_observed
      end
  | Ok (Some (Err err)) =>
      if error_is_transient (to_string err) then inr last_observed else inl (Err err)
  | Ok None => inr last_observed
  end.

Definition budget_exhausted (last_observed : option string) : JmcpError :=
  match last_observed with
  | Some observed => UpgradePostVerifyMismatch router target_version observed
  | None => UpgradeRebootTimeout router (as_secs budget)
  end.

Fixpoint wait_loop (fuel : nat) (start : N) (last_observed : option string)
  : Tool string JmcpError :=
  match fuel with
  | O => proc_ret (Err (budget_exhausted last_observed))
  | S f =>
      let> attempt := select_cancel_raw (proc_timeout attempt_deadline probe_version) in
      match attempt_verdict attempt last_observed with
      | inl done => proc_ret done
      | inr last_observed =>
          let> now := proc_now in
          if (budget <=? now - start)%N then proc_ret (Err (budget_exhausted last_observed)) else
          let> _ := select_cancel_raw (proc_sleep (E := JmcpError) poll_interval) in
          wait_loop f start last_observed
      end
  end.

(** Each turn but the last sleeps [poll_interval] within the budget. *)
Definition wait_fuel : nat := S (S (N.to_nat (budget / poll_interval))).

Definition wait_for_version : Tool string JmcpError :=
  let> start := proc_now in
  let> _ := select_cancel_raw (proc_sleep (E := JmcpError) initial_delay) in
  wait_loop wait_fuel start None.

End wait.

Definition await_target (args : UpgradeJunosArgs) : Tool string JmcpError :=
  wait_for_version (up_device args) (up_target_version args) (from_secs (up_reboot_wait_secs args))
    (from_secs 30) (from_secs 15) (from_secs 30)
    (on_dm (fun now => run_cli now (up_device args) version_command)).

(** *** The destructive phases *)

Definition run_destructive (args : UpgradeJunosArgs) (facts : PreflightFacts)
    (authority_warning : option string) (correlation_id : string) : Tool Value JmcpError :=
  let> started := proc_now in
  let> pre_baseline := capture_baseline (up_device args) in
  let> phase1_done := proc_now in
  let> _ := transfer_file permit_wait transfer_cfg (build_transfer_args args) in
  let> phase2_done := proc_now in
  let> _ := install args in
  let> phase3_done := proc_now in
  let> _ := await_target args in
  let> phase4_done := proc_now in
  let> post_baseline := capture_baseline (up_device args) in
  let> finished := proc_now in
  let response := build_success_response {|
    bs_router := up_device args;
    bs_from_version := default "<unknown>" (parse_junos_version (version_output facts));
    bs_to_version := up_target_version args; bs_image_basename := up_source_path args;
    bs_image_sha256 := local_image_sha256 facts;
    bs_elapsed_seconds := as_secs (finished - started); bs_preflight_secs := 0;
    bs_transfer_secs := as_secs (phase2_done - phase1_done);
    bs_install_secs := as_secs (phase3_done - phase2_done);
    bs_reboot_wait_secs := as_secs (phase4_done - phase3_done); bs_postverify_secs := 0;
    bs_pre_baseline := pre_baseline; bs_post_baseline := post_baseline |} in
  let response := obj_insert "correlation_id" (Str correlation_id) response in
  proc_ret (Ok (Object match authority_warning with
                       | Some warning => obj_insert "warning" (Str warning) response
                       | None => response
                       end)).

Definition with_lease {T} (router holder correlation_id : string) (body : Tool T JmcpError)
  : Tool T JmcpError :=
  let> lease := proc_at site_leases
                  (fun l s => mk_site (site_dm s) (site_fs s) (site_locks s) l)
                  (lease_acquire router holder correlation_id) in
  scoped (fun s => mk_site (site_dm s) (site_fs s) (site_locks s) (lease_release lease (site_leases s)))
    body.

(** Go on with [Proceed]; every other decision ends the call. *)
Definition proceed_or_finish (args : UpgradeJunosArgs) (decision : PreflightDecision)
    (go : Tool Value JmcpError) : Tool Value JmcpError :=
  match finish_preflight json_value decision args with Some r => proc_ret r | None => go end.

Definition dispatch_preflight (args : UpgradeJunosArgs) (facts : PreflightFacts)
    (authority_warning : option string) (correlation_id : string) : Tool Value JmcpError :=
  proceed_or_finish args (evaluate_preflight facts args)
    (with_lease (up_device args) "upgrade_junos" correlation_id
      (let> locked_facts := gather_facts (up_device args) (image_basename facts)
                              (local_image_size facts) (local_image_sha256 facts) in
       proceed_or_finish args (evaluate_preflight locked_facts args)
         (run_destructive args locked_facts authority_warning correlation_id))).

(** The device's checks: key authentication, then who owns it. *)
Definition check_upgrade_device (args : UpgradeJunosArgs) (allow_plane_owned_writes : bool)
    (m : DeviceManager (D := D) (Net := Net)) : Result (option string) JmcpError :=
  let? (entry, _) := key_entry (up_device args) m in
  check_plane_owned_operation "upgrade_junos" (up_device args) (config_authority entry)
    allow_plane_owned_writes.

Definition upgrade_body (args : UpgradeJunosArgs) (allow_plane_owned_writes : bool)
    (correlation_id : string) : Tool Value JmcpError :=
  let> cancelled := proc_is_cancelled in
  if cancelled then proc_ret (Err Cancelled) else
  let> _ := proc_ret (validate_source_basename (up_source_path args)) in
  let> authority_warning :=
    proc_get (fun s => check_upgrade_device args allow_plane_owned_writes (site_dm s)) in
  let local_path := path_join (staging_dir transfer_cfg) (up_source_path args) in
  let> _ := fs_reads (check_staged_file local_path) in
  let> (local_sha, local_size) := sha256_file_cancellable local_path in
  let> facts := gather_facts (up_device args) (up_source_path args) local_size local_sha in
  dispatch_preflight args facts authority_warning correlation_id.

Definition upgrade_junos (args : UpgradeJunosArgs) (allow_plane_owned_writes : bool)
    (correlation_id : string) : Tool Value JmcpError :=
  let timeout := from_secs (up_timeout args) in
  bounded timeout (UpgradeOuterTimeout timeout)
    (upgrade_body args allow_plane_owned_writes correlation_id).

End tool.
