(* ===== verification/Trace.v ===== *)
(** * Traces of cancellable functions

    Some states carry a history that calls only extend.  [traces p Q]: whatever
    the history was, [p] extends it by a list of events of which [Q] holds
    together with how [p] ended ([None] when it was dropped). *)

From S2P Require Import Prelude Errors Async Proc.

Section trace.
Context {S Ev : Type} (hist : S -> list Ev).

Definition traces {T E} (p : Proc S T E) (Q : option (Result T E) -> list Ev -> Prop) : Prop :=
  forall h, holds (fun s => hist s = h) p
    (fun r s => exists t, hist s = h ++ t /\ Q (Some r) t)
    (fun s => exists t, hist s = h ++ t /\ Q None t).

Lemma traces_weaken {T E} (p : Proc S T E) (Q Q' : option (Result T E) -> list Ev -> Prop) :
  traces p Q -> (forall o t, Q o t -> Q' o t) -> traces p Q'.
Proof.
  intros H HQ h. eapply holds_weaken; [apply (H h)|done| |]; cbn.
  - intros r s (t & ? & ?). eauto.
  - intros s (t & ? & ?). eauto.
Qed.

(** A function that leaves the history alone. *)
Definition silent {T E} (p : Proc S T E) : Prop :=
  forall h, keeps_inv (fun s => hist s = h) p.

Lemma traces_silent {T E} (p : Proc S T E) (Q : option (Result T E) -> list Ev -> Prop) :
  silent p -> (forall o, Q o []) -> traces p Q.
Proof.
  intros H HQ h. eapply holds_weaken; [apply (H h)|done| |]; cbn; intros; exists []; by rewrite app_nil_r.
Qed.

Lemma traces_ret {T E} (r : Result T E) (Q : option (Result T E) -> list Ev -> Prop) :
  Q (Some r) [] -> Q None [] -> traces (proc_ret r) Q.
Proof.
  intros H1 H2 h. apply holds_ret. intros s Hs. split; exists []; by rewrite app_nil_r.
Qed.

Lemma traces_get {T E} (f : S -> Result T E) (Q : option (Result T E) -> list Ev -> Prop) :
  (forall s, Q (Some (f s)) []) -> Q None [] -> traces (proc_get f) Q.
Proof.
  intros H1 H2 h. apply holds_get. intros s Hs. split; exists []; by rewrite app_nil_r.
Qed.

Lemma traces_bind {T E U F} (p : Proc S T E) (k : Result T E -> Proc S U F)
    (M : option (Result T E) -> list Ev -> Prop) (Q : option (Result U F) -> list Ev -> Prop) :
  traces p M -> (forall t, M None t -> Q None t) ->
  (forall r t, M (Some r) t -> traces (k r) (fun o t' => Q o (t ++ t'))) ->
  traces (proc_bind p k) Q.
Proof.
  intros Hp HN Hk h ct now s Hs. destruct (Hp h ct now s Hs) as [(t & Ht & HM) Hd].
  destruct (Hk _ t HM (h ++ t) ct (now + rpc_time (p ct now s))%N _ Ht) as [(t' & Ht' & HQ) Hd'].
  split.
  - exists (t ++ t'). by rewrite app_assoc.
  - intros j. cbn. case_match.
    + destruct (Hd j) as (t0 & ? & ?). eauto.
    + destruct (Hd' (j - rpc_time (p ct now s))%N) as (t0 & ? & ?). exists (t ++ t0).
      rewrite app_assoc. eauto.
Qed.

Lemma traces_try {T E U F} (conv : E -> F) (p : Proc S T E) (k : T -> Proc S U F)
    (M : option (Result T E) -> list Ev -> Prop) (Q : option (Result U F) -> list Ev -> Prop) :
  traces p M -> (forall t, M None t -> Q None t) ->
  (forall e t, M (Some (Err e)) t -> Q (Some (Err (conv e))) t /\ Q None t) ->
  (forall x t, M (Some (Ok x)) t -> traces (k x) (fun o t' => Q o (t ++ t'))) ->
  traces (proc_try conv p k) Q.
Proof.
  intros Hp HN He Hk. eapply traces_bind; [done|done|]. intros [x|e] t HM; [eauto|].
  destruct (He e t HM). apply traces_ret; by rewrite app_nil_r.
Qed.

(** A step that says nothing: only its value matters. *)
Lemma traces_quiet {T E U} (p : Proc S T E) (k : T -> Proc S U E) (R : T -> Prop)
    (Q : option (Result U E) -> list Ev -> Prop) :
  traces p (fun o t => t = [] /\ forall x, o = Some (Ok x) -> R x) ->
  Q None [] -> (forall e, Q (Some (Err e)) []) ->
  (forall x, R x -> traces (k x) Q) -> traces (proc_then p k) Q.
Proof.
  intros Hp HN He Hk. eapply traces_try; [exact Hp| | |].
  - by intros t [-> _].
  - intros e t [-> _]. auto.
  - intros x t [-> HR]. apply (Hk x). by apply HR.
Qed.
Lemma traces_quiet' {T E U} (p : Proc S T E) (k : T -> Proc S U E)
    (Q : option (Result U E) -> list Ev -> Prop) :
  silent p -> Q None [] -> (forall e, Q (Some (Err e)) []) ->
  (forall x, traces (k x) Q) -> traces (proc_then p k) Q.
Proof.
  intros Hp HN He Hk. apply (traces_quiet _ _ (fun _ => True)); [|done..|auto].
  by apply traces_silent.
Qed.

Lemma traces_scoped {T E} cleanup (p : Proc S T E) (Q : option (Result T E) -> list Ev -> Prop) :
  (forall s, hist (cleanup s) = hist s) -> traces p Q -> traces (scoped cleanup p) Q.
Proof.
  intros Hc H h. apply holds_scoped. eapply holds_weaken; [apply (H h)|done| |]; cbn; intros;
    rewrite Hc; done.
Qed.
Lemma traces_guarded {T E} cleanup (p : Proc S T E) (Q : option (Result T E) -> list Ev -> Prop) :
  (forall s, hist (cleanup s) = hist s) -> traces p Q -> traces (guarded cleanup p) Q.
Proof.
  intros Hc H h. apply holds_guarded. eapply holds_weaken; [apply (H h)|done|done|]; cbn; intros;
    rewrite Hc; done.
Qed.

Lemma traces_map_err {T E F} (conv : E -> F) (p : Proc S T E) M (Q : option (Result T F) -> list Ev -> Prop) :
  traces p M -> (forall t, M None t -> Q None t) ->
  (forall r t, M (Some r) t -> Q (Some (map_err conv r)) t /\ Q None t) ->
  traces (proc_map_err conv p) Q.
Proof.
  intros Hp HN HQ. eapply traces_bind; [done|done|]. intros r t HM. destruct (HQ r t HM).
  apply traces_ret; by rewrite app_nil_r.
Qed.

Lemma traces_timeout {T E F} limit (p : Proc S T E) (Q : option (Result T E) -> list Ev -> Prop)
    (Q' : option (Result (option (Result T E)) F) -> list Ev -> Prop) :
  traces p Q -> (forall t, Q None t -> Q' (Some (Ok None)) t /\ Q' None t) ->
  (forall r t, Q (Some r) t -> Q' (Some (Ok (Some r))) t) ->
  traces (proc_timeout limit p) Q'.
Proof.
  intros H HN HQ h ct now s Hs. destruct (H h ct now s Hs) as [(t & Ht & H1) Hd].
  unfold proc_timeout, fut_timeout. case_match; cbn; split; eauto.
  - intros k. destruct (Hd k) as (t' & ? & H'%HN). naive_solver.
  - destruct (Hd limit) as (t' & ? & H'%HN). naive_solver.
  - intros k. destruct (Hd k) as (t' & ? & H'%HN). naive_solver.
Qed.

Lemma traces_bounded {T E} limit (e : E) (p : Proc S T E) (Q : option (Result T E) -> list Ev -> Prop) :
  traces p Q -> (forall t, Q None t -> Q (Some (Err e)) t) ->
  (forall r t, Q (Some r) t -> Q None t) -> traces (bounded limit e p) Q.
Proof.
  intros H HN HQ. eapply traces_bind.
  - eapply (traces_timeout _ _ _ (fun o t =>
      match o with
      | None => Q None t
      | Some (Ok (Some r)) => Q (Some r) t
      | Some (Ok None) => Q (Some (Err e)) t
      | Some (Err _) => False
      end)); [exact H| |]; naive_solver.
  - done.
  - intros [[r|]|e'] t HM; [| |done]; apply traces_ret; rewrite app_nil_r; eauto.
Qed.

(** The same of a [Future]. *)
Definition ftraces {T E} (f : Future S T E) (Q : option (Result T E) -> list Ev -> Prop) : Prop :=
  traces (proc_fut (fun _ => f)) Q.

Lemma ftraces_bind {T E U G} (f : Future S T E) (k : Result T E -> Future S U G)
    (M : option (Result T E) -> list Ev -> Prop) (Q : option (Result U G) -> list Ev -> Prop) :
  ftraces f M -> (forall t, M None t -> Q None t) ->
  (forall r t, M (Some r) t -> ftraces (k r) (fun o t' => Q o (t ++ t'))) ->
  ftraces (fut_bind f k) Q.
Proof. exact (traces_bind (proc_fut (fun _ => f)) (fun r => proc_fut (fun _ => k r)) M Q). Qed.

Lemma ftraces_keeps {T E} (f : Future S T E) (Q : option (Result T E) -> list Ev -> Prop) :
  keeps hist f -> (forall s, Q (Some (rpc_result (f s))) []) -> Q None [] -> ftraces f Q.
Proof.
  intros Hf HQ HN h ct now s <-. destruct (Hf s) as [H1 H2].
  split; [exists []; rewrite app_nil_r|intros k; exists []; rewrite app_nil_r]; split; auto.
Qed.

Context {X : External} {CS : CancelSelect} {CL : CancelSelectLaws}.

Lemma traces_select_raw {T E} (p : Proc S T E) (Q : option (Result T E) -> list Ev -> Prop)
    (Q' : option (Result (Result T E) JmcpError) -> list Ev -> Prop) :
  traces p Q -> (forall r t, Q (Some r) t -> Q' (Some (Ok r)) t) ->
  (forall t, Q None t -> Q' (Some (Err Cancelled)) t /\ Q' None t) ->
  traces (select_cancel_raw p) Q'.
Proof.
  intros H HQ HN h. eapply (holds_weaken _ _ _ _ _
    (fun s => exists t, hist s = h ++ t /\ Q None t)).
  - eapply (holds_select_raw _ _ _ _ (fun r s => exists t, hist s = h ++ t /\ Q' (Some r) t));
      [apply H|naive_solver|]. intros s (t & ? & H'%HN). naive_solver.
  - done.
  - done.
  - intros s (t & ? & H'%HN). naive_solver.
Qed.

Lemma silent_bind {T E U F} (p : Proc S T E) (k : Result T E -> Proc S U F) :
  silent p -> (forall r, silent (k r)) -> silent (proc_bind p k).
Proof. intros H1 H2 h. apply inv_bind; [apply H1|intros; apply H2]. Qed.
Lemma silent_then {T E U} (p : Proc S T E) (k : T -> Proc S U E) :
  silent p -> (forall r, silent (k r)) -> silent (proc_then p k).
Proof. intros H1 H2 h. apply inv_then; [apply H1|intros; apply H2]. Qed.
Lemma silent_select {T} (p : Proc S T JmcpError) : silent p -> silent (select_cancel p).
Proof. intros H h. apply inv_select, H. Qed.
Lemma silent_select_raw {T E} (p : Proc S T E) : silent p -> silent (select_cancel_raw p).
Proof. intros H h. apply inv_select_raw, H. Qed.
Lemma silent_ret {T E} (r : Result T E) : silent (proc_ret r).
Proof. intros h. apply inv_ret. Qed.
Lemma silent_get {T E} (f : S -> Result T E) : silent (proc_get f).
Proof. intros h. apply inv_get. Qed.
Lemma silent_state {E} (f : S -> S) : (forall s, hist (f s) = hist s) -> silent (proc_state (E := E) f).
Proof. intros H h. apply inv_state. intros s. by rewrite H. Qed.

End trace.
