(* ===== verification/TransferSpec.v ===== *)
(** * What the file transfer promises

    Every call the tool makes of a device is an event of the device's history;
    the theorems speak of the events a run adds, whether it ends or is dropped
    by its deadline. *)

From S2P Require Import Prelude RustStr Fmt Errors NetAddr Inventory Async JsonValue Proc.
From S2P Require Import Trace DeviceManager DeviceManagerSpec RustPath Transfer.
From Stdlib Require Import Ascii.

(** A CLI command and its answer, if it gave one; an SCP session. *)
Inductive Event :=
  | Asked (command : string) (answer : option string)
  | Uploaded (job : ScpJob)
  | Fetched (job : ScpFetchJob).

(** [R past e] of every event [e], with the events before it. *)
Fixpoint each (R : list Event -> Event -> Prop) (past t : list Event) : Prop :=
  match t with
  | [] => True
  | e :: t' => R past e /\ each R (past ++ [e]) t'
  end.

Lemma each_app R past t t' : each R past (t ++ t') <-> each R past t /\ each R (past ++ t) t'.
Proof.
  revert past. induction t as [|e t IH]; intros past; cbn; [by rewrite app_nil_r; tauto|].
  rewrite IH, <- app_assoc. cbn. tauto.
Qed.

Lemma each_impl (R R' : list Event -> Event -> Prop) past t :
  (forall p e, R p e -> R' p e) -> each R past t -> each R' past t.
Proof. intros H. revert past. induction t as [|e t IH]; cbn; [done|]. intros past []. auto. Qed.

(** The past may be longer than what the steps looked at. *)
Lemma each_past (R : list Event -> Event -> Prop) extra past t :
  (forall p e, R p e -> R (extra ++ p) e) -> each R past t -> each R (extra ++ past) t.
Proof.
  intros H. revert past. induction t as [|e t IH]; intros past; cbn; [done|].
  intros [H1 H2]. split; [auto|]. rewrite <- app_assoc. auto.
Qed.

Section history.
Context {X : External} {D Net F : Type} {RC : RustezClient D Net} {SR : ScpRunner (Net * F)}.
Context (history : Net -> list Event).

(** A session records what it was asked and an SCP session that it began;
    connecting records nothing. *)
Class HistoryLaws : Prop := {
  cli_recorded : forall d c n,
    history (rpc_state (device_cli d c n)) =
    history n ++ [Asked c (result_ok (rpc_result (device_cli d c n)))];
  cli_cut : forall d c n k,
    history (rpc_dropped (device_cli d c n) k) = history n \/
    history (rpc_dropped (device_cli d c n) k) = history n ++ [Asked c None];
  open_unrecorded : forall p, keeps history (device_open p);
  run_recorded : forall job,
    traces (fun w : Net * F => history w.1) (runner_run job)
      (fun _ t => t = [] \/ t = [Uploaded job]);
  fetch_recorded : forall job,
    traces (fun w : Net * F => history w.1) (runner_fetch job)
      (fun _ t => t = [] \/ t = [Fetched job])
}.

Context {HL : HistoryLaws} {CS : CancelSelect} {CL : CancelSelectLaws} {L : Type}.

#[local] Abbreviation Site := (Site (F := F) (D := D) (Net := Net) (L := L)).
Definition hist (s : Site) : list Event := history (net (site_dm s)).

Lemma hist_drop g s : hist (drop_session g s) = hist s.
Proof. done. Qed.
Lemma hist_release r s : hist (release r s) = hist s.
Proof. done. Qed.

Lemma silent_on_dm {T E} (f : N -> Future (DeviceManager (D := D) (Net := Net)) T E) :
  (forall now, keeps (fun m => history (net m)) (f now)) -> silent hist (on_dm (L := L) (F := F) f).
Proof. intros H h. apply inv_keeps. intros ct now s. apply (H now). Qed.

Lemma silent_open r : silent hist (open_session r).
Proof.
  apply (silent_select _ (CL := CL)). apply silent_on_dm. intros now. apply open_keeps_seen, open_unrecorded.
Qed.

Lemma silent_acquire wait r : silent hist (acquire wait r).
Proof. intros h ct now s <-. done. Qed.

Lemma silent_pure {T E} (p : Proc Site T E) :
  (forall ct now s, rpc_state (p ct now s) = s /\ forall k, rpc_dropped (p ct now s) k = s) ->
  silent hist p.
Proof. intros H h. by apply inv_of_pure. Qed.

(** What one command adds. *)
Definition asked {T E} (c : string) (o : option (Result T E)) (t : list Event) (answer : T -> option string)
  : Prop :=
  match o with
  | Some (Ok x) => t = [Asked c (answer x)]
  | _ => t = [] \/ exists a, t = [Asked c a]
  end.

Lemma traces_cli d c :
  traces hist (site_cli (F := F) (L := L) d c) (fun o t => asked c o t Some /\
    forall r, o = Some r -> t = [Asked c (result_ok r)]).
Proof.
  intros h ct now s <-. unfold site_cli, on_dm, proc_at, proc_fut, fut_net, fut_at, hist. cbn.
  split.
  - rewrite cli_recorded. eexists. split; [reflexivity|].
    destruct (rpc_result (device_cli d c _)); cbn; split; eauto; by intros ? [= <-].
  - intros k. destruct (cli_cut d c (net (site_dm s)) k) as [->| ->]; eexists;
      (split; [|split; [|by intros ? [=]]]); [symmetry; apply app_nil_r|cbn; auto|reflexivity|cbn; eauto].
Qed.

Lemma traces_probe d c phase :
  traces hist (probe (F := F) (L := L) d c phase) (fun o t => asked c o t Some).
Proof.
  unfold probe. eapply traces_try with (M := fun o t => asked c o t (fun r : Result _ _ => result_ok r)).
  - eapply (traces_select_raw _ (CL := CL)); [apply traces_cli| |]; cbn.
    + intros r t [_ H]. by apply H.
    + intros t [H _]. auto.
  - intros t H. exact H.
  - intros e t H. split; exact H.
  - intros [out|e] t H; cbn in H; apply traces_ret; rewrite app_nil_r; cbn; rewrite ?H; eauto.
Qed.

Lemma traces_digest d path phase :
  traces hist (remote_checksum (F := F) (L := L) d path phase)
    (fun o t => (t = [] \/ exists a, t = [Asked (checksum_command path) a]) /\
       forall found, o = Some (Ok found) -> exists out,
         t = [Asked (checksum_command path) (Some out)] /\ parse_checksum_output out = Ok found).
Proof.
  unfold remote_checksum. eapply traces_try; [by apply traces_probe| | |].
  - intros t H. by split.
  - intros e t H. by split; split.
  - intros out t ->. apply traces_ret; (split; [eauto|]); [|done]. intros found [= Hp]. eauto.
Qed.

Lemma traces_with_session {T} g (k : D -> Proc Site T JmcpError) Q :
  (forall d, traces hist (k d) Q) -> Q None [] ->
  (forall e, Q (Some (Err e)) []) -> traces hist (with_session g k) Q.
Proof.
  intros H HN HE. apply traces_scoped; [done|]. destruct (dev g); [done|]. by apply traces_ret.
Qed.

Lemma traces_wire {T E} (p : Proc (Net * F) T E) Q :
  traces (fun w => history w.1) p Q -> traces hist (proc_at site_wire set_site_wire p : Proc Site T E) Q.
Proof. intros H h ct now s Hs. apply (H h ct now (site_wire s) Hs). Qed.

Lemma traces_permit {T} wait r (body : Proc Site T JmcpError) (Q : option (Result T JmcpError) -> list Event -> Prop) :
  traces hist body Q -> Q None [] -> (forall e, Q (Some (Err e)) []) ->
  traces hist (with_permit wait r body) Q.
Proof.
  intros H HN HE. apply traces_quiet'; [|done..|].
  - apply (silent_select_raw _ (CL := CL)), silent_acquire.
  - intros _. by apply traces_scoped.
Qed.

End history.
Arguments HistoryLaws {X D Net F RC SR} history.

(** ** Hashing *)

Section hashing.
Context {X : External} {CS : CancelSelect} {Sh : Sha256} {F : Type} {SH : StagingHost F}.
Context {D Net : Type} {RC : RustezClient D Net} {L : Type}.

#[local] Abbreviation Site := (Site (F := F) (D := D) (Net := Net) (L := L)).

(** The digest and size of a file as it is now. *)
Definition file_digest (f : F) (path : string) : Result (list N * N) JmcpError :=
  match fs_open_read f path with
  | Ok reads => hash_reads reads hasher_new 0
  | Err e => Err (Io e)
  end.

Lemma hash_reads_ct_spec ct now reads h size :
  (ct = None -> hash_reads_ct ct now reads h size =
                ((fs_read_time * read_count reads)%N, hash_reads reads h size)) /\
  (forall x, (hash_reads_ct ct now reads h size).2 = Ok x -> hash_reads reads h size = Ok x).
Proof.
  revert now h size. induction reads as [|[b|e] reads IH]; intros now h size; cbn.
  - split; [intros ->; by rewrite N.mul_1_r, N.add_0_r|]. intros x. by repeat case_match.
  - destruct (is_empty b).
    + split; [intros ->; by rewrite N.mul_1_r, N.add_0_r|]. intros x. by repeat case_match.
    + destruct (IH (now + fs_read_time)%N (hasher_update h b) (size + len b)%N) as [IH1 IH2].
      split.
      * intros ->. rewrite IH1 by done. cbn. f_equal. lia.
      * intros x. case_match; [by intros [=]|]. apply IH2.
  - split; [intros ->; by rewrite N.mul_1_r, N.add_0_r|]. intros x. by repeat case_match.
Qed.

(** The two ways of hashing agree: a token that is never cancelled makes no
    difference, and a digest is the file's whatever the token does. *)
Lemma sha256_cancellable_spec path (s : Site) ct now :
  (ct = None -> rpc_result (sha256_file_cancellable path ct now s) = rpc_result (sha256_file path ct now s) /\
                rpc_time (sha256_file_cancellable path ct now s) = rpc_time (sha256_file path ct now s)) /\
  (forall x, rpc_result (sha256_file_cancellable path ct now s) = Ok x ->
             file_digest (site_fs s) path = Ok x) /\
  rpc_state (sha256_file_cancellable path ct now s) = s /\
  forall k, rpc_dropped (sha256_file_cancellable path ct now s) k = s.
Proof.
  unfold sha256_file_cancellable, sha256_file, biased_select, hash_thread, file_digest.
  unfold fut_try, fut_bind. destruct (fs_open_read (site_fs s) path) as [reads|e] eqn:Ho; cbn.
  - destruct (hash_reads_ct_spec ct now reads hasher_new 0) as [H1 H2].
    destruct (hash_reads_ct ct now reads hasher_new 0) as [t r]. cbn in H2.
    split; [|split].
    + intros ->. specialize (H1 eq_refl). injection H1 as -> ->. cbn. split; [|lia].
      by destruct (hash_reads _ _ _).
    + intros x Hx. apply H2. revert Hx. by destruct ct; [destruct (_ <=? _)%N|]; destruct r.
    + destruct ct; [destruct (_ <=? _)%N|]; destruct r; cbn; split; auto; intros k; by case_match.
  - split; [|split].
    + by intros ->.
    + intros x. by destruct ct; [destruct (_ <=? _)%N|].
    + destruct ct; [destruct (_ <=? _)%N|]; cbn; split; auto; intros k; by case_match.
Qed.

Lemma traces_sha256 (hist : Site -> list Event) path :
  traces hist (sha256_file_cancellable path)
    (fun o t => t = [] /\ forall x, o = Some (Ok x) -> exists f, file_digest f path = Ok x).
Proof.
  intros h ct now s <-. destruct (sha256_cancellable_spec path s ct now) as (_ & H1 & H2 & H3).
  rewrite H2. split; [exists []|intros k; rewrite H3; exists []]; rewrite app_nil_r;
    (split; [done|split; [done|]]); [|done]. intros x [= Hx]. eauto.
Qed.

End hashing.

(** ** The transfer *)

Section transfer.
Context {X : External} {CS : CancelSelect} {CL : CancelSelectLaws} {Sh : Sha256}.
Context {F : Type} {SH : StagingHost F} {D Net : Type} {RC : RustezClient D Net}.
Context {SR : ScpRunner (Net * F)} {L : Type}.
Context (history : Net -> list Event) {HL : HistoryLaws history}.
Context (permit_wait : string -> N) (cfg : TransferConfig).

#[local] Abbreviation Site := (Site (F := F) (D := D) (Net := Net) (L := L)).
#[local] Abbreviation hist := (hist (L := L) (F := F) history).

Definition storage_command : string := "show system storage no-forwarding".
Definition delete_command (args : TransferFileArgs) : string :=
  "file delete " ^^ remote_path_of (tf_source_path args).
Definition digest_command (args : TransferFileArgs) : string :=
  checksum_command (remote_path_of (tf_source_path args)).

(** The device said that it has room, and what it holds under the name. *)
Definition told_room (args : TransferFileArgs) (size : N) (past : list Event) : Prop :=
  exists out, Asked storage_command (Some out) ∈ past /\
              check_free_space (tf_device args) out size = Ok tt.
Definition told_digest (args : TransferFileArgs) (answer : option (list N)) (past : list Event) : Prop :=
  exists out, Asked (digest_command args) (Some out) ∈ past /\ parse_checksum_output out = Ok answer.

(** What each call of a transfer of a file of this digest and size needs to have
    come before it. *)
Definition TransferStep (args : TransferFileArgs) (sha : list N) (size : N) (job : ScpJob)
    (past : list Event) (e : Event) : Prop :=
  match e with
  | Asked c _ =>
      c = storage_command \/ c = digest_command args \/
      (c = delete_command args /\ tf_verify args = true /\ told_room args size past /\
       exists other, other <> sha /\ told_digest args (Some other) past)
  | Uploaded j =>
      j = job /\ told_room args size past /\
      (told_digest args None past \/
       (tf_force args = true /\ exists other, other <> sha /\ told_digest args (Some other) past))
  | Fetched _ => False
  end.

#[local] Arguments TransferStep : simpl never.

(** The last call was the digest command, and this was its answer. *)
Definition last_told (args : TransferFileArgs) (answer : option (list N)) (t : list Event) : Prop :=
  exists t0 out, t = t0 ++ [Asked (digest_command args) (Some out)] /\
                 parse_checksum_output out = Ok answer.

(** What a reply means. *)
Definition TransferReply (args : TransferFileArgs) (sha : list N) (size : N)
    (v : Value) (t : list Event) : Prop :=
  (v = skipped_response (tf_source_path args) sha size /\ last_told args (Some sha) t /\
   forall j, Uploaded j ∉ t) \/
  exists verified,
    v = transferred_response (remote_path_of (tf_source_path args)) size sha verified /\
    (tf_verify args = true -> verified = true) /\
    (verified = true -> last_told args (Some sha) t).

Definition TransferRun (args : TransferFileArgs) (sha : list N) (size : N) (job : ScpJob)
    (o : option (Result Value JmcpError)) (t : list Event) : Prop :=
  each (TransferStep args sha size job) [] t /\
  forall v, o = Some (Ok v) -> TransferReply args sha size v t.

Lemma run_fails args sha size job (o : option (Result Value JmcpError)) t :
  each (TransferStep args sha size job) [] t -> (forall v, o <> Some (Ok v)) ->
  TransferRun args sha size job o t.
Proof. intros H Ho. split; [done|]. intros v ->. by destruct (Ho v). Qed.

Section one.
Context (args : TransferFileArgs) (sha : list N) (size : N) (job : ScpJob).

(** [p], once the events of [pre] have happened. *)
Definition after (pre : list Event) (p : Proc Site Value JmcpError) : Prop :=
  each (TransferStep args sha size job) [] pre ->
  traces hist p (fun o t => TransferRun args sha size job o (pre ++ t)).

Lemma after_err pre e : after pre (proc_ret (Err e)).
Proof. intros H. apply traces_ret; rewrite app_nil_r; by apply run_fails. Qed.
Lemma after_ok pre v : TransferReply args sha size v pre -> after pre (proc_ret (Ok v)).
Proof.
  intros Hv H. apply traces_ret; rewrite app_nil_r; [|by apply run_fails].
  split; [done|]. by intros ? [= <-].
Qed.

Lemma after_then {T} pre (p : Proc Site T JmcpError) k M :
  (each (TransferStep args sha size job) [] pre -> traces hist p M) ->
  (each (TransferStep args sha size job) [] pre -> forall o t, M o t ->
   each (TransferStep args sha size job) [] (pre ++ t)) ->
  (forall x t, M (Some (Ok x)) t -> after (pre ++ t) (k x)) -> after pre (proc_then p k).
Proof.
  intros Hp Hs Hk H. specialize (Hs H). eapply traces_try; [by apply Hp| | |].
  - intros t HM. eapply run_fails; [by eapply Hs|done].
  - intros e t HM. split; eapply run_fails; by try eapply Hs.
  - intros x t HM. eapply traces_weaken; [apply (Hk x t HM); by eapply Hs|].
    intros o t'. by rewrite app_assoc.
Qed.

Lemma after_probe pre d c phase k :
  (forall a, TransferStep args sha size job pre (Asked c a)) ->
  (forall out, after (pre ++ [Asked c (Some out)]) (k out)) ->
  after pre (proc_then (probe d c phase) k).
Proof.
  intros Hc Hk. eapply after_then; [intros; by apply traces_probe| |].
  - intros H o t Ho. rewrite each_app. split; [done|]. cbn.
    assert (t = [] \/ exists a, t = [Asked c a]) as [->|[a ->]] by (destruct o as [[]|]; cbn in Ho; eauto);
      [done|]. by split; [apply Hc|].
  - intros out t ->. apply Hk.
Qed.

Lemma after_checked pre r k :
  (forall x, r = Ok x -> after pre (k x)) -> after pre (proc_then (T := unit) (proc_ret r) k).
Proof.
  intros Hk. eapply after_then with (M := fun o t => t = [] /\ forall x, o = Some (Ok x) -> r = Ok x).
  - intros _. apply traces_ret; split; try done. by intros x [= ->].
  - intros H o t [-> _]. by rewrite app_nil_r.
  - intros x t [-> H]. rewrite app_nil_r. apply Hk. by apply H.
Qed.

Lemma after_digest pre d phase k :
  (forall found out, parse_checksum_output out = Ok found ->
     after (pre ++ [Asked (digest_command args) (Some out)]) (k found)) ->
  after pre (proc_then (remote_checksum d (remote_path_of (tf_source_path args)) phase) k).
Proof.
  intros Hk. eapply after_then; [intros _; by apply traces_digest| |].
  - intros H o t [Ht _]. rewrite each_app. split; [done|]. destruct Ht as [->|[a ->]]; [done|].
    split; [|done]. unfold TransferStep. auto.
  - intros found t [_ H]. destruct (H found eq_refl) as (out & -> & Hp). by apply Hk.
Qed.

Lemma traces_upload j :
  traces hist (upload cfg args j : Proc Site _ _) (fun _ t => t = [] \/ t = [Uploaded j]).
Proof.
  unfold upload. eapply (traces_try _ _ _ _ (fun _ t => t = [] \/ t = [Uploaded j])); [|auto..|].
  - by eapply traces_map_err; [apply traces_wire, run_recorded| |].
  - intros x t Ht. apply traces_ret; by rewrite app_nil_r.
Qed.

Lemma told_room_app pre t : told_room args size pre -> told_room args size (pre ++ t).
Proof. intros (out & ? & ?). exists out. split; [apply elem_of_app; by left|done]. Qed.
Lemma told_digest_last pre answer out :
  parse_checksum_output out = Ok answer ->
  told_digest args answer (pre ++ [Asked (digest_command args) (Some out)]).
Proof. intros H. exists out. split; [apply elem_of_app; right; by apply list_elem_of_here|done]. Qed.

Lemma after_verify pre d :
  told_room args size pre ->
  after pre (verify_upload args d (remote_path_of (tf_source_path args)) sha size).
Proof.
  intros Hroom. unfold verify_upload. apply after_digest. intros found out Hp.
  set (pre' := pre ++ [Asked (digest_command args) (Some out)]).
  destruct found as [post|].
  - destruct (tf_verify args && negb (bool_decide (post = sha))) eqn:Hv.
    + apply andb_true_iff in Hv as [Hv Hne%negb_true_iff%bool_decide_eq_false]. intros H.
      eapply traces_bind; [by apply traces_cli| |].
      * intros t [Ha _]. apply run_fails; [|done]. rewrite each_app. split; [done|].
        destruct Ha as [->|[a ->]]; [done|]. split; [|done]. right; right. split_and!; [done..| |].
        { by apply (told_room_app pre). } exists post. split; [done|by apply (told_digest_last pre)].
      * intros r t [_ Ht]. rewrite (Ht r eq_refl). apply traces_ret; rewrite app_nil_r;
          (apply run_fails; [|done]); rewrite each_app; (split; [done|]); (split; [|done]);
          right; right; (split_and!; [done..|by apply (told_room_app pre)|]);
          exists post; (split; [done|by apply (told_digest_last pre)]).
    + apply after_ok. right. eexists. split; [reflexivity|]. split.
      * intros Hv'. rewrite Hv' in Hv. cbn in Hv. by apply negb_false_iff in Hv.
      * intros ->%bool_decide_eq_true. by exists pre, out.
  - destruct (tf_verify args) eqn:Hv; [apply after_err|]. apply after_ok. right. exists false.
    rewrite Hv. by split_and!.
Qed.

Lemma after_copy pre d :
  TransferStep args sha size job pre (Uploaded job) -> told_room args size pre ->
  after pre (proc_then (upload cfg args job) (fun _ =>
    verify_upload args d (remote_path_of (tf_source_path args)) sha size)).
Proof.
  intros Hs Hroom. eapply after_then; [intros _; apply traces_upload| |].
  - intros H o t [->| ->]; [by rewrite app_nil_r|]. rewrite each_app. by split.
  - intros x t _. apply after_verify. by apply told_room_app.
Qed.

End one.

Lemma transfer_on_run args d entry key local_path sha size :
  traces hist (transfer_on cfg args d entry key local_path sha size)
    (TransferRun args sha size (scp_job cfg entry key local_path)).
Proof.
  set (job := scp_job cfg entry key local_path).
  enough (after args sha size job [] (transfer_on cfg args d entry key local_path sha size)) as H
    by (by apply H).
  unfold transfer_on. apply after_probe; [intros a; by left|]. intros storage.
  apply after_checked. intros [] Hroom'.
  set (pre := [] ++ [Asked storage_command (Some storage)]).
  assert (told_room args size pre) as Hroom.
  { exists storage. split; [apply list_elem_of_here|done]. }
  apply after_digest. intros found out Hp. fold job.
  set (pre' := pre ++ [Asked (digest_command args) (Some out)]).
  assert (told_digest args found pre') as Hd by (by apply told_digest_last).
  pose proof (told_room_app args size pre [Asked (digest_command args) (Some out)] Hroom) as Hroom2.
  destruct found as [remote|].
  - case_bool_decide as Heq.
    + subst remote. apply after_ok. left. split_and!; [done|by exists pre, out|].
      intros j. subst pre' pre. set_solver.
    + destruct (tf_force args) eqn:Hf; [|apply after_err].
      apply after_copy; [|exact Hroom2]. split; [done|split; [exact Hroom2|]]. right.
      split; [exact Hf|]. exists remote. by split.
  - apply after_copy; [|exact Hroom2]. split; [done|split; [exact Hroom2|]]. by left.
Qed.

(** A call that never reached the device, or a transfer of the staged file as it
    was hashed, with the key of the device's entry. *)
Definition Transferring (args : TransferFileArgs) (o : option (Result Value JmcpError))
    (t : list Event) : Prop :=
  let local_path := path_join (staging_dir cfg) (tf_source_path args) in
  (t = [] /\ forall v, o <> Some (Ok v)) \/
  exists f m sha size entry key,
    validate_source_basename (tf_source_path args) = Ok tt /\
    file_digest f local_path = Ok (sha, size) /\
    key_entry (tf_device args) m = Ok (entry, key) /\
    TransferRun args sha size (scp_job cfg entry key local_path) o t.

Lemma transferring_end args o o' t :
  Transferring args o t -> (forall v, o' <> Some (Ok v)) -> Transferring args o' t.
Proof.
  intros [[-> _]|(f & m & sha & size & entry & key & Hv & Hf & Hk & [Hr _])] H; [by left|].
  right. exists f, m, sha, size, entry, key. split_and!; [done..|by apply run_fails].
Qed.
Lemma transferring_never args o : (forall v, o <> Some (Ok v)) -> Transferring args o [].
Proof. by left. Qed.

Lemma transfer_locked_run args :
  validate_source_basename (tf_source_path args) = Ok tt ->
  traces hist (transfer_locked cfg args) (Transferring args).
Proof.
  intros Hv. unfold transfer_locked. apply traces_quiet'; [apply silent_get|by left..|]. intros _.
  eapply traces_quiet; [apply traces_sha256|by left..|]. intros [sha size] [f Hf].
  apply (traces_quiet _ _ _ (fun ek => exists m, key_entry (tf_device args) m = Ok ek)); [|by left..|].
  { apply traces_get; [|done]. intros s. split; [done|]. intros x [= Hx]. eauto. }
  intros [entry key] [m Hm].
  apply traces_quiet'; [by apply (silent_open history)|by left..|]. intros g.
  apply traces_with_session; [|by left..]. intros d.
  eapply traces_weaken; [apply transfer_on_run|]. intros o t Hr. right.
  by exists f, m, sha, size, entry, key.
Qed.

Lemma transfer_file_run args :
  traces hist (transfer_file permit_wait cfg args) (Transferring args).
Proof.
  apply traces_bounded.
  - apply traces_quiet'; [by apply silent_pure|by left..|]. intros [|]; [apply traces_ret; by left|].
    apply (traces_quiet _ _ _ (fun _ => validate_source_basename (tf_source_path args) = Ok tt)).
    { apply traces_ret; split; try done. intros [] [= ->]. done. }
    1,2: by left.
    intros _ Hv. apply traces_quiet'; [apply silent_get|by left..|]. intros _.
    apply (traces_permit history (CL := CL)); [by apply transfer_locked_run|by left..].
  - intros t H. by apply (transferring_end _ None).
  - intros r t H. by apply (transferring_end _ (Some r)).
Qed.

(** C24: However a transfer ends (a reply, an error, the token, the deadline), it
    asks the device only for its free space, the digest of the one file and, when
    verification is on and the digest it read differs from the staged file's, to
    delete that file.  It uploads only the staged file, after the device said it
    has room for it, and only when the device has no such file, or has a
    different one and [force] is set.  A [skipped] reply means the device has
    just reported the staged file's digest and nothing was uploaded; a
    [transferred] reply with [verified] means the same, and with [verify] on
    there is no other. *)
Theorem transfer_protocol (args : TransferFileArgs) (ct : option N) (now : N) (s : Site) :
  let r := transfer_file permit_wait cfg args ct now s in
  (exists t, hist (rpc_state r) = hist s ++ t /\ Transferring args (Some (rpc_result r)) t) /\
  forall k, exists t, hist (rpc_dropped r k) = hist s ++ t /\ Transferring args None t.
Proof. by apply (transfer_file_run args). Qed.

End transfer.
