(* ===== verification/TransferTextSpec.v ===== *)
(** * The texts the file transfer reads and writes

    What a validated file name is, that a printed digest is read back, that
    scrubbing leaves no absolute path, and what a storage size is read as. *)

From S2P Require Import Prelude RustStr Fmt Errors NetAddr RustPath Transfer.
From Stdlib Require Import Ascii.

(** ** Digests *)

Definition bytes32 (sha : list N) : Prop := length sha = 32%nat /\ Forall (fun b => b < 256)%N sha.

Lemma hex_digit_spec n : (n < 16)%N ->
  hex_value (hex_digit n) = Some n /\ is_ascii_graphic (hex_digit n) = true /\
  is_path_byte (hex_digit n) = true.
Proof.
  intros H. rewrite <- (N2Nat.id n) in *. assert (N.to_nat n < 16)%nat as Hn by lia. clear H. revert Hn.
  generalize (N.to_nat n) as k. intros k Hk. do 16 (destruct k as [|k]; [by repeat split|]). lia.
Qed.

Lemma nibbles b : (b < 256)%N ->
  (b / 16 < 16 /\ b mod 16 < 16 /\ N.lor (N.shiftl (b / 16) 4) (b mod 16) = b)%N.
Proof.
  intros H. split_and!; [apply N.Div0.div_lt_upper_bound; lia|apply N.mod_lt; lia|].
  change 16%N with (2 ^ 4)%N. rewrite <- N.land_ones, <- N.shiftr_div_pow2.
  apply N.bits_inj. intros i. rewrite N.lor_spec, N.land_spec.
  destruct (N.lt_ge_cases i 4).
  - rewrite N.shiftl_spec_low, N.ones_spec_low, andb_true_r by lia. done.
  - rewrite N.shiftl_spec_high, N.ones_spec_high, andb_false_r, orb_false_r by lia.
    rewrite N.shiftr_spec by lia. f_equal. lia.
Qed.

Lemma hex32_spec sha :
  Forall (fun b => b < 256)%N sha ->
  hex_bytes (hex32 sha) = sha /\ String.length (hex32 sha) = (2 * length sha)%nat /\
  (forall p, (forall n, (n < 16)%N -> p (hex_digit n) = true) -> str_forall p (hex32 sha) = true).
Proof.
  induction 1 as [|b sha Hb _ (IH1 & IH2 & IH3)]; [done|].
  destruct (nibbles b Hb) as (Hh & Hl & Hn).
  destruct (hex_digit_spec _ Hh) as (H1 & _), (hex_digit_spec _ Hl) as (H2 & _).
  cbn [hex32 hex2 String.append hex_bytes String.length str_forall length].
  rewrite H1, H2, IH1, IH2. cbn [from_option id]. unfold id. rewrite Hn. split_and!; [done|lia|].
  intros p Hp. by rewrite !Hp, IH3 by done.
Qed.

Lemma hex32_app a b : hex32 (a ++ b) = hex32 a ^^ hex32 b.
Proof. induction a as [|x a IH]; [done|]. cbn [hex32 app]. by rewrite IH, app_str_assoc. Qed.

(** A digest's text starts and ends in a graphic character. *)
Lemma hex32_ends sha : bytes32 sha -> exists a t d, hex32 sha = String a (t ^^ String d "") /\
  is_ascii_graphic a = true /\ is_ascii_graphic d = true.
Proof.
  intros [Hl Hb]. destruct sha as [|b sha]; [done|].
  destruct (exists_last (l := sha)) as (m & z & ->); [by intros ->|].
  apply list.Forall_cons in Hb as [Hb Hm]. apply Forall_app in Hm as [_ [Hz _]%list.Forall_cons].
  destruct (nibbles b Hb) as (Hh & _). destruct (nibbles z Hz) as (_ & Hd & _).
  exists (hex_digit (b / 16)), (String (hex_digit (b mod 16)) (hex32 m ^^ String (hex_digit (z / 16)) "")),
    (hex_digit (z mod 16)).
  split_and!; [|by apply hex_digit_spec..].
  cbn [hex32 hex2 String.append]. rewrite hex32_app. cbn. by rewrite !app_str_assoc.
Qed.

Fixpoint count (c : ascii) (s : string) : nat :=
  match s with "" => O | String d s' => ((if Ascii.eqb d c then 1 else 0) + count c s')%nat end.
Lemma count_app c a b : count c (a ^^ b) = (count c a + count c b)%nat.
Proof. induction a as [|d a IH]; [done|]. cbn. rewrite IH. lia. Qed.
Lemma count_none c s : str_forall (fun d => negb (Ascii.eqb d c)) s = true -> count c s = O.
Proof. induction s as [|d s IH]; [done|]. cbn. destruct (Ascii.eqb d c); [done|]. by intros ->%IH. Qed.

Lemma after_last_app c a b :
  str_forall (fun d => negb (Ascii.eqb d c)) b = true -> after_last c (a ^^ String c b) = Some b.
Proof.
  intros Hb. assert (after_last c b = None) as Hn.
  { clear a. induction b as [|d b IH]; [done|]. cbn in *. apply andb_true_iff in Hb as [Hd Hb].
    rewrite IH by done. by destruct (Ascii.eqb d c). }
  induction a as [|d a IH]; cbn; [by rewrite Hn, Ascii.eqb_refl|]. by rewrite IH.
Qed.

(** ** File names *)

Section names.
Context {X : External}.

Record ValidName (s : string) : Prop := {
  vn_nonempty : s <> "";
  vn_length : (len s <= 255)%N;
  vn_dot : starts_with "." s = false;
  vn_bytes : str_forall allowed_byte s = true;
  vn_dotdot : contains ".." s = false
}.

Lemma find_byte_here q s b a : find_byte q s = Some (b, a) -> exists c t, a = String c t /\ q c = true.
Proof.
  revert b a. induction s as [|c s IH]; intros b a; [done|]. cbn.
  destruct (q c) eqn:Hq; [intros [= <- <-]; eauto|].
  destruct (find_byte q s) as [[b' a']|]; [|done]. intros [= <- <-]. eauto.
Qed.

Lemma contains_byte_false c s :
  str_forall (fun d => negb (Ascii.eqb d c)) s = true -> contains (String c "") s = false.
Proof.
  intros H. destruct (contains (String c "") s) eqn:Hc; [|done].
  apply contains_app in Hc as (b & a & ->). rewrite !str_forall_app in H. cbn in H.
  rewrite Ascii.eqb_refl in H. cbn in H. by rewrite andb_false_r in H.
Qed.

Lemma validate_source_basename_spec s :
  validate_source_basename s = Ok tt <-> ValidName s.
Proof.
  unfold validate_source_basename. split.
  - destruct (is_empty s) eqn:H1; [done|]. destruct (N.ltb_spec 255 (len s)) as [|H2]; [done|].
    destruct (starts_with "." s) eqn:H3; [done|]. destruct (contains "/" s || contains "\" s); [done|].
    destruct (contains ".." s) eqn:H4; [done|].
    destruct (find_byte _ s) as [[b a]|] eqn:H5.
    + destruct (find_byte_here _ _ _ _ H5) as (c & t & -> & _). done.
    + intros _. split; try done; [by intros ->|].
      apply find_byte_none in H5. eapply str_forall_impl; [|exact H5]. intros c. cbn.
      by rewrite negb_involutive.
  - intros [H1 H2 H3 H4 H5]. assert (is_empty s = false) as -> by (by destruct s).
    destruct (N.ltb_spec 255 (len s)); [lia|]. rewrite H3, H5.
    assert (forall c, allowed_byte c = false -> contains (String c "") s = false) as Hc.
    { intros c Hc. apply contains_byte_false. eapply str_forall_impl; [|exact H4]. intros d Hd.
      destruct (Ascii.eqb_spec d c) as [->|]; [congruence|done]. }
    rewrite !Hc by done. cbn [orb].
    assert (find_byte (fun b => negb (allowed_byte b)) s = None) as ->; [|done].
    apply find_byte_none. eapply str_forall_impl; [|exact H4]. intros c ->. done.
Qed.

(** C26: The output a device gives for the file's digest is read back as that
    digest, whatever follows it; the phrase for a missing file cannot occur in
    it, since a validated name has no space. *)
Theorem checksum_roundtrip (name : string) (sha : list N) (rest : string)
    (Hname : validate_source_basename name = Ok tt) (Hsha : bytes32 sha) :
  parse_checksum_output
    ("SHA256 (" ^^ "/var/tmp/" ^^ name ^^ ") = " ^^ hex32 sha ^^ newline ^^ rest) = Ok (Some sha).
Proof.
  apply validate_source_basename_spec in Hname as [_ _ _ Hb _].
  destruct (hex32_spec sha (proj2 Hsha)) as (Hx & Hl & Hp).
  destruct (hex32_ends sha Hsha) as (a & t & d & He & Ha & Hd).
  set (line := "SHA256 (" ^^ "/var/tmp/" ^^ name ^^ ") = " ^^ hex32 sha).
  assert (forall p, (forall c, allowed_byte c = true -> p c = true) -> str_forall p name = true) as Hn
    by (intros p H; by apply (str_forall_impl allowed_byte)).
  assert (Hline : line = String "S" (("HA256 (/var/tmp/" ^^ name ^^ ") = " ^^ String a t) ^^ String d "")).
  { unfold line. rewrite He, !app_str_assoc. done. }
  assert (Hclean : clean_line line).
  { split; [by rewrite Hline|]. split.
    - unfold line, no_lf. rewrite !str_forall_app, Hn, Hp.
      + done.
      + intros n H. destruct (hex_digit_spec n H) as (_ & Hg & _).
        by destruct (Ascii.eqb_spec (hex_digit n) LF) as [E|]; [rewrite E in Hg|].
      + intros c Hc. by destruct (Ascii.eqb_spec c LF) as [->|].
    - intros [u Hu]. rewrite Hline in Hu. change (String "S" ?u ^^ String d "") with (String "S" u ^^ String d "") in Hu.
      apply (f_equal str_rev) in Hu. rewrite (str_rev_app_str u) in Hu.
      change (String "S" (("HA256 (/var/tmp/" ^^ name ^^ ") = " ^^ String a t) ^^ String d ""))
        with (String "S" ("HA256 (/var/tmp/" ^^ name ^^ ") = " ^^ String a t) ^^ String d "") in Hu.
      rewrite str_rev_app_str in Hu. injection Hu as -> _. done. }
  unfold parse_checksum_output.
  replace ("SHA256 (" ^^ "/var/tmp/" ^^ name ^^ ") = " ^^ hex32 sha ^^ newline ^^ rest)
    with (line ^^ newline ^^ rest) by (unfold line; by rewrite !app_str_assoc).
  rewrite (lines_clean_app _ _ Hclean). cbn [checksum_lines].
  assert (checksum_line line = Some (Some sha)) as ->; [|done].
  unfold checksum_line.
  assert (trim line = line) as -> by (rewrite Hline; by apply trim_graphic).
  assert (is_empty line = false) as -> by (by rewrite Hline).
  assert (contains "No such file or directory" line = false) as ->.
  { destruct (contains _ line) eqn:Hc; [|done]. apply contains_app in Hc as (u & v & Hc).
    apply (f_equal (count SP)) in Hc. unfold line in Hc. rewrite !count_app in Hc.
    rewrite (count_none SP name), (count_none SP (hex32 sha)) in Hc; [cbn in Hc; lia| |].
    - apply Hp. intros n H. destruct (hex_digit_spec n H) as (_ & Hg & _).
      by destruct (Ascii.eqb_spec (hex_digit n) SP) as [E|]; [rewrite E in Hg|].
    - apply Hn. intros c Hc'. by destruct (Ascii.eqb_spec c SP) as [->|]. }
  replace line with (("SHA256 (/var/tmp/" ^^ name ^^ ") ") ^^ String "=" (" " ^^ hex32 sha))
    by (unfold line; by rewrite !app_str_assoc).
  rewrite after_last_app.
  - change (trim (" " ^^ hex32 sha)) with (trim (hex32 sha)).
    assert (trim (hex32 sha) = hex32 sha) as -> by (rewrite He; by apply trim_graphic).
    assert ((len (hex32 sha) =? 64)%N = true) as ->.
    { apply N.eqb_eq. unfold len. rewrite Hl. destruct Hsha as [-> _]. done. }
    rewrite Hp; [by rewrite Hx|]. intros n H. unfold is_hex. by destruct (hex_digit_spec n H) as [-> _].
  - change (str_forall ?p (" " ^^ hex32 sha)) with (str_forall p (hex32 sha)). apply Hp.
    intros n H. destruct (hex_digit_spec n H) as (_ & _ & Hg).
    by destruct (Ascii.eqb_spec (hex_digit n) "=") as [E|]; [rewrite E in Hg|].
Qed.

End names.

(** ** Scrubbing *)

Definition starts_path (s : string) : bool :=
  match s with String c _ => is_path_byte c | "" => false end.
(** No slash is followed by a path byte. *)
Fixpoint no_path (s : string) : bool :=
  match s with
  | "" => true
  | String c s' => negb (Ascii.eqb c "/" && starts_path s') && no_path s'
  end.

Lemma byte_as_char_path b s :
  Ascii.eqb b "/" = false \/ starts_path s = false ->
  no_path (byte_as_char b ^^ s) = no_path s /\ (starts_path (byte_as_char b ^^ s) = true -> is_path_byte b = true).
Proof.
  intros H. unfold byte_as_char. destruct (N.ltb_spec (byte_n b) 128) as [Hb|Hb].
  - cbn. split; [|done]. by destruct H as [-> | ->]; rewrite ?andb_false_r.
  - assert (Hbits : forall b, (128 <= byte_n b)%N ->
      Ascii.eqb (ascii_of_N (192 + byte_n b / 64)) "/" = false /\
      Ascii.eqb (ascii_of_N (128 + byte_n b mod 64)) "/" = false /\
      is_path_byte (ascii_of_N (192 + byte_n b / 64)) = false).
    { intros [[] [] [] [] [] [] [] []]; vm_compute; by intros. }
    destruct (Hbits b Hb) as (H1 & H2 & H3). cbn. rewrite H1, H2, H3. done.
Qed.

Lemma scrub_go_spec f s :
  no_path (scrub_go f s) = true /\ (starts_path (scrub_go f s) = true -> starts_path s = true).
Proof.
  revert s. induction f as [|f IH]; intros [|b rest]; try done. cbn [scrub_go].
  set (host := match match_ipv4 (String b rest) with Some stop => _ | None => _ end).
  assert (Hcopy : Ascii.eqb b "/" = false \/ starts_path rest = false ->
    no_path (byte_as_char b ^^ scrub_go f rest) = true /\
    (starts_path (byte_as_char b ^^ scrub_go f rest) = true -> starts_path (String b rest) = true)).
  { intros H. destruct (IH rest) as [H1 H2].
    destruct (byte_as_char_path b (scrub_go f rest)) as [H3 H4]; [|by rewrite H3].
    destruct H as [H|H]; [by left|]. right. by destruct (starts_path (scrub_go f rest)); [rewrite H2 in H|]. }
  assert (Hmark : forall m u, no_path m = true -> starts_path m = false ->
    (forall v, no_path (m ^^ v) = no_path v) -> starts_path (m ^^ scrub_go f u) = false ->
    no_path (m ^^ scrub_go f u) = true /\ (starts_path (m ^^ scrub_go f u) = true -> starts_path (String b rest) = true)).
  { intros m u _ _ Hm Hs. rewrite Hm, Hs. split; [apply IH|done]. }
  fold (starts_path rest). destruct (Ascii.eqb b "/") eqn:Hb; cbn [andb].
  - destruct (starts_path rest) eqn:Hr; [by apply Hmark|].
    assert (is_ascii_digit b = false) as -> by (by apply Ascii.eqb_eq in Hb as ->).
    apply Hcopy. by right.
  - subst host. destruct (is_ascii_digit b); [|apply Hcopy; by left].
    destruct (match_ipv4 _); [by apply Hmark|apply Hcopy; by left].
Qed.

Lemma no_path_sound s b c a : no_path s = true -> s = b ^^ String "/" (String c a) -> is_path_byte c = false.
Proof.
  intros H ->. induction b as [|d b IH]; cbn in H.
  - by destruct (is_path_byte c).
  - apply andb_true_iff in H as [_ H]. auto.
Qed.

(** No absolute path survives in the text of an SCP failure: no slash in it
    is followed by a character a path may hold. *)
Theorem scrub_leaves_no_path (text before after : string) (c : ascii) :
  scrub_scp_stderr text = before ^^ String "/" (String c after) -> is_path_byte c = false.
Proof. apply no_path_sound, scrub_go_spec. Qed.

Lemma scrub_leaves_no_path_witness :
  scrub_scp_stderr "a / b" = "a " ^^ String "/" (String " " "b") /\ is_path_byte " " = false.
Proof.
  split; [reflexivity|].
  apply (scrub_leaves_no_path "a / b" "a " "b" " "). reflexivity.
Defined.

(** Text without slashes, digits and characters beyond ASCII is kept. *)
Lemma scrub_keeps text :
  str_forall (fun c => negb (Ascii.eqb c "/") && negb (is_ascii_digit c) && (byte_n c <? 128)%N) text = true ->
  scrub_scp_stderr text = text.
Proof.
  unfold scrub_scp_stderr. induction text as [|c t IH]; [done|]. cbn [str_forall String.length scrub_go].
  intros [[[Hs Hd]%andb_true_iff Hb]%andb_true_iff Ht]%andb_true_iff.
  apply negb_true_iff in Hs, Hd. rewrite Hs, Hd. cbn [andb]. unfold byte_as_char. rewrite Hb. cbn.
  by rewrite IH.
Qed.

(** An address that ends a sentence, or is part of a longer dotted number, is not
    taken for one; and a character beyond ASCII is broken into its bytes. *)
Example scrub_misses_address_before_full_stop :
  scrub_scp_stderr "connect to 192.168.1.10." = "connect to 192.168.1.10.".
Proof. reflexivity. Qed.
Example scrub_breaks_longer_numbers : scrub_scp_stderr "build 1.2.3.4.5" = "build 1.<host>".
Proof. reflexivity. Qed.
Example scrub_breaks_utf8 : scrub_scp_stderr "clé" = "clÃ©".
Proof. reflexivity. Qed.

(** ** Storage sizes *)

Lemma span_digits_all s : str_forall is_ascii_digit s = true -> span_digits s = (s, "").
Proof. induction s as [|c s IH]; [done|]. cbn. intros [-> H]%andb_true_iff. by rewrite IH. Qed.

Lemma strip_last_app c s : strip_last c (s ^^ String c "") = Some s.
Proof.
  induction s as [|d s IH]; cbn; [by rewrite Ascii.eqb_refl|]. rewrite IH. by destruct s.
Qed.
Lemma strip_last_digits c s : is_ascii_digit c = false -> str_forall is_ascii_digit s = true -> strip_last c s = None.
Proof.
  intros Hc. induction s as [|d s IH]; [done|]. cbn. intros [Hd Hs]%andb_true_iff.
  destruct s as [|e s]; [by destruct (Ascii.eqb_spec d c) as [->|]; [congruence|]|]. by rewrite IH.
Qed.

(** A whole number of at most 53 bits, given as any fraction, is rounded to
    itself. *)
Lemma round_exact neg q den : (0 < q < 9007199254740992)%N -> (0 < den)%N ->
  exists e, (-52 <= e <= 0)%Z /\ round_f64 neg (q * den) den = Fin neg (q * 2 ^ Z.to_N (- e)) e.
Proof.
  intros Hq Hd. unfold round_f64. destruct (N.eqb_spec (q * den) 0); [nia|].
  assert (Hk : log2_ratio (q * den) den = Z.of_N (N.log2 q)).
  { unfold log2_ratio. set (k := (Z.of_N (N.log2 (q * den)) - Z.of_N (N.log2 den))%Z).
    pose proof (N.log2_mul_above q den ltac:(lia) ltac:(lia)).
    pose proof (N.log2_mul_below q den ltac:(lia) ltac:(lia)).
    destruct (N.log2_spec q) as [Hl Hh]; [lia|].
    destruct (Z.leb_spec 0 k); [|lia]. rewrite N.shiftl_mul_pow2.
    destruct (N.ltb_spec (q * den) (den * 2 ^ Z.to_N k)) as [Hlt|Hge].
    - assert (q < 2 ^ Z.to_N k)%N as Hlt' by (apply (N.mul_lt_mono_pos_l den); lia). apply N.log2_lt_pow2 in Hlt'; lia.
    - assert (2 ^ Z.to_N k <= q)%N as Hge' by (apply (N.mul_le_mono_pos_l _ _ den); lia). apply N.log2_le_pow2 in Hge'; lia. }
  assert (Hl : (N.log2 q < 53)%N) by (apply N.log2_lt_pow2; lia).
  rewrite Hk. exists (Z.of_N (N.log2 q) - 52)%Z. set (e := (Z.of_N (N.log2 q) - 52)%Z).
  split; [lia|]. rewrite Z.max_r by lia.
  assert (Hnd : (if (0 <=? e)%Z then q * den else N.shiftl (q * den) (Z.to_N (- e)))%N
                = (q * 2 ^ Z.to_N (- e) * den)%N /\
                (if (0 <=? e)%Z then N.shiftl den (Z.to_N e) else den) = den).
  { destruct (Z.leb_spec 0 e).
    - assert (e = 0)%Z as -> by lia. cbn. by rewrite N.shiftl_0_r, N.mul_1_r.
    - rewrite N.shiftl_mul_pow2. split; [lia|done]. }
  destruct Hnd as [-> ->]. set (m := (q * 2 ^ Z.to_N (- e))%N).
  pose proof (N.div_mul m den ltac:(lia)) as Hq'. pose proof (N.Div0.mod_mul m den) as Hr.
  unfold N.div in Hq'. unfold N.modulo in Hr.
  destruct (N.div_eucl (m * den) den) as [q' r]. cbn in Hq', Hr. subst q' r. rewrite N.mul_0_r.
  assert ((0 ?= den)%N = Lt) as -> by (by apply N.compare_lt_iff).
  assert ((971 <? e)%Z = false) as -> by (apply Z.ltb_ge; lia).
  by assert ((e =? 971)%Z = false) as -> by (apply Z.eqb_neq; lia).
Qed.

Lemma mul_exact n k e : (0 < n * k < 9007199254740992)%N -> (-52 <= e <= 0)%Z ->
  exists x, (-52 <= x <= 0)%Z /\
    f64_mul (Fin false (n * 2 ^ Z.to_N (- e)) e) k = Fin false (n * k * 2 ^ Z.to_N (- x)) x.
Proof.
  intros H He. unfold f64_mul. destruct (Z.leb_spec 0 e).
  - assert (e = 0)%Z as -> by lia. cbn [Z.to_N Z.opp]. rewrite N.shiftl_0_r, N.pow_0_r, N.mul_1_r.
    destruct (round_exact false (n * k) 1) as (x & Hx & Hr); [lia..|]. rewrite N.mul_1_r in Hr. eauto.
  - rewrite N.shiftl_1_l.
    replace (n * 2 ^ Z.to_N (- e) * k)%N with (n * k * 2 ^ Z.to_N (- e))%N by lia.
    apply round_exact; [lia|]. apply N.neq_0_lt_0, N.pow_nonzero. lia.
Qed.

Section sizes.
Context {X : External}.

(** A whole number of gigabytes, megabytes, kilobytes or bytes that the
    device prints is read as exactly that many bytes, up to 2^53: the detour
    through floating point loses nothing. *)
Theorem storage_size_exact (n : N) (unit : ascii * N)
    (Hunit : unit ∈ [("G"%char, 1073741824); ("M"%char, 1048576); ("K"%char, 1024); ("B"%char, 1)]%N)
    (Hn : (n * unit.2 < 9007199254740992)%N) :
  parse_size_with_suffix (dec n ^^ String unit.1 "") = Ok (n * unit.2)%N.
Proof.
  pose proof (dec_digits n) as Hd.
  assert (parse_f64 (dec n) = Some (round_f64 false (n * 1) 1)) as Hp.
  { unfold parse_f64. unfold dec in *. destruct (dec_go_head (N.to_nat (N.log2 n)) n) as (c & t & He & Hc).
    pose proof (parse_digits_dec_go (S (N.to_nat (N.log2 n))) n ltac:(lia)) as Hdig.
    rewrite He in *. cbn [strip_sign]. cbn [str_forall] in Hd. apply andb_true_iff in Hd as [Hc' Ht].
    destruct (Ascii.eqb_spec c "-") as [->|_]; [done|]. destruct (Ascii.eqb_spec c "+") as [->|_]; [done|].
    rewrite span_digits_all by (cbn; by rewrite Hc', Ht). cbn [is_empty andb].
    cbn [parse_exponent]. rewrite app_str_nil_r. unfold decimal. rewrite Hdig. done. }
  assert (parse_size_with_suffix (dec n ^^ String unit.1 "") =
          Ok (as_u64 (f64_mul (round_f64 false (n * 1) 1) unit.2))) as ->.
  { unfold parse_size_with_suffix, size_multiplier.
    assert (forall c d, strip_last c (dec n ^^ String d "") = if Ascii.eqb d c then Some (dec n) else None) as Hs.
    { intros c d. destruct (Ascii.eqb_spec d c) as [->|Hne]; [apply strip_last_app|].
      clear -Hne. induction (dec n) as [|a s IH]; cbn; [by destruct (Ascii.eqb_spec d c)|].
      rewrite IH. by destruct s. }
    rewrite !Hs. repeat (apply elem_of_cons in Hunit as [->|Hunit]; [cbn [fst snd]; cbn -[dec f64_mul]; by rewrite Hp|]).
    by apply elem_of_nil in Hunit. }
  f_equal. assert (0 < unit.2)%N.
  { repeat (apply elem_of_cons in Hunit as [->|Hunit]; [done|]). by apply elem_of_nil in Hunit. }
  destruct (N.eq_dec n 0%N) as [->|Hn0].
  { repeat (apply elem_of_cons in Hunit as [->|Hunit]; [done|]). by apply elem_of_nil in Hunit. }
  destruct (round_exact false n 1%N) as (e & He & ->); [nia|lia|].
  destruct (mul_exact n unit.2 e) as (x & Hx & ->); [nia|lia|].
  cbn [as_u64]. destruct (Z.leb_spec 0 x).
  - assert (x = 0)%Z as -> by lia. cbn [Z.to_N Z.opp]. rewrite N.shiftl_0_r, N.pow_0_r, N.mul_1_r.
    apply N.min_r. unfold U64_MAX. lia.
  - rewrite N.shiftr_div_pow2, N.div_mul by (apply N.pow_nonzero; lia).
    apply N.min_r. unfold U64_MAX. lia.
Qed.

Lemma storage_size_exact_witness :
  parse_size_with_suffix "14G" = Ok 15032385536%N.
Proof.
  apply (storage_size_exact 14 ("G"%char, 1073741824%N)); [by left|reflexivity].
Defined.

End sizes.
