(* ===== verification/FetchSpec.v ===== *)
(** * What fetching and listing promise

    A fetch never leaves a partial or unverified file under the name it was
    asked to write; a listing is sorted, bounded and free of hidden files. *)

From S2P Require Import Prelude RustStr Fmt Errors Inventory Async JsonValue Proc.
From S2P Require Import Trace DeviceManager DeviceManagerSpec RustPath Transfer TransferSpec TransferTextSpec Fetch.
From stdpp Require Import sorting.
From Stdlib Require Import Ascii.

(** ** Files *)

Definition concat_all (l : list string) : string := String.concat "" l.

(** Feeding a digest piece by piece is feeding it the whole. *)
Class Sha256Laws {Sh : Sha256} (sha : string -> list N) : Prop := {
  sha_pieces : forall blocks, hasher_finalize (foldl hasher_update hasher_new blocks) = sha (concat_all blocks)
}.

(** The blocks a reader gets up to the end of the file. *)
Fixpoint read_blocks {E} (reads : list (Result string E)) : option (list string) :=
  match reads with
  | [] => Some []
  | Err _ :: _ => None
  | Ok b :: rest => if is_empty b then Some [] else cons b <$> read_blocks rest
  end.

Class FileLaws {X : External} {F : Type} {SH : StagingHost F} (content : F -> string -> option string) : Prop := {
  read_content : forall f p reads blocks,
    fs_open_read f p = Ok reads -> read_blocks reads = Some blocks -> content f p = Some (concat_all blocks);
  remove_only : forall p f q, q <> p -> content (fs_remove_file p f).2 q = content f q;
  rename_moves : forall a b f,
    match fs_rename a b f with
    | (Ok _, f') => content f' b = content f a /\
                    forall q, q <> a -> q <> b -> content f' q = content f q
    | (Err _, f') => forall q, content f' q = content f q
    end
}.

(** An SCP download writes one file of the host. *)
Class FetchWrites {X : External} {F Net : Type} {SR : ScpRunner (Net * F)}
    (content : F -> string -> option string) : Prop := {
  fetch_writes : forall job c q, q <> fj_local_path job ->
    keeps_inv (fun w : Net * F => content w.2 q = c) (runner_fetch job)
}.

Section digests.
Context {X : External} {Sh : Sha256} {F : Type} {SH : StagingHost F}.
Context (sha : string -> list N) {SL : Sha256Laws sha}.
Context (content : F -> string -> option string) {FL : FileLaws content}.

Lemma hash_reads_spec reads h size d n :
  hash_reads reads h size = Ok (d, n) ->
  exists blocks, read_blocks reads = Some blocks /\ d = hasher_finalize (foldl hasher_update h blocks).
Proof.
  revert h size. induction reads as [|[b|e] reads IH]; intros h size; cbn; [intros [= <- _]; by exists []| |done].
  destruct (is_empty b); [intros [= <- _]; by exists []|].
  intros (blocks & -> & ->)%IH. by exists (b :: blocks).
Qed.

Lemma file_digest_spec f p d n :
  file_digest f p = Ok (d, n) -> exists bytes, content f p = Some bytes /\ d = sha bytes.
Proof.
  unfold file_digest. destruct (fs_open_read f p) as [reads|] eqn:Ho; [|done].
  intros (blocks & Hb & ->)%hash_reads_spec. exists (concat_all blocks).
  split; [by eapply read_content|apply sha_pieces].
Qed.

End digests.

(** ** Fetching *)

Section fetch.
Context {X : External} {CS : CancelSelect} {CL : CancelSelectLaws} {Sh : Sha256}.
Context {F : Type} {SH : StagingHost F} {D Net : Type} {RC : RustezClient D Net}.
Context {SR : ScpRunner (Net * F)} {L : Type}.
Context (history : Net -> list Event) {HL : HistoryLaws history}.
Context (sha : string -> list N) {SL : Sha256Laws sha}.
Context (content : F -> string -> option string) {FL : FileLaws content} {FW : FetchWrites content}.
Context (permit_wait : string -> N) (cfg : TransferConfig) (args : FetchFileArgs).

#[local] Abbreviation Site := (Site (F := F) (D := D) (Net := Net) (L := L)).
#[local] Abbreviation hist := (hist (L := L) (F := F) history).

Definition local_path : string := path_join (staging_dir cfg) (local_basename args).
Definition file_at (s : Site) (q : string) : option string := content (site_fs s) q.

(** The device has said, since [s0], that its file has this digest. *)
Definition told_since (s0 s : Site) (digest : list N) : Prop :=
  exists t out, hist s = hist s0 ++ t /\
    Asked (checksum_command (remote_path_of (ff_remote_path args))) (Some out) ∈ t /\
    parse_checksum_output out = Ok (Some digest).

(** Every file but the partial one is as it was. *)
Definition Others (s0 s : Site) : Prop :=
  forall q, q <> local_path -> partial_path local_path <> Some q -> file_at s q = file_at s0 q.
Definition Untouched (s0 s : Site) : Prop :=
  (exists t, hist s = hist s0 ++ t) /\ Others s0 s /\ file_at s local_path = file_at s0 local_path.
(** The file is there, whole, with the digest the device reported. *)
Definition Delivered (s0 s : Site) : Prop :=
  Others s0 s /\ exists bytes, file_at s local_path = Some bytes /\ told_since s0 s (sha bytes).

Definition Informed (s0 : Site) (digest : list N) (s : Site) : Prop :=
  Untouched s0 s /\ told_since s0 s digest.

(** [p] keeps the files and only extends the history. *)
Definition calm {T E} (p : Proc Site T E) : Prop :=
  traces hist p (fun _ _ => True) /\ forall fs0, keeps_inv (fun s => site_fs s = fs0) p.

Lemma calm_untouched s0 {T E} (p : Proc Site T E) : calm p -> keeps_inv (Untouched s0) p.
Proof.
  intros [Ht Hf] ct now s [[t Hs] [Ho Hl]].
  assert (forall s', site_fs s' = site_fs s -> (exists t', hist s' = hist s ++ t') -> Untouched s0 s') as Hu.
  { intros s' Hfs [t' Ht']. split; [exists (t ++ t'); by rewrite Ht', Hs, app_assoc|].
    unfold Others, file_at in *. rewrite Hfs. done. }
  destruct (Ht (hist s) ct now s eq_refl) as [(t' & H1 & _) H2].
  destruct (Hf (site_fs s) ct now s eq_refl) as [H3 H4].
  split; [by apply Hu; [|exists t']|]. intros k. destruct (H2 k) as (t'' & H5 & _). by apply Hu; [|exists t''].
Qed.

Lemma calm_informed s0 d {T E} (p : Proc Site T E) : calm p -> keeps_inv (Informed s0 d) p.
Proof.
  intros Hp ct now s [Hu (t & out & Hs & Hi & Hd)]. destruct (calm_untouched s0 p Hp ct now s Hu) as [H1 H2].
  destruct Hp as [Ht _]. destruct (Ht (hist s) ct now s eq_refl) as [(t' & H3 & _) H4].
  assert (forall s', (exists t', hist s' = hist s ++ t') -> told_since s0 s' d) as Hm.
  { intros s' [u Hu']. exists (t ++ u), out. split_and!; [by rewrite Hu', Hs, app_assoc|set_solver|done]. }
  split; [split; [done|by apply Hm; exists t']|]. intros k. split; [done|].
  destruct (H4 k) as (t'' & H5 & _). by apply Hm; exists t''.
Qed.

Lemma calm_silent {T E} (p : Proc Site T E) :
  silent hist p -> (forall fs0, keeps_inv (fun s => site_fs s = fs0) p) -> calm p.
Proof. intros H Hf. split; [|done]. by apply traces_silent. Qed.
Lemma calm_pure {T E} (p : Proc Site T E) :
  (forall ct now s, rpc_state (p ct now s) = s /\ forall k, rpc_dropped (p ct now s) k = s) -> calm p.
Proof. intros H. apply calm_silent; [intros h|intros fs0]; by apply inv_of_pure. Qed.
Lemma calm_sha path : calm (sha256_file_cancellable path).
Proof. apply calm_pure. intros ct now s. by destruct (sha256_cancellable_spec path s ct now) as (_ & _ & ? & ?). Qed.
Lemma calm_open r : calm (open_session r).
Proof.
  apply calm_silent; [by apply (silent_open history)|]. intros fs0. apply (inv_select (CL := CL)).
  intros ct now s Hs. done.
Qed.

Lemma calm_digest d path phase : calm (remote_checksum d path phase).
Proof.
  split; [eapply traces_weaken; [by apply traces_digest|done]|]. intros fs0.
  unfold remote_checksum, probe. do 2 (apply inv_then; [|intros; apply inv_ret]).
  apply (inv_select_raw (CL := CL)). by intros ct now s Hs.
Qed.

(** A first step that keeps [I], then the rest. *)
Lemma keeps_then {T U} (I : Site -> Prop) (p : Proc Site T JmcpError) (k : T -> Proc Site U JmcpError)
    (Q : Result U JmcpError -> Site -> Prop) (Dr : Site -> Prop) :
  keeps_inv I p -> (forall e s, I s -> Q (Err e) s) -> (forall s, I s -> Dr s) ->
  (forall x, holds I (k x) Q Dr) -> holds I (proc_then p k) Q Dr.
Proof.
  intros Hp HQ HD Hk. eapply (holds_try _ _ _ (fun _ => I)); [|done|by eauto].
  eapply holds_weaken; [exact Hp|done|done|done].
Qed.

(** How a fetch may leave the files: as they were, or with the whole file
    delivered; and a reply means the latter. *)
Definition Halfway (s0 s : Site) : Prop := Untouched s0 s \/ Delivered s0 s.
Definition Outcome (s0 : Site) (r : Result Value JmcpError) (s : Site) : Prop :=
  match r with Ok _ => Delivered s0 s | Err _ => Halfway s0 s end.

Lemma calm_then s0 {T} (p : Proc Site T JmcpError) k :
  calm p -> (forall x, holds (Untouched s0) (k x) (Outcome s0) (Halfway s0)) ->
  holds (Untouched s0) (proc_then p k) (Outcome s0) (Halfway s0).
Proof. intros Hp Hk. apply keeps_then; [by apply calm_untouched|by left..|done]. Qed.
Lemma informed_then s0 d {T} (p : Proc Site T JmcpError) k :
  keeps_inv (Informed s0 d) p ->
  (forall x, holds (Informed s0 d) (k x) (Outcome s0) (Halfway s0)) ->
  holds (Informed s0 d) (proc_then p k) (Outcome s0) (Halfway s0).
Proof. intros Hp Hk. apply keeps_then; [done|intros ? ? [? _]; by left|intros ? [? _]; by left|done]. Qed.

(** *** The names *)

Lemma valid_plain name : validate_source_basename name = Ok tt -> plain_name name.
Proof.
  intros [H1 H2 H3 H4 H5]%validate_source_basename_spec. unfold plain_name, is_blank. split_and!.
  - apply orb_false_iff. split; [by destruct name|]. destruct (String.eqb_spec name ".") as [->|]; [|done].
    vm_compute in H3. done.
  - intros ->. vm_compute in H3. done.
  - eapply str_forall_impl; [|exact H4]. intros c Hc. by destruct (Ascii.eqb_spec c SLASH) as [->|].
Qed.

Lemma file_name_join base name : plain_name name -> file_name (path_join base name) = Some name.
Proof. intros H. unfold file_name. rewrite (components_join base name H), last_snoc. done. Qed.

Lemma app_partial_ne name : name ^^ ".partial" <> name.
Proof. intros H. apply (f_equal String.length) in H. rewrite length_app_str in H. cbn in H. lia. Qed.

Lemma partial_differs partial :
  validate_source_basename (local_basename args) = Ok tt ->
  partial_path local_path = Some partial -> partial <> local_path.
Proof.
  intros Hv%valid_plain. unfold partial_path, local_path. rewrite (file_name_join _ _ Hv).
  cbn [option_map]. intros [= <-] He. apply (f_equal file_name) in He.
  rewrite (file_name_join _ _ Hv), file_name_join in He.
  - injection He. apply app_partial_ne.
  - destruct Hv as (Hb & Hd & Hs). split_and!.
    + apply orb_false_iff. split; [by destruct (local_basename args)|].
      destruct (String.eqb_spec (local_basename args ^^ ".partial") ".") as [E|]; [|done].
      apply (f_equal String.length) in E. rewrite length_app_str in E. cbn in E. lia.
    + intros E. apply (f_equal String.length) in E. rewrite length_app_str in E. cbn in E. lia.
    + by rewrite str_forall_app, Hs.
Qed.

(** *** The steps *)

Section steps.
Context (partial : string) (Hpartial : partial_path local_path = Some partial)
        (Hdiffers : partial <> local_path).

(** Writing the partial file only. *)
Lemma partial_informed s0 d s s' :
  Informed s0 d s -> (exists t, hist s' = hist s ++ t) ->
  (forall q, q <> partial -> file_at s' q = file_at s q) -> Informed s0 d s'.
Proof.
  intros [([t Ht] & Ho & Hl) (t1 & out & H1 & H2 & H3)] [u Hu] Hf. split.
  - split; [exists (t ++ u); by rewrite Hu, Ht, app_assoc|]. split.
    + intros q Hq Hp. rewrite Hf; [by apply Ho|]. intros ->. by apply Hp.
    + by rewrite Hf.
  - exists (t1 ++ u), out. split_and!; [by rewrite Hu, H1, app_assoc|set_solver|done].
Qed.

Lemma remove_informed s0 d : keeps_inv (Informed s0 d) (remove_quietly (D := D) (Net := Net) (L := L) partial).
Proof.
  unfold remove_quietly. apply inv_bind; [|intros; apply inv_ret]. intros ct now s Hs.
  unfold fs_writes, fut_state. destruct (fs_remove_file partial (site_fs s)) as [r f'] eqn:Hr.
  assert (Informed s0 d (set_site_fs f' s)).
  { eapply partial_informed; [exact Hs|exists []; by rewrite app_nil_r|]. intros q Hq.
    unfold file_at. cbn. pose proof (remove_only partial (site_fs s) q Hq) as H. by rewrite Hr in H. }
  by split.
Qed.

Lemma fail_informed s0 d e :
  holds (Informed s0 d) (fail_without partial e) (Outcome s0) (Halfway s0).
Proof.
  apply (informed_then s0 d); [apply remove_informed|]. intros _. apply holds_ret.
  intros s [Hu _]. by split; left.
Qed.

Lemma scp_informed s0 d job : fj_local_path job = partial ->
  keeps_inv (Informed s0 d) (proc_at site_wire set_site_wire (runner_fetch job)).
Proof.
  intros Hj ct now s Hs.
  assert (forall w, (exists t, history w.1 = hist s ++ t) ->
    (forall q, q <> partial -> content w.2 q = file_at s q) -> Informed s0 d (set_site_wire w s)) as Hw.
  { intros w Ht Hf. by eapply partial_informed. }
  destruct (fetch_recorded history job (hist s) ct now (site_wire s) eq_refl) as [(t & Ht & _) Hd].
  assert (forall q, q <> partial -> content (rpc_state (runner_fetch job ct now (site_wire s))).2 q = file_at s q /\
    forall k, content (rpc_dropped (runner_fetch job ct now (site_wire s)) k).2 q = file_at s q) as Hf.
  { intros q Hq. eapply (fetch_writes job (file_at s q) q); [by rewrite Hj|done]. }
  split.
  - apply Hw; [by exists t|]. intros q Hq. by destruct (Hf q Hq).
  - intros k. destruct (Hd k) as (t' & Ht' & _). apply Hw; [by exists t'|]. intros q Hq. by destruct (Hf q Hq).
Qed.

(** A session's digest of a file is that of its bytes at that moment. *)
Lemma sha_of_file s0 d path :
  holds (Informed s0 d) (sha256_file_cancellable path)
    (fun r s => Informed s0 d s /\ forall x, r = Ok x -> exists bytes,
       file_at s path = Some bytes /\ x.1 = sha bytes)
    (Informed s0 d).
Proof.
  intros ct now s Hs. destruct (sha256_cancellable_spec path s ct now) as (_ & H1 & H2 & H3).
  rewrite H2. split; [split; [done|]|intros k; by rewrite H3].
  intros [x n] Hx%H1. by apply (file_digest_spec sha content) in Hx.
Qed.

Definition Ready (s0 : Site) (d : list N) (s : Site) : Prop :=
  Informed s0 d s /\ exists bytes, file_at s partial = Some bytes /\ d = sha bytes.

Lemma rename_delivers s0 d :
  holds (Ready s0 d) (proc_map_err Io (fs_writes (fs_rename partial local_path)))
    (fun r s => match r with Ok _ => Delivered s0 s | Err _ => Untouched s0 s end) (Halfway s0).
Proof.
  intros ct now s ([([t Ht] & Ho & Hl) (t1 & out & H1 & H2 & H3)] & bytes & Hb & Hd).
  unfold proc_map_err, proc_bind, fut_bind, fs_writes, fut_state.
  pose proof (rename_moves partial local_path (site_fs s)) as Hr.
  destruct (fs_rename partial local_path (site_fs s)) as [[u|e] f'] eqn:Hf; cbn.
  - assert (Delivered s0 (set_site_fs f' s)) as HD; [|split; [done|]; intros k; case_match; by right].
    destruct Hr as [Hr1 Hr2]. split.
    + intros q Hq Hp. unfold file_at. cbn. rewrite Hr2; [by apply Ho|intros ->; by apply Hp|done].
    + exists bytes. split; [unfold file_at in *; cbn; congruence|]. exists t1, out. by rewrite <- Hd.
  - assert (Untouched s0 (set_site_fs f' s)) as HU; [|split; [done|]; intros k; case_match; by left].
    split; [by exists t|]. unfold Others, file_at in *. cbn. split; [|by rewrite Hr].
    intros q Hq Hp. rewrite Hr. by apply Ho.
Qed.

Lemma download_outcome s0 d entry key remote_path (Hv : ff_verify args = true) :
  holds (Informed s0 d) (download cfg args entry key remote_path local_path partial d)
    (Outcome s0) (Halfway s0).
Proof.
  apply (informed_then s0 d); [apply remove_informed|]. intros _.
  eapply holds_bind.
  { eapply holds_weaken; [by apply (scp_informed s0 d)|done| |].
    - intros r s H. exact H.
    - intros s [H _]. by left. }
  intros [outcome|e]; [|apply fail_informed]. destruct (negb _); [apply fail_informed|].
  eapply holds_try.
  { eapply holds_weaken; [apply (sha_of_file s0 d partial)|done|intros r s H; exact H|].
    intros s [H _]. by left. }
  2: { intros e s [[H _] _]. by split; left. }
  intros [post_sha post_size]. rewrite Hv. cbn [andb].
  destruct (decide (post_sha = d)) as [->|Hne].
  - rewrite bool_decide_true by done. cbn [negb]. eapply holds_try.
    { eapply holds_weaken; [apply (rename_delivers s0 d)| |intros r s H; exact H|done].
      intros s [H1 H2]. split; [done|]. by destruct (H2 _ eq_refl) as (bytes & ? & ?); exists bytes. }
    + intros []. apply holds_ret. intros s H. by split; [|right].
    + intros e s H. by split; left.
  - rewrite bool_decide_false by done. cbn [negb].
    eapply holds_weaken; [apply (fail_informed s0 d)|by intros s [H _]|done|done].
Qed.

Definition Resolved (s0 : Site) (d : list N) (r : Result (option Value) JmcpError) (s : Site) : Prop :=
  match r with
  | Ok (Some _) => Delivered s0 s
  | Ok None => Informed s0 d s
  | Err _ => Untouched s0 s
  end.

Lemma conflict_outcome s0 d :
  holds (Informed s0 d) (local_conflict args local_path d) (Resolved s0 d) (Halfway s0).
Proof.
  unfold local_conflict. apply keeps_then; [apply inv_get|by intros e s [H _]|intros s [H _]; by left|].
  assert (forall r, (forall s, Informed s0 d s -> Resolved s0 d r s) ->
    holds (Informed s0 d) (proc_ret r) (Resolved s0 d) (Halfway s0)) as Hret.
  { intros r Hr. apply holds_ret. intros s Hs. split; [by apply Hr|]. left. apply Hs. }
  intros [[| |]|e]; try (apply Hret; solve [done|by intros s [H _]]).
  eapply holds_try.
  { eapply holds_weaken; [apply (sha_of_file s0 d local_path)|done|intros r s H; exact H|].
    intros s [H _]. by left. }
  2: { intros e s [[H _] _]. by split; [|left]. }
  intros [local_sha size]. case_bool_decide as Heq; [|destruct (ff_force args)]; apply holds_ret;
    intros s [[Hu Ht] Hx]; try (by split; [|left]).
  subst local_sha. destruct (Hx _ eq_refl) as (bytes & Hb & Hs). cbn in Hs. subst d.
  split; [|by left]. split; [apply Hu|]. by exists bytes.
Qed.

Lemma fetch_on_outcome s0 d entry key (Hv : ff_verify args = true) :
  holds (Untouched s0) (fetch_on cfg args d entry key local_path partial) (Outcome s0) (Halfway s0).
Proof.
  unfold fetch_on. eapply holds_try with (M := fun r s => Untouched s0 s /\
    forall digest, r = Ok (Some digest) -> told_since s0 s digest).
  { intros ct now s Hs.
    destruct (calm_untouched s0 (remote_checksum d (remote_path_of (ff_remote_path args)) "remote_checksum")
      (calm_digest _ _ _) ct now s Hs) as [H1 H2].
    destruct (traces_digest history d (remote_path_of (ff_remote_path args)) "remote_checksum"
      (hist s) ct now s eq_refl) as [(t & Ht & _ & Hf) _].
    split; [split; [exact H1|]|intros k; left; apply H2].
    intros digest Hr. destruct (Hf (Some digest)) as (out & -> & Hp); [by rewrite Hr|].
    destruct Hs as [[t0 Ht0] _]. eexists _, out. rewrite Ht, Ht0, <- app_assoc.
    split; [reflexivity|]. split; [set_solver|done]. }
  2: { intros e s [H _]. by split; left. }
  intros [digest|].
  - eapply holds_weaken with (P := Informed s0 digest); [|by intros s [H1 H2]; split; [|apply H2]|intros r s H; exact H|done].
    eapply holds_try; [apply conflict_outcome| |].
    + intros [v|]; [|by apply download_outcome]. apply holds_ret. intros s H. by split; [|right].
    + intros e s H. by split; left.
  - apply holds_ret. intros s [H _]. by split; left.
Qed.

End steps.

Lemma fetch_locked_outcome s0
    (Hv : ff_verify args = true) (Hname : validate_source_basename (local_basename args) = Ok tt) :
  holds (Untouched s0) (fetch_locked cfg args) (Outcome s0) (Halfway s0).
Proof.
  unfold fetch_locked. apply calm_then; [by apply calm_pure|]. intros [entry key].
  fold local_path. destruct (partial_path local_path) as [partial|] eqn:Hp;
    [|apply holds_ret; intros s H; by split; left].
  apply calm_then; [apply calm_open|]. intros g. apply holds_scoped.
  destruct (dev g) as [d|]; [|apply holds_ret; intros s H; by split; left].
  eapply holds_weaken; [|done| |].
  - apply (fetch_on_outcome partial Hp (partial_differs partial Hname Hp) s0 d entry key Hv).
  - intros r s H. exact H.
  - intros s H. exact H.
Qed.

Lemma fetch_untouched_refl s0 : Untouched s0 s0.
Proof. split; [exists []; by rewrite app_nil_r|done]. Qed.

Lemma calm_acquire r : calm (acquire permit_wait r).
Proof. apply calm_silent; [by apply silent_acquire|]. by intros fs0 ct now s Hs. Qed.
Lemma calm_raw {T E} (p : Proc Site T E) : calm p -> calm (select_cancel_raw p).
Proof.
  intros [H Hf]. split.
  - by eapply (traces_select_raw _ (CL := CL)); [exact H| |].
  - intros fs0. by apply (inv_select_raw (CL := CL)).
Qed.

Lemma fetch_body_outcome s0 (Hv : ff_verify args = true) :
  holds (Untouched s0) (fetch_body permit_wait cfg args) (Outcome s0) (Halfway s0).
Proof.
  assert (forall e, holds (Untouched s0) (proc_ret (Err e)) (Outcome s0) (Halfway s0)) as He.
  { intros e. apply holds_ret. intros s H. by split; left. }
  unfold fetch_body. apply calm_then; [by apply calm_pure|]. intros [|]; [apply He|].
  apply calm_then; [by apply calm_pure|]. intros _.
  destruct (validate_source_basename (local_basename args)) as [[]|e] eqn:Hname.
  2: { eapply holds_try with (M := fun r s => r = Err e /\ Untouched s0 s);
         [by apply holds_ret; intros s H; split; [|left]| |].
       - intros t. intros ct now s [? _]. done.
       - intros e' s [_ H]. by split; left. }
  apply calm_then; [by apply calm_pure|]. intros _. apply calm_then; [by apply calm_pure|]. intros _.
  apply calm_then; [apply calm_raw, calm_acquire|]. intros _. apply holds_scoped.
  eapply holds_weaken; [by apply (fetch_locked_outcome s0)|done| |]; by intros.
Qed.


End fetch.

(** ** Listing *)

Section listing.
Context {X : External} {Sh : Sha256} {F : Type} {SH : StagingHost F} {SD : StagingDir F}.
Context (utc_now : DateTime) {D Net : Type} {RC : RustezClient D Net} {L : Type}.

#[local] Abbreviation Site := (Site (F := F) (D := D) (Net := Net) (L := L)).

(** What a listed file must be: a regular file of the directory that is not
    hidden. *)
Definition Listable (rd : list (Result DirEntry IoError)) (p : Prelim) : Prop :=
  exists e meta, Ok e ∈ rd /\ de_metadata e = Ok meta /\ md_kind meta = RegularFile /\
    starts_with "." (de_name e) = false /\ p = (de_name e, de_path e, md_modified meta).

Lemma gather_spec rd found : gather rd = Ok found -> forall p, p ∈ found <-> Listable rd p.
Proof.
  revert found. induction rd as [|next rd IH]; intros found; cbn.
  - intros [= <-] p. split; [by intros ?%elem_of_nil|]. by intros (e & m & ?%elem_of_nil & _).
  - destruct next as [e|]; [|done]. unfold staged_entry.
    destruct (de_metadata e) as [meta|] eqn:Hm; [|done]. cbn.
    destruct (gather rd) as [out|]; [|done]. cbn. intros Hf p.
    specialize (IH out eq_refl p).
    assert (Listable (Ok e :: rd) p <-> Listable rd p \/
      (md_kind meta = RegularFile /\ starts_with "." (de_name e) = false /\
       p = (de_name e, de_path e, md_modified meta))) as ->.
    { split.
      - intros (e' & m' & [[= ->]|Hin]%elem_of_cons & H1 & H2 & H3 & H4).
        + rewrite Hm in H1. injection H1 as <-. by right.
        + left. by exists e', m'.
      - intros [(e' & m' & Hin & H)|(H1 & H2 & H3)]; [exists e', m'|exists e, meta];
          (split; [|by eauto]); by constructor. }
    rewrite <- IH. unfold is_file in Hf.
    destruct (md_kind meta), (starts_with "." (de_name e)); cbn in Hf; injection Hf as <-;
      rewrite ?elem_of_cons; clear; intuition (try done; auto).
Qed.

#[local] Instance name_le_total : Total name_le.
Proof. intros a b. apply strings.String.le_total. Qed.
#[local] Instance name_le_trans : Transitive name_le.
Proof. intros a b c. unfold name_le. apply transitivity. Qed.

(** A prefix of a sorted list comes before the rest. *)
Lemma sorted_take n (l : list Prelim) p q :
  Sorted name_le l -> p ∈ take n l -> q ∈ l -> q ∉ take n l -> name_le p q.
Proof.
  intros Hs Hp Hq Hn. apply Sorted_StronglySorted in Hs; [|exact _].
  rewrite <- (take_drop n l) in Hs, Hq. apply elem_of_app in Hq as [?|Hq]; [done|].
  eapply StronglySorted_app in Hs as (H & _ & _). by apply H.
Qed.

Lemma hash_entries_names prelim ct now (s : Site) out :
  rpc_result (hash_entries utc_now prelim ct now s) = Ok out ->
  map (fun e => sf_name e) out = map (fun p : Prelim => p.1.1) prelim /\
  forall e, e ∈ out -> exists p f sha size, p ∈ prelim /\ file_digest f p.1.2 = Ok (sha, size) /\
    e = {| sf_name := p.1.1; sf_size_bytes := size; sf_sha256 := hex32 sha;
           sf_mtime_iso := systemtime_to_iso utc_now p.2 |}.
Proof.
  revert ct now s out. induction prelim as [|[[name path] mtime] rest IH]; intros ct now s out; cbn.
  { intros [= <-]. split; [done|]. by intros e ?%elem_of_nil. }
  assert (rpc_result (sha256_file path ct now s) = file_digest (site_fs s) path) as Hd
    by (unfold sha256_file, file_digest; by destruct (fs_open_read _ _)).
  rewrite Hd. destruct (file_digest (site_fs s) path) as [[sha size]|e] eqn:Hf; [|done]. cbn.
  destruct (rpc_result (hash_entries utc_now rest _ _ _)) as [out'|e] eqn:Hr; [|done].
  apply IH in Hr as [H1 H2]. cbn. intros [= <-]. cbn. rewrite H1. split; [done|].
  intros e [->|He]%elem_of_cons.
  - exists (name, path, mtime), (site_fs s), sha, size. split; [left|by split].
  - destruct (H2 e He) as (p & f & sh & sz & ? & ? & ?). exists p, f, sh, sz. split; [by right|by split].
Qed.

(** The first pass: which names are kept, of how many. *)
Lemma list_names_spec dir (f : F) prelim cut total :
  list_names dir f = Ok (prelim, cut, total) ->
  exists kept : list Prelim,
    total = length kept /\ prelim = take 256 kept /\ cut = (256 <? total)%nat /\ Sorted name_le kept /\
    (fs_exists f dir = true -> exists rd, fs_read_dir f dir = Ok rd /\ forall p, p ∈ kept <-> Listable rd p).
Proof.
  unfold list_names. destruct (fs_exists f dir) eqn:He; cbn [negb].
  2: { intros [= <- <- <-]. exists []. by repeat (split; [done || constructor|]). }
  destruct (fs_read_dir f dir) as [rd|e]; [|done]. cbn [map_err].
  destruct (gather rd) as [found|e] eqn:Hg; [|done]. cbn [map_err].
  set (sorted := sort_names found). intros [= <- <- <-]. exists sorted. split_and!; [done| |done| |].
  - change STAGING_DIR_MAX_ENTRIES with 256%nat. destruct (Nat.ltb_spec 256 (length sorted)); [done|].
    by rewrite take_ge.
  - apply Sorted_merge_sort; apply _.
  - intros _. exists rd. split; [done|]. intros p. rewrite <- (gather_spec rd found Hg p).
    unfold sorted, sort_names. by rewrite merge_sort_Permutation.
Qed.

(** The staging directory is listed by name, at most 256 files of it, each a
    regular file that is not hidden and with the digest of its content; the flag
    tells whether any were left out, the count how many there are, and those
    left out come after those listed. *)
Theorem staging_listing (dir : string) (ct : option N) (now : N) (s : Site) (r : StagingDirResult)
    (H : rpc_result (read_staging_dir utc_now dir ct now s) = Ok r) :
  exists prelim kept : list Prelim,
    map (fun e => sf_name e) (entries r) = map (fun p : Prelim => p.1.1) prelim /\
    total_found r = length kept /\ length prelim = Nat.min 256 (total_found r) /\
    (truncated r = true <-> (256 < total_found r)%nat) /\
    Sorted name_le prelim /\
    (forall p, p ∈ prelim -> p ∈ kept) /\
    (forall p q, p ∈ prelim -> q ∈ kept -> q ∉ prelim -> name_le p q) /\
    (fs_exists (site_fs s) dir = true -> exists rd, fs_read_dir (site_fs s) dir = Ok rd /\
       forall p, p ∈ kept <-> Listable rd p) /\
    (forall e, e ∈ entries r -> exists p f sha size, p ∈ prelim /\ file_digest f p.1.2 = Ok (sha, size) /\
       sf_sha256 e = hex32 sha /\ sf_size_bytes e = size).
Proof.
  revert H. unfold read_staging_dir, fs_reads. cbn -[list_names hash_entries].
  destruct (list_names dir (site_fs s)) as [[[prelim cut] total]|e] eqn:Hl; [|done].
  apply list_names_spec in Hl as (kept & -> & Hp & -> & Hs & Hrd). cbn -[hash_entries Nat.ltb].
  destruct (rpc_result (hash_entries utc_now prelim ct _ s)) as [out|e] eqn:Hh; [|done].
  apply hash_entries_names in Hh as [Hn Hd]. cbn -[Nat.ltb]. intros [= <-]. cbn [entries total_found truncated].
  exists prelim, kept. split_and!; try done.
  - by rewrite Hp, length_take.
  - apply Nat.ltb_lt.
  - rewrite Hp. apply StronglySorted_Sorted. apply Sorted_StronglySorted in Hs; [|apply _].
    rewrite <- (take_drop 256 kept) in Hs. by apply StronglySorted_app in Hs as (_ & Hs & _).
  - intros p H. rewrite Hp in H. rewrite <- (take_drop 256 kept). apply elem_of_app. by left.
  - intros p q. rewrite Hp. by apply sorted_take.
  - intros e (p & f & sh & size & ? & ? & ->)%Hd. by exists p, f, sh, size.
Qed.

End listing.
