(* ===== verification/UpgradeSpec.v ===== *)
(** * What an upgrade promises

    The calls a run makes, the version it waits for and how long the wait can
    last, the preflight's verdict, and the comparison of two baselines. *)

From S2P Require Import Prelude RustStr Fmt Errors NetAddr Inventory Async JsonValue Proc.
From S2P Require Import Trace DeviceManager DeviceManagerSpec RustPath Transfer TransferSpec Upgrade.
From Stdlib Require Import Ascii.

(** ** The preflight *)

Section preflight.
Context {X : External}.

(** The device may be upgraded: what the facts have to say. *)
Record Upgradable (facts : PreflightFacts) (args : UpgradeJunosArgs) : Prop := {
  ug_standalone : detect_cluster_active (cluster_status_output facts) = false;
  ug_version : exists v, parse_junos_version (version_output facts) = Some v /\ v <> up_target_version args;
  ug_no_window : detect_active_commit_confirmed (commit_output facts) = None;
  ug_room : exists free, parse_storage_free_bytes (storage_output facts) = Ok free /\
              (N.min U64_MAX (2 * local_image_size facts + UPGRADE_DISK_HEADROOM_BYTES) <= free)%N
}.

Lemma required_space_spec facts :
  required_space facts = N.min U64_MAX (2 * local_image_size facts + UPGRADE_DISK_HEADROOM_BYTES).
Proof. unfold required_space, saturating_add, saturating_mul. lia. Qed.

Lemma preflight_sound facts args d :
  evaluate_preflight facts args = d -> d = Proceed \/ (exists p, d = NeedsConfirmation p) ->
  Upgradable facts args /\ up_confirm args = match d with Proceed => true | _ => false end.
Proof.
  intros <-. unfold evaluate_preflight. rewrite required_space_spec.
  repeat case_match; try solve [by intros [[=]|[? [=]]]]; intros _;
    (split; [split; [done|eexists; split; [done|by apply String.eqb_neq]|done
                     |eexists; split; [done|by apply N.ltb_ge]]|]);
    by apply negb_false_iff + apply negb_true_iff.
Qed.

Lemma preflight_complete facts args :
  Upgradable facts args -> exists p,
  evaluate_preflight facts args = if up_confirm args then Proceed else NeedsConfirmation p.
Proof.
  intros [H1 (v & H2 & H3) H4 (free & H5 & H6)]. exists (confirmation_payload facts args v free).
  unfold evaluate_preflight. rewrite H1, H2, H4, H5, required_space_spec.
  rewrite (proj2 (String.eqb_neq _ _) H3), (proj2 (N.ltb_ge _ _) H6). by destruct (up_confirm args).
Qed.

Lemma preflight_at_target facts args v :
  evaluate_preflight facts args = AlreadyAtTarget v ->
  parse_junos_version (version_output facts) = Some v /\ v = up_target_version args.
Proof. unfold evaluate_preflight. repeat case_match; try done. intros [= <-]. by split; [|apply String.eqb_eq]. Qed.

(** An upgrade goes ahead exactly when the device is no cluster member, its
    version is known and not the target, no commit waits for confirmation, the
    free space covers twice the image and 32 MiB (saturating at the width of the
    counter), and the caller confirmed; without the confirmation, and only then,
    the same facts give the request for it. *)
Theorem preflight_verdict (facts : PreflightFacts) (args : UpgradeJunosArgs) :
  (evaluate_preflight facts args = Proceed <-> Upgradable facts args /\ up_confirm args = true) /\
  ((exists p, evaluate_preflight facts args = NeedsConfirmation p) <->
   Upgradable facts args /\ up_confirm args = false).
Proof.
  split; split.
  - intros H. apply (preflight_sound facts args Proceed H). by left.
  - intros [Hu Hc]. destruct (preflight_complete facts args Hu) as [p ->]. by rewrite Hc.
  - intros [p H]. apply (preflight_sound facts args (NeedsConfirmation p) H). eauto.
  - intros [Hu Hc]. destruct (preflight_complete facts args Hu) as [p ->]. rewrite Hc. eauto.
Qed.

(** A window printed in any other unit is not seen: the device's own [10mins]
    opens the way to the upgrade. *)
Definition facts_in_window (window : string) : PreflightFacts := {|
  cluster_status_output := "error: Chassis cluster is not enabled."; version_output := "Junos: 24.4R1.9";
  commit_output := "0   2026-05-14 by root via cli commit confirmed, rollback in " ^^ window;
  storage_output := "/dev/gpt/var 10G 2.1G 7.0G 23% /.mount/var"; local_image_size := 1000;
  local_image_sha256 := []; image_basename := "img.tgz" |}.
Definition confirmed_args : UpgradeJunosArgs := {|
  up_device := "r1"; up_source_path := "img.tgz"; up_target_version := "25.4R1.12"; up_confirm := true;
  up_timeout := 900; up_reboot_wait_secs := 480 |}.
Example preflight_sees_short_units :
  evaluate_preflight (facts_in_window "9m30s") confirmed_args = CommitConfirmedActive 570.
Proof. vm_compute. reflexivity. Qed.
Example preflight_misses_mins :
  evaluate_preflight (facts_in_window "10mins") confirmed_args = Proceed.
Proof. vm_compute. reflexivity. Qed.

End preflight.

(** ** Durations *)

Lemma parse_digits_grows num s n : parse_digits num s = Some n -> (num <= n)%N.
Proof.
  revert num. induction s as [|c s IH]; intros num; cbn; [intros [= ->]; lia|].
  destruct (is_ascii_digit c); [|done]. intros H%IH. lia.
Qed.

Lemma to_digit_10 c : is_ascii_digit c = true -> to_digit 10 c = Some (byte_n c - 48)%N.
Proof.
  unfold is_ascii_digit, to_digit, hex_value. intros H. rewrite H.
  unfold in_range in H. apply andb_true_iff in H as [H1 H2]. apply N.leb_le in H1, H2.
  destruct (N.ltb_spec (byte_n c - 48) 10); [done|lia].
Qed.

Lemma rollback_digits total num have s t n :
  str_forall is_ascii_digit s = true -> parse_digits num s = Some n -> (n <= U64_MAX)%N ->
  rollback_go total num have (s ^^ t) = rollback_go total n (have || negb (is_empty s)) t.
Proof.
  revert num have. induction s as [|c s IH]; intros num have Hd Hp Hn; cbn.
  { cbn in Hp. injection Hp as ->. by rewrite orb_false_r. }
  cbn in Hd, Hp. apply andb_true_iff in Hd as [Hc Hs]. rewrite Hc in Hp. rewrite to_digit_10 by done.
  pose proof (parse_digits_grows _ _ _ Hp). unfold checked_u64.
  destruct (N.leb_spec (num * 10) U64_MAX); [|lia]. cbn.
  destruct (N.leb_spec (num * 10 + (byte_n c - 48)) U64_MAX); [|lia]. cbn.
  rewrite IH by done. by rewrite orb_true_r.
Qed.

Lemma dec_parse n : parse_digits 0 (dec n) = Some n.
Proof. apply parse_digits_dec_go. lia. Qed.
Lemma dec_nonempty n : is_empty (dec n) = false.
Proof. pose proof (dec_length_pos n). by destruct (dec n); cbn in *; [lia|]. Qed.

Definition minutes_seconds (m s : N) : string := dec m ^^ "m" ^^ dec s ^^ "s".

Lemma minutes_seconds_spec m s :
  (60 * m + s <= U64_MAX)%N -> parse_rollback_duration (minutes_seconds m s) = Some (60 * m + s)%N.
Proof.
  intros H. unfold parse_rollback_duration, minutes_seconds.
  rewrite (rollback_digits _ _ _ (dec m) _ m) by (apply dec_digits || apply dec_parse || lia).
  rewrite dec_nonempty. cbn [negb orb String.append rollback_go]. unfold checked_u64.
  change (to_digit 10 "m") with (@None N). cbn [Ascii.eqb Bool.eqb negb mbind option_bind].
  destruct (N.leb_spec (m * 60) U64_MAX); [|lia]. cbn [mbind option_bind].
  destruct (N.leb_spec (0 + m * 60) U64_MAX); [|lia]. cbn [mbind option_bind].
  rewrite (rollback_digits _ _ _ (dec s) _ s) by (apply dec_digits || apply dec_parse || lia).
  rewrite dec_nonempty. cbn [negb orb rollback_go].
  change (to_digit 10 "s") with (@None N). cbn [Ascii.eqb Bool.eqb negb mbind option_bind]. unfold checked_u64.
  destruct (N.leb_spec (0 + m * 60 + s) U64_MAX); [|lia]. cbn. f_equal. lia.
Qed.

Lemma graphic_no_ws s : str_forall is_ascii_graphic s = true -> find_ws s = None.
Proof.
  induction s as [|a s IH]; [done|]. cbn [str_forall find_ws]. intros [Ha Hs]%andb_true_iff.
  destruct (graphic_ascii a Ha) as [Hw Hb]. rewrite Hw, (IH Hs). cbn [orb].
  destruct s as [|b [|c s]]; [done|by rewrite (proj1 (ascii_no_ws2 a b Hb))|].
  by rewrite (proj1 (ascii_no_ws2 a b Hb)), (proj1 (ascii_no_ws3 a b c Hb)).
Qed.

Lemma minutes_seconds_graphic m s : str_forall is_ascii_graphic (minutes_seconds m s) = true.
Proof.
  assert (forall c, is_ascii_digit c = true -> is_ascii_graphic c = true) as Hd.
  { intros c. unfold is_ascii_digit, is_ascii_graphic, in_range. rewrite !andb_true_iff, !N.leb_le. lia. }
  unfold minutes_seconds. by rewrite !str_forall_app, !(dec_avoids is_ascii_graphic).
Qed.

(** A rollback window in minutes and seconds is read back exactly, as long
    as it fits 64 bits, whatever follows its line. *)
Theorem window_roundtrip (m s : N) (rest : string) (H : (60 * m + s <= U64_MAX)%N) :
  detect_active_commit_confirmed
    ("commit confirmed, rollback in " ^^ minutes_seconds m s ^^ newline ^^ rest) = Some (60 * m + s)%N.
Proof.
  set (line := "commit confirmed, rollback in " ^^ minutes_seconds m s).
  assert (Hline : line = String "c" (("ommit confirmed, rollback in " ^^ dec m ^^ "m" ^^ dec s) ^^ String "s" ""))
    by (unfold line, minutes_seconds; cbn; by rewrite !app_str_assoc).
  pose proof (minutes_seconds_graphic m s) as Hg.
  assert (Hclean : clean_line line).
  { split; [by rewrite Hline|]. split.
    - unfold line, no_lf. rewrite str_forall_app. cbn [andb].
      eapply str_forall_impl; [|exact Hg]. intros c Hc. by destruct (Ascii.eqb_spec c LF) as [->|].
    - intros [u Hu]. apply (f_equal str_rev) in Hu. rewrite Hline, str_rev_app_str in Hu.
      change (String "c" (?u ^^ String "s" "")) with (String "c" u ^^ String "s" "") in Hu.
      rewrite str_rev_app_str in Hu. injection Hu. done. }
  unfold detect_active_commit_confirmed.
  replace ("commit confirmed, rollback in " ^^ minutes_seconds m s ^^ newline ^^ rest)
    with (line ^^ newline ^^ rest) by (unfold line; by rewrite app_str_assoc).
  rewrite (lines_clean_app _ _ Hclean). cbn [first_rollback].
  assert (trim line = line) as -> by (rewrite Hline; by apply trim_graphic).
  assert (str_find rollback_needle line =
          Some ("commit confirmed, ", rollback_needle ^^ minutes_seconds m s)) as ->.
  { unfold line. generalize (minutes_seconds m s). intros t. by destruct t. }
  change (str_drop (String.length rollback_needle) (rollback_needle ^^ minutes_seconds m s))
    with (str_drop 0 (minutes_seconds m s)).
  replace (str_drop 0 (minutes_seconds m s)) with (minutes_seconds m s) by (by destruct (minutes_seconds m s)).
  rewrite (graphic_no_ws _ Hg). by apply minutes_seconds_spec.
Qed.

Lemma window_roundtrip_witness :
  detect_active_commit_confirmed
    ("commit confirmed, rollback in " ^^ minutes_seconds 9 30 ^^ newline ^^ "0   2026-05-14") = Some 570%N.
Proof. apply (window_roundtrip 9 30 "0   2026-05-14"). vm_compute. discriminate. Defined.

(** ** Baselines *)

(** Two baselines are compared command by command: a command is in the
    result when either side has it, its added lines are the later side's
    (trimmed, not blank, in order, repetitions kept) that the earlier lacks, its
    removed lines the reverse; a baseline does not differ from itself. *)
Theorem diff_baseline_spec (pre post : Baseline) (k : string) :
  (is_Some (diff_baseline pre post !! k) <-> is_Some (pre !! k) \/ is_Some (post !! k)) /\
  (forall d, diff_baseline pre post !! k = Some d ->
     added d `sublist_of` baseline_lines (post !! k) /\
     removed d `sublist_of` baseline_lines (pre !! k) /\
     (forall l, l ∈ added d <-> l ∈ baseline_lines (post !! k) /\ l ∉ baseline_lines (pre !! k)) /\
     (forall l, l ∈ removed d <-> l ∈ baseline_lines (pre !! k) /\ l ∉ baseline_lines (post !! k)) /\
     diff_baseline post pre !! k = Some {| added := removed d; removed := added d |} /\
     (pre !! k = post !! k -> added d = [] /\ removed d = [])).
Proof.
  unfold diff_baseline. unfold Baseline in *.
  assert (Hl : forall (pre post : gmap string string) d, (set_to_map (fun k => (k, line_diff (pre !! k) (post !! k)))
      (dom pre ∪ dom post : gset string) : gmap string BaselineDiff) !! k = Some d <->
      (is_Some (pre !! k) \/ is_Some (post !! k)) /\ d = line_diff (pre !! k) (post !! k)).
  { intros p q d. rewrite lookup_set_to_map by (by intros ?? _ _ [= ->]). split.
    - intros (y & Hy & [= -> <-]). rewrite elem_of_union, !elem_of_dom in Hy. done.
    - intros [H ->]. exists k. rewrite elem_of_union, !elem_of_dom. done. }
  split.
  - split; [intros [d Hd%Hl]; tauto|]. intros H. eexists. apply Hl. split; [exact H|done].
  - intros d [H ->]%Hl. cbn. unfold lines_missing.
    assert (Hsub : forall l from : list string, List.filter (fun x => bool_decide (x ∉ from)) l `sublist_of` l).
    { intros l from. induction l as [|x l IH]; cbn; [constructor|]. by case_bool_decide; constructor. }
    assert (Hin : forall (l from : list string) x, x ∈ List.filter (fun x => bool_decide (x ∉ from)) l <-> x ∈ l /\ x ∉ from).
    { intros l from x. by rewrite list_elem_of_In, filter_In, bool_decide_eq_true, <- list_elem_of_In. }
    split_and!; [done..| |].
    + apply Hl. split; [tauto|done].
    + intros ->. assert (forall l : list string, List.filter (fun x => bool_decide (x ∉ l)) l = []) as Hnil.
      { intros l. destruct (List.filter _ l) as [|x r] eqn:E; [done|].
        assert (x ∈ List.filter (fun x => bool_decide (x ∉ l)) l) as Hx by (rewrite E; left).
        apply Hin in Hx as [? ?]. done. }
      by rewrite !Hnil.
Qed.

(** ** The wait *)

Section wait.
Context {X : External} {CS : CancelSelect} {CL : CancelSelectLaws}.
Context {D Net F : Type} {RC : RustezClient D Net} {L : Type}.

#[local] Abbreviation Site := (Site (F := F) (D := D) (Net := Net) (L := L)).

Context (router target : string) (budget initial poll deadline : N) (probe_version : Proc Site string JmcpError).
Context (Hpoll : (0 < poll)%N).

#[local] Abbreviation loop := (wait_loop router target budget poll deadline probe_version).

(** An attempt or a sleep lasts no longer than it was given, and a sleep that is
    not cut lasts as long. *)
Lemma attempt_time ct now s :
  (rpc_time (select_cancel_raw (proc_timeout (F := JmcpError) deadline probe_version) ct now s) <= deadline)%N.
Proof.
  pose proof (select_time _ _ _ ct now (proc_timeout (F := JmcpError) deadline probe_version ct now) s) as H.
  unfold select_cancel_raw. etransitivity; [exact H|]. unfold proc_timeout, fut_timeout.
  case_match eqn:Hc; cbn; [by apply N.leb_le in Hc|lia].
Qed.
Lemma sleep_time d ct now (s : Site) :
  (rpc_time (select_cancel_raw (proc_sleep (E := JmcpError) d) ct now s) <= d)%N /\
  (is_ok (rpc_result (select_cancel_raw (proc_sleep (E := JmcpError) d) ct now s)) = true ->
   rpc_time (select_cancel_raw (proc_sleep (E := JmcpError) d) ct now s) = d).
Proof.
  split; [apply (select_time _ _ _ ct now (proc_sleep (E := JmcpError) d ct now) s)|].
  destruct (select_outcome _ _ _ ct now (proc_sleep (E := JmcpError) d ct now) s) as [(_ & _ & H)|[H _]].
  - intros _. exact H.
  - unfold select_cancel_raw. by rewrite H.
Qed.

(** How a call ends: the time it takes, its result and the state it leaves. *)
Definition end_of {T E} (r : Rpc Site T E) : N * Result T E * Site :=
  (rpc_time r, rpc_result r, rpc_state r).
Definition later {T E} (t : N) (x : N * Result T E * Site) : N * Result T E * Site :=
  ((t + x.1.1)%N, x.1.2, x.2).

Lemma wait_loop_step fuel start last ct now s :
  let a := select_cancel_raw (proc_timeout deadline probe_version) ct now s in
  let z := select_cancel_raw (proc_sleep (E := JmcpError) poll) ct (now + rpc_time a)%N (rpc_state a) in
  end_of (loop (Datatypes.S fuel) start last ct now s) =
  later (rpc_time a)
    match rpc_result a with
    | Err e => (0%N, Err e, rpc_state a)
    | Ok r =>
        match attempt_verdict target r last with
        | inl done => (0%N, done, rpc_state a)
        | inr last' =>
            if (budget <=? now + rpc_time a - start)%N
            then (0%N, Err (budget_exhausted router target budget last'), rpc_state a)
            else later (rpc_time z)
              match rpc_result z with
              | Err e => (0%N, Err e, rpc_state z)
              | Ok _ => end_of (loop fuel start last' ct (now + rpc_time a + rpc_time z)%N (rpc_state z))
              end
        end
    end.
Proof.
  cbn zeta. cbn [wait_loop]. unfold end_of, later, proc_then, proc_try, proc_bind, fut_bind.
  cbn [rpc_time rpc_result rpc_state].
  set (a := select_cancel_raw (proc_timeout deadline probe_version) ct now s).
  destruct (rpc_result a) as [r|e]; [|done].
  destruct (attempt_verdict target r last) as [fin|last']; [done|].
  cbn [proc_now fut_ret fut_state rpc_time rpc_result rpc_state]. rewrite N.add_0_l, N.add_0_r.
  destruct (budget <=? now + rpc_time a - start)%N; [done|]. cbn [rpc_time rpc_result rpc_state fst snd].
  set (z := select_cancel_raw (proc_sleep poll) ct (now + rpc_time a)%N (rpc_state a)).
  by destruct (rpc_result z).
Qed.

(** Time goes by between two attempts, and the last ends within the bound. *)
Lemma wait_loop_time fuel start last ct now s :
  (start <= now)%N -> (now - start <= N.max initial (budget + poll))%N ->
  (now + (end_of (loop fuel start last ct now s)).1.1 <= start + N.max initial (budget + poll) + deadline)%N.
Proof.
  revert last now s. induction fuel as [|fuel IH]; intros last now s Hs Hb; [cbn; lia|].
  rewrite wait_loop_step. pose proof (attempt_time ct now s) as Ha.
  set (a := select_cancel_raw (proc_timeout deadline probe_version) ct now s) in *.
  destruct (sleep_time poll ct (now + rpc_time a)%N (rpc_state a)) as [Hz _].
  set (z := select_cancel_raw (proc_sleep poll) ct (now + rpc_time a)%N (rpc_state a)) in *.
  unfold later. destruct (rpc_result a) as [r|e]; [|cbn; lia].
  destruct (attempt_verdict target r last) as [fin|last']; [cbn; lia|].
  destruct (N.leb_spec budget (now + rpc_time a - start)) as [|Hlt]; [cbn; lia|]. cbn [fst snd].
  destruct (rpc_result z); [|cbn; lia].
  specialize (IH last' (now + rpc_time a + rpc_time z)%N (rpc_state z) ltac:(lia) ltac:(lia)). lia.
Qed.

(** The turns that are left, from what is left of the budget. *)
Definition turns_left (elapsed : N) : nat :=
  if (budget <=? elapsed)%N then 1 else 2 + N.to_nat ((budget - elapsed) / poll).

Lemma wait_loop_fuel fuel extra start last ct now s :
  (start <= now)%N -> (turns_left (now - start) <= fuel)%nat ->
  end_of (loop (fuel + extra) start last ct now s) = end_of (loop fuel start last ct now s).
Proof.
  revert last now s. induction fuel as [|fuel IH]; intros last now s Hs Hf.
  { exfalso. unfold turns_left in Hf. destruct (budget <=? _)%N; inversion Hf. }
  change (Datatypes.S fuel + extra)%nat with (Datatypes.S (fuel + extra)). rewrite !wait_loop_step.
  set (a := select_cancel_raw (proc_timeout deadline probe_version) ct now s) in *.
  destruct (sleep_time poll ct (now + rpc_time a)%N (rpc_state a)) as [_ Hz].
  set (z := select_cancel_raw (proc_sleep poll) ct (now + rpc_time a)%N (rpc_state a)) in *.
  destruct (rpc_result a) as [r|e]; [|done].
  destruct (attempt_verdict target r last) as [fin|last']; [done|].
  destruct (N.leb_spec budget (now + rpc_time a - start)) as [|Hlt]; [done|].
  destruct (rpc_result z); [|done]. do 2 f_equal. specialize (Hz eq_refl).
  apply IH; [lia|]. revert Hf. unfold turns_left.
  destruct (N.leb_spec budget (now - start)); [lia|].
  destruct (N.leb_spec budget (now + rpc_time a + rpc_time z - start)) as [|Hm].
  { intros Hf. destruct fuel as [|fuel]; [inversion Hf as [|? Hx]; inversion Hx|apply le_n_S, Nat.le_0_l]. }
  rewrite Hz in *.
  assert ((budget - (now + rpc_time a + poll - start)) / poll + 1 <= (budget - (now - start)) / poll)%N as Hq;
    [|revert Hq; generalize ((budget - (now + rpc_time a + poll - start)) / poll)%N;
      generalize ((budget - (now - start)) / poll)%N; clear; intros q p Hq Hf; lia].
  rewrite <- (N.div_add _ 1 poll), N.mul_1_l by lia. apply N.Div0.div_le_mono. lia.
Qed.

(** C27: The wait for the rebooted device ends: its loop has enough turns for any
    device, more would change nothing, and however the attempts go it is over
    one attempt's deadline after the budget and one more pause (or the initial
    delay, if that is longer). *)
Theorem wait_ends (fuel_more : nat) (ct : option N) (now : N) (s : Site) :
  let go k := proc_then proc_now (fun start =>
                proc_then (select_cancel_raw (proc_sleep (E := JmcpError) initial)) (fun _ =>
                  loop (wait_fuel budget poll + k) start None)) in
  end_of (go fuel_more ct now s) =
  end_of (wait_for_version router target budget initial poll deadline probe_version ct now s) /\ (rpc_time (wait_for_version router target budget initial poll deadline probe_version ct now s)
   <= N.max initial (budget + poll) + deadline)%N.
Proof.
  cbn zeta. unfold wait_for_version, end_of, proc_then, proc_try, proc_bind, fut_bind.
  cbn [proc_now fut_ret fut_state rpc_time rpc_result rpc_state]. rewrite N.add_0_r.
  destruct (sleep_time initial ct now s) as [Hz _].
  set (z := select_cancel_raw (proc_sleep initial) ct now s) in *.
  destruct (rpc_result z); [|cbn; split; [done|lia]].
  assert (turns_left (now + rpc_time z - now) <= wait_fuel budget poll)%nat as Hf.
  { unfold turns_left, wait_fuel. destruct (budget <=? _)%N; [apply le_n_S, Nat.le_0_l|].
    assert ((budget - (now + rpc_time z - now)) / poll <= budget / poll)%N as Hq by (apply N.Div0.div_le_mono; lia).
    revert Hq. generalize ((budget - (now + rpc_time z - now)) / poll)%N, (budget / poll)%N. clear. lia. }
  pose proof (wait_loop_fuel _ fuel_more now None ct (now + rpc_time z)%N (rpc_state z) ltac:(lia) Hf) as He.
  pose proof (wait_loop_time (wait_fuel budget poll) now None ct (now + rpc_time z)%N (rpc_state z)
    ltac:(lia) ltac:(lia)) as Ht.
  pose proof (f_equal (fun x => x.1.1) He) as E1. pose proof (f_equal (fun x => x.1.2) He) as E2.
  pose proof (f_equal (fun x => x.2) He) as E3. unfold end_of in *. cbn [fst snd] in *.
  rewrite E1, E2, E3. split; [done|]. lia.
Qed.

End wait.
