(* ===== verification/UpgradeTraceSpec.v ===== *)
(** * What an upgrade asks of the device

    Every run, however it ends: what is asked before the image is sent, what
    before it is installed, and what a reply means. *)

From S2P Require Import Prelude RustStr Fmt Errors NetAddr Inventory Async JsonValue Proc.
From S2P Require Import Trace DeviceManager DeviceManagerSpec RustPath Transfer TransferSpec Upgrade UpgradeSpec.
From Stdlib Require Import Ascii.

Lemma each_all (R : list Event -> Event -> Prop) past t :
  (forall p e, e ∈ t -> R p e) -> each R past t.
Proof.
  revert past. induction t as [|e t IH]; intros past H; cbn; [done|].
  split; [apply H; left|]. apply IH. intros p e' He. apply H. by right.
Qed.

Section upgrade.
Context {X : External} {CS : CancelSelect} {CL : CancelSelectLaws} {Sh : Sha256}.
Context {F : Type} {SH : StagingHost F} {D Net : Type} {RC : RustezClient D Net}.
Context {SR : ScpRunner (Net * F)} {L : Type} {DL : DeviceLeases L}.
Context (history : Net -> list Event) {HL : HistoryLaws history}.
Context (permit_wait : string -> N) (cfg : TransferConfig) (json_value : Value -> JsonValue).
Context (args : UpgradeJunosArgs) (allow_plane_owned_writes : bool) (correlation_id : string).

#[local] Abbreviation Site := (Site (F := F) (D := D) (Net := Net) (L := L)).
#[local] Abbreviation hist := (hist (L := L) (F := F) history).

(** The commands that only look. *)
Definition looking : list string :=
  ["show chassis cluster status"; version_command; "show system commit"; storage_command] ++ BASELINE_COMMANDS.
Definition Looks (e : Event) : Prop := exists c a, e = Asked c a /\ c ∈ looking.

Definition targs : TransferFileArgs := build_transfer_args args.
Definition install_it : string := install_command (up_source_path args).

(** The facts are what the device answered. *)
Definition Gathered (facts : PreflightFacts) (past : list Event) : Prop :=
  Asked "show chassis cluster status" (Some (cluster_status_output facts)) ∈ past /\
  Asked version_command (Some (version_output facts)) ∈ past /\
  Asked "show system commit" (Some (commit_output facts)) ∈ past /\
  Asked storage_command (Some (storage_output facts)) ∈ past.

(** The caller confirmed, may upgrade the device, and the device said that it can
    be upgraded. *)
Definition Preflighted (past : list Event) : Prop :=
  up_confirm args = true /\
  (exists m w, check_upgrade_device args allow_plane_owned_writes
                 (m : DeviceManager (D := D) (Net := Net)) = Ok w) /\
  exists facts, Gathered facts past /\ Upgradable facts args.

(** The device said that it holds an image whose digest is the staged file's. *)
Definition Holds_image (past : list Event) : Prop :=
  exists f sha size, file_digest f (path_join (staging_dir cfg) (up_source_path args)) = Ok (sha, size) /\
    told_digest targs (Some sha) past.

Definition Uninstalled (past : list Event) : Prop := forall a, Asked install_it a ∉ past.

Definition UpgradeStep (past : list Event) (e : Event) : Prop :=
  match e with
  | Asked c _ =>
      c ∈ looking \/
      (Preflighted past /\ (c = digest_command targs \/ c = delete_command targs)) \/
      (c = install_it /\ Preflighted past /\ Holds_image past /\ Uninstalled past)
  | Uploaded _ => Preflighted past
  | Fetched _ => False
  end.
#[local] Arguments UpgradeStep : simpl never.

(** The device reported the target version. *)
Definition told_target (t : list Event) : Prop :=
  exists out, Asked version_command (Some out) ∈ t /\
              parse_junos_version out = Some (up_target_version args).

Definition UpgradeReply (v : Value) (t : list Event) : Prop :=
  (value_get "status" v = Some (Str "already_at_target") /\ told_target t /\
   (forall e, e ∈ t -> Looks e)) \/
  (value_get "status" v = Some (Str "upgraded") /\
   exists t1 a t2, t = t1 ++ Asked install_it a :: t2 /\ told_target t2).

Definition UpgradeRun (o : option (Result Value JmcpError)) (t : list Event) : Prop :=
  each UpgradeStep [] t /\ forall v, o = Some (Ok v) -> UpgradeReply v t.

Lemma upgrade_fails (o : option (Result Value JmcpError)) t :
  each UpgradeStep [] t -> (forall v, o <> Some (Ok v)) -> UpgradeRun o t.
Proof. intros H Ho. split; [done|]. intros v ->. by destruct (Ho v). Qed.

(** *** The parts *)

Lemma looks_asked {T E} c (o : option (Result T E)) t (f : T -> option string) :
  c ∈ looking -> asked c o t f -> forall e, e ∈ t -> Looks e.
Proof.
  intros Hc H e He.
  assert (t = [] \/ exists a, t = [Asked c a]) as [->|[a ->]] by (destruct o as [[]|]; cbn in H; eauto).
  - by apply elem_of_nil in He.
  - apply list_elem_of_singleton in He as ->. by exists c, a.
Qed.

Definition Looking {T} (P : T -> list Event -> Prop) (o : option (Result T JmcpError)) (t : list Event) : Prop :=
  (forall e, e ∈ t -> Looks e) /\ forall x, o = Some (Ok x) -> P x t.

(** [p], once the looks of [pre] have happened. *)
Definition look_after {T} (pre : list Event) (p : Proc Site T JmcpError) (P : T -> list Event -> Prop) : Prop :=
  (forall e, e ∈ pre -> Looks e) -> traces hist p (fun o t => Looking P o (pre ++ t)).

Lemma look_start {T} (p : Proc Site T JmcpError) P : look_after [] p P -> traces hist p (Looking P).
Proof. intros H. apply H. by intros e ?%elem_of_nil. Qed.

Lemma look_ret {T} pre (r : Result T JmcpError) P :
  (forall x, r = Ok x -> P x pre) -> look_after pre (proc_ret r) P.
Proof.
  intros HP H. apply traces_ret; rewrite app_nil_r; (split; [done|]); [|done].
  intros x [= ->]. by apply HP.
Qed.

Lemma look_then {T U} pre (p : Proc Site T JmcpError) (k : T -> Proc Site U JmcpError) M P :
  traces hist p (Looking M) -> (forall x t, M x t -> look_after (pre ++ t) (k x) P) ->
  look_after pre (proc_then p k) P.
Proof.
  intros Hp Hk H. eapply traces_try; [exact Hp| | |].
  - intros t [Ht _]. split; [|done]. intros e [?|?]%elem_of_app; auto.
  - intros e t [Ht _]. split; (split; [|done]); intros e' [?|?]%elem_of_app; auto.
  - intros x t [Ht HM]. eapply traces_weaken.
    + apply (Hk x t (HM x eq_refl)). intros e [?|?]%elem_of_app; auto.
    + intros o t'. by rewrite app_assoc.
Qed.

Lemma looking_probe d c phase : c ∈ looking ->
  traces hist (probe (F := F) (L := L) d c phase) (Looking (fun out t => t = [Asked c (Some out)])).
Proof.
  intros Hc. eapply traces_weaken; [by apply traces_probe|]. intros o t H. split.
  - exact (looks_asked c o t Some Hc H).
  - intros out ->. exact H.
Qed.

Lemma look_probe {T} pre d c phase (k : string -> Proc Site T JmcpError) P : c ∈ looking ->
  (forall out, look_after (pre ++ [Asked c (Some out)]) (k out) P) ->
  look_after pre (proc_then (probe d c phase) k) P.
Proof. intros Hc Hk. eapply look_then; [by apply looking_probe|]. intros out t ->. apply Hk. Qed.

(** A call that adds nothing, then the rest. *)
Lemma look_silent {T U E} pre (p : Proc Site T E) (k : Result T E -> Proc Site U JmcpError) P :
  silent hist p -> (forall r, look_after pre (k r) P) -> look_after pre (proc_bind p k) P.
Proof.
  intros Hp Hk H. eapply traces_bind with (M := fun _ t => t = []).
  - by apply traces_silent.
  - intros t ->. rewrite app_nil_r. by split.
  - intros r t ->. eapply traces_weaken; [by apply (Hk r)|]. done.
Qed.
Lemma look_silent_then {T U} pre (p : Proc Site T JmcpError) (k : T -> Proc Site U JmcpError) P :
  silent hist p -> (forall r, look_after pre (k r) P) -> look_after pre (proc_then p k) P.
Proof. intros Hp Hk. apply look_silent; [done|]. intros [x|e]; [done|]. by apply look_ret. Qed.

Lemma look_scoped {T} pre g (p : Proc Site T JmcpError) P :
  look_after pre p P -> look_after pre (scoped (drop_session g) p) P.
Proof. intros Hp H. apply traces_scoped; [done|]. by apply Hp. Qed.
Lemma look_session {T} pre g (k : D -> Proc Site T JmcpError) P :
  (forall d, look_after pre (k d) P) -> look_after pre (with_session g k) P.
Proof. intros Hk. apply look_scoped. destruct (dev g); [apply Hk|by apply look_ret]. Qed.
Lemma silent_drop g : silent hist (proc_state (E := JmcpError) (drop_session g)).
Proof. by apply silent_state. Qed.

Lemma look_validated {T} router c phase (k : D -> string -> Proc Site T JmcpError) P : c ∈ looking ->
  (forall d out pre, Asked c (Some out) ∈ pre -> look_after pre (k d out) P) ->
  look_after [] (with_validated router c phase k) P.
Proof.
  intros Hc Hk. unfold with_validated. apply look_silent_then; [by apply (silent_open history)|]. intros g.
  destruct (dev g) as [d|]; [|apply look_silent_then; [apply silent_drop|]; intros _; by apply look_ret].
  assert (Looks (Asked c None)) as Hn by (by exists c, None).
  intros _. eapply traces_bind with (M := fun o t => (forall e, e ∈ t -> Looks e) /\
    forall out, o = Some (Ok (Ok out)) -> Asked c (Some out) ∈ t).
  { apply traces_guarded; [done|]. eapply (traces_select_raw _ (CL := CL)); [by apply traces_cli| |]; cbn.
    - intros r t [Ha Ht]. rewrite (Ht r eq_refl). split; [|intros out [= ->]; left].
      intros e ->%list_elem_of_singleton. by exists c, (result_ok r).
    - intros t [Ha _]. split; (split; [|done]); by eapply (looks_asked c (E := RustEzError) (T := string) None t Some). }
  { intros t [Ht _]. by split. }
  intros r t [Ht Hout]. destruct r as [[out|e]|e].
  - apply (look_scoped t g (k d out) P); [|done]. apply Hk, Hout. done.
  - apply (look_silent_then t _ _ P); [apply silent_drop| |done]. intros _.
    case_match; [|by apply look_ret].
    apply look_silent_then; [|intros fresh; apply look_session; intros d'].
    + apply (silent_select _ (CL := CL)), silent_on_dm. intros _ m.
      apply (connect_fresh_seen history (open_unrecorded history) router (on_pool (invalidate [router]) m)).
    + apply look_probe; [done|]. intros out. apply Hk. set_solver.
  - apply (look_silent_then t _ _ P); [apply silent_drop| |done]. intros _. by apply look_ret.
Qed.

Lemma gather_trace image size sha :
  traces hist (gather_facts (up_device args) image size sha)
    (Looking (fun facts t => Gathered facts t /\ local_image_sha256 facts = sha)).
Proof.
  apply look_start. unfold gather_facts. apply look_validated; [by left|].
  intros d cluster pre Hpre.
  apply look_probe; [by right; left|]. intros version. apply look_probe; [by do 2 right; left|]. intros commit.
  apply look_probe; [by do 3 right; left|]. intros storage. apply look_ret. intros x [= <-].
  split; [|done]. unfold Gathered. cbn. split_and!; set_solver.
Qed.

Lemma baseline_trace : traces hist (capture_baseline (up_device args)) (Looking (fun _ _ => True)).
Proof.
  unfold capture_baseline.
  assert (forall d cmds out pre, cmds ⊆ looking ->
    look_after pre (baseline_loop (F := F) (L := L) d cmds out) (fun _ _ => True)) as Hloop.
  { intros d cmds. induction cmds as [|c cmds IH]; intros out pre Hc; [by apply look_ret|].
    cbn [baseline_loop]. apply (look_then _ _ _ (fun _ _ => True)).
    - eapply (traces_select_raw _ (CL := CL)); [by apply traces_cli| |]; cbn.
      + intros r t [_ Ht]. rewrite (Ht r eq_refl). split; [|done].
        intros e ->%list_elem_of_singleton. exists c, (result_ok r). split; [done|]. apply Hc. left.
      + intros t [Ha _]. assert (c ∈ looking) as Hc' by (apply Hc; left).
        pose proof (looks_asked (E := RustEzError) c None t Some Hc' Ha). by split; split.
    - intros r t _. apply IH. intros x Hx. apply Hc. by right. }
  apply look_start, look_silent_then; [by apply (silent_open history)|]. intros g.
  apply look_session. intros d. apply Hloop. intros c Hc. apply elem_of_app. by right.
Qed.

(** *** [run_cli] asks once, or twice with a fresh session; its answer is the last *)

Section run_cli.
Context (c : string) (Hc : c ∈ looking).

Definition seen (m : DeviceManager (D := D) (Net := Net)) : list Event := history (net m).
(** After the looks of [pre]: a result is the answer to [c]. *)
Definition answers (pre : list Event) (o : option (Result string JmcpError)) (t : list Event) : Prop :=
  Looking (fun out t => Asked c (Some out) ∈ t) o (pre ++ t).
Definition all_look (pre : list Event) : Prop := forall e, e ∈ pre -> Looks e.

Lemma all_look_snoc pre a : all_look pre -> all_look (pre ++ [Asked c a]).
Proof. intros H e [He| ->%list_elem_of_singleton]%elem_of_app; [by apply H|]. by exists c, a. Qed.

Lemma answers_end f pre : keeps seen f -> all_look pre ->
  (forall m out, rpc_result (f m) = Ok out -> Asked c (Some out) ∈ pre) -> ftraces seen f (answers pre).
Proof.
  intros Hf Hp Ho. apply ftraces_keeps; [done|intros m|]; unfold answers; rewrite app_nil_r; (split; [done|]); [|done].
  intros out [= H]. eauto.
Qed.

Lemma answers_open {T} (f : Future DeviceManager T JmcpError) k pre : keeps seen f -> all_look pre ->
  (forall x, ftraces seen (k x) (answers pre)) -> ftraces seen (fut_try (fun e => e) f k) (answers pre).
Proof.
  intros Hf Hp Hk. apply ftraces_bind with (M := fun _ t => t = []).
  - by apply ftraces_keeps.
  - intros t ->. unfold answers. rewrite app_nil_r. by split.
  - intros [x|e] t ->; [exact (Hk x)|]. apply answers_end; [apply keeps_ret|done|done].
Qed.

Lemma answers_ask g d pre (k : Result string RustEzError -> Future DeviceManager string JmcpError) :
  all_look pre ->
  (forall r a, (forall out, r = Ok out -> a = Some out) -> ftraces seen (k r) (answers (pre ++ [Asked c a]))) ->
  ftraces seen (fut_bind (fut_guarded g (fut_net (device_cli d c))) k) (answers pre).
Proof.
  intros Hp Hk. apply ftraces_bind with (M := fun o t => (o = None /\ all_look t) \/
    exists r, o = Some r /\ t = [Asked c (result_ok r)]).
  - intros h ct now m <-. unfold proc_fut, fut_guarded, fut_net, fut_at, seen. cbn. split.
    + rewrite (cli_recorded history). eexists. split; [reflexivity|]. right. by eexists.
    + intros j. destruct (cli_cut history d c (net m) j) as [->| ->].
      * exists []. rewrite app_nil_r. split; [done|]. left. split; [done|]. by intros e ?%elem_of_nil.
      * exists [Asked c None]. split; [done|]. left. split; [done|]. apply (all_look_snoc []).
        by intros e ?%elem_of_nil.
  - intros t [[_ Ht]|(r & [=] & _)]. split; [|done]. intros e [?|?]%elem_of_app; auto.
  - intros r t [[[=] _]|(r' & [= <-] & ->)]. eapply traces_weaken; [apply (Hk r (result_ok r))|].
    + by intros out ->.
    + intros o t'. unfold answers. by rewrite app_assoc.
Qed.

Lemma run_cli_answers now : ftraces seen (run_cli now (up_device args) c) (answers []).
Proof.
  pose proof (open_unrecorded history) as Hnet.
  assert (Hnil : all_look []) by (by intros e ?%elem_of_nil).
  unfold run_cli. apply answers_open; [apply (open_keeps_seen history Hnet)|done|]. intros g.
  destruct (dev g) as [d|]; [|apply answers_end; [apply keeps_ret|done|done]].
  apply answers_ask; [done|]. intros [out|err] a Ha.
  { rewrite (Ha out eq_refl). apply answers_end; [by intros m|by apply all_look_snoc|].
    intros m out' [= <-]. set_solver. }
  destruct (error_is_transient _); [|apply answers_end; [by intros m|by apply all_look_snoc|done]].
  apply ftraces_bind with (M := fun _ t => t = []).
  { by apply ftraces_keeps. }
  { intros t ->. unfold answers. rewrite app_nil_r. split; [by apply all_look_snoc|done]. }
  intros r t ->. apply answers_open; [|by apply all_look_snoc|].
  { intros m. apply (connect_fresh_seen history Hnet (up_device args) (on_pool (invalidate [up_device args]) m)). }
  intros fresh. destruct (dev fresh) as [d'|]; [|apply answers_end; [apply keeps_ret|by apply all_look_snoc|done]].
  apply answers_ask; [by apply all_look_snoc|]. intros r' a' Ha'.
  apply answers_end; [by intros m|by apply all_look_snoc, all_look_snoc|].
  intros m out. cbn. destruct r' as [o|]; [|done]. intros [= <-]. rewrite (Ha' o eq_refl). set_solver.
Qed.

Lemma run_cli_trace :
  traces hist (on_dm (F := F) (L := L) (fun now => run_cli now (up_device args) c))
    (Looking (fun out t => Asked c (Some out) ∈ t)).
Proof.
  intros h ct now s Hs. exact (run_cli_answers now h ct now (site_dm s) Hs).
Qed.

End run_cli.

(** *** The wait *)

Lemma wait_trace :
  traces hist (await_target (F := F) (L := L) args) (Looking (fun _ => told_target)).
Proof.
  unfold await_target, wait_for_version.
  set (p := on_dm (fun now => run_cli now (up_device args) version_command)).
  apply look_start, look_silent_then; [by apply silent_pure|]. intros start.
  apply look_silent_then; [by apply (silent_select_raw _ (CL := CL)), silent_pure|]. intros _.
  generalize (wait_fuel (from_secs (up_reboot_wait_secs args)) (from_secs 15)). intros fuel.
  generalize (@None string), (@nil Event). induction fuel as [|fuel IH]; intros last pre; [by apply look_ret|].
  cbn [wait_loop]. eapply (look_then _ _ _ (fun r t => forall out, r = Ok (Some (Ok out)) -> Asked version_command (Some out) ∈ t)).
  { eapply (traces_select_raw _ (CL := CL)).
    - eapply (traces_timeout (F := JmcpError) _ _ _ _ (fun o t => (forall e, e ∈ t -> Looks e) /\
        forall out, o = Some (Ok (Some (Ok out))) -> Asked version_command (Some out) ∈ t)).
      + apply run_cli_trace. by right; left.
      + intros t [Ht _]. by split; split.
      + intros r t [Ht Hr]. split; [done|]. intros out [= ->]. by apply Hr.
    - intros r t [Ht Hr]. split; [done|]. intros x [= ->] out ->. by apply Hr.
    - intros t [Ht _]. by split; split. }
  intros r t Hr. destruct (attempt_verdict (up_target_version args) r last) as [fin|last'] eqn:Hv.
  - apply look_ret. intros x ->. unfold attempt_verdict in Hv. repeat case_match; simplify_eq.
    eexists. split; [apply elem_of_app; right; by apply Hr|]. rewrite H2. f_equal. by apply String.eqb_eq.
  - apply look_silent_then; [by apply silent_pure|]. intros now. case_match; [by apply look_ret|].
    apply look_silent_then; [by apply (silent_select_raw _ (CL := CL)), silent_pure|]. intros _. apply IH.
Qed.

Lemma install_trace :
  traces hist (install (F := F) (L := L) args)
    (fun o t => (t = [] /\ forall x, o <> Some (Ok x)) \/ exists a, t = [Asked install_it a]).
Proof.
  unfold install. apply traces_quiet'; [by apply (silent_open history)|by left..|]. intros g.
  apply traces_with_session; [|by left..]. intros d.
  eapply traces_bind; [by apply traces_cli| |].
  - intros t [[->|[a ->]] _]; [by left|right; by exists a].
  - intros r t [_ Ht]. rewrite (Ht r eq_refl). destruct r as [out|e].
    + apply traces_quiet'; [by apply silent_pure|by right; eexists..|].
      intros [|]; apply traces_ret; right; eexists; by rewrite app_nil_r.
    + case_match; apply traces_ret; right; eexists; by rewrite app_nil_r.
Qed.

(** *** The whole *)

Lemma install_it_new c : c ∈ looking \/ c = digest_command targs \/ c = delete_command targs -> c <> install_it.
Proof.
  intros [H|[->| ->]]; [|discriminate..]. unfold looking, BASELINE_COMMANDS, version_command, storage_command in H.
  intros ->. cbn in H. repeat (apply elem_of_cons in H as [[=]|H]). by apply elem_of_nil in H.
Qed.

Lemma uninstalled_app pre t :
  Uninstalled pre -> (forall c a, Asked c a ∈ t -> c ∈ looking \/ c = digest_command targs \/ c = delete_command targs) ->
  Uninstalled (pre ++ t).
Proof. intros H Ht a [Ha|Ha]%elem_of_app; [by destruct (H a)|]. by apply (install_it_new install_it (Ht _ _ Ha)). Qed.

Lemma gathered_app facts pre t : Gathered facts pre -> Gathered facts (pre ++ t).
Proof. intros (H1 & H2 & H3 & H4). split_and!; apply elem_of_app; by left. Qed.
Lemma preflighted_app pre t : Preflighted pre -> Preflighted (pre ++ t).
Proof. intros (H1 & H2 & facts & H3 & H4). split_and!; [done..|]. exists facts. split; [by apply gathered_app|done]. Qed.
Lemma holds_image_app pre t : Holds_image pre -> Holds_image (pre ++ t).
Proof.
  intros (f & sha & size & H1 & out & H2 & H3). exists f, sha, size. split; [done|].
  exists out. split; [apply elem_of_app; by left|done].
Qed.

(** [p], once the steps of [pre] have happened. *)
Definition up_after (pre : list Event) (p : Proc Site Value JmcpError) : Prop :=
  each UpgradeStep [] pre -> traces hist p (fun o t => UpgradeRun o (pre ++ t)).

Lemma up_ret pre (r : Result Value JmcpError) :
  (forall v, r = Ok v -> UpgradeReply v pre) -> up_after pre (proc_ret r).
Proof.
  intros Hv H. apply traces_ret; rewrite app_nil_r; [split; [done|]|by apply upgrade_fails].
  intros v [= ->]. by apply Hv.
Qed.
Lemma up_err pre e : up_after pre (proc_ret (Err e)).
Proof. by apply up_ret. Qed.

(** A part with its own steps, then the rest. *)
Lemma up_then {T} pre (p : Proc Site T JmcpError) k M :
  traces hist p M -> (forall o t, M o t -> each UpgradeStep pre t) ->
  (forall x t, M (Some (Ok x)) t -> up_after (pre ++ t) (k x)) -> up_after pre (proc_then p k).
Proof.
  intros Hp Hs Hk H.
  assert (forall o t, M o t -> each UpgradeStep [] (pre ++ t)) as Hs'.
  { intros o t Ht. rewrite each_app. split; [done|by eapply Hs]. }
  eapply traces_try; [exact Hp| | |].
  - intros t HM. apply upgrade_fails; [by eapply Hs'|done].
  - intros e t HM. split; (apply upgrade_fails; [by eapply Hs'|done]).
  - intros x t HM. eapply traces_weaken; [apply (Hk x t HM); by eapply Hs'|].
    intros o t'. by rewrite app_assoc.
Qed.

Lemma up_quiet {T} pre (p : Proc Site T JmcpError) k (R : T -> Prop) :
  traces hist p (fun o t => t = [] /\ forall x, o = Some (Ok x) -> R x) ->
  (forall x, R x -> up_after pre (k x)) -> up_after pre (proc_then p k).
Proof.
  intros Hp Hk. eapply up_then; [exact Hp|by intros o t [-> _]|].
  intros x t [-> HR]. rewrite app_nil_r. apply Hk. by apply HR.
Qed.
Lemma up_silent {T} pre (p : Proc Site T JmcpError) k :
  silent hist p -> (forall x, up_after pre (k x)) -> up_after pre (proc_then p k).
Proof. intros Hp Hk. apply (up_quiet _ _ _ (fun _ => True)); [|auto]. by apply traces_silent. Qed.

Lemma up_look {T} pre (p : Proc Site T JmcpError) k P :
  traces hist p (Looking P) ->
  (forall x t, (forall e, e ∈ t -> Looks e) -> P x t -> up_after (pre ++ t) (k x)) ->
  up_after pre (proc_then p k).
Proof.
  intros Hp Hk. eapply up_then; [exact Hp| |].
  - intros o t [Ht _]. apply each_all. intros q e He. destruct (Ht e He) as (c & a & -> & Hc). by left.
  - intros x t [Ht HP]. apply Hk; auto.
Qed.

(** The transfer's steps are the upgrade's once the preflight has passed. *)
Lemma transfer_steps sha size job pre past t :
  Preflighted pre -> each (TransferStep targs sha size job) past t ->
  each UpgradeStep (pre ++ past) t /\
  forall c a, Asked c a ∈ t -> c ∈ looking \/ c = digest_command targs \/ c = delete_command targs.
Proof.
  intros Hp. revert past. induction t as [|e t IH]; intros past; cbn; [split; [done|]; by intros c a ?%elem_of_nil|].
  intros [He Ht]. destruct (IH _ Ht) as [IH1 IH2]. rewrite app_assoc in IH1.
  assert (Preflighted (pre ++ past)) as Hp' by (by apply preflighted_app).
  destruct e as [c a|j|j]; [|split; [by split|]; intros c a [[=]|H]%elem_of_cons; eauto|done].
  assert (c ∈ looking \/ c = digest_command targs \/ c = delete_command targs) as Hc.
  { destruct He as [->|[->|[-> _]]]; [left|by right; left|by right; right]. by do 3 right; left. }
  split.
  - split; [|done]. destruct Hc; [by left|right; left]. by split.
  - intros c' a' [[= -> ->]|H]%elem_of_cons; eauto.
Qed.

Lemma transfer_part pre o t :
  Preflighted pre -> Uninstalled pre -> Transferring cfg targs o t ->
  each UpgradeStep pre t /\ Uninstalled (pre ++ t) /\ ((exists v, o = Some (Ok v)) -> Holds_image t).
Proof.
  intros Hp Hu [[-> Ho]|(f & m & sha & size & entry & key & _ & Hf & _ & Hs & Hr)].
  { rewrite app_nil_r. split_and!; [done..|]. intros [v ->]. by destruct (Ho v). }
  destruct (transfer_steps _ _ _ _ _ _ Hp Hs) as [H1 H2]. rewrite app_nil_r in H1.
  split_and!; [done|by apply uninstalled_app|]. intros [v ->].
  assert (last_told targs (Some sha) t) as (t0 & out & -> & Hout).
  { destruct (Hr v eq_refl) as [(_ & H & _)|(verified & _ & Hv & H)]; [done|]. apply H. by apply Hv. }
  exists f, sha, size. split; [done|]. by apply told_digest_last.
Qed.

Lemma destructive_run pre facts warning : Preflighted pre -> Uninstalled pre ->
  up_after pre (run_destructive permit_wait cfg args facts warning correlation_id).
Proof.
  intros Hp Hu. unfold run_destructive.
  apply up_silent; [by apply silent_pure|]. intros started.
  eapply up_look; [apply baseline_trace|]. intros base t1 Ht1 _.
  apply up_silent; [by apply silent_pure|]. intros phase1.
  assert (Preflighted (pre ++ t1)) as Hp1 by (by apply preflighted_app).
  assert (Uninstalled (pre ++ t1)) as Hu1.
  { apply uninstalled_app; [done|]. intros c a (c' & a' & [= -> ->] & Hc)%Ht1. by left. }
  eapply up_then; [apply (transfer_file_run history)|by intros o t (? & _)%(transfer_part _ _ _ Hp1 Hu1)|].
  intros _v t2 Ht2. destruct (transfer_part _ _ _ Hp1 Hu1 Ht2) as (_ & Hu2 & Hi).
  assert (Holds_image t2) as Hi2 by eauto. set (pre2 := (pre ++ t1) ++ t2) in *.
  assert (Preflighted pre2) as Hp2 by (by apply preflighted_app).
  assert (Holds_image pre2) as Hi2'.
  { destruct Hi2 as (f & sha & size & H1 & out & H2 & H3). exists f, sha, size. split; [done|].
    exists out. split; [apply elem_of_app; by right|done]. }
  apply up_silent; [by apply silent_pure|]. intros phase2.
  eapply up_then; [apply install_trace| |].
  { intros o t [[-> _]|[a ->]]; [done|]. split; [|done]. right; right. by split_and!. }
  intros [] t3 [[_ Ho]|[a ->]]; [by destruct (Ho tt)|].
  apply up_silent; [by apply silent_pure|]. intros phase3.
  eapply up_look; [apply wait_trace|]. intros shown t4 _ Ht4.
  apply up_silent; [by apply silent_pure|]. intros phase4.
  eapply up_look; [apply baseline_trace|]. intros base' t5 _ _.
  apply up_silent; [by apply silent_pure|]. intros finished.
  apply up_ret. intros v [= <-]. right. split; [by destruct warning|].
  exists pre2, a, (t4 ++ t5). split; [by rewrite <- !app_assoc|].
  destruct Ht4 as (out & H1 & H2). exists out. split; [apply elem_of_app; by left|done].
Qed.

(** The facts decide: a reply without touching the device, an error, or [go]. *)
Lemma decided_run pre facts go :
  Gathered facts pre -> (forall e, e ∈ pre -> Looks e) ->
  (Upgradable facts args -> up_confirm args = true -> up_after pre go) ->
  up_after pre (proceed_or_finish json_value args (evaluate_preflight facts args) go).
Proof.
  intros (_ & Hg & _) Hl Hgo. unfold proceed_or_finish.
  destruct (evaluate_preflight facts args) eqn:Hd; cbn [finish_preflight]; try apply up_err.
  - apply up_ret. intros v [= <-]. left. split_and!; [done| |done].
    apply preflight_at_target in Hd as [Hv ->]. by exists (version_output facts).
  - destruct (preflight_sound facts args Proceed Hd) as [Hu Hc]; [by left|]. by apply Hgo.
Qed.

Lemma dispatch_run pre facts warning (m : DeviceManager (D := D) (Net := Net)) w :
  check_upgrade_device args allow_plane_owned_writes m = Ok w ->
  Gathered facts pre -> (forall e, e ∈ pre -> Looks e) ->
  up_after pre (dispatch_preflight permit_wait cfg json_value args facts warning correlation_id).
Proof.
  intros Hm Hg Hl. apply (decided_run pre facts); [done..|]. intros _ Hc. unfold with_lease.
  apply up_silent; [by intros h ct now s <-|]. intros lease H. apply traces_scoped; [done|]. revert H.
  change (up_after pre (proc_then (gather_facts (up_device args) (image_basename facts)
    (local_image_size facts) (local_image_sha256 facts)) (fun locked =>
    proceed_or_finish json_value args (evaluate_preflight locked args)
      (run_destructive permit_wait cfg args locked warning correlation_id)))).
  eapply up_look; [apply gather_trace|]. intros locked t Ht [Hg' _].
  assert (Gathered locked (pre ++ t)) as Hg2.
  { destruct Hg' as (H1 & H2 & H3 & H4). split_and!; apply elem_of_app; by right. }
  assert (forall e, e ∈ pre ++ t -> Looks e) as Hl2 by (intros e [?|?]%elem_of_app; auto).
  apply (decided_run _ locked); [done..|]. intros Hu _. apply destructive_run.
  - split_and!; [done|eauto|]. by exists locked.
  - intros a (c & a' & [= <- <-] & Hin)%Hl2. by apply (install_it_new install_it); [left|].
Qed.

Lemma upgrade_run :
  traces hist (upgrade_junos permit_wait cfg json_value args allow_plane_owned_writes correlation_id) UpgradeRun.
Proof.
  apply traces_bounded.
  - enough (up_after [] (upgrade_body permit_wait cfg json_value args allow_plane_owned_writes correlation_id))
      as H by (by apply H).
    unfold upgrade_body. apply up_silent; [by apply silent_pure|]. intros [|]; [apply up_err|].
    apply up_silent; [by apply silent_ret|]. intros _.
    apply (up_quiet _ _ _ (fun w => exists m : DeviceManager (D := D) (Net := Net),
      check_upgrade_device args allow_plane_owned_writes m = Ok w)).
    { apply traces_get; [|done]. intros s. split; [done|]. intros x [= Hx]. eauto. }
    intros w [m Hm]. apply up_silent; [by apply silent_get|]. intros _.
    eapply up_quiet; [apply traces_sha256|]. intros [sha size] _.
    eapply up_look; [apply gather_trace|]. intros facts t Ht [Hg _]. cbn [app].
    by eapply dispatch_run.
  - intros t [H _]. by apply upgrade_fails.
  - intros r t [H _]. by apply upgrade_fails.
Qed.


End upgrade.
