(* ===== verification/SiteDemo.v ===== *)
(** * A small site

    One device and one host, enough to run the file tools and the upgrade on:
    the classes the theorems are stated over have instances, and the theorems'
    hypotheses hold of them. *)

From S2P Require Import Prelude RustStr Fmt Errors NetAddr Inventory Async JsonValue Proc.
From S2P Require Import Trace DeviceManager DeviceManagerSpec RustPath Transfer Fetch Upgrade.
From S2P Require Import TransferSpec TransferTextSpec FetchSpec UpgradeSpec UpgradeTraceSpec.
From Stdlib Require Import Ascii.

Module DemoSite.
#[local] Existing Instance string_external.
#[local] Existing Instance biased.
#[local] Existing Instance biased_laws.

(** The device: its history, the files of [/var/tmp/] and the version it runs. *)
Record Device := mk_device { log : list Event; disk : gmap string string; version : string }.
#[local] Abbreviation Files := (gmap string string).

(** A digest that is the file's first bytes, padded. *)
Definition digest (s : string) : list N :=
  take 32 (map byte_n (String.list_ascii_of_string s) ++ repeat 0%N 32).
#[local] Instance demo_sha : Sha256 := {|
  Hasher := string; hasher_new := ""; hasher_update := String.append; hasher_finalize := digest |}.

#[local] Instance demo_files : StagingHost Files := {|
  io_interrupted := fun _ => false;
  fs_metadata := fun f p => match f !! p with Some _ => Ok RegularFile | None => Err "no such file" end;
  fs_symlink_metadata := fun f p =>
    match f !! p with Some _ => Ok RegularFile | None => Err "no such file" end;
  fs_open_read := fun f p => match f !! p with Some c => Ok [Ok c] | None => Err "no such file" end;
  fs_read_time := 1;
  fs_remove_file := fun p f => (match f !! p with Some _ => Ok tt | None => Err "no such file" end, delete p f);
  fs_rename := fun a b f =>
    match f !! a with
    | Some c => (Ok tt, <[b := c]> (delete a f))
    | None => (Err "no such file", f)
    end |}.
Definition content (f : Files) (p : string) : option string := f !! p.

#[local] Instance demo_dir : StagingDir Files := {|
  fs_exists := fun _ _ => true;
  fs_read_dir := fun f dir =>
    Ok (map (fun kv => Ok {| de_name := str_drop (Datatypes.S (String.length dir)) kv.1; de_path := kv.1;
                             de_metadata := Ok {| md_kind := RegularFile; md_modified := Some 0%Z |} |})
          (List.filter (fun kv => starts_with dir kv.1) (map_to_list f)));
  DateTime := Z; from_timestamp := Some; iso_utc := fun _ => "1970-01-01T00:00:00Z"; year_of := fun _ => "2026" |}.

Definition free_space : string :=
  "/dev/gpt/var 10G 2.1G 7.0G 23% /.mount/var".

(** What the device answers, and what becomes of it. *)
Definition reply_to (c : string) (n : Device) : string * Device :=
  if String.eqb c "show system storage no-forwarding" then (free_space, n)
  else if String.eqb c version_command then ("Junos: " ^^ version n, n)
  else if starts_with "request system software add" c then ("rebooting", mk_device (log n) (disk n) "24.4R2.1")
  else if starts_with "file delete " c then ("", mk_device (log n) (delete (str_drop 12 c) (disk n)) (version n))
  else if starts_with "file checksum sha-256 " c then
    let path := str_drop 22 c in
    (match disk n !! path with
     | Some bytes => "SHA256 (" ^^ path ^^ ") = " ^^ hex32 (digest bytes) ^^ newline
     | None => "error: /var/tmp: No such file or directory"
     end, n)
  else ("ok", n).
Definition ask (c : string) (n : Device) : Rpc Device string RustEzError :=
  let (a, n') := reply_to c n in
  mk_rpc 1 (Ok a) (mk_device (log n ++ [Asked c (Some a)]) (disk n') (version n')) (fun _ => n).
Definition at_once {T} (r : Result T RustEzError) : Future Device T RustEzError :=
  fun n => mk_rpc 1 r n (fun _ => n).

#[local] Instance demo_client : RustezClient unit Device := {|
  HostKeyVerification := unit; SshConfigFile := string; JumpHost := string;
  ssh_config_load := fun p => Ok p; resolve := fun _ _ => ([], None);
  device_open := fun _ => at_once (Ok tt); device_close := fun _ => at_once (Ok tt);
  device_cli := fun _ => ask; device_config := fun _ _ => Ok tt;
  config_unlock := fun _ => at_once (Ok tt); session_alive := fun _ _ => true;
  is_config_db_open := fun _ _ => false; touched_candidate := fun _ _ => false |}.

(** An SCP session copies one file whole, or is dropped before it starts. *)
Definition copy (e : Event) (w' : Device * Files -> Device * Files) : Proc (Device * Files) ScpOutcome IoError :=
  fun _ _ w =>
    mk_rpc 1 (Ok {| exit_code := 0; stdout := ""; stderr := "" |})
      (mk_device (log w.1 ++ [e]) (disk (w' w).1) (version w.1), (w' w).2) (fun _ => w).
#[local] Instance demo_scp : ScpRunner (Device * Files) := {|
  runner_run := fun job => copy (Uploaded job) (fun w =>
    (mk_device (log w.1)
       (<[remote_path_of (default "" (file_name (sj_local_path job))) :=
            default "" (w.2 !! sj_local_path job)]> (disk w.1)) (version w.1), w.2));
  runner_fetch := fun job => copy (Fetched job) (fun w =>
    (w.1, <[fj_local_path job := default "" (disk w.1 !! fj_remote_path job)]> w.2)) |}.
#[local] Instance demo_leases : DeviceLeases unit := {|
  LeaseGuard := unit; lease_acquire := fun _ _ _ => proc_ret (Ok tt); lease_release := fun _ l => l |}.

Lemma demo_history : HistoryLaws log.
Proof.
  assert (forall e w' , traces (fun w : Device * Files => log w.1) (copy e w') (fun _ t => t = [] \/ t = [e])) as Hc.
  { intros e w' h ct now w <-. cbn. split; [exists [e]; auto|]. intros k. exists []. rewrite app_nil_r. auto. }
  split.
  - intros [] c n. cbn. unfold ask. by destruct (reply_to c n).
  - intros [] c n k. cbn. unfold ask. destruct (reply_to c n). by left.
  - intros p n. by split.
  - intros job. apply Hc.
  - intros job. apply Hc.
Qed.

Lemma demo_sha_laws : Sha256Laws digest.
Proof.
  split. intros blocks. cbn. f_equal. unfold concat_all.
  enough (forall a, foldl String.append a blocks = a ^^ String.concat "" blocks) as -> by done.
  induction blocks as [|b bs IH]; intros a; [cbn; by rewrite app_str_nil_r|].
  cbn [foldl]. rewrite IH, app_str_assoc. f_equal. destruct bs; [cbn; by rewrite app_str_nil_r|done].
Qed.

Lemma demo_file_laws : FileLaws content.
Proof.
  split; unfold content; cbn.
  - intros f p reads blocks. destruct (f !! p) as [c|]; [|done]. intros [= <-].
    cbn. destruct c; cbn; by intros [= <-].
  - intros p f q Hq. by rewrite lookup_delete_ne.
  - intros a b f. destruct (f !! a) as [c|] eqn:Ha; [|done]. split; [by rewrite lookup_insert_eq|].
    intros q H1 H2. by rewrite lookup_insert_ne, lookup_delete_ne.
Qed.

Lemma demo_fetch_writes : FetchWrites (Net := Device) content.
Proof.
  split. intros job c q Hq ct now w Hw. unfold content in *. cbn. rewrite lookup_insert_ne by done. by split.
Qed.

#[local] Existing Instance demo_history.
#[local] Existing Instance demo_sha_laws.
#[local] Existing Instance demo_file_laws.
#[local] Existing Instance demo_fetch_writes.

Definition device_r1 : Device := mk_device [] ∅ "24.4R1.9".
Definition site (d : Device) (f : Files) : Site :=
  mk_site (mk_manager {| devices := {[ "r1" := demo_entry ]}; blocklist_defaults := None; source_path := "" |}
             "" [] false false tt pool_new d) f ∅ tt.
Definition config : TransferConfig :=
  {| staging_dir := "/srv"; known_hosts_file := "/etc/kh"; host_key_mode := AcceptNew |}.
Definition no_wait (_ : string) : N := 0%N.
Definition staged : Files := {[ "/srv/img.tgz" := "image" ]}.

(** *** Runs *)

Definition transfer_args : TransferFileArgs :=
  {| tf_device := "r1"; tf_source_path := "img.tgz"; tf_force := false; tf_verify := true; tf_timeout := 60 |}.
Definition transfer_run := transfer_file no_wait config transfer_args None 0%N (site device_r1 staged).
Example demo_transfer :
  rpc_result transfer_run = Ok (transferred_response "/var/tmp/img.tgz" 5 (digest "image") true) /\
  length (log (net (site_dm (rpc_state transfer_run)))) = 4%nat.
Proof. vm_compute. by split. Qed.

Definition upgrade_args : UpgradeJunosArgs := {|
  up_device := "r1"; up_source_path := "img.tgz"; up_target_version := "24.4R2.1"; up_confirm := true;
  up_timeout := 3600; up_reboot_wait_secs := 600 |}.
Definition upgrade_run_demo :=
  upgrade_junos no_wait config (fun _ => "") upgrade_args true "id" None 0%N (site device_r1 staged).
Example demo_upgrade :
  map_result (value_get "status") (rpc_result upgrade_run_demo) = Ok (Some (Str "upgraded")) /\
  version (net (site_dm (rpc_state upgrade_run_demo))) = "24.4R2.1".
Proof. vm_compute. by split. Qed.

Definition fetch_args : FetchFileArgs := {|
  ff_device := "r1"; ff_remote_path := "log.txt"; ff_local_name := None; ff_force := false;
  ff_verify := true; ff_timeout := 60 |}.
Definition device_log : Device := mk_device [] {[ "/var/tmp/log.txt" := "lines" ]} "24.4R1.9".
Definition fetch_run := fetch_file no_wait config fetch_args None 0%N (site device_log ∅).
Example demo_fetch :
  rpc_result fetch_run = Ok (fetched_response "/srv/log.txt" "/var/tmp/log.txt" 5 (digest "lines") true) /\
  map_to_list (site_fs (rpc_state fetch_run)) = [("/srv/log.txt", "lines")].
Proof. vm_compute. by split. Qed.

(** A listing that a device made in December, read in January: the date has no
    year and gets the current one, so it lies ahead. *)
Example december_is_dated_ahead :
  map df_mtime_iso (parse_var_tmp_listing "-rw-r--r--  1 root wheel 4096 Dec 20 18:01 /var/tmp/old.log" 2026) =
  ["2026-12-20T18:01:00"].
Proof. vm_compute. reflexivity. Qed.

(** *** Witnesses *)

Lemma transfer_protocol_witness :
  exists t, hist log (rpc_state transfer_run) = hist log (site device_r1 staged) ++ t /\
            Transferring config transfer_args (Some (rpc_result transfer_run)) t.
Proof.
  exact (proj1 (transfer_protocol log (CL := biased_laws) no_wait config transfer_args None 0%N
                  (site device_r1 staged))).
Defined.



Lemma wait_ends_witness :
  let wait := wait_for_version "r1" "24.4R2.1" (from_secs 600) (from_secs 30) (from_secs 15) (from_secs 30)
                (proc_ret (Err (Validation "connection refused"))) None 0%N (site device_r1 staged) in
  (rpc_time wait <= N.max (from_secs 30) (from_secs 600 + from_secs 15) + from_secs 30)%N.
Proof.
  exact (proj2 (wait_ends (CL := biased_laws) "r1" "24.4R2.1" (from_secs 600) (from_secs 30) (from_secs 15)
                  (from_secs 30) (proc_ret (Err (Validation "connection refused"))) eq_refl 0 None 0%N
                  (site device_r1 staged))).
Defined.

Definition listing : StagingDirResult := {|
  entries := [{| sf_name := "img.tgz"; sf_size_bytes := 5; sf_sha256 := hex32 (digest "image");
                 sf_mtime_iso := "1970-01-01T00:00:00Z" |}];
  truncated := false; total_found := 1 |}.
Lemma staging_listing_witness : exists prelim : list Prelim,
  map sf_name (entries listing) = map (fun p : Prelim => p.1.1) prelim.
Proof.
  assert (rpc_result (read_staging_dir (0%Z : DateTime (StagingDir := demo_dir)) "/srv" None 0%N (site device_r1 staged)) =
          Ok listing) as H by (vm_compute; reflexivity).
  destruct (staging_listing (SD := demo_dir) 0%Z "/srv" None 0%N (site device_r1 staged) listing H)
    as (prelim & _ & Hn & _).
  exists prelim. exact Hn.
Defined.

Lemma checksum_roundtrip_witness :
  parse_checksum_output ("SHA256 (" ^^ "/var/tmp/" ^^ "img.tgz" ^^ ") = " ^^ hex32 (digest "image") ^^ newline ^^ "") =
  Ok (Some (digest "image")).
Proof.
  apply (checksum_roundtrip "img.tgz" (digest "image") ""); [vm_compute; reflexivity|].
  split; [reflexivity|]. repeat constructor.
Defined.

End DemoSite.
