(* ===== verification/BundleStaging.v ===== *)
(** * Staging of a support bundle ([workflows/support_bundle/staging.rs])

    The names and directories a bundle is built under.  The file system is the
    interface [BundleFs]; code that calls it is a function of the state that
    may fail ([Sync]), composed by [let&].  The value [PreparedBundlePaths] owns
    its scratch directory and, until it is committed, its tarball:
    [drop_paths] is its destructor. *)

From S2P Require Import Prelude RustStr Fmt Errors JsonValue SrxErrors Async Proc RustPath.
From S2P Require Import Upgrade.
From Stdlib Require Import Ascii.

(** ** The file system ([std::fs], [tar], [flate2]) *)

Inductive FileType := TypeFile | TypeDir | TypeSymlink | TypeOther.

Class BundleFs {X : External} (S : Type) := {
  io_not_found : IoError -> bool;
  (** [symlink_metadata(path)?.file_type()] *)
  symlink_metadata : S -> string -> Result FileType IoError;
  canonicalize : S -> string -> Result string IoError;
  create_dir_all : string -> S -> Result unit IoError * S;
  (** [DirBuilder::new().mode(0o700).create(path)] *)
  create_dir_700 : string -> S -> Result unit IoError * S;
  remove_file : string -> S -> Result unit IoError * S;
  remove_dir_all : string -> S -> Result unit IoError * S;
  write_file : string -> string -> S -> Result unit IoError * S;
  (** [fs::metadata(path)?.len()] and [fs::read(path)] *)
  file_len : S -> string -> Result N IoError;
  read_file : S -> string -> Result string IoError;
  (** A file opened for writing, made by this call with mode 0600. *)
  File : Type;
  create_new_600 : string -> S -> Result File IoError * S;
  (** A gzipped archive written to it: a directory and all below, under a name
      of its own, following symbolic links or not; then its end and that of the
      compression. *)
  append_dir_all : bool -> File -> string -> string -> S -> Result unit IoError * S;
  tar_into_inner : File -> S -> Result unit IoError * S;
  gz_finish : File -> S -> Result unit IoError * S
}.

(** ** Code between awaits *)

Definition Sync {X : External} (S T : Type) : Type := S -> Result T SrxError * S.

Section sync.
Context {X : External} {S : Type}.

Definition sync_ret {T} (r : Result T SrxError) : Sync S T := fun s => (r, s).
Definition sync_get {T} (f : S -> Result T SrxError) : Sync S T := fun s => (f s, s).
Definition sync_state (f : S -> S) : Sync S unit := fun s => (Ok tt, f s).
Definition sync_then {T U} (m : Sync S T) (k : T -> Sync S U) : Sync S U := fun s =>
  match m s with (Ok t, s) => k t s | (Err e, s) => (Err e, s) end.
(** [call.map_err(|error| SrxError::InvalidInput(format!("{what}: {error}")))?] *)
Definition io_context {T} (what : string) (r : Result T IoError) : Result T SrxError :=
  map_err (fun e => SrxInvalidInput (what ^^ ": " ^^ io_display e)) r.
Definition sync_io {T} (what : string) (f : S -> Result T IoError * S) : Sync S T :=
  fun s => let (r, s) := f s in (io_context what r, s).
(** [cleanup] on an error, which is then returned. *)
Definition or_else {T} (cleanup : S -> S) (m : Sync S T) : Sync S T := fun s =>
  match m s with (Err e, s) => (Err e, cleanup s) | r => r end.
(** In an async function. *)
Definition in_proc {T} (m : Sync S T) : Proc S T SrxError := fun _ _ => fut_state m.

End sync.

Notation "'let&' x := m 'in' k" := (sync_then m (fun x => k))
  (at level 10, x pattern, k at level 200) : jmcp_scope.

(** ** Names *)

Definition MAX_PATH_COMPONENT_BYTES : N := 64.
Definition DEFAULT_STAGING_DIR : string := "/var/lib/jmcp/srx-staging/bundles".
Definition DEFAULT_STAGING_MAX_BYTES : N := 500 * 1024 * 1024.

Record SupportBundleStagingConfig := { directory : string; max_bytes : N }.
Definition default_staging_config : SupportBundleStagingConfig :=
  {| directory := DEFAULT_STAGING_DIR; max_bytes := DEFAULT_STAGING_MAX_BYTES |}.

Definition component_byte (b : ascii) : bool :=
  is_ascii_alphanumeric b || Ascii.eqb b "_" || Ascii.eqb b "." || Ascii.eqb b "-".

Section paths.
Context {X : External}.

Definition invalid_component (kind : string) : SrxError :=
  SrxInvalidInput (kind ^^ " must be 1..=" ^^ dec MAX_PATH_COMPONENT_BYTES
    ^^ " ASCII characters from [A-Za-z0-9_.-], must not be '.' or '..', and must not start with '-'").
Definition validate_path_component (kind value : string) : Result unit SrxError :=
  if is_empty value || (MAX_PATH_COMPONENT_BYTES <? len value)%N || String.eqb value "."
     || String.eqb value ".." || starts_with "-" value || negb (str_forall component_byte value)
  then Err (invalid_component kind) else Ok tt.

Definition filesystem_id_stem (filesystem_id : string) : Result string SrxError :=
  let? _ := validate_path_component "filesystem_id" filesystem_id in
  let stem := default filesystem_id (strip_prefix "srxmcp-" filesystem_id) in
  let? _ := validate_path_component "filesystem_id" stem in
  Ok stem.
Definition bundle_filename (filesystem_id extension : string) : Result string SrxError :=
  let? stem := filesystem_id_stem filesystem_id in
  Ok ("srxmcp-" ^^ stem ^^ "." ^^ extension).

Definition router_staging_dir (config : SupportBundleStagingConfig) (router : string)
  : Result string SrxError :=
  let? _ := validate_path_component "router" router in
  Ok (path_join (directory config) router).
Definition bundle_tarball_path (config : SupportBundleStagingConfig)
    (router filesystem_id : string) : Result string SrxError :=
  let? dir := router_staging_dir config router in
  let? name := bundle_filename filesystem_id "tgz" in
  Ok (path_join dir name).
Definition bundle_manifest_path (config : SupportBundleStagingConfig)
    (router filesystem_id : string) : Result string SrxError :=
  let? dir := router_staging_dir config router in
  let? name := bundle_filename filesystem_id "json" in
  Ok (path_join dir name).
Definition device_tarball_path (filesystem_id : string) : Result string SrxError :=
  let? name := bundle_filename filesystem_id "tgz" in
  Ok ("/var/tmp/" ^^ name).

(** [Path::strip_prefix], as the components left. *)
Definition strip_path_prefix (p base : string) : option (list Component) :=
  if path_starts_with p base then Some (drop (length (components base)) (components p)) else None.

Fixpoint log_components (result : string) (n : nat) (l : list Component)
  : Result (string * nat) SrxError :=
  match l with
  | [] => Ok (result, n)
  | Normal value :: l =>
      let? _ := validate_path_component "device log filename" value in
      log_components (path_join result value) (S n) l
  | _ :: _ => Err (SrxInvalidInput "device log path contains an unsafe component")
  end.
Definition device_log_tarball_path (device_path : string) : Result string SrxError :=
  match strip_path_prefix device_path "/var/log" with
  | None => Err (SrxInvalidInput "device log path must be below /var/log")
  | Some relative =>
      let? (result, n) := log_components "logs" 0 relative in
      if Nat.eqb n 0
      then Err (SrxInvalidInput "device log path must name a file below /var/log")
      else Ok result
  end.

End paths.

(** ** Directories *)

(** [Path]'s [PartialEq]. *)
Definition path_eqb (p q : string) : bool := bool_decide (components p = components q).

Record PreparedBundlePaths := {
  staging_root : string;
  staging_max_bytes : N;
  router_dir : string;
  scratch_dir : string;
  tarball_path : string;
  keep_tarball : bool
}.

Section staging.
Context {X : External} {S : Type} {FS : BundleFs S}.

Definition not_a_directory (path kind : string) : SrxError :=
  SrxInvalidInput (kind ^^ " must be a real directory, not a symlink or file: " ^^ path).
Definition checked_directory (path kind : string) (s : S) : Result string SrxError :=
  let? metadata := io_context ("inspect " ^^ kind) (symlink_metadata s path) in
  match metadata with
  | TypeDir => io_context ("canonicalize " ^^ kind) (canonicalize s path)
  | _ => Err (not_a_directory path kind)
  end.

Definition ensure_descendant (path root kind : string) : Result unit SrxError :=
  if path_eqb path root || negb (path_starts_with path root)
  then Err (SrxInvalidInput (kind ^^ " escapes configured staging root")) else Ok tt.

Definition create_private_directory (path kind : string) : Sync S unit :=
  sync_io ("create " ^^ kind) (create_dir_700 path).
Definition create_or_check_directory (path kind : string) : Sync S unit := fun s =>
  match symlink_metadata s path with
  | Ok TypeDir => (Ok tt, s)
  | Ok _ => (Err (not_a_directory path kind), s)
  | Err error =>
      if io_not_found error then create_private_directory path kind s
      else (io_context ("inspect " ^^ kind) (Err error), s)
  end.

Definition remove_without_following (path : string) (s : S) : S :=
  match symlink_metadata s path with
  | Err _ => s
  | Ok (TypeSymlink | TypeFile) => (remove_file path s).2
  | Ok TypeDir => (remove_dir_all path s).2
  | Ok TypeOther => s
  end.

(** [Drop] *)
Definition drop_paths (paths : PreparedBundlePaths) (s : S) : S :=
  let s := remove_without_following (scratch_dir paths) s in
  if keep_tarball paths then s else remove_without_following (tarball_path paths) s.

Definition prepare_under (configured_root : string) (max : N) (router filesystem_id : string)
  : Sync S PreparedBundlePaths :=
  let& _ := sync_ret (validate_path_component "router" router) in
  let& stem := sync_ret (filesystem_id_stem filesystem_id) in
  let scratch_name := "srxmcp-" ^^ stem ^^ "-scratch" in
  let& _ := sync_ret (validate_path_component "scratch directory" scratch_name) in
  let& tarball_name := sync_ret (bundle_filename filesystem_id "tgz") in
  let& _ := sync_io ("create staging root " ^^ configured_root) (create_dir_all configured_root) in
  let& root := sync_get (checked_directory configured_root "staging root") in
  let router_candidate := path_join root router in
  let& _ := create_or_check_directory router_candidate "router staging directory" in
  let& dir := sync_get (checked_directory router_candidate "router staging directory") in
  let& _ := sync_ret (ensure_descendant dir root "router staging directory") in
  let scratch_candidate := path_join dir scratch_name in
  let& _ := create_private_directory scratch_candidate "bundle scratch directory" in
  let& scratch := or_else (remove_without_following scratch_candidate)
                    (sync_get (checked_directory scratch_candidate "bundle scratch directory")) in
  let& _ := or_else (remove_without_following scratch)
              (sync_ret (ensure_descendant scratch dir "bundle scratch directory")) in
  let tarball := path_join dir tarball_name in
  let& _ := or_else (remove_without_following scratch)
              (sync_get (fun s =>
                 match symlink_metadata s tarball with
                 | Ok _ => Err (SrxInvalidInput "bundle tarball destination already exists")
                 | Err _ => Ok tt
                 end)) in
  sync_ret (Ok {| staging_root := root; staging_max_bytes := max; router_dir := dir;
                  scratch_dir := scratch; tarball_path := tarball; keep_tarball := false |}).

Definition prepare (config : SupportBundleStagingConfig) (router filesystem_id : string)
  : Sync S PreparedBundlePaths :=
  prepare_under (directory config) (max_bytes config) router filesystem_id.

Definition ensure_confined (paths : PreparedBundlePaths) (s : S) : Result unit SrxError :=
  let? root := checked_directory (staging_root paths) "staging root" s in
  let? router := checked_directory (router_dir paths) "router staging directory" s in
  let? scratch := checked_directory (scratch_dir paths) "bundle scratch directory" s in
  if negb (path_eqb root (staging_root paths)) || negb (path_eqb router (router_dir paths))
     || negb (path_eqb scratch (scratch_dir paths))
  then Err (SrxInvalidInput "staging path changed during bundle collection") else
  let? _ := ensure_descendant router root "router staging directory" in
  let? _ := ensure_descendant scratch router "bundle scratch directory" in
  match path_parent (tarball_path paths) with
  | Some parent =>
      if path_eqb parent router then Ok tt
      else Err (SrxInvalidInput "bundle tarball escapes router staging directory")
  | None => Err (SrxInvalidInput "bundle tarball escapes router staging directory")
  end.

Definition create_tarball (paths : PreparedBundlePaths) : Sync S File :=
  let& _ := sync_get (ensure_confined paths) in
  sync_io "create bundle tarball securely" (create_new_600 (tarball_path paths)).

Definition commit_tarball (paths : PreparedBundlePaths) : PreparedBundlePaths :=
  {| staging_root := staging_root paths; staging_max_bytes := staging_max_bytes paths;
     router_dir := router_dir paths; scratch_dir := scratch_dir paths;
     tarball_path := tarball_path paths; keep_tarball := true |}.

(** A stub. *)
Definition enforce_staging_cap (cap_bytes : N) : Result unit IoError := Ok tt.

End staging.
