(* ===== verification/SupportBundle.v ===== *)
(** * Collecting a support bundle ([workflows/support_bundle])

    A bundle is gathered into a scratch directory of the host: the replies of
    the RPCs and the logs of the chosen kinds of problem, or the whole
    [request support information]; then a manifest is added, the directory is
    archived, and the archive described.  The prepared paths are a local variable
    whose destructor runs however the collection ends, so the steps run in the
    state paired with it ([with_paths]).  One collection per router runs at a
    time: [Locks] holds the permits left of each router's semaphore. *)

From stdpp Require Import gmap sorting.
From S2P Require Import Prelude RustStr Fmt Errors JsonValue SrxErrors Async Proc Transfer Fetch.
From S2P Require Import RustPath SrxDevice Upgrade BundleStaging.
From Stdlib Require Import Ascii.

(** ** What is asked of a device ([problem_type.rs]) *)

#[global] Instance problem_eq_dec : EqDecision ProblemType.
Proof. solve_decision. Defined.

Definition BASELINE_RPCS : list string :=
  ["get-configuration"; "get-software-information"; "get-system-uptime-information";
   "get-system-alarm-information"].
Definition BASELINE_LOGS : list string := ["/var/log/messages"].

Definition additional_rpcs (p : ProblemType) : list string :=
  match p with
  | ProblemChassisCluster =>
      ["get-chassis-cluster-status"; "get-chassis-cluster-information";
       "get-chassis-cluster-interfaces"; "get-chassis-cluster-statistics";
       "get-chassis-cluster-control-plane-statistics";
       "get-chassis-cluster-data-plane-statistics"; "get-system-alarm-information"]
  | ProblemVpn =>
      ["get-ike-security-associations-information"; "get-ipsec-statistics-information";
       "get-security-associations-information"]
  | ProblemTrafficLoss =>
      ["get-flow-session-information"; "get-interface-information"; "get-firewall-information"]
  | ProblemIdpAppid => ["get-idp-security-package-information"; "get-appid-package-version"]
  | ProblemRouting =>
      ["get-route-summary-information"; "get-bgp-summary-information";
       "get-ospf-neighbor-information"; "get-route-engine-information"]
  | ProblemGeneric => []
  end.
Definition additional_rpcs_with_args (p : ProblemType) : list (string * string) :=
  match p with
  | ProblemTrafficLoss => [("get-flow-session-information", "<summary/>")]
  | _ => []
  end.
Definition additional_logs (p : ProblemType) : list string :=
  match p with
  | ProblemChassisCluster => ["/var/log/chassisd"; "/var/log/jsrpd"]
  | ProblemVpn => ["/var/log/kmd"]
  | ProblemIdpAppid => ["/var/log/idpd"; "/var/log/appid"]
  | ProblemRouting => ["/var/log/rpd"]
  | ProblemTrafficLoss | ProblemGeneric => []
  end.

(** [#[serde(rename_all = "snake_case")]] *)
Definition problem_name (p : ProblemType) : string :=
  match p with
  | ProblemChassisCluster => "chassis_cluster"
  | ProblemVpn => "vpn"
  | ProblemTrafficLoss => "traffic_loss"
  | ProblemIdpAppid => "idp_appid"
  | ProblemRouting => "routing"
  | ProblemGeneric => "generic"
  end.

(** A [BTreeSet<ProblemType>], as the list of its elements in the order of the
    declaration. *)
Definition all_problems : list ProblemType :=
  [ProblemChassisCluster; ProblemVpn; ProblemTrafficLoss; ProblemIdpAppid; ProblemRouting;
   ProblemGeneric].
Definition into_set (a : ProblemTypeArg) : list ProblemType :=
  let chosen := match a with OneProblem p => [p] | ManyProblems l => l end in
  List.filter (fun p => bool_decide (p ∈ chosen)) all_problems.

(** [BTreeSet<(String, String)>] and [BTreeSet<&str>] in their order. *)
Definition rpc_le (x y : string * string) : Prop :=
  (x.1 <> y.1 /\ strings.String.le x.1 y.1) \/ (x.1 = y.1 /\ strings.String.le x.2 y.2).
#[global] Instance rpc_le_dec : RelDecision rpc_le.
Proof. intros x y. unfold rpc_le. apply _. Defined.

Definition all_rpcs (problem_types : list ProblemType) : list (string * string) :=
  merge_sort rpc_le (remove_dups
    (map (fun rpc => (rpc, "")) BASELINE_RPCS
     ++ flat_map (fun pt => map (fun rpc => (rpc, "")) (additional_rpcs pt)
                            ++ additional_rpcs_with_args pt) problem_types)).
Definition all_logs (problem_types : list ProblemType) : list string :=
  merge_sort strings.String.le
    (remove_dups (BASELINE_LOGS ++ flat_map additional_logs problem_types)).

(** ** Evidence ([artefacts.rs]) and the response *)

Inductive ArtefactSource :=
  | SourceRpc (name : string) (args : option string)
  | SourceLogFile (device_path : string).
Record CapturedArtefact := {
  source : ArtefactSource;
  tarball_name : string;       (** [tarball_path] *)
  sha256 : string;
  bytes_in_tarball : N;
  redacted : bool;
  error : option string
}.

Inductive BundleLocation := LocationDevice | LxcStaging.
Record BundleInfo := {
  location : BundleLocation; path : string; bytes : N; bundle_sha256 : string;
  problem_types : list ProblemType; artefacts : list CapturedArtefact; any_redacted : bool
}.
Record SupportBundleData := {
  sd_router : string; sd_request_id : string; sd_filesystem_id : string; bundle : BundleInfo;
  next_step : string; elapsed_secs : N
}.

Definition opt_str (o : option string) : Value :=
  match o with Some s => Str s | None => Null end.
Definition source_value (s : ArtefactSource) : Value :=
  match s with
  | SourceRpc name args => Object [("kind", Str "rpc"); ("name", Str name); ("args", opt_str args)]
  | SourceLogFile p => Object [("kind", Str "log_file"); ("device_path", Str p)]
  end.
Definition artefact_value (a : CapturedArtefact) : Value :=
  Object [("source", source_value (source a)); ("tarball_path", Str (tarball_name a));
    ("sha256", Str (sha256 a)); ("bytes_in_tarball", Number (Z.of_N (bytes_in_tarball a)));
    ("redacted", Bool (redacted a)); ("error", opt_str (error a))].
Definition manifest_value (router request_id filesystem_id : string)
    (problems : list ProblemType) (arts : list CapturedArtefact) (any : bool) : Value :=
  Object [("request_id", Str request_id); ("filesystem_id", Str filesystem_id);
    ("router", Str router);
    ("problem_types", Array (map (fun p => Str (problem_name p)) problems));
    ("artefacts", Array (map artefact_value arts)); ("redacted", Bool any);
    ("schema", Str "srxmcp-support-bundle-v0.3.0")].

(** [truncate_to_char_boundary] *)
Definition truncate_to_char_boundary (s : string) (cap : N) : string * bool :=
  if (len s <=? cap)%N then (s, false)
  else (str_take (boundary_down s (N.to_nat cap)) s, true).

Fixpoint keep_bytes (p : ascii -> bool) (s : string) : string :=
  match s with
  | "" => ""
  | String b s => if p b then String b (keep_bytes p s) else keep_bytes p s
  end.

(** ** Other crates *)

(** [mecmcp_redact::junos] *)
Class JunosRedact := {
  RedactError : Type;
  redact_error_display : RedactError -> string;
  redact_xml : string -> Result string RedactError;
  redact_log_artefact : string -> Result string RedactError
}.
(** [exec.cli(command, format)] *)
Class SrxCli {X : External} (S : Type) := {
  rpc_cli : string -> string -> Future S string RustEzError
}.

Definition sha256_hex {Sh : Sha256} (b : string) : string :=
  hex32 (hasher_finalize (hasher_update hasher_new b)).

Section names.
Context {X : External}.

Definition sanitize_rpc_filename (rpc inner : string) : Result string SrxError :=
  let? _ := validate_path_component "RPC name" rpc in
  let filename :=
    if is_empty inner then rpc ^^ ".xml"
    else rpc ^^ "." ^^ keep_bytes (fun c => is_ascii_alphanumeric c || Ascii.eqb c "-") inner
         ^^ ".xml" in
  let? _ := validate_path_component "RPC artifact filename" filename in
  Ok filename.

Definition validate_correlation_id (request_id : string) : Result unit SrxError :=
  if is_empty (trim request_id)
  then Err (SrxInvalidInput "request_id must not be empty or whitespace") else
  let? _ := validate_path_component "request_id" request_id in
  validate_path_component "request_id" (default request_id (strip_prefix "srxmcp-" request_id)).
Definition effective_request_id (caller : option string) (filesystem_id : string)
  : Result string SrxError :=
  match caller with
  | Some raw => let? _ := validate_correlation_id raw in Ok raw
  | None => Ok filesystem_id
  end.
Definition validate_path_inputs (args : SupportBundleArgs) : Result unit SrxError :=
  let? _ := validate_path_component "router" (sb_router args) in
  match sb_request_id args with
  | Some request_id => validate_correlation_id request_id
  | None => Ok tt
  end.

Context {JR : JunosRedact}.

Definition redact_generic_payload (router payload : string) (redact : bool)
  : Result (string * bool) SrxError :=
  if redact then
    match redact_log_artefact payload with
    | Ok red => Ok (red, negb (String.eqb red payload))
    | Err e => Err (BundleConfigCaptureFailed router
        ("request support information: payload could not be confirmed safe to redact: "
         ^^ redact_error_display e))
    end
  else Ok (payload, false).
Definition redact_rpc_reply (raw : string) : option (string * bool) :=
  match redact_xml raw with
  | Ok red => Some (red, negb (String.eqb red raw))
  | Err _ => None
  end.

End names.

(** ** Gathering the evidence *)

Section gather.
Context {X : External} {Sh : Sha256} {JR : JunosRedact}.
Context {S : Type} {SD : SrxDevice S} {SC : SrxCli S} {FS : BundleFs S}.

#[local] Abbreviation Tool := (Proc S).

(** [?] *)
Definition lift {T} (r : Result T SrxError) : Tool T SrxError := proc_ret r.
Definition executor : Tool unit SrxError := proc_get (fun s => map_err transport (rpc_ready s)).

(** [fs::write(&abs_path, payload)] with its context. *)
Definition write_payload (abs_path payload : string) : Sync S unit :=
  sync_io ("write " ^^ abs_path) (write_file abs_path payload).

Definition captured (src : ArtefactSource) (name payload : string) (changed : bool)
    (note : option string) : CapturedArtefact := {|
  source := src; tarball_name := name; sha256 := sha256_hex payload;
  bytes_in_tarball := len payload; redacted := changed; error := note |}.
(** Evidence that is not in the archive. *)
Definition missing (src : ArtefactSource) (name reason : string) : CapturedArtefact := {|
  source := src; tarball_name := name; sha256 := ""; bytes_in_tarball := 0; redacted := false;
  error := Some reason |}.

Definition collect_support_information (router : string) (args : SupportBundleArgs)
    (scratch : string) : Tool (list CapturedArtefact * bool) SrxError :=
  let> _ := executor in
  let secs := N.min (sb_timeout args) 3600 in
  let> payload := bounded (from_secs secs) (ClusterHealthCheckTimeout router secs)
                    (proc_map_err transport
                       (proc_fut (fun _ => rpc_cli "request support information" "text"))) in
  if is_empty (trim payload)
  then lift (Err (BundleConfigCaptureFailed router
                    "`request support information` returned no output")) else
  let> (payload, changed) := lift (redact_generic_payload router payload (sb_redact args)) in
  let fname := "request-support-information.txt" in
  let> _ := in_proc (write_payload (path_join scratch fname) payload) in
  lift (Ok ([captured (SourceRpc "request support information" None) fname payload changed None],
            changed)).

(** What the loops have gathered: the artefacts, whether any was redacted, the
    RPCs that failed and the logs captured. *)
Record Gathered := {
  g_artefacts : list CapturedArtefact; g_redacted : bool; g_failures : list (string * string);
  g_captured : N
}.
Definition nothing_yet : Gathered :=
  {| g_artefacts := []; g_redacted := false; g_failures := []; g_captured := 0 |}.
Definition add_artefact (a : CapturedArtefact) (g : Gathered) : Gathered :=
  {| g_artefacts := g_artefacts g ++ [a]; g_redacted := g_redacted g || redacted a;
     g_failures := g_failures g; g_captured := g_captured g |}.
Definition add_failure (rpc msg : string) (g : Gathered) : Gathered :=
  {| g_artefacts := g_artefacts g; g_redacted := g_redacted g;
     g_failures := g_failures g ++ [(rpc, msg)]; g_captured := g_captured g |}.
Definition count_log (g : Gathered) : Gathered :=
  {| g_artefacts := g_artefacts g; g_redacted := g_redacted g; g_failures := g_failures g;
     g_captured := g_captured g + 1 |}.

Fixpoint for_each {A} (step : A -> Gathered -> Tool Gathered SrxError) (l : list A) (g : Gathered)
  : Tool Gathered SrxError :=
  match l with
  | [] => lift (Ok g)
  | a :: l => let> g := step a g in for_each step l g
  end.

Definition send_rpc (rpc inner : string) : Future S string RustEzError :=
  if is_empty inner then rpc_call rpc []
  else rpc_call_xml ("<" ^^ rpc ^^ ">" ^^ inner ^^ "</" ^^ rpc ^^ ">").

(** A failure is noted; that of the configuration ends the collection. *)
Definition rpc_failed (router rpc msg : string) (g : Gathered) : Tool Gathered SrxError :=
  if String.eqb rpc "get-configuration" then lift (Err (BundleConfigCaptureFailed router msg))
  else lift (Ok (add_failure rpc msg g)).

Definition capture_rpc (router : string) (redact : bool) (rpc_dir : string)
    (call : string * string) (g : Gathered) : Tool Gathered SrxError :=
  let (rpc, inner) := call in
  proc_bind (proc_fut (fun _ => send_rpc rpc inner)) (fun reply =>
    match reply with
    | Err e => rpc_failed router rpc ("rpc " ^^ rpc ^^ ": " ^^ rustez_display e) g
    | Ok raw =>
        match (if redact then redact_rpc_reply raw else Some (raw, false)) with
        | None => rpc_failed router rpc ("rpc " ^^ rpc
            ^^ ": reply was not well-formed XML; artefact refused rather than shipped unredacted") g
        | Some (payload, changed) =>
            let> fname := lift (sanitize_rpc_filename rpc inner) in
            let> _ := in_proc (write_payload (path_join rpc_dir fname) payload) in
            lift (Ok (add_artefact
              (captured (SourceRpc rpc (if is_empty inner then None else Some inner))
                 ("rpc/" ^^ fname) payload changed None) g))
        end
    end).

Definition write_log (abs_path payload : string) : Sync S unit :=
  let& _ := match path_parent abs_path with
            | Some parent => sync_io ("create log dir " ^^ parent) (create_dir_all parent)
            | None => sync_ret (Ok tt)
            end in
  write_payload abs_path payload.

Definition capture_log (args : SupportBundleArgs) (scratch log_path : string) (g : Gathered)
  : Tool Gathered SrxError :=
  let> rel := lift (device_log_tarball_path log_path) in
  let without reason := lift (Ok (add_artefact (missing (SourceLogFile log_path) rel reason) g)) in
  if (sb_max_log_files args <=? g_captured g)%N
  then without ("skipped: max_log_files=" ^^ dec (sb_max_log_files args) ^^ " reached") else
  proc_bind (proc_fut (fun _ => rpc_cli ("file show " ^^ log_path) "text")) (fun reply =>
    match reply with
    | Err e => without ("file show " ^^ log_path ^^ ": " ^^ rustez_display e)
    | Ok raw =>
        if starts_with "error:" (trim_start raw) then without (trim raw) else
        let (content, truncated) := truncate_to_char_boundary raw (sb_max_log_bytes_per_file args) in
        match (if sb_redact args then redact_log_artefact content else Ok content) with
        | Err e => without (log_path ^^ ": could not be confirmed safe to redact, artefact refused rather than shipped unredacted: "
                            ^^ redact_error_display e)
        | Ok payload =>
            let> _ := in_proc (write_log (path_join scratch rel) payload) in
            let note := if truncated then Some ("truncated to max_log_bytes_per_file="
                                                ^^ dec (sb_max_log_bytes_per_file args)) else None in
            lift (Ok (count_log (add_artefact
              (captured (SourceLogFile log_path) rel payload (negb (String.eqb payload content)) note)
              g)))
        end
    end).

Definition collect_evidence (router : string) (args : SupportBundleArgs)
    (problems : list ProblemType) (scratch : string)
  : Tool (list CapturedArtefact * bool) SrxError :=
  let rpc_dir := path_join scratch "rpc" in
  let> _ := in_proc (sync_io "cannot create scratch dir" (create_dir_all rpc_dir)) in
  let rpcs := all_rpcs problems in
  let> _ := executor in
  let> g := for_each (capture_rpc router (sb_redact args) rpc_dir) rpcs nothing_yet in
  let> g := if sb_include_logs args
            then for_each (capture_log args scratch) (all_logs problems) g
            else lift (Ok g) in
  match g_failures g with
  | (_, first) :: _ =>
      if Nat.eqb (length (g_failures g)) (length rpcs)
      then lift (Err (BundleRpcSubsetFailed router (N.of_nat (length (g_failures g)))
                        (N.of_nat (length rpcs)) first))
      else lift (Ok (g_artefacts g, g_redacted g))
  | [] => lift (Ok (g_artefacts g, g_redacted g))
  end.

End gather.

(** ** The archive *)

Section finalize.
Context {X : External} {Sh : Sha256}.
Context {S : Type} {FS : BundleFs S}.
(** [serde_json::to_vec_pretty] of a [Value]. *)
Context (to_vec_pretty : Value -> string).

#[local] Abbreviation Owned := (S * PreparedBundlePaths)%type.

(** Code that leaves the local [paths] alone. *)
Definition on_host {T} (m : Sync S T) : Sync Owned T := fun sp =>
  let (r, s) := m sp.1 in (r, (s, sp.2)).

Definition write_bundle_archive (paths : PreparedBundlePaths) (scratch : string) : Sync S unit :=
  let& tarball_file := create_tarball paths in
  let& archive_root := sync_ret match file_name scratch with
                                | Some name => Ok name
                                | None => Err (SrxInvalidInput "scratch dir has no name")
                                end in
  let& _ := sync_io "build bundle archive"
              (append_dir_all false tarball_file archive_root scratch) in
  let& _ := sync_io "finish bundle archive" (tar_into_inner tarball_file) in
  sync_io "finish bundle compression" (gz_finish tarball_file).

Definition bundle_info (tarball : string) (problems : list ProblemType)
    (arts : list CapturedArtefact) (any : bool) (s : S) : BundleInfo := {|
  location := LxcStaging; path := tarball;
  bytes := match file_len s tarball with Ok n => n | Err _ => 0 end;
  bundle_sha256 := match read_file s tarball with Ok b => sha256_hex b | Err _ => "" end;
  problem_types := problems; artefacts := arts; any_redacted := any |}.

Definition finalize_lxc_bundle (router request_id filesystem_id : string)
    (arts : list CapturedArtefact) (problems : list ProblemType) (any : bool)
  : Sync Owned SupportBundleData := fun sp =>
  let paths := sp.2 in
  let scratch := scratch_dir paths in
  let tarball := tarball_path paths in
  (let& _ := on_host (sync_get (ensure_confined paths)) in
   let manifest := manifest_value router request_id filesystem_id problems arts any in
   let& _ := on_host (sync_io "write manifest"
                        (write_file (path_join scratch "manifest.json") (to_vec_pretty manifest))) in
   let& _ := on_host (write_bundle_archive paths scratch) in
   let _ := enforce_staging_cap (staging_max_bytes paths) in
   let& info := on_host (sync_get (fun s => Ok (bundle_info tarball problems arts any s))) in
   let& _ := sync_state (fun sp => (sp.1, commit_tarball sp.2)) in
   sync_ret (Ok {|
     sd_router := router; sd_request_id := request_id; sd_filesystem_id := filesystem_id;
     bundle := info;
     next_step := "read tarball directly on the LXC host: " ^^ path info
       ^^ " (read by operator with shell access; not fetchable via fetch_file)";
     elapsed_secs := 0 |})) sp.

(** [let mut paths = ..;] and the code that follows, to the end of the scope or
    to the instant it is dropped. *)
Definition with_paths {T} (paths : PreparedBundlePaths) (body : Proc Owned T SrxError)
  : Proc S T SrxError := fun ct now s =>
  let r := body ct now (s, paths) in
  mk_rpc (rpc_time r) (rpc_result r) (drop_paths (rpc_state r).2 (rpc_state r).1)
    (fun k => drop_paths (rpc_dropped r k).2 (rpc_dropped r k).1).

End finalize.

(** ** The workflow *)

(** The permits left of the semaphores made so far. *)
Abbreviation Locks := (gmap string N).

Section run.
Context {X : External} {Sh : Sha256} {JR : JunosRedact}.
Context {S : Type} {SD : SrxDevice S} {SC : SrxCli S} {FS : BundleFs S}.
Context (to_vec_pretty : Value -> string) (staging : SupportBundleStagingConfig).

(** The prepared paths, the evidence gathered in them, the archive. *)
Definition collect (router request_id filesystem_id : string)
    (gather : string -> Proc S (list CapturedArtefact * bool) SrxError)
    (problems : list ProblemType) : Proc S SupportBundleData SrxError :=
  let> paths := in_proc (prepare staging router filesystem_id) in
  with_paths paths
    (let> (arts, any) := proc_at fst (fun s sp => (s, sp.2)) (gather (scratch_dir paths)) in
     in_proc (finalize_lxc_bundle to_vec_pretty router request_id filesystem_id arts problems any)).

Definition collect_generic (router request_id filesystem_id : string) (args : SupportBundleArgs)
  : Proc S SupportBundleData SrxError :=
  collect router request_id filesystem_id (collect_support_information router args)
    [ProblemGeneric].
Definition collect_per_type (router request_id filesystem_id : string) (args : SupportBundleArgs)
    (problems : list ProblemType) : Proc S SupportBundleData SrxError :=
  collect router request_id filesystem_id (collect_evidence router args problems) problems.

(** *** One collection per router *)

Definition lock_key (router : string) : string := router ^^ ":support_bundle".
Definition lock_for (router : string) (locks : Locks) : Locks :=
  match locks !! lock_key router with
  | Some _ => locks
  | None => <[lock_key router := 1%N]> locks
  end.
Definition try_acquire_owned (router : string) (locks : Locks) : option Locks :=
  match locks !! lock_key router with
  | Some n => if (n =? 0)%N then None else Some (<[lock_key router := (n - 1)%N]> locks)
  | None => None
  end.
Definition release (router : string) (locks : Locks) : Locks :=
  alter (fun n => (n + 1)%N) (lock_key router) locks.

Definition acquire (router : string) : Sync (Locks * S) unit := fun ls =>
  let locks := lock_for router ls.1 in
  match try_acquire_owned router locks with
  | Some locks => (Ok tt, (locks, ls.2))
  | None => (Err (BundlePerRouterContention router), (locks, ls.2))
  end.

Definition mint_filesystem_id (new_v4 : string) : string := "srxmcp-" ^^ new_v4.

(** [new_v4] is the random UUID of the call. *)
Definition bundle_run (new_v4 : string) (args : SupportBundleArgs)
  : Proc (Locks * S) (SrxToolResponse SupportBundleData) SrxError :=
  let router := sb_router args in
  if is_empty (trim router)
  then proc_ret (Err (SrxInvalidInput "router must not be empty")) else
  let problems := into_set (sb_problem_type args) in
  match problems with
  | [] => proc_ret (Err (SrxInvalidInput "problem_type must contain at least one value"))
  | _ =>
      let> _ := proc_ret (validate_path_inputs args) in
      let filesystem_id := mint_filesystem_id new_v4 in
      let> request_id := proc_ret (effective_request_id (sb_request_id args) filesystem_id) in
      let> _ := in_proc (acquire router) in
      scoped (fun ls => (release router ls.1, ls.2))
        (let> data := proc_at snd (fun s ls => (ls.1, s))
             (if bool_decide (ProblemGeneric ∈ problems)
              then collect_generic router request_id filesystem_id args
              else collect_per_type router request_id filesystem_id args problems) in
         proc_ret (Ok (active data)))
  end.

End run.
