(* ===== verification/SupportBundleSpec.v ===== *)
(** * What a support bundle promises

    [bundle_run] is run over a host that records the files it is told to write
    ([recorded_fs]).  Whatever the device answers and wherever the collection
    stops, a file written under [redact] holds only what the redactor passed;
    a bundle that is reported describes each of its files; the scratch directory
    never outlives a collection, nor the tarball a failed one; and no two
    collections for a router overlap. *)

From stdpp Require Import gmap sorting.
From S2P Require Import Prelude RustStr Fmt Errors JsonValue SrxErrors Async Proc Transfer.
From S2P Require Import RustPath SrxDevice BundleStaging SupportBundle.
From Stdlib Require Import Ascii.

(** ** Code between awaits, and loops *)

Section rules.
Context {X : External} {S : Type}.

(** The Hoare triple of a [Sync]. *)
Definition sync_holds {T} (P : S -> Prop) (m : Sync S T) (Q : Result T SrxError -> S -> Prop) : Prop :=
  forall s, P s -> Q (m s).1 (m s).2.

Lemma sync_holds_then {T U} P (m : Sync S T) (k : T -> Sync S U) M Q :
  sync_holds P m M -> (forall t, sync_holds (M (Ok t)) (k t) Q) ->
  (forall e s, M (Err e) s -> Q (Err e) s) -> sync_holds P (sync_then m k) Q.
Proof.
  intros Hm Hk He s Hs. specialize (Hm s Hs). unfold sync_then.
  destruct (m s) as [[t|e] s']; cbn in *; [by apply Hk|by apply He].
Qed.

Lemma sync_holds_weaken {T} (P : S -> Prop) (m : Sync S T) (Q Q' : Result T SrxError -> S -> Prop) :
  sync_holds P m Q -> (forall r s, Q r s -> Q' r s) -> sync_holds P m Q'.
Proof. intros H HQ s Hs. apply HQ. by apply H. Qed.

Lemma holds_in_proc {T} P (m : Sync S T) Q (D : S -> Prop) :
  sync_holds P m (fun r s => Q r s /\ D s) -> holds P (in_proc m) Q D.
Proof.
  intros H ct now s Hs. specialize (H s Hs). unfold in_proc, fut_state.
  destruct (m s) as [r s'] eqn:E; cbn in *. by destruct H.
Qed.

Definition sync_keeps {T} (I : S -> Prop) (m : Sync S T) : Prop := sync_holds I m (fun _ => I).

Lemma sync_keeps_then {T U} I (m : Sync S T) (k : T -> Sync S U) :
  sync_keeps I m -> (forall t, sync_keeps I (k t)) -> sync_keeps I (sync_then m k).
Proof. intros Hm Hk. eapply sync_holds_then; eauto. Qed.
Lemma sync_keeps_ret {T} I (r : Result T SrxError) : sync_keeps I (sync_ret (S := S) r).
Proof. by intros s Hs. Qed.
Lemma sync_keeps_get {T} I (f : S -> Result T SrxError) : sync_keeps I (sync_get f).
Proof. by intros s Hs. Qed.
Lemma sync_keeps_io {T} I what (f : S -> Result T IoError * S) :
  (forall s, I s -> I (f s).2) -> sync_keeps I (sync_io what f).
Proof. intros H s Hs. unfold sync_io. specialize (H s Hs). by destruct (f s). Qed.
Lemma sync_keeps_or_else {T} (I : S -> Prop) cleanup (m : Sync S T) :
  (forall s, I s -> I (cleanup s)) -> sync_keeps I m -> sync_keeps I (or_else cleanup m).
Proof.
  intros Hc Hm s Hs. specialize (Hm s Hs). unfold or_else.
  destruct (m s) as [[t|e] s']; cbn in *; auto.
Qed.
Lemma inv_in_proc {T} I (m : Sync S T) : sync_keeps I m -> keeps_inv I (in_proc m).
Proof. intros H. apply holds_in_proc. intros s Hs. split; by apply H. Qed.

Lemma holds_ret_then {T U E} P (r : Result T E) (k : T -> Proc S U E) (Q : Result U E -> S -> Prop)
    (D : S -> Prop) :
  (forall s, P s -> D s) -> (forall t, r = Ok t -> holds P (k t) Q D) ->
  (forall e s, r = Err e -> P s -> Q (Err e) s) -> holds P (proc_then (proc_ret r) k) Q D.
Proof.
  intros HD Hk He. apply (holds_bind _ _ (fun r' s => r' = r /\ P s)).
  - apply holds_ret. auto.
  - intros [t|e] ct now s [Hr Hs]; [by apply (Hk t)|]. by split; [apply (He e)|intros; apply HD].
Qed.
Lemma inv_ret_then {T U E} I (r : Result T E) (k : T -> Proc S U E) :
  (forall t, r = Ok t -> keeps_inv I (k t)) -> keeps_inv I (proc_then (proc_ret r) k).
Proof. intros H. by apply holds_ret_then. Qed.

(** A loop: [Inv done g] after the elements [done], [F] of its errors. *)
Lemma holds_for_each {A} (Inv : list A -> Gathered -> S -> Prop) (F : SrxError -> Prop)
    (step : A -> Gathered -> Proc S Gathered SrxError) (D : S -> Prop) l :
  (forall done a g, a ∈ l -> holds (Inv done g) (step a g)
     (fun r s => match r with Ok g' => Inv (done ++ [a]) g' s | Err e => F e end /\ D s) D) ->
  (forall done g s, Inv done g s -> D s) ->
  forall done g, holds (Inv done g) (for_each step l g)
    (fun r s => match r with Ok g' => Inv (done ++ l) g' s | Err e => F e end /\ D s) D.
Proof.
  intros Hs HD. induction l as [|a l IH]; intros done g; cbn.
  - apply holds_ret. intros s Hi. rewrite app_nil_r. eauto.
  - eapply holds_try; [apply Hs; set_solver| |].
    + intros g'. cbn. eapply holds_weaken; [apply (IH ltac:(set_solver) (done ++ [a]) g')|by intros ? []| |done].
      cbn. intros [g''|e] s [H1 H2]; [|done]. by rewrite <- app_assoc in H1.
    + cbn. by intros e s [].
Qed.

Lemma inv_for_each {A} I (step : A -> Gathered -> Proc S Gathered SrxError) :
  (forall a g, keeps_inv I (step a g)) -> forall l g, keeps_inv I (for_each step l g).
Proof.
  intros H l. induction l as [|a l IH]; intros g; [apply inv_ret|].
  apply inv_then; [apply H|exact IH].
Qed.

End rules.

(** ** Recording the files written *)

(** The paths and contents given to [fs::write], in order. *)
Definition Writes : Type := list (string * string).

Section recorded.
Context {X : External} {S : Type} {SD : SrxDevice S} {SC : SrxCli S} {FS : BundleFs S}.

Definition quietly {T E} (f : Future S T E) : Future (S * Writes) T E :=
  fut_at fst (fun s sw => (s, sw.2)) f.
Definition quietly_io {T} (f : S -> Result T IoError * S) (sw : S * Writes)
  : Result T IoError * (S * Writes) := let (r, s) := f sw.1 in (r, (s, sw.2)).

#[export] Instance recorded_device : SrxDevice (S * Writes) := {|
  rpc_ready sw := rpc_ready sw.1;
  rpc_call name args := quietly (rpc_call name args);
  rpc_call_xml body := quietly (rpc_call_xml body)
|}.
#[export] Instance recorded_cli : SrxCli (S * Writes) := {|
  rpc_cli command format := quietly (rpc_cli command format)
|}.
#[export] Instance recorded_fs : BundleFs (S * Writes) := {|
  io_not_found := io_not_found (S := S);
  symlink_metadata sw := symlink_metadata sw.1;
  canonicalize sw := canonicalize sw.1;
  create_dir_all p := quietly_io (create_dir_all p);
  create_dir_700 p := quietly_io (create_dir_700 p);
  remove_file p := quietly_io (remove_file p);
  remove_dir_all p := quietly_io (remove_dir_all p);
  write_file p c sw := let (r, s) := write_file p c sw.1 in (r, (s, sw.2 ++ [(p, c)]));
  file_len sw := file_len sw.1;
  read_file sw := read_file sw.1;
  File := File (S := S);
  create_new_600 p := quietly_io (create_new_600 p);
  append_dir_all follow f root dir := quietly_io (append_dir_all follow f root dir);
  tar_into_inner f := quietly_io (tar_into_inner f);
  gz_finish f := quietly_io (gz_finish f)
|}.

Lemma quietly_writes {T} (f : S -> Result T IoError * S) sw : (quietly_io f sw).2.2 = sw.2.
Proof. unfold quietly_io. by destruct (f sw.1). Qed.

(** What only looks at the list of writes survives all but a write. *)
Lemma io_quietly {T} (I : Writes -> Prop) what (f : S -> Result T IoError * S) :
  sync_keeps (fun sw => I sw.2) (sync_io what (quietly_io f)).
Proof. apply sync_keeps_io. intros sw H. by rewrite quietly_writes. Qed.
Lemma inv_quietly {T E} (I : Writes -> Prop) (f : Future S T E) :
  keeps_inv (fun sw => I sw.2) (proc_fut (fun _ => quietly f)).
Proof. intros ct now sw H. by split. Qed.
Lemma sync_keeps_write (I : Writes -> Prop) path content :
  (forall ws, I ws -> I (ws ++ [(path, content)])) ->
  sync_keeps (S := S * Writes) (fun sw => I sw.2) (write_payload path content).
Proof.
  intros H. apply sync_keeps_io. intros [s ws] Hs. cbn. destruct (write_file path content s). cbn. by apply H.
Qed.

Lemma removal_quiet path (sw : S * Writes) : (remove_without_following path sw).2 = sw.2.
Proof.
  unfold remove_without_following. destruct (symlink_metadata sw path) as [[]|]; cbn; auto using quietly_writes.
Qed.
Lemma drop_quiet paths (sw : S * Writes) : (drop_paths paths sw).2 = sw.2.
Proof. unfold drop_paths. destruct (keep_tarball paths); by rewrite !removal_quiet. Qed.

Lemma prepare_quiet (I : Writes -> Prop) config router id :
  sync_keeps (S := S * Writes) (fun sw => I sw.2) (prepare config router id).
Proof.
  assert (forall p sw, I sw.2 -> I (remove_without_following p sw).2) as Hr
    by (intros; by rewrite removal_quiet).
  unfold prepare, prepare_under, create_private_directory.
  repeat first [ apply io_quietly | apply sync_keeps_ret | apply sync_keeps_get
               | apply sync_keeps_then; [|intros ?] | apply sync_keeps_or_else; [by apply Hr|] ].
  intros sw H. unfold create_or_check_directory. destruct (symlink_metadata sw _) as [[]|e]; try done.
  destruct (io_not_found e); [exact (io_quietly I _ _ sw H)|done].
Qed.

End recorded.

(** ** The local paths *)

Section owned.
Context {X : External} {S : Type} {FS : BundleFs S}.

Lemma holds_at {A B T E} (get : A -> B) (set : B -> A -> A) (P : B -> Prop) (F : A -> Prop)
    (p : Proc B T E) (Q : Result T E -> B -> Prop) (D : B -> Prop) :
  (forall b a, get (set b a) = b) -> (forall b a, F a -> F (set b a)) -> holds P p Q D ->
  holds (fun a => P (get a) /\ F a) (proc_at get set p) (fun r a => Q r (get a) /\ F a)
    (fun a => D (get a) /\ F a).
Proof.
  intros Hg Hf H ct now a [Ha HF]. destruct (H ct now (get a) Ha) as [H1 H2].
  split; [|intros k]; cbn; rewrite Hg; auto.
Qed.

Lemma holds_with_paths {T} (P : S -> Prop) paths (body : Proc (S * PreparedBundlePaths) T SrxError)
    (Q : Result T SrxError -> S -> Prop) (D : S -> Prop) :
  holds (fun sp => P sp.1 /\ sp.2 = paths) body (fun r sp => Q r (drop_paths sp.2 sp.1))
    (fun sp => D (drop_paths sp.2 sp.1)) -> holds P (with_paths paths body) Q D.
Proof. intros H ct now s Hs. destruct (H ct now (s, paths)) as [H1 H2]; [done|]. by split. Qed.

Lemma on_host_holds {T} (P : S -> Prop) (F : PreparedBundlePaths -> Prop) (m : Sync S T) Q :
  sync_holds P m Q ->
  sync_holds (fun sp => P sp.1 /\ F sp.2) (on_host m) (fun r sp => Q r sp.1 /\ F sp.2).
Proof.
  intros H [s p] [Hs HF]. specialize (H s Hs). unfold on_host. cbn in *. by destruct (m s).
Qed.

End owned.

(** ** What reaches the disk *)

Section shipped.
Context {X : External} {Sh : Sha256} {JR : JunosRedact}.
Context {S : Type} {SD : SrxDevice S} {SC : SrxCli S} {FS : BundleFs S}.
Context (to_vec_pretty : Value -> string) (staging : SupportBundleStagingConfig).

(** An output of the redactor. *)
Definition Released (content : string) : Prop :=
  exists raw, redact_xml raw = Ok content \/ redact_log_artefact raw = Ok content.
Definition IsManifest (w : string * string) : Prop :=
  exists scratch router request_id filesystem_id problems arts any,
    w = (path_join scratch "manifest.json",
         to_vec_pretty (manifest_value router request_id filesystem_id problems arts any)).
Definition Shippable (ws : Writes) : Prop :=
  Forall (fun w => Released w.2 \/ IsManifest w) ws.

#[local] Abbreviation Kept := (fun sw : S * Writes => Shippable sw.2).

Lemma shippable_snoc ws p c : Released c \/ IsManifest (p, c) -> Shippable ws -> Shippable (ws ++ [(p, c)]).
Proof. intros H Hw. apply Forall_app. split; [done|]. by apply Forall_singleton. Qed.

Lemma payload_ships p c : Released c -> keeps_inv Kept (in_proc (write_payload p c)).
Proof. intros H. apply inv_in_proc, sync_keeps_write. intros ws. apply shippable_snoc. by left. Qed.

Lemma log_ships p c : Released c -> keeps_inv Kept (in_proc (write_log p c)).
Proof.
  intros H. apply inv_in_proc, sync_keeps_then.
  - destruct (path_parent p); [apply io_quietly|apply sync_keeps_ret].
  - intros []. apply sync_keeps_write. intros ws. apply shippable_snoc. by left.
Qed.

Lemma support_information_ships router args scratch :
  sb_redact args = true -> keeps_inv Kept (collect_support_information router args scratch).
Proof.
  intros Hr. unfold collect_support_information, executor, lift.
  apply inv_then; [apply inv_get|]. intros [].
  apply inv_then; [apply inv_bounded, inv_map_err, inv_quietly|]. intros payload.
  destruct (is_empty (trim payload)); [apply inv_ret|].
  apply inv_ret_then. intros [red changed]. rewrite Hr. unfold redact_generic_payload.
  destruct (redact_log_artefact payload) as [out|] eqn:E; [|done]. intros [= <- <-].
  apply inv_then; [apply payload_ships; exists payload; by right|]. intros []. apply inv_ret.
Qed.

Lemma rpc_ships router rpc_dir call g : keeps_inv Kept (capture_rpc router true rpc_dir call g).
Proof.
  destruct call as [rpc inner]. unfold capture_rpc, rpc_failed, lift.
  apply inv_bind; [unfold send_rpc; destruct (is_empty inner); apply inv_quietly|].
  intros [raw|e]; [|destruct (String.eqb rpc _); apply inv_ret].
  unfold redact_rpc_reply. destruct (redact_xml raw) as [red|] eqn:E;
    [|destruct (String.eqb rpc _); apply inv_ret].
  apply inv_then; [apply inv_ret|]. intros fname.
  apply inv_then; [apply payload_ships; exists raw; by left|]. intros []. apply inv_ret.
Qed.

Lemma capture_log_ships args scratch p g :
  sb_redact args = true -> keeps_inv Kept (capture_log args scratch p g).
Proof.
  intros Hr. unfold capture_log, lift. rewrite Hr. apply inv_then; [apply inv_ret|]. intros rel.
  destruct (_ <=? _)%N; [apply inv_ret|].
  apply inv_bind; [apply inv_quietly|]. intros [raw|e]; [|apply inv_ret].
  destruct (starts_with _ _); [apply inv_ret|].
  destruct (truncate_to_char_boundary _ _) as [content truncated].
  destruct (redact_log_artefact content) as [red|] eqn:E; [|apply inv_ret].
  apply inv_then; [apply log_ships; exists content; by right|]. intros []. apply inv_ret.
Qed.

Lemma evidence_ships router args problems scratch :
  sb_redact args = true -> keeps_inv Kept (collect_evidence router args problems scratch).
Proof.
  intros Hr. unfold collect_evidence, executor.
  apply inv_then; [apply inv_in_proc, io_quietly|]. intros [].
  apply inv_then; [apply inv_get|]. intros [].
  apply inv_then; [apply inv_for_each; intros; rewrite Hr; apply rpc_ships|]. intros g.
  apply inv_then.
  - destruct (sb_include_logs args); [|apply inv_ret].
    apply inv_for_each. intros. by apply capture_log_ships.
  - intros g'. destruct (g_failures g') as [|[]]; [apply inv_ret|]. case_match; apply inv_ret.
Qed.

Lemma archive_quiet (I : Writes -> Prop) paths scratch :
  sync_keeps (S := S * Writes) (fun sw => I sw.2) (write_bundle_archive paths scratch).
Proof.
  unfold write_bundle_archive, create_tarball.
  repeat first [ apply io_quietly | apply sync_keeps_ret | apply sync_keeps_get
               | apply sync_keeps_then; [|intros ?] ].
Qed.

(** A bundle is complete once its manifest follows the files gathered. *)
Lemma finalize_writes paths router rid fid arts problems any ws :
  sync_holds (S := S * Writes * PreparedBundlePaths) (fun sp => sp.1.2 = ws /\ sp.2 = paths)
    (finalize_lxc_bundle to_vec_pretty router rid fid arts problems any)
    (fun r sp =>
       let manifest := (path_join (scratch_dir paths) "manifest.json",
                        to_vec_pretty (manifest_value router rid fid problems arts any)) in
       (sp.1.2 = ws \/ sp.1.2 = ws ++ [manifest]) /\
       match r with
       | Ok d => sp.1.2 = ws ++ [manifest] /\ sd_router d = router /\ sd_request_id d = rid /\
                 sd_filesystem_id d = fid /\ artefacts (bundle d) = arts /\
                 problem_types (bundle d) = problems /\ any_redacted (bundle d) = any
       | Err _ => True
       end).
Proof.
  set (manifest := (_, _)). intros [[s0 w0] p0] [Hw Hp]. cbn in Hw, Hp. subst w0 p0.
  unfold finalize_lxc_bundle. cbn [fst snd].
  eapply (sync_holds_then (fun sp => sp.1.2 = ws /\ sp.2 = paths) _ _ (fun _ sp => sp.1.2 = ws /\ sp.2 = paths));
    [apply (on_host_holds (fun sw : S * Writes => sw.2 = ws) (fun p => p = paths) _ (fun _ sw => sw.2 = ws)); by intros ?| |by intros e s [H _]; auto|done].
  intros [].
  eapply (sync_holds_then _ _ _ (fun _ sp => sp.1.2 = ws ++ [manifest] /\ sp.2 = paths)).
  { apply (on_host_holds (fun sw : S * Writes => sw.2 = ws) (fun p => p = paths) _
             (fun _ sw => sw.2 = ws ++ [manifest])).
    intros [s w] Hw. cbn in Hw. subst w. unfold sync_io, manifest. cbn [write_file recorded_fs fst snd].
    by destruct (BundleStaging.write_file (path_join _ _) (to_vec_pretty _) s). }
  2: { intros e s [H _]. auto. }
  intros [].
  eapply (sync_holds_then _ _ _ (fun _ sp => sp.1.2 = ws ++ [manifest] /\ sp.2 = paths)).
  { apply (on_host_holds (fun sw : S * Writes => sw.2 = ws ++ [manifest]) (fun p => p = paths) _
             (fun _ sw => sw.2 = ws ++ [manifest])).
    by apply (archive_quiet (fun w => w = ws ++ [manifest])). }
  2: { intros e s [H _]. auto. }
  intros [] [[s w] p] [Hw Hp]. cbn in Hw, Hp. subst w p. by split; [right|].
Qed.

Definition gathers (gather : string -> Proc (S * Writes) (list CapturedArtefact * bool) SrxError) :=
  forall scratch, keeps_inv Kept (gather scratch).

Lemma collect_ships router rid fid gather problems :
  gathers gather -> keeps_inv Kept (collect to_vec_pretty staging router rid fid gather problems).
Proof.
  intros Hg. unfold collect. apply inv_then; [apply inv_in_proc, prepare_quiet|]. intros paths.
  apply holds_with_paths.
  eapply (holds_try _ _ _ (fun _ sp => Kept sp.1 /\ sp.2 = paths)).
  - eapply holds_weaken.
    + by apply (holds_at fst (fun s sp => (s, sp.2)) Kept (fun sp => sp.2 = paths)); [| |apply Hg].
    + done.
    + done.
    + cbn. intros sp [H _]. by rewrite drop_quiet.
  - intros [arts any]. apply holds_in_proc. intros [[s w] p] [Hw Hp]. cbn in Hw, Hp. subst p.
    destruct (finalize_writes paths router rid fid arts problems any w ((s, w), paths)) as [H _]; [done|].
    destruct (finalize_lxc_bundle _ _ _ _ _ _ _ _) as [r sp]. cbn in *. rewrite !drop_quiet.
    assert (Shippable sp.1.2); [|done]. destruct H as [-> | ->]; [done|].
    apply shippable_snoc; [|done]. right. by repeat eexists.
  - cbn. intros e sp [H _]. by rewrite drop_quiet.
Qed.


End shipped.

(** ** Names within the archive *)

Section names.
Context {X : External}.

Definition rpc_name (call : string * string) : string :=
  match sanitize_rpc_filename call.1 call.2 with Ok f => "rpc/" ^^ f | Err _ => "" end.
Definition log_name (p : string) : string :=
  match device_log_tarball_path p with Ok r => r | Err _ => "" end.
Definition item_name (i : (string * string) + string) : string :=
  match i with inl call => rpc_name call | inr p => log_name p end.
Definition items (problems : list ProblemType) : list ((string * string) + string) :=
  map inl (all_rpcs problems) ++ map inr (all_logs problems).

Lemma elem_of_all_rpcs problems call :
  call ∈ all_rpcs problems <->
  (exists rpc, rpc ∈ BASELINE_RPCS /\ call = (rpc, "")) \/
  exists p, p ∈ problems /\
    ((exists rpc, rpc ∈ additional_rpcs p /\ call = (rpc, "")) \/ call ∈ additional_rpcs_with_args p).
Proof.
  unfold all_rpcs. rewrite merge_sort_Permutation, elem_of_remove_dups, elem_of_app.
  rewrite !list_elem_of_In, in_map_iff, in_flat_map.
  setoid_rewrite in_app_iff. setoid_rewrite in_map_iff. setoid_rewrite list_elem_of_In.
  split.
  - intros [(rpc & <- & H)|(p & Hp & [(rpc & <- & H)|H])]; [by left; eauto|right..]; exists p; eauto.
  - intros [(rpc & H & ->)|(p & Hp & [(rpc & H & ->)|H])]; [by left; eauto|right..]; exists p; eauto.
Qed.

Lemma all_rpcs_mono problems call : call ∈ all_rpcs problems -> call ∈ all_rpcs all_problems.
Proof.
  rewrite !elem_of_all_rpcs. intros [H|(p & _ & H)]; [by left|]. right. exists p. split; [|done].
  destruct p; unfold all_problems; rewrite !elem_of_cons; tauto.
Qed.

Lemma all_logs_mono problems p : p ∈ all_logs problems -> p ∈ all_logs all_problems.
Proof.
  unfold all_logs. rewrite !merge_sort_Permutation, !elem_of_remove_dups, !elem_of_app.
  rewrite !list_elem_of_In, !in_flat_map. intros [H|(q & _ & H)]; [by left|]. right. exists q.
  split; [|done]. destruct q; cbn; tauto.
Qed.

Lemma config_is_asked problems : ("get-configuration", "") ∈ all_rpcs problems.
Proof. apply elem_of_all_rpcs. left. exists "get-configuration". split; [|done]. apply list_elem_of_here. Qed.

Lemma inj_of_NoDup {A} (f : A -> string) (L : list A) x y :
  NoDup (map f L) -> x ∈ L -> y ∈ L -> f x = f y -> x = y.
Proof.
  intros HL [i Hi]%list_elem_of_lookup [j Hj]%list_elem_of_lookup Hf.
  assert (i = j) as ->; [|by rewrite Hi in Hj; injection Hj].
  eapply (NoDup_lookup (f <$> L)); [done| |]; rewrite list_lookup_fmap; [rewrite Hi|rewrite Hj]; cbn; by f_equal.
Qed.

(** Distinct items never share a file, and none is the manifest. *)
Lemma names_distinct problems : NoDup (map item_name (items problems) ++ ["manifest.json"]).
Proof.
  assert (NoDup (items problems)) as Hi.
  { apply list.NoDup_app. split_and!.
    - apply NoDup_fmap; [congruence|]. unfold all_rpcs. rewrite merge_sort_Permutation. apply NoDup_remove_dups.
    - intros x H1 H2. apply list_elem_of_fmap in H1 as (? & -> & _), H2 as (? & ? & _). done.
    - apply NoDup_fmap; [congruence|]. unfold all_logs. rewrite merge_sort_Permutation. apply NoDup_remove_dups. }
  assert (forall x, x ∈ items problems -> x ∈ items all_problems) as Hm.
  { unfold items. intros x. rewrite !elem_of_app, !list_elem_of_fmap.
    intros [(y & -> & H)|(y & -> & H)]; [left|right]; exists y; eauto using all_rpcs_mono, all_logs_mono. }
  apply list.NoDup_app. split_and!.
  - apply NoDup_fmap_2_strong; [|done]. intros x y Hx Hy.
    apply (inj_of_NoDup _ (items all_problems)); [|by apply Hm..].
    apply (bool_decide_eq_true_1 _); by vm_compute.
  - intros n (x & -> & Hx%Hm)%list_elem_of_fmap. rewrite list_elem_of_singleton.
    assert (Forall (fun y => item_name y <> "manifest.json") (items all_problems)) as Hf
      by (apply (bool_decide_eq_true_1 _); by vm_compute).
    by apply (proj1 (list.Forall_forall _ _) Hf).
  - apply NoDup_singleton.
Qed.

(** They are all relative. *)
Lemma names_relative problems n :
  n ∈ map item_name (items problems) ++ ["manifest.json"] -> is_absolute n = false.
Proof.
  rewrite elem_of_app, list_elem_of_singleton. intros [(x & -> & Hx)%list_elem_of_fmap | ->]; [|done].
  assert (x ∈ items all_problems) as Hx'.
  { unfold items in *. rewrite !elem_of_app, !list_elem_of_fmap in *.
    destruct Hx as [(y & -> & H)|(y & -> & H)]; [left|right]; exists y; eauto using all_rpcs_mono, all_logs_mono. }
  assert (Forall (fun y => is_absolute (item_name y) = false) (items all_problems)) as Hf
    by (apply (bool_decide_eq_true_1 _); by vm_compute).
  by apply (proj1 (list.Forall_forall _ _) Hf).
Qed.

Lemma join_relative base n m :
  is_absolute n = false -> is_absolute m = false -> path_join base n = path_join base m -> n = m.
Proof.
  unfold path_join. intros -> ->. destruct (is_empty base || ends_with "/" base); intros H.
  - by apply (inj (String.append base)).
  - by apply (inj (String.append base)), (inj (String.append "/")) in H.
Qed.

Lemma join_rpc base n :
  is_absolute n = false -> path_join (path_join base "rpc") n = path_join base ("rpc/" ^^ n).
Proof.
  unfold path_join. intros ->. change (is_absolute "rpc") with false. change (is_absolute ("rpc/" ^^ n)) with false.
  cbv beta iota. assert (forall u, ends_with "/" (u ^^ "rpc") = false /\ is_empty (u ^^ "rpc") = false) as Hr.
  { intros u. split; [|by destruct u]. unfold ends_with. rewrite str_rev_app_str. by destruct (str_rev u). }
  destruct (is_empty base || ends_with "/" base).
  - destruct (Hr base) as [H1 H2]. rewrite H1, H2. cbn. by rewrite app_str_assoc.
  - destruct (Hr (base ^^ "/")) as [H1 H2]. rewrite app_str_assoc in H1, H2. cbn in *.
    rewrite H1, H2. cbn. by rewrite !app_str_assoc.
Qed.

End names.

(** ** A bundle describes its files *)

Section accounts.
Context {X : External} {Sh : Sha256} {JR : JunosRedact}.
Context {S : Type} {SD : SrxDevice S} {SC : SrxCli S} {FS : BundleFs S}.
Context (to_vec_pretty : Value -> string) (staging : SupportBundleStagingConfig).

(** The files [ws] are those the artefacts say are in the archive, in order,
    with the digest and the length given there. *)
Inductive Accounts (scratch : string) : list CapturedArtefact -> Writes -> Prop :=
  | Accounts_nil : Accounts scratch [] []
  | Accounts_file arts ws src name payload changed note :
      Accounts scratch arts ws ->
      Accounts scratch (arts ++ [captured src name payload changed note])
        (ws ++ [(path_join scratch name, payload)])
  | Accounts_missing arts ws src name reason :
      Accounts scratch arts ws -> Accounts scratch (arts ++ [missing src name reason]) ws.

Lemma accounts_paths scratch arts ws :
  Accounts scratch arts ws ->
  map fst ws `sublist_of` map (fun a => path_join scratch (tarball_name a)) arts.
Proof.
  induction 1; cbn; [done| |]; rewrite !map_app; cbn.
  - by apply sublist_app.
  - by apply sublist_inserts_r.
Qed.

Definition has_config (arts : list CapturedArtefact) : Prop :=
  exists a args, a ∈ arts /\ source a = SourceRpc "get-configuration" args.

(** After the items named [done]: their files are written, each under its name. *)
Record Progress (scratch : string) (w0 : Writes) (before done : list string)
    (g : Gathered) (sw : S * Writes) : Prop := {
  pr_files : exists ws, sw.2 = w0 ++ ws /\ Accounts scratch (g_artefacts g) ws;
  pr_names : map tarball_name (g_artefacts g) `sublist_of` before ++ done
}.

Lemma progress_skip scratch w0 before done n g g' sw :
  g_artefacts g' = g_artefacts g -> Progress scratch w0 before done g sw ->
  Progress scratch w0 before (done ++ [n]) g' sw.
Proof.
  intros Hg [Hf Hn]. split; rewrite Hg; [done|]. rewrite app_assoc. by apply sublist_inserts_r.
Qed.

Lemma progress_missing scratch w0 before done g src n reason sw :
  Progress scratch w0 before done g sw ->
  Progress scratch w0 before (done ++ [n]) (add_artefact (missing src n reason) g) sw.
Proof.
  intros [(ws & Hw & Ha) Hn]. split; cbn.
  - exists ws. split; [done|]. by constructor.
  - rewrite map_app, app_assoc. by apply sublist_app.
Qed.

Lemma progress_file scratch w0 before done g src n payload changed note s w :
  Progress scratch w0 before done g (s, w) ->
  forall s', Progress scratch w0 before (done ++ [n])
    (add_artefact (captured src n payload changed note) g) (s', w ++ [(path_join scratch n, payload)]).
Proof.
  intros [(ws & Hw & Ha) Hn] s'. cbn in Hw. subst w. split; cbn.
  - exists (ws ++ [(path_join scratch n, payload)]). by rewrite app_assoc; split; [|constructor].
  - rewrite map_app, app_assoc. by apply sublist_app.
Qed.

Lemma progress_quiet {T E} scratch w0 before done g (f : Future S T E) :
  keeps_inv (Progress scratch w0 before done g) (proc_fut (fun _ => quietly f)).
Proof. intros ct now [s w] [Hf Hn]. split; [|intros k]; by split. Qed.

(** The error a collection never ends with. *)
Definition usual (e : SrxError) : Prop :=
  match e with BundleRpcSubsetFailed _ _ _ _ => False | _ => True end.
Definition writes_only (p c : string) (m : Sync (S * Writes) unit) : Prop := forall sw,
  match (m sw).1 with Ok _ => (m sw).2.2 = sw.2 ++ [(p, c)] | Err e => usual e end.

Lemma payload_progress m scratch w0 before done g src n payload changed note :
  writes_only (path_join scratch n) payload m ->
  holds (Progress scratch w0 before done g) (in_proc m)
    (fun r sw => match r with
                 | Ok _ => Progress scratch w0 before (done ++ [n])
                             (add_artefact (captured src n payload changed note) g) sw
                 | Err e => usual e
                 end) (fun _ => True).
Proof.
  intros Hm. apply holds_in_proc. intros [s w] Hp. split; [|done].
  specialize (Hm (s, w)). destruct (m (s, w)) as [[[]|e] [s' w']]; cbn in *; [|done].
  subst w'. by apply progress_file with (s := s).
Qed.

Lemma write_payload_only p c : writes_only p c (write_payload p c).
Proof.
  intros [s w]. unfold write_payload, sync_io. cbn. by destruct (BundleStaging.write_file p c s) as [[]].
Qed.
Lemma write_log_only p c : writes_only p c (write_log p c).
Proof.
  intros sw. unfold write_log, sync_then. destruct (path_parent p) as [parent|]; [|apply write_payload_only].
  unfold sync_io. pose proof (quietly_writes (BundleStaging.create_dir_all parent) sw) as Hq.
  change (create_dir_all parent sw) with (quietly_io (BundleStaging.create_dir_all parent) sw).
  destruct (quietly_io _ sw) as [[[]|e] sw']; cbn in *; [|done].
  pose proof (write_payload_only p c sw') as Hw. by rewrite <- Hq.
Qed.

Lemma valid_component_relative kind v u :
  validate_path_component kind v = Ok u -> is_absolute v = false.
Proof.
  unfold validate_path_component. destruct (_ || negb _) eqn:Hc; [done|]. intros _.
  apply orb_false_iff in Hc as [_ Hc%negb_false_iff].
  unfold is_absolute, starts_with. destruct v as [|c v]; [done|]. cbn in *.
  apply andb_true_iff in Hc as [Hc _]. case_match; [|done]. by subst c.
Qed.
Lemma component_error kind v e : validate_path_component kind v = Err e -> usual e.
Proof. unfold validate_path_component. destruct (_ || negb _); [by intros [= <-]|done]. Qed.
Lemma sanitize_error rpc inner e : sanitize_rpc_filename rpc inner = Err e -> usual e.
Proof.
  unfold sanitize_rpc_filename. destruct (validate_path_component "RPC name" rpc) eqn:E1.
  - set (n := if is_empty inner then _ else _).
    destruct (validate_path_component _ n) eqn:E2; [done|]. intros [= <-]. by eapply component_error.
  - intros [= <-]. by eapply component_error.
Qed.
Lemma log_path_error p e : device_log_tarball_path p = Err e -> usual e.
Proof.
  unfold device_log_tarball_path. destruct (strip_path_prefix p _) as [l|]; [|by intros [= <-]].
  assert (forall l r n e, log_components r n l = Err e -> usual e) as H.
  { clear. induction l as [|[] l IH]; intros r n e; cbn; try done; try (by intros [= <-]).
    destruct (validate_path_component _ name) eqn:E; [apply IH|]. intros [= <-].
    by eapply component_error. }
  destruct (log_components _ _ l) as [[r n]|e'] eqn:E; [|by intros [= <-]; apply H in E].
  destruct (Nat.eqb n 0); [by intros [= <-]|done].
Qed.
Lemma sanitized_relative rpc inner f :
  sanitize_rpc_filename rpc inner = Ok f -> is_absolute f = false.
Proof.
  unfold sanitize_rpc_filename. destruct (validate_path_component "RPC name" rpc); [|done].
  set (n := if is_empty inner then _ else _).
  destruct (validate_path_component _ n) eqn:Hn; [|done]. intros [= <-].
  by eapply valid_component_relative.
Qed.

(** *** The RPCs *)

(** A failure is never the configuration's. *)
Record RpcProgress (scratch : string) (w0 : Writes) (done : list (string * string))
    (g : Gathered) (sw : S * Writes) : Prop := {
  rp_progress : Progress scratch w0 [] (map rpc_name done) g sw;
  rp_config : "get-configuration" ∈ map fst done ->
              has_config (g_artefacts g) /\ length (g_failures g) < length done;
  rp_failures : length (g_failures g) <= length done
}.

Lemma rpc_failed_progress scratch w0 done router rpc inner msg g :
  holds (RpcProgress scratch w0 done g) (rpc_failed router rpc msg g)
    (fun r sw => match r with
                 | Ok g' => RpcProgress scratch w0 (done ++ [(rpc, inner)]) g' sw
                 | Err e => usual e
                 end /\ True) (fun _ => True).
Proof.
  unfold rpc_failed. destruct (String.eqb_spec rpc "get-configuration"); apply holds_ret; [done|].
  intros sw [Hp Hc Hf]. split_and!; [|done|done]. split; cbn.
  - rewrite map_app. by apply progress_skip with (g := g).
  - rewrite map_app, elem_of_app, !length_app. cbn [map fst]. rewrite list_elem_of_singleton. cbn.
    intros [[H1 H2]%Hc|]; [split; [done|lia]|done].
  - rewrite !length_app. cbn. lia.
Qed.

Lemma rpc_captured_progress scratch w0 done rpc inner g src payload changed note sw :
  src = SourceRpc rpc (if is_empty inner then None else Some inner) ->
  RpcProgress scratch w0 done g sw ->
  forall sw', Progress scratch w0 [] (map rpc_name done ++ [rpc_name (rpc, inner)])
    (add_artefact (captured src (rpc_name (rpc, inner)) payload changed note) g) sw' ->
  RpcProgress scratch w0 (done ++ [(rpc, inner)])
    (add_artefact (captured src (rpc_name (rpc, inner)) payload changed note) g) sw'.
Proof.
  intros -> [Hp Hc Hf] sw' Hp'. split; [by rewrite map_app| |cbn; rewrite !length_app; cbn; lia].
  rewrite map_app, elem_of_app, length_app. cbn [map fst]. rewrite list_elem_of_singleton. cbn.
  unfold has_config.
  setoid_rewrite elem_of_app. setoid_rewrite list_elem_of_singleton.
  intros [[(a & args & H1 & H2) H3]%Hc| <-]; (split; [|lia]); [by eauto 6|].
  eexists _, _. split; [by right|done].
Qed.

Lemma rpc_progress scratch w0 done router redact call g :
  holds (RpcProgress scratch w0 done g) (capture_rpc router redact (path_join scratch "rpc") call g)
    (fun r sw => match r with
                 | Ok g' => RpcProgress scratch w0 (done ++ [call]) g' sw
                 | Err e => usual e
                 end /\ True) (fun _ => True).
Proof.
  destruct call as [rpc inner]. unfold capture_rpc.
  eapply (holds_bind _ _ (fun _ => RpcProgress scratch w0 done g)).
  { intros ct now [s w] [[Hf Hn] Hc Hl]. split; [|done].
    unfold send_rpc. destruct (is_empty inner); by split. }
  intros [raw|e]; [|apply rpc_failed_progress].
  destruct (if redact then _ else _) as [[payload changed]|]; [|apply rpc_failed_progress].
  apply holds_ret_then; [done| |].
  2: { intros e s He _. split; [|done]. by eapply sanitize_error. }
  intros fname Hf.
  assert (path_join (path_join scratch "rpc") fname = path_join scratch (rpc_name (rpc, inner))) as ->.
  { unfold rpc_name. cbn [fst snd]. rewrite Hf. by eapply join_rpc, sanitized_relative. }
  assert ("rpc/" ^^ fname = rpc_name (rpc, inner)) as -> by (unfold rpc_name; cbn [fst snd]; by rewrite Hf).
  set (src := SourceRpc rpc _). set (w := write_payload _ _).
  apply (holds_try _ _ _ (fun r sw => match r with
    | Ok _ => RpcProgress scratch w0 (done ++ [(rpc, inner)])
                (add_artefact (captured src (rpc_name (rpc, inner)) payload changed None) g) sw
    | Err e => usual e end)).
  - intros ct now s Hs. pose proof Hs as [Hp _ _].
    destruct (payload_progress w scratch w0 [] (map rpc_name done) g src (rpc_name (rpc, inner))
                payload changed None (write_payload_only _ _) ct now s Hp) as [H1 H2].
    split; [|done]. destruct (rpc_result _); [|done]. by apply (rpc_captured_progress _ _ _ _ _ _ _ _ _ _ s).
  - intros []. by apply holds_ret.
  - done.
Qed.

(** *** The logs *)

Definition LogProgress (scratch : string) (w0 : Writes) (before : list string)
    (failures : list (string * string)) (done : list string) (g : Gathered) (sw : S * Writes) : Prop :=
  Progress scratch w0 before (map log_name done) g sw /\ has_config (g_artefacts g) /\
  g_failures g = failures.

Lemma config_stays arts a : has_config arts -> has_config (arts ++ [a]).
Proof. intros (b & args & H1 & H2). exists b, args. split; [apply elem_of_app; by left|done]. Qed.

Lemma log_progress scratch w0 before failures done args p g :
  holds (LogProgress scratch w0 before failures done g) (capture_log args scratch p g)
    (fun r sw => match r with
                 | Ok g' => LogProgress scratch w0 before failures (done ++ [p]) g' sw
                 | Err e => usual e
                 end /\ True) (fun _ => True).
Proof.
  unfold capture_log. apply holds_ret_then; [done| |].
  2: { intros e s He _. split; [|done]. revert He. apply log_path_error. }
  intros rel Hrel. assert (rel = log_name p) as -> by (unfold log_name; by rewrite Hrel).
  assert (forall reason, holds (LogProgress scratch w0 before failures done g)
    (lift (Ok (add_artefact (missing (SourceLogFile p) (log_name p) reason) g)))
    (fun r sw => match r with
                 | Ok g' => LogProgress scratch w0 before failures (done ++ [p]) g' sw
                 | Err e => usual e
                 end /\ True) (fun _ => True)) as Hmissing.
  { intros reason. apply holds_ret. intros sw (H1 & H2 & H3). split_and!; [|done|done].
    split_and!; [|by apply config_stays|done]. rewrite map_app. by apply progress_missing. }
  destruct (_ <=? _)%N; [apply Hmissing|].
  eapply (holds_bind _ _ (fun _ => LogProgress scratch w0 before failures done g)).
  { intros ct now [s w] ([Hf Hn] & Hc & Hl). split; [|done]. by split; [split|]. }
  intros [raw|e]; [|apply Hmissing]. destruct (starts_with _ _); [apply Hmissing|].
  destruct (truncate_to_char_boundary _ _) as [content truncated].
  destruct (if sb_redact args then _ else _) as [payload|e]; [|apply Hmissing].
  set (w := write_log _ _). set (note := if truncated then _ else _).
  set (changed := negb _).
  apply (holds_try _ _ _ (fun r sw => match r with
    | Ok _ => LogProgress scratch w0 before failures (done ++ [p])
                (count_log (add_artefact (captured (SourceLogFile p) (log_name p) payload changed note) g)) sw
    | Err e => usual e end)).
  - intros ct now s (Hp & Hc & Hf).
    destruct (payload_progress w scratch w0 before (map log_name done) g (SourceLogFile p) (log_name p)
                payload changed note (write_log_only _ _) ct now s Hp) as [H1 _].
    split; [|done]. destruct (rpc_result _); [|done].
    split_and!; [|by apply config_stays|done]. rewrite map_app. destruct H1. by split.
  - intros []. by apply holds_ret.
  - done.
Qed.

End accounts.

(** ** The evidence, whole *)

Section described.
Context {X : External} {Sh : Sha256} {JR : JunosRedact}.
Context {S : Type} {SD : SrxDevice S} {SC : SrxCli S} {FS : BundleFs S}.
Context (to_vec_pretty : Value -> string) (staging : SupportBundleStagingConfig).

(** The files written since [w0] are the artefacts', no two in one place and
    none where the manifest goes. *)
Definition Described (scratch : string) (w0 : Writes) (arts : list CapturedArtefact)
    (w : Writes) : Prop :=
  exists ws, w = w0 ++ ws /\ Accounts scratch arts ws /\
             NoDup (map fst ws ++ [path_join scratch "manifest.json"]).

Lemma progress_described problems scratch w0 before done g (sw : S * Writes) :
  Progress scratch w0 before done g sw ->
  before ++ done `sublist_of` map item_name (items problems) ->
  Described scratch w0 (g_artefacts g) sw.2.
Proof.
  intros [(ws & Hw & Ha) Hn] Hs. exists ws. split_and!; [done|done|].
  apply (sublist_NoDup _ (map (path_join scratch) (map item_name (items problems) ++ ["manifest.json"]))).
  2: { rewrite map_app. apply sublist_app; [|done].
    etrans; [by apply accounts_paths|]. rewrite <- (map_map tarball_name (path_join scratch)).
    apply (fmap_sublist (path_join scratch)). by etrans. }
  - apply NoDup_fmap_2_strong; [|apply names_distinct].
    intros x y Hx%names_relative Hy%names_relative. by apply join_relative.
Qed.

Lemma after_rpcs problems scratch w0 g (sw : S * Writes) :
  RpcProgress scratch w0 (all_rpcs problems) g sw ->
  Progress scratch w0 (map rpc_name (all_rpcs problems)) [] g sw /\ has_config (g_artefacts g) /\
  length (g_failures g) < length (all_rpcs problems).
Proof.
  intros [[Hf Hn] Hc _]. destruct Hc as [H1 H2]; [|split_and!; [split|..]; by rewrite ?app_nil_r].
  apply list_elem_of_fmap. exists ("get-configuration", ""). split; [done|apply config_is_asked].
Qed.

Lemma logs_described args problems scratch w0 g :
  let rpcs := all_rpcs problems in
  holds (RpcProgress (S := S) scratch w0 rpcs g)
    (if sb_include_logs args then for_each (capture_log args scratch) (all_logs problems) g
     else lift (Ok g))
    (fun r sw => match r with
                 | Ok g' => Described scratch w0 (g_artefacts g') sw.2 /\ has_config (g_artefacts g') /\
                            length (g_failures g') < length rpcs
                 | Err e => usual e
                 end /\ True) (fun _ => True).
Proof.
  intros rpcs. destruct (sb_include_logs args).
  - destruct (decide (length (g_failures g) < length rpcs)) as [Hl|Hl].
    2: { intros ct now sw (_ & _ & ?)%after_rpcs. done. }
    eapply holds_weaken.
    + apply (holds_for_each (LogProgress scratch w0 (map rpc_name rpcs) (g_failures g)) usual _ (fun _ => True))
        with (done := []) (g := g); [|done]. intros. apply log_progress.
    + intros sw [Hp [Hc _]]%after_rpcs. by split_and!.
    + intros [g'|e] sw [H _]; [|done]. destruct H as (Hp & Hc & Hf).
      change ([] ++ all_logs problems) with (all_logs problems) in Hp. rewrite Hf. split_and!; try done.
      apply (progress_described problems) in Hp; [done|]. unfold items. rewrite map_app.
      by apply sublist_app; rewrite map_map.
    + done.
  - apply holds_ret. intros sw (Hp & Hc & Hf)%after_rpcs. split_and!; try done.
    apply (progress_described problems) in Hp; [done|]. unfold items.
    rewrite app_nil_r, map_app. apply sublist_inserts_r. by rewrite map_map.
Qed.

Lemma evidence_described router args problems scratch w0 :
  holds (fun sw : S * Writes => sw.2 = w0) (collect_evidence router args problems scratch)
    (fun r sw => match r with
                 | Ok (arts, _) => Described scratch w0 arts sw.2 /\ has_config arts
                 | Err e => usual e
                 end) (fun _ => True).
Proof.
  unfold collect_evidence.
  eapply (holds_try _ _ _ (fun r sw => sw.2 = w0 /\ match r with Err e => usual e | Ok _ => True end));
    [|intros []|by cbn; intros e s []].
  { apply holds_in_proc. intros sw <-. unfold sync_io.
    pose proof (quietly_writes (BundleStaging.create_dir_all (path_join scratch "rpc")) sw) as Hq.
    change (create_dir_all (path_join scratch "rpc") sw)
      with (quietly_io (BundleStaging.create_dir_all (path_join scratch "rpc")) sw).
    destruct (quietly_io _ sw) as [[] ?]; done. }
  eapply (holds_try _ _ _ (fun r sw => sw.2 = w0 /\ match r with Err e => usual e | Ok _ => True end));
    [|intros []|by cbn; intros e s []].
  { apply holds_get. intros sw [Hw _]. destruct (rpc_ready sw); done. }
  eapply (holds_try _ _ _ (fun r sw => match r with
                                       | Ok g => RpcProgress scratch w0 (all_rpcs problems) g sw
                                       | Err e => usual e end /\ True)); [| |by cbn; intros e s []].
  { eapply holds_weaken.
    - apply (holds_for_each (RpcProgress scratch w0) usual _ (fun _ => True)) with (done := []); [|done].
      intros. apply rpc_progress.
    - intros sw [Hw _]. split; [split|by intros ?%not_elem_of_nil|done]; [|done].
      exists []. by rewrite app_nil_r; split; [|constructor].
    - done.
    - done. }
  intros g. eapply (holds_try _ _ _ _).
  { eapply holds_weaken; [apply logs_described|by intros sw []|done|done]. }
  - intros g'. destruct (g_failures g') as [|[rpc first] l] eqn:Ef.
    { apply holds_ret. by intros sw [(H1 & H2 & _) _]. }
    rewrite <- Ef. destruct (Nat.eqb_spec (length (g_failures g')) (length (all_rpcs problems))) as [He|He];
      apply holds_ret; intros sw [(H1 & H2 & H3) _]; [lia|done].
  - by cbn; intros e s [].
Qed.

End described.

(** ** A reported bundle *)

Section reported.
Context {X : External} {Sh : Sha256} {JR : JunosRedact}.
Context {S : Type} {SD : SrxDevice S} {SC : SrxCli S} {FS : BundleFs S}.
Context (to_vec_pretty : Value -> string) (staging : SupportBundleStagingConfig).

Lemma support_information_described router args scratch w0 :
  holds (fun sw : S * Writes => sw.2 = w0) (collect_support_information router args scratch)
    (fun r sw => match r with
                 | Ok (arts, _) => Described scratch w0 arts sw.2
                 | Err _ => True
                 end) (fun _ => True).
Proof.
  assert (forall T (p : Proc (S * Writes) T SrxError), keeps_inv (fun sw => sw.2 = w0) p ->
            holds (fun sw => sw.2 = w0) p (fun _ sw => sw.2 = w0) (fun _ => True)) as Hk.
  { intros T p H. by eapply holds_weaken. }
  unfold collect_support_information.
  eapply holds_try; [apply Hk, inv_get|intros []|done].
  eapply holds_try; [apply Hk, inv_bounded, inv_map_err, (inv_quietly (fun w => w = w0))| |done].
  intros payload. destruct (is_empty (trim payload)); [by apply holds_ret|].
  apply holds_ret_then; [done| |done]. intros [out changed] _.
  set (fname := "request-support-information.txt").
  apply (holds_try _ _ _ (fun r sw => match r with
     | Ok _ => sw.2 = w0 ++ [(path_join scratch fname, out)] | Err _ => True end)); [| |done].
  - apply holds_in_proc. intros sw <-. pose proof (write_payload_only (path_join scratch fname) out sw) as H.
    split; [|done]. unfold Writes in *. by case_match.
  - intros []. apply holds_ret. intros sw Hw. split; [|done].
    exists [(path_join scratch fname, out)]. split_and!; [exact Hw| |].
    + apply (Accounts_file _ [] []). constructor.
    + cbn [map app fst]. apply list.NoDup_cons. split; [|apply NoDup_singleton]. rewrite list_elem_of_singleton.
      by intros H%join_relative.
Qed.

(** The tail of a collection, whatever was gathered. *)
Lemma collect_described router rid fid gather problems (C : list CapturedArtefact -> Prop) :
  (forall scratch, holds (fun sw : S * Writes => sw.2 = []) (gather scratch)
     (fun r sw => match r with
                  | Ok (arts, _) => Described scratch [] arts sw.2 /\ C arts
                  | Err _ => True end) (fun _ => True)) ->
  holds (fun sw : S * Writes => sw.2 = [])
    (collect to_vec_pretty staging router rid fid gather problems)
    (fun r sw => match r with
       | Ok d => exists scratch files, let b := bundle d in
           sw.2 = files ++ [(path_join scratch "manifest.json",
                             to_vec_pretty (manifest_value (sd_router d) (sd_request_id d)
                               (sd_filesystem_id d) (problem_types b) (artefacts b) (any_redacted b)))] /\
           Accounts scratch (artefacts b) files /\ NoDup (map fst sw.2) /\
           sd_router d = router /\ C (artefacts b)
       | Err _ => True
       end) (fun _ => True).
Proof.
  intros Hg. unfold collect.
  eapply holds_try; [eapply holds_weaken; [apply inv_in_proc, (prepare_quiet (fun w => w = []))|done..]| |done].
  intros paths. apply holds_with_paths.
  eapply (holds_try _ _ _ (fun r sp => match r with
     | Ok (arts, _) => Described (scratch_dir paths) [] arts sp.1.2 /\ C arts | Err _ => True end /\
     sp.2 = paths)).
  - eapply holds_weaken.
    + apply (holds_at fst (fun s sp => (s, sp.2)) (fun sw : S * Writes => sw.2 = []) (fun sp => sp.2 = paths));
        [done|done|apply Hg].
    + done.
    + intros [[arts any]|e] sp H; exact H.
    + done.
  - intros [arts any]. apply holds_in_proc. intros [[s w] p] [[(files & Hw & Ha & Hn) Hc] Hp].
    cbn in Hw, Hp. subst w p. split; [|done].
    pose proof (finalize_writes to_vec_pretty paths router rid fid arts problems any files
                  ((s, files), paths)) as [_ H]; [done|].
    destruct (finalize_lxc_bundle _ _ _ _ _ _ _ _) as [[d|e] sp]; [|done]. cbn in H |- *.
    destruct H as (Hw & <- & <- & <- & <- & <- & <-).
    exists (scratch_dir paths), files. rewrite drop_quiet, Hw. split_and!; try done.
    by rewrite map_app.
  - done.
Qed.

(** The files [ws] are those of the artefacts of the response, at the place, with
    the digest and of the length given there, no two at one place, and then a
    manifest that lists the same artefacts. *)
Definition Reported (args : SupportBundleArgs) (ws : Writes)
    (resp : SrxToolResponse SupportBundleData) : Prop :=
  exists d scratch files, let b := bundle d in
    resp = active d /\ sd_router d = sb_router args /\
    ws = files ++ [(path_join scratch "manifest.json",
                    to_vec_pretty (manifest_value (sd_router d) (sd_request_id d)
                      (sd_filesystem_id d) (problem_types b) (artefacts b) (any_redacted b)))] /\
    Accounts scratch (artefacts b) files /\ NoDup (map fst ws) /\
    (ProblemGeneric ∈ into_set (sb_problem_type args) \/ has_config (artefacts b)).


(** The error for a collection in which every RPC failed is never given: the
    configuration's failure ends the collection first. *)
Lemma subset_failed_unreachable router args problems scratch ct now (s : S) :
  match rpc_result (collect_evidence router args problems scratch ct now (s, [] : Writes)) with
  | Err (BundleRpcSubsetFailed _ _ _ _) => False
  | _ => True
  end.
Proof.
  destruct (evidence_described router args problems scratch [] ct now (s, [])) as [H _]; [done|].
  destruct (rpc_result _) as [[]|[]]; done.
Qed.

End reported.

(** ** One collection per router *)

Section locks.
Context {X : External} {Sh : Sha256} {JR : JunosRedact}.
Context {S : Type} {SD : SrxDevice S} {SC : SrxCli S} {FS : BundleFs S}.
Context (to_vec_pretty : Value -> string) (staging : SupportBundleStagingConfig).

(** The permits of a router's semaphore, made with one. *)
Definition permits (router : string) (locks : Locks) : N :=
  default 1%N (locks !! lock_key router).
Definition same_permits (l l' : Locks) : Prop := forall router, permits router l' = permits router l.

(** What follows code that takes no time. *)
Lemma after_sync {A T U} (m : Sync A T) (k : T -> Proc A U SrxError) ct now s :
  let q := match m s with
           | (Ok t, s') => k t ct now s'
           | (Err e, s') => mk_rpc 0 (Err e) s' (fun _ => s')
           end in
  let r := proc_then (in_proc m) k ct now s in
  rpc_result r = rpc_result q /\ rpc_state r = rpc_state q /\ rpc_time r = rpc_time q /\
  forall j, rpc_dropped r j = rpc_dropped q j.
Proof.
  unfold proc_then, proc_try, proc_bind, in_proc, fut_bind, fut_state.
  destruct (m s) as [[t|e] s']; cbn; rewrite ?N.add_0_r; split_and!; try done; intros j;
    rewrite ?N.sub_0_r; by destruct j.
Qed.

Lemma permits_lock_for router locks : same_permits locks (lock_for router locks).
Proof.
  intros r. unfold permits, lock_for in *. destruct (locks !! lock_key router) eqn:E; [done|].
  destruct (decide (lock_key r = lock_key router)) as [->|]; [by rewrite lookup_insert_eq, E|].
  by rewrite lookup_insert_ne.
Qed.

(** A permit taken and given back. *)
Lemma permits_release router locks locks' :
  try_acquire_owned router (lock_for router locks) = Some locks' ->
  same_permits locks (release router locks').
Proof.
  unfold try_acquire_owned in *.
  destruct (lock_for router locks !! lock_key router) as [n|] eqn:E; [|done].
  destruct (N.eqb_spec n 0); [done|]. intros [= <-] r. rewrite <- (permits_lock_for router locks r).
  unfold permits, release in *. destruct (decide (lock_key r = lock_key router)) as [->|].
  - rewrite lookup_alter_eq, lookup_insert_eq, E. cbn. lia.
  - by rewrite lookup_alter_ne, lookup_insert_ne.
Qed.

Lemma no_permit router locks :
  permits router locks = 0%N -> try_acquire_owned router (lock_for router locks) = None.
Proof.
  intros H. rewrite <- (permits_lock_for router locks router) in H. unfold permits, try_acquire_owned in *.
  destruct (lock_for router locks !! lock_key router) as [n|]; [|done]. cbn in H. by subst n.
Qed.

(** What a call leaves of the permits, and of the host when it may not start. *)
Definition Serialised {T} (router : string) (locks : Locks) (s : S)
    (r : Rpc (Locks * S) T SrxError) : Prop :=
  same_permits locks (rpc_state r).1 /\ (forall k, same_permits locks (rpc_dropped r k).1) /\
  (permits router locks <> 0%N \/ ((rpc_state r).2 = s /\ is_ok (rpc_result r) = false)).

Lemma serialised_after {T U} router locks s (m : Sync (Locks * S) T) (k : T -> Proc (Locks * S) U SrxError) ct now :
  Serialised router locks s
    match m (locks, s) with
    | (Ok t, ls) => k t ct now ls
    | (Err e, ls) => mk_rpc 0 (Err e) ls (fun _ => ls)
    end ->
  Serialised router locks s (proc_then (in_proc m) k ct now (locks, s)).
Proof.
  intros (H1 & H2 & H3). destruct (after_sync m k ct now (locks, s)) as (E1 & E2 & _ & E3).
  unfold Serialised. rewrite E1, E2. split_and!; [done| |done]. intros j. by rewrite E3.
Qed.

Lemma serialised_error {T} router locks locks' s (e : SrxError) :
  same_permits locks locks' ->
  Serialised (T := T) router locks s (mk_rpc 0 (Err e) (locks', s) (fun _ => (locks', s))).
Proof. intros H. split_and!; [done|done|by right]. Qed.

(** The collection proper, under its permit. *)
Lemma serialised_held {T U} router locks locks' s (p : Proc S T SrxError) (f : T -> U) ct now :
  try_acquire_owned router (lock_for router locks) = Some locks' ->
  Serialised router locks s
    (scoped (fun ls => (release router ls.1, ls.2))
       (let> data := proc_at snd (fun s ls => (ls.1, s)) p in proc_ret (Ok (f data))) ct now (locks', s)).
Proof.
  intros Ha. pose proof (permits_release router locks locks' Ha) as Hp. unfold scoped, Serialised; cbn.
  split_and!.
  - by destruct (rpc_result _).
  - intros k. case_match; [done|]. by destruct (rpc_result _).
  - left. intros H%no_permit. by rewrite Ha in H.
Qed.


End locks.

(** ** What stays behind *)

Section cleanup.
Context {X : External} {Sh : Sha256} {JR : JunosRedact}.
Context {S : Type} {SD : SrxDevice S} {SC : SrxCli S} {FS : BundleFs S}.
Context (to_vec_pretty : Value -> string) (staging : SupportBundleStagingConfig).

(** No file, directory or link at the path. *)
Definition gone (s : S) (p : string) : Prop :=
  match symlink_metadata s p with
  | Ok (TypeFile | TypeDir | TypeSymlink) => False
  | _ => True
  end.

(** The host lets the files be removed, and a removal makes nothing. *)
Class RemovalWorks : Prop := {
  file_removed : forall s p, gone (remove_file p s).2 p;
  dir_removed : forall s p, gone (remove_dir_all p s).2 p;
  file_frame : forall s p q, gone s q -> gone (remove_file p s).2 q;
  dir_frame : forall s p q, gone s q -> gone (remove_dir_all p s).2 q
}.

Context {RW : RemovalWorks}.

Lemma removed_gone p s : gone (remove_without_following p s) p.
Proof.
  unfold remove_without_following. destruct (symlink_metadata s p) as [[]|] eqn:E;
    auto using file_removed, dir_removed; unfold gone; by rewrite E.
Qed.
Lemma removed_frame p q s : gone s q -> gone (remove_without_following p s) q.
Proof.
  unfold remove_without_following. destruct (symlink_metadata s p) as [[]|];
    auto using file_frame, dir_frame.
Qed.

Lemma dropped_gone paths s :
  gone (drop_paths paths s) (scratch_dir paths) /\
  (keep_tarball paths = true \/ gone (drop_paths paths s) (tarball_path paths)).
Proof.
  unfold drop_paths. destruct (keep_tarball paths).
  - split; [apply removed_gone|by left].
  - split; [apply removed_frame, removed_gone|right; apply removed_gone].
Qed.

(** Paths are prepared uncommitted, and committed only by a success. *)
Lemma prepared_uncommitted config router id s paths s' :
  prepare config router id s = (Ok paths, s') -> keep_tarball paths = false.
Proof.
  assert (sync_holds (fun _ => True) (prepare config router id)
    (fun r _ => match r with Ok p => keep_tarball p = false | Err _ => True end)) as H.
  { unfold prepare, prepare_under.
    repeat (eapply (sync_holds_then _ _ _ (fun _ _ => True)); [by intros ?|intros ?|done]).
    by intros ?. }
  intros E. specialize (H s I). by rewrite E in H.
Qed.

Lemma finalize_commits router rid fid arts problems any (sp : S * PreparedBundlePaths) :
  let r := finalize_lxc_bundle to_vec_pretty router rid fid arts problems any sp in
  r.2.2 = if is_ok r.1 then commit_tarball sp.2 else sp.2.
Proof.
  assert (forall T (m : Sync S T) (k : T -> Sync (S * PreparedBundlePaths) SupportBundleData) sp,
    (forall t sp', sp'.2 = sp.2 -> (k t sp').2.2 = if is_ok (k t sp').1 then commit_tarball sp.2 else sp.2) ->
    (sync_then (on_host m) k sp).2.2 = if is_ok (sync_then (on_host m) k sp).1 then commit_tarball sp.2 else sp.2)
    as Hh.
  { intros T m k [s p] H. unfold sync_then, on_host. cbn [fst snd].
    destruct (m s) as [[t|e] s']; [by apply (H t (s', p))|done]. }
  unfold finalize_lxc_bundle. apply Hh. intros [] sp1 H1. rewrite <- H1.
  apply Hh. intros [] sp2 H2. rewrite <- H2. apply Hh. intros [] sp3 H3. rewrite <- H3.
  apply Hh. intros info sp4 H4. cbn. by rewrite H4.
Qed.


End cleanup.

(** ** A host *)

Module Demo.
#[local] Existing Instance string_external.

(** Directories and files by path. *)
Definition Host : Type := gmap string (option string).

Definition below (p q : string) : bool := String.eqb q p || starts_with (p ^^ "/") q.
Definition archive_of (dir : string) (h : Host) : string :=
  RustStr.join " " (List.filter (below dir) (map fst (map_to_list h))).

#[local] Instance host_fs : BundleFs Host := {|
  io_not_found e := String.eqb e "not found";
  symlink_metadata h p :=
    match h !! p with
    | Some None => Ok TypeDir | Some (Some _) => Ok TypeFile | None => Err "not found"
    end;
  canonicalize h p := if h !! p is Some _ then Ok p else Err "not found";
  create_dir_all p h := (Ok tt, <[p := None]> h);
  create_dir_700 p h := if h !! p is Some _ then (Err "exists", h) else (Ok tt, <[p := None]> h);
  remove_file p h := (Ok tt, delete p h);
  remove_dir_all p h := (Ok tt, filter (fun kv => below p kv.1 = false) h);
  write_file p c h := (Ok tt, <[p := Some c]> h);
  file_len h p := if h !! p is Some (Some c) then Ok (len c) else Err "not found";
  read_file h p := if h !! p is Some (Some c) then Ok c else Err "not found";
  File := string;
  create_new_600 p h := if h !! p is Some _ then (Err "exists", h) else (Ok p, <[p := Some ""]> h);
  append_dir_all _ f _ dir h := (Ok tt, <[f := Some (archive_of dir h)]> h);
  tar_into_inner _ h := (Ok tt, h);
  gz_finish _ h := (Ok tt, h)
|}.

Lemma host_gone (h : Host) p : gone h p <-> h !! p = None.
Proof. unfold gone; cbn. destruct (h !! p) as [[]|]; naive_solver. Qed.

#[local] Instance host_removals : RemovalWorks (S := Host).
Proof.
  split; intros h p; [| |intros q|intros q]; rewrite ?host_gone; cbn.
  - apply lookup_delete_eq.
  - apply map_lookup_filter_None. right. intros c _. cbn. unfold below. by rewrite String.eqb_refl.
  - intros H. apply lookup_delete_None. by right.
  - intros H. apply map_lookup_filter_None. by left.
Qed.

(** A device that answers every RPC but one, and has one log, which begins like
    an error. *)
Definition answered (r : Result string RustEzError) (h : Host) : Rpc Host string RustEzError :=
  mk_rpc 3 r h (fun _ => h).
Definition answer (name : string) : Result string RustEzError :=
  if String.eqb name "get-software-information" then Err (RzOther, "busy")
  else Ok ("<" ^^ name ^^ " key='secret'/>").
#[local] Instance host_device : SrxDevice (X := string_external) Host := {|
  rpc_ready _ := Ok tt;
  rpc_call name _ := answered (answer name);
  rpc_call_xml body := answered (Ok body)
|}.
Definition log_text : string := "error: login with secret refused".
#[local] Instance host_cli : SrxCli (X := string_external) Host := {|
  rpc_cli command _ :=
    answered (Ok (if String.eqb command "file show /var/log/messages" then log_text
                  else "kmd: key is secret"))
|}.
#[local] Instance masking : JunosRedact := {|
  RedactError := string; redact_error_display e := e;
  redact_xml s := if starts_with "<" s then Ok "<masked/>" else Err "not XML";
  redact_log_artefact _ := Ok "masked"
|}.
#[local] Instance length_sha : Sha256 := {|
  Hasher := N; hasher_new := 0%N; hasher_update n s := (n + len s)%N; hasher_finalize n := [n]
|}.
Definition printed (v : Value) : string := "manifest".
Definition staging : SupportBundleStagingConfig := {| directory := "/srv"; max_bytes := 0 |}.
Definition args : SupportBundleArgs := {|
  sb_router := "r1"; sb_problem_type := OneProblem ProblemVpn; sb_request_id := None;
  sb_include_logs := true; sb_redact := true; sb_max_log_bytes_per_file := 1000;
  sb_max_log_files := 5; sb_timeout := 60 |}.

Definition collected : Rpc (Locks * (Host * Writes)) (SrxToolResponse SupportBundleData) SrxError :=
  bundle_run printed staging "1" args None 0%N (∅, (∅, [])).

(** What the bundle says of its parts: the log's text is in the entry's error,
    and so in the manifest, as the device sent it; nothing tells of the RPC that
    failed. *)
Example text_like_an_error_is_not_redacted :
  match rpc_result collected with
  | Ok resp => option_map (fun d => map (fun a => (tarball_name a, error a)) (artefacts (bundle d)))
                 (sr_data resp)
  | Err _ => None
  end =
  Some [("rpc/get-configuration.xml", None);
        ("rpc/get-ike-security-associations-information.xml", None);
        ("rpc/get-ipsec-statistics-information.xml", None);
        ("rpc/get-security-associations-information.xml", None);
        ("rpc/get-system-alarm-information.xml", None);
        ("rpc/get-system-uptime-information.xml", None);
        ("logs/kmd", None); ("logs/messages", Some log_text)].
Proof. vm_compute. reflexivity. Qed.

(** The tarball alone is left. *)
Example only_the_tarball_stays :
  map fst (map_to_list (rpc_state collected).2.1) = ["/srv/r1/srxmcp-1.tgz"; "/srv/r1"; "/srv"].
Proof. vm_compute. reflexivity. Qed.



End Demo.
