(* ===== verification/Auth.v ===== *)
(** * Authorization vocabulary ([rust-junosmcp-auth/src/lib.rs])

    The names of the tools and the registry of the tools that a wildcard scope
    does not confer.  Tokens, their scopes and the caller a request carries are
    [mecmcp_auth]'s and parameters: [Caller] is what the server asks of them. *)

From S2P Require Import Prelude RustStr Fmt.

Definition JUNOS_TOOLS : list string :=
  ["add_device"; "apply_junos_change_set"; "approve_junos_change_set";
   "cancel_junos_change_set"; "commit_check_config"; "confirm_commit";
   "confirm_junos_change_set"; "create_junos_change_set"; "discard_candidate";
   "execute_junos_command"; "execute_junos_command_batch"; "execute_junos_pfe_command";
   "fetch_file"; "gather_device_facts"; "get_device_list"; "get_junos_candidate_fingerprint";
   "get_junos_change_set_status"; "get_junos_config"; "get_router_list"; "junos_config_diff";
   "list_junos_change_sets"; "list_staged_files"; "load_and_commit_config"; "reload_devices";
   "render_and_apply_j2_template"; "rollback_config"; "transfer_file"; "upgrade_junos"].

Definition SRX_TOOLS : list string :=
  ["check_srx_feature_license"; "collect_jtac_support_bundle"; "get_chassis_cluster_status";
   "get_srx_security_services_status"; "manage_appid_signature_package";
   "manage_idp_security_package"; "srx_flow_sessions"; "srx_list_nat_rules";
   "srx_list_policies"; "srx_policy_match"; "srx_resolve_address"; "srx_resolve_application";
   "srxmcp_status"; "validate_chassis_cluster_health"; "vpn_lifecycle_report"].

Definition FACADE_TOOLS : list string :=
  ["execute"].

Definition KNOWN_TOOLS : list string :=
  ["add_device"; "apply_junos_change_set"; "approve_junos_change_set";
   "cancel_junos_change_set"; "check_srx_feature_license"; "collect_jtac_support_bundle";
   "commit_check_config"; "confirm_commit"; "confirm_junos_change_set";
   "create_junos_change_set"; "discard_candidate"; "execute"; "execute_junos_command";
   "execute_junos_command_batch"; "execute_junos_pfe_command"; "fetch_file";
   "gather_device_facts"; "get_chassis_cluster_status"; "get_device_list";
   "get_junos_candidate_fingerprint"; "get_junos_change_set_status"; "get_junos_config";
   "get_router_list"; "get_srx_security_services_status"; "junos_config_diff";
   "list_junos_change_sets"; "list_staged_files"; "load_and_commit_config";
   "manage_appid_signature_package"; "manage_idp_security_package"; "reload_devices";
   "render_and_apply_j2_template"; "rollback_config"; "srx_flow_sessions";
   "srx_list_nat_rules"; "srx_list_policies"; "srx_policy_match"; "srx_resolve_address";
   "srx_resolve_application"; "srxmcp_status"; "transfer_file"; "upgrade_junos";
   "validate_chassis_cluster_health"; "vpn_lifecycle_report"].

Definition WRITE_TOOLS : list string :=
  ["add_device"; "apply_junos_change_set"; "approve_junos_change_set"; "confirm_commit";
   "confirm_junos_change_set"; "create_junos_change_set"; "discard_candidate"; "execute";
   "load_and_commit_config"; "manage_appid_signature_package"; "manage_idp_security_package";
   "reload_devices"; "render_and_apply_j2_template"; "rollback_config"; "transfer_file";
   "upgrade_junos"].

(** [CallerCtx], [ScopeSet::allows_tool], [ScopeSet::allows] and
    [filter_device_names]. *)
Class Caller := {
  CallerCtx : Type;
  token_name : CallerCtx -> string;
  allows_tool : CallerCtx -> string -> list string -> bool;
  allows_device : CallerCtx -> string -> bool;
  filter_device_names : option CallerCtx -> list string -> list string
}.

(** What the server relies on: the names a caller sees are those its device
    scope allows, and a request without a caller sees them all. *)
Class CallerLaws {C : Caller} : Prop := {
  filter_no_caller ns : filter_device_names None ns = ns;
  filter_caller c ns n :
    n ∈ filter_device_names (Some c) ns <-> n ∈ ns /\ allows_device c n = true
}.

(** ** The registries agree *)

Definition sub_list (a b : list string) : bool := forallb (fun x => bool_decide (x ∈ b)) a.

Lemma sub_list_spec a b : sub_list a b = true <-> a ⊆ b.
Proof.
  unfold sub_list. rewrite forallb_forall. split; intros H x Hx.
  - apply list_elem_of_In in Hx. specialize (H x Hx). by apply bool_decide_eq_true in H.
  - apply bool_decide_eq_true, H. by apply list_elem_of_In.
Qed.

Definition ENDPOINTS : list string := JUNOS_TOOLS ++ SRX_TOOLS.

Lemma known_is_union : KNOWN_TOOLS ≡ₚ ENDPOINTS ++ FACADE_TOOLS.
Proof.
  apply NoDup_Permutation; [by apply (bool_decide_eq_true (NoDup _))..|].
  intros x. split; revert x; apply sub_list_spec; by vm_compute.
Qed.

Lemma write_tools_known : WRITE_TOOLS ⊆ KNOWN_TOOLS.
Proof. apply sub_list_spec. by vm_compute. Qed.
