(* ===== verification/Redaction.v ===== *)
(** * Replies and their redaction ([rust-junosmcp/src/server.rs])

    What the server hands back to the model: [redact_body] and the pass that
    keeps a few server-defined JSON fields ([restore_exempt_fields]), the
    conversion of a tool's result ([to_call_result]) and the last-mile pass over
    every reply ([redact_last_mile]).  [mecmcp_redact] itself is a parameter
    ([Redactor], [Denylist]).  Its properties follow. *)

From S2P Require Import Prelude RustStr Fmt Errors JsonValue ConfigTools.
From Stdlib Require Import Ascii.
#[local] Set Warnings "-register-all".

(** ** Replies ([rmcp::model]) *)

Inductive ContentBlock := TextBlock (text : string) | OtherBlock.
Record CallToolResult := { content : list ContentBlock; is_error : option bool }.
Inductive ErrorCode := InvalidParams | InvalidRequest | InternalError | OtherCode.
Record ErrorData := { ed_code : ErrorCode; ed_message : string; ed_data : option Value }.
(** A complete answer, or one of the protocol's two unfinished ones. *)
Inductive CallToolResponse := Complete (r : CallToolResult) | Unfinished.

Definition success (c : list ContentBlock) : CallToolResult :=
  {| content := c; is_error := Some false |}.
Definition error_result (c : list ContentBlock) : CallToolResult :=
  {| content := c; is_error := Some true |}.

Definition invalid_params (m : string) (d : option Value) : ErrorData :=
  {| ed_code := InvalidParams; ed_message := m; ed_data := d |}.
Definition invalid_request (m : string) (d : option Value) : ErrorData :=
  {| ed_code := InvalidRequest; ed_message := m; ed_data := d |}.
Definition internal_error (m : string) (d : option Value) : ErrorData :=
  {| ed_code := InternalError; ed_message := m; ed_data := d |}.

(** [mecmcp_redact::denylist] *)
Class Denylist := { is_denylisted_key : string -> bool }.

(** ** JSON *)

Definition REDACTION_KEY_EXEMPTIONS : list string :=
  ["sessions"; "session_id"; "session_identifier"; "initiator_cookie"; "responder_cookie"].

Definition exempt (key : string) : bool :=
  existsb (fun k => String.eqb k key) REDACTION_KEY_EXEMPTIONS.
#[global] Arguments exempt : simpl never.

(** The nesting of a value. *)
Fixpoint depth (v : Value) : nat :=
  match v with
  | Array l => S (fold_right (fun v n => Nat.max (depth v) n) 0 l)
  | Object fields => S (fold_right (fun kv n => Nat.max (depth kv.2) n) 0 fields)
  | _ => 0
  end.

Section redaction.
Context {Re : Redactor} {DL : Denylist}.

(** One member of the original object against the redacted one.  [rec] restores
    a subtree, [keep] redacts one under its neutral wrapper. *)
Definition restore_member (rec : Value -> Value -> Value) (keep : Value -> Value)
    (red : list (string * Value)) (kv : string * Value) : list (string * Value) :=
  let (key, orig_v) := kv in
  match obj_get key red with
  | None => red
  | Some red_v =>
      if exempt key then obj_insert key (keep orig_v) red
      else if negb (is_denylisted_key key) then obj_insert key (rec orig_v red_v) red
      else red
  end.

(** [orig.iter().zip(red.iter_mut())]: what is past the shorter one stays. *)
Fixpoint restore_items (rec : Value -> Value -> Value) (orig red : list Value) : list Value :=
  match orig, red with
  | o :: orig, r :: red => rec o r :: restore_items rec orig red
  | _, _ => red
  end.

(** The two functions call each other, through a wrapper of one more level:
    [2 * depth] calls in a row at most ([restore_enough]). *)
Fixpoint restore_exempt_fields (fuel : nat) (original redacted : Value) : Value :=
  match fuel with
  | 0 => redacted
  | S fuel =>
      let keep orig_v :=
        let wrapped := Object [("value", orig_v)] in
        default Null (value_get "value"
          (restore_exempt_fields fuel wrapped (redact_json_value wrapped))) in
      match original, redacted with
      | Object orig, Object red =>
          Object (fold_left (restore_member (restore_exempt_fields fuel) keep) orig red)
      | Array orig, Array red => Array (restore_items (restore_exempt_fields fuel) orig red)
      | _, _ => redacted
      end
  end.

Definition restore_fuel (v : Value) : nat := 2 * depth v.

Definition redact_json_preserving_server_fields (value : Value) : Value :=
  restore_exempt_fields (restore_fuel value) value (redact_json_value value).

(** ** Bodies of any format *)

Context {X : External} {JT : JsonText}.

Definition redact_body (s : string) : string :=
  match json_from_str s with
  | Ok value =>
      match json_pretty (redact_json_preserving_server_fields value) with
      | Ok pretty => pretty
      | Err _ => redact_text s
      end
  | Err _ =>
      if starts_with "<" (trim_start s)
      then match redact_xml_str s with Some redacted => redacted | None => redact_text s end
      else redact_text s
  end.

Definition to_call_result (r : Result Value JmcpError) : CallToolResult :=
  match r with
  | Ok (Str s) => success [TextBlock (redact_body s)]
  | Ok other =>
      let pretty :=
        match json_pretty (redact_json_preserving_server_fields other) with
        | Ok p => p
        | Err e => json_error_display e
        end in
      success [TextBlock pretty]
  | Err e => error_result [TextBlock (redact_body (to_string e))]
  end.

(** ** The last mile *)

Definition redact_block (b : ContentBlock) : ContentBlock :=
  match b with TextBlock t => TextBlock (redact_body t) | OtherBlock => OtherBlock end.

(** [ErrorData.data] names a code of the confirmation protocol. *)
Definition already_redacted_structurally (e : ErrorData) : bool :=
  match ed_data e with
  | Some data =>
      match value_get "code" data with
      | Some (Str code) => starts_with "confirmation" code
      | _ => false
      end
  | None => false
  end.

Definition redact_last_mile (result : Result CallToolResponse ErrorData)
  : Result CallToolResponse ErrorData :=
  match result with
  | Err e =>
      Err (if already_redacted_structurally e then e
           else {| ed_code := ed_code e; ed_message := redact_body (ed_message e);
                   ed_data := ed_data e |})
  | Ok (Complete r) =>
      Ok (Complete {| content := map redact_block (content r); is_error := is_error r |})
  | Ok Unfinished => Ok Unfinished
  end.

End redaction.

(** ** What the server's exemptions give away ([rust-junosmcp/src/server.rs])

    [restore_exempt_fields] puts values back into a redacted document.  Against
    a redactor whose output is safe, what it puts back is safe too: only the
    rule "the value of a denylisted key is masked" is lifted, only for the
    exempt keys, and nothing else of the document changes. *)

(** ** The recursion's fuel is enough *)

Section fuel.
Context {Re : Redactor} {DL : Denylist}.

Lemma depth_item x l : x ∈ l -> depth x < depth (Array l).
Proof.
  intros H. cbn. induction H as [|x y l H IH]; cbn in *; lia.
Qed.

Lemma depth_member k x f : (k, x) ∈ f -> depth x < depth (Object f).
Proof.
  intros H. cbn. remember (k, x) as kv. induction H as [|kv y l H IH]; subst; cbn in *.
  - lia.
  - specialize (IH eq_refl). lia.
Qed.

Lemma fold_members_ext rec rec' keep keep' orig red :
  (forall k o, (k, o) ∈ orig -> (forall r, rec o r = rec' o r) /\ keep o = keep' o) ->
  fold_left (restore_member rec keep) orig red = fold_left (restore_member rec' keep') orig red.
Proof.
  revert red. induction orig as [|[k o] orig IH]; intros red H; [done|]. cbn [fold_left].
  assert (Hk : restore_member rec keep red (k, o) = restore_member rec' keep' red (k, o)).
  { destruct (H k o) as [Hr Hk]; [constructor|]. cbn. destruct (obj_get k red); [|done].
    by rewrite Hk, Hr. }
  rewrite Hk. apply IH. intros k' o' Hin. apply (H k'). by constructor.
Qed.

Lemma restore_items_ext rec rec' orig red :
  (forall o, o ∈ orig -> forall r, rec o r = rec' o r) ->
  restore_items rec orig red = restore_items rec' orig red.
Proof.
  revert red. induction orig as [|o orig IH]; intros [|r red] H; try done. cbn.
  rewrite (H o) by constructor. f_equal. apply IH. intros o' Hin. apply H. by constructor.
Qed.

(** What an exempt key keeps, once there is fuel for its wrapper. *)
Definition kept (rec : Value -> Value -> Value) (orig_v : Value) : Value :=
  match redact_json_value (Object [("value", orig_v)]) with
  | Object red => default Null (obj_get "value" (restore_member rec (fun v => v) red ("value", orig_v)))
  | _ => Null
  end.

Lemma keep_step fuel o :
  default Null (value_get "value" (restore_exempt_fields (S fuel) (Object [("value", o)])
    (redact_json_value (Object [("value", o)])))) = kept (restore_exempt_fields fuel) o.
Proof.
  unfold kept. cbn [restore_exempt_fields].
  by destruct (redact_json_value (Object [("value", o)])).
Qed.

Lemma kept_ext rec rec' o : (forall r, rec o r = rec' o r) -> kept rec o = kept rec' o.
Proof.
  intros H. unfold kept. destruct (redact_json_value _); try done. cbn.
  destruct (obj_get "value" fields); [|done]. by rewrite H.
Qed.

(** One step of the recursion, its wrapper unfolded. *)
Lemma restore_step fuel orig red :
  restore_exempt_fields (S (S fuel)) (Object orig) (Object red) =
  Object (fold_left (restore_member (restore_exempt_fields (S fuel))
                       (kept (restore_exempt_fields fuel))) orig red).
Proof.
  change (restore_exempt_fields (S (S fuel)) (Object orig) (Object red)) with
    (Object (fold_left (restore_member (restore_exempt_fields (S fuel))
       (fun o => default Null (value_get "value" (restore_exempt_fields (S fuel)
          (Object [("value", o)]) (redact_json_value (Object [("value", o)])))))) orig red)).
  f_equal. apply fold_members_ext. intros k o _. split; [done|apply keep_step].
Qed.

Lemma restore_items_step fuel orig red :
  restore_exempt_fields (S fuel) (Array orig) (Array red) =
  Array (restore_items (restore_exempt_fields fuel) orig red).
Proof. done. Qed.

(** More fuel than twice the nesting changes nothing. *)
Lemma restore_enough n m v r :
  2 * depth v <= n -> 2 * depth v <= m ->
  restore_exempt_fields n v r = restore_exempt_fields m v r.
Proof.
  revert m v r. induction n as [n IH] using lt_wf_ind. intros m v r Hn Hm.
  destruct v as [| | | | |l|f];
    try (by destruct n, m; cbn).
  - pose proof (depth_item) as Hd. cbn [depth] in Hn, Hm.
    destruct n as [|[|n]], m as [|[|m]]; try lia.
    destruct r; try done. rewrite !restore_items_step. f_equal. apply restore_items_ext.
    intros o Ho r. specialize (Hd o l Ho). cbn [depth] in Hd. apply IH; lia.
  - pose proof (fun k x => depth_member k x f) as Hd. cbn [depth] in Hn, Hm, Hd.
    destruct n as [|[|n]], m as [|[|m]]; try lia.
    destruct r; try done. rewrite !restore_step. f_equal. apply fold_members_ext.
    intros k o Ho. specialize (Hd k o Ho). split; [intros r; apply IH; lia|].
    apply kept_ext. intros r. apply IH; lia.
Qed.

(** The two functions by their equations, without fuel. *)
Definition restore (original redacted : Value) : Value :=
  restore_exempt_fields (restore_fuel original) original redacted.

Lemma restore_object orig red :
  restore (Object orig) (Object red) =
  Object (fold_left (restore_member restore (kept restore)) orig red).
Proof.
  pose proof (fun k x => depth_member k x orig) as Hd.
  unfold restore at 1, restore_fuel. cbn [depth] in *.
  set (d := fold_right _ 0 orig) in *.
  replace (2 * S d) with (S (S (2 * d))) by lia. rewrite restore_step. f_equal.
  apply fold_members_ext. intros k o Ho. specialize (Hd k o Ho).
  split; [intros r|apply kept_ext; intros r]; apply restore_enough; unfold restore_fuel; lia.
Qed.

Lemma restore_array orig red :
  restore (Array orig) (Array red) = Array (restore_items restore orig red).
Proof.
  pose proof (fun x => depth_item x orig) as Hd.
  unfold restore at 1, restore_fuel. cbn [depth] in *.
  set (d := fold_right _ 0 orig) in *.
  replace (2 * S d) with (S (S (2 * d))) by lia. rewrite restore_items_step. f_equal.
  apply restore_items_ext. intros o Ho r. specialize (Hd o Ho).
  apply restore_enough; unfold restore_fuel; lia.
Qed.

Lemma restore_other orig red :
  match orig, red with
  | Object _, Object _ | Array _, Array _ => True
  | _, _ => restore orig red = red
  end.
Proof.
  destruct orig, red; try exact I; unfold restore; by destruct (restore_fuel _).
Qed.

End fuel.

(** Values of different shapes, and scalars, are left alone. *)
Ltac restore_leaf :=
  match goal with
  | |- context [restore ?o ?r] =>
      let H := fresh in assert (H : restore o r = r) by exact (restore_other o r); rewrite H; clear H
  end.

(** ** What is safe to hand out

    [exposes] says that a text shows a secret and [masked] that a value is what
    the redactor writes over one.  In a safe document no text shows a secret
    and the values of denylisted keys are masked, but for the keys [allowed]. *)

Class Exposure := { exposes : string -> bool; masked : Value -> bool }.

Fixpoint safe {DL : Denylist} {Ex : Exposure} (allowed : string -> bool) (v : Value) : bool :=
  match v with
  | Str s => negb (exposes s)
  | Array l => forallb (safe allowed) l
  | Object f =>
      forallb (fun kv =>
        if is_denylisted_key kv.1 && negb (allowed kv.1) then masked kv.2
        else safe allowed kv.2) f
  | _ => true
  end.

(** [mecmcp_redact::redact_json_value] as documented: it leaves nothing exposed
    and masks denylisted keys, keeps the members of an object, and what it masks
    with is safe; the wrapper's own key is not denylisted. *)
Class RedactorLaws {Re : Redactor} {DL : Denylist} {Ex : Exposure} : Prop := {
  redact_safe v : safe (fun _ => false) (redact_json_value v) = true;
  redact_members f : exists f', redact_json_value (Object f) = Object f' /\ map fst f' = map fst f;
  masked_safe v allowed : masked v = true -> safe allowed v = true;
  neutral_wrapper : is_denylisted_key "value" = false
}.

(** The two documents differ only below exempt keys. *)
Inductive outside_exempt {DL : Denylist} : Value -> Value -> Prop :=
  | outside_same v : outside_exempt v v
  | outside_array l l' : Forall2 outside_exempt l l' -> outside_exempt (Array l) (Array l')
  | outside_object f f' :
      Forall2 (fun kv kv' => kv.1 = kv'.1 /\
        (exempt kv.1 = true \/ kv.2 = kv'.2 \/
         is_denylisted_key kv.1 = false /\ outside_exempt kv.2 kv'.2)) f f' ->
      outside_exempt (Object f) (Object f').

Section safe.
Context {Re : Redactor} {DL : Denylist} {Ex : Exposure} {RL : RedactorLaws}.

Lemma safe_weaken v allowed : safe (fun _ => false) v = true -> safe allowed v = true.
Proof using RL.
  induction v as [| | | | |l IH|f IH] using Value_ind'; cbn [safe]; try done.
  - rewrite !forallb_forall. rewrite List.Forall_forall in IH. auto.
  - rewrite !forallb_forall. rewrite List.Forall_forall in IH. intros H kv Hin.
    specialize (IH kv Hin). specialize (H kv Hin). cbn in H. rewrite andb_true_r in H.
    revert H. destruct (is_denylisted_key kv.1), (allowed kv.1); cbn; auto.
    apply (masked_safe (Re := Re)).
Qed.

Definition member_ok (kv : string * Value) : bool :=
  if is_denylisted_key kv.1 && negb (exempt kv.1) then masked kv.2 else safe exempt kv.2.

Lemma obj_get_in {A} k (f : list (string * A)) v : obj_get k f = Some v -> In (k, v) f.
Proof.
  induction f as [|[k' v'] f IH]; cbn; [done|]. destruct (String.eqb_spec k' k); intros H.
  - simplify_eq. by left.
  - right. auto.
Qed.

Lemma insert_forallb {A} (p : string * A -> bool) k v f :
  forallb p f = true -> p (k, v) = true -> forallb p (obj_insert k v f) = true.
Proof.
  intros Hf Hv. induction f as [|[k' v'] f IH]; cbn in *; [by rewrite Hv|].
  apply andb_true_iff in Hf as [H1 H2]. destruct (String.eqb_spec k' k); cbn; subst.
  - by rewrite Hv, H2.
  - by rewrite H1, IH.
Qed.

Lemma get_forallb {A} (p : string * A -> bool) k v f :
  forallb p f = true -> obj_get k f = Some v -> p (k, v) = true.
Proof. intros Hf Hk%obj_get_in. rewrite forallb_forall in Hf. auto. Qed.

(** One value under its neutral wrapper. *)
Lemma kept_safe o :
  (forall red, safe exempt red = true -> safe exempt (restore o red) = true) ->
  safe exempt (kept restore o) = true.
Proof using RL.
  intros IH. unfold kept. pose proof (redact_safe (Object [("value", o)])) as Hs.
  apply (safe_weaken _ exempt) in Hs. destruct (redact_json_value _) as [| | | | | |red]; try done.
  unfold restore_member. destruct (obj_get "value" red) as [rv|] eqn:Hv; [|by rewrite Hv].
  change (exempt "value") with false. cbn match. rewrite neutral_wrapper. cbn [negb].
  rewrite obj_get_insert, String.eqb_refl. cbn. apply IH.
  pose proof (get_forallb _ _ _ _ Hs Hv) as H. cbn in H. by rewrite neutral_wrapper in H.
Qed.

Lemma members_safe orig red :
  Forall (fun kv => forall red, safe exempt red = true ->
                     safe exempt (restore kv.2 red) = true) orig ->
  forallb member_ok red = true ->
  forallb member_ok (fold_left (restore_member restore (kept restore)) orig red) = true.
Proof using RL.
  intros H. revert red. induction H as [|[k o] orig Ho _ IH]; intros red Hred; [done|].
  cbn [fold_left]. apply IH. unfold restore_member. destruct (obj_get k red) as [rv|] eqn:Hk; [|done].
  pose proof (get_forallb _ _ _ _ Hred Hk) as Hrv. unfold member_ok in Hrv. cbn in Hrv.
  destruct (exempt k) eqn:He.
  - apply insert_forallb; [done|]. unfold member_ok. cbn. rewrite He, andb_false_r.
    apply kept_safe, Ho.
  - destruct (is_denylisted_key k) eqn:Hd; [done|]. cbn. apply insert_forallb; [done|].
    unfold member_ok. cbn. rewrite Hd. cbn. by apply Ho.
Qed.

Lemma restore_safe orig red : safe exempt red = true -> safe exempt (restore orig red) = true.
Proof using RL.
  revert red. induction orig as [| | | | |l IH|f IH] using Value_ind'; intros red H.
  1-5: by restore_leaf.
  - destruct red as [| | | | |r|r]; try by restore_leaf. rewrite restore_array.
    cbn [safe] in *. revert r H. induction IH as [|o l Ho _ IHl]; intros [|r rs] H; try done.
    cbn in *. apply andb_true_iff in H as [H1 H2]. by rewrite Ho, IHl.
  - destruct red as [| | | | |r|r]; try by restore_leaf. rewrite restore_object.
    exact (members_safe f r IH H).
Qed.

(** ** Nothing else changes *)

Lemma insert_Forall2 {A B} (R : string * A -> string * B -> Prop) k v rv f0 f :
  Forall2 R f0 f -> obj_get k f = Some rv ->
  (forall kv0, R kv0 (k, rv) -> R kv0 (k, v)) -> Forall2 R f0 (obj_insert k v f).
Proof.
  intros H Hk Hstep. induction H as [|kv0 [k' v'] f0 f Hkv H IH]; cbn in *; [done|].
  destruct (String.eqb_spec k' k); simplify_eq; constructor; auto.
Qed.

Lemma outside_object_inv f r :
  outside_exempt (Object f) r ->
  exists f', r = Object f' /\ Forall2 (fun kv kv' => kv.1 = kv'.1 /\
    (exempt kv.1 = true \/ kv.2 = kv'.2 \/
     is_denylisted_key kv.1 = false /\ outside_exempt kv.2 kv'.2)) f f'.
Proof.
  inversion 1; simplify_eq; eexists; (split; [done|]); [|done].
  apply Reflexive_instance_0. intros kv. auto.
Qed.

Lemma outside_array_inv l r :
  outside_exempt (Array l) r -> exists l', r = Array l' /\ Forall2 outside_exempt l l'.
Proof.
  inversion 1; simplify_eq; eexists; (split; [done|]); [|done].
  apply Reflexive_instance_0. intros v. constructor.
Qed.

Lemma outside_shape r0 r :
  outside_exempt r0 r ->
  match r with
  | Object _ => exists f, r0 = Object f
  | Array _ => exists l, r0 = Array l
  | _ => r0 = r
  end.
Proof. inversion 1; subst; [destruct r|..]; eauto. Qed.

Lemma restore_outside orig r0 red :
  outside_exempt r0 red -> outside_exempt r0 (restore orig red).
Proof using.
  revert r0 red. induction orig as [| | | | |l IH|f IH] using Value_ind'; intros r0 red H.
  1-5: by restore_leaf.
  - destruct red as [| | | | |r|r]; try by restore_leaf. rewrite restore_array.
    destruct (outside_shape _ _ H) as [l0 ->].
    apply outside_array_inv in H as (? & [= <-] & H). constructor. revert l0 r H.
    induction IH as [|o l Ho _ IHl]; intros l0 r H; [by destruct r|].
    destruct H; cbn [restore_items]; constructor; auto.
  - destruct red as [| | | | |r|r]; try by restore_leaf. rewrite restore_object.
    destruct (outside_shape _ _ H) as [f0 ->].
    apply outside_object_inv in H as (? & [= <-] & H). constructor. revert r H.
    induction IH as [|[k o] f Ho _ IHf]; intros r H; [done|]. cbn [fold_left]. apply IHf.
    unfold restore_member. destruct (obj_get k r) as [rv|] eqn:Hk; [|done].
    destruct (exempt k) eqn:He; [|destruct (is_denylisted_key k) eqn:Hd; [done|]];
      apply (insert_Forall2 _ _ _ _ _ _ H Hk); intros [k0 v0] [H1 H2]; cbn in *; subst.
    + auto.
    + split; [done|]. right. right. split; [done|]. apply Ho.
      destruct H2 as [?|[->|[_ ?]]]; [congruence|constructor|done].
Qed.

(** ** An exempt member is its own redaction *)

Lemma fold_other rec keep k f red :
  k ∉ map fst f -> obj_get k (fold_left (restore_member rec keep) f red) = obj_get k red.
Proof using.
  revert red. induction f as [|[k' o] f IH]; intros red H; [done|]. cbn in *.
  rewrite IH by (intros Hin; apply H; by constructor).
  assert (Hne : k' <> k) by (intros ->; apply H; by constructor).
  unfold restore_member. destruct (obj_get k' red); [|done].
  destruct (exempt k'), (negb (is_denylisted_key k')); try done; rewrite obj_get_insert;
    by destruct (String.eqb_spec k' k).
Qed.

Lemma fold_exempt rec keep k o rv f red :
  NoDup (map fst f) -> exempt k = true -> obj_get k f = Some o -> obj_get k red = Some rv ->
  obj_get k (fold_left (restore_member rec keep) f red) = Some (keep o).
Proof using.
  revert red. induction f as [|[k' o'] f IH]; intros red Hnd He Hk Hr; [done|].
  cbn [obj_get map fst fold_left] in *. apply list.NoDup_cons in Hnd as [Hni Hnd].
  destruct (String.eqb_spec k' k) as [->|Hne]; simplify_eq.
  - rewrite fold_other by done. cbn [restore_member]. rewrite Hr, He, obj_get_insert.
    by rewrite String.eqb_refl.
  - apply IH; try done. cbn [restore_member]. destruct (obj_get k' red); [|done].
    destruct (exempt k'), (negb (is_denylisted_key k')); try done; rewrite obj_get_insert;
      by destruct (String.eqb_spec k' k).
Qed.

Lemma keys_get {A B} k (f : list (string * A)) (f' : list (string * B)) v :
  map fst f' = map fst f -> obj_get k f = Some v -> exists v', obj_get k f' = Some v'.
Proof.
  revert f'. induction f as [|[k0 v0] f IH]; intros [|[k1 v1] f'] Hm H; simplify_eq/=.
  destruct (String.eqb k0 k); eauto.
Qed.

(** The redaction of a value on its own, under the neutral wrapper. *)
Definition redacted_alone (o : Value) : option Value :=
  value_get "value" (redact_json_preserving_server_fields (Object [("value", o)])).

Lemma redacted_alone_kept o : redacted_alone o = Some (kept restore o).
Proof using RL.
  unfold redacted_alone, redact_json_preserving_server_fields, kept.
  change (restore_exempt_fields _ ?a ?b) with (restore a b).
  destruct (redact_members [("value", o)]) as (f' & E & Hf).
  rewrite E. destruct (keys_get "value" [("value", o)] f' o Hf) as [v' Hv']; [done|].
  rewrite restore_object. cbn [fold_left value_get].
  unfold restore_member. rewrite Hv'. change (exempt "value") with false. cbn match.
  rewrite neutral_wrapper. cbn [negb]. by rewrite obj_get_insert, String.eqb_refl.
Qed.

(** C29: Exempting server-defined fields never undoes the redaction: what the
    server hands out shows no secret and masks every denylisted key but the
    exempt ones; nothing outside the exempt keys differs from the redactor's
    own output; and an exempt member is exactly what its value redacts to on
    its own, never the original. *)
Theorem exemptions_stay_redacted v :
  let out := redact_json_preserving_server_fields v in
  safe exempt out = true /\
  outside_exempt (redact_json_value v) out /\
  (forall f k o, v = Object f -> NoDup (map fst f) -> exempt k = true -> obj_get k f = Some o ->
     value_get k out = redacted_alone o).
Proof using RL.
  unfold redact_json_preserving_server_fields.
  change (restore_exempt_fields _ ?a ?b) with (restore a b). cbn zeta. split_and!.
  - apply restore_safe, safe_weaken, redact_safe.
  - apply restore_outside. constructor.
  - intros f k o -> Hnd He Hk. rewrite redacted_alone_kept.
    destruct (redact_members f) as (f' & -> & Hf'). rewrite restore_object.
    destruct (keys_get k f f' o Hf' Hk) as [rv Hrv]. cbn.
    by eapply fold_exempt.
Qed.

End safe.

(** ** A redactor *)

Module DemoRedactor.

Definition REDACTED : string := "[REDACTED]".
#[export] Instance demo_denylist : Denylist := {
  is_denylisted_key k :=
    existsb (fun term => contains term k) ["password"; "secret"; "token"; "session"; "cookie"]
}.
#[export] Instance demo_exposure : Exposure := {
  exposes := contains "$9$";
  masked v := bool_decide (v = Str REDACTED)
}.

Fixpoint redact (v : Value) : Value :=
  match v with
  | Str s => if contains "$9$" s then Str REDACTED else v
  | Array l => Array (map redact l)
  | Object f =>
      Object (map (fun kv =>
        (kv.1, if is_denylisted_key kv.1 then Str REDACTED else redact kv.2)) f)
  | _ => v
  end.

#[export] Instance demo_redactor : Redactor := {
  redact_text s := if contains "$9$" s then REDACTED else s;
  redact_xml_str _ := None;
  redact_json_value := redact
}.

#[export] Instance demo_redactor_laws : RedactorLaws.
Proof.
  split; cbn.
  - intros v. induction v as [| | | |s|l IH|f IH] using Value_ind'; cbn [redact safe]; try done.
    + by destruct (contains "$9$" s) eqn:E; cbn; [|rewrite E].
    + apply forallb_forall. intros x Hx. rewrite List.Forall_forall in IH.
      apply in_map_iff in Hx as (y & <- & Hy). auto.
    + apply forallb_forall. intros x Hx. rewrite List.Forall_forall in IH.
      apply in_map_iff in Hx as (y & <- & Hy). cbn [fst snd]. rewrite andb_true_r.
      destruct (is_denylisted_key y.1); [done|auto].
  - intros f. eexists. split; [done|]. rewrite map_map. done.
  - intros v allowed H%bool_decide_eq_true. by subst.
  - done.
Qed.

(** A table of sessions with a password in a row, and a token that is not one. *)
Definition table : Value :=
  Object [("hostname", Str "srx1");
          ("sessions", Array [Object [("session_id", Number 7); ("password", Str "hunter2")]]);
          ("confirmation_token", Str "t")].

Example table_redacted :
  redact_json_preserving_server_fields table =
  Object [("hostname", Str "srx1");
          ("sessions", Array [Object [("session_id", Number 7); ("password", Str REDACTED)]]);
          ("confirmation_token", Str REDACTED)].
Proof. by vm_compute. Qed.

Lemma exemptions_stay_redacted_witness :
  safe exempt (redact_json_preserving_server_fields table) = true /\
  value_get "sessions" (redact_json_preserving_server_fields table) =
    redacted_alone (Array [Object [("session_id", Number 7); ("password", Str "hunter2")]]).
Proof.
  destruct (exemptions_stay_redacted table) as (Hs & _ & Hk). split; [exact Hs|].
  refine (Hk _ "sessions" _ eq_refl _ eq_refl eq_refl). apply (bool_decide_unpack _). by vm_compute.
Defined.

End DemoRedactor.
