(* ===== verification/ServerAudit.v ===== *)
(** * Requests, audit scopes and the gates of the server ([rust-junosmcp/src/server.rs])

    A handler serves one call in the server's state: the core's own state and
    the audit log.  It opens an [AuditScope] before anything else and the scope
    is written to the log when it is dropped, which is when the handler ends,
    whichever way.  [mecmcp_audit] writes the log: what is modelled of a scope is
    the sequence of calls the server makes on it.  The gates are the checks the
    handlers share: tool scope, router scope, direct commit, known caller. *)

From S2P Require Import Prelude RustStr Fmt Errors Helpers Inventory JsonValue Async.
From S2P Require Import JunosTransaction ConfigTools Auth Redaction.
From Stdlib Require Import Ascii.

(** ** Audit scopes *)

Inductive ScopeCall :=
  | Meta (key : string) (value : Value)
  | Deny (reason : string)
  | DirectCommitCheck
  | Succeed
  | FailKind (kind message : string).

Record AuditScope {C : Caller} := {
  as_caller : option CallerCtx;
  as_tool : string;
  as_action : string;
  as_devices : list string;
  as_calls : list ScopeCall
}.
Arguments AuditScope : clear implicits.

Record Served (C : Caller) (S : Type) := mk_served { sv_log : list (AuditScope C); sv_core : S }.
Arguments mk_served {C S}. Arguments sv_log {C S}. Arguments sv_core {C S}.
Record Open (C : Caller) (S : Type) := mk_open { op_scope : AuditScope C; op_core : S }.
Arguments mk_open {C S}. Arguments op_scope {C S}. Arguments op_core {C S}.

(** A handler ends with a reply, with a protocol error, or panics. *)
Inductive Stop := RpcError (e : ErrorData) | PanicStop (msg : string).

Inductive RouterAccess := Allowed | AllowedUnknown | DeniedInScopePresent | DeniedUnknown.

Definition classify_router_access (allows in_inventory : bool) : RouterAccess :=
  match allows, in_inventory with
  | true, true => Allowed
  | true, false => AllowedUnknown
  | false, true => DeniedInScopePresent
  | false, false => DeniedUnknown
  end.

Inductive ScopeError :=
  | ToolNotInScope (token tool : string)
  | RouterNotInScope (token router tool : string).

Definition scope_error_to_string (e : ScopeError) : string :=
  match e with
  | ToolNotInScope token tool =>
      "token '" ^^ token ^^ "' is not authorized for tool '" ^^ tool ^^ "'"
  | RouterNotInScope token router tool =>
      "token '" ^^ token ^^ "' is not authorized for router '" ^^ router
      ^^ "' (tool '" ^^ tool ^^ "')"
  end.

Definition scope_to_call_result (e : ScopeError) : CallToolResult :=
  error_result [TextBlock (scope_error_to_string e)].

(** [format!("req-{nanos}")]; a clock before the epoch counts as zero. *)
Definition mint_request_id (since_epoch : option N) : string :=
  "req-" ^^ dec (default 0%N since_epoch).

Section audit.
Context {C : Caller} {X : External}.

Definition audit_scope (ctx : option CallerCtx) (tool action : string) (devices : list string)
  : AuditScope C :=
  {| as_caller := ctx; as_tool := tool; as_action := action; as_devices := devices;
     as_calls := [] |}.
Definition scope_call (c : ScopeCall) (s : AuditScope C) : AuditScope C :=
  {| as_caller := as_caller s; as_tool := as_tool s; as_action := as_action s;
     as_devices := as_devices s; as_calls := as_calls s ++ [c] |}.

Definition check_tool_scope (ctx : option CallerCtx) (tool : string) : option ScopeError :=
  match ctx with
  | Some c => if negb (allows_tool c tool WRITE_TOOLS)
              then Some (ToolNotInScope (token_name c) tool) else None
  | None => None
  end.

(** The classification only chooses the line that is logged. *)
Definition router_access (inv : Inventory) (ctx : option CallerCtx) (router : string)
  : RouterAccess :=
  classify_router_access
    (match ctx with Some c => allows_device c router | None => true end)
    (contains_router inv router).

Definition check_router_scope (ctx : option CallerCtx) (tool router : string)
  : option ScopeError :=
  match ctx with
  | Some c => if negb (allows_device c router)
              then Some (RouterNotInScope (token_name c) router tool) else None
  | None => None
  end.

Definition filter_tools_for_scope {T} (name : T -> string) (tools : list T)
    (ctx : option CallerCtx) : list T :=
  match ctx with
  | None => tools
  | Some c => List.filter (fun t => allows_tool c (name t) WRITE_TOOLS) tools
  end.

(** ** Handlers *)

Context {S : Type}.

Definition Endpoint : Type := Act (Served C S) CallToolResult Stop.
Definition Body (T : Type) : Type := Act (Open C S) T Stop.

(** [let mut audit = audit_scope(..); body]: the scope is dropped at the end. *)
Definition audited (scope : AuditScope C) (body : Body CallToolResult) : Endpoint := fun w =>
  let (r, w') := body (mk_world (w_now w) (w_cancel_at w)
                         (mk_open scope (sv_core (w_backend w)))) in
  (r, mk_world (w_now w') (w_cancel_at w')
        (mk_served (sv_log (w_backend w) ++ [op_scope (w_backend w')]) (op_core (w_backend w')))).

Definition reply (r : CallToolResult) : Body CallToolResult := act_ret (Ok r).
Definition note (c : ScopeCall) : Body unit :=
  act_state (fun o => mk_open (scope_call c (op_scope o)) (op_core o)).
Fixpoint notes (metas : list (string * Value)) : Body unit :=
  match metas with
  | [] => act_ret (Ok tt)
  | (k, v) :: metas => let! _ := note (Meta k v) in notes metas
  end.
Definition read_core {T} (f : S -> T) : Body T := act_get (fun o => Ok (f (op_core o))).

(** Work on the core's state, the scope untouched. *)
Definition on_core {T E} (m : Act S T E) : Act (Open C S) T E := fun w =>
  let (r, w') := m (mk_world (w_now w) (w_cancel_at w) (op_core (w_backend w))) in
  (r, mk_world (w_now w') (w_cancel_at w') (mk_open (op_scope (w_backend w)) (w_backend w'))).

(** [tool.await], a panic of the tool unwinding the handler. *)
Definition run_tool {T} (tool : Act S Value ToolStop) (k : Result Value JmcpError -> Body T)
  : Body T :=
  act_bind (on_core tool) (fun r =>
    match r with
    | Ok v => k (Ok v)
    | Err (Failed e) => k (Err e)
    | Err (Panicked m) => act_ret (Err (PanicStop m))
    end).

(** ** The gates: an early return each *)

Context {Re : Redactor} {DL : Denylist} {JT : JsonText}.
(** [DirectCommitPolicy::check] of the policy the server was started with. *)
Context (direct_commit : AuditScope C -> Result unit DirectCommitRefused).

Definition refuse (reason : string) (e : ScopeError) : Body CallToolResult :=
  let! _ := note (Deny reason) in reply (scope_to_call_result e).

Definition tool_gate (ctx : option CallerCtx) (tool : string) (k : Body CallToolResult)
  : Body CallToolResult :=
  match check_tool_scope ctx tool with Some e => refuse "tool_scope" e | None => k end.

Definition router_gate (ctx : option CallerCtx) (tool router : string) (k : Body CallToolResult)
  : Body CallToolResult :=
  match check_router_scope ctx tool router with Some e => refuse "router_scope" e | None => k end.

(** [for r in &devices { if let Err(e) = check_router_scope(..) { .. return } }] *)
Fixpoint routers_gate (ctx : option CallerCtx) (tool : string) (routers : list string)
    (k : Body CallToolResult) : Body CallToolResult :=
  match routers with
  | [] => k
  | r :: routers => router_gate ctx tool r (routers_gate ctx tool routers k)
  end.

(** [if needed && let Err(e) = self.direct_commit.check(&mut audit) { return .. }] *)
Definition direct_commit_gate (needed : bool) (k : Body CallToolResult) : Body CallToolResult :=
  if needed then
    let! scope := (act_get (fun o => Ok (op_scope o)) : Body (AuditScope C)) in
    let! _ := note DirectCommitCheck in
    match direct_commit scope with
    | Err e => reply (to_call_result (Err (DirectCommitDisabled e)))
    | Ok _ => k
    end
  else k.

Definition needs_authentication (tool : string) : JmcpError :=
  Validation (tool ^^ " requires authentication; not available on stdio or with --allow-no-auth").

(** [let Some(ctx_val) = ctx else { audit.deny("no_auth"); return .. }] *)
Definition caller_gate (ctx : option CallerCtx) (tool : string)
    (k : CallerCtx -> Body CallToolResult) : Body CallToolResult :=
  match ctx with
  | Some c => k c
  | None =>
      let! _ := note (Deny "no_auth") in
      reply (to_call_result (Err (needs_authentication tool)))
  end.

(** ** The end of a handler *)

(** [match &result { Ok(v) => { metas; succeed } Err(e) => fail_kind }], then
    [to_call_result]. *)
Definition finish (metas : Value -> list (string * Value)) (result : Result Value JmcpError)
  : Body CallToolResult :=
  let! _ := match result with
            | Ok v => let! _ := notes (metas v) in note Succeed
            | Err e => note (FailKind (audit_kind e) (to_string e))
            end in
  reply (to_call_result result).

(** The same for the two tools that change the inventory. *)
Definition finish_inventory (metas : Value -> list (string * Value))
    (result : Result Value JmcpError) : Body CallToolResult :=
  match result with
  | Err InventoryReadonly =>
      let! _ := note (Deny "inventory_readonly") in reply (to_call_result result)
  | _ => finish metas result
  end.

(** [audit_confirm_meta] *)
Definition audit_confirm_meta (default_mins : N) (caller_mins : option N) : Body unit :=
  match resolve_confirm_timeout default_mins caller_mins with
  | Confirmed mins =>
      notes [("commit_confirmed", Bool true); ("commit_confirm_mins", Number (Z.of_N mins))]
  | OptedOut => notes [("commit_confirmed", Bool false)]
  end.

End audit.
Arguments Endpoint : clear implicits. Arguments Endpoint C S : assert.
