(* ===== verification/ServerTools.v ===== *)
(** * The Junos tools of the server ([rust-junosmcp/src/server.rs])

    One handler per tool: it opens an audit scope, checks the caller's scopes
    and the other gates, runs the core's tool, and turns the result into a
    reply.  What the core offers is the interface [CoreTools], so that what is
    proved of the handlers holds of any core; the core's tools are modelled in
    [ConfigTools], [CommandTools], [Transfer] and the other tool files. *)

From S2P Require Import Prelude RustStr Fmt Errors Helpers Inventory Async JunosTransaction.
From S2P Require Import ChangesetTools ConfigTools Template CommandTools Batch InventoryTools Transfer Fetch Upgrade.
From S2P Require Import Auth Redaction ServerAudit JsonValue.
From Stdlib Require Import Ascii.

(** ** Arguments no other file declares ([tools/mod.rs], [tools/changeset.rs]) *)

Record ConfirmCommitArgs := { cm_device : string; cm_timeout : N }.
Record GetChangeSetStatusArgs := { gs_change_set_id : string; gs_device : string }.
Record ListChangeSetsArgs := { lg_device : option string }.
Record CandidateFingerprintArgs := { fp_device : string }.

(** ** The core *)

Class CoreTools {X : External} (S : Type) := {
  core_inventory : S -> Inventory;
  facts : GatherFactsArgs -> Act S Value ToolStop;
  execute_command : ExecuteCommandArgs -> Act S Value ToolStop;
  get_config_tool : GetConfigArgs -> Act S Value ToolStop;
  config_diff_tool : ConfigDiffArgs -> Act S Value ToolStop;
  load_commit : LoadCommitArgs -> bool -> Act S Value ToolStop;
  commit_check_tool : CommitCheckArgs -> Act S Value ToolStop;
  discard_tool : DiscardCandidateArgs -> Act S Value ToolStop;
  rollback : RollbackConfigArgs -> bool -> Act S Value ToolStop;
  confirm_commit_tool : ConfirmCommitArgs -> Attribution -> Act S Value ToolStop;
  pfe : ExecutePfeArgs -> Act S Value ToolStop;
  batch : ExecuteBatchArgs -> Act S Value ToolStop;
  template : TemplateArgs -> Act S Value ToolStop;
  add_device_tool : AddDeviceArgs -> Act S Value ToolStop;
  reload_devices_tool : ReloadDevicesArgs -> Act S Value ToolStop;
  transfer_tool : TransferFileArgs -> Act S Value ToolStop;
  fetch_tool : FetchFileArgs -> Act S Value ToolStop;
  upgrade_tool : UpgradeJunosArgs -> bool -> string -> Act S Value ToolStop;
  list_staged_tool : ListStagedFilesArgs -> Act S Value ToolStop;
  create_change_set_tool : CreateChangeSetArgs -> Attribution -> Act S Value ToolStop;
  approve_change_set_tool : ApproveChangeSetArgs -> Attribution -> Act S Value ToolStop;
  cancel_change_set_tool : CancelChangeSetArgs -> Attribution -> Act S Value ToolStop;
  apply_change_set_tool : ApplyChangeSetArgs -> Attribution -> Act S Value ToolStop;
  confirm_change_set_tool : ConfirmChangeSetArgs -> Attribution -> Act S Value ToolStop;
  change_set_status : GetChangeSetStatusArgs -> Act S Value ToolStop;
  change_set_status_with_actions : GetChangeSetStatusArgs -> Act S Value ToolStop;
  list_change_sets_tool : ListChangeSetsArgs -> Act S Value ToolStop;
  candidate_fingerprint : CandidateFingerprintArgs -> Act S Value ToolStop
}.

(** The settings a handler reads ([JmcpHandler]), and what the process started
    with. *)
Record JmcpHandler := {
  allow_plane_owned_writes : bool;
  web_enabled_approver : bool;
  authorization_required : bool;
  started : N
}.

Section tools.
Context {C : Caller} {X : External} {Re : Redactor} {DL : Denylist} {JT : JsonText} {Sh : Sha256}.
Context {S : Type} {CT : CoreTools S}.
Context (direct_commit : AuditScope C -> Result unit DirectCommitRefused).
(** [Value::to_string], the server-wide confirm window, the wall clock and
    [mecmcp_audit::Attribution::from_caller] and [stdio]. *)
Context (value_display : Value -> string) (default_confirm_mins : N) (since_epoch : option N).
Context (from_caller : CallerCtx -> Attribution) (stdio : Attribution).
Context (self : JmcpHandler).

#[local] Abbreviation Endpoint := (Endpoint C S).
#[local] Abbreviation direct_commit_gate := (direct_commit_gate direct_commit).

(** ** What the audit records *)

Definition output_bytes (v : Value) : list (string * Value) :=
  [("output_bytes", Number (Z.of_N (len (value_display v))))].
Definition array_count (key field : string) (v : Value) : list (string * Value) :=
  match value_get field v with
  | Some (Array l) => [(key, Number (Z.of_nat (length l)))]
  | _ => []
  end.
Definition str_meta (key : string) (v : Value) : list (string * Value) :=
  match value_get key v with Some (Str s) => [(key, Str s)] | _ => [] end.
Definition rendered_bytes (v : Value) : list (string * Value) :=
  match value_get "rendered" v with
  | Some (Str s) => [("rendered_bytes", Number (Z.of_N (len s)))]
  | _ => []
  end.
Definition device_count (v : Value) : list (string * Value) :=
  match value_get "added" v, value_get "removed" v with
  | Some (Array added), Some (Array removed) =>
      [("device_count", Number (Z.of_nat (length added + length removed)))]
  | _, _ => []
  end.
Definition nothing (v : Value) : list (string * Value) := [].
Definition opt_meta (key : string) (o : option string) : list (string * Value) :=
  match o with Some s => [(key, Str s)] | None => [] end.

Definition config_meta (text : string) : list (string * Value) :=
  [("config_bytes", Number (Z.of_N (len text)));
   ("config_sha256", Str (hex32 (hasher_finalize (hasher_update hasher_new text))))].

Definition MAX_AUDITED : nat := 256.
(** The requested subtree, cut at a character boundary. *)
Definition recorded_path (path : string) : string :=
  if (N.of_nat MAX_AUDITED <? len path)%N
  then str_take (boundary_down path MAX_AUDITED) path ^^ "… (" ^^ dec (len path) ^^ " bytes)"
  else path.

(** ** Listing devices *)

(** [router_list::handle_names], in the core's own state. *)
Definition handle_names (ns : list string) : Act S Value ToolStop :=
  act_ret (Ok (Array (map Str ns))).

Definition list_devices (tool : string) (ctx : option CallerCtx) : Endpoint :=
  audited (audit_scope ctx tool "read" []) (
    tool_gate ctx tool (
      let! inv := read_core core_inventory in
      let ns := filter_device_names ctx (names inv) in
      run_tool (handle_names ns) (finish (array_count "count" "names")))).

Definition get_device_list : option CallerCtx -> Endpoint := list_devices "get_device_list".
Definition get_router_list : option CallerCtx -> Endpoint := list_devices "get_router_list".

(** ** Reading from a device *)

Definition gather_device_facts (ctx : option CallerCtx) (args : GatherFactsArgs) : Endpoint :=
  audited (audit_scope ctx "gather_device_facts" "read" [gf_device args]) (
    tool_gate ctx "gather_device_facts" (
    router_gate ctx "gather_device_facts" (gf_device args) (
      run_tool (facts args) (finish output_bytes)))).

Definition execute_junos_command (ctx : option CallerCtx) (args : ExecuteCommandArgs) : Endpoint :=
  audited (audit_scope ctx "execute_junos_command" "execute" [ec_device args]) (
    tool_gate ctx "execute_junos_command" (
    router_gate ctx "execute_junos_command" (ec_device args) (
      let! _ := note (Meta "command" (Str (ec_command args))) in
      run_tool (execute_command args) (finish output_bytes)))).

Definition get_junos_config (ctx : option CallerCtx) (args : GetConfigArgs) : Endpoint :=
  audited (audit_scope ctx "get_junos_config" "read" [gc_device args]) (
    let! _ := notes (opt_meta "config_path" (option_map recorded_path (gc_config_path args))) in
    tool_gate ctx "get_junos_config" (
    router_gate ctx "get_junos_config" (gc_device args) (
      run_tool (get_config_tool args) (finish output_bytes)))).

Definition junos_config_diff (ctx : option CallerCtx) (args : ConfigDiffArgs) : Endpoint :=
  audited (audit_scope ctx "junos_config_diff" "read" [cd_device args]) (
    tool_gate ctx "junos_config_diff" (
    router_gate ctx "junos_config_diff" (cd_device args) (
      run_tool (config_diff_tool args) (finish output_bytes)))).

Definition execute_junos_pfe_command (ctx : option CallerCtx) (args : ExecutePfeArgs) : Endpoint :=
  audited (audit_scope ctx "execute_junos_pfe_command" "execute" [pf_device args]) (
    tool_gate ctx "execute_junos_pfe_command" (
    router_gate ctx "execute_junos_pfe_command" (pf_device args) (
      let! _ := note (Meta "command" (Str (pf_command args))) in
      run_tool (pfe args) (finish output_bytes)))).

Definition execute_junos_command_batch (ctx : option CallerCtx) (args : ExecuteBatchArgs)
  : Endpoint :=
  audited (audit_scope ctx "execute_junos_command_batch" "execute-batch" (b_devices args)) (
    tool_gate ctx "execute_junos_command_batch" (
    routers_gate ctx "execute_junos_command_batch" (b_devices args) (
      let! _ := note (Meta "command_count" (Number (Z.of_nat (length (b_commands args))))) in
      run_tool (batch args) (finish nothing)))).

(** ** Changing a device's configuration *)

Definition load_and_commit_config (ctx : option CallerCtx) (args : LoadCommitArgs) : Endpoint :=
  audited (audit_scope ctx "load_and_commit_config" "commit" [lc_device args]) (
    tool_gate ctx "load_and_commit_config" (
    router_gate ctx "load_and_commit_config" (lc_device args) (
    direct_commit_gate true (
      let! _ := notes (config_meta (lc_config_text args)) in
      let! _ := audit_confirm_meta default_confirm_mins (lc_confirm_timeout_mins args) in
      let! _ := note (Meta "comment_present" (Bool (negb (is_empty (lc_commit_comment args))))) in
      run_tool (load_commit args (allow_plane_owned_writes self)) (finish nothing))))).

Definition commit_check_config (ctx : option CallerCtx) (args : CommitCheckArgs) : Endpoint :=
  audited (audit_scope ctx "commit_check_config" "commit-check" [cc_device args]) (
    tool_gate ctx "commit_check_config" (
    router_gate ctx "commit_check_config" (cc_device args) (
      let! _ := notes (config_meta (cc_config_text args)) in
      run_tool (commit_check_tool args) (finish nothing)))).

Definition discard_candidate (ctx : option CallerCtx) (args : DiscardCandidateArgs) : Endpoint :=
  audited (audit_scope ctx "discard_candidate" "discard" [dc_device args]) (
    tool_gate ctx "discard_candidate" (
    router_gate ctx "discard_candidate" (dc_device args) (
      run_tool (discard_tool args) (finish nothing)))).

Definition rollback_config (ctx : option CallerCtx) (args : RollbackConfigArgs) : Endpoint :=
  audited (audit_scope ctx "rollback_config" (if rb_commit args then "commit" else "preview")
             [rb_device args]) (
    tool_gate ctx "rollback_config" (
    router_gate ctx "rollback_config" (rb_device args) (
    direct_commit_gate (rb_commit args) (
      let! _ := note (Meta "version" (Str (display_Z (rb_version args)))) in
      let! _ := if rb_commit args
                then audit_confirm_meta default_confirm_mins (rb_confirm_timeout_mins args)
                else notes [] in
      run_tool (rollback args (allow_plane_owned_writes self)) (finish nothing))))).

Definition confirm_commit (ctx : option CallerCtx) (args : ConfirmCommitArgs) : Endpoint :=
  audited (audit_scope ctx "confirm_commit" "commit" [cm_device args]) (
    tool_gate ctx "confirm_commit" (
    router_gate ctx "confirm_commit" (cm_device args) (
    direct_commit_gate true (
      let attribution := match ctx with Some c => from_caller c | None => stdio end in
      run_tool (confirm_commit_tool args attribution) (finish nothing))))).

(** The devices a template call names. *)
Definition resolved (args : TemplateArgs) : list string :=
  match Template.device_name args, Template.device_names args with
  | Some one, None => [one]
  | None, Some many => many
  | _, _ => []
  end.
Definition will_commit (args : TemplateArgs) : bool := apply_config args && negb (dry_run args).
Definition var_count (args : TemplateArgs) : list (string * Value) :=
  match json_from_str (vars_content args) with
  | Ok (Object vars) => [("var_count", Number (Z.of_nat (length vars)))]
  | _ => []
  end.

Definition render_and_apply_j2_template (ctx : option CallerCtx) (args : TemplateArgs) : Endpoint :=
  audited (audit_scope ctx "render_and_apply_j2_template" "apply" (resolved args)) (
    tool_gate ctx "render_and_apply_j2_template" (
    routers_gate ctx "render_and_apply_j2_template" (resolved args) (
    direct_commit_gate (apply_config args && negb (dry_run args)) (
      let! _ := notes (var_count args) in
      let! _ := note (Meta "committed" (Bool (will_commit args))) in
      let! _ := if will_commit args
                then audit_confirm_meta default_confirm_mins (confirm_timeout_mins args)
                else notes [] in
      run_tool (template args) (finish rendered_bytes))))).

(** ** The inventory *)

Definition auth_kind (a : AuthConfig) : string :=
  match a with Password _ => "password" | SshKey _ => "ssh_key" end.

Definition add_device (ctx : option CallerCtx) (args : AddDeviceArgs) : Endpoint :=
  audited (audit_scope ctx "add_device" "add-device" []) (
    tool_gate ctx "add_device" (
      let! _ := notes (opt_meta "name" (InventoryTools.device_name args)) in
      let! _ := notes (opt_meta "host" (device_ip args)) in
      let! _ := notes (opt_meta "auth_kind" (option_map auth_kind (auth args))) in
      run_tool (add_device_tool args) (finish_inventory nothing))).

Definition reload_devices (ctx : option CallerCtx) (args : ReloadDevicesArgs) : Endpoint :=
  audited (audit_scope ctx "reload_devices" "reload-inventory" []) (
    tool_gate ctx "reload_devices" (
      run_tool (reload_devices_tool args) (finish_inventory device_count))).

(** ** Files and upgrades *)

Definition transfer_file (ctx : option CallerCtx) (args : TransferFileArgs) : Endpoint :=
  audited (audit_scope ctx "transfer_file" "transfer" [tf_device args]) (
    tool_gate ctx "transfer_file" (
    router_gate ctx "transfer_file" (tf_device args) (
      let! _ := note (Meta "basename" (Str (tf_source_path args))) in
      run_tool (transfer_tool args) (finish (str_meta "sha256"))))).

Definition fetch_file (ctx : option CallerCtx) (args : FetchFileArgs) : Endpoint :=
  audited (audit_scope ctx "fetch_file" "fetch" [ff_device args]) (
    tool_gate ctx "fetch_file" (
    router_gate ctx "fetch_file" (ff_device args) (
      let! _ := note (Meta "basename" (Str (ff_remote_path args))) in
      run_tool (fetch_tool args) (finish (str_meta "sha256"))))).

Definition upgrade_junos (ctx : option CallerCtx) (args : UpgradeJunosArgs) : Endpoint :=
  audited (audit_scope ctx "upgrade_junos" "upgrade" [up_device args]) (
    tool_gate ctx "upgrade_junos" (
    router_gate ctx "upgrade_junos" (up_device args) (
    direct_commit_gate (up_confirm args) (
      let! _ := note (Meta "basename" (Str (up_source_path args))) in
      let! _ := note (Meta "target_version" (Str (up_target_version args))) in
      let correlation_id := mint_request_id since_epoch in
      run_tool (upgrade_tool args (allow_plane_owned_writes self) correlation_id)
        (finish nothing))))).

Definition list_staged_files (ctx : option CallerCtx) (args : ListStagedFilesArgs) : Endpoint :=
  let devices := match ls_device args with Some d => [d] | None => [] end in
  audited (audit_scope ctx "list_staged_files" "read" devices) (
    tool_gate ctx "list_staged_files" (
    routers_gate ctx "list_staged_files" devices (
      run_tool (list_staged_tool args) (finish (array_count "count" "staged_files"))))).

(** ** Change sets *)

Definition create_junos_change_set (ctx : option CallerCtx) (args : CreateChangeSetArgs)
  : Endpoint :=
  audited (audit_scope ctx "create_junos_change_set" "create" [cr_device args]) (
    tool_gate ctx "create_junos_change_set" (
    router_gate ctx "create_junos_change_set" (cr_device args) (
    caller_gate ctx "create_junos_change_set" (fun c =>
      run_tool (create_change_set_tool args (from_caller c)) (finish nothing))))).

Definition approve_junos_change_set (ctx : option CallerCtx) (args : ApproveChangeSetArgs)
  : Endpoint :=
  audited (audit_scope ctx "approve_junos_change_set" "approve" [pr_device args]) (
    tool_gate ctx "approve_junos_change_set" (
    router_gate ctx "approve_junos_change_set" (pr_device args) (
    caller_gate ctx "approve_junos_change_set" (fun c =>
      run_tool (approve_change_set_tool args (from_caller c)) (finish nothing))))).

Definition cancel_junos_change_set (ctx : option CallerCtx) (args : CancelChangeSetArgs)
  : Endpoint :=
  audited (audit_scope ctx "cancel_junos_change_set" "cancel" [ca_device args]) (
    tool_gate ctx "cancel_junos_change_set" (
    router_gate ctx "cancel_junos_change_set" (ca_device args) (
    caller_gate ctx "cancel_junos_change_set" (fun c =>
      run_tool (cancel_change_set_tool args (from_caller c)) (finish nothing))))).

Definition apply_junos_change_set (ctx : option CallerCtx) (args : ApplyChangeSetArgs)
  : Endpoint :=
  audited (audit_scope ctx "apply_junos_change_set" "apply" [aa_device args]) (
    tool_gate ctx "apply_junos_change_set" (
    router_gate ctx "apply_junos_change_set" (aa_device args) (
    caller_gate ctx "apply_junos_change_set" (fun c =>
      let! _ := audit_confirm_meta default_confirm_mins (aa_confirm_timeout_mins args) in
      run_tool (apply_change_set_tool args (from_caller c)) (finish nothing))))).

Definition confirm_junos_change_set (ctx : option CallerCtx) (args : ConfirmChangeSetArgs)
  : Endpoint :=
  audited (audit_scope ctx "confirm_junos_change_set" "commit" [cf_device args]) (
    tool_gate ctx "confirm_junos_change_set" (
    router_gate ctx "confirm_junos_change_set" (cf_device args) (
    caller_gate ctx "confirm_junos_change_set" (fun c =>
      run_tool (confirm_change_set_tool args (from_caller c)) (finish nothing))))).

Definition get_junos_candidate_fingerprint (ctx : option CallerCtx)
    (args : CandidateFingerprintArgs) : Endpoint :=
  audited (audit_scope ctx "get_junos_candidate_fingerprint" "read" [fp_device args]) (
    tool_gate ctx "get_junos_candidate_fingerprint" (
    router_gate ctx "get_junos_candidate_fingerprint" (fp_device args) (
      run_tool (candidate_fingerprint args) (finish nothing)))).

Definition get_junos_change_set_status (ctx : option CallerCtx) (args : GetChangeSetStatusArgs)
  : Endpoint :=
  audited (audit_scope ctx "get_junos_change_set_status" "read" [gs_device args]) (
    tool_gate ctx "get_junos_change_set_status" (
    router_gate ctx "get_junos_change_set_status" (gs_device args) (
      run_tool (if web_enabled_approver self then change_set_status_with_actions args
                else change_set_status args) (finish nothing)))).

(** No router gate: the tool is relied on to filter. *)
Definition list_junos_change_sets (ctx : option CallerCtx) (args : ListChangeSetsArgs)
  : Endpoint :=
  let devices := match lg_device args with Some d => [d] | None => [] end in
  audited (audit_scope ctx "list_junos_change_sets" "read" devices) (
    tool_gate ctx "list_junos_change_sets" (
      run_tool (list_change_sets_tool args) (finish nothing))).

(** ** The tools by name *)

Inductive JunosCall :=
  | GetDeviceList | GetRouterList
  | GatherDeviceFacts (a : GatherFactsArgs) | ExecuteJunosCommand (a : ExecuteCommandArgs)
  | GetJunosConfig (a : GetConfigArgs) | JunosConfigDiff (a : ConfigDiffArgs)
  | LoadAndCommitConfig (a : LoadCommitArgs) | CommitCheckConfig (a : CommitCheckArgs)
  | DiscardCandidate (a : DiscardCandidateArgs) | RollbackConfig (a : RollbackConfigArgs)
  | ConfirmCommit (a : ConfirmCommitArgs) | ExecuteJunosPfeCommand (a : ExecutePfeArgs)
  | ExecuteJunosCommandBatch (a : ExecuteBatchArgs)
  | RenderAndApplyJ2Template (a : TemplateArgs)
  | AddDevice (a : AddDeviceArgs) | ReloadDevices (a : ReloadDevicesArgs)
  | TransferFile (a : TransferFileArgs) | FetchFile (a : FetchFileArgs)
  | UpgradeJunos (a : UpgradeJunosArgs) | ListStagedFiles (a : ListStagedFilesArgs)
  | CreateJunosChangeSet (a : CreateChangeSetArgs) | ApproveJunosChangeSet (a : ApproveChangeSetArgs)
  | CancelJunosChangeSet (a : CancelChangeSetArgs) | ApplyJunosChangeSet (a : ApplyChangeSetArgs)
  | ConfirmJunosChangeSet (a : ConfirmChangeSetArgs)
  | GetJunosChangeSetStatus (a : GetChangeSetStatusArgs)
  | ListJunosChangeSets (a : ListChangeSetsArgs)
  | GetJunosCandidateFingerprint (a : CandidateFingerprintArgs).

(** The [name] of each [#[tool]] attribute. *)
Definition junos_name (c : JunosCall) : string :=
  match c with
  | GetDeviceList => "get_device_list" | GetRouterList => "get_router_list"
  | GatherDeviceFacts _ => "gather_device_facts"
  | ExecuteJunosCommand _ => "execute_junos_command"
  | GetJunosConfig _ => "get_junos_config" | JunosConfigDiff _ => "junos_config_diff"
  | LoadAndCommitConfig _ => "load_and_commit_config"
  | CommitCheckConfig _ => "commit_check_config"
  | DiscardCandidate _ => "discard_candidate" | RollbackConfig _ => "rollback_config"
  | ConfirmCommit _ => "confirm_commit"
  | ExecuteJunosPfeCommand _ => "execute_junos_pfe_command"
  | ExecuteJunosCommandBatch _ => "execute_junos_command_batch"
  | RenderAndApplyJ2Template _ => "render_and_apply_j2_template"
  | AddDevice _ => "add_device" | ReloadDevices _ => "reload_devices"
  | TransferFile _ => "transfer_file" | FetchFile _ => "fetch_file"
  | UpgradeJunos _ => "upgrade_junos" | ListStagedFiles _ => "list_staged_files"
  | CreateJunosChangeSet _ => "create_junos_change_set"
  | ApproveJunosChangeSet _ => "approve_junos_change_set"
  | CancelJunosChangeSet _ => "cancel_junos_change_set"
  | ApplyJunosChangeSet _ => "apply_junos_change_set"
  | ConfirmJunosChangeSet _ => "confirm_junos_change_set"
  | GetJunosChangeSetStatus _ => "get_junos_change_set_status"
  | ListJunosChangeSets _ => "list_junos_change_sets"
  | GetJunosCandidateFingerprint _ => "get_junos_candidate_fingerprint"
  end.

(** The route of a call: its handler. *)
Definition junos_route (ctx : option CallerCtx) (c : JunosCall) : Endpoint :=
  match c with
  | GetDeviceList => get_device_list ctx | GetRouterList => get_router_list ctx
  | GatherDeviceFacts a => gather_device_facts ctx a
  | ExecuteJunosCommand a => execute_junos_command ctx a
  | GetJunosConfig a => get_junos_config ctx a | JunosConfigDiff a => junos_config_diff ctx a
  | LoadAndCommitConfig a => load_and_commit_config ctx a
  | CommitCheckConfig a => commit_check_config ctx a
  | DiscardCandidate a => discard_candidate ctx a | RollbackConfig a => rollback_config ctx a
  | ConfirmCommit a => confirm_commit ctx a
  | ExecuteJunosPfeCommand a => execute_junos_pfe_command ctx a
  | ExecuteJunosCommandBatch a => execute_junos_command_batch ctx a
  | RenderAndApplyJ2Template a => render_and_apply_j2_template ctx a
  | AddDevice a => add_device ctx a | ReloadDevices a => reload_devices ctx a
  | TransferFile a => transfer_file ctx a | FetchFile a => fetch_file ctx a
  | UpgradeJunos a => upgrade_junos ctx a | ListStagedFiles a => list_staged_files ctx a
  | CreateJunosChangeSet a => create_junos_change_set ctx a
  | ApproveJunosChangeSet a => approve_junos_change_set ctx a
  | CancelJunosChangeSet a => cancel_junos_change_set ctx a
  | ApplyJunosChangeSet a => apply_junos_change_set ctx a
  | ConfirmJunosChangeSet a => confirm_junos_change_set ctx a
  | GetJunosChangeSetStatus a => get_junos_change_set_status ctx a
  | ListJunosChangeSets a => list_junos_change_sets ctx a
  | GetJunosCandidateFingerprint a => get_junos_candidate_fingerprint ctx a
  end.

End tools.

(** [SERVER_TOOLS], in declaration order. *)
Definition SERVER_TOOLS : list string :=
  ["get_device_list"; "get_router_list"; "gather_device_facts"; "execute_junos_command";
   "get_junos_config"; "junos_config_diff"; "load_and_commit_config"; "commit_check_config";
   "discard_candidate"; "rollback_config"; "confirm_commit"; "execute_junos_pfe_command";
   "execute_junos_command_batch"; "render_and_apply_j2_template"; "add_device";
   "reload_devices"; "transfer_file"; "fetch_file"; "upgrade_junos"; "list_staged_files";
   "create_junos_change_set"; "approve_junos_change_set"; "cancel_junos_change_set";
   "apply_junos_change_set"; "confirm_junos_change_set"; "get_junos_change_set_status";
   "list_junos_change_sets"; "get_junos_candidate_fingerprint"].
