(* ===== verification/SrxServer.v ===== *)
(** * The SRX tools of the server ([rust-junosmcp/src/server/srx.rs])

    One handler per SRX tool: authorization before any device work, then the
    workflow over an opened device, then the reply.  What the workflows offer is
    the interface [SrxWorkflows]; they are modelled in files of their own
    ([License], [FlowSessions], [SupportBundle] and so on). *)

From S2P Require Import Prelude RustStr Fmt Errors Helpers Inventory Async SrxErrors.
From S2P Require Import SignatureConfirmation License ClusterStatus SrxDevice IdpPackage AppidPackage.
From S2P Require Import BundleStaging SupportBundle.
From S2P Require Import ConfigTools Auth Redaction ServerAudit ServerTools JsonValue.
From Stdlib Require Import Ascii.

(** ** The workflows

    A response is given as the value [serde] serialises it to. *)

Class SrxWorkflows {X : External} (S : Type) := {
  SrxHandle : Type;
  dm_open : string -> Act S SrxHandle JmcpError;
  handle_drop : SrxHandle -> S -> S;
  validate_token : string -> ConfirmationBinding -> Act S ValidatedPlan ConfirmationError;
  run_cluster_status : SrxHandle -> ClusterStatusArgs -> Act S Value SrxError;
  run_services_status : SrxHandle -> ServicesStatusArgs -> Act S Value SrxError;
  run_license : SrxHandle -> LicenseArgs -> Act S Value SrxError;
  run_vpn_lifecycle : SrxHandle -> VpnLifecycleArgs -> Act S Value SrxError;
  run_list_policies : SrxHandle -> PolicyListArgs -> Act S Value SrxError;
  run_resolve_address : SrxHandle -> AddressResolveArgs -> Act S Value SrxError;
  run_resolve_application : SrxHandle -> ApplicationResolveArgs -> Act S Value SrxError;
  run_list_nat_rules : SrxHandle -> NatRulesArgs -> Act S Value SrxError;
  run_cluster_health : SrxHandle -> ClusterHealthArgs -> Act S Value SrxError;
  run_flow_sessions : SrxHandle -> FlowSessionsArgs -> Act S Value SrxError;
  run_policy_match : SrxHandle -> PolicyMatchArgs -> Act S Value SrxError;
  run_support_bundle : SrxHandle -> SupportBundleArgs -> Act S Value SrxError;
  run_idp_package : SrxHandle -> IdpPackageArgs -> option string -> string -> string ->
                    Act S Value SrxError;
  run_appid_package : SrxHandle -> AppidPackageArgs -> option string -> string -> string ->
                      Act S Value SrxError
}.

Inductive SrxScopeError :=
  | MissingCallerContext
  | SrxToolNotInScope (token tool : string)
  | SrxRouterNotInScope (token tool : string).

Definition srx_scope_to_string (e : SrxScopeError) : string :=
  match e with
  | MissingCallerContext =>
      "[code=authorization_context_missing] authenticated request is missing authorization context"
  | SrxToolNotInScope token tool =>
      "[code=tool_scope_denied] token '" ^^ token ^^ "' is not authorized for tool '" ^^ tool ^^ "'"
  | SrxRouterNotInScope token tool =>
      "[code=router_scope_denied] token '" ^^ token
      ^^ "' is not authorized for the requested router (tool '" ^^ tool ^^ "')"
  end.
Definition srx_scope_to_call_result (e : SrxScopeError) : CallToolResult :=
  error_result [TextBlock (srx_scope_to_string e)].
Definition deny_reason (e : SrxScopeError) : string :=
  match e with
  | MissingCallerContext => "missing_caller_context"
  | SrxRouterNotInScope _ _ => "router_scope"
  | SrxToolNotInScope _ _ => "tool_scope"
  end.

Definition is_minted_confirmation_token (t : string) : bool :=
  (len t =? 43)%N &&
  str_forall (fun b => is_ascii_alphanumeric b || Ascii.eqb b "-" || Ascii.eqb b "_") t.

(** ** The handlers' common parts *)

Section srx.
Context {C : Caller} {X : External} {Re : Redactor} {DL : Denylist} {JT : JsonText}.
Context {S : Type} {CT : CoreTools S} {SW : SrxWorkflows S}.
(** [Value]'s and [ErrorData]'s [Display], the clock of the day, the package's
    version. *)
Context (value_display : Value -> string) (error_data_display : ErrorData -> string).
Context (since_epoch : option N) (pkg_version : string).
Context (self : JmcpHandler).

#[local] Abbreviation Endpoint := (Endpoint C S).
#[local] Abbreviation Body := (Body (C := C) (S := S)).
#[local] Abbreviation srx_to_string := (srx_to_string value_display).

Definition check_srx_tool_scope (ctx : option CallerCtx) (tool : string) : option SrxScopeError :=
  match ctx with
  | Some c => if negb (allows_tool c tool WRITE_TOOLS)
              then Some (SrxToolNotInScope (token_name c) tool) else None
  | None => None
  end.

Definition check_srx_router_scope (ctx : option CallerCtx) (tool router : string)
  : option SrxScopeError :=
  match ctx with
  | Some c => if negb (allows_device c router)
              then Some (SrxRouterNotInScope (token_name c) tool) else None
  | None => None
  end.

Definition authorize_call (ctx : option CallerCtx) (tool : string) (router : option string)
  : Result (option CallerCtx) SrxScopeError :=
  match authorization_required self, ctx with
  | true, None => Err MissingCallerContext
  | _, _ =>
      match check_srx_tool_scope ctx tool with
      | Some e => Err e
      | None =>
          match router with
          | Some router =>
              match check_srx_router_scope ctx tool router with
              | Some e => Err e
              | None => Ok ctx
              end
          | None => Ok ctx
          end
      end
  end.

Definition authorized (ctx : option CallerCtx) (tool : string) (router : option string)
    (k : option CallerCtx -> Body CallToolResult) : Body CallToolResult :=
  match authorize_call ctx tool router with
  | Ok c => k c
  | Err e => let! _ := note (Deny (deny_reason e)) in reply (srx_scope_to_call_result e)
  end.

(** [return Err(e)], with the scope's outcome not set. *)
Definition rpc_error {T} (e : ErrorData) : Body T := act_ret (Err (RpcError e)).
Definition or_rpc_error {T E} (conv : E -> ErrorData) (r : Result T E) : Body T :=
  act_ret (map_err (fun e => RpcError (conv e)) r).

(** [let mut device = self.dm.open(router).await.map_err(..)?;]: the handle is
    dropped when the handler ends. *)
Definition with_device {T} (router : string) (k : SrxHandle -> Body T) : Body T :=
  act_bind (on_core (dm_open router)) (fun r =>
    match r with
    | Err e => rpc_error (internal_error ("opening device: " ^^ to_string e) None)
    | Ok device =>
        act_bind (k device) (fun r =>
          let! _ := act_state (fun o => mk_open (op_scope o) (handle_drop device (op_core o))) in
          act_ret r)
    end).

(** How a reading workflow's error reaches the client, and that of the two
    resolvers. *)
Definition read_error (e : SrxError) : ErrorData :=
  match e with
  | SrxInvalidInput _ => invalid_params (srx_to_string e) None
  | _ => internal_error (srx_to_string e) None
  end.
Definition resolve_error (e : SrxError) : ErrorData :=
  match e with
  | SrxInvalidInput _ | ResolutionNameNotFound _ _ _ => invalid_params (srx_to_string e) None
  | _ => internal_error (srx_to_string e) None
  end.
Definition bundle_error (e : SrxError) : ErrorData :=
  match e with
  | SrxInvalidInput _ => invalid_params (srx_to_string e) None
  | BundlePerRouterContention _ => invalid_request (srx_to_string e) None
  | _ => internal_error (srx_to_string e) None
  end.

(** [to_string_pretty(&resp).map_err(|e| internal_error("serializing ..."))] *)
Definition serialized (label : string) (resp : Value) : Result string ErrorData :=
  map_err (fun e => internal_error ("serializing " ^^ label ^^ ": " ^^ json_error_display e) None)
    (json_pretty resp).

(** [match &result { Ok(body) => ..succeed Err(e) => fail_kind("serialize", e) }]
    and the reply. *)
Definition read_reply (label : string) (count_bytes : bool) (resp : Value) : Body CallToolResult :=
  let result := serialized label resp in
  let! _ := match result with
            | Ok body =>
                let! _ := notes (if count_bytes
                                 then [("output_bytes", Number (Z.of_N (len body)))] else []) in
                note Succeed
            | Err e => note (FailKind "serialize" (error_data_display e))
            end in
  act_ret (match result with
           | Ok body => Ok (success [TextBlock body])
           | Err e => Err (RpcError e)
           end).

(** What eleven of the handlers do once their scope is open: authorize, open
    the device, run the workflow, reply. *)
Definition read_tool (ctx : option CallerCtx) (tool router label : string) (count_bytes : bool)
    (conv : SrxError -> ErrorData) (run : SrxHandle -> Act S Value SrxError)
  : Body CallToolResult :=
  authorized ctx tool (Some router) (fun _ =>
    with_device router (fun device =>
      act_bind (on_core (run device)) (fun r =>
        let! resp := or_rpc_error conv r in
        read_reply label count_bytes resp))).

Definition device_identity (inv : Inventory) (router : string) : Result string JmcpError :=
  let? entry := get inv router in
  Ok (router ^^ "|" ^^ ip entry ^^ "|" ^^ dec (port entry) ^^ "|" ^^ username entry).

Definition signature_error_to_rmcp (e : SrxError) : ErrorData :=
  let code := Some (Object [("code", Str (srx_audit_kind e))]) in
  match e with
  | SrxInvalidInput _ => invalid_params (srx_to_string e) None
  | SignaturePackageConfirmationRequired router plan =>
      let token := match plan with Object f => obj_get "confirmation_token" f | _ => None end in
      let plan := match plan with
                  | Object f => Object (obj_remove "confirmation_token" f)
                  | _ => plan
                  end in
      let plan := redact_json_preserving_server_fields plan in
      let plan :=
        match token, plan with
        | Some (Str t), Object f =>
            if is_minted_confirmation_token t
            then Object (obj_insert "confirmation_token" (Str t) f) else plan
        | _, _ => plan
        end in
      invalid_request
        ("[code=confirmation_required] router=" ^^ router
         ^^ ": confirmation required — re-call with confirm=true and the plan's confirmation_token; plan: "
         ^^ value_display plan) code
  | SignaturePackageConfirmationTokenRequired _ | SignaturePackageConfirmationTokenInvalid _ _
  | SignaturePackageConfirmationPlanDrift _ | SignaturePackageConfirmationCapacityExceeded _ =>
      invalid_request (srx_to_string e) code
  | SrxTransport (DeviceLeaseBusy _ _) => invalid_request (srx_to_string e) None
  | _ => internal_error (srx_to_string e) None
  end.

Definition validate_confirmation_request (confirm : bool) (token caller : option string)
    (router device_identity : string) : Act S unit SrxError :=
  act_then (act_ret (confirmation_token_for_request confirm token router)) (fun t =>
    match t with
    | Some token =>
        act_try (into_srx_error router)
          (validate_token token (binding_new caller router device_identity))
          (fun _ => act_ret (Ok tt))
    | None => act_ret (Ok tt)
    end).

(** What the two signature tools do once their scope is open. *)
Definition package_tool (ctx : option CallerCtx) (tool router label : string) (check_server : bool)
    (confirm : bool) (token : option string)
    (run : SrxHandle -> option string -> string -> string -> Act S Value SrxError)
  : Body CallToolResult :=
  authorized ctx tool (Some router) (fun c =>
    let caller := option_map token_name c in
    let request_id := mint_request_id since_epoch in
    let! inv := read_core core_inventory in
    let! identity :=
      or_rpc_error (fun e => invalid_params ("resolving device identity: " ^^ to_string e) None)
        (device_identity inv router) in
    let! _ :=
      if check_server then act_ret (Ok tt) else
      act_bind (on_core (validate_confirmation_request confirm token caller router identity))
        (or_rpc_error signature_error_to_rmcp) in
    with_device router (fun device =>
      act_bind (on_core (run device caller identity request_id)) (fun r =>
        let! _ := note (match r with
                        | Ok _ => Succeed
                        | Err e => FailKind (srx_audit_kind e) (srx_to_string e)
                        end) in
        let! resp := or_rpc_error signature_error_to_rmcp r in
        let! body := or_rpc_error (fun e => e) (serialized label resp) in
        reply (success [TextBlock body])))).

(** ** The handlers *)

Definition srxmcp_status (ctx : option CallerCtx) : Endpoint :=
  audited (audit_scope ctx "srxmcp_status" "read" []) (
    authorized ctx "srxmcp_status" None (fun _ =>
      let! now := (act_now : Body N) in
      read_reply "SrxmcpStatusResponse" false
        (Object [("version", Str pkg_version); ("endpoint", Str "srxmcp");
                 ("uptime_seconds", Number (Z.of_N (as_secs (now - started self))))]))).

Definition get_chassis_cluster_status (ctx : option CallerCtx) (args : ClusterStatusArgs)
  : Endpoint :=
  audited (audit_scope ctx "get_chassis_cluster_status" "read" [cs_router args]) (
    read_tool ctx "get_chassis_cluster_status" (cs_router args) "ClusterStatusData" true
      read_error (fun device => run_cluster_status device args)).

Definition get_srx_security_services_status (ctx : option CallerCtx) (args : ServicesStatusArgs)
  : Endpoint :=
  audited (audit_scope ctx "get_srx_security_services_status" "read" [ss_router args]) (
    read_tool ctx "get_srx_security_services_status" (ss_router args) "ServicesStatusData" true
      read_error (fun device => run_services_status device args)).

(** [{:?}] of a feature *)
Definition feature_debug (f : SrxLicensedFeature) : string :=
  match f with
  | Idp => "Idp" | AppId => "AppId" | UtmAntivirus => "UtmAntivirus"
  | WebFiltering => "WebFiltering" | AntiSpam => "AntiSpam" | SecIntel => "SecIntel"
  | AtpCloud => "AtpCloud" | SslProxy => "SslProxy"
  end.

Definition check_srx_feature_license (ctx : option CallerCtx) (args : LicenseArgs) : Endpoint :=
  audited (audit_scope ctx "check_srx_feature_license" "read" [la_router args]) (
    let! _ := note (Meta "feature" (Str (feature_debug (la_feature args)))) in
    read_tool ctx "check_srx_feature_license" (la_router args) "LicenseData" false
      read_error (fun device => run_license device args)).

Definition vpn_lifecycle_report (ctx : option CallerCtx) (args : VpnLifecycleArgs) : Endpoint :=
  audited (audit_scope ctx "vpn_lifecycle_report" "read" [vl_router args]) (
    read_tool ctx "vpn_lifecycle_report" (vl_router args) "VpnLifecycleData" true
      read_error (fun device => run_vpn_lifecycle device args)).

Definition srx_list_policies (ctx : option CallerCtx) (args : PolicyListArgs) : Endpoint :=
  audited (audit_scope ctx "srx_list_policies" "read" [pl_router args]) (
    read_tool ctx "srx_list_policies" (pl_router args) "PolicyListData" true
      read_error (fun device => run_list_policies device args)).

Definition srx_resolve_address (ctx : option CallerCtx) (args : AddressResolveArgs) : Endpoint :=
  audited (audit_scope ctx "srx_resolve_address" "read" [ar_router args]) (
    read_tool ctx "srx_resolve_address" (ar_router args) "AddressResolution" true
      resolve_error (fun device => run_resolve_address device args)).

Definition srx_resolve_application (ctx : option CallerCtx) (args : ApplicationResolveArgs)
  : Endpoint :=
  audited (audit_scope ctx "srx_resolve_application" "read" [rr_router args]) (
    read_tool ctx "srx_resolve_application" (rr_router args) "ApplicationResolution" true
      resolve_error (fun device => run_resolve_application device args)).

Definition srx_list_nat_rules (ctx : option CallerCtx) (args : NatRulesArgs) : Endpoint :=
  audited (audit_scope ctx "srx_list_nat_rules" "read" [nr_router args]) (
    read_tool ctx "srx_list_nat_rules" (nr_router args) "NatRules" true
      read_error (fun device => run_list_nat_rules device args)).

Definition idp_action_debug (a : IdpAction) : string :=
  match a with
  | IdpCheckServer => "CheckServer" | IdpDownloadAndInstall => "DownloadAndInstall"
  | IdpRollback => "Rollback"
  end.
Definition appid_action_debug (a : AppidAction) : string :=
  match a with
  | AppidCheckServer => "CheckServer" | AppidDownloadAndInstall => "DownloadAndInstall"
  | AppidUninstall => "Uninstall"
  end.

Definition manage_idp_security_package (ctx : option CallerCtx) (args : IdpPackageArgs)
  : Endpoint :=
  audited (audit_scope ctx "manage_idp_security_package" "idp-package"
             [IdpPackage.router args]) (
    let! _ := note (Meta "action" (Str (idp_action_debug (IdpPackage.action args)))) in
    let! _ := notes (opt_meta "target_version" (IdpPackage.version args)) in
    package_tool ctx "manage_idp_security_package" (IdpPackage.router args) "IdpPackageResponse"
      (match IdpPackage.action args with IdpCheckServer => true | _ => false end)
      (IdpPackage.confirm args) (IdpPackage.confirmation_token args)
      (fun device => run_idp_package device args)).

Definition manage_appid_signature_package (ctx : option CallerCtx) (args : AppidPackageArgs)
  : Endpoint :=
  audited (audit_scope ctx "manage_appid_signature_package" "appid-package"
             [AppidPackage.router args]) (
    let! _ := note (Meta "action" (Str (appid_action_debug (AppidPackage.action args)))) in
    package_tool ctx "manage_appid_signature_package" (AppidPackage.router args)
      "AppidPackageResponse"
      (match AppidPackage.action args with AppidCheckServer => true | _ => false end)
      (AppidPackage.confirm args) (AppidPackage.confirmation_token args)
      (fun device => run_appid_package device args)).

Definition validate_chassis_cluster_health (ctx : option CallerCtx) (args : ClusterHealthArgs)
  : Endpoint :=
  audited (audit_scope ctx "validate_chassis_cluster_health" "read" [ch_router args]) (
    read_tool ctx "validate_chassis_cluster_health" (ch_router args) "ClusterHealthData" true
      read_error (fun device => run_cluster_health device args)).

Definition collect_jtac_support_bundle (ctx : option CallerCtx) (args : SupportBundleArgs)
  : Endpoint :=
  audited (audit_scope ctx "collect_jtac_support_bundle" "collect" [sb_router args]) (
    authorized ctx "collect_jtac_support_bundle" (Some (sb_router args)) (fun _ =>
      let! _ := or_rpc_error (fun e => invalid_params (srx_to_string e) None)
                  (validate_path_inputs args) in
      with_device (sb_router args) (fun device =>
        act_bind (on_core (run_support_bundle device args)) (fun r =>
          let! _ := note (match r with
                          | Ok _ => Succeed
                          | Err e => FailKind (srx_audit_kind e) (srx_to_string e)
                          end) in
          let! resp := or_rpc_error bundle_error r in
          let! body := or_rpc_error (fun e => e) (serialized "SupportBundleData" resp) in
          reply (success [TextBlock body]))))).

Definition srx_flow_sessions (ctx : option CallerCtx) (args : FlowSessionsArgs) : Endpoint :=
  audited (audit_scope ctx "srx_flow_sessions" "read" [fs_router args]) (
    read_tool ctx "srx_flow_sessions" (fs_router args) "FlowSessionQuery" true
      read_error (fun device => run_flow_sessions device args)).

Definition srx_policy_match (ctx : option CallerCtx) (args : PolicyMatchArgs) : Endpoint :=
  audited (audit_scope ctx "srx_policy_match" "read" [pm_router args]) (
    read_tool ctx "srx_policy_match" (pm_router args) "PolicyMatchResult" true
      read_error (fun device => run_policy_match device args)).

(** ** The tools by name *)

Inductive SrxCall :=
  | SrxmcpStatus
  | GetChassisClusterStatus (a : ClusterStatusArgs)
  | GetSrxSecurityServicesStatus (a : ServicesStatusArgs)
  | CheckSrxFeatureLicense (a : LicenseArgs)
  | VpnLifecycleReport (a : VpnLifecycleArgs)
  | SrxListPolicies (a : PolicyListArgs)
  | SrxResolveAddress (a : AddressResolveArgs)
  | SrxResolveApplication (a : ApplicationResolveArgs)
  | SrxListNatRules (a : NatRulesArgs)
  | ManageIdpSecurityPackage (a : IdpPackageArgs)
  | ManageAppidSignaturePackage (a : AppidPackageArgs)
  | ValidateChassisClusterHealth (a : ClusterHealthArgs)
  | CollectJtacSupportBundle (a : SupportBundleArgs)
  | SrxFlowSessions (a : FlowSessionsArgs)
  | SrxPolicyMatch (a : PolicyMatchArgs).

Definition srx_name (c : SrxCall) : string :=
  match c with
  | SrxmcpStatus => "srxmcp_status"
  | GetChassisClusterStatus _ => "get_chassis_cluster_status"
  | GetSrxSecurityServicesStatus _ => "get_srx_security_services_status"
  | CheckSrxFeatureLicense _ => "check_srx_feature_license"
  | VpnLifecycleReport _ => "vpn_lifecycle_report"
  | SrxListPolicies _ => "srx_list_policies"
  | SrxResolveAddress _ => "srx_resolve_address"
  | SrxResolveApplication _ => "srx_resolve_application"
  | SrxListNatRules _ => "srx_list_nat_rules"
  | ManageIdpSecurityPackage _ => "manage_idp_security_package"
  | ManageAppidSignaturePackage _ => "manage_appid_signature_package"
  | ValidateChassisClusterHealth _ => "validate_chassis_cluster_health"
  | CollectJtacSupportBundle _ => "collect_jtac_support_bundle"
  | SrxFlowSessions _ => "srx_flow_sessions"
  | SrxPolicyMatch _ => "srx_policy_match"
  end.

Definition srx_route (ctx : option CallerCtx) (c : SrxCall) : Endpoint :=
  match c with
  | SrxmcpStatus => srxmcp_status ctx
  | GetChassisClusterStatus a => get_chassis_cluster_status ctx a
  | GetSrxSecurityServicesStatus a => get_srx_security_services_status ctx a
  | CheckSrxFeatureLicense a => check_srx_feature_license ctx a
  | VpnLifecycleReport a => vpn_lifecycle_report ctx a
  | SrxListPolicies a => srx_list_policies ctx a
  | SrxResolveAddress a => srx_resolve_address ctx a
  | SrxResolveApplication a => srx_resolve_application ctx a
  | SrxListNatRules a => srx_list_nat_rules ctx a
  | ManageIdpSecurityPackage a => manage_idp_security_package ctx a
  | ManageAppidSignaturePackage a => manage_appid_signature_package ctx a
  | ValidateChassisClusterHealth a => validate_chassis_cluster_health ctx a
  | CollectJtacSupportBundle a => collect_jtac_support_bundle ctx a
  | SrxFlowSessions a => srx_flow_sessions ctx a
  | SrxPolicyMatch a => srx_policy_match ctx a
  end.

End srx.
