(* ===== verification/Execute.v ===== *)
(** * Dispatch ([rust-junosmcp/src/server.rs], [server/execute.rs])

    The two routers a request can go through: the concrete tools, and the
    [execute] facade over them.  Around both, [call_tool] attributes the call,
    redacts every reply and records what was refused before a handler ran;
    [list_tools] advertises what the caller may call.  [rmcp]'s argument
    parsing and its errors are the parameter [Rmcp]. *)

From S2P Require Import Prelude RustStr Fmt Errors Inventory Async Transfer.
From S2P Require Import ConfigTools Auth Redaction ServerAudit ServerTools SrxServer JsonValue.
From Stdlib Require Import Ascii.
From stdpp Require Import sorting.

Definition NAME : string := "execute".
Definition UNKNOWN_CODE : string := "RJMCP_EXECUTE_UNKNOWN_OPERATION".
Definition MAX_REJECTED_OPERATION_CHARS : nat := 96.
Definition MAX_OPERATION_CHARS : nat := 128.
Definition RMCP_ARGUMENT_ERROR_PREFIX : string := "failed to deserialize parameters:".

#[local] Abbreviation Members := (list (string * Value)).

Record ExecuteArgs := { operation : string; arguments : Members }.

Inductive Call := JunosTool (c : JunosCall) | SrxTool (c : SrxCall).
Definition call_name (c : Call) : string :=
  match c with JunosTool c => junos_name c | SrxTool c => srx_name c end.

(** [rmcp]: the arguments of a tool and of the facade, what its router answers
    when they do not parse, and its error for a name it does not know. *)
Class Rmcp := {
  parse_call : string -> Members -> Result Call ErrorData;
  parse_facade : Members -> Result ExecuteArgs ErrorData;
  argument_error : ErrorData -> Result CallToolResult ErrorData;
  tool_not_found : string -> ErrorData
}.

(** The closed schema of the facade, and the names of the parsed calls. *)
Class RmcpLaws {R : Rmcp} : Prop := {
  parse_call_name name args c : parse_call name args = Ok c -> call_name c = name;
  parse_facade_ok args a :
    parse_facade args = Ok a <->
    length args = 2 /\ obj_get "operation" args = Some (Str (operation a)) /\
    obj_get "arguments" args = Some (Object (arguments a));
  argument_error_shape e :
    (exists m, argument_error e = Ok (error_result [TextBlock (RMCP_ARGUMENT_ERROR_PREFIX ^^ m)])) \/
    (exists e', argument_error e = Err e')
}.

(** ** Reading a request without parsing it *)

Definition static_tool_name (name : string) : string :=
  match find (fun known => String.eqb known name) KNOWN_TOOLS with
  | Some known => known
  | None => "unknown_tool"
  end.

Fixpoint first_some {A B} (f : A -> option B) (l : list A) : option B :=
  match l with
  | [] => None
  | x :: l => match f x with Some y => Some y | None => first_some f l end
  end.

Definition as_str (v : option Value) : option string :=
  match v with Some (Str s) => Some s | _ => None end.

Definition device_hint (args : option Members) : option string :=
  match args with
  | None => None
  | Some args =>
      match first_some (fun key => as_str (obj_get key args))
              ["device"; "router"; "router_name"; "device_name"] with
      | Some device => Some device
      | None =>
          first_some (fun key =>
            match obj_get key args with
            | Some (Array (first :: _)) => as_str (Some first)
            | _ => None
            end) ["devices"; "routers"; "device_names"; "router_names"]
      end
  end.

(** [execute::concrete_operation] *)
Definition concrete_operation (args : option Members) : option string :=
  match args with
  | None => None
  | Some args =>
      match as_str (obj_get "operation" args) with
      | Some op => find (fun name => String.eqb name op) (JUNOS_TOOLS ++ SRX_TOOLS)
      | None => None
      end
  end.

Definition well_formed_facade (args : Members) : bool :=
  Nat.eqb (length args) 2 &&
  match obj_get "operation" args with Some _ => true | None => false end &&
  match obj_get "arguments" args with Some v => is_object v | None => false end.

Definition effective_tool_name (outer : string) (args : option Members) : string :=
  if String.eqb outer NAME then
    if match args with Some a => well_formed_facade a | None => false end
    then default NAME (concrete_operation args) else NAME
  else static_tool_name outer.

Definition effective_arguments (outer : string) (args : option Members) : option Members :=
  if String.eqb outer NAME then
    match args with
    | Some outer_args =>
        match obj_get "arguments" outer_args with Some (Object a) => Some a | _ => None end
    | None => None
    end
  else args.

Definition argument_rejection_message (result : CallToolResult) : option string :=
  match is_error result with
  | Some true =>
      first_some (fun block =>
        match block with
        | TextBlock text => if starts_with RMCP_ARGUMENT_ERROR_PREFIX text then Some text else None
        | OtherBlock => None
        end) (content result)
  | _ => None
  end.

(** ** The facade's own tool *)

Record ToolAnnotations := {
  read_only : bool; destructive : bool; idempotent : bool; open_world : bool
}.
Record Tool := {
  t_name : string; t_description : option string; input_schema : Members;
  annotations : option ToolAnnotations
}.

Definition tool_le (a b : Tool) : Prop := strings.String.le (t_name a) (t_name b).
#[export] Instance tool_le_dec : RelDecision tool_le.
Proof. intros a b. unfold tool_le. apply _. Defined.

(** The branches of [allOf], [anyOf] or [oneOf], rendered. *)
Definition group_of (keyword separator : string) (rendered : list string) : list string :=
  let branches :=
    if String.eqb keyword "allOf" then List.filter (fun g => negb (is_empty g)) rendered
    else map (fun g => if is_empty g then "none" else g) rendered in
  match branches with
  | [] => []
  | _ =>
      let joined := RustStr.join separator branches in
      [if String.eqb keyword "allOf" then joined else "(" ^^ joined ^^ ")"]
  end.

Definition required_names (schema : Value) : list string :=
  match value_get "required" schema with
  | Some (Array l) => omap (fun v => match v with Str s => Some s | _ => None end) l
  | _ => []
  end.

(** The recursion descends a level of the schema with each call. *)
Fixpoint required_go (fuel : nat) (schema : Value) : string :=
  match fuel with
  | 0 => ""
  | S fuel =>
      RustStr.join " and "
        (required_names schema ++
         concat (map (fun ks =>
           match value_get ks.1 schema with
           | Some (Array branches) => group_of ks.1 ks.2 (map (required_go fuel) branches)
           | _ => []
           end) [("allOf", " and "); ("anyOf", " or "); ("oneOf", " or ")]))
  end.
Definition required_groups (schema : Value) : string := required_go (S (depth schema)) schema.

Definition catalog_line (tool : Tool) : string :=
  let description := default "" (t_description tool) in
  let first := match str_find ". " description with
               | Some (first, _) => first
               | None => description
               end in
  let required := required_groups (Object (input_schema tool)) in
  let required := if is_empty required then "none" else required in
  t_name tool ^^ ": " ^^ str_rev (trim_start_matches "." (str_rev first))
  ^^ ". required: " ^^ required.
Definition catalog (tools : list Tool) : string :=
  RustStr.join newline (map catalog_line (merge_sort tool_le tools)).

Definition FACADE_DESCRIPTION : string :=
  "Execute one exact RustJunosMCP operation. Copy a name from the operation enum and pass its arguments unchanged.".

(** [facade_tool], an error being the message of a failed assertion. *)
Definition facade_tool (tools : list Tool) : Result Tool string :=
  if existsb (fun t => String.eqb (t_name t) NAME) tools
  then Err "facade cannot contain itself" else
  let operation_names := merge_sort strings.String.le (map t_name tools) in
  let expected := merge_sort strings.String.le (JUNOS_TOOLS ++ SRX_TOOLS) in
  if negb (bool_decide (operation_names = expected))
  then Err "concrete operation registry drift" else
  let catalog := catalog tools in
  if negb (len FACADE_DESCRIPTION + len catalog <? 32 * 1024)%N
  then Err "facade description exceeds 32 KiB" else
  Ok {| t_name := NAME; t_description := Some FACADE_DESCRIPTION;
        input_schema :=
          [("type", Str "object"); ("additionalProperties", Bool false);
           ("required", Array [Str "operation"; Str "arguments"]);
           ("properties", Object
              [("operation", Object [("type", Str "string");
                                     ("enum", Array (map Str operation_names));
                                     ("description", Str catalog)]);
               ("arguments", Object [("type", Str "object");
                  ("description", Str "Pass the selected operation's arguments unchanged. Use its exact argument names.")])])];
        annotations := Some {| read_only := false; destructive := true;
                               idempotent := false; open_world := false |} |}.

Inductive CacheScope := PrivateScope | PublicScope.
Record ListToolsResult := {
  listed : list Tool; ttl_ms : option N; cache_scope : option CacheScope
}.
Definition listed_tools (tools : list Tool) (cache_hints : bool) : ListToolsResult :=
  if cache_hints
  then {| listed := tools; ttl_ms := Some 0%N; cache_scope := Some PrivateScope |}
  else {| listed := tools; ttl_ms := None; cache_scope := None |}.

(** ** The server *)

Section dispatch.
Context {C : Caller} {X : External} {Re : Redactor} {DL : Denylist} {JT : JsonText} {Sh : Sha256}.
Context {R : Rmcp}.
Context {S : Type} {CT : CoreTools S} {SW : SrxWorkflows S}.
Context (direct_commit : AuditScope C -> Result unit DirectCommitRefused).
Context (value_display : Value -> string) (error_data_display : ErrorData -> string).
Context (default_confirm_mins : N) (since_epoch : option N) (pkg_version : string).
Context (from_caller : CallerCtx -> JunosTransaction.Attribution)
        (stdio : JunosTransaction.Attribution).
Context (self : JmcpHandler).
(** [concrete_router.list_all()]: the tools the attributes declare. *)
Context (concrete_tools : list Tool).

#[local] Abbreviation Endpoint := (Endpoint C S).

Definition run_call (ctx : option CallerCtx) (c : Call) : Endpoint :=
  match c with
  | JunosTool c => junos_route direct_commit value_display default_confirm_mins since_epoch
                     from_caller stdio self ctx c
  | SrxTool c => srx_route value_display error_data_display since_epoch pkg_version self ctx c
  end.

(** What [ToolRouter::call] makes of a route's result. *)
Definition routed (r : Result CallToolResult ErrorData) : Endpoint :=
  act_ret (map_err RpcError r).

(** [concrete.call(..)] *)
Definition concrete_call (ctx : option CallerCtx) (name : string) (args : option Members)
  : Endpoint :=
  if existsb (String.eqb name) (JUNOS_TOOLS ++ SRX_TOOLS) then
    match parse_call name (default [] args) with
    | Ok c => run_call ctx c
    | Err e => routed (argument_error e)
    end
  else routed (Err (tool_not_found name)).

Definition allowed : list string := merge_sort strings.String.le (map t_name concrete_tools).

Definition unknown_operation_result (ctx : option CallerCtx) (op : string) : Endpoint :=
  let summary := take_chars MAX_REJECTED_OPERATION_CHARS op in
  audited (audit_scope ctx NAME "reject" []) (
    let! _ := note (Meta "operation" (Str summary)) in
    let! _ := note (Meta "operation_bytes" (Number (Z.of_N (len op)))) in
    let! _ := note (FailKind "unknown_operation" UNKNOWN_CODE) in
    reply (error_result [TextBlock
      (UNKNOWN_CODE ^^ ": rejected operation " ^^ debug_str summary ^^ " (" ^^ dec (len op)
       ^^ " bytes); retry with an exact operation name. Allowed operations: "
       ^^ RustStr.join ", " allowed)])).

(** The closure of [execute::route]. *)
Definition execute (ctx : option CallerCtx) (args : option Members) : Endpoint :=
  match check_tool_scope ctx NAME with
  | Some e => audited (audit_scope ctx NAME "reject" []) (refuse "tool_scope" e)
  | None =>
      match parse_facade (default [] args) with
      | Err e => routed (argument_error e)
      | Ok outer =>
          let op :=
            if (MAX_OPERATION_CHARS <?
                length (firstn (MAX_OPERATION_CHARS + 1) (chars (operation outer))))%nat
            then None
            else find (fun name => String.eqb name (operation outer)) allowed in
          match op with
          | None => unknown_operation_result ctx (operation outer)
          | Some op => concrete_call ctx op (Some (arguments outer))
          end
      end
  end.

(** [self.tool_router.call(tcc)] *)
Definition router_call (ctx : option CallerCtx) (name : string) (args : option Members)
  : Endpoint :=
  if String.eqb name NAME then execute ctx args else concrete_call ctx name args.

Definition record_rejected_call (ctx : option CallerCtx) (tool : string) (device : option string)
    (message : string) : Act (Served C S) unit Stop := fun w =>
  let scope := audit_scope ctx (static_tool_name tool) "reject"
                 match device with Some d => [d] | None => [] end in
  let scope := scope_call (FailKind "dispatch_rejected" message) scope in
  (Ok tt, mk_world (w_now w) (w_cancel_at w)
            (mk_served (sv_log (w_backend w) ++ [scope]) (sv_core (w_backend w)))).

(** [ServerHandler::call_tool], the heartbeat apart. *)
Definition call_tool (ctx : option CallerCtx) (name : string) (args : option Members)
  : Act (Served C S) CallToolResponse Stop :=
  let tool := effective_tool_name name args in
  let device := device_hint (effective_arguments name args) in
  act_bind (router_call ctx name args) (fun r =>
    match r with
    | Err (PanicStop m) => act_ret (Err (PanicStop m))
    | _ =>
        let result :=
          redact_last_mile
            match r with
            | Ok r => Ok (Complete r)
            | Err (RpcError e) => Err e
            | Err (PanicStop _) => Ok Unfinished
            end in
        let! _ :=
          match result with
          | Err e => record_rejected_call ctx tool device (ed_message e)
          | Ok (Complete r) =>
              match argument_rejection_message r with
              | Some message => record_rejected_call ctx tool device message
              | None => act_ret (Ok tt)
              end
          | Ok Unfinished => act_ret (Ok tt)
          end in
        act_ret (map_err RpcError result)
    end).

(** [ServerHandler::list_tools]: the router's tools, the facade's among them. *)
Definition list_tools (all : list Tool) (ctx : option CallerCtx) (cache_hints : bool)
  : ListToolsResult :=
  listed_tools (filter_tools_for_scope t_name all ctx) cache_hints.

End dispatch.
