(* ===== verification/ServerSpec.v ===== *)
(** * The gates of the Junos tools ([rust-junosmcp/src/server.rs])

    Every Junos tool either refuses its caller, leaving the core as it was and
    saying so in the audit log, or all its gates let the caller through and what
    it returns and leaves behind is exactly what the core's tool returns and
    leaves behind. *)

From S2P Require Import Prelude RustStr Fmt Errors Helpers Inventory Async JunosTransaction.
From S2P Require Import ChangesetTools ConfigTools Template CommandTools Batch InventoryTools Transfer Fetch Upgrade.
From S2P Require Import Auth Redaction ServerAudit ServerTools JsonValue.
From Stdlib Require Import Ascii.

(** ** What a tool asks for *)

(** The devices whose scope is checked before the tool runs. *)
Definition call_devices (c : JunosCall) : list string :=
  match c with
  | GetDeviceList | GetRouterList | AddDevice _ | ReloadDevices _ | ListJunosChangeSets _ => []
  | GatherDeviceFacts a => [gf_device a] | ExecuteJunosCommand a => [ec_device a]
  | GetJunosConfig a => [gc_device a] | JunosConfigDiff a => [cd_device a]
  | LoadAndCommitConfig a => [lc_device a] | CommitCheckConfig a => [cc_device a]
  | DiscardCandidate a => [dc_device a] | RollbackConfig a => [rb_device a]
  | ConfirmCommit a => [cm_device a] | ExecuteJunosPfeCommand a => [pf_device a]
  | ExecuteJunosCommandBatch a => b_devices a | RenderAndApplyJ2Template a => resolved a
  | TransferFile a => [tf_device a] | FetchFile a => [ff_device a]
  | UpgradeJunos a => [up_device a]
  | ListStagedFiles a => match ls_device a with Some d => [d] | None => [] end
  | CreateJunosChangeSet a => [cr_device a] | ApproveJunosChangeSet a => [pr_device a]
  | CancelJunosChangeSet a => [ca_device a] | ApplyJunosChangeSet a => [aa_device a]
  | ConfirmJunosChangeSet a => [cf_device a] | GetJunosChangeSetStatus a => [gs_device a]
  | GetJunosCandidateFingerprint a => [fp_device a]
  end.

(** The calls that commit to a device with no change set behind them. *)
Definition commits_directly (c : JunosCall) : bool :=
  match c with
  | LoadAndCommitConfig _ | ConfirmCommit _ => true
  | RollbackConfig a => rb_commit a
  | RenderAndApplyJ2Template a => will_commit a
  | UpgradeJunos a => up_confirm a
  | _ => false
  end.

(** The calls for which somebody must answer. *)
Definition needs_principal (c : JunosCall) : bool :=
  match c with
  | CreateJunosChangeSet _ | ApproveJunosChangeSet _ | CancelJunosChangeSet _
  | ApplyJunosChangeSet _ | ConfirmJunosChangeSet _ => true
  | _ => false
  end.

Definition changes_inventory (c : JunosCall) : bool :=
  match c with AddDevice _ | ReloadDevices _ => true | _ => false end.

Section gates.
Context {C : Caller} {X : External} {Re : Redactor} {DL : Denylist} {JT : JsonText} {Sh : Sha256}.
Context {S : Type} {CT : CoreTools S}.
Context (direct_commit : AuditScope C -> Result unit DirectCommitRefused).
Context (value_display : Value -> string) (default_confirm_mins : N) (since_epoch : option N).
Context (from_caller : CallerCtx -> Attribution) (stdio : Attribution).
Context (self : JmcpHandler).

#[local] Abbreviation Body := (Body (C := C) (S := S)).
#[local] Abbreviation junos_route :=
  (junos_route direct_commit value_display default_confirm_mins since_epoch from_caller stdio self).

(** ** The core's side of a call *)

Definition core_tool (ctx : option CallerCtx) (c : JunosCall) : Act S Value ToolStop :=
  let who := match ctx with Some c => from_caller c | None => stdio end in
  let owned := allow_plane_owned_writes self in
  match c with
  | GetDeviceList | GetRouterList => fun w =>
      handle_names (filter_device_names ctx (names (core_inventory (w_backend w)))) w
  | GatherDeviceFacts a => facts a | ExecuteJunosCommand a => execute_command a
  | GetJunosConfig a => get_config_tool a | JunosConfigDiff a => config_diff_tool a
  | LoadAndCommitConfig a => load_commit a owned | CommitCheckConfig a => commit_check_tool a
  | DiscardCandidate a => discard_tool a | RollbackConfig a => rollback a owned
  | ConfirmCommit a => confirm_commit_tool a who | ExecuteJunosPfeCommand a => pfe a
  | ExecuteJunosCommandBatch a => batch a | RenderAndApplyJ2Template a => template a
  | AddDevice a => add_device_tool a | ReloadDevices a => reload_devices_tool a
  | TransferFile a => transfer_tool a | FetchFile a => fetch_tool a
  | UpgradeJunos a => upgrade_tool a owned (mint_request_id since_epoch)
  | ListStagedFiles a => list_staged_tool a
  | CreateJunosChangeSet a => create_change_set_tool a who
  | ApproveJunosChangeSet a => approve_change_set_tool a who
  | CancelJunosChangeSet a => cancel_change_set_tool a who
  | ApplyJunosChangeSet a => apply_change_set_tool a who
  | ConfirmJunosChangeSet a => confirm_change_set_tool a who
  | GetJunosChangeSetStatus a =>
      if web_enabled_approver self then change_set_status_with_actions a else change_set_status a
  | ListJunosChangeSets a => list_change_sets_tool a
  | GetJunosCandidateFingerprint a => candidate_fingerprint a
  end.

(** What the caller gets for a tool's result. *)
Definition reply_for (r : Result Value ToolStop) : Result CallToolResult Stop :=
  match r with
  | Ok v => Ok (to_call_result (Ok v))
  | Err (Failed e) => Ok (to_call_result (Err e))
  | Err (Panicked m) => Err (PanicStop m)
  end.

(** The outcome the audit records for it; a panic leaves none. *)
Definition outcome_for (inventory : bool) (r : Result Value ToolStop) : option ScopeCall :=
  match r with
  | Ok _ => Some Succeed
  | Err (Failed InventoryReadonly) =>
      Some (if inventory then Deny "inventory_readonly"
            else FailKind (audit_kind InventoryReadonly) (to_string InventoryReadonly))
  | Err (Failed e) => Some (FailKind (audit_kind e) (to_string e))
  | Err (Panicked _) => None
  end.

(** ** Refused, or let through *)

Inductive Refused (ctx : option CallerCtx) (c : JunosCall) : ScopeCall -> Prop :=
  | ref_tool caller :
      ctx = Some caller -> allows_tool caller (junos_name c) WRITE_TOOLS = false ->
      Refused ctx c (Deny "tool_scope")
  | ref_router caller d :
      ctx = Some caller -> d ∈ call_devices c -> allows_device caller d = false ->
      Refused ctx c (Deny "router_scope")
  | ref_direct scope e :
      commits_directly c = true -> direct_commit scope = Err e ->
      Refused ctx c DirectCommitCheck
  | ref_principal :
      needs_principal c = true -> ctx = None -> Refused ctx c (Deny "no_auth").

Record Permitted (ctx : option CallerCtx) (c : JunosCall) : Prop := {
  may_use_tool : forall caller, ctx = Some caller ->
    allows_tool caller (junos_name c) WRITE_TOOLS = true;
  may_use_devices : forall caller d, ctx = Some caller -> d ∈ call_devices c ->
    allows_device caller d = true;
  may_commit : commits_directly c = true -> exists scope, direct_commit scope = Ok tt;
  has_principal : needs_principal c = true -> ctx <> None
}.

(** ** How a body runs *)

Definition core_world (w : World (Open C S)) : World S :=
  mk_world (w_now w) (w_cancel_at w) (op_core (w_backend w)).
Definition open_scope (w : World (Open C S)) : AuditScope C := op_scope (w_backend w).
Definition with_calls (s : AuditScope C) (cs : list ScopeCall) : AuditScope C :=
  {| as_caller := as_caller s; as_tool := as_tool s; as_action := as_action s;
     as_devices := as_devices s; as_calls := as_calls s ++ cs |}.

(** [body] ends in a refusal of [Ref] that leaves the core alone, or, with
    [Perm], in the run of [tool]. *)
Definition ends (Ref : ScopeCall -> Prop) (Perm : Prop) (inventory : bool)
    (tool : Act S Value ToolStop) (body : Body CallToolResult) : Prop :=
  forall w, let '(r, w') := body w in
    (exists cs last m, Ref last /\ open_scope w' = with_calls (open_scope w) (cs ++ [last]) /\
       core_world w' = core_world w /\ r = Ok (error_result [TextBlock m])) \/
    (Perm /\ exists cs,
       open_scope w' = with_calls (open_scope w)
                         (cs ++ option_list (outcome_for inventory (tool (core_world w)).1)) /\
       core_world w' = (tool (core_world w)).2 /\ r = reply_for (tool (core_world w)).1).

Lemma with_calls_nil s : with_calls s [] = s.
Proof. destruct s. unfold with_calls. cbn. by rewrite app_nil_r. Qed.
Lemma with_calls_app s cs cs' : with_calls (with_calls s cs) cs' = with_calls s (cs ++ cs').
Proof. unfold with_calls. cbn. by rewrite app_assoc. Qed.
Lemma scope_call_with c s : scope_call c s = with_calls s [c].
Proof. done. Qed.
Lemma core_world_eta w o :
  core_world (mk_world (w_now w) (w_cancel_at w) (mk_open o (op_core (w_backend w)))) = core_world w.
Proof. done. Qed.

(** A call on the scope before the rest. *)
Lemma ends_note Ref Perm inv tool c (k : Body CallToolResult) :
  ends Ref Perm inv tool k -> ends Ref Perm inv tool (act_then (note c) (fun _ => k)).
Proof using.
  intros H w. unfold note. rewrite then_state.
  set (w1 := mk_world _ _ _). specialize (H w1). destruct (k w1) as [r w'].
  destruct H as [(cs & last & m & HR & Hs & Hc & Hr)|(HP & cs & Hs & Hc & Hr)].
  - left. exists ([c] ++ cs), last, m. split_and!; [done| |exact Hc|done].
    rewrite Hs. subst w1. unfold open_scope. cbn [w_backend op_scope].
    by rewrite scope_call_with, with_calls_app, app_assoc.
  - right. split; [done|]. exists ([c] ++ cs). split_and!; [|exact Hc|done].
    rewrite Hs. subst w1. unfold open_scope. cbn [w_backend op_scope].
    by rewrite scope_call_with, with_calls_app, app_assoc.
Qed.

Lemma then_assoc {T U V E A} (m : Act A T E) (k : T -> Act A U E) (h : U -> Act A V E) w :
  act_then (act_then m k) h w = act_then m (fun t => act_then (k t) h) w.
Proof.
  unfold act_then, act_try, act_bind. destruct (m w) as [[t|e] w']; [|done]. done.
Qed.

Lemma then_run {T U E A} (m : Act A T E) (k : T -> Act A U E) w t w' :
  m w = (Ok t, w') -> act_then m k w = k t w'.
Proof. intros E1. unfold act_then, act_try, act_bind. by rewrite E1. Qed.

Lemma ends_ext Ref Perm inv tool (k k' : Body CallToolResult) :
  (forall w, k w = k' w) -> ends Ref Perm inv tool k -> ends Ref Perm inv tool k'.
Proof using. intros E H w. rewrite <- E. apply H. Qed.

Lemma ends_notes Ref Perm inv tool metas (k : Body CallToolResult) :
  ends Ref Perm inv tool k -> ends Ref Perm inv tool (act_then (notes metas) (fun _ => k)).
Proof using.
  intros H. induction metas as [|[key v] metas IH]; [by intros w; apply H|].
  eapply ends_ext; [|apply (ends_note _ _ _ _ (Meta key v)); exact IH].
  intros w. symmetry. apply then_assoc.
Qed.

Lemma ends_confirm Ref Perm inv tool mins o (k : Body CallToolResult) :
  ends Ref Perm inv tool k ->
  ends Ref Perm inv tool (act_then (audit_confirm_meta mins o) (fun _ => k)).
Proof using. intros H. unfold audit_confirm_meta. case_match; by apply ends_notes. Qed.

Lemma ends_opt_confirm Ref Perm inv tool (b : bool) mins o (k : Body CallToolResult) :
  ends Ref Perm inv tool k ->
  ends Ref Perm inv tool
    (act_then (if b then audit_confirm_meta mins o else notes []) (fun _ => k)).
Proof using. intros H. destruct b; [by apply ends_confirm|by apply ends_notes]. Qed.

(** ** The gates *)

(** A refusal: a last call on the scope and an error reply. *)
Lemma ends_refusal (Ref : ScopeCall -> Prop) Perm inv tool last m :
  Ref last ->
  ends Ref Perm inv tool (act_then (note last) (fun _ => reply (error_result [TextBlock m]))).
Proof using.
  intros HR w. unfold note. rewrite then_state. left. exists [], last, m. by split_and!.
Qed.

Lemma ends_tool_gate (Ref : ScopeCall -> Prop) Perm inv tool ctx name k :
  (forall caller, ctx = Some caller -> allows_tool caller name WRITE_TOOLS = false ->
     Ref (Deny "tool_scope")) ->
  ((forall caller, ctx = Some caller -> allows_tool caller name WRITE_TOOLS = true) ->
     ends Ref Perm inv tool k) ->
  ends Ref Perm inv tool (tool_gate ctx name k).
Proof using.
  intros HR Hk. unfold tool_gate, check_tool_scope.
  destruct ctx as [caller|]; [|by apply Hk].
  destruct (allows_tool caller name WRITE_TOOLS) eqn:E; cbn [negb].
  - apply Hk. by intros ? [= <-].
  - apply ends_refusal. eauto.
Qed.

Lemma ends_router_gate (Ref : ScopeCall -> Prop) Perm inv tool ctx name d k :
  (forall caller, ctx = Some caller -> allows_device caller d = false ->
     Ref (Deny "router_scope")) ->
  ((forall caller, ctx = Some caller -> allows_device caller d = true) ->
     ends Ref Perm inv tool k) ->
  ends Ref Perm inv tool (router_gate ctx name d k).
Proof using.
  intros HR Hk. unfold router_gate, check_router_scope.
  destruct ctx as [caller|]; [|by apply Hk].
  destruct (allows_device caller d) eqn:E; cbn [negb].
  - apply Hk. by intros ? [= <-].
  - apply ends_refusal. eauto.
Qed.

Lemma ends_routers_gate (Ref : ScopeCall -> Prop) Perm inv tool ctx name ds k :
  (forall caller d, ctx = Some caller -> d ∈ ds -> allows_device caller d = false ->
     Ref (Deny "router_scope")) ->
  ((forall caller d, ctx = Some caller -> d ∈ ds -> allows_device caller d = true) ->
     ends Ref Perm inv tool k) ->
  ends Ref Perm inv tool (routers_gate ctx name ds k).
Proof using.
  induction ds as [|d ds IH]; intros HR Hk; cbn [routers_gate].
  - apply Hk. intros caller d _ Hd. by apply not_elem_of_nil in Hd.
  - apply ends_router_gate.
    + intros caller Hc Hd. apply (HR caller d Hc); [by constructor|done].
    + intros Hd. apply IH.
      * intros caller d' Hc Hin. apply HR; [done|by constructor].
      * intros Hds. apply Hk. intros caller d' Hc Hin. apply elem_of_cons in Hin as [->|Hin]; eauto.
Qed.

Lemma ends_direct_gate (Ref : ScopeCall -> Prop) Perm inv tool (needed : bool) k :
  (forall scope e, needed = true -> direct_commit scope = Err e -> Ref DirectCommitCheck) ->
  ((needed = true -> exists scope, direct_commit scope = Ok tt) -> ends Ref Perm inv tool k) ->
  ends Ref Perm inv tool (direct_commit_gate direct_commit needed k).
Proof using.
  intros HR Hk. unfold direct_commit_gate. destruct needed; [|by apply Hk].
  intros w. rewrite then_get. set (scope := op_scope (w_backend w)).
  destruct (direct_commit scope) as [[]|e] eqn:E.
  - revert w scope E. intros w scope E. apply ends_note, Hk. eauto.
  - by apply ends_refusal, (HR scope e).
Qed.

Lemma ends_caller_gate (Ref : ScopeCall -> Prop) Perm inv tool ctx name k :
  (ctx = None -> Ref (Deny "no_auth")) ->
  (forall caller, ctx = Some caller -> ends Ref Perm inv tool (k caller)) ->
  ends Ref Perm inv tool (caller_gate ctx name k).
Proof using.
  intros HR Hk. destruct ctx as [caller|]; [by apply Hk|]. by apply ends_refusal, HR.
Qed.

(** ** The run itself *)

Lemma notes_run metas w :
  notes metas w =
  (Ok tt, mk_world (w_now w) (w_cancel_at w)
            (mk_open (with_calls (open_scope w) (map (fun kv => Meta kv.1 kv.2) metas))
               (op_core (w_backend w)))).
Proof using.
  revert w. induction metas as [|[k v] metas IH]; intros w.
  - cbn. rewrite with_calls_nil. by destruct w as [? ? []].
  - cbn [notes]. unfold note. rewrite then_state, IH. unfold open_scope. cbn [w_backend op_scope].
    by rewrite scope_call_with, with_calls_app.
Qed.

(** Whatever [finish] records, it ends with the outcome. *)
Lemma finish_run metas (r : Result Value JmcpError) w :
  exists cs,
    finish metas r w =
    (Ok (to_call_result r),
     mk_world (w_now w) (w_cancel_at w)
       (mk_open (with_calls (open_scope w)
          (cs ++ [match r with Ok _ => Succeed
                  | Err e => FailKind (audit_kind e) (to_string e) end]))
          (op_core (w_backend w)))).
Proof using.
  unfold finish. destruct r as [v|e].
  - exists (map (fun kv => Meta kv.1 kv.2) (metas v)).
    rewrite then_assoc, (then_run _ _ _ _ _ (notes_run _ _)). unfold note.
    rewrite then_state, scope_call_with. unfold open_scope. cbn. by rewrite with_calls_app.
  - exists []. unfold act_then, act_try, act_bind. done.
Qed.

Definition finisher (inv : bool) (metas : Value -> list (string * Value))
  : Result Value JmcpError -> Body CallToolResult :=
  if inv then finish_inventory metas else finish metas.

Lemma finisher_run inv metas (r : Result Value ToolStop) (r' : Result Value JmcpError) w :
  match r, r' with
  | Ok v, Ok v' => v = v'
  | Err (Failed e), Err e' => e = e'
  | _, _ => False
  end ->
  exists cs,
    finisher inv metas r' w =
    (Ok (to_call_result r'),
     mk_world (w_now w) (w_cancel_at w)
       (mk_open (with_calls (open_scope w) (cs ++ option_list (outcome_for inv r)))
          (op_core (w_backend w)))).
Proof using.
  intros H. unfold finisher, finish_inventory.
  destruct r as [v|[e|m]], r' as [v'|e']; try done; subst.
  - destruct (finish_run metas (Ok v') w) as [cs E]. exists cs. by destruct inv.
  - destruct (finish_run metas (Err e') w) as [cs E].
    destruct inv; [|exists cs; rewrite E; by destruct e'].
    destruct e'; try (exists cs; exact E). by exists [].
Qed.

Lemma ends_run (Ref : ScopeCall -> Prop) (Perm : Prop) inv tool tool' metas :
  Perm -> (forall w, tool' w = tool w) ->
  ends Ref Perm inv tool (run_tool tool' (finisher inv metas)).
Proof using.
  intros HP HT w. unfold run_tool, act_bind, on_core.
  change (mk_world _ _ (op_core (w_backend w))) with (core_world w). rewrite HT.
  destruct (tool (core_world w)) as [r w1] eqn:E.
  set (w2 := mk_world _ _ (mk_open _ _)).
  destruct r as [v|[e|m]].
  - destruct (finisher_run inv metas (Ok v) (Ok v) w2 eq_refl) as [cs ->].
    right. split; [done|]. exists cs. by destruct w1.
  - destruct (finisher_run inv metas (Err (Failed e)) (Err e) w2 eq_refl) as [cs ->].
    right. split; [done|]. exists cs. by destruct w1.
  - cbn. right. split; [done|]. exists []. cbn. rewrite with_calls_nil. by destruct w1.
Qed.

(** The two lists of devices read the inventory first. *)
Lemma ends_read_run {T} (Ref : ScopeCall -> Prop) (Perm : Prop) inv (f : S -> T)
    (t : T -> Act S Value ToolStop) metas :
  Perm ->
  ends Ref Perm inv (fun w => t (f (w_backend w)) w)
    (act_then (read_core f) (fun x => run_tool (t x) (finisher inv metas))).
Proof using.
  intros HP w. unfold read_core. rewrite then_get.
  exact (ends_run Ref Perm inv (t (f (op_core (w_backend w)))) _ metas HP (fun _ => eq_refl) w).
Qed.

(** ** The handlers *)

Definition served_core (w : World (Served C S)) : World S :=
  mk_world (w_now w) (w_cancel_at w) (sv_core (w_backend w)).

(** What a handler did: one record, and a refusal or the core's tool. *)
Definition gated (Ref : ScopeCall -> Prop) (Perm : Prop) (inventory : bool)
    (tool : Act S Value ToolStop) (ctx : option CallerCtx) (name : string) (devices : list string)
    (handler : Endpoint C S) : Prop :=
  forall w, let '(r, w') := handler w in
    exists scope,
      sv_log (w_backend w') = sv_log (w_backend w) ++ [scope] /\
      as_caller scope = ctx /\ as_tool scope = name /\ as_devices scope = devices /\
      ((exists last m, Ref last /\ list.last (as_calls scope) = Some last /\
          served_core w' = served_core w /\ r = Ok (error_result [TextBlock m])) \/
       (Perm /\
          (forall o, outcome_for inventory (tool (served_core w)).1 = Some o ->
                     list.last (as_calls scope) = Some o) /\
          served_core w' = (tool (served_core w)).2 /\
          r = reply_for (tool (served_core w)).1)).

Lemma audited_gated Ref Perm inv tool ctx name action devices body :
  ends Ref Perm inv tool body ->
  gated Ref Perm inv tool ctx name devices (audited (audit_scope ctx name action devices) body).
Proof using.
  intros H w. unfold audited. set (w1 := mk_world _ _ _). specialize (H w1).
  destruct (body w1) as [r w']. set (scope := op_scope (w_backend w')). exists scope.
  assert (Hc : served_core (mk_world (w_now w') (w_cancel_at w')
    (mk_served (sv_log (w_backend w) ++ [scope]) (op_core (w_backend w')))) = core_world w')
    by done.
  change (served_core w) with (core_world w1). rewrite Hc.
  split; [done|]. unfold open_scope in H. fold scope in H.
  destruct H as [(cs & last & m & HR & -> & H2 & ->)|(HP & cs & -> & H2 & ->)].
  - split_and!; try done. left. exists last, m. split_and!; [done| |done|done].
    cbn. by rewrite list.last_snoc.
  - split_and!; try done. right. split_and!; [done| |done|done].
    intros o ->. cbn. by rewrite list.last_snoc.
Qed.

End gates.

(** ** Stepping through a handler *)

Create HintDb gates.
#[export] Hint Resolve ref_tool ref_router ref_direct ref_principal : gates.
#[export] Hint Extern 1 (_ ∈ [_]) => constructor : gates.

Ltac gate :=
  first
    [ apply ends_tool_gate; [by eauto with gates|intros Htool]
    | apply ends_router_gate;
        [intros ? Hctx Hdeny; by eapply (ref_router _ _ _ _ _ Hctx); [constructor|exact Hdeny]
        |intros Hdev]
    | apply ends_routers_gate; [by eauto with gates|intros Hdevs]
    | apply ends_direct_gate; [by eauto with gates|intros Hcommit]
    | apply ends_caller_gate; [by eauto with gates|intros caller Hcaller]
    | apply ends_confirm | apply ends_opt_confirm | apply ends_notes | apply ends_note ].

Ltac permitted :=
  split; cbn;
  [ done
  | intros ? ? Hctx Hd; first [by apply not_elem_of_nil in Hd
      | apply list_elem_of_singleton in Hd as ->; eauto | eauto]
  | done | first [done | intros _; congruence] ].

Section junos.
Context {C : Caller} {X : External} {Re : Redactor} {DL : Denylist} {JT : JsonText} {Sh : Sha256}.
Context {S : Type} {CT : CoreTools S}.
Context (direct_commit : AuditScope C -> Result unit DirectCommitRefused).
Context (value_display : Value -> string) (default_confirm_mins : N) (since_epoch : option N).
Context (from_caller : CallerCtx -> Attribution) (stdio : Attribution).
Context (self : JmcpHandler).

#[local] Abbreviation route :=
  (junos_route direct_commit value_display default_confirm_mins since_epoch from_caller stdio self).
#[local] Abbreviation core_tool := (core_tool since_epoch from_caller stdio self).

(** The devices the audit names: those checked, and the filter of a listing. *)
Definition audited_devices (c : JunosCall) : list string :=
  match c with
  | ListJunosChangeSets a => match lg_device a with Some d => [d] | None => [] end
  | _ => call_devices c
  end.

#[local] Opaque ends.
Ltac ran :=
  first
    [ match goal with |- context [filter_device_names ?ctx _] =>
        apply (ends_read_run _ _ false core_inventory
                 (fun inv => handle_names (filter_device_names ctx (names inv))))
      end
    | apply (ends_run _ _ false); [|by subst]
    | apply (ends_run _ _ true); [|by subst] ].

Lemma route_gated ctx c :
  gated (Refused direct_commit ctx c) (Permitted direct_commit ctx c) (changes_inventory c)
    (core_tool ctx c) ctx (junos_name c) (audited_devices c) (route ctx c).
Proof using.
  destruct c; apply audited_gated; repeat gate; ran; permitted.
Qed.


(** A caller's device scope never narrows a listing of the change sets: for any
    two callers that may use the tool it is the same run of the core's tool. *)
Lemma listing_ignores_device_scope caller a w :
  allows_tool caller "list_junos_change_sets" WRITE_TOOLS = true ->
  let '(r, w') := route (Some caller) (ListJunosChangeSets a) w in
  served_core w' = (list_change_sets_tool a (served_core w)).2 /\
  r = reply_for (list_change_sets_tool a (served_core w)).1.
Proof using.
  intros Ha. pose proof (route_gated (Some caller) (ListJunosChangeSets a) w) as H.
  destruct (route _ _ w) as [r w']. destruct H as (scope & _ & _ & _ & _ & H).
  destruct H as [(last & m & HR & _)|(_ & _ & H1 & H2)]; [|done]. exfalso.
  destruct HR as [c Hc Hf|c d Hc Hd Hf|sc e Hf|Hf]; try done.
  - simplify_eq. cbn in Hf. congruence.
  - by apply not_elem_of_nil in Hd.
Qed.

End junos.

(** The tools by name are the registry's, and no tool that commits to a device
    comes with a wildcard. *)
Lemma server_tools_registry : SERVER_TOOLS ≡ₚ JUNOS_TOOLS.
Proof.
  apply NoDup_Permutation; [by apply (bool_decide_eq_true (NoDup _))..|].
  intros x. split; revert x; apply sub_list_spec; by vm_compute.
Qed.

Lemma committing_tools_are_write_tools c :
  commits_directly c = true -> junos_name c ∈ WRITE_TOOLS.
Proof.
  intros H. destruct c; try done; cbn [junos_name];
    by apply (bool_decide_eq_true (_ ∈ WRITE_TOOLS)).
Qed.
