(* ===== verification/DispatchSpec.v ===== *)
(** * What dispatch guarantees ([rust-junosmcp/src/server.rs], [server/execute.rs], [server/srx.rs])

    The facade confers nothing the direct call does not; what is listed is what
    can be called; no call goes unrecorded; the SRX tools authorize before they
    touch a device; the confirmation token, and nothing else of a plan, is
    handed out unredacted. *)

From S2P Require Import Prelude RustStr Fmt Errors Inventory Async Transfer SrxErrors SignatureConfirmation SrxDevice.
From S2P Require Import IdpPackage AppidPackage ConfigTools Auth Redaction ServerAudit ServerTools SrxServer.
From S2P Require Import Execute ServerSpec JsonValue.
From Stdlib Require Import Ascii.
From stdpp Require Import sorting.

(** ** The catalog's fuel *)

(** More fuel than the schema is deep changes nothing. *)
Lemma required_go_enough n m v :
  depth v < n -> depth v < m -> required_go n v = required_go m v.
Proof.
  revert m v. induction n as [|n IH]; intros [|m] v Hn Hm; [lia..|]. cbn [required_go].
  do 3 f_equal. apply map_ext. intros [k sep]. cbn [fst snd].
  destruct (value_get k v) as [[]|] eqn:Hg; try done. f_equal.
  apply map_ext_in. intros b Hb.
  assert (Hd : depth b < depth v); [|apply IH; lia].
  apply list_elem_of_In, depth_item in Hb. destruct v; try done. cbn [value_get] in Hg.
  apply obj_get_in, list_elem_of_In, depth_member in Hg. lia.
Qed.

Example required_groups_alternatives :
  required_groups (Object [("required", Array [Str "action"]); ("allOf", Array [
    Object [("anyOf", Array [Object [("required", Array [Str "device"])];
                             Object [("required", Array [Str "router"])]])];
    Object [("oneOf", Array [Object [("required", Array [Str "file"; Str "checksum"])];
                             Object [("required", Array [Str "package"])]])]])])
  = "action and (device or router) and (file and checksum or package)".
Proof. reflexivity. Qed.

Section dispatch.
Context {C : Caller} {X : External} {Re : Redactor} {DL : Denylist} {JT : JsonText} {Sh : Sha256}.
Context {R : Rmcp} {RL : RmcpLaws}.
Context {S : Type} {CT : CoreTools S} {SW : SrxWorkflows S}.
Context (direct_commit : AuditScope C -> Result unit DirectCommitRefused).
Context (value_display : Value -> string) (error_data_display : ErrorData -> string).
Context (default_confirm_mins : N) (since_epoch : option N) (pkg_version : string).
Context (from_caller : CallerCtx -> JunosTransaction.Attribution)
        (stdio : JunosTransaction.Attribution).
Context (self : JmcpHandler) (concrete_tools : list Tool).

#[local] Abbreviation run_call :=
  (run_call direct_commit value_display error_data_display default_confirm_mins since_epoch
     pkg_version from_caller stdio self).
#[local] Abbreviation concrete_call :=
  (concrete_call direct_commit value_display error_data_display default_confirm_mins since_epoch
     pkg_version from_caller stdio self).
#[local] Abbreviation execute :=
  (execute direct_commit value_display error_data_display default_confirm_mins since_epoch
     pkg_version from_caller stdio self concrete_tools).
#[local] Abbreviation router_call :=
  (router_call direct_commit value_display error_data_display default_confirm_mins since_epoch
     pkg_version from_caller stdio self concrete_tools).
#[local] Abbreviation call_tool :=
  (call_tool direct_commit value_display error_data_display default_confirm_mins since_epoch
     pkg_version from_caller stdio self concrete_tools).

(** ** The facade *)

Lemma find_name op (l : list string) :
  find (fun name => String.eqb name op) l = if bool_decide (op ∈ l) then Some op else None.
Proof.
  induction l as [|x l IH]; [done|]. cbn [find]. destruct (String.eqb_spec x op) as [->|Hne].
  - by rewrite bool_decide_true by constructor.
  - rewrite IH. rewrite (bool_decide_ext (op ∈ x :: l) (op ∈ l)); [done|].
    rewrite elem_of_cons. naive_solver.
Qed.

(** The start-up assertion of [facade_tool]: the concrete tools are the
    registry's. *)
Definition registered : Prop := map t_name concrete_tools ≡ₚ JUNOS_TOOLS ++ SRX_TOOLS.

Lemma allowed_spec op : registered -> op ∈ allowed concrete_tools <-> op ∈ JUNOS_TOOLS ++ SRX_TOOLS.
Proof using.
  unfold registered. intros H. unfold allowed. rewrite merge_sort_Permutation. by rewrite H.
Qed.

Lemma endpoint_short op :
  op ∈ JUNOS_TOOLS ++ SRX_TOOLS -> (length (chars op) <= MAX_OPERATION_CHARS)%nat.
Proof.
  intros H. assert (HF : Forall (fun op => (length (chars op) <= MAX_OPERATION_CHARS)%nat)
                           (JUNOS_TOOLS ++ SRX_TOOLS)) by (by apply (bool_decide_eq_true _)).
  rewrite list.Forall_forall in HF. auto.
Qed.

Lemma facade_operation ctx outer a w :
  registered -> check_tool_scope ctx NAME = None -> parse_facade outer = Ok a ->
  execute ctx (Some outer) w =
  if bool_decide (operation a ∈ JUNOS_TOOLS ++ SRX_TOOLS)
  then concrete_call ctx (operation a) (Some (arguments a)) w
  else unknown_operation_result (S := S) concrete_tools ctx (operation a) w.
Proof using.
  intros Hreg Hs Hp. unfold Execute.execute. rewrite Hs. change (default [] (Some outer)) with outer. rewrite Hp.
  rewrite find_name, length_firstn.
  rewrite (bool_decide_ext _ _ (allowed_spec (operation a) Hreg)).
  destruct (bool_decide (operation a ∈ JUNOS_TOOLS ++ SRX_TOOLS)) eqn:E.
  - apply bool_decide_eq_true, endpoint_short in E.
    destruct (Nat.ltb_spec MAX_OPERATION_CHARS
                (Nat.min (MAX_OPERATION_CHARS + 1) (length (chars (operation a))))); [lia|done].
  - by destruct (_ <? _)%nat.
Qed.

(** ** A call leaves the core alone *)

Definition untouched (h : Endpoint C S) : Prop :=
  forall w, served_core (h w).2 = served_core w /\
    (forall r, (h w).1 = Ok r -> is_error r = Some true).

Lemma untouched_refusal (scope : AuditScope C) reason e :
  untouched (audited scope (refuse reason e)).
Proof using. intros w. split; [done|]. by intros r [= <-]. Qed.

Lemma untouched_argument_error e : untouched (routed (argument_error e)).
Proof using RL.
  intros w. split; [done|]. cbn. intros r H.
  destruct (argument_error_shape e) as [[m E]|[e' E]]; rewrite E in H; by simplify_eq/=.
Qed.

Lemma untouched_unknown ctx op :
  untouched (unknown_operation_result (S := S) concrete_tools ctx op).
Proof using. intros w. split; [done|]. by intros r [= <-]. Qed.

Lemma endpoint_not_facade op : op ∈ JUNOS_TOOLS ++ SRX_TOOLS -> op <> NAME.
Proof.
  intros H ->. revert H. by apply (bool_decide_eq_false (NAME ∈ JUNOS_TOOLS ++ SRX_TOOLS)).
Qed.

Lemma router_call_endpoint ctx op a w :
  op ∈ JUNOS_TOOLS ++ SRX_TOOLS -> router_call ctx op a w = concrete_call ctx op a w.
Proof using.
  intros H%endpoint_not_facade. unfold Execute.router_call. by destruct (String.eqb_spec op NAME).
Qed.

(** C3: The facade confers nothing.  A well-formed [execute] request for an
    operation is that operation's own call: the same reply, the same audit
    record, the same state.  And whatever the request, either it leaves the core
    alone and its reply, if any, is an error, or the caller may use the facade
    and the request is the direct call of one of the concrete tools, the facade
    itself never among them. *)
Theorem facade_confers_nothing ctx :
  registered ->
  (forall op a w,
     check_tool_scope ctx NAME = None -> op ∈ JUNOS_TOOLS ++ SRX_TOOLS ->
     router_call ctx NAME (Some [("operation", Str op); ("arguments", Object a)]) w =
     router_call ctx op (Some a) w) /\
  (forall args w,
     (served_core (router_call ctx NAME args w).2 = served_core w /\
      forall r, (router_call ctx NAME args w).1 = Ok r -> is_error r = Some true) \/
     exists op a, check_tool_scope ctx NAME = None /\ op ∈ JUNOS_TOOLS ++ SRX_TOOLS /\
       op <> NAME /\ router_call ctx NAME args w = router_call ctx op (Some a) w).
Proof using RL.
  intros Hreg. split.
  - intros op a w Hs Hop. change (router_call ctx NAME) with (execute ctx).
    rewrite (facade_operation _ _ {| operation := op; arguments := a |}) by
      (done || by apply parse_facade_ok).
    cbn. by rewrite bool_decide_true, router_call_endpoint.
  - intros args w. change (router_call ctx NAME) with (execute ctx).
    destruct (check_tool_scope ctx NAME) as [e|] eqn:Hs.
    { left. unfold Execute.execute. rewrite Hs. apply untouched_refusal. }
    destruct (parse_facade (default [] args)) as [a|e] eqn:Hp.
    2: { left. unfold Execute.execute. rewrite Hs, Hp. apply untouched_argument_error. }
    assert (E : execute ctx args w = execute ctx (Some (default [] args)) w) by by destruct args.
    rewrite E, (facade_operation _ _ a) by done. case_bool_decide as Hop.
    + right. exists (operation a), (arguments a). split_and!; [done|done|by apply endpoint_not_facade|].
      by rewrite router_call_endpoint.
    + left. apply untouched_unknown.
Qed.

(** ** SRX calls *)

Definition srx_router (c : SrxCall) : option string :=
  match c with
  | SrxmcpStatus => None
  | GetChassisClusterStatus a => Some (ClusterStatus.cs_router a)
  | GetSrxSecurityServicesStatus a => Some (ss_router a)
  | CheckSrxFeatureLicense a => Some (License.la_router a)
  | VpnLifecycleReport a => Some (vl_router a)
  | SrxListPolicies a => Some (pl_router a)
  | SrxResolveAddress a => Some (ar_router a)
  | SrxResolveApplication a => Some (rr_router a)
  | SrxListNatRules a => Some (nr_router a)
  | ManageIdpSecurityPackage a => Some (IdpPackage.router a)
  | ManageAppidSignaturePackage a => Some (AppidPackage.router a)
  | ValidateChassisClusterHealth a => Some (ch_router a)
  | CollectJtacSupportBundle a => Some (sb_router a)
  | SrxFlowSessions a => Some (fs_router a)
  | SrxPolicyMatch a => Some (pm_router a)
  end.

#[local] Abbreviation srx_route :=
  (srx_route value_display error_data_display since_epoch pkg_version self).

Lemma srx_denied ctx c e w :
  authorize_call self ctx (srx_name c) (srx_router c) = Err e ->
  exists scope cs,
    as_caller scope = ctx /\ as_tool scope = srx_name c /\
    as_calls scope = cs ++ [Deny (deny_reason e)] /\
    srx_route ctx c w =
      (Ok (srx_scope_to_call_result e),
       mk_world (w_now w) (w_cancel_at w)
         (mk_served (sv_log (w_backend w) ++ [scope]) (sv_core (w_backend w)))).
Proof using.
  intros H. destruct c; cbn in H; cbn [SrxServer.srx_route];
    unfold srxmcp_status, get_chassis_cluster_status, get_srx_security_services_status,
      check_srx_feature_license, vpn_lifecycle_report, srx_list_policies, srx_resolve_address,
      srx_resolve_application, srx_list_nat_rules, manage_idp_security_package,
      manage_appid_signature_package, validate_chassis_cluster_health,
      collect_jtac_support_bundle, srx_flow_sessions, srx_policy_match, read_tool, package_tool,
      authorized; rewrite H.
  all: try by (eexists _, []; split_and!; [| | |reflexivity]; done).
  all: try by (eexists _, [_]; split_and!; [| | |reflexivity]; done).
  destruct (IdpPackage.version a).
  - by eexists _, [_; _]; split_and!; [| | |reflexivity].
  - by eexists _, [_]; split_and!; [| | |reflexivity].
Qed.

Lemma unscoped_unauthorized ctx c e :
  check_tool_scope ctx (srx_name c) = Some e ->
  exists e', authorize_call self ctx (srx_name c) (srx_router c) = Err e'.
Proof using.
  unfold check_tool_scope, authorize_call, check_srx_tool_scope. destruct ctx; [|done].
  destruct (negb _); [|done]. destruct (authorization_required self); eauto.
Qed.

(** ** What is listed is what can be called *)

Lemma unscoped_call ctx c e : check_tool_scope ctx (call_name c) = Some e -> untouched (run_call ctx c).
Proof using.
  destruct c as [c|c]; cbn [call_name Execute.run_call]; intros H w.
  - pose proof (route_gated direct_commit value_display default_confirm_mins since_epoch
                  from_caller stdio self ctx c w) as Hg.
    destruct (junos_route _ _ _ _ _ _ _ _ _ _) as [r w'].
    destruct Hg as (scope & _ & _ & _ & _ & [(last & m & _ & _ & H2 & ->)|(HP & _)]).
    + split; [done|]. by intros r [= <-].
    + exfalso. unfold check_tool_scope in H. destruct ctx as [caller|]; [|done].
      by rewrite (may_use_tool _ _ _ HP caller eq_refl) in H.
  - destruct (unscoped_unauthorized _ _ _ H) as [e' He'].
    destruct (srx_denied ctx c e' w He') as (scope & cs & _ & _ & _ & ->).
    split; [done|]. by intros r [= <-].
Qed.

Lemma unscoped_concrete ctx name args e :
  check_tool_scope ctx name = Some e -> untouched (concrete_call ctx name args).
Proof using RL.
  intros H. unfold Execute.concrete_call. destruct (existsb _ _); [|by intros w].
  destruct (parse_call name (default [] args)) as [c|e'] eqn:Hp.
  - apply parse_call_name in Hp. subst. by eapply unscoped_call.
  - apply untouched_argument_error.
Qed.

(** What a caller is shown is what it may call.  [tools/list] shows exactly
    the tools whose scope check passes, and a call of any other name, the facade
    included, leaves the core alone and is answered with an error. *)
Theorem listed_is_callable all ctx hints :
  (forall t, t ∈ listed (list_tools all ctx hints) <->
     t ∈ all /\ check_tool_scope ctx (t_name t) = None) /\
  (forall name args w, check_tool_scope ctx name <> None ->
     served_core (router_call ctx name args w).2 = served_core w /\
     forall r, (router_call ctx name args w).1 = Ok r -> is_error r = Some true).
Proof using RL.
  split.
  - intros t. unfold list_tools, listed_tools.
    assert (E : listed (if hints then
        {| listed := filter_tools_for_scope t_name all ctx; ttl_ms := Some 0%N;
           cache_scope := Some PrivateScope |}
      else {| listed := filter_tools_for_scope t_name all ctx; ttl_ms := None; cache_scope := None |})
      = filter_tools_for_scope t_name all ctx) by by destruct hints.
    rewrite E. unfold filter_tools_for_scope, check_tool_scope. destruct ctx as [c|]; [|naive_solver].
    rewrite !list_elem_of_In, filter_In.
    destruct (allows_tool c (t_name t) WRITE_TOOLS); cbn; naive_solver.
  - intros name args w H. destruct (check_tool_scope ctx name) as [e|] eqn:Hs; [clear H|done].
    unfold Execute.router_call. destruct (String.eqb_spec name NAME) as [->|Hne].
    + unfold Execute.execute. rewrite Hs. apply untouched_refusal.
    + by apply (unscoped_concrete ctx name args e).
Qed.

(** ** Every call is recorded *)

(** A body neither changes whose scope it is nor of which tool. *)
Definition keeps {T E} (b : Act (Open C S) T E) : Prop :=
  forall w, as_caller (open_scope (b w).2) = as_caller (open_scope w) /\
            as_tool (open_scope (b w).2) = as_tool (open_scope w).

Lemma scope_keeps_bind {T E U F} (m : Act (Open C S) T E) (k : Result T E -> Act (Open C S) U F) :
  keeps m -> (forall r, keeps (k r)) -> keeps (act_bind m k).
Proof using.
  intros Hm Hk w. unfold act_bind. specialize (Hm w). destruct (m w) as [r w1].
  destruct (Hk r w1) as [-> ->]. exact Hm.
Qed.

Lemma scope_keeps_ret {T E} (r : Result T E) : keeps (act_ret r).
Proof. by intros w. Qed.

Lemma scope_keeps_then {T E U} (m : Act (Open C S) T E) (k : T -> Act (Open C S) U E) :
  keeps m -> (forall t, keeps (k t)) -> keeps (act_then m k).
Proof using.
  intros Hm Hk. apply scope_keeps_bind; [done|]. intros [t|e]; [apply Hk|apply scope_keeps_ret].
Qed.

Lemma keeps_note c : keeps (note (S := S) c).
Proof. by intros w. Qed.

Lemma keeps_notes metas : keeps (notes (S := S) metas).
Proof using. induction metas as [|[k v] metas IH]; [apply scope_keeps_ret|by apply scope_keeps_then]. Qed.

Lemma keeps_on_core {T E} (m : Act S T E) : keeps (on_core (C := C) m).
Proof. intros w. unfold on_core. by destruct (m _). Qed.

Lemma keeps_authorized ctx tool r k :
  (forall c, keeps (k c)) -> keeps (authorized (S := S) self ctx tool r k).
Proof using.
  intros H. unfold authorized. destruct (authorize_call _ _ _ _); [apply H|].
  apply scope_keeps_then; [apply keeps_note|intros; apply scope_keeps_ret].
Qed.

Lemma keeps_device {T} r (k : SrxHandle -> Body (C := C) (S := S) T) :
  (forall d, keeps (k d)) -> keeps (with_device r k).
Proof using.
  intros H. apply scope_keeps_bind; [apply keeps_on_core|]. intros [d|e]; [|apply scope_keeps_ret].
  apply scope_keeps_bind; [apply H|]. intros r'. by apply scope_keeps_then.
Qed.

Lemma keeps_read_reply label b resp : keeps (read_reply (C := C) (S := S) error_data_display label b resp).
Proof using.
  apply scope_keeps_then; [|intros; apply scope_keeps_ret].
  destruct (serialized label resp); [|apply keeps_note].
  apply scope_keeps_then; [apply keeps_notes|intros; apply keeps_note].
Qed.

Lemma keeps_read_tool ctx tool r label b conv run :
  keeps (read_tool (S := S) error_data_display self ctx tool r label b conv run).
Proof using.
  apply keeps_authorized. intros _. apply keeps_device. intros d.
  apply scope_keeps_bind; [apply keeps_on_core|]. intros r'.
  apply scope_keeps_then; [apply scope_keeps_ret|intros; apply keeps_read_reply].
Qed.

(** The tail of the handlers that record the outcome before they serialise. *)
Lemma keeps_outcome label conv (r : Result Value SrxError) :
  keeps (let! _ := note (match r with
                         | Ok _ => Succeed
                         | Err e => FailKind (srx_audit_kind e) (srx_to_string value_display e)
                         end) in
         let! resp := or_rpc_error conv r in
         let! body := or_rpc_error (fun e => e) (serialized label resp) in
         reply (C := C) (S := S) (success [TextBlock body])).
Proof using.
  apply scope_keeps_then; [apply keeps_note|]. intros _.
  apply scope_keeps_then; [apply scope_keeps_ret|]. intros resp.
  apply scope_keeps_then; [apply scope_keeps_ret|]. intros; apply scope_keeps_ret.
Qed.

Lemma keeps_package_tool ctx tool r label cs confirm token run :
  keeps (package_tool (S := S) value_display since_epoch self ctx tool r label cs confirm token run).
Proof using.
  apply keeps_authorized. intros c. apply scope_keeps_then; [by intros w|]. intros inv.
  apply scope_keeps_then; [apply scope_keeps_ret|]. intros identity.
  apply scope_keeps_then.
  { destruct cs; [apply scope_keeps_ret|]. apply scope_keeps_bind; [apply keeps_on_core|].
    intros; apply scope_keeps_ret. }
  intros _. apply keeps_device. intros d. apply scope_keeps_bind; [apply keeps_on_core|].
  intros r'. apply keeps_outcome.
Qed.

Definition known_tool (tool : string) : Prop := tool = "unknown_tool" \/ tool ∈ KNOWN_TOOLS.

(** [h] adds records of [ctx]'s, of tools of the registry. *)
Definition records (ctx : option CallerCtx) (new : list (AuditScope C)) : Prop :=
  Forall (fun s => as_caller s = ctx /\ known_tool (as_tool s)) new.

Lemma audited_records ctx tool action devices body w :
  known_tool tool -> keeps body ->
  exists s, sv_log (w_backend (audited (audit_scope ctx tool action devices) body w).2) =
      sv_log (w_backend w) ++ [s] /\ as_caller s = ctx /\ known_tool (as_tool s).
Proof using.
  intros Ht Hk. unfold audited. set (w1 := mk_world _ _ _). specialize (Hk w1).
  destruct (body w1) as [r w']. destruct Hk as [H1 H2]. eexists. split; [done|].
  unfold open_scope in *. cbn [snd] in *. by rewrite H1, H2.
Qed.

Lemma known_name c : known_tool (call_name c).
Proof. right. destruct c as [c|c]; destruct c; by apply (bool_decide_eq_true (_ ∈ KNOWN_TOOLS)). Qed.

Lemma run_call_records ctx c w :
  exists s, sv_log (w_backend (run_call ctx c w).2) = sv_log (w_backend w) ++ [s] /\
    as_caller s = ctx /\ known_tool (as_tool s).
Proof using.
  pose proof (known_name c) as Hn. destruct c as [c|c]; cbn [call_name Execute.run_call] in *.
  - pose proof (route_gated direct_commit value_display default_confirm_mins since_epoch
                  from_caller stdio self ctx c w) as Hg.
    destruct (junos_route _ _ _ _ _ _ _ _ _ _) as [r w'].
    cbn [snd]. destruct Hg as (s & -> & <- & Ht & _). exists s. by rewrite Ht.
  - destruct c; cbn [SrxServer.srx_route]; apply audited_records; try exact Hn;
      repeat first [ apply keeps_read_tool | apply keeps_package_tool | apply keeps_read_reply
                   | apply keeps_note | apply keeps_notes | apply scope_keeps_ret | apply keeps_outcome
                   | apply keeps_on_core
                   | apply keeps_authorized; intros ? | apply keeps_device; intros ?
                   | apply scope_keeps_then; [|intros ?] | by intros w' | apply scope_keeps_bind; [|intros ?]].
Qed.

(** A reply nobody recorded yet: a protocol error or [rmcp]'s own. *)
Definition unrecorded (r : Result CallToolResult Stop) : Prop :=
  (exists e, r = Err (RpcError e)) \/
  exists m, r = Ok (error_result [TextBlock (RMCP_ARGUMENT_ERROR_PREFIX ^^ m)]).

Definition recorded (ctx : option CallerCtx) (h : Endpoint C S) : Prop :=
  forall w, exists new, sv_log (w_backend (h w).2) = sv_log (w_backend w) ++ new /\
    records ctx new /\ (new = [] -> unrecorded (h w).1).

Lemma recorded_one ctx h :
  (forall w, exists s, sv_log (w_backend (h w).2) = sv_log (w_backend w) ++ [s] /\
     as_caller s = ctx /\ known_tool (as_tool s)) -> recorded ctx h.
Proof using.
  intros H w. destruct (H w) as (s & E & H1 & H2). exists [s]. split_and!; [done| |done].
  by apply list.Forall_singleton.
Qed.

Lemma recorded_argument_error ctx e : recorded ctx (routed (argument_error e)).
Proof using RL.
  intros w. exists []. cbn. rewrite app_nil_r. split_and!; [done|constructor|]. intros _.
  destruct (argument_error_shape e) as [[m ->]|[e' ->]]; [right|left]; by eexists.
Qed.

Lemma recorded_concrete ctx name args : recorded ctx (concrete_call ctx name args).
Proof using RL.
  unfold Execute.concrete_call. destruct (existsb _ _).
  - destruct (parse_call name (default [] args)); [|apply recorded_argument_error].
    apply recorded_one, run_call_records.
  - intros w. exists []. cbn. rewrite app_nil_r. split_and!; [done|constructor|]. left. by eexists.
Qed.

Lemma known_facade : known_tool NAME.
Proof. right. by apply (bool_decide_eq_true (_ ∈ KNOWN_TOOLS)). Qed.

Lemma recorded_router ctx name args : recorded ctx (router_call ctx name args).
Proof using RL.
  unfold Execute.router_call. destruct (String.eqb name NAME); [|apply recorded_concrete].
  unfold Execute.execute. destruct (check_tool_scope ctx NAME).
  { apply recorded_one. intros w. apply audited_records; [apply known_facade|].
    apply scope_keeps_then; [apply keeps_note|intros; apply scope_keeps_ret]. }
  destruct (parse_facade _) as [a|e]; [|apply recorded_argument_error].
  destruct (if (_ <? _)%nat then _ else _); [apply recorded_concrete|].
  apply recorded_one. intros w. apply audited_records; [apply known_facade|].
  repeat (apply scope_keeps_then; [apply keeps_note|intros]). apply scope_keeps_ret.
Qed.

Lemma static_known name : known_tool (static_tool_name name).
Proof.
  unfold static_tool_name. rewrite find_name. case_bool_decide; [by right|by left].
Qed.

Lemma rejected_records ctx tool device message w :
  exists s, sv_log (w_backend (record_rejected_call (S := S) ctx tool device message w).2) =
      sv_log (w_backend w) ++ [s] /\ as_caller s = ctx /\ known_tool (as_tool s).
Proof. eexists. split; [done|]. split; [done|apply static_known]. Qed.

Lemma argument_rejected m :
  (forall t, starts_with RMCP_ARGUMENT_ERROR_PREFIX t = true ->
     starts_with RMCP_ARGUMENT_ERROR_PREFIX (redact_body t) = true) ->
  argument_rejection_message
    {| content := map redact_block (content (error_result [TextBlock (RMCP_ARGUMENT_ERROR_PREFIX ^^ m)]));
       is_error := is_error (error_result [TextBlock (RMCP_ARGUMENT_ERROR_PREFIX ^^ m)]) |} <> None.
Proof.
  intros Hkeep. specialize (Hkeep (RMCP_ARGUMENT_ERROR_PREFIX ^^ m)).
  unfold argument_rejection_message.
  cbn [is_error error_result content map redact_block first_some].
  rewrite Hkeep; [done|]. unfold starts_with. apply RustStr.prefix_app. by eexists.
Qed.

(** C30: No call goes unrecorded.  Whatever tool a request names, with whatever
    arguments, its call adds at least one audit record, also when no handler
    ran; every record it adds names the caller, and its tool is one of the
    registry's or [unknown_tool], never the caller's own string.  (The one thing
    relied on is that redaction leaves the prefix of [rmcp]'s argument error.) *)
Theorem every_call_recorded ctx name args w :
  (forall t, starts_with RMCP_ARGUMENT_ERROR_PREFIX t = true ->
     starts_with RMCP_ARGUMENT_ERROR_PREFIX (redact_body t) = true) ->
  exists new, sv_log (w_backend (call_tool ctx name args w).2) = sv_log (w_backend w) ++ new /\
    new <> [] /\
    Forall (fun s => as_caller s = ctx /\
              (as_tool s = "unknown_tool" \/ as_tool s ∈ KNOWN_TOOLS)) new.
Proof using RL.
  intros Hkeep. unfold Execute.call_tool, act_bind.
  destruct (recorded_router ctx name args w) as (new & Hl & Hr & Hn).
  destruct (router_call ctx name args w) as [r w1]. cbn [fst snd] in *.
  set (tool := effective_tool_name name args). set (device := device_hint _).
  assert (Hrej : forall m, exists s, sv_log (w_backend (record_rejected_call (S := S) ctx tool device m w1).2) =
      sv_log (w_backend w) ++ new ++ [s] /\ as_caller s = ctx /\ known_tool (as_tool s)).
  { intros m. destruct (rejected_records ctx tool device m w1) as (s & E & Hs).
    exists s. by rewrite E, Hl, app_assoc. }
  assert (Hcons : forall s, as_caller s = ctx /\ known_tool (as_tool s) -> records ctx (new ++ [s])).
  { intros s Hs. apply list.Forall_app. split; [done|by apply list.Forall_singleton]. }
  assert (Hsame : new <> [] -> exists new', sv_log (w_backend w1) = sv_log (w_backend w) ++ new' /\
            new' <> [] /\ records ctx new') by (intros; by exists new).
  assert (Hone : forall m, exists new', sv_log (w_backend (record_rejected_call (S := S) ctx tool device m w1).2) =
            sv_log (w_backend w) ++ new' /\ new' <> [] /\ records ctx new').
  { intros m. destruct (Hrej m) as (s & E & Hs). exists (new ++ [s]).
    split_and!; [done|by destruct new|by apply Hcons]. }
  destruct r as [r|[e|m]].
  - cbn [redact_last_mile]. destruct (argument_rejection_message _) as [m|] eqn:Em; [apply (Hone m)|].
    apply Hsame. intros ->. destruct (Hn eq_refl) as [[e ?]|[m Hm]]; [done|].
    injection Hm as ->. by apply (argument_rejected m Hkeep) in Em.
  - cbn [redact_last_mile]. apply Hone.
  - apply Hsame. intros ->. by destruct (Hn eq_refl) as [[e ?]|[m' ?]].
Qed.

End dispatch.

(** ** The SRX tools: authorization, tokens, plans ([rust-junosmcp/src/server/srx.rs])

    An SRX call is authorized before any device work; a destructive signature
    call presents its confirmation token before a device is opened; and of the
    plan a first call returns, the token alone is handed out as it is. *)

(** ** The plan of a first call *)

Section plan.
Context {Re : Redactor} {DL : Denylist} {Ex : Exposure} {RLs : RedactorLaws}.
Context {X : External} {JT : JsonText} (value_display : Value -> string).

Lemma restored_object f :
  exists f', redact_json_preserving_server_fields (Object f) = Object f' /\
    safe exempt (Object f') = true /\ (forall k, k ∉ map fst f -> obj_get k f' = None).
Proof using RLs.
  unfold redact_json_preserving_server_fields.
  change (restore_exempt_fields _ ?a ?b) with (restore a b).
  destruct (redact_members f) as (r & Hr & Hk). rewrite Hr.
  exists (fold_left (restore_member restore (kept restore)) f r).
  rewrite restore_object. split_and!; [done| |].
  - rewrite <- restore_object, <- Hr. apply restore_safe, safe_weaken, redact_safe.
  - intros k Hni. rewrite fold_other by done. apply obj_get_none. by rewrite Hk.
Qed.

(** The confirmation plan, from the workflow's error to what leaves the
    server: every member but the token is redacted, the token itself is handed
    out verbatim exactly when it has the form the store mints, and the last-mile
    pass, which would strip it, leaves the message as it is. *)
Theorem plan_keeps_only_its_token router fields :
  NoDup (map fst fields) ->
  exists plan rest,
    redact_last_mile (Err (signature_error_to_rmcp value_display
      (SignaturePackageConfirmationRequired router (Object fields)))) =
    Err (invalid_request
      ("[code=confirmation_required] router=" ^^ router
       ^^ ": confirmation required — re-call with confirm=true and the plan's confirmation_token; plan: "
       ^^ value_display (Object plan))
      (Some (Object [("code", Str "confirmation_required")]))) /\
    safe exempt (Object rest) = true /\ obj_get "confirmation_token" rest = None /\
    plan = match obj_get "confirmation_token" fields with
           | Some (Str t) =>
               if is_minted_confirmation_token t
               then obj_insert "confirmation_token" (Str t) rest else rest
           | _ => rest
           end.
Proof using RLs.
  intros Hnd. destruct (restored_object (obj_remove "confirmation_token" fields)) as (rest & E & Hs & Hn).
  eexists _, rest. split_and!; [|exact Hs|by apply Hn, obj_get_none, obj_remove_gone|reflexivity].
  cbn [signature_error_to_rmcp srx_audit_kind]. rewrite E.
  destruct (obj_get "confirmation_token" fields) as [[]|]; try reflexivity.
  by destruct (is_minted_confirmation_token s).
Qed.

End plan.

(** ** Before a device is opened *)

(** The destructive signature calls: router, [confirm], token. *)
Definition destructive_package (c : SrxCall) : option (string * bool * option string) :=
  match c with
  | ManageIdpSecurityPackage a =>
      match IdpPackage.action a with
      | IdpCheckServer => None
      | _ => Some (IdpPackage.router a, IdpPackage.confirm a, IdpPackage.confirmation_token a)
      end
  | ManageAppidSignaturePackage a =>
      match AppidPackage.action a with
      | AppidCheckServer => None
      | _ => Some (AppidPackage.router a, AppidPackage.confirm a, AppidPackage.confirmation_token a)
      end
  | _ => None
  end.

Section srx.
Context {C : Caller} {X : External} {Re : Redactor} {DL : Denylist} {JT : JsonText}.
Context {S : Type} {CT : CoreTools S} {SW : SrxWorkflows S}.
Context (value_display : Value -> string) (error_data_display : ErrorData -> string).
Context (since_epoch : option N) (pkg_version : string) (self : JmcpHandler).

#[local] Abbreviation srx_route :=
  (srx_route value_display error_data_display since_epoch pkg_version self).
#[local] Abbreviation Body := (Body (C := C) (S := S)).

(** [h] ends with the world's core at [w1] and the error [e]. *)
Definition stopped (h : Act (Served C S) CallToolResult Stop) (w : World (Served C S))
    (e : ErrorData) (w1 : World S) : Prop :=
  (h w).1 = Err (RpcError e) /\ served_core (h w).2 = w1.

(** The same of a body, over every scope. *)
Definition body_stopped (body : Body CallToolResult) (cw : World S) (e : ErrorData) (w1 : World S)
  : Prop :=
  forall w, core_world w = cw ->
    let '(r, w') := body w in r = Err (RpcError e) /\ core_world w' = w1.

Lemma audited_stopped scope body w e w1 :
  body_stopped body (served_core w) e w1 -> stopped (audited scope body) w e w1.
Proof using.
  intros H. unfold stopped, audited. set (w0 := mk_world _ _ _). specialize (H w0 eq_refl).
  destruct (body w0) as [r w']. by destruct H.
Qed.

Lemma notes_stopped metas body cw e w1 :
  body_stopped body cw e w1 -> body_stopped (act_then (notes metas) (fun _ => body)) cw e w1.
Proof using.
  intros H w Hw. rewrite (then_run _ _ _ _ _ (notes_run _ _)). by apply H.
Qed.

Lemma note_stopped c body cw e w1 :
  body_stopped body cw e w1 -> body_stopped (act_then (note c) (fun _ => body)) cw e w1.
Proof using. intros H w Hw. unfold note. rewrite then_state. by apply H. Qed.

Lemma package_stopped ctx tool router label confirm token run identity cw e w1 :
  authorize_call self ctx tool (Some router) = Ok ctx ->
  device_identity (core_inventory (w_backend cw)) router = Ok identity ->
  validate_confirmation_request confirm token (option_map token_name ctx) router identity cw =
    (Err e, w1) ->
  body_stopped
    (package_tool value_display since_epoch self ctx tool router label false confirm token run)
    cw (signature_error_to_rmcp value_display e) w1.
Proof using.
  intros Ha Hi Hv w <-.
  change (w_backend (core_world w)) with (op_core (w_backend w)) in Hi. unfold package_tool, authorized. rewrite Ha. unfold read_core.
  rewrite then_get. cbn beta. unfold or_rpc_error at 1. rewrite Hi.
  unfold act_then at 1 2, act_try, act_bind, on_core. cbn [map_err act_ret].
  fold (core_world w). rewrite Hv. split; [done|]. by destruct w1.
Qed.

Lemma authorize_ok ctx tool router c :
  authorize_call self ctx tool router = Ok c -> c = ctx.
Proof using.
  unfold authorize_call. destruct (authorization_required self), ctx; try done;
    repeat case_match; congruence.
Qed.

(** C28: Before a device is opened.  An SRX call that is not authorized is
    answered with the refusal and a record that ends in it, the core as it was;
    and a destructive signature call whose token does not stand (missing,
    unknown, expired, another caller's, router's or device's) is answered with
    the token's error, the core as checking the token left it: no device was
    opened and no workflow ran. *)
Theorem srx_checks_come_first ctx c w :
  (forall e, authorize_call self ctx (srx_name c) (srx_router c) = Err e ->
     (srx_route ctx c w).1 = Ok (srx_scope_to_call_result e) /\
     served_core (srx_route ctx c w).2 = served_core w /\
     exists scope, sv_log (w_backend (srx_route ctx c w).2) = sv_log (w_backend w) ++ [scope] /\
       list.last (as_calls scope) = Some (Deny (deny_reason e))) /\
  (forall router confirm token identity e w1 c',
     destructive_package c = Some (router, confirm, token) ->
     authorize_call self ctx (srx_name c) (srx_router c) = Ok c' ->
     device_identity (core_inventory (sv_core (w_backend w))) router = Ok identity ->
     validate_confirmation_request confirm token (option_map token_name ctx) router identity
       (served_core w) = (Err e, w1) ->
     stopped (srx_route ctx c) w (signature_error_to_rmcp value_display e) w1).
Proof using.
  split.
  - intros e He. destruct (srx_denied value_display error_data_display since_epoch pkg_version
      self ctx c e w He) as (scope & cs & _ & _ & Hcs & ->).
    split_and!; [done..|]. exists scope. split; [done|]. rewrite Hcs. apply list.last_snoc.
  - intros router confirm token identity e w1 c' Hd Ha Hi Hv.
    pose proof (authorize_ok _ _ _ _ Ha) as ->. unfold stopped.
    destruct c; try done; cbn [destructive_package] in Hd; cbn [SrxServer.srx_route srx_name srx_router] in *.
    + unfold manage_idp_security_package. apply audited_stopped, note_stopped, notes_stopped.
      destruct (IdpPackage.action a); simplify_eq; by eapply package_stopped.
    + unfold manage_appid_signature_package. apply audited_stopped, note_stopped.
      destruct (AppidPackage.action a); simplify_eq; by eapply package_stopped.
Qed.

End srx.
