(* ===== verification/Preflight.v ===== *)
(** * The HTTP boundary ([rust-junosmcp/src/http_transport.rs],
      [rust-junosmcp-auth/src/tower.rs])

    [auth_layer] lets a request through with the caller its bearer token stands
    for, or answers it.  [check] is the scope preflight: before dispatch it reads
    the JSON-RPC calls of a body and refuses one whose tool or devices are beyond
    the caller's scopes, through the facade as well as directly.  The token
    store, JSON and [axum]'s body reader are parameters. *)

From S2P Require Import Prelude RustStr Fmt Errors Auth Execute JsonValue.
From Stdlib Require Import Ascii.

(** ** Authentication *)

(** [HeaderValue::to_str]: visible ASCII, spaces and tabs. *)
Definition header_byte (b : ascii) : bool :=
  let n := N_of_ascii b in ((32 <=? n) && (n <? 127) || (n =? 9))%N.
Definition header_to_str (v : string) : option string :=
  if str_forall header_byte v then Some v else None.

Definition parse_bearer (v : string) : option string :=
  match header_to_str v with
  | None => None
  | Some s =>
      let header := trim s in
      if (len header <? 7)%N then None else
      if negb (String.eqb (to_ascii_lowercase (str_take 7 header)) "bearer ") then None else
      let token := trim (str_drop 7 header) in
      if is_empty token then None else Some token
  end.

Record Response := { status : N; headers : list (string * string); body : string }.

Definition quoted (s : string) : string := dquote ^^ s ^^ dquote.
Definition CHALLENGE_NO_CREDENTIALS : string := "Bearer realm=" ^^ quoted "jmcp".
Definition CHALLENGE_INVALID_TOKEN : string :=
  "Bearer realm=" ^^ quoted "jmcp" ^^ ", error=" ^^ quoted "invalid_token"
  ^^ ", error_description=" ^^ quoted "The access token is invalid".

(** A request: its [Authorization] header, if any, and what reading its body to
    the end gives. *)
Record Request := { authorization : option string; request_body : option string }.

(** [axum::body::to_bytes] *)
Definition to_bytes (b : option string) (limit : N) : option string :=
  match b with Some bytes => if (len bytes <=? limit)%N then Some bytes else None | None => None end.

Section boundary.
Context {C : Caller}.
(** [Value::to_string], [TokenStore::authenticate] on the snapshot of the
    store, [run_preflight]. *)
Context (json_compact : Value -> string) (authenticate : string -> option CallerCtx).
Context (run_preflight : string -> CallerCtx -> Result unit string) (body_limit : N).

Definition reject (code : N) (error_code msg challenge : string) : Response := {|
  status := code;
  headers := [("WWW-Authenticate", challenge); ("Content-Type", "application/json")];
  body := json_compact (Object [("error", Str error_code); ("error_description", Str msg)]) |}.
Definition forbidden (reason : string) : Response := {|
  status := 403;
  headers := [("WWW-Authenticate", "Bearer realm=" ^^ quoted "jmcp" ^^ ", error=" ^^ quoted reason);
              ("Content-Type", "application/json")];
  body := json_compact (Object [("error", Str reason)]) |}.
Definition payload_too_large : Response := {|
  status := 413; headers := [("Content-Type", "application/json")];
  body := json_compact (Object [("error", Str "request_too_large")]) |}.

(** What runs next: the handlers, with the caller and the body, or nothing. *)
Inductive Passed := Next (ctx : CallerCtx) (bytes : string) | Replied (r : Response).

Definition auth_layer (req : Request) : Passed :=
  match authorization req with
  | None => Replied (reject 401 "invalid_request" "missing Authorization header"
                       CHALLENGE_NO_CREDENTIALS)
  | Some header_value =>
      match parse_bearer header_value with
      | None => Replied (reject 401 "invalid_request" "Authorization header must use Bearer scheme"
                           CHALLENGE_NO_CREDENTIALS)
      | Some secret =>
          match authenticate secret with
          | None => Replied (reject 401 "invalid_token" "invalid bearer token"
                               CHALLENGE_INVALID_TOKEN)
          | Some ctx =>
              match to_bytes (request_body req) body_limit with
              | None => Replied payload_too_large
              | Some bytes =>
                  match run_preflight bytes ctx with
                  | Err reason => Replied (forbidden reason)
                  | Ok _ => Next ctx bytes
                  end
              end
          end
      end
  end.

End boundary.

(** ** Scope preflight *)

Definition DEVICE_SELECTOR_KEYS : list string :=
  ["device"; "device_name"; "devices"; "device_names"; "router"; "router_name"; "routers";
   "router_names"].

Section preflight.
Context {C : Caller} {X : External} {JT : JsonText}.

Definition device_value_in_scope (value : Value) (caller : CallerCtx) : bool :=
  match value with
  | Str device => allows_device caller device
  | Array [] => false
  | Array devices =>
      forallb (fun d => match d with Str s => allows_device caller s | _ => false end) devices
  | _ => false
  end.

Definition arguments_exceed_device_scope (arguments : option Value) (caller : CallerCtx) : bool :=
  match arguments with
  | Some (Object fields) =>
      existsb (fun key => match obj_get key fields with
                          | Some value => negb (device_value_in_scope value caller)
                          | None => false
                          end) DEVICE_SELECTOR_KEYS
  | Some _ => true
  | None => false
  end.

Definition facade_call_exceeds_scope (outer_arguments : option Value) (caller : CallerCtx) : bool :=
  match outer_arguments with
  | Some (Object outer) =>
      match as_str (obj_get "operation" outer) with
      | None => false
      | Some operation =>
          if negb (existsb (String.eqb operation) (JUNOS_TOOLS ++ SRX_TOOLS)) then false
          else if negb (allows_tool caller operation WRITE_TOOLS) then true
          else match obj_get "arguments" outer with
               | Some (Object _) as arguments => arguments_exceed_device_scope arguments caller
               | _ => false
               end
      end
  | _ => false
  end.

Definition tool_call_exceeds_scope (value : Value) (caller : CallerCtx) : bool :=
  match as_str (value_get "method" value) with
  | Some "tools/call" =>
      match value_get "params" value with
      | None => false
      | Some params =>
          match as_str (value_get "name" params) with
          | None => false
          | Some tool =>
              if negb (allows_tool caller tool WRITE_TOOLS) then true
              else if String.eqb tool "execute"
              then facade_call_exceeds_scope (value_get "arguments" params) caller
              else arguments_exceed_device_scope (value_get "arguments" params) caller
          end
      end
  | _ => false
  end.

Definition request_exceeds_scope (bytes : string) (caller : CallerCtx) : bool :=
  if is_empty bytes then false else
  match json_from_str bytes with
  | Err _ => false
  | Ok (Array values) => existsb (fun value => tool_call_exceeds_scope value caller) values
  | Ok value => tool_call_exceeds_scope value caller
  end.

(** [JunosPreflight::check] *)
Definition check (bytes : string) (caller : CallerCtx) : Result unit string :=
  if request_exceeds_scope bytes caller then Err "insufficient_scope" else Ok tt.

End preflight.

(** ** Properties *)

Lemma parse_bearer_sound v token :
  parse_bearer v = Some token ->
  exists scheme rest, trim v = scheme ^^ rest /\ to_ascii_lowercase scheme = "bearer " /\
                      token = trim rest /\ token <> "".
Proof.
  unfold parse_bearer, header_to_str. destruct (str_forall _ v); [|done].
  destruct (_ <? _)%N; [done|].
  destruct (String.eqb_spec (to_ascii_lowercase (str_take 7 (trim v))) "bearer "); [|done]. cbn [negb].
  destruct (trim (str_drop 7 (trim v))) eqn:E; [done|]. intros [= <-].
  exists (str_take 7 (trim v)), (str_drop 7 (trim v)). by rewrite take_drop_str.
Qed.

Section auth_props.
Context {C : Caller}.
Context (json_compact : Value -> string) (authenticate : string -> option CallerCtx).
Context (run_preflight : string -> CallerCtx -> Result unit string) (body_limit : N).

(** The token a request presents: after the scheme, whatever its case. *)
Definition presents (req : Request) (token : string) : Prop :=
  exists header scheme rest, authorization req = Some header /\ trim header = scheme ^^ rest /\
    to_ascii_lowercase scheme = "bearer " /\ token = trim rest /\ token <> "".

(** Nothing passes the HTTP boundary unauthenticated: a request reaches the
    handlers only with the caller its token stands for in the store, with its
    whole body, no longer than the limit, and past the preflight; every other
    request is answered 401 with a bearer challenge, 413 or 403. *)
Theorem auth_layer_spec req :
  match auth_layer json_compact authenticate run_preflight body_limit req with
  | Next ctx bytes =>
      (exists token, presents req token /\ authenticate token = Some ctx) /\
      request_body req = Some bytes /\ (len bytes <= body_limit)%N /\ run_preflight bytes ctx = Ok tt
  | Replied r =>
      (status r = 401%N /\ exists challenge, ("WWW-Authenticate", challenge) ∈ headers r /\
                          starts_with ("Bearer realm=" ^^ quoted "jmcp") challenge = true) \/
      (status r = 413%N /\ to_bytes (request_body req) body_limit = None) \/
      (status r = 403%N /\ exists token ctx bytes reason,
         presents req token /\ authenticate token = Some ctx /\
         request_body req = Some bytes /\ run_preflight bytes ctx = Err reason)
  end.
Proof.
  assert (forall code error_code msg challenge, ("WWW-Authenticate", challenge) ∈
            headers (reject json_compact code error_code msg challenge)) as Hh by (intros; by left).
  unfold auth_layer. destruct (authorization req) as [header|] eqn:Ha; [|left; split; [done|eauto]].
  destruct (parse_bearer header) as [token|] eqn:Hp; [|left; split; [done|eauto]].
  apply parse_bearer_sound in Hp as (scheme & rest & Hp).
  assert (presents req token) as Ht by (by exists header, scheme, rest).
  destruct (authenticate token) as [ctx|] eqn:Hc; [|left; split; [done|eauto]].
  destruct (to_bytes _ _) as [bytes|] eqn:Hb; [|by right; left].
  assert (request_body req = Some bytes /\ (len bytes <= body_limit)%N) as [Hr Hl].
  { unfold to_bytes in Hb. destruct (request_body req) as [b|]; [|done].
    destruct (N.leb_spec (len b) body_limit); by simplify_eq. }
  destruct (run_preflight bytes ctx) as [[]|reason] eqn:Hf; [split_and!; eauto|].
  right; right. split; [done|]. by exists token, ctx, bytes, reason.
Qed.

End auth_props.

Section preflight_props.
Context {C : Caller} {X : External} {JT : JsonText}.

(** The calls of a body: one, or a batch. *)
Definition calls_of (v : Value) : list Value :=
  match v with Array values => values | _ => [v] end.
(** A JSON-RPC call of [tool] with [arguments]. *)
Definition calls (v : Value) (tool : string) (arguments : option Value) : Prop :=
  value_get "method" v = Some (Str "tools/call") /\
  exists params, value_get "params" v = Some params /\ value_get "name" params = Some (Str tool) /\
                 value_get "arguments" params = arguments.
(** The operation a call is for: its tool, or the one it names to the facade
    with arguments to pass on. *)
Inductive targets (v : Value) : string -> option Value -> Prop :=
  | targets_tool tool arguments :
      calls v tool arguments -> tool <> "execute" -> targets v tool arguments
  | targets_facade outer operation fields :
      calls v "execute" (Some (Object outer)) -> obj_get "operation" outer = Some (Str operation) ->
      operation ∈ JUNOS_TOOLS ++ SRX_TOOLS -> obj_get "arguments" outer = Some (Object fields) ->
      targets v operation (Some (Object fields)).
(** Arguments that select devices of the scope only, by any of the keys. *)
Inductive selects_in_scope (caller : CallerCtx) : Value -> Prop :=
  | selects_one d : allows_device caller d = true -> selects_in_scope caller (Str d)
  | selects_many d ds : Forall (fun d => allows_device caller d = true) (d :: ds) ->
      selects_in_scope caller (Array (map Str (d :: ds))).

Lemma device_value_spec v caller : device_value_in_scope v caller = true <-> selects_in_scope caller v.
Proof.
  split.
  - destruct v as [| | | |s|[|v l]|]; cbn; try done; [by constructor|].
    intros H. assert (exists ds, v :: l = map Str ds) as [[|d ds] Hd]; [|done|].
    { change (forallb (fun d => match d with Str s => allows_device caller s | _ => false end) (v :: l) = true) in H.
      revert H. generalize (v :: l). clear. induction l as [|w l IH]; [by exists []|]. cbn.
      intros [Hw [ds ->]%IH]%andb_true_iff. destruct w; try done. by exists (s :: ds). }
    rewrite Hd. constructor. injection Hd as -> ->. cbn in H. apply andb_true_iff in H as [H1 H2].
    constructor; [done|]. apply list.Forall_forall. intros x Hx. rewrite forallb_forall in H2.
    by apply (H2 (Str x)), in_map, list_elem_of_In.
  - intros [d H|d ds H]; [done|]. cbn. inversion_clear H as [|? ? H1 H2]. rewrite H1. cbn.
    apply forallb_forall. intros x (y & <- & Hy)%in_map_iff.
    apply (proj1 (list.Forall_forall _ _) H2). by apply list_elem_of_In.
Qed.

(** A call beyond the caller's scopes. *)
Inductive exceeds (caller : CallerCtx) (v : Value) : Prop :=
  | exceeds_tool tool arguments :
      calls v tool arguments -> allows_tool caller tool WRITE_TOOLS = false -> exceeds caller v
  | exceeds_operation outer operation :
      calls v "execute" (Some (Object outer)) -> obj_get "operation" outer = Some (Str operation) ->
      operation ∈ JUNOS_TOOLS ++ SRX_TOOLS -> allows_tool caller operation WRITE_TOOLS = false ->
      exceeds caller v
  | exceeds_device operation fields key value :
      targets v operation (Some (Object fields)) -> key ∈ DEVICE_SELECTOR_KEYS ->
      obj_get key fields = Some value -> ~ selects_in_scope caller value -> exceeds caller v
  | exceeds_malformed tool arguments :
      calls v tool (Some arguments) -> tool <> "execute" -> is_object arguments = false ->
      exceeds caller v.

Lemma arguments_exceed_spec fields caller :
  arguments_exceed_device_scope (Some (Object fields)) caller = true <->
  exists key value, key ∈ DEVICE_SELECTOR_KEYS /\ obj_get key fields = Some value /\
                    ~ selects_in_scope caller value.
Proof.
  unfold arguments_exceed_device_scope. rewrite existsb_exists. setoid_rewrite <- device_value_spec.
  setoid_rewrite <- list_elem_of_In. split.
  - intros (key & Hk & H). destruct (obj_get key fields) as [value|] eqn:E; [|done].
    exists key, value. split_and!; [done..|]. by destruct (device_value_in_scope value caller).
  - intros (key & value & Hk & E & H). exists key. rewrite E. split; [done|].
    by destruct (device_value_in_scope value caller).
Qed.

Lemma calls_inv v tool arguments tool' arguments' :
  calls v tool arguments -> calls v tool' arguments' -> tool' = tool /\ arguments' = arguments.
Proof. intros (_ & p & Hp & Hn & <-) (_ & p' & Hp' & Hn' & <-). by simplify_eq. Qed.

Lemma tool_call_calls v caller :
  tool_call_exceeds_scope v caller = true -> exists tool arguments, calls v tool arguments.
Proof.
  unfold tool_call_exceeds_scope, calls.
  destruct (value_get "method" v) as [[| | | |m| |]|] eqn:Em; try done. cbn [as_str].
  destruct (decide (m = "tools/call")) as [->|Hm].
  - destruct (value_get "params" v) as [params|]; [|done].
    destruct (value_get "name" params) as [[| | | |tool| |]|] eqn:En; try done. eauto 8.
  - intros H. exfalso. revert H Hm. clear.
    repeat (destruct m as [|[[] [] [] [] [] [] [] []] m]; try done).
Qed.

(** What is made of a call. *)
Lemma tool_call_eq v caller tool arguments :
  calls v tool arguments ->
  tool_call_exceeds_scope v caller =
  if negb (allows_tool caller tool WRITE_TOOLS) then true
  else if String.eqb tool "execute" then facade_call_exceeds_scope arguments caller
  else arguments_exceed_device_scope arguments caller.
Proof.
  intros (Hm & params & Hp & Hn & <-). unfold tool_call_exceeds_scope. by rewrite Hm, Hp, Hn.
Qed.

Lemma operation_known op :
  existsb (String.eqb op) (JUNOS_TOOLS ++ SRX_TOOLS) = true <-> op ∈ JUNOS_TOOLS ++ SRX_TOOLS.
Proof.
  rewrite existsb_exists. setoid_rewrite <- list_elem_of_In. setoid_rewrite String.eqb_eq. naive_solver.
Qed.

Lemma facade_exceeds_spec v caller arguments :
  calls v "execute" arguments -> allows_tool caller "execute" WRITE_TOOLS = true ->
  facade_call_exceeds_scope arguments caller = true <-> exceeds caller v.
Proof.
  intros Hv Ha. split.
  - unfold facade_call_exceeds_scope.
    destruct arguments as [[| | | | | |outer]|]; try done.
    destruct (obj_get "operation" outer) as [[| | | |op| |]|] eqn:Eo; try done. cbn [as_str].
    destruct (existsb _ _) eqn:Ek; [|done]. apply operation_known in Ek. cbn [negb].
    destruct (allows_tool caller op WRITE_TOOLS) eqn:Et; [|intros _; by eapply exceeds_operation].
    cbn [negb]. destruct (obj_get "arguments" outer) as [[| | | | | |fields]|] eqn:Ef; try done.
    intros (key & value & H1 & H2 & H3)%arguments_exceed_spec.
    eapply exceeds_device; [by eapply targets_facade|done..].
  - intros [tool a H Ht|outer op H Ho Hk Ht|op fields key value Hg H1 H2 H3|tool a H Hn _].
    + apply (calls_inv _ _ _ _ _ Hv) in H as [-> ->]. congruence.
    + apply (calls_inv _ _ _ _ _ Hv) in H as [_ <-]. unfold facade_call_exceeds_scope.
      rewrite Ho. cbn [as_str]. apply operation_known in Hk. by rewrite Hk, Ht.
    + inversion Hg as [? ? H Hn|outer ? ? H Ho Hk Hf]; subst.
      { by apply (calls_inv _ _ _ _ _ Hv) in H as [-> _]. }
      apply (calls_inv _ _ _ _ _ Hv) in H as [_ <-]. unfold facade_call_exceeds_scope.
      rewrite Ho, Hf. cbn [as_str]. apply operation_known in Hk. rewrite Hk. cbn [negb].
      destruct (allows_tool caller op WRITE_TOOLS); [|done]. apply arguments_exceed_spec. eauto.
    + by apply (calls_inv _ _ _ _ _ Hv) in H as [-> _].
Qed.

Lemma direct_exceeds_spec v caller tool arguments :
  calls v tool arguments -> tool <> "execute" -> allows_tool caller tool WRITE_TOOLS = true ->
  arguments_exceed_device_scope arguments caller = true <-> exceeds caller v.
Proof.
  intros Hv Hn Ha. split.
  - destruct arguments as [[| | | | | |fields]|]; try done; try (intros _; by eapply exceeds_malformed).
    intros (key & value & H1 & H2 & H3)%arguments_exceed_spec.
    eapply exceeds_device; [by eapply targets_tool|done..].
  - intros [t a H Ht|outer op H _ _ _|op fields key value Hg H1 H2 H3|t a H _ Ho].
    + apply (calls_inv _ _ _ _ _ Hv) in H as [-> ->]. congruence.
    + by apply (calls_inv _ _ _ _ _ Hv) in H as [<- _].
    + inversion Hg as [? ? H _|outer ? ? H _ _ _]; subst;
        apply (calls_inv _ _ _ _ _ Hv) in H as [? Hs]; [|done].
      rewrite <- Hs. apply arguments_exceed_spec. eauto.
    + apply (calls_inv _ _ _ _ _ Hv) in H as [_ <-]. by destruct a.
Qed.

Lemma tool_call_spec v caller : tool_call_exceeds_scope v caller = true <-> exceeds caller v.
Proof.
  split.
  - intros H. destruct (tool_call_calls _ _ H) as (tool & arguments & Hc).
    rewrite (tool_call_eq _ _ _ _ Hc) in H.
    destruct (allows_tool caller tool WRITE_TOOLS) eqn:Ha; [|by eapply exceeds_tool]. cbn [negb] in H.
    destruct (String.eqb_spec tool "execute") as [->|Hn];
      [by eapply facade_exceeds_spec|by eapply direct_exceeds_spec].
  - intros H. assert (exists tool arguments, calls v tool arguments) as (tool & arguments & Hc).
    { destruct H as [t a H _|o op H _ _ _|op f k w [t a H _|o op' f' H _ _ _] _ _ _|t a H _ _]; eauto. }
    rewrite (tool_call_eq _ _ _ _ Hc).
    destruct (allows_tool caller tool WRITE_TOOLS) eqn:Ha; [|done]. cbn [negb].
    destruct (String.eqb_spec tool "execute") as [->|Hn];
      [by eapply facade_exceeds_spec|by eapply direct_exceeds_spec].
Qed.

Lemma request_exceeds_calls bytes caller :
  request_exceeds_scope bytes caller = true <->
  bytes <> "" /\ exists v call, json_from_str bytes = Ok v /\ call ∈ calls_of v /\
                                tool_call_exceeds_scope call caller = true.
Proof.
  unfold request_exceeds_scope.
  destruct bytes as [|b bytes]; [by split; [|intros []]|]. cbn [is_empty].
  destruct (json_from_str (String b bytes)) as [v|e]; [|split; [done|by intros (_ & ? & ? & ? & _)]].
  assert (match v with
          | Array values => existsb (fun value => tool_call_exceeds_scope value caller) values
          | _ => tool_call_exceeds_scope v caller
          end = existsb (fun value => tool_call_exceeds_scope value caller) (calls_of v)) as ->.
  { destruct v; try done; cbn; by rewrite orb_false_r. }
  rewrite existsb_exists. setoid_rewrite <- list_elem_of_In. split.
  - intros (call & Hc & H). split; [done|]. by exists v, call.
  - intros (_ & w & call & [= <-] & Hc & H). by exists call.
Qed.

(** C38: the preflight refuses a body exactly when one of the calls in it is
    beyond the caller's scopes: its tool is not allowed; or the operation it
    names to the facade is not; or a device selector, under any of the spellings
    and for the facade in the arguments passed on, is not one or several devices
    of the scope; or the arguments of a direct call are not an object. *)
Theorem preflight_spec bytes caller :
  is_ok (check bytes caller) = false <->
  bytes <> "" /\ exists v call, json_from_str bytes = Ok v /\ call ∈ calls_of v /\ exceeds caller call.
Proof.
  setoid_rewrite <- tool_call_spec. rewrite <- request_exceeds_calls. unfold check.
  by destruct (request_exceeds_scope bytes caller).
Qed.

(** Past the preflight no call exceeds the scopes. *)
Lemma passed_calls bytes v call caller :
  is_ok (check bytes caller) = true -> bytes <> "" -> json_from_str bytes = Ok v -> call ∈ calls_of v ->
  ~ exceeds caller call.
Proof.
  unfold check. intros Hc Hb Hj Hcall H%tool_call_spec.
  rewrite (proj2 (request_exceeds_calls bytes caller)) in Hc; [done|eauto 6].
Qed.

(** Through the facade or not, a known operation with arguments is judged the
    same, once the facade itself is allowed. *)
Lemma facade_like_direct op fields caller :
  op ∈ JUNOS_TOOLS ++ SRX_TOOLS -> allows_tool caller "execute" WRITE_TOOLS = true ->
  let call name arguments := Object [("method", Str "tools/call");
    ("params", Object [("name", Str name); ("arguments", Object arguments)])] in
  tool_call_exceeds_scope (call "execute" [("operation", Str op); ("arguments", Object fields)]) caller =
  tool_call_exceeds_scope (call op fields) caller.
Proof.
  intros Hk Ha call. assert (op <> "execute") as Hn by (intros ->; apply operation_known in Hk; by vm_compute in Hk).
  apply operation_known in Hk. unfold tool_call_exceeds_scope. cbn [value_get obj_get call as_str String.eqb Ascii.eqb Bool.eqb].
  rewrite Ha. cbn [negb]. unfold facade_call_exceeds_scope.
  cbn [value_get obj_get as_str String.eqb Ascii.eqb Bool.eqb]. rewrite Hk. cbn [negb].
  apply String.eqb_neq in Hn. by rewrite Hn.
Qed.

End preflight_props.
