(* ===== verification/SchemaAlias.v ===== *)
(** * Aliases in a schema ([schema_alias.rs] and the groups of [tools/mod.rs])

    [describe_aliases] adds to the JSON schema of a tool's arguments the other
    spellings its deserializer takes.  Its property compares what the schema then
    accepts, of the names of an object's members ([accepts], a reading of JSON
    Schema's keywords that constrain them), with what [serde] does. *)

From S2P Require Import Prelude RustStr Fmt Errors JsonValue.

(** [schemars::Schema], an object. *)
Definition Schema : Type := list (string * Value).
(** A property and its other spellings. *)
Definition Group : Type := string * list string.

Definition annotate_as_alias (subschema : Value) (canonical : string) : Value :=
  let note := "Alias for `" ^^ canonical ^^ "`; accepted for backward compatibility." in
  match subschema with
  | Object fields =>
      let description := match obj_get "description" fields with
                         | Some (Str existing) => existing ^^ newline ^^ newline ^^ note
                         | _ => note
                         end in
      Object (obj_insert "description" (Str description) fields)
  | v => v
  end.

Definition insert_aliases (g : Group) (subschema : Value) (properties : list (string * Value))
  : list (string * Value) :=
  foldl (fun ps alias => obj_insert alias (annotate_as_alias subschema g.1) ps) properties g.2.

Definition is_name (name : string) (v : Value) : bool :=
  match v with Str s => String.eqb s name | _ => false end.
(** Whether the property was required; it no longer is. *)
Definition take_requirement (canonical : string) (schema : Schema) : bool * Schema :=
  match obj_get "required" schema with
  | Some (Array required) =>
      if existsb (is_name canonical) required
      then (true, obj_insert "required"
                    (Array (List.filter (fun name => negb (is_name canonical name)) required)) schema)
      else (false, schema)
  | _ => (false, schema)
  end.

Definition requires (names : list string) : Value :=
  Object [("required", Array (map Str names))].
(** Each pair of them is excluded. *)
Fixpoint exclusions (names : list string) : list Value :=
  match names with
  | [] => []
  | first :: rest =>
      map (fun second => Object [("not", requires [first; second])]) rest ++ exclusions rest
  end.
Definition choices_of (was_required : bool) (names : list string) : list Value :=
  if was_required
  then [Object [("oneOf", Array (map (fun name => requires [name]) names))]]
  else exclusions names.

(** One group.  The schema's [properties] are an object throughout. *)
Definition describe_group (original : list (string * Value)) (acc : Schema * list Value) (g : Group)
  : Schema * list Value :=
  let (schema, required_choices) := acc in
  match obj_get g.1 original with
  | None => acc
  | Some subschema =>
      let schema := match obj_get "properties" schema with
                    | Some (Object properties) =>
                        obj_insert "properties" (Object (insert_aliases g subschema properties)) schema
                    | _ => schema
                    end in
      let (was_required, schema) := take_requirement g.1 schema in
      (schema, required_choices ++ choices_of was_required (g.1 :: g.2))
  end.

Definition describe_aliases (groups : list Group) (schema : Schema) : Schema :=
  match obj_get "properties" schema with
  | Some (Object original) =>
      let (schema, required_choices) := foldl (describe_group original) (schema, []) groups in
      let schema := match obj_get "required" schema with
                    | Some (Array []) => obj_remove "required" schema
                    | _ => schema
                    end in
      match required_choices with
      | [] => schema
      | _ => obj_insert "allOf" (Array required_choices) schema
      end
  | _ => schema
  end.

Definition device_group : Group := ("device", ["router_name"; "router"]).
Definition device_aliases : Schema -> Schema := describe_aliases [device_group].
Definition router_name_alias : Schema -> Schema := describe_aliases [("router", ["router_name"])].
Definition get_config_aliases : Schema -> Schema :=
  describe_aliases [("device", ["router_name"; "router"]); ("config_path", ["filter"])].
Definition batch_aliases : Schema -> Schema :=
  describe_aliases [("devices", ["routers"; "router"; "router_name"]);
                    ("max_concurrent_devices", ["max_concurrent_routers"])].
Definition template_aliases : Schema -> Schema :=
  describe_aliases [("device_name", ["router_name"; "router"]); ("device_names", ["router_names"])].

(** ** What a schema accepts

    Of an object whose members have the names [keys], by JSON Schema's
    [required], [additionalProperties: false], [allOf], [oneOf] and [not]; [n]
    bounds the nesting looked into. *)

Definition has_all (keys : list string) (names : list Value) : bool :=
  forallb (fun v => match v with Str s => bool_decide (s ∈ keys) | _ => false end) names.
Definition members_of (v : option Value) : list (string * Value) :=
  match v with Some (Object fields) => fields | _ => [] end.
Definition branches_of (v : option Value) : list Value :=
  match v with Some (Array l) => l | _ => [] end.

Fixpoint accepts (n : nat) (schema : Value) (keys : list string) : bool :=
  match n, schema with
  | S n, Object m =>
      has_all keys (branches_of (obj_get "required" m))
      && match obj_get "additionalProperties" m with
         | Some (Bool false) =>
             forallb (fun k => bool_decide (k ∈ map fst (members_of (obj_get "properties" m)))) keys
         | _ => true
         end
      && forallb (fun s => accepts n s keys) (branches_of (obj_get "allOf" m))
      && match obj_get "oneOf" m with
         | Some (Array l) => Nat.eqb (length (List.filter (fun s => accepts n s keys) l)) 1
         | _ => true
         end
      && match obj_get "not" m with Some s => negb (accepts n s keys) | None => true end
  | _, _ => true
  end.

(** What [serde] does with them: a struct that denies unknown fields takes each
    field under its name or one of its aliases, once, and a field without a
    default must be there. *)
Record Field := { f_name : string; f_aliases : list string; f_default : option Value }.

Definition spellings (f : Field) : list string := f_name f :: f_aliases f.
Definition is_required (f : Field) : bool := match f_default f with None => true | Some _ => false end.
Definition count (keys names : list string) : nat :=
  length (List.filter (fun k => bool_decide (k ∈ keys)) names).
Definition deserializes (fs : list Field) (keys : list string) : Prop :=
  (forall k, k ∈ keys -> exists f, f ∈ fs /\ k ∈ spellings f) /\
  (forall f, f ∈ fs -> if is_required f then count keys (spellings f) = 1
                      else count keys (spellings f) <= 1).

(** The groups a struct's transform has to name. *)
Definition is_aliased (f : Field) : bool := match f_aliases f with [] => false | _ => true end.
Definition group_of (f : Field) : Group := (f_name f, f_aliases f).
Definition groups_of (fs : list Field) : list Group := map group_of (List.filter is_aliased fs).

(** What [schemars] derives for the struct before the transform. *)
Definition requires_names (m : Schema) (names : list string) : Prop :=
  obj_get "required" m = Some (Array (map Str names)) \/ (obj_get "required" m = None /\ names = []).
Record describes (m : Schema) (fs : list Field) : Prop := {
  d_keys : NoDup (map fst m);
  d_props : exists props, obj_get "properties" m = Some (Object props) /\ map fst props = map f_name fs;
  d_required : requires_names m (map f_name (List.filter is_required fs));
  d_closed : obj_get "additionalProperties" m = Some (Bool false);
  d_all : obj_get "allOf" m = None; d_one : obj_get "oneOf" m = None; d_not : obj_get "not" m = None }.

(** ** Properties *)

(** *** What the added constraints say *)

Lemma has_all_names keys names :
  has_all keys (map Str names) = true <-> forall k, k ∈ names -> k ∈ keys.
Proof.
  unfold has_all. rewrite forallb_forall. split.
  - intros H k Hk. specialize (H (Str k) (in_map Str _ _ (proj1 (list_elem_of_In _ _) Hk))).
    by apply bool_decide_eq_true in H.
  - intros H v (k & <- & Hk)%in_map_iff. apply bool_decide_eq_true, H. by apply list_elem_of_In.
Qed.

Lemma accepts_requires n keys names :
  accepts (S n) (requires names) keys = true <-> forall k, k ∈ names -> k ∈ keys.
Proof. cbn. rewrite !andb_true_r. apply has_all_names. Qed.

Lemma accepts_oneOf_eq n l keys :
  accepts (S n) (Object [("oneOf", Array l)]) keys =
  Nat.eqb (length (List.filter (fun s => accepts n s keys) l)) 1.
Proof. cbn. by rewrite andb_true_r. Qed.
Lemma accepts_not_eq n s keys :
  accepts (S n) (Object [("not", s)]) keys = negb (accepts n s keys).
Proof. done. Qed.

Lemma accepts_one_of n keys names :
  accepts (S (S n)) (Object [("oneOf", Array (map (fun name => requires [name]) names))]) keys =
  Nat.eqb (count keys names) 1.
Proof.
  rewrite accepts_oneOf_eq. f_equal. unfold count.
  induction names as [|name names IH]; [done|]. cbn [map List.filter].
  assert (accepts (S n) (requires [name]) keys = bool_decide (name ∈ keys)) as ->.
  { apply eq_true_iff_eq. rewrite accepts_requires, bool_decide_eq_true. set_solver. }
  destruct (bool_decide (name ∈ keys)); cbn [length]; by rewrite IH.
Qed.

Lemma count_cons keys k names :
  count keys (k :: names) = (if bool_decide (k ∈ keys) then 1 else 0) + count keys names.
Proof. unfold count. cbn. by destruct (bool_decide _). Qed.
Lemma count_zero keys names : count keys names = 0 <-> forall k, k ∈ names -> k ∉ keys.
Proof.
  induction names as [|k names IH]; [split; [by intros _ ? ?%not_elem_of_nil|done]|].
  rewrite count_cons. setoid_rewrite elem_of_cons. case_bool_decide; [|naive_solver].
  split; [lia|]. intros Hn. exfalso. naive_solver.
Qed.

Lemma accepts_excluded n k k' keys :
  accepts (S (S n)) (Object [("not", requires [k; k'])]) keys = true <-> ~ (k ∈ keys /\ k' ∈ keys).
Proof. rewrite accepts_not_eq, negb_true_iff, <- not_true_iff_false, accepts_requires. set_solver. Qed.

Lemma accepts_exclusions n keys names :
  forallb (fun s => accepts (S (S n)) s keys) (exclusions names) = true <-> count keys names <= 1.
Proof.
  induction names as [|k names IH]; [cbn; split; [lia|done]|]. cbn [exclusions].
  rewrite forallb_app, andb_true_iff, IH, count_cons.
  assert (forallb (fun s => accepts (S (S n)) s keys)
            (map (fun second => Object [("not", requires [k; second])]) names) = true
          <-> (k ∈ keys -> count keys names = 0)) as ->.
  { rewrite count_zero, forallb_forall. setoid_rewrite in_map_iff. split.
    - intros H Hk k' Hk' Hin. apply (proj1 (accepts_excluded n k k' keys)); [|done].
      apply H. exists k'. split; [done|]. by apply list_elem_of_In.
    - intros H s (k' & <- & Hk'). apply accepts_excluded. intros [Hk Hin].
      apply (H Hk k'); [by apply list_elem_of_In|done]. }
  case_bool_decide; [|split; [intros []; lia|intros; split; [done|lia]]].
  split; [intros [H1 _]; specialize (H1 ltac:(done)); lia|intros; split; lia].
Qed.

Lemma accepts_choices n keys required names :
  forallb (fun s => accepts (S (S n)) s keys) (choices_of required names) = true <->
  (if required then count keys names = 1 else count keys names <= 1).
Proof.
  destruct required; [|apply accepts_exclusions]. cbn [choices_of forallb].
  by rewrite andb_true_r, accepts_one_of, Nat.eqb_eq.
Qed.

(** *** What the groups make of a schema *)

(** The requirements that stay when those of [names] are taken. *)
Definition remaining (names required : list string) : list string :=
  List.filter (fun r => negb (bool_decide (r ∈ names))) required.

Lemma remaining_snoc names name required :
  remaining (names ++ [name]) required =
  List.filter (fun r => negb (String.eqb r name)) (remaining names required).
Proof.
  unfold remaining. induction required as [|r required IH]; [done|]. cbn. rewrite IH.
  assert (bool_decide (r ∈ names ++ [name]) = bool_decide (r ∈ names) || String.eqb r name) as ->.
  { apply eq_true_iff_eq. rewrite orb_true_iff, !bool_decide_eq_true, String.eqb_eq. set_solver. }
  destruct (bool_decide (r ∈ names)); [done|]. cbn. by destruct (String.eqb r name).
Qed.

Lemma remaining_elem names required r : r ∈ remaining names required <-> r ∈ required /\ r ∉ names.
Proof.
  unfold remaining. rewrite !list_elem_of_In, filter_In, negb_true_iff, bool_decide_eq_false, list_elem_of_In. done.
Qed.

Lemma names_filter c names :
  List.filter (fun v => negb (is_name c v)) (map Str names) =
  map Str (List.filter (fun r => negb (String.eqb r c)) names).
Proof. induction names as [|r names IH]; [done|]. cbn. rewrite IH. by destruct (String.eqb r c). Qed.

Lemma names_exist c names : existsb (is_name c) (map Str names) = bool_decide (c ∈ names).
Proof.
  apply eq_true_iff_eq. rewrite existsb_exists, bool_decide_eq_true. setoid_rewrite in_map_iff. split.
  - intros (v & (r & <- & Hr%list_elem_of_In) & Hc). cbn in Hc. by apply String.eqb_eq in Hc as ->.
  - intros Hc%list_elem_of_In. exists (Str c). split; [eauto|]. cbn. apply String.eqb_refl.
Qed.

Lemma filter_absent c names :
  c ∉ names -> List.filter (fun r => negb (String.eqb r c)) names = names.
Proof.
  induction names as [|r names IH]; [done|]. rewrite not_elem_of_cons. intros [H1 H2]. cbn.
  destruct (String.eqb_spec r c); [congruence|]. cbn. by rewrite IH.
Qed.

Lemma take_requirement_spec c m names :
  requires_names m names ->
  (take_requirement c m).1 = bool_decide (c ∈ names) /\
  requires_names (take_requirement c m).2 (List.filter (fun r => negb (String.eqb r c)) names) /\
  (forall k, k <> "required" -> obj_get k (take_requirement c m).2 = obj_get k m) /\
  (NoDup (map fst m) -> NoDup (map fst (take_requirement c m).2)).
Proof.
  unfold take_requirement. intros [H|[H ->]]; rewrite H; [|by split_and!; [|right| |]].
  rewrite names_exist. case_bool_decide as Hc; cbn.
  - rewrite names_filter. split_and!; [done|left; by rewrite obj_get_insert| |by apply NoDup_insert].
    intros k Hk. rewrite obj_get_insert. by destruct (String.eqb_spec "required" k).
  - rewrite filter_absent by done. by split_and!; [|left| |].
Qed.

Lemma insert_aliases_keys g v props k :
  k ∈ map fst (insert_aliases g v props) <-> k ∈ map fst props \/ k ∈ g.2.
Proof.
  unfold insert_aliases. generalize props. induction (g.2) as [|a l IH]; intros ps; cbn; [set_solver|].
  rewrite IH, map_fst_insert, elem_of_cons. tauto.
Qed.

Section groups.
Context (m : Schema) (fs : list Field) (Hm : describes m fs).

Definition choices (gs : list Group) : list Value :=
  concat (map (fun g => choices_of (bool_decide (g.1 ∈ map f_name (List.filter is_required fs)))
                          (g.1 :: g.2)) gs).

(** After the groups [gs]. *)
Record described (gs : list Group) (acc : Schema * list Value) : Prop := {
  i_keys : NoDup (map fst acc.1);
  i_props : exists ps, obj_get "properties" acc.1 = Some (Object ps) /\
    forall k, k ∈ map fst ps <-> k ∈ map f_name fs \/ exists g, g ∈ gs /\ k ∈ g.2;
  i_required : requires_names acc.1
    (remaining (map fst gs) (map f_name (List.filter is_required fs)));
  i_rest : forall k, k <> "properties" -> k <> "required" -> obj_get k acc.1 = obj_get k m;
  i_choices : acc.2 = choices gs }.

Lemma describe_group_step original gs acc g :
  described gs acc -> g.1 ∈ map fst original -> g.1 ∉ map fst gs ->
  described (gs ++ [g]) (describe_group original acc g).
Proof.
  destruct acc as [sch ch]. intros [Hk (ps & Hps & Hpk) Hr Ho Hc] Hg Hn. cbn [fst snd] in *.
  unfold describe_group. destruct (obj_get_elem _ _ Hg) as [sub ->]. rewrite Hps.
  set (sch' := obj_insert "properties" _ sch).
  assert (requires_names sch' (remaining (map fst gs) (map f_name (List.filter is_required fs)))) as Hr'.
  { destruct Hr as [Hr|[Hr ->]]; [left|right; split; [|done]]; unfold sch'; by rewrite obj_get_insert. }
  destruct (take_requirement_spec g.1 _ _ Hr') as (T1 & T2 & T3 & T4).
  destruct (take_requirement g.1 sch') as [b sch'']. cbn [fst snd] in *. split; cbn [fst snd].
  - by apply T4, NoDup_insert.
  - eexists. rewrite T3 by done. unfold sch'. rewrite obj_get_insert. split; [done|].
    intros k. rewrite insert_aliases_keys, Hpk. setoid_rewrite elem_of_app.
    setoid_rewrite list_elem_of_singleton. naive_solver.
  - rewrite map_app. change (map fst [g]) with [g.1]. by rewrite remaining_snoc.
  - intros k H1 H2. rewrite T3 by done. unfold sch'. rewrite obj_get_insert.
    destruct (String.eqb_spec "properties" k); [congruence|auto].
  - rewrite Hc, T1. unfold choices. rewrite map_app, concat_app. cbn. rewrite app_nil_r.
    do 2 f_equal. apply bool_decide_ext. rewrite remaining_elem. naive_solver.
Qed.

Lemma describe_groups original gs done acc :
  described done acc -> Forall (fun g => g.1 ∈ map fst original) gs ->
  NoDup (map fst (done ++ gs)) -> described (done ++ gs) (foldl (describe_group original) acc gs).
Proof.
  revert done acc. induction gs as [|g gs IH]; intros done acc Hd Hf Hn; [by rewrite app_nil_r|].
  inversion Hf as [|? ? H1 H2]; subst. cbn [foldl].
  replace (done ++ g :: gs) with ((done ++ [g]) ++ gs) in * by (by rewrite <- app_assoc).
  apply IH; [|done..]. apply describe_group_step; [done..|]. intros Hin.
  rewrite !map_app in Hn. apply list.NoDup_app in Hn as (Hn & _ & _).
  apply list.NoDup_app in Hn as (_ & Hn & _). apply (Hn _ Hin). by left.
Qed.

Lemma described_start : described [] (m, []).
Proof.
  destruct Hm as [H1 (ps & H2 & H3) H4 _ _ _ _]. split; cbn [fst snd].
  - done.
  - exists ps. split; [done|]. intros k. rewrite H3. set_solver.
  - unfold remaining. cbn. clear -H4. revert H4. generalize (map f_name (List.filter is_required fs)).
    intros l. assert (List.filter (fun r => negb (bool_decide (r ∈ []))) l = l) as ->; [|done].
    induction l as [|r l IH]; [done|]. cbn. by rewrite IH.
  - done.
  - done.
Qed.

(** The schema with its aliases. *)
Record aliased (m' : Schema) (gs : list Group) : Prop := {
  a_required : forall keys, has_all keys (branches_of (obj_get "required" m')) = true <->
    forall r, r ∈ map f_name (List.filter is_required fs) -> r ∉ map fst gs -> r ∈ keys;
  a_closed : obj_get "additionalProperties" m' = Some (Bool false);
  a_props : forall k, k ∈ map fst (members_of (obj_get "properties" m')) <->
    k ∈ map f_name fs \/ exists g, g ∈ gs /\ k ∈ g.2;
  a_all : branches_of (obj_get "allOf" m') = choices gs;
  a_one : obj_get "oneOf" m' = None; a_not : obj_get "not" m' = None }.

Lemma drop_empty_required sch names :
  NoDup (map fst sch) -> requires_names sch names ->
  let sch' := match obj_get "required" sch with
              | Some (Array []) => obj_remove "required" sch
              | _ => sch
              end in
  (forall k, k <> "required" -> obj_get k sch' = obj_get k sch) /\
  branches_of (obj_get "required" sch') = map Str names.
Proof.
  intros Hk [Hr|[Hr ->]]; rewrite Hr; cbn zeta; [|by rewrite Hr].
  destruct names as [|r names]; cbn [map]; [|by rewrite Hr].
  split; [|by rewrite obj_get_remove].
  intros k H. rewrite obj_get_remove by done. by destruct (String.eqb_spec "required" k).
Qed.

Lemma describe_aliases_spec gs :
  Forall (fun g => g.1 ∈ map f_name fs) gs -> NoDup (map fst gs) ->
  aliased (describe_aliases gs m) gs.
Proof.
  intros Hf Hn. destruct Hm as [_ (props & Hp & Hpk) _ H1 H2 H3 H4].
  assert (described gs (foldl (describe_group props) (m, []) gs)) as [I1 (ps & I2 & I3) I4 I5 I6].
  { apply (describe_groups props gs []); [apply described_start|by rewrite Hpk|done]. }
  unfold describe_aliases. rewrite Hp.
  destruct (foldl (describe_group props) (m, []) gs) as [sch ch]. cbn [fst snd] in *.
  destruct (drop_empty_required _ _ I1 I4) as [D1 D2]. cbn zeta in D1, D2.
  set (sch' := match obj_get "required" sch with Some (Array []) => _ | _ => _ end) in *.
  assert (forall k, k <> "allOf" -> obj_get k (match ch with [] => sch' | _ =>
            obj_insert "allOf" (Array ch) sch' end) = obj_get k sch') as E.
  { intros k Hk. destruct ch; [done|]. rewrite obj_get_insert. by destruct (String.eqb_spec "allOf" k). }
  split.
  - intros keys. rewrite E, D2, has_all_names by done. setoid_rewrite remaining_elem. naive_solver.
  - by rewrite E, D1, I5.
  - intros k. rewrite E, D1, I2 by done. apply I3.
  - rewrite <- I6. destruct ch as [|c ch]; [by rewrite D1, I5, H2|]. by rewrite obj_get_insert.
  - by rewrite E, D1, I5.
  - by rewrite E, D1, I5.
Qed.

End groups.

Lemma groups_of_fields fs g :
  g ∈ groups_of fs <-> exists f, f ∈ fs /\ is_aliased f = true /\ g = group_of f.
Proof.
  unfold groups_of. rewrite list_elem_of_In, in_map_iff. setoid_rewrite filter_In.
  setoid_rewrite <- list_elem_of_In. naive_solver.
Qed.

Lemma field_unaliased f : is_aliased f = false -> f_aliases f = [].
Proof. unfold is_aliased. by destruct (f_aliases f). Qed.

Lemma same_field fs f f' :
  NoDup (map f_name fs) -> f ∈ fs -> f' ∈ fs -> f_name f = f_name f' -> f = f'.
Proof.
  intros Hn [i Hi]%list_elem_of_lookup [j Hj]%list_elem_of_lookup E.
  assert (i = j) as ->; [|congruence].
  apply (NoDup_lookup (map f_name fs) i j (f_name f)); [done|by rewrite list_lookup_fmap, Hi|].
  by rewrite list_lookup_fmap, Hj, E.
Qed.

Lemma NoDup_groups fs : NoDup (map f_name fs) -> NoDup (map fst (groups_of fs)).
Proof.
  induction fs as [|f fs IH]; [intros; constructor|]. cbn. intros [H1 H2]%list.NoDup_cons.
  specialize (IH H2). unfold groups_of. cbn. destruct (is_aliased f); [|done]. cbn.
  apply list.NoDup_cons. split; [|done]. intros (g & Hf & Hg)%list_elem_of_fmap.
  apply groups_of_fields in Hg as (f' & Hg & _ & ->). apply H1. rewrite Hf. by apply (list_elem_of_fmap_2 f_name).
Qed.

Lemma choices_spec fs gs keys n :
  forallb (fun s => accepts (S (S n)) s keys) (choices fs gs) = true <->
  forall g, g ∈ gs -> if bool_decide (g.1 ∈ map f_name (List.filter is_required fs))
                      then count keys (g.1 :: g.2) = 1 else count keys (g.1 :: g.2) <= 1.
Proof.
  induction gs as [|g gs IH]; [split; [by intros _ ? ?%not_elem_of_nil|done]|].
  unfold choices in *. cbn [map concat]. rewrite forallb_app, andb_true_iff, IH, accepts_choices.
  setoid_rewrite elem_of_cons. naive_solver.
Qed.

Lemma required_field fs f :
  NoDup (map f_name fs) -> f ∈ fs ->
  bool_decide (f_name f ∈ map f_name (List.filter is_required fs)) = is_required f.
Proof.
  intros Hn Hf. apply eq_true_iff_eq. rewrite bool_decide_eq_true, list_elem_of_fmap.
  setoid_rewrite list_elem_of_In. setoid_rewrite filter_In. setoid_rewrite <- list_elem_of_In. split.
  - intros (f' & E & Hf' & Hr). by rewrite (same_field fs f f' Hn Hf Hf' E).
  - intros Hr. by exists f.
Qed.

(** The three readings of a field: given as its group says, or, without a group,
    as [required] says. *)
Lemma field_reading fs keys :
  NoDup (map f_name fs) ->
  ((forall r, r ∈ map f_name (List.filter is_required fs) -> r ∉ map fst (groups_of fs) -> r ∈ keys) /\
   (forall g : Group, g ∈ groups_of fs -> if bool_decide (g.1 ∈ map f_name (List.filter is_required fs))
                      then count keys (g.1 :: g.2) = 1 else count keys (g.1 :: g.2) <= 1)) <->
  (forall f, f ∈ fs -> if is_required f then count keys (spellings f) = 1
                       else count keys (spellings f) <= 1).
Proof.
  intros Hn. assert (forall k, count keys [k] = if bool_decide (k ∈ keys) then 1 else 0) as C1.
  { intros k. rewrite count_cons. unfold count. cbn. lia. }
  split.
  - intros [H1 H2] f Hf. rewrite <- (required_field fs f Hn Hf).
    destruct (is_aliased f) eqn:Ea.
    + apply (H2 (group_of f)), groups_of_fields. by exists f.
    + unfold spellings. rewrite (field_unaliased _ Ea), C1. case_bool_decide as Hr; [|case_bool_decide; lia].
      rewrite bool_decide_eq_true_2; [done|]. apply H1; [done|].
      intros (g & E & (f' & Hf' & Ea' & ->)%groups_of_fields)%list_elem_of_fmap.
      rewrite (same_field fs f f' Hn Hf Hf' E) in Ea. congruence.
  - intros H. split.
    + intros r (f & -> & Hf)%list_elem_of_fmap Hg. rewrite list_elem_of_In, filter_In in Hf.
      rewrite <- list_elem_of_In in Hf. destruct Hf as [Hf Hr]. specialize (H f Hf). rewrite Hr in H.
      assert (is_aliased f = false) as Ea.
      { apply not_true_iff_false. intros Ea. apply Hg, list_elem_of_fmap. exists (group_of f).
        split; [done|]. apply groups_of_fields. by exists f. }
      unfold spellings in H. rewrite (field_unaliased _ Ea), C1 in H. by case_bool_decide.
    + intros g (f & Hf & _ & ->)%groups_of_fields. cbn. rewrite (required_field fs f Hn Hf). by apply H.
Qed.

Lemma names_reading fs (keys : list string) :
  (forall k, k ∈ keys -> k ∈ map f_name fs \/ exists g : Group, g ∈ groups_of fs /\ k ∈ g.2) <->
  (forall k, k ∈ keys -> exists f, f ∈ fs /\ k ∈ spellings f).
Proof.
  apply forall_proper. intros k. apply imp_iff_compat_l. unfold spellings.
  setoid_rewrite (elem_of_cons (A:=string)). rewrite list_elem_of_fmap. split.
  - intros [(f & -> & Hf)|(g & (f & Hf & _ & ->)%groups_of_fields & Hk)]; eauto.
  - intros (f & Hf & [->|Hk]); [eauto|]. right. exists (group_of f). split; [|done].
    apply groups_of_fields. exists f. split_and!; [done| |done]. unfold is_aliased.
    destruct (f_aliases f); [by apply not_elem_of_nil in Hk|done].
Qed.

(** A schema whose aliases are described is neither narrower nor wider than the
    deserializer of the struct it was derived for. *)
Lemma aliased_accepts fs m' keys n :
  NoDup (map f_name fs) -> aliased fs m' (groups_of fs) ->
  accepts (S (S (S n))) (Object m') keys = true <-> deserializes fs keys.
Proof.
  intros Hn [A1 A2 A3 A4 A5 A6]. remember (S (S n)) as n'. cbn [accepts]. subst n'.
  rewrite A2, A4, A5, A6, !andb_true_r, !andb_true_iff, A1, choices_spec, forallb_forall.
  setoid_rewrite bool_decide_eq_true. setoid_rewrite A3. setoid_rewrite <- list_elem_of_In.
  rewrite names_reading. unfold deserializes. rewrite <- (field_reading fs keys Hn). tauto.
Qed.

Lemma described_schema_accepts fs m keys n :
  NoDup (map f_name fs) -> describes m fs ->
  accepts (S (S (S n))) (Object (describe_aliases (groups_of fs) m)) keys = true <->
  deserializes fs keys.
Proof.
  intros Hn Hm. apply aliased_accepts; [done|]. apply describe_aliases_spec; [done| |by apply NoDup_groups].
  apply list.Forall_forall. intros g (f & Hf & _ & ->)%groups_of_fields.
  by apply (list_elem_of_fmap_2 f_name).
Qed.

(** Without aliases there is nothing to describe. *)
Lemma plain_schema_accepts fs m keys n :
  NoDup (map f_name fs) -> describes m fs -> groups_of fs = [] ->
  accepts (S (S (S n))) (Object m) keys = true <-> deserializes fs keys.
Proof.
  intros Hn Hm Hg. apply aliased_accepts; [done|]. rewrite Hg.
  destruct Hm as [_ (props & Hp & Hpk) Hr H1 H2 H3 H4]. split; [|done| | |done|done].
  - intros ks. destruct Hr as [Hr|[Hr Hq]]; rewrite Hr; [|rewrite Hq];
      cbn [branches_of]; [rewrite has_all_names; set_solver|]. cbn. set_solver.
  - intros k. rewrite Hp. cbn. rewrite Hpk. set_solver.
  - by rewrite H2.
Qed.
