(* ===== verification/ToolArgs.v ===== *)
(** * The arguments of the tools ([tools/mod.rs], [tools/changeset.rs],
      [workflows/*.rs] of the SRX crate)

    Each tool's arguments as the struct [serde] fills: its fields, their aliases
    and their defaults, the transform its JSON schema gets, and the fields its
    handler takes devices from.  Two facts about all of them: the schema shown for
    a tool accepts the member names its deserializer takes, no more and no less;
    and the scope preflight looks at every spelling a device can be given under. *)

From S2P Require Import Prelude RustStr Fmt Errors Auth Execute ListPolicies ListNatRules.
From S2P Require Import JsonValue Preflight SchemaAlias.

Record Struct := {
  st_tools : list string;
  st_transform : Schema -> Schema;
  st_devices : list string;
  st_fields : list Field }.

Definition required (name : string) : Field :=
  {| f_name := name; f_aliases := []; f_default := None |}.
Definition optional (name : string) (d : Value) : Field :=
  {| f_name := name; f_aliases := []; f_default := Some d |}.
Definition aliased (f : Field) (names : list string) : Field :=
  {| f_name := f_name f; f_aliases := names; f_default := f_default f |}.
(** No [transform]. *)
Definition id_transform (schema : Schema) : Schema := schema.

(** ** Defaults *)

Definition default_timeout : Value := Number 360.
Definition default_transfer_timeout : Value := Number 600.
Definition default_list_staged_timeout : Value := Number 30.
Definition default_upgrade_timeout : Value := Number 900.
Definition default_reboot_wait_secs : Value := Number 480.
Definition default_verify : Value := Bool true.
Definition default_version : Value := Number 1.
Definition default_set_format : Value := Str "set".
Definition default_get_config_format : Value := Str "text".
Definition default_load_mode : Value := Str "merge".
Definition default_commit_comment : Value := Str "Configuration loaded via MCP".
Definition default_max_concurrent_devices : Value := Number 16.
Definition policies_default_limit : Value := Number (Z.of_N DEFAULT_POLICY_LIMIT).
Definition nat_default_limit : Value := Number (Z.of_N DEFAULT_NAT_RULE_LIMIT).
Definition default_true : Value := Bool true.
Definition bundle_default_max_log_bytes : Value := Number (10 * 1024 * 1024).
Definition bundle_default_max_log_files : Value := Number 5.
Definition bundle_default_timeout : Value := Number 1800.

(** One device, or several ([ExecuteBatchArgs::devices]). *)
Definition string_or_vec (v : Value) : option (list string) :=
  match v with
  | Str s => Some [s]
  | Array l => mapM (fun v => match v with Str s => Some s | _ => None end) l
  | _ => None
  end.

(** ** The structs *)

Definition EmptyArgs : Struct := {|
  st_tools := ["get_device_list"; "get_router_list"]; st_transform := id_transform;
  st_devices := [];
  st_fields := [] |}.
Definition ExecuteCommandArgs : Struct := {|
  st_tools := ["execute_junos_command"]; st_transform := device_aliases;
  st_devices := ["device"];
  st_fields := [
      aliased (required "device") ["router_name"; "router"]; required "command";
      optional "timeout" default_timeout; optional "max_lines" Null; optional "max_bytes" Null;
      optional "tail" (Bool false)] |}.
Definition GetConfigArgs : Struct := {|
  st_tools := ["get_junos_config"]; st_transform := get_config_aliases;
  st_devices := ["device"];
  st_fields := [
      aliased (required "device") ["router_name"; "router"]; optional "timeout" default_timeout;
      aliased (optional "config_path" Null) ["filter"];
      optional "format" default_get_config_format; optional "max_lines" Null;
      optional "max_bytes" Null; optional "tail" (Bool false)] |}.
Definition ConfigDiffArgs : Struct := {|
  st_tools := ["junos_config_diff"]; st_transform := device_aliases;
  st_devices := ["device"];
  st_fields := [
      aliased (required "device") ["router_name"; "router"]; optional "version" default_version;
      optional "timeout" default_timeout] |}.
Definition GatherFactsArgs : Struct := {|
  st_tools := ["gather_device_facts"]; st_transform := device_aliases;
  st_devices := ["device"];
  st_fields := [
      aliased (required "device") ["router_name"; "router"]; optional "timeout" default_timeout] |}.
Definition LoadCommitArgs : Struct := {|
  st_tools := ["load_and_commit_config"]; st_transform := device_aliases;
  st_devices := ["device"];
  st_fields := [
      aliased (required "device") ["router_name"; "router"]; required "config_text";
      optional "config_format" default_set_format; optional "mode" default_load_mode;
      optional "commit_comment" default_commit_comment; optional "confirm_timeout_mins" Null;
      optional "timeout" default_timeout] |}.
Definition CommitCheckArgs : Struct := {|
  st_tools := ["commit_check_config"]; st_transform := device_aliases;
  st_devices := ["device"];
  st_fields := [
      aliased (required "device") ["router_name"; "router"]; required "config_text";
      optional "config_format" default_set_format; optional "timeout" default_timeout] |}.
Definition DiscardCandidateArgs : Struct := {|
  st_tools := ["discard_candidate"]; st_transform := device_aliases;
  st_devices := ["device"];
  st_fields := [
      aliased (required "device") ["router_name"; "router"]; optional "timeout" default_timeout] |}.
Definition RollbackConfigArgs : Struct := {|
  st_tools := ["rollback_config"]; st_transform := device_aliases;
  st_devices := ["device"];
  st_fields := [
      aliased (required "device") ["router_name"; "router"]; required "version";
      optional "commit" (Bool false); optional "confirm_timeout_mins" Null;
      optional "commit_comment" Null; optional "timeout" default_timeout] |}.
Definition ConfirmCommitArgs : Struct := {|
  st_tools := ["confirm_commit"]; st_transform := device_aliases;
  st_devices := ["device"];
  st_fields := [
      aliased (required "device") ["router_name"; "router"]; optional "timeout" default_timeout] |}.
Definition ExecutePfeArgs : Struct := {|
  st_tools := ["execute_junos_pfe_command"]; st_transform := device_aliases;
  st_devices := ["device"];
  st_fields := [
      aliased (required "device") ["router_name"; "router"]; required "fpc_target";
      required "pfe_command"; optional "timeout" default_timeout; optional "max_lines" Null;
      optional "max_bytes" Null; optional "tail" (Bool false)] |}.
Definition ExecuteBatchArgs : Struct := {|
  st_tools := ["execute_junos_command_batch"]; st_transform := batch_aliases;
  st_devices := ["devices"];
  st_fields := [
      aliased (required "devices") ["routers"; "router"; "router_name"]; required "commands";
      optional "command_timeout" default_timeout; optional "batch_timeout" Null;
      aliased (optional "max_concurrent_devices" default_max_concurrent_devices) ["max_concurrent_routers"];
      optional "max_lines" Null; optional "max_bytes" Null; optional "tail" (Bool false)] |}.
Definition TemplateArgs : Struct := {|
  st_tools := ["render_and_apply_j2_template"]; st_transform := template_aliases;
  st_devices := ["device_name"; "device_names"];
  st_fields := [
      required "template_content"; required "vars_content";
      aliased (optional "device_name" Null) ["router_name"; "router"];
      aliased (optional "device_names" Null) ["router_names"];
      optional "apply_config" (Bool false); optional "commit_comment" default_commit_comment;
      optional "dry_run" (Bool false); optional "config_format" Null;
      optional "mode" default_load_mode; optional "confirm_timeout_mins" Null;
      optional "timeout" default_timeout] |}.
Definition AddDeviceArgs : Struct := {|
  st_tools := ["add_device"]; st_transform := id_transform;
  st_devices := [];
  st_fields := [
      optional "device_name" Null; optional "device_ip" Null; optional "device_port" Null;
      optional "username" Null; optional "auth" Null] |}.
Definition ReloadDevicesArgs : Struct := {|
  st_tools := ["reload_devices"]; st_transform := id_transform;
  st_devices := [];
  st_fields := [
      optional "file_name" Null] |}.
Definition TransferFileArgs : Struct := {|
  st_tools := ["transfer_file"]; st_transform := device_aliases;
  st_devices := ["device"];
  st_fields := [
      aliased (required "device") ["router_name"; "router"]; required "source_path";
      optional "force" (Bool false); optional "verify" default_verify;
      optional "timeout" default_transfer_timeout] |}.
Definition FetchFileArgs : Struct := {|
  st_tools := ["fetch_file"]; st_transform := device_aliases;
  st_devices := ["device"];
  st_fields := [
      aliased (required "device") ["router_name"; "router"]; required "remote_path";
      optional "local_name" Null; optional "force" (Bool false);
      optional "verify" default_verify; optional "timeout" default_transfer_timeout] |}.
Definition ListStagedFilesArgs : Struct := {|
  st_tools := ["list_staged_files"]; st_transform := device_aliases;
  st_devices := ["device"];
  st_fields := [
      aliased (optional "device" Null) ["router_name"; "router"];
      optional "timeout" default_list_staged_timeout] |}.
Definition UpgradeJunosArgs : Struct := {|
  st_tools := ["upgrade_junos"]; st_transform := device_aliases;
  st_devices := ["device"];
  st_fields := [
      aliased (required "device") ["router_name"; "router"]; required "source_path";
      required "target_version"; optional "confirm" (Bool false);
      optional "timeout" default_upgrade_timeout;
      optional "reboot_wait_secs" default_reboot_wait_secs] |}.
Definition CreateChangeSetArgs : Struct := {|
  st_tools := ["create_junos_change_set"]; st_transform := device_aliases;
  st_devices := ["device"];
  st_fields := [
      aliased (required "device") ["router_name"; "router"]; required "expected_fingerprint";
      required "actions"] |}.
Definition ApproveChangeSetArgs : Struct := {|
  st_tools := ["approve_junos_change_set"]; st_transform := device_aliases;
  st_devices := ["device"];
  st_fields := [
      required "change_set_id"; aliased (required "device") ["router_name"; "router"];
      required "expected_digest"] |}.
Definition CancelChangeSetArgs : Struct := {|
  st_tools := ["cancel_junos_change_set"]; st_transform := device_aliases;
  st_devices := ["device"];
  st_fields := [
      required "change_set_id"; aliased (required "device") ["router_name"; "router"]] |}.
Definition ApplyChangeSetArgs : Struct := {|
  st_tools := ["apply_junos_change_set"]; st_transform := device_aliases;
  st_devices := ["device"];
  st_fields := [
      required "change_set_id"; required "expected_digest"; required "expected_fingerprint";
      aliased (required "device") ["router_name"; "router"];
      optional "confirm_timeout_mins" Null] |}.
Definition ConfirmChangeSetArgs : Struct := {|
  st_tools := ["confirm_junos_change_set"]; st_transform := device_aliases;
  st_devices := ["device"];
  st_fields := [
      required "operation_id"; aliased (required "device") ["router_name"; "router"]] |}.
Definition GetChangeSetStatusArgs : Struct := {|
  st_tools := ["get_junos_change_set_status"]; st_transform := device_aliases;
  st_devices := ["device"];
  st_fields := [
      required "change_set_id"; aliased (required "device") ["router_name"; "router"]] |}.
Definition ListChangeSetsArgs : Struct := {|
  st_tools := ["list_junos_change_sets"]; st_transform := device_aliases;
  st_devices := ["device"];
  st_fields := [
      aliased (optional "device" Null) ["router_name"; "router"]] |}.
Definition CandidateFingerprintArgs : Struct := {|
  st_tools := ["get_junos_candidate_fingerprint"]; st_transform := device_aliases;
  st_devices := ["device"];
  st_fields := [
      aliased (required "device") ["router_name"; "router"]] |}.
Definition AppidPackageArgs : Struct := {|
  st_tools := ["manage_appid_signature_package"]; st_transform := router_name_alias;
  st_devices := ["router"];
  st_fields := [
      aliased (required "router") ["router_name"]; required "action"; optional "version" Null;
      optional "confirm" (Bool false); optional "confirmation_token" Null;
      optional "timeout" Null; optional "include_raw" (Bool false)] |}.
Definition ClusterHealthArgs : Struct := {|
  st_tools := ["validate_chassis_cluster_health"]; st_transform := router_name_alias;
  st_devices := ["router"];
  st_fields := [
      aliased (required "router") ["router_name"]; optional "include_raw" (Bool false);
      optional "request_id" Null] |}.
Definition ClusterStatusArgs : Struct := {|
  st_tools := ["get_chassis_cluster_status"]; st_transform := router_name_alias;
  st_devices := ["router"];
  st_fields := [
      aliased (required "router") ["router_name"]; optional "include_raw" (Bool false)] |}.
Definition FlowSessionsArgs : Struct := {|
  st_tools := ["srx_flow_sessions"]; st_transform := router_name_alias;
  st_devices := ["router"];
  st_fields := [
      aliased (required "router") ["router_name"]; optional "source_prefix" Null;
      optional "destination_prefix" Null; optional "source_port" Null;
      optional "destination_port" Null; optional "protocol" Null; optional "application" Null;
      optional "session_identifier" Null; optional "cap" Null;
      optional "acknowledge_unfiltered" (Bool false); optional "include_raw" (Bool false)] |}.
Definition IdpPackageArgs : Struct := {|
  st_tools := ["manage_idp_security_package"]; st_transform := router_name_alias;
  st_devices := ["router"];
  st_fields := [
      aliased (required "router") ["router_name"]; required "action"; optional "version" Null;
      optional "confirm" (Bool false); optional "confirmation_token" Null;
      optional "timeout" Null; optional "include_raw" (Bool false)] |}.
Definition LicenseArgs : Struct := {|
  st_tools := ["check_srx_feature_license"]; st_transform := router_name_alias;
  st_devices := ["router"];
  st_fields := [
      aliased (required "router") ["router_name"]; required "feature";
      optional "include_raw" (Bool false)] |}.
Definition NatRulesArgs : Struct := {|
  st_tools := ["srx_list_nat_rules"]; st_transform := router_name_alias;
  st_devices := ["router"];
  st_fields := [
      aliased (required "router") ["router_name"]; optional "include_hit_counts" (Bool false);
      optional "limit" nat_default_limit; optional "include_raw" (Bool false)] |}.
Definition PolicyListArgs : Struct := {|
  st_tools := ["srx_list_policies"]; st_transform := router_name_alias;
  st_devices := ["router"];
  st_fields := [
      aliased (required "router") ["router_name"]; optional "from_zone" Null;
      optional "to_zone" Null; optional "policy_name" Null;
      optional "include_hit_counts" (Bool false); optional "limit" policies_default_limit;
      optional "offset" (Number 0); optional "include_raw" (Bool false)] |}.
Definition PolicyMatchArgs : Struct := {|
  st_tools := ["srx_policy_match"]; st_transform := router_name_alias;
  st_devices := ["router"];
  st_fields := [
      aliased (required "router") ["router_name"]; required "from_zone"; required "to_zone";
      required "source_ip"; required "destination_ip"; required "source_port";
      required "destination_port"; required "protocol"; optional "include_raw" (Bool false)] |}.
Definition AddressResolveArgs : Struct := {|
  st_tools := ["srx_resolve_address"]; st_transform := router_name_alias;
  st_devices := ["router"];
  st_fields := [
      aliased (required "router") ["router_name"]; required "name"; optional "zone" Null;
      optional "include_raw" (Bool false)] |}.
Definition ApplicationResolveArgs : Struct := {|
  st_tools := ["srx_resolve_application"]; st_transform := router_name_alias;
  st_devices := ["router"];
  st_fields := [
      aliased (required "router") ["router_name"]; required "name";
      optional "include_raw" (Bool false)] |}.
Definition ServicesStatusArgs : Struct := {|
  st_tools := ["get_srx_security_services_status"]; st_transform := router_name_alias;
  st_devices := ["router"];
  st_fields := [
      aliased (required "router") ["router_name"]; optional "include_raw" (Bool false)] |}.
Definition SupportBundleArgs : Struct := {|
  st_tools := ["collect_jtac_support_bundle"]; st_transform := router_name_alias;
  st_devices := ["router"];
  st_fields := [
      aliased (required "router") ["router_name"]; required "problem_type";
      optional "request_id" Null; optional "include_logs" default_true;
      optional "redact" default_true;
      optional "max_log_bytes_per_file" bundle_default_max_log_bytes;
      optional "max_log_files" bundle_default_max_log_files;
      optional "timeout" bundle_default_timeout] |}.
Definition VpnLifecycleArgs : Struct := {|
  st_tools := ["vpn_lifecycle_report"]; st_transform := router_name_alias;
  st_devices := ["router"];
  st_fields := [
      aliased (required "router") ["router_name"]; optional "peer" Null; optional "tunnel" Null;
      optional "include_raw" (Bool false)] |}.
Definition SrxmcpStatusArgs : Struct := {|
  st_tools := ["srxmcp_status"]; st_transform := id_transform;
  st_devices := [];
  st_fields := [] |}.

(** Every tool's arguments, the facade's apart. *)
Definition TOOL_ARGS : list Struct :=
  [EmptyArgs; ExecuteCommandArgs; GetConfigArgs; ConfigDiffArgs; GatherFactsArgs;
   LoadCommitArgs; CommitCheckArgs; DiscardCandidateArgs; RollbackConfigArgs;
   ConfirmCommitArgs; ExecutePfeArgs; ExecuteBatchArgs; TemplateArgs; AddDeviceArgs;
   ReloadDevicesArgs; TransferFileArgs; FetchFileArgs; ListStagedFilesArgs;
   UpgradeJunosArgs; CreateChangeSetArgs; ApproveChangeSetArgs; CancelChangeSetArgs;
   ApplyChangeSetArgs; ConfirmChangeSetArgs; GetChangeSetStatusArgs; ListChangeSetsArgs;
   CandidateFingerprintArgs; AppidPackageArgs; ClusterHealthArgs; ClusterStatusArgs;
   FlowSessionsArgs; IdpPackageArgs; LicenseArgs; NatRulesArgs; PolicyListArgs;
   PolicyMatchArgs; AddressResolveArgs; ApplicationResolveArgs; ServicesStatusArgs;
   SupportBundleArgs; VpnLifecycleArgs; SrxmcpStatusArgs].

(** ** Properties *)

Lemma tool_args_cover : concat (map st_tools TOOL_ARGS) ≡ₚ JUNOS_TOOLS ++ SRX_TOOLS.
Proof. apply (bool_decide_eq_true_1 _). by vm_compute. Qed.

(** The transform of a struct names its aliased fields; the fields have different
    names. *)
Definition transform_agrees (st : Struct) : Prop :=
  NoDup (map f_name (st_fields st)) /\
  ((groups_of (st_fields st) = [] /\ st_transform st = id_transform) \/
   st_transform st = describe_aliases (groups_of (st_fields st))).

Lemma fields_distinct : Forall (fun st => NoDup (map f_name (st_fields st))) TOOL_ARGS.
Proof. apply (bool_decide_eq_true_1 _). by vm_compute. Qed.

Lemma transforms_agree : Forall transform_agrees TOOL_ARGS.
Proof.
  apply list.Forall_forall. intros st Hst. split; [by apply (proj1 (list.Forall_forall _ _) fields_distinct)|].
  revert st Hst. apply list.Forall_forall.
  repeat (apply List.Forall_cons; [first [left; split; reflexivity | right; reflexivity]|]).
  apply List.Forall_nil.
Qed.

(** C39: the schema shown for any tool's arguments is neither narrower nor wider
    than its deserializer: derived for the tool's struct and given the tool's
    transform, it accepts a JSON object, as far as the names of its members go,
    exactly when [serde] does: each name is a field or one of the spellings kept
    for compatibility, no field is given under two of its names, and every
    required field is given. *)
Theorem published_schemas_are_exact st m keys n :
  st ∈ TOOL_ARGS -> describes m (st_fields st) ->
  accepts (S (S (S n))) (Object (st_transform st m)) keys = true <->
  deserializes (st_fields st) keys.
Proof.
  intros Hst Hm. destruct (proj1 (list.Forall_forall _ _) transforms_agree st Hst)
    as [Hn [[Hg ->]| ->]]; [by apply plain_schema_accepts|by apply described_schema_accepts].
Qed.

(** What [schemars] derives for [GatherFactsArgs]. *)
Definition facts_schema : Schema :=
  [("type", Str "object");
   ("properties", Object [("device", Object [("type", Str "string")]);
                          ("timeout", Object [("type", Str "integer"); ("default", Number 360)])]);
   ("required", Array [Str "device"]); ("additionalProperties", Bool false)].

Lemma published_schemas_are_exact_witness :
  (accepts 3 (Object (st_transform GatherFactsArgs facts_schema)) ["router"; "timeout"] = true <->
   deserializes (st_fields GatherFactsArgs) ["router"; "timeout"]) /\
  accepts 3 (Object (st_transform GatherFactsArgs facts_schema)) ["router"; "timeout"] = true /\
  accepts 3 (Object (st_transform GatherFactsArgs facts_schema)) ["router"; "device"] = false /\
  accepts 3 (Object (st_transform GatherFactsArgs facts_schema)) ["timeout"] = false /\
  accepts 3 (Object (st_transform GatherFactsArgs facts_schema)) ["router"; "host"] = false.
Proof.
  split; [|by vm_compute]. apply (published_schemas_are_exact GatherFactsArgs facts_schema _ 0).
  - unfold TOOL_ARGS. repeat first [apply list_elem_of_here | apply list_elem_of_further].
  - split; [apply (bool_decide_eq_true_1 _); by vm_compute| |by left|done..]. by eexists.
Defined.

(** *** The preflight's keys *)

(** Every spelling a handler takes a device under. *)
Definition device_spellings (st : Struct) : list string :=
  concat (map spellings (List.filter (fun f => bool_decide (f_name f ∈ st_devices st)) (st_fields st))).

Lemma selectors_cover st k : st ∈ TOOL_ARGS -> k ∈ device_spellings st -> k ∈ DEVICE_SELECTOR_KEYS.
Proof.
  revert st k. assert (Forall (fun st => Forall (.∈ DEVICE_SELECTOR_KEYS) (device_spellings st)) TOOL_ARGS)
    as H by (apply (bool_decide_eq_true_1 _); by vm_compute).
  intros st k Hst Hk. rewrite list.Forall_forall in H. specialize (H _ Hst).
  rewrite list.Forall_forall in H. by apply H.
Qed.

Lemma device_spellings_elem st f k :
  f ∈ st_fields st -> f_name f ∈ st_devices st -> k ∈ spellings f -> k ∈ device_spellings st.
Proof.
  intros Hf Hd Hk. unfold device_spellings. apply list_elem_of_In, in_concat.
  exists (spellings f). split; [|by apply list_elem_of_In]. apply in_map, filter_In.
  split; [by apply list_elem_of_In|by apply bool_decide_eq_true].
Qed.

Section scopes.
Context {C : Caller} {X : External} {JT : JsonText}.

Lemma selected_in_scope caller v ds :
  selects_in_scope caller v -> string_or_vec v = Some ds ->
  ds <> [] /\ Forall (fun d => allows_device caller d = true) ds.
Proof.
  intros [d H|d l H]; cbn.
  - intros [= <-]. split; [done|]. by constructor.
  - intros Hm. assert (mapM (fun v => match v with Str s => Some s | _ => None end) (map Str (d :: l))
                       = Some (d :: l)) as E.
    { generalize (d :: l). clear. induction l as [|e l IH]; [done|]. cbn in *. by rewrite IH. }
    cbn in E, Hm. rewrite E in Hm. injection Hm as <-. split; [done|done].
Qed.

(** C37: no device escapes the preflight.  Once a body has passed it, every call
    in it, of a tool directly or of the operation it names to the facade, selects
    only devices of the caller's scope: whatever tool's struct the arguments are
    read as, whichever of its fields takes the device, and under whichever of the
    field's spellings it is given, the value is one or several devices, each of
    them allowed. *)
Theorem preflight_covers_arguments bytes v call caller tool fields st f k value ds :
  is_ok (check bytes caller) = true -> bytes <> "" -> json_from_str bytes = Ok v -> call ∈ calls_of v ->
  targets call tool (Some (Object fields)) -> st ∈ TOOL_ARGS ->
  f ∈ st_fields st -> f_name f ∈ st_devices st -> k ∈ spellings f ->
  obj_get k fields = Some value -> string_or_vec value = Some ds ->
  ds <> [] /\ Forall (fun d => allows_device caller d = true) ds.
Proof.
  intros Hc Hb Hj Hcall Ht Hst Hf Hd Hk Hv. apply selected_in_scope.
  destruct (device_value_in_scope value caller) eqn:E; [by apply device_value_spec|].
  destruct (passed_calls _ _ _ _ Hc Hb Hj Hcall). eapply exceeds_device; [done| |done|].
  - by eapply selectors_cover, device_spellings_elem.
  - rewrite <- device_value_spec. congruence.
Qed.

End scopes.

(** The keys [build_http_router] gives the transport for its per-target limits:
    they are the old spellings only. *)
Definition target_keys : list string := ["router"; "router_name"; "routers"; "router_names"].

(** No Junos tool's own name for its device is among them. *)
Example target_keys_miss_device :
  (Forall (fun st => Forall (fun d => d ∈ target_keys -> d = "router") (st_devices st)) TOOL_ARGS) /\
  (~ "device" ∈ target_keys) /\ (~ "devices" ∈ target_keys).
Proof. split; apply (bool_decide_eq_true_1 _); by vm_compute. Qed.

(** ** An example *)

Module Demo.

#[local] Existing Instance string_external.

(** A caller is the devices of its scope; every tool is allowed. *)
#[local] Instance demo_caller : Caller := {|
  CallerCtx := list string;
  token_name _ := "demo";
  allows_tool _ _ _ := true;
  allows_device c d := bool_decide (d ∈ c);
  filter_device_names _ ns := ns
|}.

Definition wide : CallerCtx := ["r1"; "r2"; "r3"].
Definition narrow : CallerCtx := ["r1"].

(** A batch call through the facade, of two devices. *)
Definition batch_fields : list (string * Value) :=
  [("routers", Array [Str "r1"; Str "r2"]); ("commands", Array [Str "show version"])].
Definition batch_call : Value :=
  Object [("method", Str "tools/call");
          ("params", Object [("name", Str "execute");
             ("arguments", Object [("operation", Str "execute_junos_command_batch");
                                   ("arguments", Object batch_fields)])])].
#[local] Instance demo_json : JsonText := {|
  json_from_str _ := Ok (Array [batch_call]);
  json_pretty _ := Ok "{..}"
|}.

Lemma preflight_covers_arguments_witness :
  is_ok (check "[..]" wide) = true /\
  is_ok (check "[..]" narrow) = false /\
  ["r1"; "r2"] <> [] /\ Forall (fun d => allows_device wide d = true) ["r1"; "r2"].
Proof.
  split; [by vm_compute|]. split; [by vm_compute|].
  apply (preflight_covers_arguments "[..]" (Array [batch_call]) batch_call wide
           "execute_junos_command_batch" batch_fields ExecuteBatchArgs
           (aliased (required "devices") ["routers"; "router"; "router_name"]) "routers"
           (Array [Str "r1"; Str "r2"])).
  - by vm_compute.
  - done.
  - done.
  - by left.
  - eapply targets_facade; [split; [done|by eexists]|done| |done].
    apply (bool_decide_eq_true_1 _). by vm_compute.
  - unfold TOOL_ARGS. repeat first [apply list_elem_of_here | apply list_elem_of_further].
  - by left.
  - by left.
  - right. by left.
  - done.
  - done.
Defined.

End Demo.
