(* ===== verification/Startup.v ===== *)
(** * Starting the server ([rust-junosmcp/src/env_compat.rs], [main.rs], [cli.rs],
      [token_cmd.rs], [bootstrap.rs])

    The settings a server starts with: the command line as [clap] parsed it, then
    the environment, under a setting's own variable or the variable of the SRX
    server it absorbed.  After that the decisions of [main] that do not belong to
    another component: the token file, the audit key, the host-key mode, and what
    it refuses to start with. *)

From S2P Require Import Prelude RustStr Fmt Errors Helpers Xml.
From S2P Require Transfer.
From Stdlib Require Import Ascii.
From stdpp Require Import gmap.

(** ** Settings from the environment *)

Inductive LegacyEnvWarning :=
  | Applied (legacy canonical : string)
  | Ignored (legacy : string) (canonical : option string).

(** A value is the bytes of an [OsString]; [OsStr::to_str] is their UTF-8. *)
Definition byte_in (lo hi : N) (b : ascii) : bool :=
  let n := N_of_ascii b in ((lo <=? n) && (n <=? hi))%N.
Definition cont : ascii -> bool := byte_in 128 191.
Fixpoint is_utf8 (s : string) : bool :=
  match s with
  | "" => true
  | String b s1 =>
      if byte_in 0 127 b then is_utf8 s1 else
      match s1 with
      | "" => false
      | String b1 s2 =>
          if byte_in 194 223 b then cont b1 && is_utf8 s2 else
          match s2 with
          | "" => false
          | String b2 s3 =>
              if (byte_in 224 224 b && byte_in 160 191 b1)
                 || ((byte_in 225 236 b || byte_in 238 239 b) && cont b1)
                 || (byte_in 237 237 b && byte_in 128 159 b1)
              then cont b2 && is_utf8 s3 else
              match s3 with
              | "" => false
              | String b3 s4 =>
                  ((byte_in 240 240 b && byte_in 144 191 b1)
                   || (byte_in 241 243 b && cont b1)
                   || (byte_in 244 244 b && byte_in 128 143 b1))
                  && cont b2 && cont b3 && is_utf8 s4
              end
          end
      end
  end.
Definition to_str (value : string) : option string := if is_utf8 value then Some value else None.

Inductive Transport := Stdio | StreamableHttp.
Instance Transport_eq_dec : EqDecision Transport.
Proof. solve_decision. Defined.

(** The settings read here and below. *)
Record Cli := {
  host : string; port : N; tokens_file : option string; device_mapping : string;
  device_lease_dir : string; tls_cert : option string; tls_key : option string;
  enable_metrics : bool; max_request_body_bytes : N; max_inflight_requests : N;
  max_inflight_requests_per_token : N; max_requests_per_second_per_token : N;
  max_request_burst_per_token : N; max_inflight_requests_per_router : N; max_sessions : N;
  max_sessions_per_token : N; session_idle_timeout_secs : N; session_max_lifetime_secs : N;
  audit_format : string; audit_log_file : option string; audit_journald : bool;
  audit_redact : string; audit_hmac_key_file : option string;
  support_bundle_staging_dir : string; support_bundle_staging_max_bytes : N;
  transport : Transport; allow_no_auth : bool; inventory_readonly : bool;
  allow_password_auth_add : bool; ssh_accept_new_host_keys : bool;
  ssh_insecure_accept_any_host_key : bool; known_hosts_file : string;
  commit_confirm_default_mins : N }.

Section env.
(** [OsStr]'s [Debug]; whether [clap] took an argument from the command line; the
    environment. *)
Context (os_debug : string -> string) (command_line : string -> bool).
Context (env : string -> option string).

Definition invalid_value (name value detail : string) : string :=
  "invalid value " ^^ os_debug value ^^ " for environment variable " ^^ name ^^ ": " ^^ detail.

Definition parse_utf8 (name value : string) : Result string string :=
  match to_str value with
  | Some s => Ok s
  | None => Err (invalid_value name value "value must be UTF-8")
  end.
Definition parse_string (name value : string) : Result string string := parse_utf8 name value.
Definition parse_path (name value : string) : Result string string := Ok value.
Definition parse_optional_path (name value : string) : Result (option string) string :=
  Ok (Some value).

(** [from_str] of an unsigned integer of the given range. *)
Fixpoint from_digits (max acc : N) (s : string) : Result N string :=
  match s with
  | "" => Ok acc
  | String c s =>
      if negb (is_ascii_digit c) then Err "invalid digit found in string"
      else let n := (acc * 10 + (N_of_ascii c - 48))%N in
           if (max <? n)%N then Err "number too large to fit in target type"
           else from_digits max n s
  end.
Definition from_str (max : N) (s : string) : Result N string :=
  match s with
  | "" => Err "cannot parse integer from empty string"
  | _ => if String.eqb s "+" then Err "invalid digit found in string"
         else from_digits max 0 (strip_plus s)
  end.
Definition parse_number (max : N) (name value : string) : Result N string :=
  let? raw := parse_utf8 name value in
  map_err (invalid_value name value) (from_str max raw).

Definition parse_bool (name value : string) : Result bool string :=
  let? raw := parse_utf8 name value in
  let raw := to_ascii_lowercase raw in
  if existsb (String.eqb raw) ["true"; "1"; "yes"; "on"] then Ok true
  else if existsb (String.eqb raw) ["false"; "0"; "no"; "off"] then Ok false
  else Err (invalid_value name value "expected true/false, 1/0, yes/no, or on/off").

(** [Resolver]: an error, or a value and the warnings so far. *)
Definition Resolver (T : Type) : Type :=
  list LegacyEnvWarning -> Result (T * list LegacyEnvWarning) string.
Definition r_ret {T} (x : T) : Resolver T := fun ws => Ok (x, ws).
Definition r_bind {A B} (r : Resolver A) (k : A -> Resolver B) : Resolver B := fun ws =>
  match r ws with Ok (x, ws) => k x ws | Err e => Err e end.
Definition warn (w : LegacyEnvWarning) : Resolver unit := fun ws => Ok (tt, ws ++ [w]).
Definition lift {T} (r : Result T string) : Resolver T := fun ws =>
  match r with Ok x => Ok (x, ws) | Err e => Err e end.
#[local] Notation "'let*' x := e 'in' k" := (r_bind e (fun x => k))
  (at level 10, x name, e at level 100, k at level 200).

Definition resolve {T} (current : T) (arg_id canonical : string) (legacy : option string)
    (parse : string -> string -> Result T string) : Resolver T :=
  let legacy_value := match legacy with
                      | Some name => option_map (pair name) (env name)
                      | None => None
                      end in
  let ignore := match legacy_value with
                | Some (legacy, _) => warn (Ignored legacy (Some canonical))
                | None => r_ret tt
                end in
  if command_line arg_id then let* _ := ignore in r_ret current else
  match env canonical with
  | Some value =>
      let* x := lift (parse canonical value) in
      let* _ := ignore in r_ret x
  | None =>
      match legacy_value with
      | Some (legacy, value) =>
          let* x := lift (parse legacy value) in
          let* _ := warn (Applied legacy canonical) in r_ret x
      | None => r_ret current
      end
  end.

(** The SRX server's port is never taken over. *)
Definition ignored_port : Resolver unit :=
  match env "JMCP_SRX_HTTP_PORT" with
  | Some _ => warn (Ignored "JMCP_SRX_HTTP_PORT" None)
  | None => r_ret tt
  end.

Definition try_parse_from_with_env (cli : Cli) : Resolver Cli :=
  let* host' := resolve (host cli) "host" "JMCP_HTTP_HOST" (Some "JMCP_SRX_HTTP_HOST")
    parse_string in
  let* port' := resolve (port cli) "port" "JMCP_HTTP_PORT" None (parse_number U16_MAX) in
  let* tokens_file' := resolve (tokens_file cli) "tokens_file" "JMCP_TOKENS_PATH" None
    parse_optional_path in
  let* device_mapping' := resolve (device_mapping cli) "device_mapping" "JMCP_DEVICES_PATH" None
    parse_path in
  let* device_lease_dir' := resolve (device_lease_dir cli)
    "device_lease_dir" "JMCP_DEVICE_LEASE_DIR" None parse_path in
  let* tls_cert' := resolve (tls_cert cli) "tls_cert" "JMCP_TLS_CERT" (Some "JMCP_SRX_TLS_CERT")
    parse_optional_path in
  let* tls_key' := resolve (tls_key cli) "tls_key" "JMCP_TLS_KEY" (Some "JMCP_SRX_TLS_KEY")
    parse_optional_path in
  let* enable_metrics' := resolve (enable_metrics cli) "enable_metrics" "JMCP_ENABLE_METRICS"
    (Some "JMCP_SRX_ENABLE_METRICS") parse_bool in
  let* max_request_body_bytes' := resolve (max_request_body_bytes cli)
    "max_request_body_bytes" "JMCP_MAX_REQUEST_BODY_BYTES"
    (Some "JMCP_SRX_MAX_REQUEST_BODY_BYTES") (parse_number USIZE_MAX) in
  let* max_inflight_requests' := resolve (max_inflight_requests cli)
    "max_inflight_requests" "JMCP_MAX_INFLIGHT_REQUESTS" (Some "JMCP_SRX_MAX_INFLIGHT_REQUESTS")
    (parse_number USIZE_MAX) in
  let* max_inflight_requests_per_token' := resolve (max_inflight_requests_per_token cli)
    "max_inflight_requests_per_token" "JMCP_MAX_INFLIGHT_REQUESTS_PER_TOKEN"
    (Some "JMCP_SRX_MAX_INFLIGHT_REQUESTS_PER_TOKEN") (parse_number USIZE_MAX) in
  let* max_requests_per_second_per_token' := resolve (max_requests_per_second_per_token cli)
    "max_requests_per_second_per_token" "JMCP_MAX_REQUESTS_PER_SECOND_PER_TOKEN"
    (Some "JMCP_SRX_MAX_REQUESTS_PER_SECOND_PER_TOKEN") (parse_number U64_MAX) in
  let* max_request_burst_per_token' := resolve (max_request_burst_per_token cli)
    "max_request_burst_per_token" "JMCP_MAX_REQUEST_BURST_PER_TOKEN"
    (Some "JMCP_SRX_MAX_REQUEST_BURST_PER_TOKEN") (parse_number U64_MAX) in
  let* max_inflight_requests_per_router' := resolve (max_inflight_requests_per_router cli)
    "max_inflight_requests_per_router" "JMCP_MAX_INFLIGHT_REQUESTS_PER_ROUTER"
    (Some "JMCP_SRX_MAX_INFLIGHT_REQUESTS_PER_ROUTER") (parse_number USIZE_MAX) in
  let* max_sessions' := resolve (max_sessions cli) "max_sessions" "JMCP_MAX_SESSIONS"
    (Some "JMCP_SRX_MAX_SESSIONS") (parse_number USIZE_MAX) in
  let* max_sessions_per_token' := resolve (max_sessions_per_token cli)
    "max_sessions_per_token" "JMCP_MAX_SESSIONS_PER_TOKEN"
    (Some "JMCP_SRX_MAX_SESSIONS_PER_TOKEN") (parse_number USIZE_MAX) in
  let* session_idle_timeout_secs' := resolve (session_idle_timeout_secs cli)
    "session_idle_timeout_secs" "JMCP_SESSION_IDLE_TIMEOUT_SECS"
    (Some "JMCP_SRX_SESSION_IDLE_TIMEOUT_SECS") (parse_number U64_MAX) in
  let* session_max_lifetime_secs' := resolve (session_max_lifetime_secs cli)
    "session_max_lifetime_secs" "JMCP_SESSION_MAX_LIFETIME_SECS"
    (Some "JMCP_SRX_SESSION_MAX_LIFETIME_SECS") (parse_number U64_MAX) in
  let* audit_format' := resolve (audit_format cli) "audit_format" "JMCP_AUDIT_FORMAT"
    (Some "JMCP_SRX_AUDIT_FORMAT") parse_string in
  let* audit_log_file' := resolve (audit_log_file cli) "audit_log_file" "JMCP_AUDIT_LOG_FILE"
    (Some "JMCP_SRX_AUDIT_LOG_FILE") parse_optional_path in
  let* audit_journald' := resolve (audit_journald cli) "audit_journald" "JMCP_AUDIT_JOURNALD"
    (Some "JMCP_SRX_AUDIT_JOURNALD") parse_bool in
  let* audit_redact' := resolve (audit_redact cli) "audit_redact" "JMCP_AUDIT_REDACT"
    (Some "JMCP_SRX_AUDIT_REDACT") parse_string in
  let* audit_hmac_key_file' := resolve (audit_hmac_key_file cli)
    "audit_hmac_key_file" "JMCP_AUDIT_HMAC_KEY_FILE" (Some "JMCP_SRX_AUDIT_HMAC_KEY_FILE")
    parse_optional_path in
  let* support_bundle_staging_dir' := resolve (support_bundle_staging_dir cli)
    "support_bundle_staging_dir" "JMCP_SUPPORT_BUNDLE_STAGING_DIR" (Some "JMCP_SRX_STAGING_DIR")
    parse_path in
  let* support_bundle_staging_max_bytes' := resolve (support_bundle_staging_max_bytes cli)
    "support_bundle_staging_max_bytes" "JMCP_SUPPORT_BUNDLE_STAGING_MAX_BYTES"
    (Some "JMCP_SRX_STAGING_MAX_BYTES") (parse_number U64_MAX) in
  let* _ := ignored_port in
  r_ret {|
    host := host'; port := port'; tokens_file := tokens_file'; device_mapping := device_mapping';
    device_lease_dir := device_lease_dir'; tls_cert := tls_cert'; tls_key := tls_key';
    enable_metrics := enable_metrics'; max_request_body_bytes := max_request_body_bytes';
    max_inflight_requests := max_inflight_requests';
    max_inflight_requests_per_token := max_inflight_requests_per_token';
    max_requests_per_second_per_token := max_requests_per_second_per_token';
    max_request_burst_per_token := max_request_burst_per_token';
    max_inflight_requests_per_router := max_inflight_requests_per_router';
    max_sessions := max_sessions'; max_sessions_per_token := max_sessions_per_token';
    session_idle_timeout_secs := session_idle_timeout_secs';
    session_max_lifetime_secs := session_max_lifetime_secs'; audit_format := audit_format';
    audit_log_file := audit_log_file'; audit_journald := audit_journald';
    audit_redact := audit_redact'; audit_hmac_key_file := audit_hmac_key_file';
    support_bundle_staging_dir := support_bundle_staging_dir';
    support_bundle_staging_max_bytes := support_bundle_staging_max_bytes';
    transport := transport cli; allow_no_auth := allow_no_auth cli;
    inventory_readonly := inventory_readonly cli;
    allow_password_auth_add := allow_password_auth_add cli;
    ssh_accept_new_host_keys := ssh_accept_new_host_keys cli;
    ssh_insecure_accept_any_host_key := ssh_insecure_accept_any_host_key cli;
    known_hosts_file := known_hosts_file cli;
    commit_confirm_default_mins := commit_confirm_default_mins cli |}.
End env.

(** What [clap] gives where nothing is on the command line ([cli.rs]). *)
Definition defaults : Cli := {|
  host := "127.0.0.1"; port := 30030; tokens_file := None; device_mapping := "devices.json";
  device_lease_dir := "/var/lib/jmcp/device-leases"; tls_cert := None; tls_key := None;
  enable_metrics := false; max_request_body_bytes := 10485760; max_inflight_requests := 64;
  max_inflight_requests_per_token := 16; max_requests_per_second_per_token := 0;
  max_request_burst_per_token := 0; max_inflight_requests_per_router := 4; max_sessions := 128;
  max_sessions_per_token := 16; session_idle_timeout_secs := 300;
  session_max_lifetime_secs := 3600; audit_format := "text"; audit_log_file := None;
  audit_journald := false; audit_redact := ""; audit_hmac_key_file := None;
  support_bundle_staging_dir := "/var/lib/jmcp/srx-staging/bundles";
  support_bundle_staging_max_bytes := 524288000;
  transport := Stdio; allow_no_auth := false; inventory_readonly := false;
  allow_password_auth_add := false; ssh_accept_new_host_keys := false;
  ssh_insecure_accept_any_host_key := false; known_hosts_file := "/etc/jmcp/known_hosts";
  commit_confirm_default_mins := 10 |}.
(** ** What [main] decides *)

(** [mecmcp_auth::ResolvedTokenPath] *)
Record ResolvedTokenPath := {
  path : string; used_fallback : bool; fallback_from : option string }.

Section main.
Context {X : External}.
(** [mecmcp_auth::resolve_token_path], [mecmcp_runtime::cli_validate::validate]. *)
Context (resolve_token_path : string -> string -> Result ResolvedTokenPath string).
Context (validate : Cli -> Result unit string).

Definition resolve_tokens_with (configured canonical legacy : string)
  : Result ResolvedTokenPath string :=
  if negb (String.eqb configured canonical)
  then Ok {| path := configured; used_fallback := false; fallback_from := None |}
  else map_err (fun e => "resolving token file path: " ^^ e) (resolve_token_path configured legacy).
Definition resolve_tokens (configured : string) : Result ResolvedTokenPath string :=
  resolve_tokens_with configured "/var/lib/jmcp/tokens.json" "/etc/jmcp/tokens.json".

(** The refusals between the settings and the inventory. *)
Definition startup_checks (cli : Cli) : Result unit string :=
  let? _ := validate cli in
  if inventory_readonly cli && allow_password_auth_add cli
  then Err ("--inventory-readonly and --allow-password-auth-add are mutually exclusive: "
            ^^ "the first rejects add_device outright, the second widens what it accepts")
  else if enable_metrics cli && negb (bool_decide (transport cli = StreamableHttp))
  then Err "--enable-metrics requires --transport streamable-http"
  else let? _ := map_err (fun e => "invalid --commit-confirm-default-mins: " ^^ e)
                   (map_err to_string (confirm_timeout_to_secs (commit_confirm_default_mins cli))) in
       Ok tt.

(** Where the callers' tokens come from. *)
Inductive TokenSource := StoreAt (p : ResolvedTokenPath) | NoStore | Unreachable.
Definition token_source (cli : Cli) : Result TokenSource string :=
  match tokens_file cli, allow_no_auth cli with
  | Some configured, _ => map_result StoreAt (resolve_tokens configured)
  | None, true => Ok NoStore
  | None, false => if bool_decide (transport cli = StreamableHttp) then Ok Unreachable else Ok NoStore
  end.

End main.

Inductive SshHostKeyMode := Strict | AcceptNew | AcceptAll.
Inductive HostKeyVerification := KnownHosts (file : string) | PinNew (file : string) | TrustAny.

Definition host_key_mode (cli : Cli) : SshHostKeyMode :=
  if ssh_accept_new_host_keys cli then AcceptNew
  else if ssh_insecure_accept_any_host_key cli then AcceptAll
  else Strict.
Definition build_host_key_policy (mode : SshHostKeyMode) (known_hosts_file : string)
  : HostKeyVerification :=
  match mode with
  | Strict => KnownHosts known_hosts_file
  | AcceptNew => PinNew known_hosts_file
  | AcceptAll => TrustAny
  end.

(** *** The audit key

    Files are their content; opening a file to write truncates it, and a write may
    stop part of the way. *)

Abbreviation Files := (gmap string string).
Definition ensure_audit_hmac_key (entropy : Result (list N) string)
    (open : string -> bool) (write_all : string -> option nat) (path : string) (fs : Files)
  : Result unit string * Files :=
  let present := match fs !! path with Some content => (0 <? len content)%N | None => false end in
  if present then (Ok tt, fs) else
  match entropy with
  | Err e => (Err ("generating audit HMAC key: OS entropy source unavailable: " ^^ e), fs)
  | Ok key =>
      let hex_key := Transfer.hex32 key in
      if negb (open path) then (Err ("creating audit HMAC key file " ^^ path), fs) else
      match write_all path with
      | None => (Ok tt, <[path := hex_key]> fs)
      | Some written => (Err ("writing audit HMAC key file " ^^ path),
                         <[path := str_take written hex_key]> fs)
      end
  end.

(** *** The scopes of a token ([token set-scope]) *)

Inductive ScopeSet := Wildcard | Allowlist (names : list string).

Definition parse_scope (parts : list string) : Result ScopeSet string :=
  if existsb (fun p => String.eqb p "*") parts && (1 <? length parts)%nat
  then Err ("scope cannot mix '*' with other names: " ^^ debug_strs parts)
  else match parts with
       | [p] => if String.eqb p "*" then Ok Wildcard else Ok (Allowlist parts)
       | _ => Ok (Allowlist parts)
       end.

Definition transpose {A B E} (f : A -> Result B E) (o : option A) : Result (option B) E :=
  match o with Some x => map_result Some (f x) | None => Ok None end.

Definition set_scope (devices tools : option (list string))
  : Result (option ScopeSet * option ScopeSet) string :=
  match devices, tools with
  | None, None => Err "at least one of --devices or --tools must be provided"
  | _, _ =>
      let? d := transpose parse_scope devices in
      let? t := transpose parse_scope tools in Ok (d, t)
  end.

(** ** Properties of the settings *)

Definition warned (w : LegacyEnvWarning) : string :=
  match w with Applied legacy _ => legacy | Ignored legacy _ => legacy end.
(** The variable was set and had no say. *)
Definition ignored (ws : list LegacyEnvWarning) (name : string) : Prop :=
  exists c, Ignored name c ∈ ws.

(** [r] reads the variables [reads], of which [legacy] are of the SRX server: the
    value it settles on does not depend on those it ignores, and it warns once of
    each of those that is set. *)
Record Settles {A} (r : (string -> option string) -> Resolver A) (reads legacy : list string) := {
  s_step : forall env ws x ws', r env ws = Ok (x, ws') -> exists new, ws' = ws ++ new /\
    (forall l, ignored new l -> l ∈ reads) /\
    (forall env', (forall n, n ∈ reads -> ~ ignored new n -> env' n = env n) ->
     forall ws, exists new', r env' ws = Ok (x, ws ++ new')) /\
    (map warned new = List.filter (fun l => match env l with Some _ => true | None => false end) legacy) /\
    (forall l c, Applied l c ∈ new -> env c = None)
}.

Section settles.
Context (os_debug : string -> string) (command_line : string -> bool).

Lemma settles_ret {A} (x : A) : Settles (fun _ => r_ret x) [] [].
Proof.
  split. intros env ws y ws' [= <- <-]. exists []. rewrite app_nil_r. split_and!; [done| | |done|].
  - by intros l (c & ?%not_elem_of_nil).
  - intros env' _ ws'. exists []. by rewrite app_nil_r.
  - by intros l c ?%not_elem_of_nil.
Qed.

Lemma settles_bind {A B} (r : (string -> option string) -> Resolver A)
    (k : A -> (string -> option string) -> Resolver B) d1 l1 d2 l2 :
  Settles r d1 l1 -> (forall x, Settles (k x) d2 l2) -> (forall n, n ∈ d1 -> n ∉ d2) ->
  Settles (fun env => r_bind (r env) (fun x => k x env)) (d1 ++ d2) (l1 ++ l2).
Proof.
  intros [H1] H2 Hd. split. intros env ws y ws'. unfold r_bind.
  destruct (r env ws) as [[x ws1]|] eqn:E; [|done]. intros E2.
  destruct (H1 _ _ _ _ E) as (n1 & -> & I1 & S1 & W1 & A1). destruct (H2 x) as [H2'].
  destruct (H2' _ _ _ _ E2) as (n2 & -> & I2 & S2 & W2 & A2).
  assert (forall n, ignored (n1 ++ n2) n <-> ignored n1 n \/ ignored n2 n) as Hi.
  { intros n. unfold ignored. setoid_rewrite elem_of_app. naive_solver. }
  exists (n1 ++ n2). split_and!.
  - by rewrite app_assoc.
  - intros l [H|H]%Hi; apply elem_of_app; auto.
  - intros env' Ha ws0. destruct (S1 env') with (ws := ws0) as [n1' ->].
    { intros n Hn Hni. apply Ha; [apply elem_of_app; by left|]. rewrite Hi. intros [|H]; [done|].
      by apply (Hd n Hn), I2. }
    destruct (S2 env') with (ws := ws0 ++ n1') as [n2' ->].
    { intros n Hn Hni. apply Ha; [apply elem_of_app; by right|]. rewrite Hi. intros [H|]; [|done].
      by apply (Hd n (I1 _ H)). }
    exists (n1' ++ n2'). by rewrite app_assoc.
  - by rewrite map_app, List.filter_app, W1, W2.
  - intros l c [H|H]%elem_of_app; eauto.
Qed.

Definition opt_list {A} (o : option A) : list A := match o with Some x => [x] | None => [] end.
Definition is_set (env : string -> option string) (name : string) : bool :=
  match env name with Some _ => true | None => false end.

(** The order of precedence: the command line, the setting's variable, the
    variable of the SRX server, the default. *)
Definition effective {T} (env : string -> option string) (current : T) (arg canonical : string)
    (legacy : option string) (parse : string -> string -> Result T string) : Result T string :=
  if command_line arg then Ok current else
  match env canonical, legacy with
  | Some v, _ => parse canonical v
  | None, Some l => match env l with Some v => parse l v | None => Ok current end
  | None, None => Ok current
  end.
Definition warning (env : string -> option string) (arg canonical : string) (legacy : option string)
  : list LegacyEnvWarning :=
  map (fun l => if command_line arg || is_set env canonical then Ignored l (Some canonical)
                else Applied l canonical) (List.filter (is_set env) (opt_list legacy)).

Lemma resolve_eq {T} (current : T) arg canonical legacy parse env ws :
  resolve command_line env current arg canonical legacy parse ws =
  match effective env current arg canonical legacy parse with
  | Ok x => Ok (x, ws ++ warning env arg canonical legacy)
  | Err e => Err e
  end.
Proof.
  unfold resolve, effective, warning, is_set, r_bind, lift, warn, r_ret. destruct legacy as [l|]; cbn.
  - destruct (env l) as [v|]; cbn; destruct (command_line arg), (env canonical) as [w|]; cbn;
      rewrite ?app_nil_r; try done; by destruct (parse _ _); rewrite ?app_nil_r.
  - destruct (command_line arg), (env canonical) as [w|]; cbn; rewrite ?app_nil_r; try done.
    by destruct (parse _ _); rewrite ?app_nil_r.
Qed.

Lemma warning_ignored env arg canonical legacy n :
  ignored (warning env arg canonical legacy) n <->
  legacy = Some n /\ is_set env n = true /\ (command_line arg || is_set env canonical = true).
Proof.
  unfold ignored, warning. destruct legacy as [l|]; cbn; [|by split; [intros (? & ?%not_elem_of_nil)|intros [? _]]].
  destruct (is_set env l) eqn:El; cbn; [|split; [by intros (? & ?%not_elem_of_nil)|naive_solver congruence]].
  setoid_rewrite list_elem_of_singleton. destruct (command_line arg || is_set env canonical); naive_solver.
Qed.

(** The value depends on what is not ignored. *)
Lemma effective_stable {T} env env' (current : T) arg canonical legacy parse :
  canonical ∉ opt_list legacy ->
  (forall n, n ∈ canonical :: opt_list legacy ->
             ~ ignored (warning env arg canonical legacy) n -> env' n = env n) ->
  effective env' current arg canonical legacy parse = effective env current arg canonical legacy parse.
Proof.
  intros Hc Ha. unfold effective. setoid_rewrite warning_ignored in Ha.
  destruct (command_line arg); [done|]. cbn [orb] in Ha.
  assert (env' canonical = env canonical) as ->.
  { apply Ha; [by left|]. intros [-> _]. apply Hc. by left. }
  unfold is_set in Ha. destruct (env canonical) as [v|]; [done|]. destruct legacy as [l|]; [|done].
  rewrite (Ha l); [done|by right; left|]. by intros (_ & _ & ?).
Qed.

Lemma settles_resolve {T} (current : T) arg canonical legacy parse :
  canonical ∉ opt_list legacy ->
  Settles (fun env => resolve command_line env current arg canonical legacy parse)
    (canonical :: opt_list legacy) (opt_list legacy).
Proof.
  intros Hc. split. intros env ws x ws'. rewrite resolve_eq.
  destruct (effective env _ _ _ _ _) as [y|] eqn:E; [|done]. intros [= <- <-].
  exists (warning env arg canonical legacy). split_and!; [done| | | |].
  - intros l (-> & _ & _)%warning_ignored. right. by left.
  - intros env' Ha ws0. rewrite resolve_eq, (effective_stable env env'), E by done. by eexists.
  - unfold warning. rewrite map_map. rewrite <- map_id. apply map_ext. intros l. by case_match.
  - intros l c (l' & H & _)%list_elem_of_fmap. unfold is_set in H.
    destruct (command_line arg), (env canonical) eqn:Ec; cbn in H; congruence.
Qed.

Lemma settles_port : Settles ignored_port ["JMCP_SRX_HTTP_PORT"] ["JMCP_SRX_HTTP_PORT"].
Proof.
  split. intros env ws x ws' H. exists (map (fun l => Ignored l None)
    (List.filter (is_set env) ["JMCP_SRX_HTTP_PORT"])). revert H. unfold ignored_port, is_set. cbn.
  destruct (env "JMCP_SRX_HTTP_PORT") as [v|] eqn:E; intros [= <- <-]; split_and!; rewrite ?app_nil_r; try done.
  - intros l (c & [= -> _]%list_elem_of_singleton). by left.
  - intros env' _ ws0. unfold ignored_port, warn, r_ret. destruct (env' _); [by eexists|].
    exists []. by rewrite app_nil_r.
  - by intros l c ?%list_elem_of_singleton.
  - by intros l (c & ?%not_elem_of_nil).
  - intros env' Ha ws0. unfold ignored_port, r_ret. rewrite Ha, E; [|by left|by intros (c & ?%not_elem_of_nil)].
    exists []. by rewrite app_nil_r.
  - by intros l c ?%not_elem_of_nil.
Qed.

(** *** The whole of the settings *)

(** The variables of the SRX server that are known. *)
Definition LEGACY : list string :=
  ["JMCP_SRX_HTTP_HOST"; "JMCP_SRX_TLS_CERT"; "JMCP_SRX_TLS_KEY"; "JMCP_SRX_ENABLE_METRICS";
   "JMCP_SRX_MAX_REQUEST_BODY_BYTES"; "JMCP_SRX_MAX_INFLIGHT_REQUESTS";
   "JMCP_SRX_MAX_INFLIGHT_REQUESTS_PER_TOKEN"; "JMCP_SRX_MAX_REQUESTS_PER_SECOND_PER_TOKEN";
   "JMCP_SRX_MAX_REQUEST_BURST_PER_TOKEN"; "JMCP_SRX_MAX_INFLIGHT_REQUESTS_PER_ROUTER";
   "JMCP_SRX_MAX_SESSIONS"; "JMCP_SRX_MAX_SESSIONS_PER_TOKEN";
   "JMCP_SRX_SESSION_IDLE_TIMEOUT_SECS"; "JMCP_SRX_SESSION_MAX_LIFETIME_SECS";
   "JMCP_SRX_AUDIT_FORMAT"; "JMCP_SRX_AUDIT_LOG_FILE"; "JMCP_SRX_AUDIT_JOURNALD";
   "JMCP_SRX_AUDIT_REDACT"; "JMCP_SRX_AUDIT_HMAC_KEY_FILE"; "JMCP_SRX_STAGING_DIR";
   "JMCP_SRX_STAGING_MAX_BYTES"; "JMCP_SRX_HTTP_PORT"].

Ltac settles :=
  lazymatch goal with
  | |- Settles (fun env => r_bind (resolve _ _ _ _ _ _ _) _) _ _ =>
      refine (settles_bind _ (fun x env => _) _ _ _ _ _ _ _);
      [apply settles_resolve; apply (bool_decide_eq_true_1 _); by vm_compute | intros ?; cbn beta; settles |]
  | |- Settles (fun env => r_bind (ignored_port _) _) _ _ =>
      refine (settles_bind _ (fun x env => _) _ _ _ _ _ _ _);
      [apply settles_port | intros ?; cbn beta; apply settles_ret |]
  end.

Lemma disjoint_names (a b : list string) :
  forallb (fun n => negb (existsb (String.eqb n) b)) a = true -> forall n, n ∈ a -> n ∉ b.
Proof.
  rewrite forallb_forall. intros H n Ha Hb. apply list_elem_of_In in Ha, Hb.
  specialize (H n Ha). apply negb_true_iff, not_true_iff_false in H. apply H, existsb_exists.
  exists n. by rewrite String.eqb_refl.
Qed.

Lemma settles_env cli : exists reads legacy,
  Settles (fun env => try_parse_from_with_env os_debug command_line env cli) reads legacy /\
  legacy = LEGACY.
Proof.
  eexists _, _. split.
  - unfold try_parse_from_with_env. settles.
    all: apply disjoint_names; by vm_compute.
  - reflexivity.
Qed.

(** C40: the environment is accounted for.  When the settings are read, every
    variable of the SRX server that is set is warned of exactly once, and of no
    other; the settings do not depend on those it is said were ignored, whatever
    they hold; and one is said to be applied only where the setting's own variable
    is unset. *)
Theorem environment_accounted env cli cli' ws :
  try_parse_from_with_env os_debug command_line env cli [] = Ok (cli', ws) ->
  map warned ws = List.filter (is_set env) LEGACY /\
  (forall env', (forall n, ~ ignored ws n -> env' n = env n) ->
     exists ws', try_parse_from_with_env os_debug command_line env' cli [] = Ok (cli', ws')) /\
  (forall legacy canonical, Applied legacy canonical ∈ ws -> env canonical = None).
Proof.
  intros H. destruct (settles_env cli) as (reads & legacy & [Hs] & ->).
  destruct (Hs _ _ _ _ H) as (new & -> & _ & S & W & A). cbn [app].
  split; [exact W|]. split; [|exact A]. intros env' Ha. apply (S env').
  intros n _ Hn. by apply Ha.
Qed.

End settles.

(** ** Properties of the decisions of [main] *)

Section main_props.
Context {X : External}.
Context (resolve_token_path : string -> string -> Result ResolvedTokenPath string).
Context (validate : Cli -> Result unit string).

(** A path of the operator's own never falls back to the old store. *)
Lemma custom_path_never_falls_back configured r :
  resolve_tokens resolve_token_path configured = Ok r ->
  configured <> "/var/lib/jmcp/tokens.json" ->
  path r = configured /\ used_fallback r = false /\ fallback_from r = None.
Proof.
  unfold resolve_tokens, resolve_tokens_with. intros H Hne.
  destruct (String.eqb_spec configured "/var/lib/jmcp/tokens.json"); [done|]. by injection H as <-.
Qed.

(** With the checks passed, the server is never reachable over HTTP without
    a token store unless the operator asked for it, the arm [main] declares
    unreachable is, and a server that lets no one change its inventory takes no
    passwords; [validate] is relied on to refuse HTTP that has neither a token
    file nor [--allow-no-auth]. *)
Theorem startup_is_guarded cli source :
  (forall cli, validate cli = Ok tt -> transport cli = StreamableHttp -> tokens_file cli = None ->
               allow_no_auth cli = true) ->
  startup_checks validate cli = Ok tt -> token_source resolve_token_path cli = Ok source ->
  source <> Unreachable /\
  (transport cli = StreamableHttp -> source = NoStore -> allow_no_auth cli = true) /\
  (inventory_readonly cli = true -> allow_password_auth_add cli = false) /\
  (1 <= commit_confirm_default_mins cli)%N /\ (60 * commit_confirm_default_mins cli <= U32_MAX)%N.
Proof.
  intros Hv. unfold startup_checks, token_source.
  destruct (validate cli) as [[]|e] eqn:Ev; [|done]. cbn.
  destruct (inventory_readonly cli && allow_password_auth_add cli) eqn:Ei; [done|].
  destruct (enable_metrics cli && _); [done|].
  destruct (confirm_timeout_to_secs _) as [s|e] eqn:Ec; [|done]. intros _ Hs.
  apply confirm_timeout_to_secs_spec in Ec as (H1 & H2 & _).
  assert (inventory_readonly cli = true -> allow_password_auth_add cli = false) as Hi.
  { intros Hr. by rewrite Hr in Ei. }
  specialize (Hv cli Ev).
  destruct (tokens_file cli) as [f|].
  { destruct (resolve_tokens _ f); [|done]. injection Hs as <-. by split_and!. }
  destruct (allow_no_auth cli) eqn:Ea; [injection Hs as <-; by split_and!|].
  case_bool_decide as Ht; [by specialize (Hv Ht eq_refl)|]. injection Hs as <-. by split_and!.
Qed.

End main_props.

(** An audit key, once there, is never rotated; no other file is touched; and a
    start that goes on has one. *)
Lemma audit_key_kept entropy open write_all path fs :
  let '(r, fs') := ensure_audit_hmac_key entropy open write_all path fs in
  (forall p content, fs !! p = Some content -> content <> "" -> fs' !! p = Some content) /\
  (forall p, p <> path -> fs' !! p = fs !! p) /\
  (r = Ok tt -> entropy <> Ok [] -> exists content, fs' !! path = Some content /\ content <> "").
Proof.
  unfold ensure_audit_hmac_key.
  assert (forall content, (0 <? len content)%N = true <-> content <> "") as Hl.
  { intros [|c s]; [by split|]. cbn. split; [done|]. intros _. by apply N.ltb_lt. }
  destruct (match fs !! path with Some content => (0 <? len content)%N | None => false end) eqn:Ep.
  { split_and!; [done|done|]. intros _ _. destruct (fs !! path) as [c|]; [|done]. exists c.
    split; [done|by apply Hl]. }
  assert (forall p content new, fs !! p = Some content -> content <> "" ->
            <[path := new]> fs !! p = Some content) as Hk.
  { intros p content new Hp Hc. destruct (decide (path = p)) as [<-|Hne].
    - rewrite Hp in Ep. apply Hl in Hc. congruence.
    - by rewrite lookup_insert_ne. }
  assert (forall p (new : string), p <> path -> <[path := new]> fs !! p = fs !! p) as Ho.
  { intros p new Hp. by rewrite lookup_insert_ne. }
  destruct entropy as [key|e]; [|done]. destruct (open path); [|done]. cbn [negb].
  destruct (write_all path) as [n|]; split_and!; eauto; [done|].
  intros _ He. eexists. rewrite lookup_insert_eq. split; [done|].
  destruct key as [|b key]; [by destruct He|]. done.
Qed.

(** A parsed scope is everything, or names of which none is [*]. *)
Lemma parse_scope_spec parts s :
  parse_scope parts = Ok s <->
  (parts = ["*"] /\ s = Wildcard) \/ (("*" ∉ parts) /\ s = Allowlist parts).
Proof.
  unfold parse_scope.
  assert (existsb (fun p => String.eqb p "*") parts = true <-> "*" ∈ parts) as He.
  { rewrite existsb_exists. setoid_rewrite <- list_elem_of_In. setoid_rewrite String.eqb_eq. naive_solver. }
  destruct (existsb _ parts) eqn:E; cbn.
  - destruct He as [He _]. specialize (He eq_refl). destruct parts as [|p [|q parts]]; cbn.
    + by apply not_elem_of_nil in He.
    + apply list_elem_of_singleton in He as <-. cbn. split; [intros [= <-]; by left|].
      intros [[_ ->]|[H _]]; [done|]. destruct H. by left.
    + split; [done|]. intros [[H _]|[H _]]; [done|by destruct H].
  - assert ("*" ∉ parts) as Hn by (intros H%He; congruence).
    assert (forall p, parts = [p] -> String.eqb p "*" = false) as Hp.
    { intros p ->. apply String.eqb_neq. intros ->. apply Hn. by left. }
    transitivity (s = Allowlist parts).
    + destruct parts as [|p [|q parts]]; [| rewrite (Hp p eq_refl)|]; split; congruence.
    + split; [by right|]. intros [[-> _]|[_ ?]]; [|done]. destruct Hn. by left.
Qed.

(** An environment, and a command line without arguments. *)
Definition vars (l : list (string * string)) (name : string) : option string :=
  option_map snd (List.find (fun kv => String.eqb kv.1 name) l).
Definition demo_env : string -> option string :=
  vars [("JMCP_MAX_SESSIONS", "77"); ("JMCP_SRX_MAX_SESSIONS", "many");
        ("JMCP_SRX_HTTP_HOST", "192.0.2.10"); ("JMCP_SRX_HTTP_PORT", "30032")].
Definition demo_settings (env : string -> option string) : Result (Cli * list LegacyEnvWarning) string :=
  try_parse_from_with_env (fun s => s) (fun _ => false) env defaults [].

Lemma environment_accounted_witness : exists cli' ws,
  demo_settings demo_env = Ok (cli', ws) /\
  host cli' = "192.0.2.10" /\ port cli' = 30030%N /\ max_sessions cli' = 77%N /\
  ws = [Applied "JMCP_SRX_HTTP_HOST" "JMCP_HTTP_HOST";
        Ignored "JMCP_SRX_MAX_SESSIONS" (Some "JMCP_MAX_SESSIONS");
        Ignored "JMCP_SRX_HTTP_PORT" None] /\
  map warned ws = List.filter (is_set demo_env) LEGACY.
Proof.
  assert (exists cli' ws, demo_settings demo_env = Ok (cli', ws)) as (cli' & ws & H).
  { unfold demo_settings. vm_compute. by eexists _, _. }
  destruct (environment_accounted (fun s => s) (fun _ => false) demo_env defaults cli' ws H) as [Hw _].
  exists cli', ws. vm_compute in H. injection H as <- <-. by split_and!.
Defined.
