(* ===== verification/ServerDemo.v ===== *)
(** * A server

    The server's theorems at concrete callers, tools and devices, and what it
    does there: the shortcomings that modelling showed are examples here. *)

From S2P Require Import Prelude RustStr Fmt Errors Helpers Inventory Async Transfer SrxErrors SignatureConfirmation.
From S2P Require Import ConfigTools ClusterStatus IdpPackage AppidPackage SiteDemo JunosTransaction.
From S2P Require Import Auth Redaction ServerAudit ServerTools SrxServer Execute ServerSpec DispatchSpec.
From S2P Require Import JsonValue.
From Stdlib Require Import Ascii.

Module DemoServer.

#[local] Existing Instance string_external.
#[local] Existing Instance DemoSite.demo_sha.
Import DemoRedactor.

(** ** Callers: a token's name and its scopes *)

Inductive ScopeSet := Wildcard | Allowlist (names : list string).
Record Token := { tk_name : string; tk_tools : ScopeSet; tk_devices : ScopeSet }.

Definition in_scope (s : ScopeSet) (write : list string) (name : string) : bool :=
  match s with
  | Wildcard => negb (bool_decide (name ∈ write))
  | Allowlist names => bool_decide (name ∈ names)
  end.

#[local] Instance demo_caller : Caller := {|
  CallerCtx := Token;
  token_name := tk_name;
  allows_tool c tool write := in_scope (tk_tools c) write tool;
  allows_device c d := in_scope (tk_devices c) [] d;
  filter_device_names ctx ns :=
    match ctx with
    | None => ns
    | Some c => List.filter (fun n => in_scope (tk_devices c) [] n) ns
    end
|}.

Lemma demo_caller_laws : CallerLaws.
Proof.
  split; [done|]. intros c ns n. cbn. rewrite !list_elem_of_In. by rewrite filter_In.
Qed.

Definition reader : Token :=
  {| tk_name := "reader"; tk_tools := Wildcard; tk_devices := Allowlist ["srx1"] |}.
Definition operator : Token :=
  {| tk_name := "operator"; tk_tools := Allowlist ["execute"; "discard_candidate"];
     tk_devices := Allowlist ["srx1"] |}.

(** ** A core that counts the tools it ran *)

Definition ran : Act nat Value ToolStop := fun w =>
  (Ok (Str "done"), mk_world (w_now w) (w_cancel_at w) (S (w_backend w))).
Definition srx_ran (v : Value) : Act nat Value SrxError := fun w =>
  (Ok v, mk_world (w_now w) (w_cancel_at w) (S (w_backend w))).

Definition srx1 : DeviceEntry :=
  {| ip := "192.0.2.1"; port := 22; username := "jmcp"; auth := Password "x";
     ssh_config := None; blocklist := None; config_authority := AuthLocal |}.
Definition demo_inventory : Inventory :=
  {| devices := <["srx1" := srx1]> ∅; blocklist_defaults := None; source_path := "devices.json" |}.

#[local] Instance demo_core : CoreTools nat := {|
  core_inventory _ := demo_inventory;
  facts _ := ran; execute_command _ := ran; get_config_tool _ := ran; config_diff_tool _ := ran;
  load_commit _ _ := ran; commit_check_tool _ := ran; discard_tool _ := ran; rollback _ _ := ran;
  confirm_commit_tool _ _ := ran; pfe _ := ran; batch _ := ran; template _ := ran;
  add_device_tool _ := ran; reload_devices_tool _ := ran; transfer_tool _ := ran;
  fetch_tool _ := ran; upgrade_tool _ _ _ := ran; list_staged_tool _ := ran;
  create_change_set_tool _ _ := ran; approve_change_set_tool _ _ := ran;
  cancel_change_set_tool _ _ := ran; apply_change_set_tool _ _ := ran;
  confirm_change_set_tool _ _ := ran; change_set_status _ := ran;
  change_set_status_with_actions _ := ran; list_change_sets_tool _ := ran;
  candidate_fingerprint _ := ran
|}.

(** No device opens, and no token stands. *)
#[local] Instance demo_workflows : SrxWorkflows nat := {|
  SrxHandle := unit;
  dm_open router := act_ret (Err (UnknownRouter router));
  handle_drop _ s := s;
  validate_token _ _ := act_ret (Err Invalid);
  run_cluster_status _ _ := srx_ran Null; run_services_status _ _ := srx_ran Null;
  run_license _ _ := srx_ran Null; run_vpn_lifecycle _ _ := srx_ran Null;
  run_list_policies _ _ := srx_ran Null; run_resolve_address _ _ := srx_ran Null;
  run_resolve_application _ _ := srx_ran Null; run_list_nat_rules _ _ := srx_ran Null;
  run_cluster_health _ _ := srx_ran Null; run_flow_sessions _ _ := srx_ran Null;
  run_policy_match _ _ := srx_ran Null; run_support_bundle _ _ := srx_ran Null;
  run_idp_package _ _ _ _ _ := srx_ran Null; run_appid_package _ _ _ _ _ := srx_ran Null
|}.

(** ** Text *)

#[local] Instance text_only : JsonText := {|
  json_from_str _ := Err "not JSON";
  json_pretty v := match v with Str s => Ok s | _ => Ok "{..}" end
|}.
#[local] Instance demo_text_redactor : Redactor := {|
  redact_text s :=
    if contains "$9$" s && negb (starts_with RMCP_ARGUMENT_ERROR_PREFIX s) then REDACTED else s;
  redact_xml_str _ := None;
  redact_json_value := redact
|}.
Lemma demo_text_redactor_laws : RedactorLaws (Re := demo_text_redactor).
Proof. destruct demo_redactor_laws as [H1 H2 H3 H4]. by constructor. Qed.
#[local] Existing Instance demo_text_redactor_laws.

Definition display (v : Value) : string := match v with Str s => s | _ => "{..}" end.

(** ** [rmcp]: three tools' arguments *)

#[local] Instance demo_rmcp : Rmcp := {|
  parse_call name args :=
    match as_str (obj_get "device" args) with
    | Some d =>
        if String.eqb name "discard_candidate"
        then Ok (JunosTool (DiscardCandidate {| dc_device := d; dc_timeout := 1 |}))
        else if String.eqb name "list_junos_change_sets"
        then Ok (JunosTool (ListJunosChangeSets {| lg_device := Some d |}))
        else if String.eqb name "get_chassis_cluster_status"
        then Ok (SrxTool (GetChassisClusterStatus {| cs_router := d; cs_include_raw := false |}))
        else Err (invalid_params "no such argument" None)
    | None => Err (invalid_params "missing field `device`" None)
    end;
  parse_facade args :=
    match obj_get "operation" args, obj_get "arguments" args with
    | Some (Str op), Some (Object a) =>
        if Nat.eqb (length args) 2 then Ok {| operation := op; arguments := a |}
        else Err (invalid_params "unknown field" None)
    | _, _ => Err (invalid_params "missing field" None)
    end;
  argument_error e :=
    Ok (error_result [TextBlock (RMCP_ARGUMENT_ERROR_PREFIX ^^ ed_message e)]);
  tool_not_found name := invalid_params "tool not found" None
|}.

Lemma demo_rmcp_laws : RmcpLaws.
Proof.
  split; cbn.
  - intros name args c. destruct (as_str _); [|done].
    destruct (String.eqb_spec name "discard_candidate"); [by intros [= <-]|].
    destruct (String.eqb_spec name "list_junos_change_sets"); [by intros [= <-]|].
    destruct (String.eqb_spec name "get_chassis_cluster_status"); [by intros [= <-]|done].
  - intros args a. destruct (obj_get "operation" args) as [[]|]; try naive_solver.
    destruct (obj_get "arguments" args) as [[]|]; try naive_solver.
    destruct (Nat.eqb_spec (length args) 2); split; try naive_solver.
    intros (_ & [= Ho] & [= Ha]). destruct a. cbn in *. by subst.
  - intros e. left. by eexists.
Qed.
#[local] Existing Instance demo_rmcp_laws.

(** The concrete tools, by name. *)
Definition named_tool (name : string) : Tool :=
  {| t_name := name; t_description := Some "One tool. It does one thing.";
     input_schema := [("required", Array [Str "device"])]; annotations := None |}.
Definition all_tools : list Tool := map named_tool (JUNOS_TOOLS ++ SRX_TOOLS).

Lemma all_registered : registered all_tools.
Proof. unfold registered, all_tools. by rewrite map_map, map_id. Qed.

Definition whoami (t : Token) : Attribution :=
  {| change_ref := None; principal := tk_name t; on_behalf_of := None; actor_type := Human;
     agent := None; request_id := "r"; approver := None; change_set_id := None |}.
Definition refuse_commits (_ : AuditScope demo_caller) : Result unit DirectCommitRefused :=
  Err ("direct commit is disabled" : string).
Definition handler : JmcpHandler :=
  {| allow_plane_owned_writes := false; web_enabled_approver := false;
     authorization_required := true; started := 0 |}.

#[local] Abbreviation demo_router :=
  (router_call (S := nat) refuse_commits display ed_message 10%N None "1.0" whoami
     (whoami reader) handler all_tools).
#[local] Abbreviation demo_call :=
  (call_tool (S := nat) refuse_commits display ed_message 10%N None "1.0" whoami
     (whoami reader) handler all_tools).

Definition start : World (Served demo_caller nat) := mk_world 0 None (mk_served [] 0).
Definition on_srx1 : list (string * Value) := [("device", Str "srx1")].
Definition via_facade (op : string) : list (string * Value) :=
  [("operation", Str op); ("arguments", Object on_srx1)].

(** ** What it does *)

Example operator_discards :
  let '(r, w') := demo_call (Some operator) "discard_candidate" (Some on_srx1) start in
  r = Ok (Complete (success [TextBlock "done"])) /\ sv_core (w_backend w') = 1 /\
  map as_calls (sv_log (w_backend w')) = [[Succeed]].
Proof. by vm_compute. Qed.

Example reader_may_not_discard :
  let '(r, w') := demo_call (Some reader) "discard_candidate" (Some on_srx1) start in
  r = Ok (Complete (error_result
        [TextBlock "token 'reader' is not authorized for tool 'discard_candidate'"])) /\
  sv_core (w_backend w') = 0 /\ map as_calls (sv_log (w_backend w')) = [[Deny "tool_scope"]].
Proof. by vm_compute. Qed.

(** Naming another device does not help, and neither does the facade. *)
Example operator_has_one_device :
  let '(r, w') := demo_call (Some operator) "execute"
    (Some [("operation", Str "discard_candidate");
           ("arguments", Object [("device", Str "srx2")])]) start in
  r = Ok (Complete (error_result [TextBlock
        "token 'operator' is not authorized for router 'srx2' (tool 'discard_candidate')"])) /\
  sv_core (w_backend w') = 0.
Proof. by vm_compute. Qed.

(** A token for [srx1] lists the change sets of [srx2]: no scope is checked. *)
Example listing_another_device :
  let '(r, w') := demo_call (Some reader) "list_junos_change_sets"
                    (Some [("device", Str "srx2")]) start in
  r = Ok (Complete (success [TextBlock "done"])) /\ sv_core (w_backend w') = 1.
Proof. by vm_compute. Qed.

(** A device that does not open: the handler's record has no outcome, and the
    call is recorded a second time as refused before any handler ran. *)
Example failed_srx_call_is_recorded_as_rejected :
  let '(r, w') := demo_call (Some reader) "get_chassis_cluster_status" (Some on_srx1) start in
  map (fun s => (as_action s, as_calls s)) (sv_log (w_backend w')) =
    [("read", []);
     ("reject", [FailKind "dispatch_rejected"
                   ("opening device: " ^^ to_string (UnknownRouter "srx1"))])].
Proof. by vm_compute. Qed.

(** The number of devices listed is looked up in an object that is an array. *)
Example device_count_is_never_recorded :
  let '(r, w') := get_device_list (S := nat) (Some reader) start in
  map as_calls (sv_log (w_backend w')) = [[Succeed]].
Proof. by vm_compute. Qed.

(** ** The theorems here *)

Lemma facade_confers_nothing_witness :
  demo_router (Some operator) "execute" (Some (via_facade "discard_candidate")) start =
  demo_router (Some operator) "discard_candidate" (Some on_srx1) start.
Proof.
  refine (proj1 (facade_confers_nothing refuse_commits display ed_message 10%N None "1.0" whoami
    (whoami reader) handler all_tools (Some operator) all_registered) "discard_candidate" on_srx1
    start eq_refl _).
  apply (bool_decide_eq_true (_ ∈ JUNOS_TOOLS ++ SRX_TOOLS)). by vm_compute.
Defined.

Lemma listed_is_callable_witness :
  (named_tool "discard_candidate" ∈ listed (list_tools all_tools (Some reader) false) <->
   named_tool "discard_candidate" ∈ all_tools /\
   check_tool_scope (Some reader) "discard_candidate" = None) /\
  served_core (demo_router (Some reader) "discard_candidate" (Some on_srx1) start).2 =
    served_core start.
Proof.
  destruct (listed_is_callable refuse_commits display ed_message 10%N None "1.0" whoami
    (whoami reader) handler all_tools all_tools (Some reader) false) as [H1 H2].
  split; [apply H1|]. refine (proj1 (H2 "discard_candidate" (Some on_srx1) start _)).
  by vm_compute.
Defined.

Lemma every_call_recorded_witness :
  exists new,
    sv_log (w_backend (demo_call (Some reader) "no_such_tool" None start).2) =
      sv_log (w_backend start) ++ new /\ new <> [] /\
    Forall (fun s => as_caller s = Some reader /\
              (as_tool s = "unknown_tool" \/ as_tool s ∈ KNOWN_TOOLS)) new.
Proof.
  apply (every_call_recorded refuse_commits display ed_message 10%N None "1.0" whoami
    (whoami reader) handler all_tools (Some reader) "no_such_tool" None start).
  intros t Ht. assert (E : redact_text t = t).
  { cbn [redact_text demo_text_redactor]. by rewrite Ht, andb_false_r. }
  unfold redact_body. cbn [json_from_str text_only redact_xml_str demo_text_redactor].
  rewrite E. by destruct (starts_with "<" (trim_start t)).
Defined.

Lemma plan_keeps_only_its_token_witness :
  exists plan rest,
    redact_last_mile (Err (signature_error_to_rmcp display
      (SignaturePackageConfirmationRequired "srx1"
         (Object [("action", Str "rollback"); ("confirmation_token", Str "short")])))) =
    Err (invalid_request
      ("[code=confirmation_required] router=srx1: confirmation required — re-call with confirm=true and the plan's confirmation_token; plan: "
       ^^ display (Object plan))
      (Some (Object [("code", Str "confirmation_required")]))) /\
    safe exempt (Object rest) = true /\ obj_get "confirmation_token" rest = None /\ plan = rest.
Proof.
  apply (plan_keeps_only_its_token display "srx1"
    [("action", Str "rollback"); ("confirmation_token", Str "short")]).
  apply (bool_decide_eq_true (NoDup _)). by vm_compute.
Defined.

Definition rollback_call : SrxCall :=
  ManageIdpSecurityPackage
    {| IdpPackage.router := "srx1"; IdpPackage.action := IdpRollback; IdpPackage.version := None;
       IdpPackage.confirm := true; IdpPackage.confirmation_token := Some "forged";
       IdpPackage.timeout := None; IdpPackage.include_raw := false |}.
Definition packager : Token :=
  {| tk_name := "packager"; tk_tools := Allowlist ["manage_idp_security_package"];
     tk_devices := Wildcard |}.

Lemma srx_checks_come_first_witness :
  (srx_route display ed_message None "1.0" handler None rollback_call start).1 =
    Ok (srx_scope_to_call_result MissingCallerContext) /\
  stopped (srx_route display ed_message None "1.0" handler (Some packager) rollback_call) start
    (signature_error_to_rmcp display (into_srx_error "srx1" Invalid)) (served_core start).
Proof.
  split.
  - refine (proj1 (proj1 (srx_checks_come_first display ed_message None "1.0" handler None
                            rollback_call start) MissingCallerContext _)). by vm_compute.
  - refine (proj2 (srx_checks_come_first display ed_message None "1.0" handler (Some packager)
      rollback_call start) "srx1" true (Some "forged") "srx1|192.0.2.1|22|jmcp" _ _ (Some packager)
      _ _ _ _); by vm_compute.
Defined.

End DemoServer.
